(* ===== verification/_CoqProject ===== *)
-Q . S2P
Prelude.v
Bytes.v
CString.v
Itoa.v
Kstate.v
Umalloc.v
Spinlock.v
Mmu.v
Segment.v
Cons.v
Kalloc.v
Sched.v
Bio.v
Bcache.v
Ports.v
Ide.v
Log.v
Commit.v
Inode.v
User.v
Uprogs.v
Grep.v
Usertests.v
Usertestsok.v
Shell.v
Shparse.v
Fsblock.v
Console.v
Conline.v
Kbd.v
Typing.v
Fsdata.v
Fsfile.v
Fsinode.v
Pipe.v
File.v
Fsop.v
Filerw.v
Directory.v
Namei.v
Trunc.v
Vm.v
Proc.v
Scheduler.v
Debug.v
Pagetable.v
Uvm.v
Copyuvm.v
Threads.v
Growproc.v
Uload.v
Pthread.v
Args.v
Argsafe.v
Ksync.v
Sysproc.v
Exec.v
Sysfile.v
Open.v
Execload.v
Execok.v
Syscall.v
Trap.v
Apic.v
Clock.v
Uart.v
Cpu.v
Mp.v
Bootmain.v
Main.v
Mkfs.v
Mkimage.v
Mkfsok.v
