(* ===== verification/Prelude.v ===== *)
(** * A verification of xv6 with user threads

    The program is a small Unix for the x86: a boot loader, a multiprocessor kernel, a user library,
    a shell and user programs, and the host program that builds the disk image. This repository adds
    threads to it (clone, join and thread_exit in proc.c, the library pthread.c, and a randomised
    scheduling policy). The development translates the C sources into executable definitions and
    proves what makes the parts correct.

    ** How C is modelled

    - Integers are [Z] with the wrap-around of their width written out ([u32], [s32], ... in this
      file); byte arrays are lists of bytes (Bytes.v); structures are records, updated with
      [r <| f := v |>]; enumerations are inductive types.
    - Code that reads or changes state is a function in the monad [M S] of this file, over the record
      [kstate] of all the kernel's variables (Kstate.v) or, for user code and drivers, over a state of
      their own. Its outcomes are a value, [Switch] (the code has called swtch() and the processor is
      in the scheduler), [Panic] (panic(), an assertion or exit(1)), [Fault] (undefined behaviour of
      the C code: a bad access, or the use of a value that a function did not return) and [OutOfFuel].
    - [wp m Q s] says that [m] from [s] returns, in a state where [Q] holds: it excludes panics, faults,
      sleeping and running out of fuel. [wps] also allows the code to give up the processor, in a state
      where a second postcondition holds; [wlp] is the same but allows the other outcomes too. The tactics [wp_step], [wp_steps] and the rules for the monad are here.
    - A loop is a structural recursion where the C code has a bound; otherwise it takes fuel, and the
      theorems say how much is enough: the length of the data (strings, directory entries, the input of
      a program, the entries of a table), the number of buffers or pages, or, for a device that is
      polled, the number of looks its laws promise. Running out of fuel is never a result of [wp].
    - Hardware, assembly code and the host are not under the sources' control. Devices are type
      classes: [Ports] and [Mmio] (Ports.v) for the instructions, and for each device the laws of its
      documentation, [IdeDisk] (Ide.v), [Rtc] (Clock.v) and [Serial] (Uart.v), each with an
      instance that shows that the laws can hold. [Streams] (User.v) and [Names] (Usertestsok.v) are what a user program
      may assume of the system calls, and [Cooperative] (Scheduler.v) what the scheduler assumes of a process; it is shown of
      turns made of wakeup, kill, yield and sleep. The laws say nothing of a device used out of turn: registers and commands sent to a busy disk, or
      clock registers read during an update. That the disk asks for the data of a write at once and does not fail writes is a hypothesis of
      its own, [prompt_writes], since ide.c relies on it.

    ** The kernel

    - Memory. Kalloc.v is kalloc.c, the free list threaded through the free pages; no page is lost or
      handed out twice ([kalloc_conserves_pages]). Mmu.v and Segment.v are mmu.h. Vm.v is vm.c, with page tables in
      simulated physical memory; Pagetable.v proves mappages against the translation the MMU performs, Uvm.v
      allocuvm and deallocuvm, Copyuvm.v freevm, setupkvm and copyuvm, against the pages of the process: what is mapped,
      what is kept, and that no page frame is lost. A failing copyuvm gives every page back; a failing allocuvm gives
      back the user pages and keeps the page tables it added.
    - Locks and scheduling. Spinlock.v is spinlock.c, one memory access at a time on several CPUs,
      with mutual exclusion, hand-over and a refinement: each step of the lock code takes effect as the atomic
      acquire and release of Kstate.v, which the rest of the kernel is modelled with. Sched.v has sleep, wakeup, sched, yield, kill and sleeplock.c; Proc.v
      the rest of proc.c but the scheduler: processes, threads and the randomised yield. Threads.v proves
      fork, clone and join, with the files, pages and address space they share, copy or give back, that wait on a child
      that is a thread frees the memory of its caller, and that the random generator stays away from 0; exit
      and thread_exit are definitions only. Growproc.v proves growproc on every int, and that it panics in the second of two
      threads that grow. Scheduler.v is scheduler() over the processes' turns, with the proof that each pass over the
      table runs every process that was RUNNABLE when it began. Debug.v is procdump and getcallerpcs.
    - The disk. Bio.v is bio.c over the memory disk memide.c. Bcache.v has the cache's invariant and
      proves that any sequence of reads and writes through the cache has the results of the bare disk.
      Ide.v is the interrupt-driven driver ide.c with its queue, and proves that it serves each request with the effect the memory
      disk's driver has, on a disk with prompt writes that reports no error on a read; [ideintr_read_error] says what happens when it does.
      The file system's theorems are about the memory disk.
    - The log. Log.v is log.c. Commit.v proves that a transaction is atomic and durable, for a crash
      at any disk write, and at any write of any number of interrupted recoveries. It is one transaction at a time, from
      an idle file system: several system calls sharing a transaction are not covered. A block reaches the disk whole.
    - The file system. Inode.v and Fsdata.v are fs.c; Fsblock.v, Fsfile.v and Fsinode.v prove balloc, bfree, bmap, readi,
      writei and iupdate against files as byte sequences. Directory.v takes directories as maps from names to inode numbers and proves dirlookup
      and dirlink, with the case in which dirlink deadlocks; Namei.v proves that namei and nameiparent follow a path through
      the tree of directories and keep the reference counts of the inode cache; Trunc.v proves that the last iput of a file
      without links frees its blocks and its inode and nothing else. ialloc is a definition only. File.v is file.c; Fsop.v and Filerw.v prove
      that fileread returns what filewrite wrote, and that a crash during filewrite leaves a prefix of the
      bytes written and nothing else changed. Pipe.v is pipe.c, a first-in first-out queue under any interleaving of
      the writers' and readers' copy loops.
    - The console. Cons.v, Console.v and Kbd.v are console.c, kbd.c and kbd.h; Conline.v proves that the ring
      with its wrapping indices implements the line discipline on lists, and Typing.v composes keyboard, line discipline
      and consoleread, for the keys of the US layout. Uart.v is uart.c, with the same for the serial line.
    - System calls and traps. Args.v is the argument part of syscall.c, and Argsafe.v proves that no user stack can
      make the kernel fault or accept memory outside the process. Sysproc.v, Sysfile.v, Exec.v, Ksync.v,
      Syscall.v and Trap.v are sysproc.c, sysfile.c, exec.c, ksync.c, syscall.c and trap.c; these files hold executable
      definitions and no theorems. Open.v proves the open system call without O_CREATE, from the arguments on the user's
      stack to the descriptor and the inode. Uload.v, Execload.v and Execok.v prove exec: the bytes a process reads through
      its page table, the segments loaduvm brings in from the file, and the whole call, which turns the process into the
      program the file holds or leaves its address space as it was. Arguments are shorter than 32 MB each, since copyout
      faults where no page table reaches; exec then succeeds whenever the program fits and more than 1025 pages and the
      program's own are free, 1024 of them for page tables.
    - The machine. Cpu.v has struct cpu, mycpu, seginit, the task state, tvinit and idtinit, and proves what the
      processor's tables let user code do. Apic.v is lapic.c, ioapic.c and picirq.c, of which Clock.v proves that cmostime
      returns the date of one moment, on a clock whose registers are undefined during an update. Mp.v is mp.c, on any table of the MP specification, with the table on which it does
      not terminate. Bootmain.v is bootmain.c, which is proved to load the kernel's segments. Main.v is main.c, with
      what the boot page table maps; the order of the start-up calls is a definition and nothing is proved of it.

    ** User space and the host

    - CString.v and Itoa.v are string.c, the string functions of ulib.c and the number formatting that printf.c and
      console.c share. User.v is user.h, printf.c and the rest of ulib.c. 
      Umalloc.v is umalloc.c: malloc and free keep the circular free list, hand out no memory twice and lose none, for
      requests below the size at which the arithmetic wraps. Pthread.v is pthread.c; pthread_create is proved to start the
      thread at the trampoline, on a stack of its own, over a clone that writes to that stack what the kernel's does.
    - Uprogs.v has the small programs; Grep.v grep.c, whose matcher decides the language of the
      pattern and which prints the matching lines when every read is complete, but can lose a line when one is not; Usertests.v usertests.c, forktest.c and stressfs.c, of which Usertestsok.v proves what
      the pipe test decides and which faults two of the file tests miss; Shell.v sh.c, and Shparse.v the proof that its parser accepts exactly the grammar and returns its tree.
    - Mkfs.v is mkfs.c. Mkimage.v and Mkfsok.v prove that the image it writes has the files it was given, in the form the
      kernel's theorems require. The root directory has that form unless its entries fill their last block exactly,
      where mkfs makes it a block too long.

    ** What is not modelled

    - Assembly (swtch.S, trapasm.S, entry.S, entryother.S, bootasm.S, initcode.S, usys.S) and what is generated
      from scripts (vectors.S): swtch appears as the outcome [Switch], the others as arguments or not at all.
    - The processors' concurrency outside spinlock.c. Kernel code runs without interleaving from one point where it
      gives up the processor to the next. Spinlock.v proves that the locks exclude each other's holders, but not that all
      shared data is accessed under its lock, so this is an assumption of the model.
    - The interrupt flag of the processor outside spinlock.c: sched's check of it and its saving of intena are left out. The
      end-of-interrupt command of the interrupt controller is an argument of trap.
    - The klock functions that the system call table names are defined nowhere in the sources and are
      parameters; the semaphore functions have empty bodies and are modelled as such.
    - missionaries.c, which README_THREADS.md names but which is in the repository only compiled.
    - A failing malloc in the shell, and failures of the host's lseek and write in mkfs. *)

From stdpp Require Import base list gmap strings numbers.
From Stdlib Require Import ZArith Lia.
From Stdlib Require Export ZifyBool.

Open Scope Z_scope.

(** ** Machine integers

    A C integer of width [w] is a [Z]; the wrap-around of each operation is
    written out with [u32] (uint), [s32] (int), [u16]/[s16] (ushort/short),
    [u8] (uchar) and [s8] (char, signed on i386). *)

Definition u32 (x : Z) : Z := x mod 4294967296.
Definition s32 (x : Z) : Z := if x mod 4294967296 <? 2147483648 then x mod 4294967296 else x mod 4294967296 - 4294967296.
Definition u16 (x : Z) : Z := x mod 65536.
Definition s16 (x : Z) : Z := if x mod 65536 <? 32768 then x mod 65536 else x mod 65536 - 65536.
Definition u8 (x : Z) : Z := x mod 256.
Definition s8 (x : Z) : Z := if x mod 256 <? 128 then x mod 256 else x mod 256 - 256.

(** [~x] on uint. *)
Definition not32 (x : Z) : Z := 4294967295 - u32 x.

(** [is_u32 x] says that [x] is representable as a uint. *)
Definition is_u32 (x : Z) : Prop := 0 <= x < 4294967296.
Definition is_u8 (x : Z) : Prop := 0 <= x < 256.

(** Linear arithmetic with division and remainder by constants. *)
Ltac div_lia := Z.to_euclidean_division_equations; lia.
Ltac word_lia := unfold is_u32, is_u8, u32, s32, u16, s16, u8, s8, not32 in *;
  repeat match goal with
  | |- context [if ?a <? ?b then _ else _] => destruct (Z.ltb_spec a b)
  | H : context [if ?a <? ?b then _ else _] |- _ => destruct (Z.ltb_spec a b)
  end; div_lia.

(** Reductions modulo 2^32 inside an expression. *)
Lemma u32_sub_l a b : u32 (u32 a - b) = u32 (a - b).
Proof. unfold u32. apply Zminus_mod_idemp_l. Qed.
Lemma u32_sub_r a b : u32 (a - u32 b) = u32 (a - b).
Proof. unfold u32. apply Zminus_mod_idemp_r. Qed.
Lemma u32_add_l a b : u32 (u32 a + b) = u32 (a + b).
Proof. unfold u32. apply Zplus_mod_idemp_l. Qed.
Lemma u32_small a : 0 <= a < 4294967296 -> u32 a = a.
Proof. apply Z.mod_small. Qed.

(** ** The result of running kernel code

    A C function that reads and writes a state [S] and returns an [A] is a
    function [S -> outcome S A]. *)

Inductive outcome (S A : Type) : Type :=
| Ok (a : A) (s : S)            (* returned *)
| Switch (s : S)                (* sched() switched to the scheduler *)
| Panic (msg : string)          (* called panic(msg) *)
| Fault (msg : string)          (* an access the C standard leaves undefined *)
| OutOfFuel.                    (* the bound of an unbounded loop was reached *)
Arguments Ok {S A} a s.
Arguments Switch {S A} s.
Arguments Panic {S A} msg.
Arguments Fault {S A} msg.
Arguments OutOfFuel {S A}.

Definition M (S A : Type) : Type := S -> outcome S A.

Definition ret {S A} (a : A) : M S A := fun s => Ok a s.
Definition bind {S A B} (m : M S A) (k : A -> M S B) : M S B := fun s =>
  match m s with
  | Ok a s' => k a s'
  | Switch s' => Switch s'
  | Panic msg => Panic msg
  | Fault msg => Fault msg
  | OutOfFuel => OutOfFuel
  end.
Definition panic {S A} (msg : string) : M S A := fun _ => Panic msg.
Definition fault {S A} (msg : string) : M S A := fun _ => Fault msg.
Definition nofuel {S A} : M S A := fun _ => OutOfFuel.
Definition get {S} : M S S := fun s => Ok s s.
Definition gets {S A} (f : S -> A) : M S A := fun s => Ok (f s) s.
Definition modify {S} (f : S -> S) : M S unit := fun s => Ok tt (f s).
Definition of_opt {S A} (msg : string) (o : option A) : M S A :=
  match o with Some a => ret a | None => fault msg end.

#[global] Instance M_ret S : MRet (M S) := fun A a => ret a.
#[global] Instance M_bind S : MBind (M S) := fun A B k m => bind m k.

Definition when {S} (b : bool) (m : M S unit) : M S unit := if b then m else ret tt.

(** [for_ l body] runs [body] on the elements of [l] in order. *)
Fixpoint for_ {S A} (l : list A) (body : A -> M S unit) : M S unit :=
  match l with
  | [] => ret tt
  | x :: l' => body x ;; for_ l' body
  end.

(** ** Total-correctness assertions

    [wp m Q s]: started in [s], [m] returns, with a value and a state that
    satisfy [Q] (it neither panics, nor gives up the cpu, nor runs out of fuel). *)

Definition wp {S A} (m : M S A) (Q : A -> S -> Prop) (s : S) : Prop :=
  match m s with Ok a s' => Q a s' | _ => False end.

Section wp_rules.
Context {S A B : Type}.
Implicit Types (s : S) (m : M S A) (k : A -> M S B).

Lemma wp_bind m k (Q : B -> S -> Prop) s :
  wp m (fun a s' => wp (k a) Q s') s -> wp (m ≫= k) Q s.
Proof. unfold wp, mbind, M_bind, bind. destruct (m s); tauto. Qed.

Lemma wp_bind_inv m k (Q : B -> S -> Prop) s :
  wp (m ≫= k) Q s -> wp m (fun a s' => wp (k a) Q s') s.
Proof. unfold wp, mbind, M_bind, bind. destruct (m s); tauto. Qed.

Lemma wp_mono m (Q Q' : A -> S -> Prop) s :
  wp m Q s -> (forall a s', Q a s' -> Q' a s') -> wp m Q' s.
Proof. unfold wp. destruct (m s); auto. Qed.

Lemma wp_ok m (Q : A -> S -> Prop) s :
  wp m Q s <-> exists a s', m s = Ok a s' /\ Q a s'.
Proof.
  unfold wp. split.
  - destruct (m s); try tauto. eauto.
  - intros (a & s' & -> & HQ). exact HQ.
Qed.

Lemma wp_eq m a s s' (Q : A -> S -> Prop) : m s = Ok a s' -> Q a s' -> wp m Q s.
Proof. unfold wp. now intros ->. Qed.

Lemma bind_ok m k a s s' : m s = Ok a s' -> (m ≫= k) s = k a s'.
Proof. unfold mbind, M_bind, bind. now intros ->. Qed.

Lemma bind_inv m k b s s' :
  (m ≫= k) s = Ok b s' -> exists a s1, m s = Ok a s1 /\ k a s1 = Ok b s'.
Proof. unfold mbind, M_bind, bind. destruct (m s) eqn:E; try discriminate. eauto. Qed.
End wp_rules.

(** The rules [wp_steps] applies. *)
Section wp_prim.
Context {S A : Type}.

Lemma wp_ret (a : A) (Q : A -> S -> Prop) s : Q a s -> wp (ret a) Q s.
Proof. exact id. Qed.

Lemma wp_get (Q : S -> S -> Prop) s : Q s s -> wp get Q s.
Proof. exact id. Qed.

Lemma wp_gets (f : S -> A) (Q : A -> S -> Prop) s : Q (f s) s -> wp (gets f) Q s.
Proof. exact id. Qed.

Lemma wp_modify (f : S -> S) (Q : unit -> S -> Prop) s : Q tt (f s) -> wp (modify f) Q s.
Proof. exact id. Qed.

Lemma wp_of_opt msg (o : option A) a (Q : A -> S -> Prop) s :
  o = Some a -> Q a s -> wp (of_opt msg o) Q s.
Proof. now intros ->. Qed.

Lemma wp_when (b : bool) (m : M S unit) (Q : unit -> S -> Prop) s :
  (b = true -> wp m Q s) -> (b = false -> Q tt s) -> wp (when b m) Q s.
Proof. destruct b; intros H1 H2; [now apply H1 | exact (H2 eq_refl)]. Qed.

Lemma wp_if (b : bool) (m1 m2 : M S A) (Q : A -> S -> Prop) s :
  (b = true -> wp m1 Q s) -> (b = false -> wp m2 Q s) -> wp (if b then m1 else m2) Q s.
Proof. destruct b; auto. Qed.

Lemma wp_if_false (b : bool) (m1 m2 : M S A) (Q : A -> S -> Prop) s :
  b = false -> wp m2 Q s -> wp (if b then m1 else m2) Q s.
Proof. now intros ->. Qed.

Lemma wp_if_true (b : bool) (m1 m2 : M S A) (Q : A -> S -> Prop) s :
  b = true -> wp m1 Q s -> wp (if b then m1 else m2) Q s.
Proof. now intros ->. Qed.
End wp_prim.

(** The state in which [m] returns. *)
Definition state_after {S A} (m : M S A) (s : S) : S :=
  match m s with Ok _ s' => s' | _ => s end.

Lemma wp_state_after {S A} (m : M S A) (P : S -> Prop) s :
  wp m (fun _ s' => P s') s -> P (state_after m s).
Proof. unfold wp, state_after. destruct (m s); tauto. Qed.

(** Hint database of the rules for the kernel's own operations. *)
Create HintDb kwp.

(** One step of symbolic execution of the primitives. *)
Ltac wp_step :=
  lazymatch goal with
  | |- wp (_ ≫= _) _ _ => apply wp_bind
  | |- wp (ret _) _ _ => apply wp_ret
  | |- wp get _ _ => apply wp_get
  | |- wp (gets _) _ _ => apply wp_gets
  | |- wp (modify _) _ _ => apply wp_modify
  | |- wp (of_opt _ _) _ _ => eapply wp_of_opt; [first [eassumption | reflexivity] |]
  | |- wp (match ?x with _ => _ end) _ _ =>
    match goal with H : x = _ |- _ => rewrite H end
  end.
Ltac wp_steps := repeat (wp_step; cbn beta iota).

(** [wp_use L]: apply the specification [L] of the next call and continue with what it
    guarantees. *)
Ltac wp_use L := eapply wp_mono; [eapply L | cbn beta].

(** ** Assertions on code that may give up the cpu

    [wlp m Q R s]: if [m] started in [s] returns, [Q] holds; if it switches to the
    scheduler, [R] holds of the state at that point. *)

Definition wlp {S A} (m : M S A) (Q : A -> S -> Prop) (R : S -> Prop) (s : S) : Prop :=
  match m s with Ok a s' => Q a s' | Switch s' => R s' | _ => True end.

Section wlp_rules.
Context {S A B : Type}.
Implicit Types (s : S) (m : M S A) (k : A -> M S B).

Lemma wlp_bind m k (Q : B -> S -> Prop) R s :
  wlp m (fun a s' => wlp (k a) Q R s') R s -> wlp (m ≫= k) Q R s.
Proof. unfold wlp, mbind, M_bind, bind. destruct (m s); tauto. Qed.

Lemma wlp_mono m (Q Q' : A -> S -> Prop) (R R' : S -> Prop) s :
  wlp m Q R s -> (forall a s', Q a s' -> Q' a s') -> (forall s', R s' -> R' s') -> wlp m Q' R' s.
Proof. unfold wlp. destruct (m s); auto. Qed.

Lemma wlp_of_wp m (Q : A -> S -> Prop) R s : wp m Q s -> wlp m Q R s.
Proof. unfold wp, wlp. destruct (m s); tauto. Qed.
End wlp_rules.

(** [wps m Q R s]: [m] started in [s] either returns with [Q] or switches with [R]; it does
    not panic, fault or run out of fuel. *)

Definition wps {S A} (m : M S A) (Q : A -> S -> Prop) (R : S -> Prop) (s : S) : Prop :=
  match m s with Ok a s' => Q a s' | Switch s' => R s' | _ => False end.

Section wps_rules.
Context {S A B : Type}.
Implicit Types (s : S) (m : M S A) (k : A -> M S B).

Lemma wps_bind m k (Q : B -> S -> Prop) R s :
  wps m (fun a s' => wps (k a) Q R s') R s -> wps (m ≫= k) Q R s.
Proof. unfold wps, mbind, M_bind, bind. destruct (m s); tauto. Qed.

Lemma wps_bind_wp m k (Q : B -> S -> Prop) R s :
  wp m (fun a s' => wps (k a) Q R s') s -> wps (m ≫= k) Q R s.
Proof. unfold wps, wp, mbind, M_bind, bind. destruct (m s); tauto. Qed.

Lemma wps_wp m (Q : A -> S -> Prop) R s : wp m Q s -> wps m Q R s.
Proof. unfold wp, wps. destruct (m s); tauto. Qed.

Lemma wps_mono m (Q Q' : A -> S -> Prop) (R R' : S -> Prop) s :
  wps m Q R s -> (forall a s', Q a s' -> Q' a s') -> (forall s', R s' -> R' s') -> wps m Q' R' s.
Proof. unfold wps. destruct (m s); auto. Qed.

Lemma wps_switch m (Q : A -> S -> Prop) (R : S -> Prop) s s' :
  m s = Switch s' -> R s' -> wps m Q R s.
Proof. unfold wps. now intros ->. Qed.
End wps_rules.

(** Symbolic execution of the part of a body before its next blocking call. *)
Ltac wps_step :=
  lazymatch goal with
  | |- wps (_ ≫= _) _ _ _ => apply wps_bind_wp
  | |- wps (ret _) _ _ _ => apply wps_wp, wp_ret
  | |- wp _ _ _ => wp_step
  end.
Ltac wps_steps := repeat (wps_step; cbn beta iota).

(** [panics m msg s]: [m] started in [s] calls panic(msg). *)

Definition panics {S A} (m : M S A) (msg : string) (s : S) : Prop := m s = Panic msg.

Lemma panics_bind {S A B} (m : M S A) (k : A -> M S B) msg s :
  wp m (fun a s' => panics (k a) msg s') s -> panics (m ≫= k) msg s.
Proof. unfold wp, panics, mbind, M_bind, bind. now destruct (m s). Qed.

(** ** Field update

    [r <| f := v |>] is the record [r] with field [f] set to [v]. *)

Class Setter {R T : Type} (f : R -> T) := setf : T -> R -> R.
Notation "r <| f := v |>" := (setf (f := f) v r)
  (at level 1, left associativity, f at level 1, v at level 200, format "r <| f  :=  v |>").

(** [mk_setter eta f] builds the setter of field [f] from the eta-expansion
    [eta : R -> R] of the record. *)
Ltac mk_setter eta f :=
  let T := type of f in
  lazymatch T with
  | ?R -> ?V =>
    let t := constr:(fun (v : V) (r : R) => ltac:(
      let e := eval cbv beta delta [eta] in (eta r) in
      let p := eval pattern (f r) in e in
      lazymatch p with
      | ?body _ => let b := eval cbv beta in (body v) in exact b
      end)) in
    exact t
  end.

(** ** Lists *)

Lemma elem_of_take_in {A} (x : A) n (l : list A) : x ∈ take n l -> x ∈ l.
Proof. intros (i & Hi & _)%elem_of_take. now apply list_elem_of_lookup_2 in Hi. Qed.

Lemma elem_of_drop_in {A} (x : A) n (l : list A) : x ∈ drop n l -> x ∈ l.
Proof. intros (i & Hi)%list_elem_of_lookup_1. rewrite lookup_drop in Hi. now apply list_elem_of_lookup_2 in Hi. Qed.

(** [find_idx f l]: the index of the first element that satisfies [f]. *)
Fixpoint find_idx {A} (f : A -> bool) (l : list A) : option nat :=
  match l with
  | [] => None
  | x :: l' => if f x then Some 0%nat else S <$> find_idx f l'
  end.

Section find_idx.
Context {A : Type} (f : A -> bool).

Lemma find_idx_Some l i :
  find_idx f l = Some i <->
  (exists x, l !! i = Some x /\ f x = true) /\
  (forall j y, (j < i)%nat -> l !! j = Some y -> f y = false).
Proof.
  revert i. induction l as [|x l IH]; intros i; simpl.
  { split; [discriminate|]. intros [(y & Hy & _) _]. rewrite lookup_nil in Hy. discriminate. }
  destruct (f x) eqn:Efx.
  - split.
    + intros [= <-]. split; [exists x; auto|]. intros j y Hj. lia.
    + intros [(y & Hy & Hfy) Hmin]. destruct i as [|i]; [reflexivity|].
      specialize (Hmin 0%nat x ltac:(lia) eq_refl). congruence.
  - destruct i as [|i].
    + split.
      * destruct (find_idx f l); discriminate.
      * intros [(y & Hy & Hfy) _]. simpl in Hy. congruence.
    + split.
      * destruct (find_idx f l) as [k|] eqn:E; simpl; [|discriminate]. intros [= ->].
        destruct (proj1 (IH i) eq_refl) as [Hex Hmin]. split; [exact Hex|].
        intros [|j] y Hj Hy; simpl in Hy; [congruence|]. apply (Hmin j y); [lia|exact Hy].
      * intros [Hex Hmin]. rewrite (proj2 (IH i)); [reflexivity|]. split; [exact Hex|].
        intros j y Hj Hy. apply (Hmin (S j) y); [lia|exact Hy].
Qed.

Lemma find_idx_None l : find_idx f l = None <-> forall x, x ∈ l -> f x = false.
Proof.
  induction l as [|x l IH]; simpl.
  { split; [|reflexivity]. intros _ x Hx. set_solver. }
  destruct (f x) eqn:Efx.
  - split; [discriminate|]. intros H. specialize (H x ltac:(set_solver)). congruence.
  - destruct (find_idx f l) as [k|]; simpl.
    + split; [discriminate|]. intros H. enough (Some k = None) by discriminate.
      apply IH. intros y Hy. apply H. set_solver.
    + split; [|reflexivity]. intros _ y Hy. apply elem_of_cons in Hy as [->|Hy]; [exact Efx|].
      now apply IH.
Qed.

Lemma find_idx_lt l i : find_idx f l = Some i -> (i < length l)%nat.
Proof.
  intros [(x & Hx & _) _]%find_idx_Some. now apply lookup_lt_Some in Hx.
Qed.
End find_idx.
