(* ===== verification/Bytes.v ===== *)
(** Byte strings: sub-ranges of a byte array and little-endian integers.

    A C byte array is a [list Z] whose elements are bytes (0..255). [slice]
    and [splice] are what [memmove] out of and into an array do; [le_val] and
    [le_bytes] are how i386 reads and writes a short or an int through a
    pointer into such an array. *)

From stdpp Require Import base list numbers.
From Stdlib Require Import ZArith Lia.
From S2P Require Import Prelude.
Open Scope Z_scope.

(** [n] bytes of [l] starting at [off]. *)
Definition slice (off n : nat) (l : list Z) : list Z := take n (drop off l).

(** [l] with the bytes from [off] on replaced by [bs]. *)
Definition splice (off : nat) (bs l : list Z) : list Z :=
  take off l ++ bs ++ drop (off + length bs) l.

Fixpoint le_bytes (n : nat) (x : Z) : list Z :=
  match n with
  | O => []
  | S n' => x mod 256 :: le_bytes n' (x / 256)
  end.

Fixpoint le_val (l : list Z) : Z :=
  match l with
  | [] => 0
  | b :: l' => b + 256 * le_val l'
  end.

Definition rd16 (l : list Z) (off : nat) : Z := le_val (slice off 2 l).
Definition rd32 (l : list Z) (off : nat) : Z := le_val (slice off 4 l).
Definition wr16 (l : list Z) (off : nat) (x : Z) : list Z := splice off (le_bytes 2 x) l.
Definition wr32 (l : list Z) (off : nat) (x : Z) : list Z := splice off (le_bytes 4 x) l.

Definition bytes_ok (l : list Z) : Prop := Forall is_u8 l.

(** ** Lemmas *)

Section slices.
Implicit Types (l bs : list Z) (off n : nat).

Lemma length_slice off n l : (off + n <= length l)%nat -> length (slice off n l) = n.
Proof. intros H. unfold slice. rewrite length_take, length_drop. lia. Qed.

Lemma length_splice off bs l :
  (off + length bs <= length l)%nat -> length (splice off bs l) = length l.
Proof. intros H. unfold splice. rewrite !length_app, length_take, length_drop. lia. Qed.

Lemma lookup_splice off bs l (i : nat) :
  (off + length bs <= length l)%nat ->
  splice off bs l !! i =
    if decide (off <= i < off + length bs)%nat then bs !! (i - off)%nat else l !! i.
Proof.
  intros H. unfold splice. case_decide as Hi.
  - rewrite lookup_app_r by (rewrite length_take; lia).
    rewrite lookup_app_l by (rewrite length_take; lia).
    rewrite length_take. f_equal. lia.
  - destruct (decide (i < off)%nat).
    + rewrite lookup_app_l by (rewrite length_take; lia). now rewrite lookup_take_lt by lia.
    + rewrite lookup_app_r by (rewrite length_take; lia).
      rewrite lookup_app_r by (rewrite length_take; lia).
      rewrite lookup_drop, length_take. f_equal. lia.
Qed.

Lemma lookup_slice off n l (i : nat) :
  slice off n l !! i = if decide (i < n)%nat then l !! (off + i)%nat else None.
Proof.
  unfold slice. case_decide.
  - now rewrite lookup_take_lt, lookup_drop by lia.
  - apply lookup_take_ge. lia.
Qed.

Lemma slice_splice_same off bs l :
  (off + length bs <= length l)%nat -> slice off (length bs) (splice off bs l) = bs.
Proof.
  intros H. unfold slice, splice.
  rewrite drop_app_length' by (rewrite length_take; lia).
  now rewrite take_app_length' by lia.
Qed.

Lemma slice_splice_other off bs l off' n :
  (off + length bs <= length l)%nat ->
  (off' + n <= off \/ off + length bs <= off')%nat ->
  slice off' n (splice off bs l) = slice off' n l.
Proof.
  intros H Hd. apply list_eq. intros i. rewrite !lookup_slice. case_decide; [|reflexivity].
  rewrite lookup_splice by exact H. case_decide; [lia|reflexivity].
Qed.

Lemma splice_slice off n l : (off + n <= length l)%nat -> splice off (slice off n l) l = l.
Proof.
  intros H. apply list_eq. intros i.
  rewrite lookup_splice by (rewrite length_slice; lia).
  rewrite length_slice by lia. case_decide; [|reflexivity].
  rewrite lookup_slice, decide_True by lia. f_equal. lia.
Qed.

Lemma splice_splice off bs bs' l :
  length bs = length bs' -> (off + length bs <= length l)%nat ->
  splice off bs' (splice off bs l) = splice off bs' l.
Proof.
  intros E H. apply list_eq. intros i.
  rewrite lookup_splice by (rewrite length_splice; lia).
  rewrite lookup_splice by lia. rewrite lookup_splice by lia.
  repeat case_decide; try reflexivity; lia.
Qed.

Lemma splice_full bs l : length bs = length l -> splice 0 bs l = bs.
Proof.
  intros E. unfold splice. rewrite take_0. simpl. rewrite drop_ge by lia. apply app_nil_r.
Qed.

Lemma bytes_ok_slice off n l : bytes_ok l -> bytes_ok (slice off n l).
Proof. intros H. unfold bytes_ok, slice. now apply Forall_take, Forall_drop. Qed.

Lemma bytes_ok_splice off bs l : bytes_ok l -> bytes_ok bs -> bytes_ok (splice off bs l).
Proof.
  intros H1 H2. unfold bytes_ok, splice. rewrite !Forall_app.
  split_and!; [now apply Forall_take|exact H2|now apply Forall_drop].
Qed.
End slices.

Section little_endian.
Implicit Types (l : list Z) (n : nat) (x : Z).

Lemma length_le_bytes n x : length (le_bytes n x) = n.
Proof. revert x. induction n; intros x; simpl; auto. Qed.

Lemma bytes_ok_le_bytes n x : bytes_ok (le_bytes n x).
Proof.
  revert x. induction n as [|n IH]; intros x; simpl; constructor.
  - unfold is_u8. div_lia.
  - apply IH.
Qed.

Lemma le_val_le_bytes n x : le_val (le_bytes n x) = x mod 256 ^ Z.of_nat n.
Proof.
  revert x. induction n as [|n IH]; intros x; cbn [le_val le_bytes].
  - change (256 ^ Z.of_nat 0) with 1. now rewrite Z.mod_1_r.
  - rewrite IH, Nat2Z.inj_succ, Z.pow_succ_r by lia.
    rewrite Z.rem_mul_r by lia. reflexivity.
Qed.

Lemma le_bytes_le_val l : bytes_ok l -> le_bytes (length l) (le_val l) = l.
Proof.
  induction 1 as [|b l Hb Hl IH]; cbn [length le_bytes le_val]; [reflexivity|].
  unfold is_u8 in Hb. f_equal.
  - rewrite Z.mul_comm, Z.mod_add by lia. now apply Z.mod_small.
  - rewrite Z.mul_comm, Z.div_add, Z.div_small by lia. now rewrite Z.add_0_l.
Qed.

Lemma le_val_bound l : bytes_ok l -> 0 <= le_val l < 256 ^ Z.of_nat (length l).
Proof.
  induction 1 as [|b l Hb Hl IH]; cbn [length le_val]; [simpl; lia|].
  rewrite Nat2Z.inj_succ, Z.pow_succ_r by lia. unfold is_u8 in Hb. lia.
Qed.

Lemma rd32_wr32_same l off x :
  (off + 4 <= length l)%nat -> rd32 (wr32 l off x) off = u32 x.
Proof.
  intros H. unfold rd32, wr32.
  rewrite <- (length_le_bytes 4 x) at 1.
  rewrite slice_splice_same by (rewrite length_le_bytes; lia).
  apply le_val_le_bytes.
Qed.

Lemma rd16_wr16_same l off x :
  (off + 2 <= length l)%nat -> rd16 (wr16 l off x) off = u16 x.
Proof.
  intros H. unfold rd16, wr16.
  rewrite <- (length_le_bytes 2 x) at 1.
  rewrite slice_splice_same by (rewrite length_le_bytes; lia).
  apply le_val_le_bytes.
Qed.

Lemma rd32_wr32_other l off off' x :
  (off + 4 <= length l)%nat -> (off' + 4 <= off \/ off + 4 <= off')%nat ->
  rd32 (wr32 l off x) off' = rd32 l off'.
Proof.
  intros H Hd. unfold rd32, wr32.
  rewrite slice_splice_other; rewrite ?length_le_bytes; auto.
Qed.

Lemma length_wr32 l off x : (off + 4 <= length l)%nat -> length (wr32 l off x) = length l.
Proof. intros H. unfold wr32. apply length_splice. rewrite length_le_bytes. lia. Qed.

Lemma length_wr16 l off x : (off + 2 <= length l)%nat -> length (wr16 l off x) = length l.
Proof. intros H. unfold wr16. apply length_splice. rewrite length_le_bytes. lia. Qed.

Lemma rd32_bound l off : bytes_ok l -> (off + 4 <= length l)%nat -> 0 <= rd32 l off < 4294967296.
Proof.
  intros Hb H. unfold rd32.
  pose proof (le_val_bound (slice off 4 l) (bytes_ok_slice _ _ _ Hb)) as Hv.
  rewrite length_slice in Hv by lia. exact Hv.
Qed.
End little_endian.
