(* ===== verification/CString.v ===== *)
(** string.c (kernel) and the string functions of ulib.c (user).

    The mem* functions work on a byte memory [bmem], which maps an address to
    the byte there, so that overlapping source and destination are what they
    are in C. A C string passed to a str* function is the list of its bytes
    before the NUL. *)

From stdpp Require Import base sets list strings numbers.
From Stdlib Require Import ZArith Lia.
From S2P Require Import Prelude Bytes.
Open Scope Z_scope.

Definition bmem : Type := Z -> Z.
Definition upd (m : bmem) (a v : Z) : bmem := fun x => if x =? a then v else m x.

(** The C string in a buffer: the bytes before the first NUL. *)
Fixpoint cstr (l : list Z) : list Z :=
  match l with
  | [] => []
  | c :: l' => if c =? 0 then [] else c :: cstr l'
  end.

(** x86.h stosb and stosl: store [n] bytes, or [n] 32-bit words, from [a]. *)
Fixpoint stosb (m : bmem) (a data : Z) (n : nat) : bmem :=
  match n with
  | O => m
  | S n' => stosb (upd m a (u8 data)) (a + 1) data n'
  end.

Fixpoint stosl (m : bmem) (a data : Z) (n : nat) : bmem :=
  match n with
  | O => m
  | S n' =>
    stosl (upd (upd (upd (upd m a (u8 data)) (a + 1) (u8 (data / 256)))
                    (a + 2) (u8 (data / 65536))) (a + 3) (u8 (data / 16777216)))
          (a + 4) data n'
  end.

(** ** string.c *)

Definition memset (m : bmem) (dst c n : Z) : bmem :=
  if (dst mod 4 =? 0) && (n mod 4 =? 0) then
    let c := Z.land c 0xFF in
    stosl m dst (u32 (Z.lor (Z.lor (Z.lor (Z.shiftl c 24) (Z.shiftl c 16)) (Z.shiftl c 8)) c))
          (Z.to_nat (n / 4))
  else stosb m dst c (Z.to_nat n).

Fixpoint memcmp (m : bmem) (s1 s2 : Z) (n : nat) : Z :=
  match n with
  | O => 0
  | S n' => if m s1 =? m s2 then memcmp m (s1 + 1) (s2 + 1) n' else m s1 - m s2
  end.

(** while(n-- > 0) *d++ = *s++; *)
Fixpoint copy_up (m : bmem) (d s : Z) (n : nat) : bmem :=
  match n with
  | O => m
  | S n' => copy_up (upd m d (m s)) (d + 1) (s + 1) n'
  end.

(** while(n-- > 0) *--d = *--s; *)
Fixpoint copy_down (m : bmem) (d s : Z) (n : nat) : bmem :=
  match n with
  | O => m
  | S n' => copy_down (upd m (d - 1) (m (s - 1))) (d - 1) (s - 1) n'
  end.

Definition memmove (m : bmem) (dst src : Z) (n : nat) : bmem :=
  if (src <? dst) && (dst <? src + Z.of_nat n)
  then copy_down m (dst + Z.of_nat n) (src + Z.of_nat n) n
  else copy_up m dst src n.

Fixpoint strncmp (p q : list Z) (n : nat) : Z :=
  match n with
  | O => 0
  | S n' =>
    let a := default 0 (head p) in
    let b := default 0 (head q) in
    if (a =? 0) || negb (a =? b) then a - b else strncmp (tail p) (tail q) n'
  end.

(** The [n] bytes strncpy writes to s. *)
Fixpoint strncpy (t : list Z) (n : nat) {struct n} : list Z :=
  match n with
  | O => []
  | S n' =>
    match t with
    | c :: t' => if c =? 0 then replicate n 0 else c :: strncpy t' n'
    | [] => replicate n 0
    end
  end.

(** The bytes safestrcpy writes to s, the NUL included. *)
Fixpoint safestrcpy (t : list Z) (n : nat) {struct n} : list Z :=
  match n with
  | O => []
  | S O => [0]
  | S n' =>
    match t with
    | c :: t' => if c =? 0 then [0; 0] else c :: safestrcpy t' n'
    | [] => [0; 0]
    end
  end.

(** The length of the C string at [a]: [n] bytes are searched. *)
Fixpoint strlen (m : bmem) (a : Z) (n : nat) : option Z :=
  match n with
  | O => None
  | S n' => if m a =? 0 then Some 0 else l ← strlen m (a + 1) n'; Some (l + 1)
  end.

(** ** ulib.c *)

Definition ulib_memmove (m : bmem) (dst src : Z) (n : nat) : bmem := copy_up m dst src n.

Fixpoint strcmp (p q : list Z) : Z :=
  match p with
  | [] => 0 - default 0 (head q)
  | a :: p' => if a =? default 0 (head q) then strcmp p' (tail q) else a - default 0 (head q)
  end.

(** The suffix of [s] that starts with [c]. *)
Fixpoint strchr (s : list Z) (c : Z) : option (list Z) :=
  match s with
  | [] => None
  | x :: s' => if x =? c then Some s else strchr s' c
  end.

(** while('0' <= *s && *s <= '9') n = n*10 + *s++ - '0'; in int arithmetic. *)
Fixpoint atoi_loop (s : list Z) (n : Z) : Z :=
  match s with
  | c :: s' => if (48 <=? c) && (c <=? 57) then atoi_loop s' (s32 (n * 10 + c - 48)) else n
  | [] => n
  end.

Definition atoi (s : list Z) : Z := atoi_loop s 0.

(** ** The mem functions *)

Lemma upd_eq m a v x : upd m a v x = if x =? a then v else m x.
Proof. reflexivity. Qed.

(** Case analysis on the comparisons of a goal about [bmem]. *)
Ltac zcases :=
  repeat match goal with
  | |- context [if ?b then _ else _] =>
    let E := fresh "E" in destruct b eqn:E
  end.

(** [x] is one of the [n] addresses from [a] on. *)
Definition in_range (a : Z) (n : nat) (x : Z) : bool := (a <=? x) && (x <? a + Z.of_nat n).

Lemma in_range_S a n x : in_range a (S n) x = (x =? a) || in_range (a + 1) n x.
Proof. unfold in_range. apply eq_true_iff_eq. lia. Qed.

Lemma in_range_0 a x : in_range a 0 x = false.
Proof. unfold in_range. apply not_true_is_false. lia. Qed.

Lemma stosb_spec n : forall m a data x,
  stosb m a data n x = if in_range a n x then u8 data else m x.
Proof.
  induction n as [|n IH]; intros m a data x; simpl; [now rewrite in_range_0|].
  rewrite IH, in_range_S, upd_eq. unfold in_range. zcases; auto; lia.
Qed.

(** [n] words, each four copies of the byte [c]. *)
Lemma stosl_spec n : forall m a data c x,
  u8 data = c -> u8 (data / 256) = c -> u8 (data / 65536) = c -> u8 (data / 16777216) = c ->
  stosl m a data n x = if in_range a (4 * n) x then c else m x.
Proof.
  induction n as [|n IH]; intros m a data c x H0 H1 H2 H3; simpl; [now rewrite in_range_0|].
  rewrite (IH _ _ _ c), !upd_eq, H0, H1, H2, H3 by done.
  unfold in_range. zcases; auto; lia.
Qed.

Lemma copy_up_spec n : forall m d s x,
  ~ (s < d < s + Z.of_nat n) ->
  copy_up m d s n x = if in_range d n x then m (s + (x - d)) else m x.
Proof.
  induction n as [|n IH]; intros m d s x Ho; simpl; [now rewrite in_range_0|].
  rewrite IH, in_range_S, !upd_eq by lia.
  unfold in_range. zcases; auto; try lia; try (f_equal; lia).
Qed.

Lemma copy_down_spec n : forall m d s x,
  ~ (d < s < d + Z.of_nat n) ->
  copy_down m d s n x =
  if in_range (d - Z.of_nat n) n x then m (s - (d - x)) else m x.
Proof.
  induction n as [|n IH]; intros m d s x Ho; simpl; [now rewrite in_range_0|].
  rewrite IH by lia. rewrite !upd_eq. unfold in_range. zcases; auto; try lia; try (f_equal; lia).
Qed.

(** memmove is correct for every overlap: after memmove(dst, src, n) the [n] bytes at dst
    are the bytes that were at src before the call, and no other byte changed. *)
Theorem memmove_spec m dst src n x :
  memmove m dst src n x = if in_range dst n x then m (src + (x - dst)) else m x.
Proof.
  unfold memmove. destruct (_ && _) eqn:E.
  - rewrite copy_down_spec by lia. replace (dst + Z.of_nat n - Z.of_nat n) with dst by lia.
    destruct (in_range dst n x); [f_equal; lia|done].
  - apply copy_up_spec. lia.
Qed.

Lemma lor_bytes c : 0 <= c < 256 ->
  Z.lor (Z.lor (Z.lor (Z.shiftl c 24) (Z.shiftl c 16)) (Z.shiftl c 8)) c = c * 16843009.
Proof.
  intros Hc.
  assert (Forall (fun c => Z.lor (Z.lor (Z.lor (Z.shiftl c 24) (Z.shiftl c 16)) (Z.shiftl c 8)) c
                           = c * 16843009) (seqZ 0 256)) as H.
  { apply (bool_decide_unpack _). vm_compute. reflexivity. }
  rewrite list.Forall_forall in H. apply H.
  apply elem_of_seqZ. lia.
Qed.

(** memset fills exactly [dst, dst+n) with the low byte of c, whether the word-aligned
    stosl path or the byte path runs. *)
Theorem memset_spec m dst c n x :
  0 <= n ->
  memset m dst c n x = if (dst <=? x) && (x <? dst + n) then u8 c else m x.
Proof.
  intros Hn. unfold memset. destruct (_ && _) eqn:E.
  - change (Z.land c 255) with (Z.land c (Z.ones 8)). rewrite Z.land_ones by lia.
    change (2 ^ 8) with 256. rewrite lor_bytes by (apply Z.mod_pos_bound; lia).
    rewrite (stosl_spec _ _ _ _ (u8 c)) by word_lia.
    unfold in_range. replace (Z.of_nat (4 * Z.to_nat (n / 4))) with n by div_lia. done.
  - rewrite stosb_spec. unfold in_range. now rewrite Z2Nat.id.
Qed.

Lemma memset_spec_witness :
  memset (fun a => a) 8 300 4 10 = 44 /\ memset (fun a => a) 9 300 3 12 = 12.
Proof. split; rewrite memset_spec by lia; reflexivity. Defined.

(** ** The str functions *)

Lemma cstr_no_nul l : 0 ∉ cstr l.
Proof.
  induction l as [|c l IH]; simpl; [set_solver|]. destruct (Z.eqb_spec c 0); set_solver.
Qed.

Lemma cstr_id l : 0 ∉ l -> cstr l = l.
Proof.
  induction l as [|c l IH]; simpl; [done|]. intros [H0 Hl]%not_elem_of_cons.
  rewrite (proj2 (Z.eqb_neq c 0)) by done. f_equal. auto.
Qed.

Lemma cstr_cons c l : cstr (c :: l) = if c =? 0 then [] else c :: cstr l.
Proof. reflexivity. Qed.

Lemma safestrcpy_SS t n : safestrcpy t (S (S n)) =
  match t with c :: t' => if c =? 0 then [0; 0] else c :: safestrcpy t' (S n) | [] => [0; 0] end.
Proof. reflexivity. Qed.

Lemma safestrcpy_len t n : (length (safestrcpy t n) <= n)%nat.
Proof.
  revert t. induction n as [|[|n] IH]; intros t; [simpl; lia..|]. rewrite safestrcpy_SS.
  destruct t as [|c t]; [simpl; lia|]. destruct (c =? 0); [simpl; lia|].
  specialize (IH t). cbn [length]. lia.
Qed.

Lemma safestrcpy_cstr t n rest :
  (0 < n)%nat -> cstr (safestrcpy t n ++ rest) = take (n - 1) (cstr t).
Proof.
  revert t. induction n as [|[|n] IH]; intros t Hn; [lia|now rewrite take_0|].
  rewrite safestrcpy_SS. destruct t as [|c t]; [reflexivity|].
  rewrite (cstr_cons c t). destruct (c =? 0) eqn:Ec; [reflexivity|].
  rewrite <- app_comm_cons, cstr_cons, Ec, IH by lia. simpl. now rewrite Nat.sub_0_r.
Qed.

(** safestrcpy(s, t, n) with n > 0 writes inside the n bytes of s, and the string it
    leaves there is the first n-1 characters of t, NUL-terminated. *)
Theorem safestrcpy_spec t n old :
  (0 < n <= length old)%nat ->
  let r := splice 0 (safestrcpy t n) old in
  length r = length old /\ cstr r = take (n - 1) (cstr t) /\ (length (cstr r) < n)%nat.
Proof.
  intros Hn r. pose proof (safestrcpy_len t n).
  assert (cstr r = take (n - 1) (cstr t)) as Hr.
  { unfold r, splice. rewrite take_0. apply safestrcpy_cstr. lia. }
  split; [apply length_splice; lia|]. split; [exact Hr|]. rewrite Hr, length_take. lia.
Qed.

Lemma safestrcpy_spec_witness :
  let r := splice 0 (safestrcpy [105; 110; 105; 116; 99] 4) [1; 2; 3; 4; 5] in
  length r = 5%nat /\ cstr r = [105; 110; 105] /\ (length (cstr r) < 4)%nat.
Proof. apply (safestrcpy_spec [105; 110; 105; 116; 99] 4 [1; 2; 3; 4; 5]). simpl. lia. Defined.

Lemma strncpy_spec t n : strncpy t n = take n (cstr t ++ replicate n 0).
Proof.
  revert t. induction n as [|n IH]; intros t; [done|]. simpl.
  destruct t as [|c t]; simpl.
  { rewrite take_replicate. do 2 f_equal. lia. }
  destruct (c =? 0); simpl; [rewrite take_replicate; do 2 f_equal; lia|].
  f_equal. change (0 :: replicate n 0) with (replicate (S n) 0).
  rewrite IH, !take_app. f_equal. rewrite !take_replicate. f_equal. lia.
Qed.

Lemma strncpy_length t n : length (strncpy t n) = n.
Proof. rewrite strncpy_spec, length_take, length_app, length_replicate. lia. Qed.

Lemma cstr_take n l : cstr (take n l) = take n (cstr l).
Proof.
  revert n. induction l as [|c l IH]; intros [|n]; simpl; try done.
  destruct (c =? 0); simpl; [done|]. now rewrite IH.
Qed.

Lemma cstr_app_zeros l n : cstr (cstr l ++ replicate n 0) = cstr l.
Proof.
  induction l as [|c l IH]; simpl; [by destruct n|].
  destruct (c =? 0) eqn:E; simpl; [by destruct n|]. now rewrite E, IH.
Qed.

(** strncmp compares the two strings up to n characters. *)
Lemma strncmp_0 p q n : strncmp p q n = 0 <-> take n (cstr p) = take n (cstr q).
Proof.
  revert p q. induction n as [|n IH]; intros p q; simpl; [done|].
  destruct p as [|a p], q as [|b q]; simpl.
  - done.
  - destruct (Z.eqb_spec b 0); simpl; split; try done; lia.
  - destruct (Z.eqb_spec a 0); simpl; [subst; done|]. split; [lia|done].
  - destruct (Z.eqb_spec a 0), (Z.eqb_spec a b), (Z.eqb_spec b 0); subst; simpl; try done;
      rewrite ?IH; split; intros; try done; try lia; try congruence.
Qed.

(** directory names survive the name field of a directory entry: namecmp (strncmp over
    DIRSIZ bytes) of a name with what strncpy stored finds them equal, and finds two stored
    names equal only when their first n characters are. *)
Theorem strncpy_strncmp_roundtrip p q n :
  strncmp p (strncpy q n) n = 0 <-> take n (cstr p) = take n (cstr q).
Proof.
  rewrite strncmp_0, strncpy_spec, cstr_take, cstr_app_zeros, take_take, Nat.min_id. done.
Qed.
