(* ===== verification/Itoa.v ===== *)
(** Printing integers: the digit loop that printf.c and console.c share. *)

From stdpp Require Import base list strings numbers.
From Stdlib Require Import ZArith Lia Ascii.
From S2P Require Import Prelude Bytes CString.
Open Scope Z_scope.

(** The bytes of a C string literal (without the final NUL). *)
Fixpoint str (s : string) : list Z :=
  match s with
  | EmptyString => []
  | String c s' => Z.of_N (N_of_ascii c) :: str s'
  end.

(** do { buf[i++] = digits[x % base]; } while((x /= base) != 0);
    [buf] holds the least significant digit first. *)
Fixpoint digit_loop (fuel : nat) (digits : list Z) (x base : Z) : option (list Z) :=
  match fuel with
  | O => None
  | S fuel' =>
    d ← digits !! Z.to_nat (x mod base);
    if x / base =? 0 then Some [d] else
    rest ← digit_loop fuel' digits (x / base) base;
    Some (d :: rest)
  end.

(** The characters printint emits, in order: a uint has at most 32 digits in
    any base from 2 on. *)
Definition printint_chars (digits : list Z) (xx base : Z) (neg : bool) : option (list Z) :=
  let x := if neg then u32 (- xx) else u32 xx in
  buf ← digit_loop 33 digits x base;
  Some (rev (if neg then buf ++ str "-" else buf)).

(** ** The digits *)

(** The number a list of digits, least significant first, stands for. *)
Fixpoint le_num (base : Z) (ds : list Z) : Z :=
  match ds with [] => 0 | d :: ds' => d + base * le_num base ds' end.

(** [ds] is the base-[base] representation of [x], least significant digit first, without a
    leading zero. *)
Definition repr (base x : Z) (ds : list Z) : Prop :=
  le_num base ds = x /\ Forall (fun d => 0 <= d < base) ds /\
  ds <> [] /\ (list.last ds = Some 0 -> ds = [0]).

Lemma repr_small base x : 0 <= x < base -> repr base x [x].
Proof.
  intros Hx. split; [simpl; lia|]. split; [now constructor|]. split; [done|]. simpl. congruence.
Qed.

Lemma repr_step base x ds :
  0 < base -> x / base <> 0 -> repr base (x / base) ds -> repr base x (x mod base :: ds).
Proof.
  intros Hb Hx (Hv & Hf & Hn & Hl). split.
  { simpl. rewrite Hv. rewrite (Z.div_mod x base) at 3 by lia. lia. }
  split; [constructor; [now apply Z.mod_pos_bound|done]|]. split; [done|].
  destruct ds as [|d ds]; [done|]. intros H. change (list.last (d :: ds) = Some 0) in H.
  apply Hl in H. simplify_eq. simpl in Hv. lia.
Qed.

Section digit_loop.
Context (dg : list Z) (base : Z).
Hypothesis Hbase : 2 <= base <= Z.of_nat (length dg).

(** The character of a digit. *)
Definition digit_char (d : Z) : Z := dg !!! Z.to_nat d.

Lemma lookup_digit d : 0 <= d < base -> dg !! Z.to_nat d = Some (digit_char d).
Proof. intros Hd. apply list_lookup_lookup_total_lt. lia. Qed.

(** With [k] digits of fuel, the loop terminates on every number of [k] digits. *)
Lemma digit_loop_ok k : forall fuel x,
  (0 < k <= fuel)%nat -> 0 <= x < base ^ Z.of_nat k ->
  exists ds, digit_loop fuel dg x base = Some (digit_char <$> ds) /\ repr base x ds /\
             (length ds <= k)%nat.
Proof.
  induction k as [|k IH]; intros fuel x Hk Hx; [lia|]. destruct fuel as [|fuel]; [lia|].
  cbn [digit_loop]. rewrite lookup_digit by (apply Z.mod_pos_bound; lia). cbn.
  destruct (Z.eqb_spec (x / base) 0) as [E|E].
  - exists [x]. apply Z.div_small_iff in E; [|lia].
    rewrite Z.mod_small by lia. split; [done|]. split; [apply repr_small; lia|simpl; lia].
  - rewrite Nat2Z.inj_succ, Z.pow_succ_r in Hx by lia.
    assert (0 <= x / base < base ^ Z.of_nat k) as Hd.
    { split; [apply Z.div_pos; lia|]. apply Z.div_lt_upper_bound; lia. }
    destruct k as [|k]; [simpl in Hd; lia|].
    destruct (IH fuel (x / base) ltac:(lia) Hd) as (ds & -> & Hr & Hl).
    exists (x mod base :: ds). split; [done|]. split; [apply repr_step; auto; lia|simpl; lia].
Qed.
End digit_loop.

(** The magnitude printint prints. *)
Definition magnitude (xx : Z) (neg : bool) : Z := if neg then u32 (- xx) else u32 xx.

(** printint prints the decimal or hexadecimal digits of its argument, most significant
    first, without leading zeros, after a minus sign when asked for one, and uses at most
    11 bytes of its 16-byte buffer. *)
Theorem printint_chars_spec dg xx base neg :
  base = 10 \/ base = 16 -> length dg = 16%nat ->
  exists ds, printint_chars dg xx base neg =
    Some ((if neg then str "-" else []) ++ reverse (digit_char dg <$> ds)) /\
  repr base (magnitude xx neg) ds /\ (length ds <= 10)%nat.
Proof.
  intros Hb Hd. unfold printint_chars.
  destruct (digit_loop_ok dg base ltac:(rewrite Hd; lia) 10 33 (magnitude xx neg))
    as (ds & E & Hr & Hl).
  { lia. }
  { assert (4294967296 <= base ^ Z.of_nat 10) by (destruct Hb as [-> | ->]; vm_compute; done).
    unfold magnitude, u32. pose proof (Z.mod_pos_bound (- xx) 4294967296 eq_refl).
    pose proof (Z.mod_pos_bound xx 4294967296 eq_refl). destruct neg; lia. }
  exists ds. split; [|done]. fold (magnitude xx neg). rewrite E. cbn. f_equal.
  unfold reverse. rewrite <- rev_alt. destruct neg; [apply rev_app_distr|done].
Qed.

Lemma printint_chars_spec_witness :
  exists ds, printint_chars (str "0123456789ABCDEF") (-120) 10 true =
    Some ((if true then str "-" else []) ++ reverse (digit_char (str "0123456789ABCDEF") <$> ds)) /\
  repr 10 (magnitude (-120) true) ds /\ (length ds <= 10)%nat.
Proof. apply printint_chars_spec; [now left | reflexivity]. Defined.

(** ** Reading a number back *)

Lemma atoi_loop_app l1 l2 n :
  Forall (fun c => 48 <= c <= 57) l1 -> atoi_loop (l1 ++ l2) n = atoi_loop l2 (atoi_loop l1 n).
Proof.
  intros Hl. revert n. induction Hl as [|c l Hc _ IH]; intros n; simpl; [done|].
  rewrite (proj2 (andb_true_iff _ _)) by lia. apply IH.
Qed.

Lemma le_num_nonneg ds : Forall (fun d => 0 <= d < 10) ds -> 0 <= le_num 10 ds.
Proof. induction 1; simpl; lia. Qed.

Lemma atoi_digits dg ds :
  (forall d, 0 <= d < 10 -> digit_char dg d = 48 + d) ->
  Forall (fun d => 0 <= d < 10) ds -> le_num 10 ds < 2147483648 ->
  atoi (reverse (digit_char dg <$> ds)) = le_num 10 ds.
Proof.
  intros Hdg Hf. unfold atoi. induction Hf as [|d ds Hd Hf IH]; intros Hlt; [done|].
  cbn [le_num] in *. rewrite fmap_cons, reverse_cons, atoi_loop_app.
  - pose proof (le_num_nonneg ds Hf). rewrite IH, (Hdg d Hd) by lia. simpl.
    rewrite (proj2 (andb_true_iff _ _)) by lia. unfold s32.
    rewrite Z.mod_small by lia. rewrite (proj2 (Z.ltb_lt _ _)); lia.
  - apply Forall_reverse, Forall_fmap. eapply list.Forall_impl; [exact Hf|]. simpl. intros x Hx.
    rewrite Hdg; lia.
Qed.

(** atoi reads back what printf's %d printed: for every non-negative int [n], printint
    prints characters from which atoi gets [n] again. *)
Theorem atoi_printint_roundtrip n :
  0 <= n < 2147483648 ->
  exists cs, printint_chars (str "0123456789ABCDEF") n 10 false = Some cs /\ atoi cs = n.
Proof.
  intros Hn. destruct (digit_loop_ok (str "0123456789ABCDEF") 10 ltac:(simpl; lia) 10 33 n)
    as (ds & E & (Hv & Hf & _) & _); [lia|simpl; lia|].
  exists (reverse (digit_char (str "0123456789ABCDEF") <$> ds)). split.
  - unfold printint_chars, u32. rewrite Z.mod_small, E by lia. cbn. f_equal. apply rev_alt.
  - rewrite <- Hv. apply atoi_digits; [|done|lia]. intros d Hd.
    assert (Forall (fun d => digit_char (str "0123456789ABCDEF") d = 48 + d) (seqZ 0 10)) as H.
    { apply (bool_decide_unpack _). reflexivity. }
    rewrite list.Forall_forall in H. apply H, elem_of_seqZ. lia.
Qed.

Lemma atoi_printint_roundtrip_witness :
  exists cs, printint_chars (str "0123456789ABCDEF") 2147483647 10 false = Some cs /\
             atoi cs = 2147483647.
Proof. apply atoi_printint_roundtrip. lia. Defined.
