(* ===== verification/Kstate.v ===== *)
(** The data model of the kernel: the constants of param.h, fs.h, mmu.h and
    memlayout.h, the structures of proc.h, buf.h, file.h, fs.h, log.c, pipe.c,
    console.c and ksync.c, and the record [kstate] of the kernel's global
    variables; the monad [K] of the code that runs over it; the lock and
    scheduling primitives every component uses. *)

From stdpp Require Import base list gmap strings numbers.
From Stdlib Require Import ZArith Lia.
From S2P Require Import Prelude Bytes.
Open Scope Z_scope.

(** ** param.h *)
Definition NPROC : Z := 64.
Definition KSTACKSIZE : Z := 4096.
Definition NCPU : Z := 8.
Definition NOFILE : Z := 16.
Definition NFILE : Z := 100.
Definition NINODE : Z := 50.
Definition NDEV : Z := 10.
Definition ROOTDEV : Z := 1.
Definition MAXARG : Z := 32.
Definition MAXOPBLOCKS : Z := 10.
Definition LOGSIZE : Z := MAXOPBLOCKS * 3.
Definition NBUF : Z := MAXOPBLOCKS * 3.
Definition FSSIZE : Z := 1000.

(** ** fcntl.h *)
Definition O_RDONLY : Z := 0.
Definition O_WRONLY : Z := 1.
Definition O_RDWR : Z := 2.
Definition O_CREATE : Z := 0x200.

(** ** fs.h *)
Definition ROOTINO : Z := 1.
Definition BSIZE : Z := 512.
Definition NDIRECT : Z := 12.
Definition NINDIRECT : Z := BSIZE / 4.
Definition MAXFILE : Z := NDIRECT + NINDIRECT.
Definition IPB : Z := BSIZE / 64.
Definition BPB : Z := BSIZE * 8.
Definition DIRSIZ : Z := 14.

(** ** buf.h *)
Definition B_VALID : Z := 2.
Definition B_DIRTY : Z := 4.

(** ** stat.h *)
Definition T_DIR : Z := 1.
Definition T_FILE : Z := 2.
Definition T_DEV : Z := 3.

(** ** proc.h [enum procstate] *)
Inductive procstate := UNUSED | EMBRYO | SLEEPING | RUNNABLE | RUNNING | ZOMBIE.
#[global] Instance procstate_eq_dec : EqDecision procstate.
Proof. solve_decision. Defined.

(** ** file.h: the type of a struct file *)
Inductive filetype := FD_NONE | FD_PIPE | FD_INODE.
#[global] Instance filetype_eq_dec : EqDecision filetype.
Proof. solve_decision. Defined.

(** A sleeplock is that of a buffer or of an inode. *)
Inductive slid := SLBuf (i : nat) | SLInode (i : nat).
#[global] Instance slid_eq_dec : EqDecision slid.
Proof. solve_decision. Defined.

(** The spinlocks of the kernel. *)
Inductive lockid :=
| LPtable | LTicks | LKmem | LFtable | LIcache | LBcache | LLog | LIde | LCons | LKsync
| LPipe (a : Z) | LSleep (l : slid).
#[global] Instance lockid_eq_dec : EqDecision lockid.
Proof. solve_decision. Defined.

(** The addresses used as sleep channels. [ChNone] is the null pointer. *)
Inductive chan :=
| ChNone | ChProc (i : nat) | ChTicks | ChLog | ChBuf (i : nat) | ChSleeplock (l : slid)
| ChPipeRead (a : Z) | ChPipeWrite (a : Z) | ChInput | ChObj (i : nat).
#[global] Instance chan_eq_dec : EqDecision chan.
Proof. solve_decision. Defined.

(** x86.h [struct trapframe]; the padding halfwords are left out. *)
Record trapframe := mk_trapframe {
  tf_edi : Z;
  tf_esi : Z;
  tf_ebp : Z;
  tf_oesp : Z;
  tf_ebx : Z;
  tf_edx : Z;
  tf_ecx : Z;
  tf_eax : Z;
  tf_gs : Z;
  tf_fs : Z;
  tf_es : Z;
  tf_ds : Z;
  tf_trapno : Z;
  tf_err : Z;
  tf_eip : Z;
  tf_cs : Z;
  tf_eflags : Z;
  tf_esp : Z;
  tf_ss : Z
}.

Definition eta_trapframe (r : trapframe) : trapframe :=
  mk_trapframe (tf_edi r) (tf_esi r) (tf_ebp r) (tf_oesp r) (tf_ebx r) (tf_edx r) (tf_ecx r) (tf_eax r) (tf_gs r) (tf_fs r) (tf_es r) (tf_ds r) (tf_trapno r) (tf_err r) (tf_eip r) (tf_cs r) (tf_eflags r) (tf_esp r) (tf_ss r).
#[global] Instance set_tf_edi : Setter tf_edi := ltac:(mk_setter eta_trapframe tf_edi).
#[global] Instance set_tf_esi : Setter tf_esi := ltac:(mk_setter eta_trapframe tf_esi).
#[global] Instance set_tf_ebp : Setter tf_ebp := ltac:(mk_setter eta_trapframe tf_ebp).
#[global] Instance set_tf_oesp : Setter tf_oesp := ltac:(mk_setter eta_trapframe tf_oesp).
#[global] Instance set_tf_ebx : Setter tf_ebx := ltac:(mk_setter eta_trapframe tf_ebx).
#[global] Instance set_tf_edx : Setter tf_edx := ltac:(mk_setter eta_trapframe tf_edx).
#[global] Instance set_tf_ecx : Setter tf_ecx := ltac:(mk_setter eta_trapframe tf_ecx).
#[global] Instance set_tf_eax : Setter tf_eax := ltac:(mk_setter eta_trapframe tf_eax).
#[global] Instance set_tf_gs : Setter tf_gs := ltac:(mk_setter eta_trapframe tf_gs).
#[global] Instance set_tf_fs : Setter tf_fs := ltac:(mk_setter eta_trapframe tf_fs).
#[global] Instance set_tf_es : Setter tf_es := ltac:(mk_setter eta_trapframe tf_es).
#[global] Instance set_tf_ds : Setter tf_ds := ltac:(mk_setter eta_trapframe tf_ds).
#[global] Instance set_tf_trapno : Setter tf_trapno := ltac:(mk_setter eta_trapframe tf_trapno).
#[global] Instance set_tf_err : Setter tf_err := ltac:(mk_setter eta_trapframe tf_err).
#[global] Instance set_tf_eip : Setter tf_eip := ltac:(mk_setter eta_trapframe tf_eip).
#[global] Instance set_tf_cs : Setter tf_cs := ltac:(mk_setter eta_trapframe tf_cs).
#[global] Instance set_tf_eflags : Setter tf_eflags := ltac:(mk_setter eta_trapframe tf_eflags).
#[global] Instance set_tf_esp : Setter tf_esp := ltac:(mk_setter eta_trapframe tf_esp).
#[global] Instance set_tf_ss : Setter tf_ss := ltac:(mk_setter eta_trapframe tf_ss).

(** proc.h [struct context]. *)
Record context := mk_context {
  cx_edi : Z;
  cx_esi : Z;
  cx_ebx : Z;
  cx_ebp : Z;
  cx_eip : Z
}.

Definition eta_context (r : context) : context :=
  mk_context (cx_edi r) (cx_esi r) (cx_ebx r) (cx_ebp r) (cx_eip r).
#[global] Instance set_cx_edi : Setter cx_edi := ltac:(mk_setter eta_context cx_edi).
#[global] Instance set_cx_esi : Setter cx_esi := ltac:(mk_setter eta_context cx_esi).
#[global] Instance set_cx_ebx : Setter cx_ebx := ltac:(mk_setter eta_context cx_ebx).
#[global] Instance set_cx_ebp : Setter cx_ebp := ltac:(mk_setter eta_context cx_ebp).
#[global] Instance set_cx_eip : Setter cx_eip := ltac:(mk_setter eta_context cx_eip).

(** proc.h [struct proc]. [p_tf] and [p_context] hold what the pointers
    [tf] and [context] point to on the kernel stack. *)
Record proc := mk_proc {
  p_sz : Z;
  p_pgdir : Z;
  p_kstack : Z;
  p_state : procstate;
  p_pid : Z;
  p_parent : option nat;
  p_tf : trapframe;
  p_context : context;
  p_chan : chan;
  p_killed : Z;
  p_ofile : list (option nat);
  p_cwd : option nat;
  p_name : list Z;
  p_isthread : Z;
  p_tgid : Z;
  p_ustack : Z;
  p_randstate : Z;
  p_randpct : Z
}.

Definition eta_proc (r : proc) : proc :=
  mk_proc (p_sz r) (p_pgdir r) (p_kstack r) (p_state r) (p_pid r) (p_parent r) (p_tf r) (p_context r) (p_chan r) (p_killed r) (p_ofile r) (p_cwd r) (p_name r) (p_isthread r) (p_tgid r) (p_ustack r) (p_randstate r) (p_randpct r).
#[global] Instance set_p_sz : Setter p_sz := ltac:(mk_setter eta_proc p_sz).
#[global] Instance set_p_pgdir : Setter p_pgdir := ltac:(mk_setter eta_proc p_pgdir).
#[global] Instance set_p_kstack : Setter p_kstack := ltac:(mk_setter eta_proc p_kstack).
#[global] Instance set_p_state : Setter p_state := ltac:(mk_setter eta_proc p_state).
#[global] Instance set_p_pid : Setter p_pid := ltac:(mk_setter eta_proc p_pid).
#[global] Instance set_p_parent : Setter p_parent := ltac:(mk_setter eta_proc p_parent).
#[global] Instance set_p_tf : Setter p_tf := ltac:(mk_setter eta_proc p_tf).
#[global] Instance set_p_context : Setter p_context := ltac:(mk_setter eta_proc p_context).
#[global] Instance set_p_chan : Setter p_chan := ltac:(mk_setter eta_proc p_chan).
#[global] Instance set_p_killed : Setter p_killed := ltac:(mk_setter eta_proc p_killed).
#[global] Instance set_p_ofile : Setter p_ofile := ltac:(mk_setter eta_proc p_ofile).
#[global] Instance set_p_cwd : Setter p_cwd := ltac:(mk_setter eta_proc p_cwd).
#[global] Instance set_p_name : Setter p_name := ltac:(mk_setter eta_proc p_name).
#[global] Instance set_p_isthread : Setter p_isthread := ltac:(mk_setter eta_proc p_isthread).
#[global] Instance set_p_tgid : Setter p_tgid := ltac:(mk_setter eta_proc p_tgid).
#[global] Instance set_p_ustack : Setter p_ustack := ltac:(mk_setter eta_proc p_ustack).
#[global] Instance set_p_randstate : Setter p_randstate := ltac:(mk_setter eta_proc p_randstate).
#[global] Instance set_p_randpct : Setter p_randpct := ltac:(mk_setter eta_proc p_randpct).

(** sleeplock.h [struct sleeplock]; its spinlock is [LSleep]. *)
Record sleeplock := mk_sleeplock {
  sl_locked : Z;
  sl_pid : Z
}.

Definition eta_sleeplock (r : sleeplock) : sleeplock :=
  mk_sleeplock (sl_locked r) (sl_pid r).
#[global] Instance set_sl_locked : Setter sl_locked := ltac:(mk_setter eta_sleeplock sl_locked).
#[global] Instance set_sl_pid : Setter sl_pid := ltac:(mk_setter eta_sleeplock sl_pid).

(** buf.h [struct buf]. *)
Record buf := mk_buf {
  b_flags : Z;
  b_dev : Z;
  b_blockno : Z;
  b_lock : sleeplock;
  b_refcnt : Z;
  b_prev : nat;
  b_next : nat;
  b_qnext : option nat;
  b_data : list Z
}.

Definition eta_buf (r : buf) : buf :=
  mk_buf (b_flags r) (b_dev r) (b_blockno r) (b_lock r) (b_refcnt r) (b_prev r) (b_next r) (b_qnext r) (b_data r).
#[global] Instance set_b_flags : Setter b_flags := ltac:(mk_setter eta_buf b_flags).
#[global] Instance set_b_dev : Setter b_dev := ltac:(mk_setter eta_buf b_dev).
#[global] Instance set_b_blockno : Setter b_blockno := ltac:(mk_setter eta_buf b_blockno).
#[global] Instance set_b_lock : Setter b_lock := ltac:(mk_setter eta_buf b_lock).
#[global] Instance set_b_refcnt : Setter b_refcnt := ltac:(mk_setter eta_buf b_refcnt).
#[global] Instance set_b_prev : Setter b_prev := ltac:(mk_setter eta_buf b_prev).
#[global] Instance set_b_next : Setter b_next := ltac:(mk_setter eta_buf b_next).
#[global] Instance set_b_qnext : Setter b_qnext := ltac:(mk_setter eta_buf b_qnext).
#[global] Instance set_b_data : Setter b_data := ltac:(mk_setter eta_buf b_data).

(** file.h [struct inode]. *)
Record inode := mk_inode {
  i_dev : Z;
  i_inum : Z;
  i_ref : Z;
  i_lock : sleeplock;
  i_valid : Z;
  i_type : Z;
  i_major : Z;
  i_minor : Z;
  i_nlink : Z;
  i_size : Z;
  i_addrs : list Z
}.

Definition eta_inode (r : inode) : inode :=
  mk_inode (i_dev r) (i_inum r) (i_ref r) (i_lock r) (i_valid r) (i_type r) (i_major r) (i_minor r) (i_nlink r) (i_size r) (i_addrs r).
#[global] Instance set_i_dev : Setter i_dev := ltac:(mk_setter eta_inode i_dev).
#[global] Instance set_i_inum : Setter i_inum := ltac:(mk_setter eta_inode i_inum).
#[global] Instance set_i_ref : Setter i_ref := ltac:(mk_setter eta_inode i_ref).
#[global] Instance set_i_lock : Setter i_lock := ltac:(mk_setter eta_inode i_lock).
#[global] Instance set_i_valid : Setter i_valid := ltac:(mk_setter eta_inode i_valid).
#[global] Instance set_i_type : Setter i_type := ltac:(mk_setter eta_inode i_type).
#[global] Instance set_i_major : Setter i_major := ltac:(mk_setter eta_inode i_major).
#[global] Instance set_i_minor : Setter i_minor := ltac:(mk_setter eta_inode i_minor).
#[global] Instance set_i_nlink : Setter i_nlink := ltac:(mk_setter eta_inode i_nlink).
#[global] Instance set_i_size : Setter i_size := ltac:(mk_setter eta_inode i_size).
#[global] Instance set_i_addrs : Setter i_addrs := ltac:(mk_setter eta_inode i_addrs).

(** file.h [struct file]. *)
Record file := mk_file {
  f_type : filetype;
  f_ref : Z;
  f_readable : Z;
  f_writable : Z;
  f_pipe : Z;
  f_ip : option nat;
  f_off : Z
}.

Definition eta_file (r : file) : file :=
  mk_file (f_type r) (f_ref r) (f_readable r) (f_writable r) (f_pipe r) (f_ip r) (f_off r).
#[global] Instance set_f_type : Setter f_type := ltac:(mk_setter eta_file f_type).
#[global] Instance set_f_ref : Setter f_ref := ltac:(mk_setter eta_file f_ref).
#[global] Instance set_f_readable : Setter f_readable := ltac:(mk_setter eta_file f_readable).
#[global] Instance set_f_writable : Setter f_writable := ltac:(mk_setter eta_file f_writable).
#[global] Instance set_f_pipe : Setter f_pipe := ltac:(mk_setter eta_file f_pipe).
#[global] Instance set_f_ip : Setter f_ip := ltac:(mk_setter eta_file f_ip).
#[global] Instance set_f_off : Setter f_off := ltac:(mk_setter eta_file f_off).

(** pipe.c [struct pipe]; its spinlock is [LPipe]. *)
Record pipe := mk_pipe {
  pi_data : list Z;
  pi_nread : Z;
  pi_nwrite : Z;
  pi_readopen : Z;
  pi_writeopen : Z
}.

Definition eta_pipe (r : pipe) : pipe :=
  mk_pipe (pi_data r) (pi_nread r) (pi_nwrite r) (pi_readopen r) (pi_writeopen r).
#[global] Instance set_pi_data : Setter pi_data := ltac:(mk_setter eta_pipe pi_data).
#[global] Instance set_pi_nread : Setter pi_nread := ltac:(mk_setter eta_pipe pi_nread).
#[global] Instance set_pi_nwrite : Setter pi_nwrite := ltac:(mk_setter eta_pipe pi_nwrite).
#[global] Instance set_pi_readopen : Setter pi_readopen := ltac:(mk_setter eta_pipe pi_readopen).
#[global] Instance set_pi_writeopen : Setter pi_writeopen := ltac:(mk_setter eta_pipe pi_writeopen).

(** fs.h [struct superblock]. *)
Record superblock := mk_superblock {
  sb_size : Z;
  sb_nblocks : Z;
  sb_ninodes : Z;
  sb_nlog : Z;
  sb_logstart : Z;
  sb_inodestart : Z;
  sb_bmapstart : Z
}.

Definition eta_superblock (r : superblock) : superblock :=
  mk_superblock (sb_size r) (sb_nblocks r) (sb_ninodes r) (sb_nlog r) (sb_logstart r) (sb_inodestart r) (sb_bmapstart r).
#[global] Instance set_sb_size : Setter sb_size := ltac:(mk_setter eta_superblock sb_size).
#[global] Instance set_sb_nblocks : Setter sb_nblocks := ltac:(mk_setter eta_superblock sb_nblocks).
#[global] Instance set_sb_ninodes : Setter sb_ninodes := ltac:(mk_setter eta_superblock sb_ninodes).
#[global] Instance set_sb_nlog : Setter sb_nlog := ltac:(mk_setter eta_superblock sb_nlog).
#[global] Instance set_sb_logstart : Setter sb_logstart := ltac:(mk_setter eta_superblock sb_logstart).
#[global] Instance set_sb_inodestart : Setter sb_inodestart := ltac:(mk_setter eta_superblock sb_inodestart).
#[global] Instance set_sb_bmapstart : Setter sb_bmapstart := ltac:(mk_setter eta_superblock sb_bmapstart).

(** log.c [struct log] with its [struct logheader]. *)
Record logst := mk_logst {
  l_start : Z;
  l_size : Z;
  l_outstanding : Z;
  l_committing : Z;
  l_dev : Z;
  lh_n : Z;
  lh_block : list Z
}.

Definition eta_logst (r : logst) : logst :=
  mk_logst (l_start r) (l_size r) (l_outstanding r) (l_committing r) (l_dev r) (lh_n r) (lh_block r).
#[global] Instance set_l_start : Setter l_start := ltac:(mk_setter eta_logst l_start).
#[global] Instance set_l_size : Setter l_size := ltac:(mk_setter eta_logst l_size).
#[global] Instance set_l_outstanding : Setter l_outstanding := ltac:(mk_setter eta_logst l_outstanding).
#[global] Instance set_l_committing : Setter l_committing := ltac:(mk_setter eta_logst l_committing).
#[global] Instance set_l_dev : Setter l_dev := ltac:(mk_setter eta_logst l_dev).
#[global] Instance set_lh_n : Setter lh_n := ltac:(mk_setter eta_logst lh_n).
#[global] Instance set_lh_block : Setter lh_block := ltac:(mk_setter eta_logst lh_block).

(** console.c [input]. *)
Record inputbuf := mk_inputbuf {
  in_buf : list Z;
  in_r : Z;
  in_w : Z;
  in_e : Z
}.

Definition eta_inputbuf (r : inputbuf) : inputbuf :=
  mk_inputbuf (in_buf r) (in_r r) (in_w r) (in_e r).
#[global] Instance set_in_buf : Setter in_buf := ltac:(mk_setter eta_inputbuf in_buf).
#[global] Instance set_in_r : Setter in_r := ltac:(mk_setter eta_inputbuf in_r).
#[global] Instance set_in_w : Setter in_w := ltac:(mk_setter eta_inputbuf in_w).
#[global] Instance set_in_e : Setter in_e := ltac:(mk_setter eta_inputbuf in_e).

(** ksync.c [struct kobj]. *)
Record kobj := mk_kobj {
  o_used : Z;
  o_kind : Z;
  o_value : Z;
  o_owner : Z
}.

Definition eta_kobj (r : kobj) : kobj :=
  mk_kobj (o_used r) (o_kind r) (o_value r) (o_owner r).
#[global] Instance set_o_used : Setter o_used := ltac:(mk_setter eta_kobj o_used).
#[global] Instance set_o_kind : Setter o_kind := ltac:(mk_setter eta_kobj o_kind).
#[global] Instance set_o_value : Setter o_value := ltac:(mk_setter eta_kobj o_value).
#[global] Instance set_o_owner : Setter o_owner := ltac:(mk_setter eta_kobj o_owner).

(** Addresses chosen by the linker ([end], [data], [forkret], [trapret]). *)
Record symbols := mk_symbols {
  sym_end : Z;
  sym_data : Z;
  sym_forkret : Z;
  sym_trapret : Z
}.

Definition eta_symbols (r : symbols) : symbols :=
  mk_symbols (sym_end r) (sym_data r) (sym_forkret r) (sym_trapret r).
#[global] Instance set_sym_end : Setter sym_end := ltac:(mk_setter eta_symbols sym_end).
#[global] Instance set_sym_data : Setter sym_data := ltac:(mk_setter eta_symbols sym_data).
#[global] Instance set_sym_forkret : Setter sym_forkret := ltac:(mk_setter eta_symbols sym_forkret).
#[global] Instance set_sym_trapret : Setter sym_trapret := ltac:(mk_setter eta_symbols sym_trapret).

(** The kernel's global variables.

    - [k_held]: the spinlocks the running cpu holds, latest first;
    - [k_cur]: [mycpu()->proc]; a [struct proc *] is an index of [k_procs];
    - [k_procs], [k_nextpid], [k_initproc], [k_first]: proc.c;
    - [k_freelist], [k_uselock]: [kmem] of kalloc.c; [k_mem]: the
      contents of the page frames, by kernel address, as 1024 words each;
    - [k_kpgdir], [k_cr3], [k_esp0]: vm.c's kernel page table, and the page
      table register and the TSS stack pointer of the cpu;
    - [k_bufs]: [bcache.buf] with [bcache.head] at index [NBUF];
    - [k_disk]: the blocks of the disk; [k_trace]: the writes the disk has
      served, oldest first (a history variable, read by no definition);
    - [k_log], [k_sb], [k_icache], [k_files], [k_objs]: the globals of
      log.c, fs.c, file.c and ksync.c;
    - [k_pipes]: the pipes, by the page they live in;
    - [k_conout]: the characters sent to the serial port; [k_crt] and
      [k_crtpos]: the CGA memory and the cursor; [k_devsw]: whether
      consoleinit has filled [devsw[CONSOLE]].  *)
Record kstate := mk_kstate {
  k_sym : symbols;
  k_held : list lockid;
  k_cur : option nat;
  k_procs : list proc;
  k_nextpid : Z;
  k_initproc : option nat;
  k_first : bool;
  k_freelist : Z;
  k_uselock : Z;
  k_mem : gmap Z (list Z);
  k_kpgdir : Z;
  k_cr3 : Z;
  k_esp0 : Z;
  k_ticks : Z;
  k_input : inputbuf;
  k_conout : list Z;
  k_crt : list Z;
  k_crtpos : Z;
  k_devsw : bool;
  k_bufs : list buf;
  k_disk : gmap Z (list Z);
  k_trace : list (Z * list Z);
  k_log : logst;
  k_sb : superblock;
  k_icache : list inode;
  k_files : list file;
  k_pipes : gmap Z pipe;
  k_objs : list kobj;
  k_oinit : bool
}.

Definition eta_kstate (r : kstate) : kstate :=
  mk_kstate (k_sym r) (k_held r) (k_cur r) (k_procs r) (k_nextpid r) (k_initproc r) (k_first r) (k_freelist r) (k_uselock r) (k_mem r) (k_kpgdir r) (k_cr3 r) (k_esp0 r) (k_ticks r) (k_input r) (k_conout r) (k_crt r) (k_crtpos r) (k_devsw r) (k_bufs r) (k_disk r) (k_trace r) (k_log r) (k_sb r) (k_icache r) (k_files r) (k_pipes r) (k_objs r) (k_oinit r).
#[global] Instance set_k_sym : Setter k_sym := ltac:(mk_setter eta_kstate k_sym).
#[global] Instance set_k_held : Setter k_held := ltac:(mk_setter eta_kstate k_held).
#[global] Instance set_k_cur : Setter k_cur := ltac:(mk_setter eta_kstate k_cur).
#[global] Instance set_k_procs : Setter k_procs := ltac:(mk_setter eta_kstate k_procs).
#[global] Instance set_k_nextpid : Setter k_nextpid := ltac:(mk_setter eta_kstate k_nextpid).
#[global] Instance set_k_initproc : Setter k_initproc := ltac:(mk_setter eta_kstate k_initproc).
#[global] Instance set_k_first : Setter k_first := ltac:(mk_setter eta_kstate k_first).
#[global] Instance set_k_freelist : Setter k_freelist := ltac:(mk_setter eta_kstate k_freelist).
#[global] Instance set_k_uselock : Setter k_uselock := ltac:(mk_setter eta_kstate k_uselock).
#[global] Instance set_k_mem : Setter k_mem := ltac:(mk_setter eta_kstate k_mem).
#[global] Instance set_k_kpgdir : Setter k_kpgdir := ltac:(mk_setter eta_kstate k_kpgdir).
#[global] Instance set_k_cr3 : Setter k_cr3 := ltac:(mk_setter eta_kstate k_cr3).
#[global] Instance set_k_esp0 : Setter k_esp0 := ltac:(mk_setter eta_kstate k_esp0).
#[global] Instance set_k_ticks : Setter k_ticks := ltac:(mk_setter eta_kstate k_ticks).
#[global] Instance set_k_input : Setter k_input := ltac:(mk_setter eta_kstate k_input).
#[global] Instance set_k_conout : Setter k_conout := ltac:(mk_setter eta_kstate k_conout).
#[global] Instance set_k_crt : Setter k_crt := ltac:(mk_setter eta_kstate k_crt).
#[global] Instance set_k_crtpos : Setter k_crtpos := ltac:(mk_setter eta_kstate k_crtpos).
#[global] Instance set_k_devsw : Setter k_devsw := ltac:(mk_setter eta_kstate k_devsw).
#[global] Instance set_k_bufs : Setter k_bufs := ltac:(mk_setter eta_kstate k_bufs).
#[global] Instance set_k_disk : Setter k_disk := ltac:(mk_setter eta_kstate k_disk).
#[global] Instance set_k_trace : Setter k_trace := ltac:(mk_setter eta_kstate k_trace).
#[global] Instance set_k_log : Setter k_log := ltac:(mk_setter eta_kstate k_log).
#[global] Instance set_k_sb : Setter k_sb := ltac:(mk_setter eta_kstate k_sb).
#[global] Instance set_k_icache : Setter k_icache := ltac:(mk_setter eta_kstate k_icache).
#[global] Instance set_k_files : Setter k_files := ltac:(mk_setter eta_kstate k_files).
#[global] Instance set_k_pipes : Setter k_pipes := ltac:(mk_setter eta_kstate k_pipes).
#[global] Instance set_k_objs : Setter k_objs := ltac:(mk_setter eta_kstate k_objs).
#[global] Instance set_k_oinit : Setter k_oinit := ltac:(mk_setter eta_kstate k_oinit).

(** ** The kernel monad *)
Abbreviation K := (M kstate).

(** ** Array accesses: an index out of range is a [Fault]. *)

Definition proc_at (i : nat) : K proc := s ← get; of_opt "ptable.proc" (k_procs s !! i).
Definition upd_proc (i : nat) (f : proc -> proc) : K unit :=
  p ← proc_at i; modify (fun s => s <| k_procs := <[i := f p]> (k_procs s) |>).

Definition buf_at (i : nat) : K buf := s ← get; of_opt "bcache.buf" (k_bufs s !! i).
Definition upd_buf (i : nat) (f : buf -> buf) : K unit :=
  b ← buf_at i; modify (fun s => s <| k_bufs := <[i := f b]> (k_bufs s) |>).

Definition inode_at (i : nat) : K inode := s ← get; of_opt "icache.inode" (k_icache s !! i).
Definition upd_inode (i : nat) (f : inode -> inode) : K unit :=
  ip ← inode_at i; modify (fun s => s <| k_icache := <[i := f ip]> (k_icache s) |>).

Definition file_at (i : nat) : K file := s ← get; of_opt "ftable.file" (k_files s !! i).
Definition upd_file (i : nat) (f : file -> file) : K unit :=
  fl ← file_at i; modify (fun s => s <| k_files := <[i := f fl]> (k_files s) |>).

Definition upd_log (f : logst -> logst) : K unit :=
  modify (fun s => s <| k_log := f (k_log s) |>).

(** ** Memory: the 32-bit word at a kernel address *)

Definition page_of (a : Z) : Z := a - a mod 4096.
Definition word_of (a : Z) : nat := Z.to_nat (a mod 4096 / 4).

Definition load32 (a : Z) : K Z :=
  s ← get; pg ← of_opt "load: no such page" (k_mem s !! page_of a);
  of_opt "load: no such word" (pg !! word_of a).

Definition store32 (a v : Z) : K unit :=
  s ← get; pg ← of_opt "store: no such page" (k_mem s !! page_of a);
  modify (fun s => s <| k_mem := <[page_of a := <[word_of a := v]> pg]> (k_mem s) |>).

(** memset(v, c, PGSIZE) of a whole page, [w] being four copies of [c]. *)
Definition fill_page (v w : Z) : K unit :=
  modify (fun s => s <| k_mem := <[v := replicate 1024 w]> (k_mem s) |>).

(** ** Spinlocks as the set of locks the cpu holds

    acquire and release of spinlock.c, seen from the cpu that runs the code:
    [Spinlock.v] models them with the lock word, the cpu field, the interrupt
    flag and [ncli], and proves that they implement these two. *)

Definition holding (l : lockid) : K bool := gets (fun s => bool_decide (l ∈ k_held s)).

Definition acquire (l : lockid) : K unit :=
  h ← holding l;
  if (h : bool) then panic "acquire" else modify (fun s => s <| k_held := l :: k_held s |>).

Fixpoint remove_lock (l : lockid) (h : list lockid) : list lockid :=
  match h with
  | [] => []
  | x :: h' => if decide (x = l) then h' else x :: remove_lock l h'
  end.

Definition release (l : lockid) : K unit :=
  h ← holding l;
  if (h : bool) then modify (fun s => s <| k_held := remove_lock l (k_held s) |>)
  else panic "release".

(** ** The kernel's globals when main() starts: .bss is zero, and .data has
    [nextpid = 1] and forkret's [first = 1] *)

Definition zero_tf : trapframe := mk_trapframe 0 0 0 0 0 0 0 0 0 0 0 0 0 0 0 0 0 0 0.
Definition zero_context : context := mk_context 0 0 0 0 0.
Definition zero_proc : proc :=
  mk_proc 0 0 0 UNUSED 0 None zero_tf zero_context ChNone 0 (replicate 16 None) None
          (replicate 16 0) 0 0 0 0 0.
Definition zero_buf : buf := mk_buf 0 0 0 (mk_sleeplock 0 0) 0 0 0 None (replicate 512 0).
Definition zero_inode : inode := mk_inode 0 0 0 (mk_sleeplock 0 0) 0 0 0 0 0 0 (replicate 13 0).
Definition zero_file : file := mk_file FD_NONE 0 0 0 0 None 0.
Definition zero_log : logst := mk_logst 0 0 0 0 0 0 (replicate 30 0).
Definition zero_sb : superblock := mk_superblock 0 0 0 0 0 0 0.

Definition boot_state (sym : symbols) (disk : gmap Z (list Z)) : kstate :=
  mk_kstate sym [] None (replicate 64 zero_proc) 1 None true 0 0 ∅ 0 0 0 0
    (mk_inputbuf (replicate 128 0) 0 0 0) [] (replicate 2000 0) 0 false
    (replicate 31 zero_buf) disk [] zero_log zero_sb
    (replicate 50 zero_inode) (replicate 100 zero_file) ∅
    (replicate 64 (mk_kobj 0 0 0 0)) false.

(** ** Rules for the accessors, memory and locks *)

Section kstate_wp.
Implicit Types (s : kstate) (Q : unit -> kstate -> Prop).

Lemma wp_proc_at i p (Q : proc -> kstate -> Prop) s :
  k_procs s !! i = Some p -> Q p s -> wp (proc_at i) Q s.
Proof. intros Hp HQ. unfold proc_at. wp_steps. exact HQ. Qed.

Lemma wp_upd_proc i f p Q s :
  k_procs s !! i = Some p ->
  Q tt (s <| k_procs := <[i := f p]> (k_procs s) |>) -> wp (upd_proc i f) Q s.
Proof. intros Hp HQ. unfold upd_proc, proc_at. wp_steps. exact HQ. Qed.

Lemma wp_buf_at i b (Q : buf -> kstate -> Prop) s :
  k_bufs s !! i = Some b -> Q b s -> wp (buf_at i) Q s.
Proof. intros Hp HQ. unfold buf_at. wp_steps. exact HQ. Qed.

Lemma wp_upd_buf i f b Q s :
  k_bufs s !! i = Some b ->
  Q tt (s <| k_bufs := <[i := f b]> (k_bufs s) |>) -> wp (upd_buf i f) Q s.
Proof. intros Hp HQ. unfold upd_buf, buf_at. wp_steps. exact HQ. Qed.

Lemma wp_inode_at i x (Q : inode -> kstate -> Prop) s :
  k_icache s !! i = Some x -> Q x s -> wp (inode_at i) Q s.
Proof. intros Hp HQ. unfold inode_at. wp_steps. exact HQ. Qed.

Lemma wp_upd_inode i f x Q s :
  k_icache s !! i = Some x ->
  Q tt (s <| k_icache := <[i := f x]> (k_icache s) |>) -> wp (upd_inode i f) Q s.
Proof. intros Hp HQ. unfold upd_inode, inode_at. wp_steps. exact HQ. Qed.

Lemma wp_file_at i x (Q : file -> kstate -> Prop) s :
  k_files s !! i = Some x -> Q x s -> wp (file_at i) Q s.
Proof. intros Hp HQ. unfold file_at. wp_steps. exact HQ. Qed.

Lemma wp_upd_file i f x Q s :
  k_files s !! i = Some x ->
  Q tt (s <| k_files := <[i := f x]> (k_files s) |>) -> wp (upd_file i f) Q s.
Proof. intros Hp HQ. unfold upd_file, file_at. wp_steps. exact HQ. Qed.

Lemma wp_load32 a pg w (Q : Z -> kstate -> Prop) s :
  k_mem s !! page_of a = Some pg -> pg !! word_of a = Some w -> Q w s -> wp (load32 a) Q s.
Proof. intros Hp Hw HQ. unfold load32. wp_steps. exact HQ. Qed.

Lemma wp_store32 a v pg Q s :
  k_mem s !! page_of a = Some pg ->
  Q tt (s <| k_mem := <[page_of a := <[word_of a := v]> pg]> (k_mem s) |>) ->
  wp (store32 a v) Q s.
Proof. intros Hp HQ. unfold store32. wp_steps. exact HQ. Qed.

Lemma wp_acquire l Q s :
  l ∉ k_held s -> Q tt (s <| k_held := l :: k_held s |>) -> wp (acquire l) Q s.
Proof.
  intros Hl HQ. unfold acquire, holding. wp_steps.
  rewrite bool_decide_eq_false_2 by done. exact HQ.
Qed.

Lemma wp_release l Q s :
  l ∈ k_held s -> Q tt (s <| k_held := remove_lock l (k_held s) |>) -> wp (release l) Q s.
Proof.
  intros Hl HQ. unfold release, holding. wp_steps.
  rewrite bool_decide_eq_true_2 by done. exact HQ.
Qed.

Lemma remove_lock_head l h : remove_lock l (l :: h) = h.
Proof. simpl. now rewrite decide_True. Qed.

Lemma wp_release_head l h Q s :
  k_held s = l :: h -> Q tt (s <| k_held := h |>) -> wp (release l) Q s.
Proof.
  intros Hh HQ. apply wp_release; [rewrite Hh; set_solver|].
  now rewrite Hh, remove_lock_head.
Qed.

Lemma set_held_same s : s <| k_held := k_held s |> = s.
Proof. now destruct s. Qed.
Lemma set_bufs_same s : s <| k_bufs := k_bufs s |> = s.
Proof. now destruct s. Qed.
Lemma set_procs_same s : s <| k_procs := k_procs s |> = s.
Proof. now destruct s. Qed.
End kstate_wp.

#[export] Hint Resolve wp_proc_at wp_upd_proc wp_buf_at wp_upd_buf wp_inode_at wp_upd_inode
  wp_file_at wp_upd_file wp_acquire wp_release : kwp.
Create Rewrite HintDb kstate.
#[export] Hint Rewrite remove_lock_head set_held_same set_bufs_same set_procs_same : kstate.
