(* ===== verification/Umalloc.v ===== *)
(** The user-level allocator, umalloc.c (Kernighan and Ritchie): malloc and free over a circular
    list of free blocks in address order.

    Memory is a function from the address of a header to its two fields; a header outside the
    static [base] and the heap, or one that is not aligned, cannot be accessed. sbrk is a
    parameter: it returns the old break and moves it, or fails. *)

From stdpp Require Import base list sets strings numbers.
From Stdlib Require Import ZArith Lia.
From S2P Require Import Prelude.
Open Scope Z_scope.

(** union header, without the member that only aligns it. *)
Record hdr := mk_hdr { h_ptr : Z; h_size : Z }.

(** [hp_lo] is where the heap starts, [hp_brk] the break. *)
Record heap := mk_heap { hp_mem : Z -> hdr; hp_freep : Z; hp_brk : Z }.
Definition eta_heap (r : heap) : heap := mk_heap (hp_mem r) (hp_freep r) (hp_brk r).
#[global] Instance set_hp_mem : Setter hp_mem := ltac:(mk_setter eta_heap hp_mem).
#[global] Instance set_hp_freep : Setter hp_freep := ltac:(mk_setter eta_heap hp_freep).
#[global] Instance set_hp_brk : Setter hp_brk := ltac:(mk_setter eta_heap hp_brk).

Definition hupd (m : Z -> hdr) (a : Z) (h : hdr) : Z -> hdr := fun x => if x =? a then h else m x.

(** sizeof(Header) *)
Definition HSIZE : Z := 8.

Section umalloc.
(** The address of the static [base] and of the start of the heap. *)
Context (base lo : Z).

Definition accessible (a brk : Z) : bool :=
  (a =? base) || (lo <=? a) && (a + HSIZE <=? brk) && (a mod HSIZE =? 0).

Definition hdr_at (a : Z) : M heap hdr :=
  s ← get; if accessible a (hp_brk s) then ret (hp_mem s a) else fault "header".
Definition set_ptr (a p : Z) : M heap unit :=
  h ← hdr_at a; modify (fun s => s <| hp_mem := hupd (hp_mem s) a (mk_hdr p (h_size h)) |>).
Definition set_size (a n : Z) : M heap unit :=
  h ← hdr_at a; modify (fun s => s <| hp_mem := hupd (hp_mem s) a (mk_hdr (h_ptr h) n) |>).
Definition set_freep (p : Z) : M heap unit := modify (fun s => s <| hp_freep := p |>).

(** for(p = freep; !(bp > p && bp < p->s.ptr); p = p->s.ptr)
      if(p >= p->s.ptr && (bp > p || bp < p->s.ptr)) break; *)
Fixpoint free_loop (fuel : nat) (bp p : Z) : M heap Z :=
  h ← hdr_at p;
  if (p <? bp) && (bp <? h_ptr h) then ret p else
  if (h_ptr h <=? p) && ((p <? bp) || (bp <? h_ptr h)) then ret p else
  match fuel with
  | O => nofuel
  | S fuel' => free_loop fuel' bp (h_ptr h)
  end.

(** p + n in units of Header. *)
Definition hplus (p n : Z) : Z := u32 (p + HSIZE * n).

Definition free (fuel : nat) (ap : Z) : M heap unit :=
  let bp := hplus ap (-1) in
  p ← gets hp_freep;
  p ← free_loop fuel bp p;
  hb ← hdr_at bp;
  hp ← hdr_at p;
  (if hplus bp (h_size hb) =? h_ptr hp then
     hn ← hdr_at (h_ptr hp);
     set_size bp (u32 (h_size hb + h_size hn)) ;;
     set_ptr bp (h_ptr hn)
   else set_ptr bp (h_ptr hp)) ;;
  hp ← hdr_at p;
  (if hplus p (h_size hp) =? bp then
     hb ← hdr_at bp;
     set_size p (u32 (h_size hp + h_size hb)) ;;
     set_ptr p (h_ptr hb)
   else set_ptr p bp) ;;
  set_freep p.

Definition morecore (sbrk : Z -> M heap Z) (fuel : nat) (nu : Z) : M heap Z :=
  let nu := if nu <? 4096 then 4096 else nu in
  p ← sbrk (s32 (u32 (nu * HSIZE)));
  if p =? -1 then ret 0 else
  set_size p nu ;;
  free fuel (hplus p 1) ;;
  gets hp_freep.

Fixpoint malloc_loop (sbrk : Z -> M heap Z) (fuel : nat) (nunits prevp p : Z) : M heap Z :=
  match fuel with
  | O => nofuel
  | S fuel' =>
    h ← hdr_at p;
    if nunits <=? h_size h then
      r ← (if h_size h =? nunits then set_ptr prevp (h_ptr h) ;; ret p
           else
             set_size p (u32 (h_size h - nunits)) ;;
             let p := hplus p (u32 (h_size h - nunits)) in
             set_size p nunits ;;
             ret p);
      set_freep prevp ;;
      ret (hplus r 1)
    else
      freep ← gets hp_freep;
      if p =? freep then
        p ← morecore sbrk fuel nunits;
        if p =? 0 then ret 0 else
        h ← hdr_at p;
        malloc_loop sbrk fuel' nunits p (h_ptr h)
      else malloc_loop sbrk fuel' nunits p (h_ptr h)
  end.

(** (nbytes + sizeof(Header) - 1)/sizeof(Header) + 1 on uints *)
Definition nunits_of (nbytes : Z) : Z := u32 (u32 (nbytes + HSIZE - 1) / HSIZE + 1).

Definition malloc (sbrk : Z -> M heap Z) (fuel : nat) (nbytes : Z) : M heap Z :=
  let nunits := nunits_of nbytes in
  f ← gets hp_freep;
  prevp ← (if f =? 0 then set_ptr base base ;; set_freep base ;; set_size base 0 ;; ret base else ret f);
  h ← hdr_at prevp;
  malloc_loop sbrk fuel nunits prevp (h_ptr h).

(** ** The free list *)

(** A block: the address of its header and its size in units, the header included. *)
Abbreviation block := (Z * Z)%type.

Definition first (l : list block) (e : Z) : Z := match l with (a, _) :: _ => a | [] => e end.

(** The headers of the blocks [l] are linked in order, the last one to [e]. *)
Fixpoint seg (m : Z -> hdr) (l : list block) (e : Z) : Prop :=
  match l with
  | [] => True
  | (a, n) :: l' => m a = mk_hdr (first l' e) n /\ seg m l' e
  end.

(** In address order, and no two blocks adjacent. *)
Definition below (x y : block) : Prop := x.1 + HSIZE * x.2 < y.1.
Fixpoint sep (l : list block) : Prop :=
  match l with
  | x :: l' => Forall (below x) l' /\ sep l'
  | [] => True
  end.

Lemma hseg_app m l1 l2 e : seg m (l1 ++ l2) e <-> seg m l1 (first l2 e) /\ seg m l2 e.
Proof.
  induction l1 as [|[a n] l1 IH]; simpl; [tauto|]. rewrite IH. destruct l1 as [|[b k] l1]; simpl; tauto.
Qed.

Lemma seg_frame m a h l e : a ∉ l.*1 -> seg m l e -> seg (hupd m a h) l e.
Proof.
  induction l as [|[b n] l IH]; simpl; [done|]. intros [Hb Ha]%not_elem_of_cons [H1 H2].
  split; [|auto]. unfold hupd. destruct (Z.eqb_spec b a); [congruence|done].
Qed.

Lemma sep_app l1 l2 :
  sep (l1 ++ l2) <-> sep l1 /\ sep l2 /\ forall x y, x ∈ l1 -> y ∈ l2 -> below x y.
Proof.
  induction l1 as [|x l1 IH]; simpl; [set_solver|]. rewrite IH, Forall_app, !list.Forall_forall. set_solver.
Qed.

(** ** Memory use *)

Definition covers (x : Z) (b : block) : bool := (b.1 <=? x) && (x <? b.1 + HSIZE * b.2).

(** The number of blocks that contain the address [x]. *)
Definition cnt (x : Z) (l : list block) : nat := length (List.filter (covers x) l).

Lemma cnt_app x l1 l2 : cnt x (l1 ++ l2) = (cnt x l1 + cnt x l2)%nat.
Proof. unfold cnt. now rewrite List.filter_app, length_app. Qed.

Lemma cnt_cons x b l : cnt x (b :: l) = ((if covers x b then 1 else 0) + cnt x l)%nat.
Proof. unfold cnt. simpl. now destruct (covers x b). Qed.

Lemma cnt_elem x b l : b ∈ l -> covers x b = true -> (1 <= cnt x l)%nat.
Proof.
  intros Hb Hc. apply list_elem_of_split in Hb as (l1 & l2 & ->). rewrite cnt_app, cnt_cons, Hc. lia.
Qed.

(** Cutting a block in two, or joining two adjacent blocks, covers the same addresses. *)
Lemma cnt_cut x a n k l : 0 <= k <= n ->
  cnt x ((a, n) :: l) = cnt x ((a, k) :: (a + HSIZE * k, n - k) :: l).
Proof.
  intros Hk. rewrite !cnt_cons. unfold covers, HSIZE. simpl.
  destruct (Z.leb_spec a x), (Z.ltb_spec x (a + 8 * n)), (Z.ltb_spec x (a + 8 * k)),
    (Z.leb_spec (a + 8 * k) x), (Z.ltb_spec x (a + 8 * k + 8 * (n - k))); simpl; lia.
Qed.

Definition blk_ok (brk : Z) (b : block) : Prop :=
  lo <= b.1 /\ b.1 mod HSIZE = 0 /\ 0 < b.2 /\ b.1 + HSIZE * b.2 <= brk.

(** The free blocks are [fl] and the allocated ones [al]. *)
Record heap_ok (s : heap) (fl al : list block) : Prop := {
  ho_list : seg (hp_mem s) ((base, 0) :: fl) base;
  ho_sep : sep ((base, 0) :: fl);
  ho_blocks : Forall (blk_ok (hp_brk s)) (fl ++ al);
  ho_sizes : Forall (fun b => h_size (hp_mem s b.1) = b.2) al;
  ho_disjoint : forall x, (cnt x (fl ++ al) <= 1)%nat;
  ho_freep : hp_freep s ∈ ((base, 0) :: fl).*1;
  ho_brk : lo <= hp_brk s < 2147483648 /\ hp_brk s mod HSIZE = 0
}.

(** Two blocks that are disjoint lie one after the other. *)
Lemma disjoint_order l1 l2 x y :
  (forall z, (cnt z (l1 ++ l2) <= 1)%nat) -> x ∈ l1 -> y ∈ l2 -> 0 < x.2 -> 0 < y.2 ->
  x.1 + HSIZE * x.2 <= y.1 \/ y.1 + HSIZE * y.2 <= x.1.
Proof.
  intros Hd Hx Hy H1 H2. unfold HSIZE.
  destruct (decide (x.1 + 8 * x.2 <= y.1)) as [?|Ha]; [now left|]. right.
  destruct (decide (y.1 + 8 * y.2 <= x.1)) as [?|Hb]; [done|]. exfalso.
  pose proof (Hd (Z.max x.1 y.1)) as Hc. rewrite cnt_app in Hc.
  assert (forall b : block, b.1 <= Z.max x.1 y.1 < b.1 + 8 * b.2 -> covers (Z.max x.1 y.1) b = true) as Hcov
    by (intros b Hb'; unfold covers, HSIZE; lia).
  pose proof (cnt_elem (Z.max x.1 y.1) x l1 Hx ltac:(apply Hcov; lia)).
  pose proof (cnt_elem (Z.max x.1 y.1) y l2 Hy ltac:(apply Hcov; lia)). lia.
Qed.

(** ** Access *)

Section access.
Context (s : heap).

Lemma wp_hdr_at a (Q : hdr -> heap -> Prop) :
  accessible a (hp_brk s) = true -> Q (hp_mem s a) s -> wp (hdr_at a) Q s.
Proof. intros Ha HQ. unfold hdr_at. wp_steps. exact HQ. Qed.

Lemma wp_set_ptr a p (Q : unit -> heap -> Prop) :
  accessible a (hp_brk s) = true ->
  Q tt (s <| hp_mem := hupd (hp_mem s) a (mk_hdr p (h_size (hp_mem s a))) |>) -> wp (set_ptr a p) Q s.
Proof. intros Ha HQ. unfold set_ptr. wp_steps. apply wp_hdr_at; [done|]. now wp_steps. Qed.

Lemma wp_set_size a n (Q : unit -> heap -> Prop) :
  accessible a (hp_brk s) = true ->
  Q tt (s <| hp_mem := hupd (hp_mem s) a (mk_hdr (h_ptr (hp_mem s a)) n) |>) -> wp (set_size a n) Q s.
Proof. intros Ha HQ. unfold set_size. wp_steps. apply wp_hdr_at; [done|]. now wp_steps. Qed.
End access.

Lemma blk_accessible brk b : blk_ok brk b -> accessible b.1 brk = true.
Proof. unfold blk_ok, accessible, HSIZE. intros (H1 & H2 & H3 & H4). lia. Qed.

Section heap.
Hypothesis Hbase : 0 < base /\ base + HSIZE <= lo.

Lemma base_accessible brk : accessible base brk = true.
Proof using. unfold accessible. now rewrite Z.eqb_refl. Qed.

Section ok.
Context (s : heap) (fl al : list block).
Hypothesis Hok : heap_ok s fl al.
Abbreviation nodes := ((base, 0) :: fl).

Lemma node_accessible a n : (a, n) ∈ nodes -> accessible a (hp_brk s) = true.
Proof.
  intros [E|H]%elem_of_cons; [simplify_eq; apply base_accessible|].
  pose proof (ho_blocks _ _ _ Hok) as Hb. rewrite list.Forall_forall in Hb.
  apply (blk_accessible _ (a, n)), Hb. set_solver.
Qed.

Lemma node_ge a n : (a, n) ∈ nodes -> base <= a /\ 0 <= n.
Proof.
  intros [E|H]%elem_of_cons; [simplify_eq; lia|].
  pose proof (ho_blocks _ _ _ Hok) as Hb. rewrite list.Forall_forall in Hb.
  destruct (Hb (a, n) ltac:(set_solver)) as (H1 & _ & H3 & _). unfold HSIZE in *. simpl in *. lia.
Qed.

(** One step along the list. *)
Lemma node_next l1 a n l2 : nodes = l1 ++ (a, n) :: l2 -> hp_mem s a = mk_hdr (first l2 base) n.
Proof.
  intros E. pose proof (ho_list _ _ _ Hok) as Hs. rewrite E, hseg_app in Hs. apply Hs.
Qed.

Lemma node_order l1 a n l2 b k : nodes = l1 ++ (a, n) :: l2 -> (b, k) ∈ l2 -> a + HSIZE * n < b.
Proof.
  intros E Hb. pose proof (ho_sep _ _ _ Hok) as Hs. rewrite E, sep_app in Hs. destruct Hs as (_ & [Hs _] & _).
  rewrite list.Forall_forall in Hs. now apply (Hs (b, k)).
Qed.

(** The search finds the last node before [bp]. *)
Section search.
Context (bp p np : Z) (l1 l2 : list block).
Hypothesis Hsplit : nodes = l1 ++ (p, np) :: l2.
Hypothesis Hp : p < bp.
Hypothesis Hl2 : Forall (fun y => bp < y.1) l2.

Lemma wp_free_loop_before d : forall c q nq fuel,
  l1 ++ [(p, np)] = c ++ (q, nq) :: d -> (length d <= fuel)%nat ->
  wp (free_loop fuel bp q) (fun r s' => r = p /\ s' = s) s.
Proof.
  induction d as [|[e ne] d IH]; intros c q nq fuel E Hf.
  - apply app_inj_2 in E as [<- [= <- <-]]; [|done].
    assert (accessible p (hp_brk s) = true) as Hacc by (apply (node_accessible p np); rewrite Hsplit; set_solver).
    destruct (node_ge p np) as [Hge _]; [rewrite Hsplit; set_solver|].
    destruct fuel; cbn [free_loop]; wp_steps; (apply wp_hdr_at; [done|]);
      rewrite (node_next l1 p np l2 Hsplit); simpl h_ptr;
      (destruct l2 as [|[y ny] l2']; simpl first;
       [apply wp_if_false; [lia|]; apply wp_if_true; [lia|]; now wp_steps
       |apply list.Forall_cons in Hl2 as [Hy _]; simpl in Hy; apply wp_if_true; [lia|]; now wp_steps]).
  - assert (nodes = c ++ (q, nq) :: ((e, ne) :: d) ++ l2) as En.
    { rewrite Hsplit. change ((p, np) :: l2) with ([(p, np)] ++ l2). rewrite app_assoc, E, <- app_assoc. done. }
    assert ((q, nq) ∈ nodes) as Hq by (rewrite En; set_solver).
    destruct (node_ge q nq Hq) as [_ Hnq]. pose proof (node_accessible q nq Hq) as Hacc.
    assert (q < e) as Hqe.
    { pose proof (node_order c q nq _ e ne En ltac:(set_solver)). unfold HSIZE in *. lia. }
    assert (e <= p) as Hep.
    { assert ((p, np) ∈ (e, ne) :: d) as Hin.
      { assert (list.last (l1 ++ [(p, np)]) = Some (p, np)) as Hl by apply last_snoc.
        rewrite E in Hl. rewrite (last_app_cons c) in Hl. rewrite last_cons_cons in Hl.
        now apply last_Some_elem_of in Hl. }
      apply elem_of_cons in Hin as [Hin|Hin]; [simplify_eq; lia|].
      assert (nodes = (c ++ [(q, nq)]) ++ (e, ne) :: (d ++ l2)) as En2 by (rewrite En, <- app_assoc; done).
      pose proof (node_order _ e ne _ p np En2 ltac:(set_solver)).
      destruct (node_ge e ne) as [_ ?]; [rewrite En2; set_solver|]. unfold HSIZE in *. lia. }
    destruct fuel as [|fuel]; [simpl in Hf; lia|]. cbn [free_loop]. wp_steps. apply wp_hdr_at; [done|].
    rewrite (node_next c q nq _ En). simpl h_ptr. apply wp_if_false; [lia|]. apply wp_if_false; [lia|].
    apply (IH (c ++ [(q, nq)]) e ne); [rewrite E, <- app_assoc; done|simpl in Hf; lia].
Qed.

Lemma wp_free_loop_after d : forall c q nq fuel,
  l2 = c ++ (q, nq) :: d -> (length d + 1 + length l1 <= fuel)%nat ->
  wp (free_loop fuel bp q) (fun r s' => r = p /\ s' = s) s.
Proof.
  induction d as [|[e ne] d IH]; intros c q nq fuel E Hf.
  all: assert (nodes = (l1 ++ (p, np) :: c) ++ (q, nq) :: _) as En by (rewrite Hsplit, E, <- app_assoc; reflexivity).
  all: assert ((q, nq) ∈ nodes) as Hq by (rewrite En; set_solver).
  all: destruct (node_ge q nq Hq) as [Hgq Hnq]; pose proof (node_accessible q nq Hq) as Hacc.
  all: assert (bp < q) as Hbq by (rewrite list.Forall_forall in Hl2; apply (Hl2 (q, nq)); rewrite E; set_solver).
  all: destruct fuel as [|fuel]; [simpl in Hf; lia|]; cbn [free_loop]; wp_steps; (apply wp_hdr_at; [done|]).
  all: rewrite (node_next _ q nq _ En); simpl h_ptr.
  all: (apply wp_if_false; [lia|]).
  - destruct (node_ge p np) as [Hge _]; [rewrite Hsplit; set_solver|]. apply wp_if_false; [lia|].
    destruct (l1 ++ [(p, np)]) as [|[b0 n0] d0] eqn:E0; [now destruct l1|].
    assert (length d0 = length l1) as Hd0.
    { apply (f_equal length) in E0. rewrite length_app in E0. simpl in E0. lia. }
    assert ((b0, n0) = (base, 0)) as Eb.
    { change ((p, np) :: l2) with ([(p, np)] ++ l2) in Hsplit. rewrite app_assoc, E0 in Hsplit. simpl in Hsplit. congruence. }
    injection Eb as -> ->. apply (wp_free_loop_before d0 [] base 0); [exact E0|]. simpl in Hf. lia.
  - pose proof (node_order _ q nq _ e ne En ltac:(set_solver)). simpl first. unfold HSIZE in *.
    apply wp_if_false; [lia|]. apply (IH (c ++ [(q, nq)]) e ne); [rewrite E, <- app_assoc; done|simpl in Hf; lia].
Qed.

(** ... from wherever it starts. *)
Lemma wp_free_loop q fuel :
  q ∈ nodes.*1 -> (length nodes <= fuel)%nat -> wp (free_loop fuel bp q) (fun r s' => r = p /\ s' = s) s.
Proof.
  intros ([q' nq] & -> & Hq)%list_elem_of_fmap Hf. simpl fst. rewrite Hsplit, length_app in Hf. simpl in Hf.
  rewrite Hsplit in Hq. change ((p, np) :: l2) with ([(p, np)] ++ l2) in Hq. rewrite app_assoc in Hq.
  apply elem_of_app in Hq as [Hq|Hq]; apply list_elem_of_split in Hq as (c & d & E).
  - apply (wp_free_loop_before d c q' nq); [done|]. apply (f_equal length) in E.
    rewrite !length_app in E. simpl in E. lia.
  - apply (wp_free_loop_after d c q' nq); [done|]. apply (f_equal length) in E.
    rewrite length_app in E. simpl in E. lia.
Qed.
End search.
End ok.

(** ** free *)

(** The nodes before and after an address that is not one of them. *)
Lemma split_nodes bp l : forall a n,
  a < bp -> bp ∉ l.*1 -> Forall (fun x => 0 <= x.2) ((a, n) :: l) -> sep ((a, n) :: l) ->
  exists l1 p np l2, (a, n) :: l = l1 ++ (p, np) :: l2 /\ p < bp /\ Forall (fun y => bp < y.1) l2.
Proof using.
  induction l as [|[b k] l IH]; intros a n Ha Hn Hp Hs.
  - exists [], a, n, []. done.
  - apply not_elem_of_cons in Hn as [Hb Hn]. simpl in Hb.
    apply list.Forall_cons in Hp as [_ Hp]. destruct Hs as [_ Hs]. destruct (decide (b < bp)) as [Hlt|Hge].
    + destruct (IH b k Hlt Hn Hp Hs) as (l1 & p & np & l2 & E & H1 & H2).
      exists ((a, n) :: l1), p, np, l2. split; [now rewrite E|done].
    + exists [], a, n, ((b, k) :: l). split; [done|]. split; [done|]. destruct Hs as [Hs _].
      apply list.Forall_cons in Hp as [Hk _]. simpl in Hk.
      constructor; [simpl; lia|]. eapply list.Forall_impl; [exact Hs|]. intros y Hy. unfold below, HSIZE in Hy. simpl in Hy. lia.
Qed.

(** The free blocks [fl] with the block [bp] of [n] units returned to them. *)
Record freed (bp n : Z) (fl fl' : list block) : Prop := {
  fr_cnt : forall x, cnt x fl' = cnt x ((bp, n) :: fl);
  fr_big : exists b, b ∈ fl' /\ n <= b.2;
  fr_len : (length fl' <= length fl + 1)%nat
}.

Section free.
Context (s : heap) (fl al : list block) (bp n : Z).
Hypothesis Hok : heap_ok s fl ((bp, n) :: al).
Abbreviation nodes := ((base, 0) :: fl).

Lemma free_blk : blk_ok (hp_brk s) (bp, n).
Proof.
  pose proof (ho_blocks _ _ _ Hok) as Hb. apply Forall_app in Hb as [_ Hb].
  now apply list.Forall_cons in Hb as [Hb _].
Qed.

Lemma fl_blk b : b ∈ fl -> blk_ok (hp_brk s) b.
Proof.
  intros Hb'. pose proof (ho_blocks _ _ _ Hok) as Hb. apply Forall_app in Hb as [Hb _].
  rewrite list.Forall_forall in Hb. auto.
Qed.

(** A free block lies before or after [bp]. *)
Lemma free_disjoint b : b ∈ fl -> b.1 + HSIZE * b.2 <= bp \/ bp + HSIZE * n <= b.1.
Proof.
  intros Hb. destruct (fl_blk b Hb) as (_ & _ & H2 & _). destruct free_blk as (_ & _ & H3 & _).
  apply (disjoint_order fl ((bp, n) :: al) b (bp, n)); auto; [apply Hok|left].
Qed.

Context (l1 l2 : list block) (p np : Z).
Hypothesis Hsplit : nodes = l1 ++ (p, np) :: l2.
Hypothesis Hp : p < bp.
Hypothesis Hl2 : Forall (fun y => bp < y.1) l2.

Lemma nodes_cases :
  (l1 = [] /\ (p, np) = (base, 0) /\ fl = l2) \/ exists l1', l1 = (base, 0) :: l1' /\ fl = l1' ++ (p, np) :: l2.
Proof.
  destruct l1 as [|x l1']; simpl in Hsplit; injection Hsplit; [left|right; exists l1']; intuition congruence.
Qed.

Lemma l2_fl b : b ∈ l2 -> b ∈ fl.
Proof. destruct nodes_cases as [(_ & _ & ->)|(l1' & _ & ->)]; [done|]. intros H. apply elem_of_app. right. now right. Qed.

(** The blocks after [bp] start where it ends, or later. *)
Lemma l2_after b : b ∈ l2 -> bp + HSIZE * n <= b.1.
Proof.
  intros Hb. rewrite list.Forall_forall in Hl2. specialize (Hl2 b Hb).
  destruct (free_disjoint b (l2_fl b Hb)) as [H|H]; [|done].
  destruct (fl_blk b (l2_fl b Hb)) as (_ & _ & H2 & _). unfold HSIZE in *. lia.
Qed.

(** [p] ends where [bp] starts, or before; it does not if it is the static header. *)
Lemma p_before : p + HSIZE * np <= bp /\ (p = base -> p + HSIZE * np < bp) /\ 0 <= np.
Proof.
  destruct free_blk as (Hlo & _ & Hn & _). simpl in *. unfold HSIZE in *.
  destruct nodes_cases as [(_ & [= -> ->] & _)|(l1' & _ & E)]; [lia|].
  assert ((p, np) ∈ fl) as Hin by (rewrite E; set_solver).
  destruct (free_disjoint (p, np) Hin) as [H|H]; destruct (fl_blk (p, np) Hin) as (H1 & _ & H2 & _);
    unfold HSIZE in *; simpl in *; lia.
Qed.

(** [bp] joined with the block after it, if that is adjacent. *)
Record joined (n' : Z) (l2' : list block) : Prop := {
  jn_cnt : forall x, cnt x ((bp, n') :: l2') = cnt x ((bp, n) :: l2);
  jn_below : Forall (below (bp, n')) l2';
  jn_suffix : exists d, l2 = d ++ l2';
  jn_blk : blk_ok (hp_brk s) (bp, n');
  jn_size : n <= n'
}.

(** Memory after a change of the header at [a] only. *)
Definition only (a : Z) (m m' : Z -> hdr) : Prop := forall x, x <> a -> m' x = m x.

Lemma seg_only m m' a l e : only a m m' -> a ∉ l.*1 -> seg m l e -> seg m' l e.
Proof using.
  intros Ho. induction l as [|[b k] l IH]; simpl; [done|]. intros [Hb Ha]%not_elem_of_cons [H1 H2].
  split; [|auto]. rewrite Ho; [done|congruence].
Qed.

Lemma sep_l2 : sep l2.
Proof.
  pose proof (ho_sep _ _ _ Hok) as Hs. rewrite Hsplit, sep_app in Hs. now destruct Hs as (_ & [_ Hs] & _).
Qed.

Lemma size_small b : blk_ok (hp_brk s) b -> HSIZE * b.2 < 2147483648 /\ 0 < b.1 /\ b.1 + HSIZE * b.2 < 2147483648.
Proof. intros (H1 & _ & H3 & H4). pose proof (ho_brk _ _ _ Hok). unfold HSIZE in *. lia. Qed.

Lemma wp_join_next (Q : unit -> heap -> Prop) :
  (forall m' n' l2', joined n' l2' -> m' bp = mk_hdr (first l2' base) n' -> only bp (hp_mem s) m' ->
     Q tt (s <| hp_mem := m' |>)) ->
  wp (if hplus bp n =? first l2 base then
        hn ← hdr_at (first l2 base);
        set_size bp (u32 (n + h_size hn)) ;;
        set_ptr bp (h_ptr hn)
      else set_ptr bp (first l2 base)) Q s.
Proof.
  intros HQ. pose proof free_blk as Hblk. pose proof (size_small _ Hblk) as Hsz. simpl in Hsz.
  pose proof (blk_accessible _ _ Hblk : accessible bp (hp_brk s) = true) as Hacc.
  assert (h_size (hp_mem s bp) = n) as Hhn.
  { pose proof (ho_sizes _ _ _ Hok) as H. now apply list.Forall_cons in H as [H _]. }
  assert (hplus bp n = bp + HSIZE * n) as -> by (unfold hplus; apply u32_small; unfold HSIZE in *; destruct Hblk as (_ & _ & ? & _); simpl in *; lia).
  pose proof l2_after as Haf. apply wp_if; intros E.
  - assert (exists a2 n2 l2', l2 = (a2, n2) :: l2') as (a2 & n2 & l2' & E2).
    { destruct l2 as [|[a2 n2] l2']; [|eauto]. destruct Hblk as (H1 & _ & H2 & _).
      unfold HSIZE in *. simpl in *. lia. }
    rewrite E2 in E |- *. simpl first in *. assert (bp + HSIZE * n = a2) as Ea by lia. subst a2.
    assert ((bp + HSIZE * n, n2) ∈ fl) as Hin by (apply l2_fl; rewrite E2; left).
    pose proof (fl_blk _ Hin) as Hb2. pose proof (size_small _ Hb2) as Hs2. simpl in Hs2.
    assert (hp_mem s (bp + HSIZE * n) = mk_hdr (first l2' base) n2) as Hm2.
    { pose proof (ho_list _ _ _ Hok) as Hs. rewrite Hsplit, hseg_app, E2 in Hs. apply Hs. }
    wp_steps. apply wp_hdr_at; [exact (blk_accessible _ _ Hb2)|]. rewrite Hm2. simpl h_size. simpl h_ptr. wp_steps.
    apply wp_set_size; [done|]. wp_steps. apply wp_set_ptr; [done|].
    destruct Hblk as (K1 & K2 & K3 & K4), Hb2 as (B1 & B2 & B3 & B4). simpl in K1, K2, K3, K4, B1, B2, B3, B4.
    eapply (HQ _ (n + n2) l2').
    + constructor.
      * intros x. rewrite E2, (cnt_cut x bp (n + n2) n) by lia. now replace (n + n2 - n) with n2 by lia.
      * pose proof sep_l2 as Hs. rewrite E2 in Hs. destruct Hs as [Hs _]. eapply list.Forall_impl; [exact Hs|].
        intros y. unfold below, HSIZE. simpl. lia.
      * now exists [(bp + HSIZE * n, n2)].
      * unfold blk_ok, HSIZE in *. simpl in *. lia.
      * lia.
    + simpl. unfold hupd at 1. rewrite Z.eqb_refl. f_equal. unfold hupd. rewrite Z.eqb_refl. simpl.
      apply u32_small. unfold HSIZE in *. lia.
    + intros x Hx. simpl. unfold hupd. destruct (Z.eqb_spec x bp); [done|reflexivity].
  - apply wp_set_ptr; [done|]. apply (HQ _ n l2).
    + constructor; [done| |now exists []|done|lia]. apply list.Forall_forall. intros y Hy. pose proof (Haf y Hy) as H.
      unfold below. simpl. assert (exists a2 n2 l2', l2 = (a2, n2) :: l2') as (a2 & n2 & l2' & E2).
      { destruct l2 as [|[a2 n2] l2']; [now apply not_elem_of_nil in Hy|eauto]. }
      pose proof sep_l2 as Hs. rewrite E2 in Hs, Hy, E. simpl first in E. apply elem_of_cons in Hy as [->|Hy]; [simpl in *; lia|].
      destruct Hs as [Hs _]. rewrite list.Forall_forall in Hs. specialize (Hs y Hy).
      pose proof (Haf (a2, n2) ltac:(rewrite E2; left)) as H2.
      destruct (fl_blk (a2, n2) (l2_fl _ ltac:(rewrite E2; left))) as (_ & _ & H3 & _).
      unfold below, HSIZE in *. simpl in *. lia.
    + simpl. unfold hupd. now rewrite Z.eqb_refl, Hhn.
    + intros x Hx. simpl. unfold hupd. destruct (Z.eqb_spec x bp); [done|reflexivity].
Qed.

(** ** Relinking *)

Lemma cnt_base x l : cnt x ((base, 0) :: l) = cnt x l.
Proof. rewrite cnt_cons. unfold covers, HSIZE. simpl. destruct (_ && _) eqn:E; [lia|done]. Qed.

Lemma l1_below x y : x ∈ l1 -> y ∈ (p, np) :: l2 -> below x y.
Proof.
  pose proof (ho_sep _ _ _ Hok) as Hs. rewrite Hsplit, sep_app in Hs. destruct Hs as (_ & _ & Hs). auto.
Qed.

Lemma l1_size x : x ∈ l1 -> 0 <= x.2.
Proof.
  intros Hx. destruct x as [a k]. apply (node_ge s fl _ Hok a k). rewrite Hsplit. apply elem_of_app. now left.
Qed.

Lemma l1_lt_p x : x ∈ l1 -> x.1 + HSIZE * x.2 < p /\ x.1 < p.
Proof.
  intros Hx. pose proof (l1_below x (p, np) Hx ltac:(left)) as H. pose proof (l1_size x Hx).
  unfold below, HSIZE in *. simpl in *. lia.
Qed.

(** An allocated block other than [bp] keeps its header. *)
Lemma al_other b : b ∈ al -> b.1 <> p /\ b.1 <> bp.
Proof.
  intros Hb. pose proof (ho_blocks _ _ _ Hok) as Hbl. apply Forall_app in Hbl as [_ Hbl].
  apply list.Forall_cons in Hbl as [_ Hbl]. rewrite list.Forall_forall in Hbl.
  destruct (Hbl b Hb) as (B1 & _ & B3 & _). destruct free_blk as (K1 & _ & K3 & _). simpl in *.
  pose proof (ho_disjoint _ _ _ Hok) as Hd. split.
  - destruct nodes_cases as [(_ & [= -> ->] & _)|(l1' & _ & E)]; [unfold HSIZE in *; lia|].
    assert ((p, np) ∈ fl) as Hin by (rewrite E; apply elem_of_app; right; left).
    destruct (fl_blk _ Hin) as (_ & _ & H3 & _). simpl in *.
    destruct (disjoint_order fl ((bp, n) :: al) (p, np) b Hd Hin ltac:(now right) H3 B3); unfold HSIZE in *; simpl in *; lia.
  - destruct (disjoint_order [(bp, n)] al (bp, n) b) as [H|H]; [|left|done|done|done|unfold HSIZE in *; simpl in *; lia..].
    intros x. specialize (Hd x). rewrite cnt_app, cnt_cons in Hd. rewrite cnt_app, cnt_cons. simpl. change (cnt x []) with 0%nat. lia.
Qed.

Lemma relink fl' X m2 :
  (base, 0) :: fl' = l1 ++ X -> seg m2 (l1 ++ X) base -> sep (l1 ++ X) -> Forall (blk_ok (hp_brk s)) fl' ->
  (forall x, cnt x X = cnt x ((p, np) :: (bp, n) :: l2)) -> (forall a, a <> p -> a <> bp -> m2 a = hp_mem s a) ->
  p ∈ X.*1 -> (exists b, b ∈ X /\ n <= b.2) -> (length X <= length l2 + 2)%nat ->
  heap_ok (mk_heap m2 p (hp_brk s)) fl' al /\ freed bp n fl fl'.
Proof.
  intros E Hseg Hsep Hbl Hcnt Hm Hpx (b0 & Hb0 & Hbn) Hlen.
  assert (forall x, cnt x fl' = cnt x ((bp, n) :: fl)) as Hc.
  { intros x. rewrite <- (cnt_base x fl'), E, cnt_app, Hcnt, !cnt_cons, <- (cnt_base x fl), Hsplit, cnt_app, !cnt_cons. lia. }
  split; [|constructor; [done| |]].
  2: { exists b0. split; [|done]. assert (b0 ∈ (base, 0) :: fl') as [->|?]%elem_of_cons; [|simpl in *|done].
       - rewrite E. apply elem_of_app. now right.
       - destruct free_blk as (_ & _ & H & _). simpl in H. lia. }
  2: { apply (f_equal length) in E. pose proof (f_equal length Hsplit) as E2. rewrite length_app in E, E2. simpl in *. lia. }
  constructor; cbn [hp_mem hp_freep hp_brk]; auto.
  - now rewrite E.
  - now rewrite E.
  - apply Forall_app. split; [done|]. pose proof (ho_blocks _ _ _ Hok) as H. apply Forall_app in H as [_ H].
    now apply list.Forall_cons in H as [_ H].
  - pose proof (ho_sizes _ _ _ Hok) as H. apply list.Forall_cons in H as [_ H]. rewrite list.Forall_forall in *.
    intros b Hb. destruct (al_other b Hb). rewrite Hm by done. auto.
  - intros x. rewrite cnt_app, Hc. pose proof (ho_disjoint _ _ _ Hok x) as H. rewrite cnt_app, cnt_cons in H.
    rewrite cnt_cons. lia.
  - rewrite E, fmap_app. apply elem_of_app. now right.
  - apply Hok.
Qed.

(** The end of free: [bp], joined to what follows, is linked after [p] or becomes part of it. *)
Section link.
Context (m1 : Z -> hdr) (n' : Z) (l2' : list block).
Hypothesis Hj : joined n' l2'.
Hypothesis Hbp : m1 bp = mk_hdr (first l2' base) n'.
Hypothesis Hm1 : only bp (hp_mem s) m1.

Lemma l2'_in y : y ∈ l2' -> y ∈ l2.
Proof. destruct (jn_suffix _ _ Hj) as [d E]. intros Hy. rewrite E. apply elem_of_app. now right. Qed.

Lemma l2'_gt y : y ∈ l2' -> p < y.1 /\ bp < y.1.
Proof. intros Hy%l2'_in. rewrite list.Forall_forall in Hl2. specialize (Hl2 y Hy). lia. Qed.

Lemma nodes_seg : seg (hp_mem s) l1 p /\ hp_mem s p = mk_hdr (first l2 base) np /\ seg (hp_mem s) l2' base.
Proof.
  pose proof (ho_list _ _ _ Hok) as Hs. rewrite Hsplit, hseg_app in Hs. destruct Hs as (H1 & H2 & H3).
  split; [done|]. split; [done|]. destruct (jn_suffix _ _ Hj) as [d E]. rewrite E, hseg_app in H3. apply H3.
Qed.

Lemma nodes_sep : sep l1 /\ sep l2' /\ Forall (below (p, np)) l2'.
Proof.
  pose proof (ho_sep _ _ _ Hok) as Hs. rewrite Hsplit, sep_app in Hs. destruct Hs as (H1 & [H2 H3] & _).
  split; [done|]. destruct (jn_suffix _ _ Hj) as [d E]. rewrite E in H2, H3. apply sep_app in H3.
  apply Forall_app in H2. tauto.
Qed.

(** The rest of the list stays in place when only the headers [p] and [bp] change. *)
Lemma seg_rest m2 : only p m1 m2 -> seg m2 l1 p /\ seg m2 l2' base.
Proof.
  intros Hm2. destruct nodes_seg as (H1 & _ & H3). split.
  - apply (seg_only m1 m2 p); [done| |apply (seg_only (hp_mem s) m1 bp); [done| |done]].
    + intros (y & E & Hy)%list_elem_of_fmap. destruct (l1_lt_p y Hy). lia.
    + intros (y & E & Hy)%list_elem_of_fmap. destruct (l1_lt_p y Hy). lia.
  - apply (seg_only m1 m2 p); [done| |apply (seg_only (hp_mem s) m1 bp); [done| |done]].
    + intros (y & E & Hy)%list_elem_of_fmap. destruct (l2'_gt y Hy). lia.
    + intros (y & E & Hy)%list_elem_of_fmap. destruct (l2'_gt y Hy). lia.
Qed.

Lemma link_after m2 :
  p + HSIZE * np < bp -> only p m1 m2 -> m2 p = mk_hdr bp np ->
  exists fl', heap_ok (mk_heap m2 p (hp_brk s)) fl' al /\ freed bp n fl fl'.
Proof.
  intros Hlt Hm2 Hp2. set (X := (p, np) :: (bp, n') :: l2').
  destruct (seg_rest m2 Hm2) as [S1 S2]. destruct nodes_sep as (P1 & P2 & P3).
  assert (exists fl', (base, 0) :: fl' = l1 ++ X /\ Forall (blk_ok (hp_brk s)) fl') as (fl' & E & Hbl).
  { assert (Forall (blk_ok (hp_brk s)) ((bp, n') :: l2')) as Hb2.
    { constructor; [apply Hj|]. apply list.Forall_forall. intros y Hy%l2'_in. now apply fl_blk, l2_fl. }
    destruct nodes_cases as [(E1 & [= E2 E3] & _)|(l1' & E1 & E2)].
    - exists ((bp, n') :: l2'). unfold X. rewrite E1, E2, E3. done.
    - exists (l1' ++ X). rewrite E1. split; [done|]. apply Forall_app. split; [|constructor; [|done]].
      + apply list.Forall_forall. intros y Hy. apply fl_blk. rewrite E2. apply elem_of_app. now left.
      + apply fl_blk. rewrite E2. apply elem_of_app. right. left. }
  exists fl'. apply (relink fl' X); auto.
  - apply hseg_app. split; [done|]. split; [done|]. split; [|done]. rewrite Hm2 by lia. done.
  - apply sep_app. split; [done|]. split.
    + split; [|split; [apply Hj|done]]. constructor; [done|done].
    + intros x y Hx [->|[->|Hy]%elem_of_cons]%elem_of_cons.
      * apply l1_below; [done|left].
      * destruct (l1_lt_p x Hx). unfold below. simpl. lia.
      * apply l1_below; [done|right]. now apply l2'_in.
  - intros x. unfold X. rewrite cnt_cons, (jn_cnt _ _ Hj), <- cnt_cons. done.
  - intros a Ha Hb. rewrite Hm2, Hm1 by done. done.
  - left.
  - exists (bp, n'). split; [right; left|apply Hj].
  - destruct (jn_suffix _ _ Hj) as [d Ed]. unfold X. rewrite Ed, length_app. simpl. lia.
Qed.

Lemma link_into m2 :
  p + HSIZE * np = bp -> only p m1 m2 -> m2 p = mk_hdr (first l2' base) (np + n') ->
  exists fl', heap_ok (mk_heap m2 p (hp_brk s)) fl' al /\ freed bp n fl fl'.
Proof.
  intros Heq Hm2 Hp2. set (X := (p, np + n') :: l2').
  destruct (seg_rest m2 Hm2) as [S1 S2]. destruct nodes_sep as (P1 & P2 & P3). destruct p_before as (_ & Q1 & Q2).
  destruct (jn_blk _ _ Hj) as (J1 & J2 & J3 & J4). simpl in J1, J2, J3, J4.
  assert (exists fl', (base, 0) :: fl' = l1 ++ X /\ Forall (blk_ok (hp_brk s)) fl') as (fl' & E & Hbl).
  { destruct nodes_cases as [(E1 & [= E2 E3] & _)|(l1' & E1 & E2)]; [specialize (Q1 E2); lia|].
    assert (forall y, y ∈ l1' ++ (p, np) :: l2 -> blk_ok (hp_brk s) y) as Hb by (rewrite <- E2; apply fl_blk).
    exists (l1' ++ X). rewrite E1. split; [done|]. apply Forall_app. split; [|constructor].
    - apply list.Forall_forall. intros y Hy. apply Hb, elem_of_app. now left.
    - destruct (Hb (p, np)) as (B1 & B2 & B3 & B4); [apply elem_of_app; right; left|].
      unfold blk_ok, HSIZE in *. simpl in *. lia.
    - apply list.Forall_forall. intros y Hy%l2'_in. apply Hb, elem_of_app. right. now right. }
  exists fl'. apply (relink fl' X); auto.
  - apply hseg_app. split; [done|]. now split.
  - apply sep_app. split; [done|]. split.
    + split; [|done]. eapply list.Forall_impl; [apply Hj|]. intros y. unfold below, HSIZE in *. simpl. lia.
    + intros x y Hx [->|Hy]%elem_of_cons.
      * destruct (l1_lt_p x Hx). unfold below. simpl. lia.
      * apply l1_below; [done|right]. now apply l2'_in.
  - intros x. unfold X. rewrite (cnt_cut x p (np + n') np) by lia. rewrite Heq.
    replace (np + n' - np) with n' by lia. rewrite cnt_cons, (jn_cnt _ _ Hj), <- cnt_cons. done.
  - intros a Ha Hb. rewrite Hm2, Hm1 by done. done.
  - left.
  - exists (p, np + n'). split; [left|]. pose proof (jn_size _ _ Hj). simpl. lia.
  - destruct (jn_suffix _ _ Hj) as [d Ed]. unfold X. rewrite Ed, length_app. simpl. lia.
Qed.
End link.

Lemma wp_free_found (Q : unit -> heap -> Prop) :
  (forall s' fl', heap_ok s' fl' al -> hp_brk s' = hp_brk s -> freed bp n fl fl' -> Q tt s') ->
  wp (hb ← hdr_at bp;
      hp ← hdr_at p;
      (if hplus bp (h_size hb) =? h_ptr hp then
         hn ← hdr_at (h_ptr hp);
         set_size bp (u32 (h_size hb + h_size hn)) ;;
         set_ptr bp (h_ptr hn)
       else set_ptr bp (h_ptr hp)) ;;
      hp ← hdr_at p;
      (if hplus p (h_size hp) =? bp then
         hb ← hdr_at bp;
         set_size p (u32 (h_size hp + h_size hb)) ;;
         set_ptr p (h_ptr hb)
       else set_ptr p bp) ;;
      set_freep p) Q s.
Proof.
  intros HQ. pose proof (blk_accessible _ _ free_blk : accessible bp (hp_brk s) = true) as Hab.
  assert (accessible p (hp_brk s) = true) as Hap
    by (apply (node_accessible s fl _ Hok p np); rewrite Hsplit; apply elem_of_app; right; left).
  assert (h_size (hp_mem s bp) = n) as Hhn.
  { pose proof (ho_sizes _ _ _ Hok) as H. now apply list.Forall_cons in H as [H _]. }
  assert (hp_mem s p = mk_hdr (first l2 base) np) as Hhp by exact (node_next s fl _ Hok l1 p np l2 Hsplit).
  wp_steps. apply wp_hdr_at; [done|]. wp_steps. apply wp_hdr_at; [done|]. rewrite Hhn, Hhp. wp_steps.
  apply wp_join_next. intros m1 n' l2' Hj Hbp Hm1. wp_steps. apply wp_hdr_at; [done|]. simpl hp_mem.
  rewrite (Hm1 p), Hhp by lia. simpl h_size. destruct p_before as (Hle & _ & Hnp).
  assert (hplus p np = p + HSIZE * np) as ->.
  { unfold hplus. apply u32_small. pose proof (size_small _ free_blk). destruct free_blk as (_ & _ & ? & _). simpl in *.
    destruct (node_ge s fl _ Hok p np) as [? _]; [rewrite Hsplit; apply elem_of_app; right; left|]. unfold HSIZE in *. lia. }
  wp_steps. apply wp_if; intros E.
  - wp_steps. apply wp_hdr_at; [done|]. simpl hp_mem. rewrite Hbp. simpl h_size. simpl h_ptr. wp_steps.
    apply wp_set_size; [done|]. wp_steps. apply wp_set_ptr; [done|]. unfold set_freep. wp_steps.
    match goal with |- Q tt ?x => set (s2 := x) end.
    destruct (link_into m1 n' l2' Hj Hm1 (hp_mem s2)) as (fl' & H1 & H2); [lia| | |exact (HQ s2 fl' H1 eq_refl H2)].
    + intros x Hx. simpl. unfold hupd. destruct (Z.eqb_spec x p); [done|]. reflexivity.
    + simpl. unfold hupd. rewrite !Z.eqb_refl. simpl. f_equal. apply u32_small.
      pose proof (size_small _ (jn_blk _ _ Hj)). destruct (jn_blk _ _ Hj) as (_ & _ & ? & _).
      destruct (node_ge s fl _ Hok p np) as [? _]; [rewrite Hsplit; apply elem_of_app; right; left|].
      unfold HSIZE in *. simpl in *. lia.
  - apply wp_set_ptr; [done|]. unfold set_freep. wp_steps.
    match goal with |- Q tt ?x => set (s2 := x) end.
    destruct (link_after m1 n' l2' Hj Hbp Hm1 (hp_mem s2)) as (fl' & H1 & H2); [lia| | |exact (HQ s2 fl' H1 eq_refl H2)].
    + intros x Hx. simpl. unfold hupd. destruct (Z.eqb_spec x p); [done|]. reflexivity.
    + simpl. unfold hupd. rewrite !Z.eqb_refl. now rewrite (Hm1 p), Hhp by lia.
Qed.
End free.

Lemma wp_free s fl al bp n fuel (Q : unit -> heap -> Prop) :
  heap_ok s fl ((bp, n) :: al) -> (length fl + 1 <= fuel)%nat ->
  (forall s' fl', heap_ok s' fl' al -> hp_brk s' = hp_brk s -> freed bp n fl fl' -> Q tt s') ->
  wp (free fuel (bp + HSIZE)) Q s.
Proof.
  intros Hok Hf HQ. pose proof (free_blk s fl al bp n Hok) as Hblk. destruct Hblk as (B1 & B2 & B3 & B4). simpl in *.
  pose proof (ho_brk _ _ _ Hok) as Hbrk.
  assert (hplus (bp + HSIZE) (-1) = bp) as Ebp by (unfold hplus, HSIZE in *; rewrite u32_small; lia).
  destruct (split_nodes bp fl base 0) as (l1 & p & np & l2 & E & Hp & Hl2).
  - unfold HSIZE in *. lia.
  - intros ([a k] & -> & Hin)%list_elem_of_fmap. simpl in *.
    destruct (fl_blk s fl al a n Hok (a, k) Hin) as (_ & _ & H3 & _).
    destruct (free_disjoint s fl al a n Hok (a, k) Hin); unfold HSIZE in *; simpl in *; lia.
  - apply list.Forall_forall. intros [a k] Hin. exact (proj2 (node_ge s fl _ Hok a k Hin)).
  - apply Hok.
  - unfold free. rewrite Ebp. wp_steps.
    eapply wp_mono; [apply (wp_free_loop s fl _ Hok bp p np l1 l2 E Hp Hl2); [apply Hok|simpl; lia]|].
    intros r s' [-> ->]. apply (wp_free_found s fl al bp n Hok l1 l2 p np E Hp Hl2). exact HQ.
Qed.

(** ** malloc *)

(** The memory in use after an operation: the same, and what sbrk added. *)
Definition conserved (s : heap) (l : list block) (s' : heap) (l' : list block) : Prop :=
  hp_brk s <= hp_brk s' /\
  forall x, cnt x l' = (cnt x l + (if ((hp_brk s <=? x) && (x <? hp_brk s'))%Z then 1 else 0))%nat.

Lemma conserved_same s l s' l' : hp_brk s' = hp_brk s -> (forall x, cnt x l' = cnt x l) -> conserved s l s' l'.
Proof using. intros Hb Hc. split; [lia|]. intros x. rewrite Hc, Hb. destruct (_ && _) eqn:E; lia. Qed.

Lemma conserved_trans s l s1 l1 s2 l2 : conserved s l s1 l1 -> conserved s1 l1 s2 l2 -> conserved s l s2 l2.
Proof using.
  intros [B1 C1] [B2 C2]. split; [lia|]. intros x. rewrite C2, C1.
  destruct ((hp_brk s <=? x) && (x <? hp_brk s1)) eqn:E1, ((hp_brk s1 <=? x) && (x <? hp_brk s2)) eqn:E2,
    ((hp_brk s <=? x) && (x <? hp_brk s2)) eqn:E3; lia.
Qed.

Lemma cnt_beyond brk l x : Forall (blk_ok brk) l -> brk <= x -> cnt x l = 0%nat.
Proof using.
  intros Hl Hx. induction Hl as [|b l Hb _ IH]; [done|]. rewrite cnt_cons, IH. unfold blk_ok, covers, HSIZE in *.
  destruct (_ && _) eqn:E; lia.
Qed.

Lemma blk_ok_mono brk brk' b : brk <= brk' -> blk_ok brk b -> blk_ok brk' b.
Proof using. unfold blk_ok. lia. Qed.

Context (sbrk : Z -> M heap Z).

(** What sbrk promises: the break moves by [n], or nothing happens. The heap stays below 2^31. *)
Hypothesis Hsbrk : forall n s, 0 < n ->
  wp (sbrk n) (fun r s' => r = -1 /\ s' = s \/
    r = hp_brk s /\ s' = s <| hp_brk := hp_brk s + n |> /\ hp_brk s + n < 2147483648) s.

(** The memory sbrk returned, as an allocated block. *)
Lemma new_core s fl al nu : heap_ok s fl al -> 0 < nu -> hp_brk s + HSIZE * nu < 2147483648 ->
  heap_ok (mk_heap (hupd (hp_mem s) (hp_brk s) (mk_hdr (h_ptr (hp_mem s (hp_brk s))) nu)) (hp_freep s)
             (hp_brk s + HSIZE * nu)) fl ((hp_brk s, nu) :: al).
Proof.
  intros [H1 H2 H3 H4 H5 H6 [[H7 H8] H9]] Hnu Hlim. unfold HSIZE in *.
  assert (forall b, b ∈ fl ++ al -> b.1 < hp_brk s) as Hlt.
  { intros b Hb. rewrite list.Forall_forall in H3. destruct (H3 b Hb) as (_ & _ & ? & ?). unfold HSIZE in *. lia. }
  constructor; cbn [hp_mem hp_freep hp_brk]; auto.
  - apply seg_frame; [|done]. intros [E|Hin]%elem_of_cons; [simpl in E; lia|].
    apply list_elem_of_fmap in Hin as (b & E & Hb). specialize (Hlt b ltac:(apply elem_of_app; now left)). lia.
  - apply Forall_app in H3 as [H3 H3']. apply Forall_app. split; [|constructor].
    + eapply list.Forall_impl; [exact H3|]. intros b. apply blk_ok_mono. lia.
    + unfold blk_ok, HSIZE. simpl. lia.
    + eapply list.Forall_impl; [exact H3'|]. intros b. apply blk_ok_mono. lia.
  - constructor; [unfold hupd; simpl; now rewrite Z.eqb_refl|]. rewrite list.Forall_forall in H4 |- *.
    intros b Hb. specialize (Hlt b ltac:(apply elem_of_app; now right)). unfold hupd.
    destruct (Z.eqb_spec b.1 (hp_brk s)); [lia|auto].
  - intros x. rewrite cnt_app, cnt_cons. specialize (H5 x) as Hx. rewrite cnt_app in Hx.
    destruct (Z.leb_spec (hp_brk s) x).
    + pose proof (cnt_beyond _ _ x H3 ltac:(lia)) as E. rewrite cnt_app in E. destruct (covers _ _); lia.
    + replace (covers x (hp_brk s, nu)) with false by (unfold covers; simpl; lia). lia.
  - split; [lia|]. replace (hp_brk s + 8 * nu) with (hp_brk s + nu * 8) by lia. now rewrite Z.mod_add.
Qed.

Lemma wp_morecore s fl al nu fuel (Q : Z -> heap -> Prop) :
  heap_ok s fl al -> 0 < nu < 268435456 -> (length fl + 1 <= fuel)%nat ->
  Q 0 s ->
  (forall s' fl', heap_ok s' fl' al -> conserved s (fl ++ al) s' (fl' ++ al) ->
     (exists b, b ∈ fl' /\ nu <= b.2) -> (length fl' <= length fl + 1)%nat -> Q (hp_freep s') s') ->
  wp (morecore sbrk fuel nu) Q s.
Proof.
  intros Hok Hnu Hf Q0 HQ. unfold morecore. set (nu' := if nu <? 4096 then 4096 else nu).
  assert (nu <= nu' < 268435456) as Hn' by (unfold nu'; destruct (Z.ltb_spec nu 4096); lia).
  assert (s32 (u32 (nu' * HSIZE)) = HSIZE * nu') as ->.
  { rewrite u32_small by (unfold HSIZE; lia). unfold s32, HSIZE. rewrite Z.mod_small by lia.
    destruct (Z.ltb_spec (nu' * 8) 2147483648); lia. }
  destruct (ho_brk _ _ _ Hok) as [[B1 B2] B3].
  wp_steps. eapply wp_mono; [apply (Hsbrk (HSIZE * nu') s); unfold HSIZE; lia|].
  intros r s1 [[-> ->]|(-> & -> & Hlim)].
  { apply wp_if_true; [done|]. now wp_steps. }
  apply wp_if_false; [unfold HSIZE in *; lia|]. wp_steps. apply wp_set_size.
  { unfold accessible, HSIZE in *. simpl. lia. }
  wp_steps. replace (hplus (hp_brk s) 1) with (hp_brk s + HSIZE) by (unfold hplus, HSIZE in *; rewrite u32_small; lia).
  eapply (wp_free _ fl al (hp_brk s) nu'); [exact (new_core s fl al nu' Hok ltac:(lia) Hlim)|done|].
  intros s2 fl' Hok2 Hbrk2 [F1 (b & Hb & Hb2) F3]. wp_steps. simpl in Hbrk2. apply (HQ s2 fl' Hok2); [|exists b; split; [done|lia]|done].
  split; [unfold HSIZE in *; lia|]. intros x. rewrite !cnt_app, F1, cnt_cons, Hbrk2.
  unfold covers. simpl fst. simpl snd. destruct (_ && _); lia.
Qed.

Section take.
Context (s : heap) (al c d : list block) (p np k : Z).
Abbreviation fl := (c ++ (p, np) :: d).
Hypothesis Hok : heap_ok s fl al.
Hypothesis Hk : 0 < k <= np.
Context (q nq : Z) (c0 : list block).
Hypothesis Hq : (base, 0) :: c = c0 ++ [(q, nq)].

Lemma take_nodes : (base, 0) :: fl = c0 ++ (q, nq) :: (p, np) :: d.
Proof. change ((base, 0) :: fl) with (((base, 0) :: c) ++ (p, np) :: d). now rewrite Hq, <- app_assoc. Qed.

Lemma take_blk y : y ∈ fl -> blk_ok (hp_brk s) y.
Proof.
  intros Hy. pose proof (ho_blocks _ _ _ Hok) as H. apply Forall_app in H as [H _].
  rewrite list.Forall_forall in H. auto.
Qed.

Lemma take_p : blk_ok (hp_brk s) (p, np).
Proof. apply take_blk, elem_of_app. right. left. Qed.

Lemma q_before_p : q < p /\ base <= q /\ q + HSIZE * nq < p.
Proof.
  destruct (node_ge s fl al Hok q nq) as [H1 H2]; [rewrite take_nodes; apply elem_of_app; right; left|].
  pose proof (node_order s fl al Hok _ q nq _ p np take_nodes ltac:(left)). unfold HSIZE in *. lia.
Qed.

(** No other block starts inside [p]. *)
Lemma take_other a j : (a, j) ∈ c0 ++ (q, nq) :: d -> ~ (p <= a < p + HSIZE * np).
Proof.
  intros [H|[H|H]%elem_of_cons]%elem_of_app.
  - pose proof (ho_sep _ _ _ Hok) as Hs. rewrite take_nodes, sep_app in Hs. destruct Hs as (_ & _ & Hs).
    destruct (node_ge s fl al Hok a j) as [_ ?]; [rewrite take_nodes; apply elem_of_app; now left|].
    specialize (Hs (a, j) (p, np) H ltac:(right; left)). unfold below, HSIZE in *. simpl in *. lia.
  - injection H as -> ->. pose proof q_before_p. unfold HSIZE in *. lia.
  - assert ((base, 0) :: fl = (c0 ++ [(q, nq)]) ++ (p, np) :: d) as E by (rewrite take_nodes, <- app_assoc; done).
    pose proof (node_order s fl al Hok _ p np d a j E H). unfold HSIZE in *. lia.
Qed.

Lemma take_al y : y ∈ al -> y.1 <> q /\ ~ (p <= y.1 < p + HSIZE * np).
Proof.
  intros Hy. pose proof (ho_blocks _ _ _ Hok) as Hbl. apply Forall_app in Hbl as [_ Hbl].
  rewrite list.Forall_forall in Hbl. destruct (Hbl y Hy) as (B1 & _ & B3 & _). simpl in *.
  pose proof (ho_disjoint _ _ _ Hok) as Hd. destruct take_p as (P1 & _ & P3 & _). simpl in *. split.
  - assert ((q, nq) ∈ (base, 0) :: c) as [E|Hin]%elem_of_cons by (rewrite Hq; apply elem_of_app; right; left).
    + injection E as -> ->. unfold HSIZE in *. lia.
    + assert ((q, nq) ∈ fl) as Hfl by (apply elem_of_app; now left). destruct (take_blk _ Hfl) as (_ & _ & Q3 & _).
      simpl in *. destruct (disjoint_order fl al (q, nq) y Hd Hfl Hy Q3 B3); unfold HSIZE in *; simpl in *; lia.
  - destruct (disjoint_order fl al (p, np) y Hd ltac:(apply elem_of_app; right; left) Hy P3 B3);
      unfold HSIZE in *; simpl in *; lia.
Qed.

Lemma take_list : seg (hp_mem s) c0 q /\ hp_mem s q = mk_hdr p nq /\
  hp_mem s p = mk_hdr (first d base) np /\ seg (hp_mem s) d base.
Proof.
  pose proof (ho_list _ _ _ Hok) as Hs. rewrite take_nodes, hseg_app in Hs. simpl in Hs. tauto.
Qed.

(** The blocks are [X] instead of [p] and the allocated block [(a, k)]. *)
Lemma take_ok m' X a :
  seg m' (c0 ++ (q, nq) :: X ++ d) base ->
  (forall y, y ∈ X -> y.1 = p /\ 0 < y.2 < np) -> (length X <= 1)%nat -> p <= a -> a + HSIZE * k <= p + HSIZE * np ->
  a mod HSIZE = 0 -> h_size (m' a) = k ->
  (forall x, cnt x (X ++ [(a, k)]) = cnt x [(p, np)]) ->
  (forall z, z <> q -> ~ (p <= z < p + HSIZE * np) -> m' z = hp_mem s z) ->
  heap_ok (mk_heap m' q (hp_brk s)) (c ++ X ++ d) ((a, k) :: al).
Proof.
  intros Hseg HX HX1 Ha1 Ha2 Ha3 Hsz Hcnt Hm. destruct take_p as (P1 & P2 & P3 & P4). simpl in P1, P2, P3, P4.
  assert (forall l, (base, 0) :: c ++ l = c0 ++ (q, nq) :: l) as En.
  { intros l. change ((base, 0) :: c ++ l) with (((base, 0) :: c) ++ l). now rewrite Hq, <- app_assoc. }
  constructor; cbn [hp_mem hp_freep hp_brk].
  - now rewrite En.
  - rewrite En. pose proof (ho_sep _ _ _ Hok) as Hs. rewrite take_nodes in Hs.
    change (c0 ++ (q, nq) :: X ++ d) with (c0 ++ [(q, nq)] ++ X ++ d).
    change (c0 ++ (q, nq) :: (p, np) :: d) with (c0 ++ [(q, nq)] ++ [(p, np)] ++ d) in Hs.
    rewrite !app_assoc in *. rewrite <- !app_assoc in *. rewrite (app_assoc c0) in *. rewrite !sep_app in *.
    destruct Hs as (S1 & (_ & S2 & S3) & S4). split; [done|]. split; [split; [|split; [done|]]|].
    + destruct X as [|x [|? ?]]; [done| |simpl in HX1; lia]. simpl. split; [constructor|done].
    + intros x y Hx Hy. destruct (HX x Hx) as [E1 E2]. specialize (S3 (p, np) y ltac:(left) Hy).
      unfold below, HSIZE in *. simpl in *. lia.
    + intros x y Hx [Hy|Hy]%elem_of_app.
      * destruct (HX y Hy) as [E1 _]. specialize (S4 x (p, np) Hx ltac:(apply elem_of_app; left; left)).
        unfold below in *. simpl in *. lia.
      * apply S4; [done|]. apply elem_of_app. now right.
  - pose proof (ho_blocks _ _ _ Hok) as H. apply Forall_app in H as [H1 H2]. apply Forall_app in H1 as [H1 H3].
    apply list.Forall_cons in H3 as [_ H3]. repeat (apply Forall_app; split; auto).
    + apply list.Forall_forall. intros y Hy. destruct (HX y Hy) as [E1 E2]. unfold blk_ok, HSIZE in *. rewrite E1. lia.
    + constructor; [|done]. unfold blk_ok. simpl. lia.
  - constructor; [done|]. pose proof (ho_sizes _ _ _ Hok) as H. rewrite list.Forall_forall in H |- *.
    intros y Hy. destruct (take_al y Hy). rewrite Hm by done. auto.
  - intros x. pose proof (ho_disjoint _ _ _ Hok x) as H. specialize (Hcnt x).
    rewrite !cnt_app, !cnt_cons in *. change (cnt x []) with 0%nat in *. lia.
  - rewrite En, fmap_app. apply elem_of_app. right. left.
  - apply Hok.
Qed.

Lemma inside_p a : p <= a < p + HSIZE * np -> (a ∉ (c0 ++ [(q, nq)]).*1) /\ a ∉ d.*1.
Proof.
  intros Ha. split; intros ([b j] & -> & Hb)%list_elem_of_fmap; apply (take_other b j); simpl in *; auto.
  - apply elem_of_app. apply elem_of_app in Hb as [?|?%list_elem_of_singleton]; [now left|right]. simplify_eq. left.
  - apply elem_of_app. right. now right.
Qed.

Lemma q_fresh : (q ∉ c0.*1) /\ q ∉ d.*1.
Proof.
  destruct (node_ge s fl al Hok q nq) as [_ Hnq]; [rewrite take_nodes; apply elem_of_app; right; left|].
  split; intros ([b j] & E & Hb)%list_elem_of_fmap; simpl in E; subst b.
  - pose proof (ho_sep _ _ _ Hok) as Hs. rewrite take_nodes, sep_app in Hs. destruct Hs as (_ & _ & Hs).
    destruct (node_ge s fl al Hok q j) as [_ ?]; [rewrite take_nodes; apply elem_of_app; now left|].
    specialize (Hs (q, j) (q, nq) Hb ltac:(left)). unfold below, HSIZE in *. simpl in *. lia.
  - pose proof (node_order s fl al Hok _ q nq _ q j take_nodes ltac:(now right)). unfold HSIZE in *. lia.
Qed.

(** Memory after taking the whole block: [p] leaves the list. *)
Lemma take_whole : np = k ->
  heap_ok (mk_heap (hupd (hp_mem s) q (mk_hdr (first d base) nq)) q (hp_brk s)) (c ++ d) ((p, k) :: al).
Proof.
  intros E. destruct take_list as (L1 & L2 & L3 & L4). destruct q_before_p as (Q1 & Q2 & Q3).
  destruct take_p as (P1 & P2 & P3 & P4). simpl in P1, P2, P3, P4. destruct q_fresh as [F1 F2].
  apply (take_ok _ [] p); try (simpl; unfold HSIZE in *; lia); auto.
  - rewrite hseg_app. split; [now apply seg_frame|]. simpl. split; [|now apply seg_frame].
    unfold hupd. now rewrite Z.eqb_refl.
  - intros y Hy. now apply not_elem_of_nil in Hy.
  - unfold hupd. destruct (Z.eqb_spec p q); [lia|]. now rewrite L3.
  - intros x. now rewrite E.
  - intros z Hz _. unfold hupd. destruct (Z.eqb_spec z q); [done|reflexivity].
Qed.

(** ... and after cutting [k] units off its end. *)
Lemma take_tail h : k < np -> let a := p + HSIZE * (np - k) in
  heap_ok (mk_heap (hupd (hupd (hp_mem s) p (mk_hdr (first d base) (np - k))) a (mk_hdr h k)) q (hp_brk s))
    (c ++ [(p, np - k)] ++ d) ((a, k) :: al).
Proof.
  intros E a. destruct take_list as (L1 & L2 & L3 & L4). destruct q_before_p as (Q1 & Q2 & Q3).
  destruct take_p as (P1 & P2 & P3 & P4). simpl in P1, P2, P3, P4.
  assert (p < a < p + HSIZE * np) as Ha by (unfold a, HSIZE in *; lia).
  assert (p <= p < p + HSIZE * np) as Hp by (unfold HSIZE; lia).
  destruct (inside_p a ltac:(lia)) as [A1 A2]. destruct (inside_p p Hp) as [A3 A4].
  apply (take_ok _ [(p, np - k)] a); try (simpl; unfold a, HSIZE in *; lia).
  - change (c0 ++ (q, nq) :: [(p, np - k)] ++ d) with (c0 ++ [(q, nq)] ++ (p, np - k) :: d).
    rewrite app_assoc, hseg_app. split; [|split].
    + apply seg_frame; [done|]. apply seg_frame; [done|]. rewrite hseg_app. simpl. auto.
    + unfold hupd. destruct (Z.eqb_spec p a); [lia|]. now rewrite Z.eqb_refl.
    + apply seg_frame; [done|]. now apply seg_frame.
  - intros y ->%list_elem_of_singleton. simpl. lia.
  - unfold a. replace (p + HSIZE * (np - k)) with (p + (np - k) * HSIZE) by lia. now rewrite Z.mod_add.
  - unfold hupd. now rewrite Z.eqb_refl.
  - intros x. simpl. rewrite (cnt_cut x p np (np - k)) by lia. now replace (np - (np - k)) with k by lia.
  - intros z Hz Hn. unfold hupd. destruct (Z.eqb_spec z a); [lia|]. destruct (Z.eqb_spec z p); [lia|done].
Qed.

Lemma wp_take (Q : Z -> heap -> Prop) :
  (forall s' fl' a, heap_ok s' fl' ((a, k) :: al) -> hp_brk s' = hp_brk s ->
     (forall x, cnt x (fl' ++ (a, k) :: al) = cnt x (fl ++ al)) -> (length fl' <= length fl)%nat -> Q (a + HSIZE) s') ->
  wp (r ← (if np =? k then set_ptr q (first d base) ;; ret p
           else
             set_size p (u32 (np - k)) ;;
             let p := hplus p (u32 (np - k)) in
             set_size p k ;;
             ret p);
      set_freep q ;;
      ret (hplus r 1)) Q s.
Proof.
  intros HQ. destruct take_list as (L1 & L2 & L3 & L4). destruct take_p as (P1 & P2 & P3 & P4). simpl in P1, P2, P3, P4.
  destruct q_before_p as (Q1 & Q2 & Q3). destruct (ho_brk _ _ _ Hok) as [[B1 B2] _].
  assert (accessible q (hp_brk s) = true) as Haq
    by (apply (node_accessible s fl al Hok q nq); rewrite take_nodes; apply elem_of_app; right; left).
  assert (accessible p (hp_brk s) = true) as Hap by (exact (blk_accessible _ _ take_p)).
  wp_steps. apply wp_if; intros E.
  - assert (np = k) as Ek by lia. wp_steps. apply wp_set_ptr; [done|]. rewrite L2. unfold set_freep. wp_steps.
    replace (hplus p 1) with (p + HSIZE) by (unfold hplus, HSIZE in *; rewrite u32_small; lia).
    apply (HQ _ _ p (take_whole Ek)); [done| |rewrite !length_app; simpl; lia]. intros x. rewrite <- Ek, !cnt_app, !cnt_cons. lia.
  - rewrite !u32_small by (unfold HSIZE in *; lia). set (a := p + HSIZE * (np - k)).
    assert (hplus p (np - k) = a) as -> by (unfold hplus, a, HSIZE in *; apply u32_small; lia).
    assert (accessible a (hp_brk s) = true) as Haa.
    { assert (a mod HSIZE = 0) as Hmod.
      { unfold a. replace (p + HSIZE * (np - k)) with (p + (np - k) * HSIZE) by lia. now rewrite Z.mod_add. }
      unfold accessible. unfold a, HSIZE in *. lia. }
    cbv zeta. wp_steps. apply wp_set_size; [done|]. rewrite L3. wp_steps. apply wp_set_size; [done|]. wp_steps.
    unfold set_freep. wp_steps.
    replace (hplus a 1) with (a + HSIZE) by (unfold hplus, a, HSIZE in *; rewrite u32_small; lia).
    eapply (HQ _ _ a (take_tail _ ltac:(lia))); [done| |rewrite !length_app; simpl; lia]. intros x.
    rewrite !cnt_app, !cnt_cons. pose proof (cnt_cut x p np (np - k) [] ltac:(lia)) as Hc.
    rewrite !cnt_cons in Hc. replace (np - (np - k)) with k in Hc by lia. unfold a. change (cnt x []) with 0%nat in *. lia.
Qed.
End take.

(** ** The search *)

Lemma seg_rotate m x b y e :
  seg m (x ++ b :: y) (first (x ++ b :: y) e) -> seg m (y ++ x ++ [b]) (first (y ++ x ++ [b]) e).
Proof.
  assert (forall l1 l2 e, first (l1 ++ l2) e = first l1 (first l2 e)) as Hfirst by (now intros [|[]]).
  destruct b as [a n]. rewrite !hseg_app, !Hfirst. cbn [seg first]. tauto.
Qed.

Section walk.
Context (s : heap) (fl al : list block) (k : Z).
Hypothesis Hok : heap_ok s fl al.
Hypothesis Hk : 0 < k.
Abbreviation nodes := ((base, 0) :: fl).

Lemma nodes_inj a n n' : (a, n) ∈ nodes -> (a, n') ∈ nodes -> n = n'.
Proof.
  intros (l1 & l2 & E1)%list_elem_of_split (l3 & l4 & E2)%list_elem_of_split.
  pose proof (node_next s fl al Hok l1 a n l2 E1) as H1. pose proof (node_next s fl al Hok l3 a n' l4 E2) as H2. congruence.
Qed.

Lemma nodes_nodup : NoDup nodes.*1.
Proof.
  assert (forall l, Forall (fun b => 0 <= b.2) l -> sep l -> NoDup l.*1) as H.
  { clear. induction l as [|[a n] l IH]; simpl; [constructor|]. intros [H1 H2]%list.Forall_cons [H3 H4].
    apply list.NoDup_cons. split; [|auto]. intros (y & -> & Hy)%list_elem_of_fmap. rewrite list.Forall_forall in H3.
    specialize (H3 y Hy). unfold below, HSIZE in *. simpl in *. lia. }
  apply H; [|apply Hok]. apply list.Forall_forall. intros [a n] Ha. exact (proj2 (node_ge s fl al Hok a n Ha)).
Qed.

(** The node before a free block. *)
Lemma pred_nodes prevp p np : prevp ∈ nodes.*1 -> h_ptr (hp_mem s prevp) = p -> (p, np) ∈ nodes -> 0 < np ->
  exists c d c0 nq, fl = c ++ (p, np) :: d /\ (base, 0) :: c = c0 ++ [(prevp, nq)].
Proof.
  intros ([q nq] & -> & (c0 & l & E)%list_elem_of_split)%list_elem_of_fmap Hn Hp Hnp. simpl fst in *.
  rewrite (node_next s fl al Hok c0 q nq l E) in Hn. simpl in Hn.
  assert (p <> base) as Hpb by (intros ->; pose proof (nodes_inj base np 0 Hp ltac:(left)); lia).
  destruct l as [|[p' np'] d]; [done|]. simpl in Hn. subst p'.
  assert (np' = np) as -> by (apply (nodes_inj p); [rewrite E; apply elem_of_app; right; right; left|done]).
  destruct c0 as [|x c1]; injection E as E1 E2.
  - exists [], d, [], nq. rewrite E2. split; [done|]. now rewrite E1.
  - exists (c1 ++ [(q, nq)]), d, (x :: c1), nq. rewrite E2, <- app_assoc. split; [done|]. now rewrite E1.
Qed.

Context (R : list block) (x y : list block) (nf : Z).
Hypothesis Hf : nodes = x ++ (hp_freep s, nf) :: y.
Hypothesis HR : R = y ++ x ++ [(hp_freep s, nf)].

Lemma R_seg : seg (hp_mem s) R (first R base).
Proof. rewrite HR. apply seg_rotate. rewrite <- Hf. apply Hok. Qed.

Lemma R_nodes b : b ∈ R <-> b ∈ nodes.
Proof. rewrite HR, Hf. set_solver. Qed.

Lemma R_nodup : NoDup R.*1.
Proof.
  assert (R ≡ₚ nodes) as E by (rewrite HR, Hf, (Permutation_app_comm y), <- app_assoc; done).
  rewrite E. apply nodes_nodup.
Qed.

Lemma wp_malloc_walk (Q : Z -> heap -> Prop) W : forall V p np prevp fuel,
  R = V ++ (p, np) :: W -> (length W < fuel)%nat -> prevp ∈ nodes.*1 -> h_ptr (hp_mem s prevp) = p ->
  Forall (fun b => b.2 < k) V ->
  (forall s' fl' a, heap_ok s' fl' ((a, k) :: al) -> hp_brk s' = hp_brk s ->
     (forall x, cnt x (fl' ++ (a, k) :: al) = cnt x (fl ++ al)) -> (length fl' <= length fl)%nat -> Q (a + HSIZE) s') ->
  (Forall (fun b => b.2 < k) R -> forall fuel', (fuel = length W + S fuel')%nat ->
     wp (p ← morecore sbrk (S fuel') k; if p =? 0 then ret 0 else h ← hdr_at p; malloc_loop sbrk fuel' k p (h_ptr h)) Q s) ->
  wp (malloc_loop sbrk fuel k prevp p) Q s.
Proof.
  induction W as [|[p2 np2] W IH]; intros V p np prevp fuel E Hfuel Hprev Hnext HV HQ Hend.
  all: assert ((p, np) ∈ nodes) as Hp by (apply R_nodes; rewrite E; apply elem_of_app; right; left).
  all: pose proof (node_accessible s fl al Hok p np Hp) as Hacc.
  all: pose proof R_seg as Hs; rewrite E, hseg_app in Hs; destruct Hs as (_ & Hmp & _).
  all: destruct fuel as [|fuel]; [simpl in Hfuel; lia|]; cbn [malloc_loop]; wp_steps; (apply wp_hdr_at; [done|]);
    rewrite Hmp; simpl h_size; simpl h_ptr.
  all: apply wp_if; intros Hsz.
  1,3: destruct (pred_nodes prevp p np Hprev Hnext Hp ltac:(lia)) as (c & d & c0 & nq & Efl & Eq);
    pose proof Hok as Hok'; rewrite Efl in Hok', HQ;
    pose proof (take_list s al c d p np k Hok' ltac:(lia) prevp nq c0 Eq) as (_ & _ & Hd & _); rewrite Hmp in Hd; injection Hd as Hd;
    rewrite Hd; exact (wp_take s al c d p np k Hok' ltac:(lia) prevp nq c0 Eq Q HQ).
  - wp_steps. assert (p = hp_freep s) as Epf.
    { rewrite HR, !app_assoc in E. apply app_inj_2 in E as [_ E]; [|done]. congruence. }
    apply wp_if_true; [lia|]. apply (Hend ltac:(rewrite E; apply Forall_app; split; [done|constructor; [simpl; lia|done]]) fuel). done.
  - wp_steps. assert (p <> hp_freep s) as Epf.
    { pose proof R_nodup as Hn. rewrite E, fmap_app in Hn. apply list.NoDup_app in Hn as (_ & _ & Hn).
      simpl in Hn. apply list.NoDup_cons in Hn as [Hn _]. intros Ep. apply Hn.
      assert (list.last R = Some (hp_freep s, nf)) as Hl by (rewrite HR, app_assoc; apply last_snoc).
      rewrite E, last_app_cons, last_cons_cons in Hl. apply last_Some_elem_of in Hl.
      apply (list_elem_of_fmap_2 fst) in Hl. now rewrite Ep. }
    apply wp_if_false; [lia|]. apply (IH (V ++ [(p, np)]) p2 np2 p fuel); auto.
    + rewrite E, <- app_assoc. done.
    + simpl in Hfuel. lia.
    + apply (list_elem_of_fmap_2 fst) in Hp. exact Hp.
    + now rewrite Hmp.
    + apply Forall_app. split; [done|constructor; [simpl; lia|done]].
    + intros H fuel' Ef. apply (Hend H). simpl. lia.
Qed.
End walk.

(** What malloc leaves: [k] units have been allocated, or there was no memory. *)
Definition malloc_post (s : heap) (fl al : list block) (k r : Z) (s' : heap) : Prop :=
  exists fl', (length fl' <= length fl + 1)%nat /\ (
    (r = 0 /\ heap_ok s' fl' al /\ conserved s (fl ++ al) s' (fl' ++ al)) \/
    (exists a, r = a + HSIZE /\ heap_ok s' fl' ((a, k) :: al) /\ conserved s (fl ++ al) s' (fl' ++ (a, k) :: al))).

Lemma freep_node s fl al : heap_ok s fl al ->
  exists x nf y, (base, 0) :: fl = x ++ (hp_freep s, nf) :: y.
Proof using.
  intros Hok. pose proof (ho_freep _ _ _ Hok) as ([a n] & E & (x & y & Hx)%list_elem_of_split)%list_elem_of_fmap.
  simpl in E. subst a. eauto.
Qed.

(** A search from freep around the whole list. *)
Lemma wp_malloc_round s fl al k fuel (Q : Z -> heap -> Prop) :
  heap_ok s fl al -> 0 < k -> (length fl < fuel)%nat ->
  (forall s' fl' a, heap_ok s' fl' ((a, k) :: al) -> hp_brk s' = hp_brk s ->
     (forall x, cnt x (fl' ++ (a, k) :: al) = cnt x (fl ++ al)) -> (length fl' <= length fl)%nat -> Q (a + HSIZE) s') ->
  (Forall (fun b => b.2 < k) fl -> forall fuel', (fuel = length fl + S fuel')%nat ->
     wp (p ← morecore sbrk (S fuel') k; if p =? 0 then ret 0 else h ← hdr_at p; malloc_loop sbrk fuel' k p (h_ptr h)) Q s) ->
  wp (malloc_loop sbrk fuel k (hp_freep s) (h_ptr (hp_mem s (hp_freep s)))) Q s.
Proof.
  intros Hok Hk Hf HQ Hend. destruct (freep_node s fl al Hok) as (x & nf & y & E).
  set (R := y ++ x ++ [(hp_freep s, nf)]). destruct R as [|[p np] W] eqn:ER; [now destruct y, x|].
  assert (length R = length fl + 1)%nat as HlR.
  { apply (f_equal length) in E. unfold R. rewrite !length_app in *. simpl in *. lia. }
  assert (h_ptr (hp_mem s (hp_freep s)) = p) as Hp.
  { rewrite (node_next s fl al Hok x _ nf y E). simpl. unfold R in ER.
    destruct y as [|[b j] y']; simpl in *; [|congruence]. destruct x as [|[b j] x']; simpl in *; congruence. }
  rewrite Hp. assert (length W = length fl) as HlW by (rewrite ER in HlR; simpl in HlR; lia).
  apply (wp_malloc_walk s fl al k Hok Hk R x y nf E eq_refl Q W [] p np); auto.
  - lia.
  - apply Hok.
  - intros HR fuel' Ef. apply Hend; [|lia]. apply list.Forall_forall. intros b Hb. rewrite list.Forall_forall in HR.
    apply HR, (R_nodes s fl al k Hok Hk R x y nf E eq_refl). now right.
Qed.

Lemma wp_malloc_loop s fl al k fuel :
  heap_ok s fl al -> 0 < k < 268435456 -> (2 * length fl + 6 <= fuel)%nat ->
  wp (malloc_loop sbrk fuel k (hp_freep s) (h_ptr (hp_mem s (hp_freep s)))) (malloc_post s fl al k) s.
Proof.
  intros Hok Hk Hf. apply (wp_malloc_round s fl al); auto; [lia|lia| |].
  - intros s' fl' a H1 H2 H3 H4. exists fl'. split; [lia|]. right. exists a. split; [done|]. split; [done|]. now apply conserved_same.
  - intros _ fuel' Ef. wp_steps. apply (wp_morecore s fl al); [done|lia|lia| |].
    + wp_steps. exists fl. split; [lia|]. left. split; [done|]. split; [done|]. now apply conserved_same.
    + intros s1 fl1 Hok1 Hc1 (b & Hb & Hbk) Hl1. destruct (freep_node s1 fl1 al Hok1) as (x & nf & y & E).
      assert ((hp_freep s1, nf) ∈ (base, 0) :: fl1) as Hin by (rewrite E; apply elem_of_app; right; left).
      destruct (node_ge s1 fl1 al Hok1 _ _ Hin). apply wp_if_false; [lia|]. wp_steps.
      apply wp_hdr_at; [exact (node_accessible s1 fl1 al Hok1 _ _ Hin)|].
      apply (wp_malloc_round s1 fl1 al); auto; [lia|lia| |].
      * intros s' fl' a H1 H2 H3 H4. exists fl'. split; [lia|]. right. exists a. split; [done|]. split; [done|].
        eapply conserved_trans; [exact Hc1|]. now apply conserved_same.
      * intros Hsmall. exfalso. rewrite list.Forall_forall in Hsmall. specialize (Hsmall b Hb). lia.
Qed.

(** Before the first call of malloc: freep is null. *)
Definition heap_fresh (s : heap) : Prop :=
  hp_freep s = 0 /\ lo <= hp_brk s < 2147483648 /\ hp_brk s mod HSIZE = 0.

(** The heap with the free blocks [fl] and the allocated blocks [al]. *)
Definition heap_rep (s : heap) (fl al : list block) : Prop :=
  heap_ok s fl al \/ heap_fresh s /\ fl = [] /\ al = [].

Lemma nunits_of_spec nbytes : 0 <= nbytes <= 2147483632 ->
  0 < nunits_of nbytes < 268435456 /\ nbytes <= HSIZE * (nunits_of nbytes - 1).
Proof using.
  intros H. unfold nunits_of, HSIZE. rewrite (u32_small (nbytes + 8 - 1)) by lia.
  rewrite u32_small by div_lia. div_lia.
Qed.

Lemma fresh_ok s m : heap_fresh s -> m base = mk_hdr base 0 -> heap_ok (mk_heap m base (hp_brk s)) [] [].
Proof using.
  intros (H1 & H2 & H3) Hm. constructor; simpl; auto; try constructor; auto.
Qed.

Lemma wp_malloc s fl al nbytes fuel :
  heap_rep s fl al -> 0 <= nbytes <= 2147483632 -> (2 * length fl + 6 <= fuel)%nat ->
  wp (malloc sbrk fuel nbytes) (fun r s' =>
    malloc_post s fl al (nunits_of nbytes) r s' /\ nbytes <= HSIZE * (nunits_of nbytes - 1)) s.
Proof.
  intros Hrep Hn Hf. destruct (nunits_of_spec nbytes Hn) as [Hk Hsz]. unfold malloc. wp_steps.
  assert (forall s1, heap_ok s1 fl al -> hp_brk s1 = hp_brk s ->
    wp (h ← hdr_at (hp_freep s1); malloc_loop sbrk fuel (nunits_of nbytes) (hp_freep s1) (h_ptr h))
      (fun r s' => malloc_post s fl al (nunits_of nbytes) r s' /\ nbytes <= HSIZE * (nunits_of nbytes - 1)) s1) as Hloop.
  { intros s1 Hok Hb. wp_steps. destruct (freep_node s1 fl al Hok) as (x & nf & y & E). apply wp_hdr_at.
    { apply (node_accessible s1 fl al Hok _ nf). rewrite E. apply elem_of_app. right. left. }
    eapply wp_mono; [exact (wp_malloc_loop s1 fl al _ fuel Hok Hk Hf)|].
    intros r s' (fl' & H). split; [|done]. exists fl'. unfold conserved in *. now rewrite Hb in H. }
  destruct Hrep as [Hok|(Hfr & -> & ->)].
  - destruct (freep_node s fl al Hok) as (x & nf & y & E).
    destruct (node_ge s fl al Hok (hp_freep s) nf) as [? _]; [rewrite E; apply elem_of_app; right; left|].
    apply wp_if_false; [lia|]. wp_steps. exact (wp_bind_inv _ _ _ _ (Hloop s Hok eq_refl)).
  - destruct Hfr as (Hz & Hb & Ha). apply wp_if_true; [lia|]. pose proof (base_accessible (hp_brk s)) as Hab.
    wp_steps. apply wp_set_ptr; [done|]. unfold set_freep. wp_steps. apply wp_set_size; [done|]. wp_steps.
    match goal with |- wp _ _ ?x => pose (s1 := x) end.
    assert (heap_ok s1 [] []) as Hok1.
    { apply (fresh_ok s (hp_mem s1)); [done|]. simpl. unfold hupd. rewrite !Z.eqb_refl. done. }
    exact (wp_bind_inv _ _ _ _ (Hloop s1 Hok1 eq_refl)).
Qed.

(** C16: malloc keeps the heap well formed (free blocks linked in address order, coalesced, and
    disjoint from each other and from the allocated blocks) and either returns 0 or a block that
    was not in use, large enough for the request; no memory is lost or handed out twice, and it
    terminates. Requests of up to 2^31 - 16 bytes are covered. *)
Theorem malloc_correct s fl al nbytes fuel :
  heap_rep s fl al -> 0 <= nbytes <= 2147483632 -> (2 * length fl + 6 <= fuel)%nat ->
  wp (malloc sbrk fuel nbytes) (fun r s' =>
    malloc_post s fl al (nunits_of nbytes) r s' /\ nbytes <= HSIZE * (nunits_of nbytes - 1)) s.
Proof. exact (wp_malloc s fl al nbytes fuel). Qed.

(** C32: free takes an allocated block back: the heap stays well formed, adjacent free blocks are
    joined, the other allocated blocks are untouched, and no memory is lost; it terminates. *)
Theorem free_correct s fl al a n fuel :
  heap_ok s fl ((a, n) :: al) -> (length fl + 1 <= fuel)%nat ->
  wp (free fuel (a + HSIZE)) (fun _ s' => exists fl', heap_ok s' fl' al /\ hp_brk s' = hp_brk s /\
    forall x, cnt x (fl' ++ al) = cnt x (fl ++ (a, n) :: al)) s.
Proof.
  intros Hok Hf. apply (wp_free s fl al a n); [done|done|]. intros s' fl' H1 H2 [H3 _ _]. exists fl'.
  split; [done|]. split; [done|]. intros x. rewrite !cnt_app, H3, !cnt_cons. lia.
Qed.
End heap.
End umalloc.

(** ** Witnesses *)

(** A heap that starts at 0x2000, below a limit of 2^31 bytes. *)
Definition ex_sbrk (n : Z) : M heap Z := fun s =>
  if hp_brk s + n <? 2147483648 then Ok (hp_brk s) (s <| hp_brk := hp_brk s + n |>) else Ok (-1) s.
Definition ex_heap : heap := mk_heap (fun _ => mk_hdr 0 0) 0 0x2000.

Lemma ex_sbrk_spec n s : 0 < n ->
  wp (ex_sbrk n) (fun r s' => r = -1 /\ s' = s \/
    r = hp_brk s /\ s' = s <| hp_brk := hp_brk s + n |> /\ hp_brk s + n < 2147483648) s.
Proof.
  intros _. unfold wp, ex_sbrk. destruct (Z.ltb_spec (hp_brk s + n) 2147483648); [right|left]; auto.
Qed.

Lemma malloc_correct_witness :
  wp (malloc 0x1000 0x2000 ex_sbrk 6 100) (fun r s' =>
    malloc_post 0x1000 0x2000 ex_heap [] [] 14 r s' /\ 100 <= HSIZE * 13) ex_heap.
Proof.
  apply (malloc_correct 0x1000 0x2000 ltac:(unfold HSIZE; lia) ex_sbrk ex_sbrk_spec ex_heap [] [] 100 6);
    [right; split; [split; [done|split; [simpl; lia|done]]|done]|lia|simpl; lia].
Defined.

(** The heap after the first 4096 units have been obtained and 14 of them allocated. *)
Definition ex_heap1 : heap :=
  mk_heap (hupd (hupd (hupd (fun _ => mk_hdr 0 0) 0x1000 (mk_hdr 0x2000 0)) 0x2000 (mk_hdr 0x1000 4082))
             (0x2000 + 8 * 4082) (mk_hdr 0 14)) 0x1000 (0x2000 + 8 * 4096).

Lemma ex_heap1_ok : heap_ok 0x1000 0x2000 ex_heap1 [(0x2000, 4082)] [(0x2000 + 8 * 4082, 14)].
Proof.
  constructor; cbn [hp_mem hp_freep hp_brk ex_heap1].
  - repeat split.
  - repeat constructor.
  - repeat apply Forall_cons_2; [| |constructor]; repeat split; unfold HSIZE; simpl; lia.
  - repeat constructor.
  - intros x. cbn [app]. rewrite !cnt_cons. change (cnt x []) with 0%nat. unfold covers, HSIZE. simpl fst. simpl snd.
    repeat match goal with |- context [if ?b then _ else _] => destruct b eqn:? end; lia.
  - left.
  - unfold HSIZE. split; [simpl; lia|done].
Qed.

Lemma free_correct_witness :
  let a := 0x2000 + 8 * 4082 in
  wp (free 0x1000 0x2000 3 (a + HSIZE)) (fun _ s' => exists fl', heap_ok 0x1000 0x2000 s' fl' [] /\ hp_brk s' = hp_brk ex_heap1 /\
    forall x, cnt x (fl' ++ []) = cnt x ([(0x2000, 4082)] ++ [(a, 14)])) ex_heap1.
Proof.
  intros a. apply (free_correct 0x1000 0x2000 ltac:(unfold HSIZE; lia) ex_heap1 [(0x2000, 4082)] [] a 14 3 ex_heap1_ok).
  simpl. lia.
Defined.

(** The size computation of malloc wraps around. A request of 2^32 - 7 bytes or more becomes one
    unit, the header alone; and for every other request above 2^31 - 16 bytes morecore calls sbrk
    with an argument that is not positive, so that the heap does not grow. *)
Theorem malloc_size_overflow n :
  (4294967289 <= n < 4294967296 -> nunits_of n = 1) /\
  (2147483632 < n < 4294967289 -> s32 (u32 (nunits_of n * HSIZE)) <= 0).
Proof.
  unfold nunits_of, HSIZE. split; intros Hn.
  - replace (u32 (n + 8 - 1)) with (n + 7 - 4294967296) by word_lia. word_lia.
  - rewrite (u32_small (n + 8 - 1)) by lia. rewrite (u32_small (_ + 1)) by div_lia. word_lia.
Qed.

Lemma malloc_size_overflow_witness : nunits_of 4294967295 = 1 /\ s32 (u32 (nunits_of 3000000000 * HSIZE)) <= 0.
Proof.
  split; [apply (malloc_size_overflow 4294967295); lia|apply (malloc_size_overflow 3000000000); lia].
Defined.
