(* ===== verification/Spinlock.v ===== *)
(** Spinlocks, spinlock.c, on a machine with several CPUs.

    Each CPU runs acquire and release one memory access at a time, interleaved with the others in
    any order. The machine is proved to implement the atomic acquire and release of Kstate.v: a
    CPU's list of locks held changes only by them, no lock is held twice, and panic() is called
    exactly when they panic. *)

From stdpp Require Import base list sets strings numbers.
From Stdlib Require Import ZArith Lia.
From S2P Require Import Prelude Kstate.
Open Scope Z_scope.

(** ** State *)

(** struct spinlock, without what is only for debugging messages. *)
Record spinlock := mk_spinlock { sl_lk : Z; sl_cpu : option nat }.

(** Where a CPU is in acquire(l) or release(l). *)
Inductive lpc :=
| Outside                       (* in neither *)
| AHold1 (l : lockid)           (* acquire, holding: about to read lk->locked *)
| AHold2 (l : lockid)           (* ... about to read lk->cpu *)
| AXchg (l : lockid)            (* about to xchg *)
| ASet (l : lockid)             (* about to set lk->cpu *)
| RHold1 (l : lockid)           (* release, holding: about to read lk->locked *)
| RHold2 (l : lockid)
| RClear (l : lockid)           (* about to clear lk->cpu *)
| RUnlock (l : lockid)          (* about to clear lk->locked *)
| RPop (l : lockid).            (* about to call popcli *)

#[global] Instance lpc_eq_dec : EqDecision lpc.
Proof. solve_decision. Defined.

(** A CPU: ncli, intena, the interrupt flag, and where it is. [c_held] is the history: the locks
    whose acquire has returned and whose release has not begun to give them up. *)
Record lcpu := mk_lcpu {
  c_ncli : Z;
  c_intena : bool;
  c_if : bool;
  c_pc : lpc;
  c_held : list lockid
}.
Definition eta_lcpu (r : lcpu) : lcpu := mk_lcpu (c_ncli r) (c_intena r) (c_if r) (c_pc r) (c_held r).
#[global] Instance set_c_ncli : Setter c_ncli := ltac:(mk_setter eta_lcpu c_ncli).
#[global] Instance set_c_intena : Setter c_intena := ltac:(mk_setter eta_lcpu c_intena).
#[global] Instance set_c_if : Setter c_if := ltac:(mk_setter eta_lcpu c_if).
#[global] Instance set_c_pc : Setter c_pc := ltac:(mk_setter eta_lcpu c_pc).
#[global] Instance set_c_held : Setter c_held := ltac:(mk_setter eta_lcpu c_held).

Record lmach := mk_lmach { m_cpus : nat -> lcpu; m_locks : lockid -> spinlock }.

Definition initlock : spinlock := mk_spinlock 0 None.

(** ** pushcli and popcli *)

Definition pushcli (c : lcpu) : lcpu :=
  let eflags := c_if c in
  let c := c <| c_if := false |> in
  let c := if c_ncli c =? 0 then c <| c_intena := eflags |> else c in
  c <| c_ncli := c_ncli c + 1 |>.

Definition popcli (c : lcpu) : string + lcpu :=
  if c_if c then inl "popcli - interruptible" else
  let c := c <| c_ncli := c_ncli c - 1 |> in
  if c_ncli c <? 0 then inl "popcli" else
  inr (if (c_ncli c =? 0) && c_intena c then c <| c_if := true |> else c).

(** ** One step of a CPU *)

Definition set_cpu (i : nat) (c : lcpu) (m : lmach) : lmach :=
  mk_lmach (fun j => if decide (j = i) then c else m_cpus m j) (m_locks m).
Definition set_lock (l : lockid) (k : spinlock) (m : lmach) : lmach :=
  mk_lmach (m_cpus m) (fun j => if decide (j = l) then k else m_locks m j).

(** What a CPU outside both functions does next. *)
Inductive request := Acquire (l : lockid) | Release (l : lockid).

Definition with_popcli (i : nat) (c : lcpu) (m : lmach) (k : lcpu -> string + lmach) : string + lmach :=
  match popcli c with inl msg => inl msg | inr c' => k c' end.

Definition cpu_step (i : nat) (r : request) (m : lmach) : string + lmach :=
  let c := m_cpus m i in
  let goto c pc := set_cpu i (c <| c_pc := pc |>) m in
  match c_pc c with
  | Outside =>
    match r with
    | Acquire l => inr (goto (pushcli (pushcli c)) (AHold1 l))
    | Release l => inr (goto (pushcli c) (RHold1 l))
    end
  | AHold1 l =>
    if sl_lk (m_locks m l) =? 0 then with_popcli i c m (fun c => inr (goto c (AXchg l)))
    else inr (goto c (AHold2 l))
  | AHold2 l =>
    with_popcli i c m (fun c =>
      if bool_decide (sl_cpu (m_locks m l) = Some i) then inl "acquire" else inr (goto c (AXchg l)))
  | AXchg l =>
    let old := sl_lk (m_locks m l) in
    let m := set_lock l (mk_spinlock 1 (sl_cpu (m_locks m l))) m in
    inr (if old =? 0 then set_cpu i (c <| c_pc := ASet l |>) m else m)
  | ASet l =>
    inr (set_cpu i (c <| c_pc := Outside |> <| c_held := l :: c_held c |>)
           (set_lock l (mk_spinlock (sl_lk (m_locks m l)) (Some i)) m))
  | RHold1 l =>
    if sl_lk (m_locks m l) =? 0 then with_popcli i c m (fun _ => inl "release")
    else inr (goto c (RHold2 l))
  | RHold2 l =>
    with_popcli i c m (fun c =>
      if bool_decide (sl_cpu (m_locks m l) = Some i)
      then inr (goto (c <| c_held := remove_lock l (c_held c) |>) (RClear l))
      else inl "release")
  | RClear l =>
    inr (set_cpu i (c <| c_pc := RUnlock l |>) (set_lock l (mk_spinlock (sl_lk (m_locks m l)) None) m))
  | RUnlock l =>
    inr (set_cpu i (c <| c_pc := RPop l |>) (set_lock l (mk_spinlock 0 (sl_cpu (m_locks m l))) m))
  | RPop l => with_popcli i c m (fun c => inr (goto c Outside))
  end.

(** The machine starts with the locks initialised, and the CPUs outside the lock code with any
    interrupt flag. *)
Definition lk_init (m : lmach) : Prop :=
  (forall i, c_ncli (m_cpus m i) = 0 /\ c_pc (m_cpus m i) = Outside /\ c_held (m_cpus m i) = []) /\
  forall l, m_locks m l = initlock.

Inductive lk_reach (m0 : lmach) : lmach -> Prop :=
| lk_start : lk_reach m0 m0
| lk_next i r m m' : lk_reach m0 m -> cpu_step i r m = inr m' -> lk_reach m0 m'.

(** ** The invariant *)

(** CPU [i] has taken lock [l] and not given it up. *)
Definition owns (m : lmach) (i : nat) (l : lockid) : Prop :=
  l ∈ c_held (m_cpus m i) \/ c_pc (m_cpus m i) = ASet l \/
  c_pc (m_cpus m i) = RClear l \/ c_pc (m_cpus m i) = RUnlock l.

(** The calls of pushcli the lock code has outstanding at [pc]. *)
Definition depth (pc : lpc) : Z :=
  match pc with
  | Outside => 0
  | AHold1 _ | AHold2 _ => 2
  | _ => 1
  end.

Record lk_inv (m : lmach) : Prop := {
  li_locked : forall l, sl_lk (m_locks m l) = 0 /\ (forall i, ~ owns m i l) \/
                        sl_lk (m_locks m l) = 1 /\ exists i, owns m i l;
  li_unique : forall l i j, owns m i l -> owns m j l -> i = j;
  li_cpu : forall l i, sl_cpu (m_locks m l) = Some i <->
                       l ∈ c_held (m_cpus m i) \/ c_pc (m_cpus m i) = RClear l;
  li_nodup : forall i, NoDup (c_held (m_cpus m i));
  li_pc : forall i l, c_pc (m_cpus m i) = ASet l \/ c_pc (m_cpus m i) = RClear l \/ c_pc (m_cpus m i) = RUnlock l ->
                      l ∉ c_held (m_cpus m i);
  li_ncli : forall i, c_ncli (m_cpus m i) = Z.of_nat (length (c_held (m_cpus m i))) + depth (c_pc (m_cpus m i));
  li_if : forall i, 0 < c_ncli (m_cpus m i) -> c_if (m_cpus m i) = false
}.

Lemma set_cpu_same i c m : m_cpus (set_cpu i c m) i = c.
Proof. simpl. now rewrite decide_True. Qed.
Lemma set_cpu_other i c m j : j <> i -> m_cpus (set_cpu i c m) j = m_cpus m j.
Proof. intros H. simpl. now rewrite decide_False. Qed.
Lemma set_lock_same l k m : m_locks (set_lock l k m) l = k.
Proof. simpl. now rewrite decide_True. Qed.
Lemma set_lock_other l k m j : j <> l -> m_locks (set_lock l k m) j = m_locks m j.
Proof. intros H. simpl. now rewrite decide_False. Qed.

Lemma pushcli_spec c : 0 <= c_ncli c ->
  c_ncli (pushcli c) = c_ncli c + 1 /\ c_if (pushcli c) = false /\
  c_pc (pushcli c) = c_pc c /\ c_held (pushcli c) = c_held c.
Proof. intros H. unfold pushcli. simpl. now destruct (c_ncli c =? 0). Qed.

Lemma popcli_spec c : 0 < c_ncli c -> c_if c = false ->
  exists c', popcli c = inr c' /\ c_ncli c' = c_ncli c - 1 /\ c_pc c' = c_pc c /\ c_held c' = c_held c /\
    (0 < c_ncli c' -> c_if c' = false).
Proof.
  intros Hn Hi. unfold popcli. rewrite Hi. simpl. destruct (Z.ltb_spec (c_ncli c - 1) 0); [lia|].
  eexists. split; [reflexivity|]. destruct (_ && _) eqn:E; simpl; repeat split; auto; lia.
Qed.

Lemma elem_of_remove_lock l h x : NoDup h -> x ∈ remove_lock l h <-> x ∈ h /\ x <> l.
Proof.
  induction h as [|y h IH]; intros Hn; simpl; [set_solver|]. apply list.NoDup_cons in Hn as [Hy Hn].
  case_decide as E; [subst; set_solver|]. rewrite !elem_of_cons, IH by done. set_solver.
Qed.

Lemma remove_lock_nodup l h : NoDup h -> NoDup (remove_lock l h).
Proof.
  induction h as [|y h IH]; intros Hn; simpl; [done|]. pose proof Hn as [Hy Hn']%list.NoDup_cons.
  case_decide; [done|]. apply list.NoDup_cons. split; [|auto]. rewrite elem_of_remove_lock by done. tauto.
Qed.

Lemma remove_lock_length l h : l ∈ h -> S (length (remove_lock l h)) = length h.
Proof.
  induction h as [|y h IH]; intros Hl; simpl; [set_solver|]. case_decide; [done|]. simpl. f_equal. apply IH. set_solver.
Qed.

(** A pc at which the CPU neither holds nor transfers a lock on account of the pc. *)
Definition neutral (pc : lpc) : bool :=
  match pc with ASet _ | RClear _ | RUnlock _ => false | _ => true end.

Section step.
Context (m : lmach) (i : nat).
Hypothesis Hinv : lk_inv m.
Abbreviation c := (m_cpus m i).

Lemma ncli_nonneg : 0 <= c_ncli c.
Proof. rewrite (li_ncli _ Hinv). destruct (c_pc c); simpl; lia. Qed.

Lemma owns_local c' j l : c_held c' = c_held c -> neutral (c_pc c) = true -> neutral (c_pc c') = true ->
  owns (set_cpu i c' m) j l <-> owns m j l.
Proof.
  intros Hh N1 N2. unfold owns. destruct (decide (j = i)) as [->|Hne].
  - rewrite set_cpu_same, Hh. destruct (c_pc c), (c_pc c'); simpl in *; try discriminate; intuition discriminate.
  - now rewrite set_cpu_other.
Qed.

(** A step that neither takes nor gives up a lock. *)
Lemma inv_local c' :
  c_held c' = c_held c -> neutral (c_pc c) = true -> neutral (c_pc c') = true ->
  c_ncli c' = Z.of_nat (length (c_held c)) + depth (c_pc c') -> (0 < c_ncli c' -> c_if c' = false) ->
  lk_inv (set_cpu i c' m).
Proof.
  intros Hh N1 N2 Hn Hi. pose proof Hinv as [L1 L2 L3 L4 L5 L6 L7]. constructor.
  - intros l. change (m_locks (set_cpu i c' m) l) with (m_locks m l). destruct (L1 l) as [[H1 H2]|[H1 [j H2]]]; [left|right].
    + split; [done|]. intros j Hj. apply (H2 j). now apply (owns_local c').
    + split; [done|]. exists j. now apply (owns_local c').
  - intros l j k Hj Hk. apply (L2 l); now apply (owns_local c').
  - intros l j. change (m_locks (set_cpu i c' m) l) with (m_locks m l). rewrite L3. destruct (decide (j = i)) as [->|Hne].
    + rewrite set_cpu_same, Hh. destruct (c_pc c), (c_pc c'); simpl in *; try discriminate; intuition discriminate.
    + now rewrite set_cpu_other.
  - intros j. destruct (decide (j = i)) as [->|Hne]; [rewrite set_cpu_same, Hh|rewrite set_cpu_other by done]; auto.
  - intros j l. destruct (decide (j = i)) as [->|Hne].
    + rewrite set_cpu_same, Hh. intros H. destruct (c_pc c'); simpl in *; try discriminate; intuition discriminate.
    + rewrite set_cpu_other by done. auto.
  - intros j. destruct (decide (j = i)) as [->|Hne]; [rewrite set_cpu_same, Hh|rewrite set_cpu_other by done]; auto.
  - intros j. destruct (decide (j = i)) as [->|Hne]; [rewrite set_cpu_same|rewrite set_cpu_other by done]; auto.
Qed.

(** popcli never panics in the lock code. *)
Lemma popcli_ok : 0 < depth (c_pc c) ->
  exists c', popcli c = inr c' /\ c_ncli c' = c_ncli c - 1 /\ c_pc c' = c_pc c /\ c_held c' = c_held c /\
    (0 < c_ncli c' -> c_if c' = false).
Proof.
  intros Hd. assert (0 < c_ncli c) by (rewrite (li_ncli _ Hinv); lia).
  apply popcli_spec; [done|]. now apply (li_if _ Hinv).
Qed.

(** A step of CPU [i] that changes lock [l] and leaves the others alone. *)
Section transfer.
Context (l : lockid) (c' : lcpu) (k : spinlock) (m' : lmach).
Hypothesis cpu_i : m_cpus m' i = c'.
Hypothesis cpu_j : forall j, j <> i -> m_cpus m' j = m_cpus m j.
Hypothesis lock_l : m_locks m' l = k.
Hypothesis lock_x : forall x, x <> l -> m_locks m' x = m_locks m x.
(** Who owns [l] before and after the step is [i] or no one. *)
Hypothesis Hmine : forall j, owns m j l -> j = i.
Hypothesis Hheld : forall x, x <> l -> x ∈ c_held c' <-> x ∈ c_held c.
Hypothesis Hpc : forall x, x <> l -> c_pc c <> ASet x /\ c_pc c <> RClear x /\ c_pc c <> RUnlock x /\
                                    c_pc c' <> ASet x /\ c_pc c' <> RClear x /\ c_pc c' <> RUnlock x.
Hypothesis Hlk : sl_lk k = 0 /\ ~ owns m' i l \/ sl_lk k = 1 /\ owns m' i l.
Hypothesis Hcpu : sl_cpu k = if bool_decide (l ∈ c_held c' \/ c_pc c' = RClear l) then Some i else None.
Hypothesis Hnd : NoDup (c_held c').
Hypothesis Hpc' : c_pc c' = ASet l \/ c_pc c' = RClear l \/ c_pc c' = RUnlock l -> l ∉ c_held c'.
Hypothesis Hncli : c_ncli c' = Z.of_nat (length (c_held c')) + depth (c_pc c').
Hypothesis Hif : 0 < c_ncli c' -> c_if c' = false.

Lemma owns_j j x : j <> i -> owns m' j x <-> owns m j x.
Proof. intros H. unfold owns. now rewrite cpu_j. Qed.

Lemma owns_x j x : x <> l -> owns m' j x <-> owns m j x.
Proof.
  intros H. destruct (decide (j = i)) as [->|Hne]; [|now apply owns_j].
  unfold owns. rewrite cpu_i, Hheld by done. destruct (Hpc x H) as (H1 & H2 & H3 & H4 & H5 & H6). tauto.
Qed.

Lemma owns_l j : owns m' j l -> j = i.
Proof. destruct (decide (j = i)); [done|]. rewrite owns_j by done. apply Hmine. Qed.

Lemma inv_transfer : lk_inv m'.
Proof.
  pose proof Hinv as [L1 L2 L3 L4 L5 L6 L7]. constructor.
  - intros x. destruct (decide (x = l)) as [->|Hx].
    + rewrite lock_l. destruct Hlk as [[H1 H2]|[H1 H2]]; [left|right; eauto]. split; [done|].
      intros j Hj. pose proof (owns_l j Hj). now subst.
    + rewrite lock_x by done. destruct (L1 x) as [[H1 H2]|[H1 [j H2]]]; [left|right].
      * split; [done|]. intros j. rewrite owns_x by done. apply H2.
      * split; [done|]. exists j. now apply owns_x.
  - intros x j q. destruct (decide (x = l)) as [->|Hx]; [intros Hj%owns_l Hq%owns_l; congruence|].
    rewrite !owns_x by done. apply L2.
  - intros x j. destruct (decide (x = l)) as [->|Hx].
    + rewrite lock_l, Hcpu. destruct (decide (j = i)) as [->|Hj].
      * rewrite cpu_i. case_bool_decide; [tauto|]. split; [discriminate|tauto].
      * rewrite cpu_j by done. split; [case_bool_decide; congruence|]. intros H. destruct Hj. apply Hmine. unfold owns. tauto.
    + rewrite lock_x, L3 by done. destruct (decide (j = i)) as [->|Hj]; [|now rewrite cpu_j].
      rewrite cpu_i, Hheld by done. destruct (Hpc x Hx) as (_ & H2 & _ & _ & H5 & _). tauto.
  - intros j. destruct (decide (j = i)) as [->|Hj]; [now rewrite cpu_i|rewrite cpu_j by done; auto].
  - intros j x. destruct (decide (j = i)) as [->|Hj]; [|rewrite cpu_j by done; auto]. rewrite cpu_i.
    destruct (decide (x = l)) as [->|Hx]; [done|]. destruct (Hpc x Hx) as (_ & _ & _ & H4 & H5 & H6). tauto.
  - intros j. destruct (decide (j = i)) as [->|Hj]; [now rewrite cpu_i|rewrite cpu_j by done; auto].
  - intros j. destruct (decide (j = i)) as [->|Hj]; [now rewrite cpu_i|rewrite cpu_j by done; auto].
Qed.
End transfer.

(** The steps that take or give up a lock. *)
Lemma inv_xchg l : c_pc c = AXchg l -> sl_lk (m_locks m l) = 0 ->
  lk_inv (set_cpu i (c <| c_pc := ASet l |>) (set_lock l (mk_spinlock 1 (sl_cpu (m_locks m l))) m)).
Proof.
  intros Epc E0. pose proof Hinv as [L1 L2 L3 L4 L5 L6 L7].
  assert (forall j, ~ owns m j l) as Hno by (destruct (L1 l) as [[_ H]|[H _]]; [done|lia]).
  assert (l ∉ c_held c) as Hl by (intros H; apply (Hno i); now left).
  apply (inv_transfer l (c <| c_pc := ASet l |>) (mk_spinlock 1 (sl_cpu (m_locks m l)))).
  - now rewrite set_cpu_same.
  - intros j Hj. now rewrite set_cpu_other.
  - apply set_lock_same.
  - intros x Hx. now apply set_lock_other.
  - intros j Hj. now destruct (Hno j).
  - done.
  - intros x Hx. rewrite Epc. simpl. repeat split; congruence.
  - right. split; [done|]. right. left. now rewrite set_cpu_same.
  - simpl. rewrite bool_decide_eq_false_2 by (intros [H|H]; [done|discriminate]).
    destruct (sl_cpu (m_locks m l)) as [j|] eqn:E; [|done]. apply L3 in E. destruct (Hno j). unfold owns. tauto.
  - apply L4.
  - done.
  - simpl. rewrite L6, Epc. simpl. lia.
  - simpl. intros H. now apply L7.
Qed.

Lemma inv_set l : c_pc c = ASet l ->
  lk_inv (set_cpu i (c <| c_pc := Outside |> <| c_held := l :: c_held c |>)
           (set_lock l (mk_spinlock (sl_lk (m_locks m l)) (Some i)) m)).
Proof.
  intros Epc. pose proof Hinv as [L1 L2 L3 L4 L5 L6 L7].
  assert (owns m i l) as Hown by (right; now left).
  assert (l ∉ c_held c) as Hl by (apply L5; now left).
  assert (sl_lk (m_locks m l) = 1) as E1 by (destruct (L1 l) as [[_ H]|[H _]]; [now destruct (H i)|done]).
  eapply (inv_transfer l (c <| c_pc := Outside |> <| c_held := l :: c_held c |>) (mk_spinlock (sl_lk (m_locks m l)) (Some i))).
  - now rewrite set_cpu_same.
  - intros j Hj. now rewrite set_cpu_other.
  - apply set_lock_same.
  - intros x Hx. now apply set_lock_other.
  - intros j Hj. exact (L2 l j i Hj Hown).
  - intros x Hx. simpl. rewrite elem_of_cons. tauto.
  - intros x Hx. rewrite Epc. simpl. repeat split; congruence.
  - right. split; [done|]. left. rewrite set_cpu_same. simpl. left.
  - simpl. rewrite bool_decide_eq_true_2; [done|]. left. left.
  - simpl. apply list.NoDup_cons. auto.
  - simpl. intros [H|[H|H]]; discriminate.
  - simpl. rewrite L6, Epc. simpl. lia.
  - simpl. intros H. now apply L7.
Qed.

Lemma inv_give c1 l : c_pc c = RHold2 l -> sl_cpu (m_locks m l) = Some i ->
  c_held c1 = remove_lock l (c_held c) -> c_pc c1 = RClear l -> c_ncli c1 = c_ncli c - 1 ->
  (0 < c_ncli c1 -> c_if c1 = false) -> lk_inv (set_cpu i c1 m).
Proof.
  intros Epc Ecpu Eh Epc1 En Ei. pose proof Hinv as [L1 L2 L3 L4 L5 L6 L7].
  assert (l ∈ c_held c) as Hl by (apply L3 in Ecpu as [H|H]; [done|congruence]).
  assert (owns m i l) as Hown by (now left).
  assert (sl_lk (m_locks m l) = 1) as E1 by (destruct (L1 l) as [[_ H]|[H _]]; [now destruct (H i)|done]).
  assert (l ∉ c_held c1) as Hl1 by (rewrite Eh, elem_of_remove_lock by auto; tauto).
  eapply (inv_transfer l c1 (m_locks m l)).
  - now rewrite set_cpu_same.
  - intros j Hj. now rewrite set_cpu_other.
  - done.
  - done.
  - intros j Hj. exact (L2 l j i Hj Hown).
  - intros x Hx. rewrite Eh, elem_of_remove_lock by auto. tauto.
  - intros x Hx. rewrite Epc, Epc1. repeat split; congruence.
  - right. split; [done|]. right. right. left. now rewrite set_cpu_same.
  - rewrite bool_decide_eq_true_2; [done|]. now right.
  - rewrite Eh. now apply remove_lock_nodup.
  - done.
  - rewrite En, L6, Epc, Epc1, Eh, <- (remove_lock_length l) by done. simpl. lia.
  - done.
Qed.

Lemma inv_clear l : c_pc c = RClear l ->
  lk_inv (set_cpu i (c <| c_pc := RUnlock l |>) (set_lock l (mk_spinlock (sl_lk (m_locks m l)) None) m)).
Proof.
  intros Epc. pose proof Hinv as [L1 L2 L3 L4 L5 L6 L7].
  assert (owns m i l) as Hown by (right; right; now left).
  assert (l ∉ c_held c) as Hl by (apply L5; right; now left).
  assert (sl_lk (m_locks m l) = 1) as E1 by (destruct (L1 l) as [[_ H]|[H _]]; [now destruct (H i)|done]).
  eapply (inv_transfer l (c <| c_pc := RUnlock l |>) (mk_spinlock (sl_lk (m_locks m l)) None)).
  - now rewrite set_cpu_same.
  - intros j Hj. now rewrite set_cpu_other.
  - apply set_lock_same.
  - intros x Hx. now apply set_lock_other.
  - intros j Hj. exact (L2 l j i Hj Hown).
  - done.
  - intros x Hx. rewrite Epc. simpl. repeat split; congruence.
  - right. split; [done|]. right. right. right. now rewrite set_cpu_same.
  - simpl. rewrite bool_decide_eq_false_2; [done|]. intros [H|H]; [done|discriminate].
  - apply L4.
  - done.
  - simpl. rewrite L6, Epc. simpl. lia.
  - simpl. intros H. now apply L7.
Qed.

Lemma inv_unlock l : c_pc c = RUnlock l ->
  lk_inv (set_cpu i (c <| c_pc := RPop l |>) (set_lock l (mk_spinlock 0 (sl_cpu (m_locks m l))) m)).
Proof.
  intros Epc. pose proof Hinv as [L1 L2 L3 L4 L5 L6 L7].
  assert (owns m i l) as Hown by (right; right; now right).
  assert (l ∉ c_held c) as Hl by (apply L5; right; now right).
  eapply (inv_transfer l (c <| c_pc := RPop l |>) (mk_spinlock 0 (sl_cpu (m_locks m l)))).
  - now rewrite set_cpu_same.
  - intros j Hj. now rewrite set_cpu_other.
  - apply set_lock_same.
  - intros x Hx. now apply set_lock_other.
  - intros j Hj. exact (L2 l j i Hj Hown).
  - done.
  - intros x Hx. rewrite Epc. simpl. repeat split; congruence.
  - left. split; [done|]. unfold owns. rewrite set_cpu_same. simpl. intros [H|[H|[H|H]]]; [done|discriminate..].
  - simpl. rewrite bool_decide_eq_false_2 by (intros [H|H]; [done|discriminate]).
    destruct (sl_cpu (m_locks m l)) as [j|] eqn:E; [|done]. apply L3 in E as E2.
    assert (j = i) as -> by (apply (L2 l); [unfold owns; tauto|done]). destruct E2 as [H|H]; [done|congruence].
  - apply L4.
  - intros [H|[H|H]]; discriminate.
  - simpl. rewrite L6, Epc. simpl. lia.
  - simpl. intros H. now apply L7.
Qed.
End step.

Lemma with_popcli_ok i m k : lk_inv m -> 0 < depth (c_pc (m_cpus m i)) ->
  exists c', with_popcli i (m_cpus m i) m k = k c' /\ c_ncli c' = c_ncli (m_cpus m i) - 1 /\
    c_pc c' = c_pc (m_cpus m i) /\ c_held c' = c_held (m_cpus m i) /\ (0 < c_ncli c' -> c_if c' = false).
Proof.
  intros Hinv Hd. destruct (popcli_ok m i Hinv Hd) as (c' & E & H). exists c'. split; [|done].
  unfold with_popcli. now rewrite E.
Qed.

(** The next popcli of a CPU inside the lock code returns. *)
Ltac popcli_returns :=
  match goal with Hinv : lk_inv ?m, Epc : c_pc (m_cpus ?m ?i) = _ |- context [with_popcli ?i _ ?m ?k] =>
    destruct (with_popcli_ok i m k Hinv) as (c' & -> & P1 & P2 & P3 & P4); [rewrite Epc; done|]
  end.

Lemma init_inv m : lk_init m -> lk_inv m.
Proof.
  intros [Hc Hl]. assert (forall i l, ~ owns m i l) as Hno.
  { intros i l. unfold owns. destruct (Hc i) as (_ & -> & ->). set_solver. }
  constructor.
  - intros l. left. split; [now rewrite Hl|]. intros i. apply Hno.
  - intros l i j H. now destruct (Hno i l).
  - intros l i. rewrite Hl. destruct (Hc i) as (_ & -> & ->). simpl. split; [discriminate|set_solver].
  - intros i. destruct (Hc i) as (_ & _ & ->). constructor.
  - intros i l. destruct (Hc i) as (_ & -> & ->). set_solver.
  - intros i. destruct (Hc i) as (-> & -> & ->). done.
  - intros i. destruct (Hc i) as (-> & _). lia.
Qed.

Lemma inv_ext m m' : (forall i, m_cpus m' i = m_cpus m i) -> (forall l, m_locks m' l = m_locks m l) -> lk_inv m -> lk_inv m'.
Proof.
  intros Hc Hl [L1 L2 L3 L4 L5 L6 L7]. assert (forall i l, owns m' i l <-> owns m i l) as Ho.
  { intros i l. unfold owns. now rewrite Hc. }
  constructor.
  - intros l. rewrite Hl. destruct (L1 l) as [[H1 H2]|[H1 [j H2]]]; [left|right]; (split; [done|]).
    + intros i. rewrite Ho. apply H2.
    + exists j. now apply Ho.
  - intros l i j. rewrite !Ho. apply L2.
  - intros l i. rewrite Hl, Hc. apply L3.
  - intros i. rewrite Hc. apply L4.
  - intros i l. rewrite Hc. apply L5.
  - intros i. rewrite Hc. apply L6.
  - intros i. rewrite Hc. apply L7.
Qed.

Lemma step_inv m i r m' : lk_inv m -> cpu_step i r m = inr m' -> lk_inv m'.
Proof.
  intros Hinv. pose proof (ncli_nonneg m i Hinv) as Hn. pose proof (li_ncli _ Hinv i) as Hd.
  pose proof (li_if _ Hinv i) as Hif. unfold cpu_step. destruct (c_pc (m_cpus m i)) as [|l|l|l|l|l|l|l|l|l] eqn:Epc.
  - destruct (pushcli_spec (m_cpus m i) Hn) as (P1 & P2 & P3 & P4).
    destruct (pushcli_spec (pushcli (m_cpus m i)) ltac:(lia)) as (Q1 & Q2 & Q3 & Q4).
    generalize dependent (pushcli (pushcli (m_cpus m i))). generalize dependent (pushcli (m_cpus m i)).
    intros c1 P1 P2 P3 P4 c2 Q1 Q2 Q3 Q4. simpl in Hd.
    destruct r as [l|l]; intros [= <-]; apply inv_local; rewrite ?Epc; simpl; auto; first [congruence|lia].
  - case_match.
    + popcli_returns. intros [= <-]. apply inv_local; rewrite ?Epc; simpl; auto. rewrite P1, Hd. simpl. lia.
    + intros [= <-]. apply inv_local; rewrite ?Epc; simpl; auto.
  - popcli_returns.
    case_bool_decide; [discriminate|]. intros [= <-]. apply inv_local; rewrite ?Epc; simpl; auto. rewrite P1, Hd. simpl. lia.
  - destruct (Z.eqb_spec (sl_lk (m_locks m l)) 0) as [E|E]; intros [= <-]; [now apply inv_xchg|].
    apply (inv_ext m); [done| |done]. intros x. destruct (decide (x = l)) as [->|Hx]; [|now rewrite set_lock_other].
    rewrite set_lock_same. destruct (li_locked _ Hinv l) as [[H _]|[H _]]; [done|]. destruct (m_locks m l). simpl in *. congruence.
  - intros [= <-]. now apply inv_set.
  - case_match.
    + popcli_returns. discriminate.
    + intros [= <-]. apply inv_local; rewrite ?Epc; simpl; auto.
  - popcli_returns.
    case_bool_decide; [|discriminate]. intros [= <-]. apply (inv_give m i Hinv _ l); simpl; auto. now rewrite P3.
  - intros [= <-]. now apply inv_clear.
  - intros [= <-]. now apply inv_unlock.
  - popcli_returns.
    intros [= <-]. apply inv_local; rewrite ?Epc; simpl; auto. rewrite P1, Hd. simpl. lia.
Qed.

Lemma reach_inv m0 m : lk_init m0 -> lk_reach m0 m -> lk_inv m.
Proof. intros H0. induction 1; eauto using init_inv, step_inv. Qed.

(** A CPU that waits for a lock does not hold it: it has passed the check of acquire. *)
Definition waits_ok (m : lmach) : Prop :=
  forall i l, c_pc (m_cpus m i) = AXchg l -> l ∉ c_held (m_cpus m i).

Lemma set_cpu_waits i c m : waits_ok m -> (forall l, c_pc c = AXchg l -> l ∉ c_held c) -> waits_ok (set_cpu i c m).
Proof.
  intros Hw Hc j l. destruct (decide (j = i)) as [->|Hne]; [rewrite set_cpu_same; apply Hc|rewrite set_cpu_other by done; apply Hw].
Qed.

Lemma held_locked m i l : lk_inv m -> l ∈ c_held (m_cpus m i) ->
  sl_lk (m_locks m l) = 1 /\ sl_cpu (m_locks m l) = Some i.
Proof.
  intros Hinv Hl. split; [|apply (li_cpu _ Hinv); now left].
  destruct (li_locked _ Hinv l) as [[_ H]|[H _]]; [|done]. destruct (H i). now left.
Qed.

Lemma step_waits m i r m' : lk_inv m -> waits_ok m -> cpu_step i r m = inr m' -> waits_ok m'.
Proof.
  intros Hinv Hw. unfold cpu_step. destruct (c_pc (m_cpus m i)) as [|l|l|l|l|l|l|l|l|l] eqn:Epc.
  - destruct r; intros [= <-]; apply set_cpu_waits; try done; simpl; discriminate.
  - destruct (Z.eqb_spec (sl_lk (m_locks m l)) 0) as [E|E]; [|intros [= <-]; apply set_cpu_waits; try done; simpl; discriminate].
    popcli_returns.
    intros [= <-]. apply set_cpu_waits; [done|]. simpl. intros x [= <-]. rewrite P3. intros H.
    destruct (held_locked m i l Hinv H). lia.
  - popcli_returns.
    case_bool_decide as E; [discriminate|]. intros [= <-]. apply set_cpu_waits; [done|]. simpl. intros x [= <-].
    rewrite P3. intros H. now destruct (held_locked m i l Hinv H).
  - case_match; intros [= <-]; [|exact Hw]. apply set_cpu_waits; [exact Hw|discriminate].
  - intros [= <-]. apply set_cpu_waits; [exact Hw|discriminate].
  - case_match.
    + popcli_returns. discriminate.
    + intros [= <-]. apply set_cpu_waits; [exact Hw|discriminate].
  - popcli_returns.
    case_bool_decide; [|discriminate]. intros [= <-]. apply set_cpu_waits; [exact Hw|discriminate].
  - intros [= <-]. apply set_cpu_waits; [exact Hw|discriminate].
  - intros [= <-]. apply set_cpu_waits; [exact Hw|discriminate].
  - popcli_returns.
    intros [= <-]. apply set_cpu_waits; [exact Hw|discriminate].
Qed.

Lemma reach_waits m0 m : lk_init m0 -> lk_reach m0 m -> waits_ok m.
Proof.
  intros H0. induction 1 as [|i r m m' Hr IH E]; [|eauto using step_waits, reach_inv].
  intros i l. destruct H0 as [H0 _]. destruct (H0 i) as (_ & -> & _). discriminate.
Qed.

(** ** The atomic operations are implemented *)

Definition k_call (r : request) : K unit :=
  match r with Acquire l => acquire l | Release l => release l end.

(** The call a CPU is in. *)
Definition pending (pc : lpc) : option request :=
  match pc with
  | Outside => None
  | AHold1 l | AHold2 l | AXchg l | ASet l => Some (Acquire l)
  | RHold1 l | RHold2 l | RClear l | RUnlock l | RPop l => Some (Release l)
  end.

(** The call that takes effect with the step at [pc]. *)
Definition effect (pc : lpc) : option request :=
  match pc with ASet l => Some (Acquire l) | RHold2 l => Some (Release l) | _ => None end.

Lemma acquire_eq l s : l ∉ k_held s -> acquire l s = Ok tt (s <| k_held := l :: k_held s |>).
Proof. intros H. unfold acquire, holding, mbind, M_bind, bind, gets. now rewrite bool_decide_eq_false_2. Qed.
Lemma acquire_panics l s : l ∈ k_held s -> acquire l s = Panic "acquire".
Proof. intros H. unfold acquire, holding, mbind, M_bind, bind, gets. now rewrite bool_decide_eq_true_2. Qed.
Lemma release_eq l s : l ∈ k_held s -> release l s = Ok tt (s <| k_held := remove_lock l (k_held s) |>).
Proof. intros H. unfold release, holding, mbind, M_bind, bind, gets. now rewrite bool_decide_eq_true_2. Qed.
Lemma release_panics l s : l ∉ k_held s -> release l s = Panic "release".
Proof. intros H. unfold release, holding, mbind, M_bind, bind, gets. now rewrite bool_decide_eq_false_2. Qed.

(** What a step does, as seen by the client of the lock code on CPU [i] with the locks [s]. *)
Definition implements (pc : lpc) (i : nat) (s : kstate) (res : string + lmach) : Prop :=
  match res with
  | inr m' =>
    let s' := s <| k_held := c_held (m_cpus m' i) |> in
    match effect pc with Some r => k_call r s = Ok tt s' | None => s' = s end
  | inl msg => exists r, pending pc = Some r /\ k_call r s = Panic msg
  end.

Lemma not_cpu_not_held m i l : lk_inv m -> sl_cpu (m_locks m l) <> Some i -> l ∉ c_held (m_cpus m i).
Proof. intros Hinv H Hl. now destruct (held_locked m i l Hinv Hl). Qed.

Lemma step_implements m i r s : lk_inv m -> k_held s = c_held (m_cpus m i) ->
  implements (c_pc (m_cpus m i)) i s (cpu_step i r m).
Proof.
  intros Hinv Hs. assert (forall c, c_held c = k_held s -> s <| k_held := c_held (m_cpus (set_cpu i c m) i) |> = s) as Hsame.
  { intros c Hc. rewrite set_cpu_same, Hc. apply set_held_same. }
  unfold cpu_step. destruct (c_pc (m_cpus m i)) as [|l|l|l|l|l|l|l|l|l] eqn:Epc.
  - pose proof (ncli_nonneg m i Hinv) as Hn. destruct (pushcli_spec (m_cpus m i) Hn) as (P1 & _ & _ & P4).
    destruct (pushcli_spec (pushcli (m_cpus m i)) ltac:(lia)) as (_ & _ & _ & Q4). destruct r; apply Hsame.
    + etransitivity; [exact Q4|congruence].
    + etransitivity; [exact P4|congruence].
  - case_match; [popcli_returns|]; apply Hsame; simpl; congruence.
  - popcli_returns. case_bool_decide as E; [|apply Hsame; simpl; congruence].
    exists (Acquire l). split; [done|]. apply acquire_panics. rewrite Hs.
    apply (li_cpu _ Hinv) in E as [E|E]; [done|congruence].
  - simpl. case_match; simpl; [rewrite decide_True by done|]; simpl; rewrite <- Hs; apply set_held_same.
  - simpl. rewrite decide_True by done. simpl. rewrite acquire_eq, Hs; [done|]. rewrite Hs. apply (li_pc _ Hinv). tauto.
  - destruct (Z.eqb_spec (sl_lk (m_locks m l)) 0) as [E|E]; [|apply Hsame; simpl; congruence]. popcli_returns.
    exists (Release l). split; [done|]. apply release_panics. rewrite Hs. intros H. destruct (held_locked m i l Hinv H). lia.
  - popcli_returns. case_bool_decide as E.
    + simpl. rewrite decide_True by done. simpl. rewrite release_eq, Hs, P3; [done|]. rewrite Hs.
      apply (li_cpu _ Hinv) in E as [E|E]; [done|congruence].
    + exists (Release l). split; [done|]. apply release_panics. rewrite Hs. now apply not_cpu_not_held.
  - simpl. rewrite decide_True by done. simpl. rewrite <- Hs. apply set_held_same.
  - simpl. rewrite decide_True by done. simpl. rewrite <- Hs. apply set_held_same.
  - popcli_returns. apply Hsame. simpl. congruence.
Qed.

Lemma step_others m i r m' j : cpu_step i r m = inr m' -> j <> i -> m_cpus m' j = m_cpus m j.
Proof.
  intros E Hj. unfold cpu_step, with_popcli in E. repeat case_match; simplify_eq; simpl; try done; now rewrite decide_False.
Qed.

(** ** A lock changes hands *)

(** CPU [i] takes [n] steps; it calls [r] when it is outside the lock code. *)
Fixpoint cpu_run (n : nat) (i : nat) (r : request) (m : lmach) : string + lmach :=
  match n with
  | O => inr m
  | S n => match cpu_step i r m with inl msg => inl msg | inr m => cpu_run n i r m end
  end.

Lemma cpu_run_step n i r m m1 : cpu_step i r m = inr m1 -> cpu_run (S n) i r m = cpu_run n i r m1.
Proof. intros H. simpl. now rewrite H. Qed.

Lemma run_inv n i r : forall m m', lk_inv m -> cpu_run n i r m = inr m' -> lk_inv m'.
Proof.
  induction n as [|n IH]; simpl; intros m m' Hm; [now intros [= <-]|]. destruct (cpu_step i r m) eqn:E; [done|].
  apply IH. eauto using step_inv.
Qed.

Lemma run_others n i r j : j <> i -> forall m m', cpu_run n i r m = inr m' -> m_cpus m' j = m_cpus m j.
Proof.
  intros Hj. induction n as [|n IH]; simpl; intros m m'; [now intros [= <-]|]. destruct (cpu_step i r m) as [|m1] eqn:E; [done|].
  intros H. rewrite (IH m1 m' H). eauto using step_others.
Qed.

(** A step that is taken, and what it leaves. *)
Definition steps_to (i : nat) (r : request) (m : lmach) (pc : lpc) (h : list lockid) (m' : lmach) : Prop :=
  cpu_step i r m = inr m' /\ c_pc (m_cpus m' i) = pc /\ c_held (m_cpus m' i) = h.

Section paths.
Context (m : lmach) (i : nat) (r : request).
Hypothesis Hinv : lk_inv m.
Abbreviation c := (m_cpus m i).

Lemma step_call : c_pc c = Outside ->
  exists m', steps_to i r m (match r with Acquire l => AHold1 l | Release l => RHold1 l end) (c_held c) m' /\ m_locks m' = m_locks m.
Proof.
  intros Epc. unfold steps_to, cpu_step. rewrite Epc.
  destruct (pushcli_spec c (ncli_nonneg m i Hinv)) as (P1 & _ & P3 & P4). pose proof (ncli_nonneg m i Hinv).
  destruct (pushcli_spec (pushcli c) ltac:(lia)) as (_ & _ & Q3 & Q4).
  destruct r; (eexists; split; [split; [reflexivity|]|reflexivity]); rewrite set_cpu_same; (split; [reflexivity|]).
  - etransitivity; [exact Q4|exact P4].
  - exact P4.
Qed.

Lemma step_release_check l : c_pc c = RHold1 l -> l ∈ c_held c -> exists m', steps_to i r m (RHold2 l) (c_held c) m'.
Proof.
  intros Epc Hl. destruct (held_locked m i l Hinv Hl) as [L _]. unfold steps_to, cpu_step. rewrite Epc, L.
  eexists. split; [reflexivity|]. now rewrite set_cpu_same.
Qed.

Lemma step_release_checked l : c_pc c = RHold2 l -> l ∈ c_held c ->
  exists m', steps_to i r m (RClear l) (remove_lock l (c_held c)) m'.
Proof.
  intros Epc Hl. destruct (held_locked m i l Hinv Hl) as [_ C]. unfold steps_to, cpu_step. rewrite Epc. popcli_returns.
  rewrite C, bool_decide_eq_true_2 by done. eexists. split; [reflexivity|]. rewrite set_cpu_same. simpl. now rewrite P3.
Qed.

Lemma step_clear l : c_pc c = RClear l -> exists m', steps_to i r m (RUnlock l) (c_held c) m'.
Proof.
  intros Epc. unfold steps_to, cpu_step. rewrite Epc. eexists. split; [reflexivity|]. now rewrite set_cpu_same.
Qed.

Lemma step_unlock l : c_pc c = RUnlock l -> exists m', steps_to i r m (RPop l) (c_held c) m' /\ sl_lk (m_locks m' l) = 0.
Proof.
  intros Epc. unfold steps_to, cpu_step. rewrite Epc. eexists. split; [split; [reflexivity|now rewrite set_cpu_same]|].
  simpl. now rewrite decide_True.
Qed.

Lemma step_pop l : c_pc c = RPop l -> exists m', steps_to i r m Outside (c_held c) m' /\ m_locks m' = m_locks m.
Proof.
  intros Epc. unfold steps_to, cpu_step. rewrite Epc. popcli_returns.
  eexists. split; [split; [reflexivity|rewrite set_cpu_same]|done]. split; [done|exact P3].
Qed.

Lemma step_acquire_check l : c_pc c = AHold1 l -> sl_lk (m_locks m l) = 0 ->
  exists m', steps_to i r m (AXchg l) (c_held c) m' /\ m_locks m' = m_locks m.
Proof.
  intros Epc Hl. unfold steps_to, cpu_step. rewrite Epc, Hl. popcli_returns.
  eexists. split; [split; [reflexivity|rewrite set_cpu_same]|done]. split; [done|exact P3].
Qed.

Lemma step_xchg l : c_pc c = AXchg l -> sl_lk (m_locks m l) = 0 -> exists m', steps_to i r m (ASet l) (c_held c) m'.
Proof.
  intros Epc Hl. unfold steps_to, cpu_step. rewrite Epc, Hl. eexists. split; [reflexivity|]. simpl. now rewrite decide_True.
Qed.

Lemma step_spin l : c_pc c = AXchg l -> sl_lk (m_locks m l) <> 0 -> exists m', steps_to i r m (AXchg l) (c_held c) m'.
Proof.
  intros Epc Hl. unfold steps_to, cpu_step. rewrite Epc. destruct (Z.eqb_spec (sl_lk (m_locks m l)) 0); [done|].
  eexists. split; [reflexivity|]. done.
Qed.

Lemma step_take l : c_pc c = ASet l -> exists m', steps_to i r m Outside (l :: c_held c) m'.
Proof.
  intros Epc. unfold steps_to, cpu_step. rewrite Epc. eexists. split; [reflexivity|]. now rewrite set_cpu_same.
Qed.
End paths.


(** A held lock is given up by the six steps of release. *)
Lemma release_runs m i l : lk_inv m -> c_pc (m_cpus m i) = Outside -> l ∈ c_held (m_cpus m i) ->
  exists m', cpu_run 6 i (Release l) m = inr m' /\ c_pc (m_cpus m' i) = Outside /\
    c_held (m_cpus m' i) = remove_lock l (c_held (m_cpus m i)) /\ sl_lk (m_locks m' l) = 0.
Proof.
  intros I0 E0 Hl.
  destruct (step_call m i (Release l) I0 E0) as (m1 & (S1 & E1 & H1) & _). pose proof (step_inv _ _ _ _ I0 S1) as I1.
  destruct (step_release_check m1 i (Release l) I1 l E1) as (m2 & S2 & E2 & H2); [now rewrite H1|].
  pose proof (step_inv _ _ _ _ I1 S2) as I2.
  destruct (step_release_checked m2 i (Release l) I2 l E2) as (m3 & S3 & E3 & H3); [now rewrite H2, H1|].
  pose proof (step_inv _ _ _ _ I2 S3) as I3.
  destruct (step_clear m3 i (Release l) l E3) as (m4 & S4 & E4 & H4). pose proof (step_inv _ _ _ _ I3 S4) as I4.
  destruct (step_unlock m4 i (Release l) l E4) as (m5 & (S5 & E5 & H5) & L5). pose proof (step_inv _ _ _ _ I4 S5) as I5.
  destruct (step_pop m5 i (Release l) I5 l E5) as (m6 & (S6 & E6 & H6) & L6).
  exists m6. rewrite (cpu_run_step _ _ _ _ _ S1), (cpu_run_step _ _ _ _ _ S2), (cpu_run_step _ _ _ _ _ S3),
    (cpu_run_step _ _ _ _ _ S4), (cpu_run_step _ _ _ _ _ S5), (cpu_run_step _ _ _ _ _ S6).
  split; [done|]. split; [done|]. split; [|now rewrite L6]. now rewrite H6, H5, H4, H3, H2, H1.
Qed.

(** A CPU that waits for a free lock has it after two steps. *)
Lemma waiting_takes m i r l : c_pc (m_cpus m i) = AXchg l -> sl_lk (m_locks m l) = 0 ->
  exists m', cpu_run 2 i r m = inr m' /\ c_pc (m_cpus m' i) = Outside /\ c_held (m_cpus m' i) = l :: c_held (m_cpus m i).
Proof.
  intros E0 L0. destruct (step_xchg m i r l E0 L0) as (m1 & S1 & E1 & H1). destruct (step_take m1 i r l E1) as (m2 & S2 & E2 & H2).
  exists m2. rewrite (cpu_run_step _ _ _ _ _ S1), (cpu_run_step _ _ _ _ _ S2). now rewrite H2, H1.
Qed.

(** A CPU that waits for a lock in use waits for another CPU, and goes on waiting. *)
Lemma waiting_spins m i r l : lk_inv m -> waits_ok m -> c_pc (m_cpus m i) = AXchg l -> sl_lk (m_locks m l) <> 0 ->
  (exists j, j <> i /\ owns m j l) /\ exists m', cpu_step i r m = inr m' /\ c_pc (m_cpus m' i) = AXchg l.
Proof.
  intros Hinv Hw E L. split.
  - destruct (li_locked _ Hinv l) as [[H _]|[_ [j Hj]]]; [done|]. exists j. split; [|done]. intros ->.
    destruct Hj as [Hj|Hj]; [now apply (Hw i l)|]. rewrite E in Hj. intuition discriminate.
  - destruct (step_spin m i r l E L) as (m' & S1 & E1 & _). eauto.
Qed.

(** ** What is proved of the lock code *)

(** C29: No two CPUs hold a lock at the same time, whatever the order in which the CPUs run the
    instructions of acquire and release; a CPU does not hold a lock twice, and it holds locks
    only with interrupts off. *)
Theorem spinlock_mutual_exclusion m0 m : lk_init m0 -> lk_reach m0 m ->
  (forall i j l, l ∈ c_held (m_cpus m i) -> l ∈ c_held (m_cpus m j) -> i = j) /\
  (forall i, NoDup (c_held (m_cpus m i))) /\
  (forall i, c_held (m_cpus m i) <> [] -> c_if (m_cpus m i) = false).
Proof.
  intros H0 Hr. pose proof (reach_inv m0 m H0 Hr) as Hinv. split; [|split].
  - intros i j l Hi Hj. apply (li_unique _ Hinv l); now left.
  - apply (li_nodup _ Hinv).
  - intros i Hi. apply (li_if _ Hinv). rewrite (li_ncli _ Hinv).
    destruct (c_held (m_cpus m i)), (c_pc (m_cpus m i)); simpl in *; try done; lia.
Qed.

(** C15: The lock code implements the atomic acquire and release the rest of the kernel is
    modelled with: a step of a CPU changes its locks exactly at the points where acquire and
    release take effect, and as they do; it panics only where they panic, with the same message;
    and the other CPUs do not see it. *)
Theorem spinlock_refines m0 m i r s : lk_init m0 -> lk_reach m0 m -> k_held s = c_held (m_cpus m i) ->
  implements (c_pc (m_cpus m i)) i s (cpu_step i r m) /\
  forall m', cpu_step i r m = inr m' -> forall j, j <> i -> m_cpus m' j = m_cpus m j.
Proof. eauto using step_implements, reach_inv, step_others. Qed.

(** A CPU that waits in acquire has the lock after two of its steps when the lock is free.
    When it is not, another CPU has it, never the waiting one, and the wait goes on; a CPU that
    holds it and calls release frees it by six steps of its own, after which the two steps of the
    waiting CPU take it. *)
Theorem spinlock_handover m0 m i l r :
  lk_init m0 -> lk_reach m0 m -> c_pc (m_cpus m i) = AXchg l ->
  (sl_lk (m_locks m l) = 0 ->
   exists m', cpu_run 2 i r m = inr m' /\ c_pc (m_cpus m' i) = Outside /\ c_held (m_cpus m' i) = l :: c_held (m_cpus m i)) /\
  (sl_lk (m_locks m l) <> 0 ->
   (exists j, j <> i /\ owns m j l) /\ exists m', cpu_step i r m = inr m' /\ c_pc (m_cpus m' i) = AXchg l) /\
  (forall j, c_pc (m_cpus m j) = Outside -> l ∈ c_held (m_cpus m j) ->
   exists m1 m2, cpu_run 6 j (Release l) m = inr m1 /\ cpu_run 2 i r m1 = inr m2 /\
     c_held (m_cpus m2 j) = remove_lock l (c_held (m_cpus m j)) /\ c_held (m_cpus m2 i) = l :: c_held (m_cpus m i)).
Proof.
  intros H0 Hr E. pose proof (reach_inv m0 m H0 Hr) as Hinv. split; [|split].
  - eauto using waiting_takes.
  - eauto using waiting_spins, reach_waits.
  - intros j Ej Hl. assert (i <> j) as Hne by congruence.
    destruct (release_runs m j l Hinv Ej Hl) as (m1 & R1 & _ & H1 & L1).
    pose proof (run_others 6 j (Release l) i Hne m m1 R1) as Ei.
    destruct (waiting_takes m1 i r l) as (m2 & R2 & _ & H2); [now rewrite Ei|done|].
    exists m1, m2. rewrite H2, Ei. rewrite <- H1, (run_others 2 i r j) with (m := m1) (m' := m2); auto.
Qed.

(** *** Nesting of pushcli and popcli *)

(** A sequence of calls of pushcli ([true]) and popcli ([false]). *)
Fixpoint cli_run (ops : list bool) (c : lcpu) : string + lcpu :=
  match ops with
  | [] => inr c
  | true :: ops => cli_run ops (pushcli c)
  | false :: ops => match popcli c with inl msg => inl msg | inr c => cli_run ops c end
  end.

(** The calls of popcli are matched: from [n] open calls of pushcli the sequence leaves [n']. *)
Fixpoint cli_depth (n : nat) (ops : list bool) : option nat :=
  match ops with
  | [] => Some n
  | true :: ops => cli_depth (S n) ops
  | false :: ops => match n with O => None | S n => cli_depth n ops end
  end.

(** [n] calls of pushcli are open on a CPU that had interrupt flag [b] before the first. *)
Definition cli_open (b : bool) (n : nat) (c : lcpu) : Prop :=
  c_ncli c = Z.of_nat n /\ match n with O => c_if c = b | S _ => c_if c = false /\ c_intena c = b end.

Lemma pushcli_open b n c : cli_open b n c -> cli_open b (S n) (pushcli c).
Proof.
  intros [Hn Hb]. unfold cli_open, pushcli. simpl. destruct (Z.eqb_spec (c_ncli c) 0); destruct n; simpl; try lia;
    (split; [lia|]); intuition congruence.
Qed.

Lemma popcli_open b n c : cli_open b (S n) c -> exists c', popcli c = inr c' /\ cli_open b n c'.
Proof.
  intros (Hn & Hi & Hb). unfold popcli, cli_open. rewrite Hi. simpl. destruct (Z.ltb_spec (c_ncli c - 1) 0); [lia|].
  eexists. split; [reflexivity|]. rewrite Hb. destruct (Z.eqb_spec (c_ncli c - 1) 0); destruct n, b; simpl; try lia; intuition lia.
Qed.

(** pushcli and popcli nest. After any sequence of calls in which the popcli's are matched,
    ncli counts the open pushcli's; interrupts are off while one is open, and as they were
    before when none is. One popcli more panics. *)
Theorem cli_nesting ops n c : c_ncli c = 0 -> cli_depth 0 ops = Some n ->
  exists c', cli_run ops c = inr c' /\ c_ncli c' = Z.of_nat n /\
    c_if c' = match n with O => c_if c | S _ => false end /\
    (n = O -> exists msg, popcli c' = inl msg).
Proof.
  intros H0 Hd. enough (forall d c0, cli_open (c_if c) d c0 -> cli_depth d ops = Some n ->
    exists c', cli_run ops c0 = inr c' /\ cli_open (c_if c) n c') as Hgen.
  { destruct (Hgen O c) as (c' & R & Hn & Hi); [by split|done|]. exists c'. split; [done|]. split; [done|].
    split; [now destruct n as [|n']; [|destruct Hi]|]. intros ->. unfold popcli. destruct (c_if c'); [eauto|].
    simpl. rewrite Hn. simpl. eauto. }
  clear H0 Hd. induction ops as [|[|] ops IH]; simpl; intros d c0 Ho Hd.
  - injection Hd as <-. eauto.
  - eapply IH; [apply pushcli_open|]; eauto.
  - destruct d as [|d]; [done|]. destruct (popcli_open _ _ _ Ho) as (c' & -> & Ho'). eauto.
Qed.

(** ** A run of two CPUs *)

Definition ex_lk0 : lmach := mk_lmach (fun _ => mk_lcpu 0 false true Outside []) (fun _ => initlock).
(** CPU 0 has acquired tickslock, and CPU 1 waits for it. *)
Definition ex_lk : lmach :=
  match cpu_run 4 0 (Acquire LTicks) ex_lk0 with
  | inr m => match cpu_run 3 1 (Acquire LTicks) m with inr m => m | inl _ => m end
  | inl _ => ex_lk0
  end.

Lemma run_reach m0 n i r : forall m m', lk_reach m0 m -> cpu_run n i r m = inr m' -> lk_reach m0 m'.
Proof.
  induction n as [|n IH]; simpl; intros m m' Hm; [now intros [= <-]|]. destruct (cpu_step i r m) eqn:E; [done|].
  apply IH. eauto using lk_next.
Qed.

Lemma ex_lk_init : lk_init ex_lk0.
Proof. done. Qed.

Lemma ex_lk_reach : lk_reach ex_lk0 ex_lk.
Proof.
  unfold ex_lk. destruct (cpu_run 4 0 (Acquire LTicks) ex_lk0) as [|m1] eqn:E1; [constructor|].
  destruct (cpu_run 3 1 (Acquire LTicks) m1) as [|m2] eqn:E2; eauto using run_reach, lk_start.
Qed.

Definition ex_lk_kstate : kstate :=
  (boot_state (mk_symbols 0x80110000 0x80108000 0x80103000 0x80105000) ∅) <| k_held := [LTicks] |>.

Lemma spinlock_mutual_exclusion_witness :
  c_held (m_cpus ex_lk 0) = [LTicks] /\ c_if (m_cpus ex_lk 0) = false /\ forall j, LTicks ∈ c_held (m_cpus ex_lk j) -> j = 0%nat.
Proof.
  destruct (spinlock_mutual_exclusion ex_lk0 ex_lk ex_lk_init ex_lk_reach) as (H1 & _ & H3).
  split; [reflexivity|]. split; [apply H3; discriminate|]. intros j Hj. apply (H1 j 0%nat LTicks Hj). now left.
Defined.

Lemma spinlock_refines_witness :
  k_held ex_lk_kstate = c_held (m_cpus ex_lk 0) /\
  implements Outside 0 ex_lk_kstate (cpu_step 0 (Release LTicks) ex_lk).
Proof.
  split; [reflexivity|].
  exact (proj1 (spinlock_refines ex_lk0 ex_lk 0%nat (Release LTicks) ex_lk_kstate ex_lk_init ex_lk_reach eq_refl)).
Defined.

Lemma spinlock_handover_witness :
  c_pc (m_cpus ex_lk 1) = AXchg LTicks /\
  exists m1 m2, cpu_run 6 0 (Release LTicks) ex_lk = inr m1 /\ cpu_run 2 1 (Acquire LTicks) m1 = inr m2 /\
    c_held (m_cpus m2 0) = [] /\ c_held (m_cpus m2 1) = [LTicks].
Proof.
  split; [reflexivity|].
  destruct (spinlock_handover ex_lk0 ex_lk 1%nat LTicks (Acquire LTicks) ex_lk_init ex_lk_reach eq_refl) as (_ & _ & H).
  exact (H 0%nat eq_refl ltac:(now left)).
Defined.

Lemma cli_nesting_witness :
  exists c', cli_run [true; true; false; false] (m_cpus ex_lk0 0) = inr c' /\ c_if c' = true.
Proof.
  destruct (cli_nesting [true; true; false; false] 0 (m_cpus ex_lk0 0) eq_refl eq_refl) as (c' & R & _ & I & _).
  exists c'. split; [exact R|exact I].
Defined.
