(* ===== verification/Mmu.v ===== *)
(** The address arithmetic of mmu.h and memlayout.h: page rounding, the
    split of a virtual address into directory index, table index and offset,
    page table entries, and the kernel's direct map. *)

From stdpp Require Import base numbers.
From Stdlib Require Import ZArith Lia.
From S2P Require Import Prelude.
Open Scope Z_scope.

(** memlayout.h *)
Definition EXTMEM : Z := 0x100000.
Definition PHYSTOP : Z := 0xE000000.
Definition DEVSPACE : Z := 0xFE000000.
Definition KERNBASE : Z := 0x80000000.
Definition KERNLINK : Z := KERNBASE + EXTMEM.
Definition V2P (a : Z) : Z := u32 (a - KERNBASE).
Definition P2V (a : Z) : Z := u32 (a + KERNBASE).

(** mmu.h *)
Definition FL_IF : Z := 0x200.
Definition SEG_KCODE : Z := 1.
Definition SEG_KDATA : Z := 2.
Definition SEG_UCODE : Z := 3.
Definition SEG_UDATA : Z := 4.
Definition SEG_TSS : Z := 5.
Definition NSEGS : Z := 6.
Definition DPL_USER : Z := 3.
Definition STA_X : Z := 8.
Definition STA_W : Z := 2.
Definition STA_R : Z := 2.
Definition STS_T32A : Z := 9.
Definition STS_IG32 : Z := 0xE.
Definition STS_TG32 : Z := 0xF.
Definition PGSIZE : Z := 4096.
Definition NPDENTRIES : Z := 1024.
Definition NPTENTRIES : Z := 1024.
Definition PTXSHIFT : Z := 12.
Definition PDXSHIFT : Z := 22.
Definition PDX (va : Z) : Z := Z.land (Z.shiftr va PDXSHIFT) 0x3FF.
Definition PTX (va : Z) : Z := Z.land (Z.shiftr va PTXSHIFT) 0x3FF.
Definition PGADDR (d t o : Z) : Z :=
  u32 (Z.lor (Z.lor (Z.shiftl d PDXSHIFT) (Z.shiftl t PTXSHIFT)) o).
Definition PGROUNDUP (sz : Z) : Z := Z.land (u32 (sz + PGSIZE - 1)) (not32 (PGSIZE - 1)).
Definition PGROUNDDOWN (a : Z) : Z := Z.land a (not32 (PGSIZE - 1)).
Definition PTE_P : Z := 1.
Definition PTE_W : Z := 2.
Definition PTE_U : Z := 4.
Definition PTE_PS : Z := 0x80.
Definition PTE_ADDR (pte : Z) : Z := Z.land pte (not32 0xFFF).
Definition PTE_FLAGS (pte : Z) : Z := Z.land pte 0xFFF.

(** ** Lemmas *)

Lemma land_not_ones x k : 0 <= k <= 32 -> is_u32 x ->
  Z.land x (4294967295 - Z.ones k) = x - x mod 2 ^ k.
Proof.
  intros Hk Hx. change 4294967295 with (Z.ones 32).
  rewrite <- Z.land_ones by lia.
  rewrite (Z.sub_nocarry_ldiff (Z.ones 32)), (Z.sub_nocarry_ldiff x).
  - apply Z.bits_inj'. intros n Hn.
    rewrite Z.land_spec, !Z.ldiff_spec, Z.land_spec, !Z.testbit_ones_nonneg by lia.
    destruct (Z.ltb_spec n 32); [now destruct (Z.testbit x n), (n <? k)|].
    assert (Z.testbit x n = false) as ->; [|reflexivity].
    apply Z.testbit_false; [lia|]. unfold is_u32 in Hx.
    rewrite Z.div_small; [reflexivity|].
    enough (2 ^ 32 <= 2 ^ n) by lia. apply Z.pow_le_mono_r; lia.
  - apply Z.bits_inj'. intros n Hn. rewrite Z.ldiff_spec, Z.land_spec, Z.bits_0.
    now destruct (Z.testbit x n), (Z.testbit (Z.ones k) n).
  - apply Z.bits_inj'. intros n Hn.
    rewrite Z.ldiff_spec, Z.bits_0, !Z.testbit_ones_nonneg by lia.
    destruct (Z.ltb_spec n k), (Z.ltb_spec n 32); simpl; try reflexivity; lia.
Qed.

Lemma PGROUNDDOWN_spec a : is_u32 a -> PGROUNDDOWN a = a - a mod PGSIZE.
Proof. intros Ha. exact (land_not_ones a 12 ltac:(lia) Ha). Qed.

Lemma PGROUNDUP_spec sz : 0 <= sz <= 4294967296 - PGSIZE ->
  PGROUNDUP sz = (sz + PGSIZE - 1) / PGSIZE * PGSIZE.
Proof.
  unfold PGROUNDUP, PGSIZE. intros H.
  change (not32 (4096 - 1)) with (4294967295 - Z.ones 12).
  rewrite land_not_ones by (try lia; word_lia).
  change (2 ^ 12) with 4096. unfold u32. rewrite Z.mod_small by lia. div_lia.
Qed.

Lemma PTE_ADDR_spec pte : is_u32 pte -> PTE_ADDR pte = pte - pte mod 4096.
Proof. intros H. exact (land_not_ones pte 12 ltac:(lia) H). Qed.

Lemma PTE_FLAGS_spec pte : PTE_FLAGS pte = pte mod 4096.
Proof. exact (Z.land_ones pte 12 ltac:(lia)). Qed.

Lemma PDX_spec va : PDX va = va / 4194304 mod 1024.
Proof.
  unfold PDX, PDXSHIFT. rewrite Z.shiftr_div_pow2 by lia. exact (Z.land_ones _ 10 ltac:(lia)).
Qed.

Lemma PTX_spec va : PTX va = va / 4096 mod 1024.
Proof.
  unfold PTX, PTXSHIFT. rewrite Z.shiftr_div_pow2 by lia. exact (Z.land_ones _ 10 ltac:(lia)).
Qed.

Lemma V2P_P2V a : is_u32 a -> V2P (P2V a) = a.
Proof. unfold V2P, P2V, KERNBASE. intros H. word_lia. Qed.

Lemma P2V_V2P a : is_u32 a -> P2V (V2P a) = a.
Proof. unfold V2P, P2V, KERNBASE. intros H. word_lia. Qed.
