(* ===== verification/Segment.v ===== *)
(** Segment and gate descriptors of mmu.h.

    [segdesc] and [gatedesc] are the bit-field structures, [SEG], [SEG16] and [SETGATE] the macros that
    fill them, and [segdesc_word] and [gatedesc_word] the eight bytes they occupy, bit-fields from the
    low bits up. [read_segment] and [read_gate] are how the processor reads the eight bytes; the lemmas
    say that it finds in them what the macros were given. *)

From stdpp Require Import base list numbers.
From Stdlib Require Import ZArith Lia.
From S2P Require Import Prelude Mmu.
Open Scope Z_scope.

Record segdesc := mk_segdesc {
  sd_lim_15_0 : Z;
  sd_base_15_0 : Z;
  sd_base_23_16 : Z;
  sd_type : Z;
  sd_s : Z;
  sd_dpl : Z;
  sd_p : Z;
  sd_lim_19_16 : Z;
  sd_avl : Z;
  sd_rsv1 : Z;
  sd_db : Z;
  sd_g : Z;
  sd_base_31_24 : Z
}.
Definition eta_segdesc (r : segdesc) : segdesc := mk_segdesc (sd_lim_15_0 r) (sd_base_15_0 r) (sd_base_23_16 r) (sd_type r) (sd_s r)
  (sd_dpl r) (sd_p r) (sd_lim_19_16 r) (sd_avl r) (sd_rsv1 r) (sd_db r) (sd_g r) (sd_base_31_24 r).
#[global] Instance set_sd_s : Setter sd_s := ltac:(mk_setter eta_segdesc sd_s).

Definition SEG (type base lim dpl : Z) : segdesc :=
  mk_segdesc (Z.land (Z.shiftr lim 12) 0xffff) (Z.land (u32 base) 0xffff) (Z.land (Z.shiftr (u32 base) 16) 0xff) type 1 dpl 1
    (Z.shiftr (u32 lim) 28) 0 0 1 1 (Z.shiftr (u32 base) 24).

Definition SEG16 (type base lim dpl : Z) : segdesc :=
  mk_segdesc (Z.land lim 0xffff) (Z.land (u32 base) 0xffff) (Z.land (Z.shiftr (u32 base) 16) 0xff) type 1 dpl 1
    (Z.shiftr (u32 lim) 16) 0 0 1 0 (Z.shiftr (u32 base) 24).

Record taskstate := mk_taskstate {
  ts_link : Z; ts_esp0 : Z; ts_ss0 : Z; ts_esp1 : Z; ts_ss1 : Z; ts_esp2 : Z; ts_ss2 : Z; ts_cr3 : Z; ts_eip : Z; ts_eflags : Z;
  ts_eax : Z; ts_ecx : Z; ts_edx : Z; ts_ebx : Z; ts_esp : Z; ts_ebp : Z; ts_esi : Z; ts_edi : Z;
  ts_es : Z; ts_cs : Z; ts_ss : Z; ts_ds : Z; ts_fs : Z; ts_gs : Z; ts_ldt : Z; ts_t : Z; ts_iomb : Z
}.
Definition eta_taskstate (r : taskstate) : taskstate := mk_taskstate (ts_link r) (ts_esp0 r) (ts_ss0 r) (ts_esp1 r) (ts_ss1 r) (ts_esp2 r)
  (ts_ss2 r) (ts_cr3 r) (ts_eip r) (ts_eflags r) (ts_eax r) (ts_ecx r) (ts_edx r) (ts_ebx r) (ts_esp r) (ts_ebp r) (ts_esi r) (ts_edi r)
  (ts_es r) (ts_cs r) (ts_ss r) (ts_ds r) (ts_fs r) (ts_gs r) (ts_ldt r) (ts_t r) (ts_iomb r).
#[global] Instance set_ts_esp0 : Setter ts_esp0 := ltac:(mk_setter eta_taskstate ts_esp0).
#[global] Instance set_ts_ss0 : Setter ts_ss0 := ltac:(mk_setter eta_taskstate ts_ss0).
#[global] Instance set_ts_iomb : Setter ts_iomb := ltac:(mk_setter eta_taskstate ts_iomb).
Definition sizeof_taskstate : Z := 104.

Record gatedesc := mk_gatedesc {
  gd_off_15_0 : Z;
  gd_cs : Z;
  gd_args : Z;
  gd_rsv1 : Z;
  gd_type : Z;
  gd_s : Z;
  gd_dpl : Z;
  gd_p : Z;
  gd_off_31_16 : Z
}.

Definition SETGATE (istrap : bool) (sel off d : Z) : gatedesc :=
  mk_gatedesc (Z.land (u32 off) 0xffff) sel 0 0 (if istrap then STS_TG32 else STS_IG32) 0 d 1 (Z.shiftr (u32 off) 16).

(** ** The layout in memory *)

(** Bit-fields, each cut to its width, from the low bits up. *)
Fixpoint pack (fs : list (Z * Z)) : Z :=
  match fs with
  | [] => 0
  | (v, w) :: fs' => v mod 2 ^ w + 2 ^ w * pack fs'
  end.

Definition segdesc_word (d : segdesc) : Z :=
  pack [(sd_lim_15_0 d, 16); (sd_base_15_0 d, 16); (sd_base_23_16 d, 8); (sd_type d, 4); (sd_s d, 1); (sd_dpl d, 2); (sd_p d, 1);
        (sd_lim_19_16 d, 4); (sd_avl d, 1); (sd_rsv1 d, 1); (sd_db d, 1); (sd_g d, 1); (sd_base_31_24 d, 8)].

Definition gatedesc_word (d : gatedesc) : Z :=
  pack [(gd_off_15_0 d, 16); (gd_cs d, 16); (gd_args d, 5); (gd_rsv1 d, 3); (gd_type d, 4); (gd_s d, 1); (gd_dpl d, 2); (gd_p d, 1);
        (gd_off_31_16 d, 16)].

(** ** The processor's reading of a descriptor *)

Definition bits (lo n w : Z) : Z := (w / 2 ^ lo) mod 2 ^ n.

Record segment := mk_segment { sg_base : Z; sg_limit : Z; sg_type : Z; sg_app : Z; sg_dpl : Z; sg_present : Z; sg_32bit : Z }.

Definition read_segment (w : Z) : segment :=
  let limit := bits 0 16 w + 2 ^ 16 * bits 48 4 w in
  mk_segment (bits 16 16 w + 2 ^ 16 * bits 32 8 w + 2 ^ 24 * bits 56 8 w)
    (if bits 55 1 w =? 0 then limit else 4096 * limit + 4095)
    (bits 40 4 w) (bits 44 1 w) (bits 45 2 w) (bits 47 1 w) (bits 54 1 w).

Record gate := mk_gate { gt_off : Z; gt_sel : Z; gt_type : Z; gt_app : Z; gt_dpl : Z; gt_present : Z }.

Definition read_gate (w : Z) : gate :=
  mk_gate (bits 0 16 w + 2 ^ 16 * bits 48 16 w) (bits 16 16 w) (bits 40 4 w) (bits 44 1 w) (bits 45 2 w) (bits 47 1 w).

(** The bit-field of width [n] at bit [lo]. *)
Fixpoint field (lo n : Z) (fs : list (Z * Z)) : option Z :=
  match fs with
  | [] => None
  | (v, w) :: fs' => if w <=? 0 then None else if lo =? 0 then if n =? w then Some (v mod 2 ^ w) else None else if lo <? w then None else field (lo - w) n fs'
  end.

Lemma bits_field fs : forall lo n v, field lo n fs = Some v -> bits lo n (pack fs) = v.
Proof.
  induction fs as [|[x w] fs IH]; intros lo n v H; cbn [field] in H; [done|].
  destruct (Z.leb_spec w 0); [done|]. unfold bits. cbn [pack]. pose proof (Z.mod_pos_bound x (2 ^ w) ltac:(lia)).
  destruct (Z.eqb_spec lo 0) as [->|Hlo].
  - destruct (Z.eqb_spec n w) as [->|]; [|done]. injection H as <-. rewrite Z.div_1_r, Z.mul_comm, Z.mod_add, Z.mod_mod by lia. reflexivity.
  - destruct (Z.ltb_spec lo w); [done|]. rewrite <- (IH _ _ _ H). unfold bits. f_equal.
    replace (2 ^ lo) with (2 ^ w * 2 ^ (lo - w)) by (rewrite <- Z.pow_add_r by lia; f_equal; lia).
    rewrite <- Z.div_div by lia. f_equal. rewrite Z.add_comm, Z.mul_comm, Z.div_add_l, Z.div_small by lia. lia.
Qed.

Ltac unpack := repeat (erewrite bits_field by reflexivity).

Lemma u32_halves x : (Z.land (u32 x) 0xffff) mod 2 ^ 16 + 2 ^ 16 * ((Z.shiftr (u32 x) 16) mod 2 ^ 16) = u32 x.
Proof. change 0xffff with (Z.ones 16). rewrite Z.land_ones, Z.shiftr_div_pow2 by lia. word_lia. Qed.

Lemma u32_thirds x : (Z.land (u32 x) 0xffff) mod 2 ^ 16 + 2 ^ 16 * ((Z.land (Z.shiftr (u32 x) 16) 0xff) mod 2 ^ 8) +
  2 ^ 24 * ((Z.shiftr (u32 x) 24) mod 2 ^ 8) = u32 x.
Proof.
  change 0xffff with (Z.ones 16). change 0xff with (Z.ones 8). rewrite !Z.land_ones, !Z.shiftr_div_pow2 by lia. word_lia.
Qed.

(** A descriptor made by SEG: base, limit with its low twelve bits set, type and privilege level. *)
Lemma read_SEG type base lim dpl : is_u32 lim -> 0 <= type < 16 -> 0 <= dpl < 4 ->
  read_segment (segdesc_word (SEG type base lim dpl)) = mk_segment (u32 base) (4096 * (lim / 4096) + 4095) type 1 dpl 1 1.
Proof.
  intros Hl Ht Hd. unfold read_segment, segdesc_word. unpack. unfold SEG.
  cbn [sd_lim_15_0 sd_base_15_0 sd_base_23_16 sd_type sd_s sd_dpl sd_p sd_lim_19_16 sd_db sd_g sd_base_31_24].
  rewrite u32_thirds, (Z.mod_small type), (Z.mod_small dpl) by lia. f_equal. change (1 mod 2 ^ 1 =? 0) with false. cbn iota.
  change 0xffff with (Z.ones 16). rewrite Z.land_ones, !Z.shiftr_div_pow2, (u32_small lim) by (lia || done). unfold is_u32 in Hl. word_lia.
Qed.

(** A descriptor made by SEG16 and turned into a system descriptor, as switchuvm does for the task
    state: the limit is in bytes. *)
Lemma read_SEG16 type base lim dpl : 0 <= lim < 2 ^ 20 -> 0 <= type < 16 -> 0 <= dpl < 4 ->
  read_segment (segdesc_word ((SEG16 type base lim dpl) <| sd_s := 0 |>)) = mk_segment (u32 base) lim type 0 dpl 1 1.
Proof.
  intros Hl Ht Hd. unfold read_segment, segdesc_word. unpack. unfold SEG16.
  cbn [setf set_sd_s sd_lim_15_0 sd_base_15_0 sd_base_23_16 sd_type sd_s sd_dpl sd_p sd_lim_19_16 sd_db sd_g sd_base_31_24].
  rewrite u32_thirds, (Z.mod_small type), (Z.mod_small dpl) by lia. f_equal. change (0 mod 2 ^ 1 =? 0) with true. cbn iota.
  change 0xffff with (Z.ones 16). rewrite Z.land_ones, !Z.shiftr_div_pow2, (u32_small lim) by (unfold is_u32; lia). word_lia.
Qed.

(** A gate made by SETGATE: entry point, selector, kind and privilege level. *)
Lemma read_SETGATE istrap sel off d : 0 <= sel < 2 ^ 16 -> 0 <= d < 4 ->
  read_gate (gatedesc_word (SETGATE istrap sel off d)) = mk_gate (u32 off) sel (if istrap then STS_TG32 else STS_IG32) 0 d 1.
Proof.
  intros Hs Hd. unfold read_gate, gatedesc_word. unpack. unfold SETGATE.
  cbn [gd_off_15_0 gd_cs gd_type gd_s gd_dpl gd_p gd_off_31_16]. rewrite u32_halves, (Z.mod_small sel), (Z.mod_small d) by lia.
  f_equal. now destruct istrap.
Qed.
