(* ===== verification/Cons.v ===== *)
(** Console output: printint, cprintf, cgaputc and consputc of console.c. *)

From stdpp Require Import base list gmap strings numbers.
From Stdlib Require Import ZArith Lia.
From S2P Require Import Prelude Bytes Itoa Kstate.
Open Scope Z_scope.

Definition BACKSPACE : Z := 0x100.

(** The CGA text screen: 80 columns, 25 rows (the model's memory is the 2000
    cells of the page). *)
Definition crt_put (pos v : Z) : K unit :=
  crt ← gets k_crt;
  if (0 <=? pos) && (Z.to_nat pos <? length crt)%nat
  then modify (fun s => s <| k_crt := <[Z.to_nat pos := v]> crt |>)
  else fault "crt".

Definition crt_scroll (crt : list Z) (pos : Z) : list Z :=
  let moved := take (Z.to_nat (23 * 80)) (drop 80 crt) ++ drop (Z.to_nat (23 * 80)) crt in
  take (Z.to_nat pos) moved ++ replicate (Z.to_nat (24 * 80 - pos)) 0 ++ drop (Z.to_nat (24 * 80)) moved.

Definition cgaputc (c : Z) : K unit :=
  pos ← gets k_crtpos;
  pos ← (if c =? 10 then ret (pos + (80 - pos mod 80))
         else if c =? BACKSPACE then ret (if 0 <? pos then pos - 1 else pos)
         else crt_put pos (Z.lor (Z.land c 0xff) 0x0700) ;; ret (pos + 1));
  if (pos <? 0) || (25 * 80 <? pos) then panic "pos under/overflow" else
  pos ← (if 24 <=? pos / 80 then
           modify (fun s => s <| k_crt := crt_scroll (k_crt s) (pos - 80) |>) ;; ret (pos - 80)
         else ret pos);
  modify (fun s => s <| k_crtpos := pos |>) ;;
  crt_put pos (Z.lor 32 0x0700).

(** The serial port, taken to be present: the byte written to COM1 joins the output history. *)
Definition uartputc (c : Z) : K unit := modify (fun s => s <| k_conout := k_conout s ++ [u8 c] |>).

(** [panicked] is set only by panic(), which ends the run. *)
Definition consputc (c : Z) : K unit :=
  (if c =? BACKSPACE then uartputc 8 ;; uartputc 32 ;; uartputc 8 else uartputc c) ;;
  cgaputc c.

Definition digits : list Z := str "0123456789abcdef".

Definition printint (xx base : Z) (sign : bool) : K unit :=
  cs ← of_opt "printint" (printint_chars digits xx base (sign && (xx <? 0)));
  for_ cs consputc.

(** The words that follow the format on the stack. *)
Inductive carg := AInt (x : Z) | AStr (s : option (list Z)).

Fixpoint cprintf_loop (fmt : list Z) (args : list carg) : K unit :=
  match fmt with
  | [] => ret tt
  | c :: fmt' =>
    if negb (c =? 37) then consputc c ;; cprintf_loop fmt' args else
    match fmt' with
    | [] => ret tt
    | c :: fmt' =>
      if c =? 100 then
        match args with
        | AInt x :: args' => printint x 10 true ;; cprintf_loop fmt' args'
        | _ => fault "cprintf"
        end
      else if (c =? 120) || (c =? 112) then
        match args with
        | AInt x :: args' => printint x 16 false ;; cprintf_loop fmt' args'
        | _ => fault "cprintf"
        end
      else if c =? 115 then
        match args with
        | AStr o :: args' =>
          for_ (default (str "(null)") o) consputc ;; cprintf_loop fmt' args'
        | _ => fault "cprintf"
        end
      else if c =? 37 then consputc 37 ;; cprintf_loop fmt' args
      else consputc 37 ;; consputc c ;; cprintf_loop fmt' args
    end
  end.

(** [cons.locking] is set by consoleinit and cleared only by panic(). *)
Definition cprintf (fmt : list Z) (args : list carg) : K unit :=
  locking ← gets k_devsw;
  when locking (acquire LCons) ;;
  cprintf_loop fmt args ;;
  when locking (release LCons).
