(* ===== verification/Kalloc.v ===== *)
(** The physical page allocator, kalloc.c.

    The free list is threaded through the free pages themselves: the first
    word of a free page holds the address of the next one, as in the C code.
    [free_list s l] says that the list starting at [kmem.freelist] holds
    exactly the pages [l]. *)

From stdpp Require Import base list gmap strings numbers.
From Stdlib Require Import ZArith Lia.
From S2P Require Import Prelude Bytes Kstate Mmu.
Open Scope Z_scope.

(** ** kalloc.c *)

Definition kmem_acquire : K unit := u ← gets k_uselock; when (negb (u =? 0)) (acquire LKmem).
Definition kmem_release : K unit := u ← gets k_uselock; when (negb (u =? 0)) (release LKmem).

Definition kfree (v : Z) : K unit :=
  e ← gets (fun s => sym_end (k_sym s));
  if negb (v mod PGSIZE =? 0) || (v <? e) || (PHYSTOP <=? V2P v) then panic "kfree" else
  fill_page v 0x01010101 ;;
  kmem_acquire ;;
  next ← gets k_freelist;
  store32 v next ;;
  modify (fun s => s <| k_freelist := v |>) ;;
  kmem_release.

Definition kalloc : K Z :=
  kmem_acquire ;;
  r ← gets k_freelist;
  (if r =? 0 then ret tt else
     next ← load32 r;
     modify (fun s => s <| k_freelist := next |>)) ;;
  kmem_release ;;
  ret r.

(** The loop of freerange, with [n] the number of pages that fit. *)
Fixpoint freerange_loop (n : nat) (p vend : Z) : K unit :=
  if p + PGSIZE <=? vend then
    match n with
    | O => nofuel
    | S n' => kfree p ;; freerange_loop n' (p + PGSIZE) vend
    end
  else ret tt.

Definition freerange (vstart vend : Z) : K unit :=
  let p := PGROUNDUP vstart in
  freerange_loop (Z.to_nat ((vend - p) / PGSIZE)) p vend.

Definition kinit1 (vstart vend : Z) : K unit :=
  modify (fun s => s <| k_uselock := 0 |>) ;; freerange vstart vend.

Definition kinit2 (vstart vend : Z) : K unit :=
  freerange vstart vend ;; modify (fun s => s <| k_uselock := 1 |>).

(** ** The free list *)

(** The addresses kfree accepts. *)
Definition kpage (e p : Z) : Prop :=
  p mod PGSIZE = 0 /\ e <= p /\ 0 < p /\ V2P p < PHYSTOP.

(** The list that starts at [a] and is linked by the first words of the pages. *)
Fixpoint chain (e : Z) (mem : gmap Z (list Z)) (a : Z) (l : list Z) : Prop :=
  match l with
  | [] => a = 0
  | p :: l' => a = p /\ kpage e p /\
      exists n pg, mem !! p = Some (n :: pg) /\ length pg = 1023%nat /\ chain e mem n l'
  end.

Definition free_list (s : kstate) (l : list Z) : Prop :=
  chain (sym_end (k_sym s)) (k_mem s) (k_freelist s) l /\ NoDup l.

(** kmem.lock is free whenever the allocator uses it. *)
Definition kmem_idle (s : kstate) : Prop := k_uselock s = 0 \/ LKmem ∉ k_held s.

Lemma chain_frame e mem p pg a l :
  p ∉ l -> chain e mem a l -> chain e (<[p := pg]> mem) a l.
Proof.
  revert a. induction l as [|q l IH]; intros a Hp; simpl; [done|].
  intros (-> & Hq & n & pg' & Hl & Hlen & Hc). apply not_elem_of_cons in Hp as [Hne Hp].
  split; [done|]. split; [done|]. exists n, pg'. rewrite lookup_insert_ne by done. eauto.
Qed.

Lemma page_of_page p : p mod PGSIZE = 0 -> page_of p = p.
Proof. unfold page_of, PGSIZE. lia. Qed.
Lemma word_of_page p : p mod PGSIZE = 0 -> word_of p = 0%nat.
Proof. unfold word_of, PGSIZE. intros ->. reflexivity. Qed.

(** Running [m] under kmem.lock, taken only when use_lock is set, is running [m]. *)
Lemma wp_kmem_acquire Q s :
  kmem_idle s ->
  Q tt (if k_uselock s =? 0 then s else s <| k_held := LKmem :: k_held s |>) ->
  wp kmem_acquire Q s.
Proof.
  intros Hi HQ. unfold kmem_acquire. wp_steps. apply wp_when.
  - intros Hu. apply wp_acquire; [|now destruct (k_uselock s =? 0)].
    destruct Hi as [Hi|Hi]; [|done]. now rewrite Hi in Hu.
  - intros Hu. now destruct (k_uselock s =? 0).
Qed.

(** The state after kfree: junk, then the link, in the page. *)
Definition kfree_post (v : Z) (s : kstate) : kstate :=
  s <| k_mem := <[v := k_freelist s :: replicate 1023 0x01010101]> (k_mem s) |>
    <| k_freelist := v |>.

Lemma kfree_eq v s :
  kpage (sym_end (k_sym s)) v -> kmem_idle s -> kfree v s = Ok tt (kfree_post v s).
Proof.
  intros (Hm & He & _ & Hp) Hi.
  enough (wp (kfree v) (fun _ s' => s' = kfree_post v s) s) as H.
  { apply wp_ok in H as ([] & s' & -> & ->). reflexivity. }
  unfold kfree. wp_steps. apply wp_if_false.
  { rewrite Hm. simpl. apply orb_false_iff. split; apply Z.ltb_ge || apply Z.leb_gt; lia. }
  unfold fill_page. wp_steps. apply wp_kmem_acquire; [exact Hi|].
  simpl k_uselock. destruct (Z.eqb_spec (k_uselock s) 0) as [E|E]; wp_steps;
    (eapply wp_store32; [rewrite page_of_page by done; apply lookup_insert_eq|]);
    wp_steps; unfold kmem_release; wp_steps; simpl k_uselock.
  - apply wp_when; [rewrite E; done|]. intros _.
    rewrite page_of_page, word_of_page by done. unfold kfree_post.
    destruct s. cbn. now rewrite insert_insert_eq.
  - apply wp_when; [|intros Hz; apply negb_false_iff, Z.eqb_eq in Hz; done]. intros _.
    apply wp_release; [simpl; set_solver|].
    rewrite page_of_page, word_of_page by done. unfold kfree_post.
    destruct s. cbn. rewrite decide_True by done. now rewrite insert_insert_eq.
Qed.

Lemma free_list_kfree v s l :
  kpage (sym_end (k_sym s)) v -> v ∉ l -> free_list s l -> free_list (kfree_post v s) (v :: l).
Proof.
  intros Hv Hn [Hc Hd]. split; [|now constructor].
  split; [done|]. split; [exact Hv|].
  exists (k_freelist s), (replicate 1023 0x01010101). cbn [kfree_post k_mem].
  split; [apply lookup_insert_eq|]. split; [apply length_replicate|].
  now apply chain_frame.
Qed.

(** The first word of the page at the head of the list is its tail. *)
Definition kalloc_post (l : list Z) (s : kstate) : kstate :=
  match l with [] => s | _ :: l' => s <| k_freelist := default 0 (head l') |> end.

Lemma chain_head e mem a l : chain e mem a l -> a = default 0 (head l).
Proof. destruct l; simpl; naive_solver. Qed.

Lemma kalloc_eq s l :
  free_list s l -> kmem_idle s -> kalloc s = Ok (default 0 (head l)) (kalloc_post l s).
Proof.
  intros [Hc _] Hi.
  enough (wp kalloc (fun r s' => r = default 0 (head l) /\ s' = kalloc_post l s) s) as H.
  { apply wp_ok in H as (r & s' & -> & -> & ->). reflexivity. }
  unfold kalloc. wp_steps. apply wp_kmem_acquire; [exact Hi|].
  destruct l as [|p l]; simpl in Hc.
  - destruct (Z.eqb_spec (k_uselock s) 0) as [E|E]; wp_steps; simpl k_freelist; rewrite Hc;
      simpl; wp_steps; unfold kmem_release; wp_steps; simpl k_uselock.
    + now rewrite E.
    + apply wp_when; [|intros Hz; apply negb_false_iff, Z.eqb_eq in Hz; done]. intros _.
      apply wp_release; [simpl; set_solver|]. wp_steps. split; [done|].
      destruct s. cbn. now rewrite decide_True.
  - destruct Hc as (Hf & (Hm & _ & Hpos & _) & n & pg & Hl & _ & Hc).
    apply chain_head in Hc as Hn.
    destruct (Z.eqb_spec (k_uselock s) 0) as [E|E]; wp_steps; simpl k_freelist; rewrite Hf;
      (apply wp_if_false; [lia|]); wp_steps;
      (eapply wp_load32; [rewrite page_of_page by done; exact Hl
                         |rewrite word_of_page by done; reflexivity|]);
      wp_steps; unfold kmem_release; wp_steps; simpl k_uselock.
    + rewrite E. cbn. wp_steps. split; [done|]. now rewrite Hn.
    + apply wp_when; [|intros Hz; apply negb_false_iff, Z.eqb_eq in Hz; done]. intros _.
      apply wp_release; [simpl; set_solver|]. wp_steps. split; [done|].
      rewrite Hn. destruct s. cbn. now rewrite decide_True.
Qed.

Lemma free_list_kalloc s p l :
  free_list s (p :: l) -> free_list (kalloc_post (p :: l) s) l.
Proof.
  intros [(_ & _ & n & pg & _ & _ & Hc) Hd]. apply list.NoDup_cons in Hd as [_ Hd].
  split; [|exact Hd]. cbn. apply chain_head in Hc as Hn. now rewrite <- Hn.
Qed.

Lemma free_list_kpage s l p : free_list s l -> p ∈ l -> kpage (sym_end (k_sym s)) p.
Proof.
  intros [Hc _]. revert Hc. generalize (k_freelist s). induction l as [|q l IH]; intros a.
  { set_solver. }
  intros (_ & Hq & n & pg & _ & _ & Hc). intros [->|Hp]%elem_of_cons; eauto.
Qed.

(** ** Clients

    A client allocates pages and frees pages it owns (the [i]-th one). *)
Inductive aop := AAlloc | AFree (i : nat).

Fixpoint client (ops : list aop) (owned : list Z) : K (list Z) :=
  match ops with
  | [] => ret owned
  | AAlloc :: ops' => r ← kalloc; client ops' (if r =? 0 then owned else r :: owned)
  | AFree i :: ops' =>
    match owned !! i with
    | Some p => kfree p ;; client ops' (delete i owned)
    | None => client ops' owned
    end
  end.

Definition all_pages (s : kstate) (owned l : list Z) : Prop :=
  free_list s l /\ kmem_idle s /\ NoDup (owned ++ l) /\
  Forall (kpage (sym_end (k_sym s))) owned.

Lemma all_pages_alloc s owned p l :
  all_pages s owned (p :: l) -> all_pages (kalloc_post (p :: l) s) (p :: owned) l.
Proof.
  intros (Hf & Hi & Hd & Ho). split; [now apply free_list_kalloc in Hf|].
  split; [exact Hi|]. split.
  - rewrite <- Permutation_middle in Hd. exact Hd.
  - constructor; [|exact Ho]. apply (free_list_kpage s _ p Hf). left.
Qed.

Lemma all_pages_free s owned i p l :
  owned !! i = Some p -> all_pages s owned l ->
  all_pages (kfree_post p s) (delete i owned) (p :: l) /\
  delete i owned ++ p :: l ≡ₚ owned ++ l.
Proof.
  intros Hp (Hf & Hi & Hd & Ho).
  assert (delete i owned ++ p :: l ≡ₚ owned ++ l) as Hperm.
  { rewrite (delete_Permutation owned i p Hp) at 2. now rewrite <- Permutation_middle. }
  split; [|exact Hperm]. split; [|split; [exact Hi|split]].
  - apply free_list_kfree; [|apply list.NoDup_app in Hd as (_ & Hd & _)|exact Hf].
    + eapply Forall_lookup_1; eauto.
    + apply Hd. now apply list_elem_of_lookup_2 in Hp.
  - now rewrite Hperm.
  - apply Forall_delete. exact Ho.
Qed.

(** C26: whatever sequence of kalloc and kfree calls a client makes, freeing only pages it was
    given, the allocator neither panics nor blocks, never hands out a page that is in use, and
    neither loses nor invents a page: the pages owned and the free pages stay a permutation of
    the ones there were. *)
Theorem kalloc_conserves_pages ops : forall owned s l,
  all_pages s owned l ->
  wp (client ops owned)
     (fun owned' s' => exists l', all_pages s' owned' l' /\ owned' ++ l' ≡ₚ owned ++ l) s.
Proof.
  induction ops as [|[|i] ops IH]; intros owned s l Ha; simpl.
  - apply wp_ret. eauto.
  - apply wp_bind. pose proof Ha as (Hf & Hi & Hd & Ho).
    eapply wp_eq; [exact (kalloc_eq s l Hf Hi)|].
    destruct l as [|p l]; simpl.
    + now apply IH.
    + destruct (free_list_kpage s _ p Hf ltac:(left)) as (_ & _ & Hp & _).
      rewrite (proj2 (Z.eqb_neq p 0)) by lia.
      eapply wp_mono; [apply (IH (p :: owned) _ l); now apply all_pages_alloc|].
      intros o' s' (l' & Hs & Hperm). exists l'. split; [exact Hs|].
      rewrite Hperm. simpl. apply Permutation_middle.
  - destruct (owned !! i) as [p|] eqn:Hp; [|now apply IH].
    destruct (all_pages_free s owned i p l Hp Ha) as [Ha' Hperm].
    apply wp_bind. destruct Ha as (_ & Hi & _ & Ho).
    eapply wp_eq; [apply kfree_eq; [eapply Forall_lookup_1; eauto|exact Hi]|].
    eapply wp_mono; [exact (IH _ _ (p :: l) Ha')|]. intros o' s' (l' & Hs & Hperm'). exists l'.
    split; [exact Hs|]. now rewrite Hperm'.
Qed.

(** ** freerange *)

Definition page_range (p : Z) (n : nat) : list Z := (fun i => p + PGSIZE * Z.of_nat i) <$> seq 0 n.

Lemma page_range_S p n : page_range p (S n) = p :: page_range (p + PGSIZE) n.
Proof.
  unfold page_range. rewrite <- cons_seq, fmap_cons. f_equal; [lia|].
  rewrite <- fmap_S_seq, <- list_fmap_compose. apply list_fmap_ext. intros i x _. simpl. lia.
Qed.

Lemma page_range_ge p n x : x ∈ page_range p n -> p <= x.
Proof. unfold page_range. intros (i & -> & _)%list_elem_of_fmap. unfold PGSIZE. lia. Qed.

Lemma freerange_loop_ok n : forall p vend s l,
  p mod PGSIZE = 0 -> p + PGSIZE * Z.of_nat n <= vend < p + PGSIZE * Z.of_nat n + PGSIZE ->
  sym_end (k_sym s) <= p -> KERNBASE < p -> vend <= KERNBASE + PHYSTOP ->
  free_list s l -> kmem_idle s -> (forall x, x ∈ l -> x < p \/ vend <= x) ->
  wp (freerange_loop n p vend)
     (fun _ s' => free_list s' (reverse (page_range p n) ++ l) /\ kmem_idle s') s.
Proof.
  induction n as [|n IH]; intros p vend s l Hm Hv He Hk Hp Hf Hi Hl; simpl.
  { apply wp_if_false; [unfold PGSIZE in *; lia|]. apply wp_ret. auto. }
  apply wp_if_true; [unfold PGSIZE in *; lia|].
  assert (kpage (sym_end (k_sym s)) p) as Hkp.
  { unfold kpage, V2P, PHYSTOP, KERNBASE, PGSIZE in *. word_lia. }
  apply wp_bind. eapply wp_eq; [now apply kfree_eq|].
  rewrite page_range_S, reverse_cons, <- (assoc_L (++)). simpl.
  apply IH; try exact Hi; unfold PGSIZE in *; simpl; try div_lia.
  - apply free_list_kfree; [exact Hkp|naive_solver lia|exact Hf].
  - intros x [->|Hx]%elem_of_cons; [lia|]. specialize (Hl x Hx). lia.
Qed.

(** freerange puts every whole page of [vstart, vend) on the free list, the highest one
    first, and terminates; kinit1 and kinit2 call it with ranges above the kernel. *)
Theorem freerange_frees vstart vend s l :
  KERNBASE < vstart -> vend <= KERNBASE + PHYSTOP -> vstart + PGSIZE <= vend ->
  sym_end (k_sym s) <= vstart ->
  free_list s l -> kmem_idle s -> (forall x, x ∈ l -> x < vstart \/ vend <= x) ->
  wp (freerange vstart vend)
     (fun _ s' => let p := PGROUNDUP vstart in
        free_list s' (reverse (page_range p (Z.to_nat ((vend - p) / PGSIZE))) ++ l) /\
        kmem_idle s') s.
Proof.
  intros Hk Hp Hlt He Hf Hi Hl. unfold freerange.
  assert (PGROUNDUP vstart mod PGSIZE = 0 /\ vstart <= PGROUNDUP vstart < vstart + PGSIZE) as [Hm Hr].
  { rewrite PGROUNDUP_spec by (unfold KERNBASE, PHYSTOP, PGSIZE in *; lia).
    unfold PGSIZE. div_lia. }
  apply freerange_loop_ok; auto; unfold PGSIZE in *; try lia.
  - rewrite Z2Nat.id by (apply Z.div_pos; lia). div_lia.
  - intros x Hx. destruct (Hl x Hx); lia.
Qed.

(** ** Witnesses *)

(** A state with [l] on the free list. *)
Fixpoint link_pages (l : list Z) : gmap Z (list Z) :=
  match l with
  | [] => ∅
  | p :: l' => <[p := default 0 (head l') :: replicate 1023 0]> (link_pages l')
  end.
Definition pages_state (l : list Z) : kstate :=
  (boot_state (mk_symbols 0x80110000 0x80108000 0x80103000 0x80105000) ∅)
    <| k_mem := link_pages l |> <| k_freelist := default 0 (head l) |>.

Lemma kpage_dec_ok e p :
  (p mod PGSIZE =? 0) && (e <=? p) && (0 <? p) && (V2P p <? PHYSTOP) = true -> kpage e p.
Proof. unfold kpage. intros H. repeat apply andb_prop in H as [H ?]. lia. Qed.

Lemma kalloc_conserves_pages_witness :
  let l := [0x80200000; 0x80201000] in
  all_pages (pages_state l) [0x80202000] l /\
  wp (client [AAlloc; AFree 0; AAlloc; AAlloc; AAlloc; AFree 2] [0x80202000])
     (fun owned' s' => exists l', all_pages s' owned' l' /\
        owned' ++ l' ≡ₚ [0x80202000] ++ l) (pages_state l).
Proof.
  intros l. assert (all_pages (pages_state l) [0x80202000] l) as H.
  { split; [split|split; [|split]].
    - simpl. split; [done|]. split; [now apply kpage_dec_ok|].
      exists 0x80201000, (replicate 1023 0). split; [reflexivity|]. split; [reflexivity|].
      split; [done|]. split; [now apply kpage_dec_ok|].
      exists 0, (replicate 1023 0). split; [reflexivity|]. split; reflexivity.
    - apply (bool_decide_unpack _). reflexivity.
    - left. reflexivity.
    - apply (bool_decide_unpack _). reflexivity.
    - constructor; [now apply kpage_dec_ok|constructor]. }
  split; [exact H|]. apply (kalloc_conserves_pages _ _ _ _ H).
Defined.

Lemma freerange_frees_witness :
  wp (freerange 0x80111234 0x80114000)
     (fun _ s' => let p := PGROUNDUP 0x80111234 in
        free_list s' (reverse (page_range p (Z.to_nat ((0x80114000 - p) / PGSIZE))) ++ []) /\
        kmem_idle s') (pages_state []).
Proof.
  apply freerange_frees; try (unfold KERNBASE, PHYSTOP, PGSIZE; simpl; lia).
  - split; [reflexivity|constructor].
  - left. reflexivity.
  - intros x Hx. now apply not_elem_of_nil in Hx.
Defined.
