(* ===== verification/Sched.v ===== *)
(** Sleep and wakeup: the part of proc.c that every blocking component of
    the kernel calls (myproc, sched, sleep, wakeup1, wakeup, yield, kill), and
    sleeplock.c on top of it.

    A call that gives up the cpu ends in [Switch s]: [s] is the state at the
    swtch() into the scheduler, with ptable.lock held, as sched() demands.
    The loops `while(cond) sleep(chan, lk)` of the callers are written as one
    pass: the pass either finds [cond] false and goes on, or ends in [Switch],
    and a woken thread runs [sleep_resume] and then the same pass again. *)

From stdpp Require Import base list gmap strings numbers.
From Stdlib Require Import ZArith Lia.
From S2P Require Import Prelude Bytes Kstate.
Open Scope Z_scope.

(** ** proc.c *)

Definition myproc : K (option nat) := gets k_cur.

(** [myproc()] dereferenced. *)
Definition curproc : K nat := c ← myproc; of_opt "myproc() is null" c.

(** The cpu's interrupt flag is not part of the state: the locks of Kstate.v stand for locks held with interrupts off, which
    Spinlock.v proves of acquire and release. With ptable.lock held the check of FL_IF ("sched interruptible") therefore
    cannot fail and is left out, and so is the saving of intena, a variable of pushcli and popcli. *)
Definition sched {A} : K A :=
  i ← curproc;
  h ← holding LPtable;
  if negb h then panic "sched ptable.lock" else
  held ← gets k_held;
  if negb (length held =? 1)%nat then panic "sched locks" else
  p ← proc_at i;
  if bool_decide (p_state p = RUNNING) then panic "sched running" else
  fun s => Switch s.

Definition sleep {A} (c : chan) (lk : lockid) : K A :=
  me ← myproc;
  match me with
  | None => panic "sleep"
  | Some i =>
    (if bool_decide (lk = LPtable) then ret tt else acquire LPtable ;; release lk) ;;
    upd_proc i (fun p => p <| p_chan := c |> <| p_state := SLEEPING |>) ;;
    sched
  end.

(** The rest of sleep(), run when the scheduler switches back. *)
Definition sleep_resume (lk : lockid) : K unit :=
  i ← curproc;
  upd_proc i (fun p => p <| p_chan := ChNone |>) ;;
  if bool_decide (lk = LPtable) then ret tt else release LPtable ;; acquire lk.

Definition wake (c : chan) (p : proc) : proc :=
  if bool_decide (p_state p = SLEEPING) && bool_decide (p_chan p = c)
  then p <| p_state := RUNNABLE |> else p.

Definition wakeup1 (c : chan) : K unit :=
  modify (fun s => s <| k_procs := wake c <$> k_procs s |>).

Definition wakeup (c : chan) : K unit :=
  acquire LPtable ;; wakeup1 c ;; release LPtable.

Definition yield {A} : K A :=
  acquire LPtable ;;
  i ← curproc;
  upd_proc i (fun p => p <| p_state := RUNNABLE |>) ;;
  sched.

Definition kill (pid : Z) : K Z :=
  acquire LPtable ;;
  ps ← gets k_procs;
  match find_idx (fun p => p_pid p =? pid) ps with
  | Some i =>
    upd_proc i (fun p => p <| p_killed := 1 |>) ;;
    p ← proc_at i;
    (if bool_decide (p_state p = SLEEPING)
     then upd_proc i (fun p => p <| p_state := RUNNABLE |>) else ret tt) ;;
    release LPtable ;;
    ret 0
  | None => release LPtable ;; ret (-1)
  end.

(** ** sleeplock.c

    A sleeplock lives in a buffer or in an inode. *)

Definition sl_get (l : slid) : K sleeplock :=
  match l with
  | SLBuf i => b ← buf_at i; ret (b_lock b)
  | SLInode i => ip ← inode_at i; ret (i_lock ip)
  end.

Definition sl_set (l : slid) (v : sleeplock) : K unit :=
  match l with
  | SLBuf i => upd_buf i (fun b => b <| b_lock := v |>)
  | SLInode i => upd_inode i (fun ip => ip <| i_lock := v |>)
  end.

Definition initsleeplock (l : slid) : K unit := sl_set l (mk_sleeplock 0 0).

Definition mypid : K Z := i ← curproc; p ← proc_at i; ret (p_pid p).

Definition acquiresleep (l : slid) : K unit :=
  acquire (LSleep l) ;;
  v ← sl_get l;
  if negb (sl_locked v =? 0) then sleep (ChSleeplock l) (LSleep l) else
  pid ← mypid;
  sl_set l (mk_sleeplock 1 pid) ;;
  release (LSleep l).

Definition releasesleep (l : slid) : K unit :=
  acquire (LSleep l) ;;
  sl_set l (mk_sleeplock 0 0) ;;
  wakeup (ChSleeplock l) ;;
  release (LSleep l).

Definition holdingsleep (l : slid) : K bool :=
  acquire (LSleep l) ;;
  v ← sl_get l;
  pid ← mypid;
  release (LSleep l) ;;
  ret (negb (sl_locked v =? 0) && (sl_pid v =? pid)).

(** ** Rules *)

Lemma wp_curproc i (Q : nat -> kstate -> Prop) s : k_cur s = Some i -> Q i s -> wp curproc Q s.
Proof. intros Hc HQ. unfold curproc, myproc. wp_steps. exact HQ. Qed.

Lemma wakeup_eq c s :
  LPtable ∉ k_held s -> wakeup c s = Ok tt (s <| k_procs := wake c <$> k_procs s |>).
Proof.
  intros Hh. enough (wp (wakeup c) (fun _ s' => s' = s <| k_procs := wake c <$> k_procs s |>) s) as H.
  { now apply wp_ok in H as ([] & s' & -> & ->). }
  unfold wakeup, wakeup1. wp_steps. apply wp_acquire; [done|]. wp_steps.
  apply wp_release; [simpl; set_solver|]. destruct s. cbn. now rewrite decide_True.
Qed.

Lemma wp_wakeup c Q s :
  LPtable ∉ k_held s -> Q tt (s <| k_procs := wake c <$> k_procs s |>) -> wp (wakeup c) Q s.
Proof. intros Hh HQ. eapply wp_eq; [now apply wakeup_eq|exact HQ]. Qed.

(** The state at the swtch() of sleep(c, lk), called by process [i]. *)
Definition sleep_post (i : nat) (p : proc) (c : chan) (s : kstate) : kstate :=
  s <| k_held := [LPtable] |>
    <| k_procs := <[i := p <| p_chan := c |> <| p_state := SLEEPING |>]> (k_procs s) |>.

Lemma sleep_eq {A} i p c lk s :
  k_cur s = Some i -> k_procs s !! i = Some p -> k_held s = [lk] ->
  sleep (A := A) c lk s = Switch (sleep_post i p c s).
Proof.
  intros Hc Hp Hh. enough (wps (sleep (A := A) c lk) (fun _ _ => False)
                             (fun s' => s' = sleep_post i p c s) s) as H.
  { unfold wps in H. destruct (sleep c lk s); try done. now subst. }
  unfold sleep, myproc. wps_steps. rewrite Hc. apply wps_bind_wp.
  assert (forall Q, Q tt (s <| k_held := [LPtable] |>) ->
    wp (if bool_decide (lk = LPtable) then ret tt else acquire LPtable ;; release lk) Q s) as Hlk.
  { intros Q HQ. case_bool_decide as E.
    - subst lk. apply wp_ret. rewrite <- Hh, set_held_same in HQ. exact HQ.
    - apply wp_bind, wp_acquire; [rewrite Hh; set_solver|].
      apply wp_release; [simpl; rewrite Hh; set_solver|]. destruct s; simpl in *; subst.
      cbn. rewrite decide_False by done. now rewrite decide_True. }
  apply Hlk. wps_steps. apply (wp_upd_proc i _ p); [exact Hp|].
  unfold sched. apply wps_bind_wp, (wp_curproc i); [exact Hc|]. unfold holding. wps_steps.
  rewrite bool_decide_eq_true_2 by (simpl; set_solver). cbn [negb]. wps_steps. simpl length.
  apply wps_bind_wp. eapply wp_proc_at.
  { simpl. apply list_lookup_insert_eq. now apply lookup_lt_Some in Hp. }
  simpl. reflexivity.
Qed.

(** sleep and yield do not return before the scheduler switches back. *)
Lemma sleep_not_ok {A} c lk s (a : A) s' : sleep c lk s <> Ok a s'.
Proof.
  unfold sleep. intros H. apply bind_inv in H as (me & s1 & _ & H). destruct me as [i|]; [|done].
  apply bind_inv in H as (? & s2 & _ & H). apply bind_inv in H as (? & s3 & _ & H).
  unfold sched in H. apply bind_inv in H as (? & s4 & _ & H).
  apply bind_inv in H as (? & s5 & _ & H). destruct (negb _); [done|].
  apply bind_inv in H as (? & s6 & _ & H). destruct (negb _); [done|].
  apply bind_inv in H as (? & s7 & _ & H). now destruct (bool_decide _).
Qed.

(** No wakeup is lost: sleep(c, lk) gives up the cpu with ptable.lock held, lk released and
    the caller SLEEPING on c; a wakeup(c) by anyone who can take ptable.lock after that makes
    the caller RUNNABLE, and a wakeup of another channel leaves it asleep. *)
Theorem sleep_wakeup i p c lk s :
  k_cur s = Some i -> k_procs s !! i = Some p -> k_held s = [lk] ->
  exists s1, sleep (A := unit) c lk s = Switch s1 /\ k_held s1 = [LPtable] /\
    forall c' h, LPtable ∉ h ->
      exists s2 p2, wakeup c' (s1 <| k_held := h |>) = Ok tt s2 /\
        k_procs s2 !! i = Some p2 /\ k_held s2 = h /\ p_chan p2 = c /\
        p_state p2 = if bool_decide (c' = c) then RUNNABLE else SLEEPING.
Proof.
  intros Hc Hp Hh. exists (sleep_post i p c s). split; [now apply sleep_eq|].
  split; [done|]. intros c' h Hn. rewrite wakeup_eq by done. do 2 eexists. split; [done|].
  split.
  { simpl. rewrite list_lookup_fmap, list_lookup_insert_eq by (now apply lookup_lt_Some in Hp).
    reflexivity. }
  split; [done|]. unfold wake. simpl. case_bool_decide as E; case_bool_decide; simpl;
    try done; congruence.
Qed.

(** A process table with one running process in slot 0. *)
Definition running_proc : proc := zero_proc <| p_state := RUNNING |>.
Definition one_proc_state (p : proc) (h : list lockid) : kstate :=
  (boot_state (mk_symbols 0x80110000 0x80108000 0x80103000 0x80105000) ∅)
    <| k_procs := (p <| p_state := RUNNING |>) :: replicate 63 zero_proc |>
    <| k_cur := Some 0%nat |> <| k_held := h |>.

Lemma sleep_wakeup_witness :
  let s := one_proc_state zero_proc [LTicks] in
  exists s1, sleep (A := unit) ChTicks LTicks s = Switch s1 /\ k_held s1 = [LPtable] /\
    forall c' h, LPtable ∉ h ->
      exists s2 p2, wakeup c' (s1 <| k_held := h |>) = Ok tt s2 /\
        k_procs s2 !! 0%nat = Some p2 /\ k_held s2 = h /\ p_chan p2 = ChTicks /\
        p_state p2 = if bool_decide (c' = ChTicks) then RUNNABLE else SLEEPING.
Proof.
  apply (sleep_wakeup 0 (zero_proc <| p_state := RUNNING |>)); reflexivity.
Defined.

(** kill(pid) returns 0 exactly when some slot has that pid, and then marks the first such
    slot killed, wakes it if it sleeps, and changes nothing else; otherwise it returns -1 and
    changes nothing. *)
Theorem kill_spec pid s :
  LPtable ∉ k_held s ->
  match find_idx (fun p => p_pid p =? pid) (k_procs s) with
  | None => kill pid s = Ok (-1) s /\ forall p, p ∈ k_procs s -> p_pid p <> pid
  | Some i => exists p p', k_procs s !! i = Some p /\ p_pid p = pid /\
      kill pid s = Ok 0 (s <| k_procs := <[i := p']> (k_procs s) |>) /\
      p' = p <| p_killed := 1 |> <| p_state := p_state p' |> /\
      p_state p' = (if bool_decide (p_state p = SLEEPING) then RUNNABLE else p_state p)
  end.
Proof.
  intros Hh. destruct (find_idx _ _) as [i|] eqn:E.
  - pose proof (proj1 (find_idx_Some _ _ _) E) as [(p & Hp & Hpid) _].
    pose proof (find_idx_lt _ _ _ E) as Hlt.
    exists p, (if bool_decide (p_state p = SLEEPING) then p <| p_killed := 1 |> <| p_state := RUNNABLE |>
               else p <| p_killed := 1 |>).
    split; [done|]. split; [now apply Z.eqb_eq|]. split; [|now case_bool_decide].
    match goal with |- _ = Ok 0 ?s' => enough (wp (kill pid) (fun r x => r = 0 /\ x = s') s) as H end.
    { now apply wp_ok in H as (r & x & -> & -> & ->). }
    unfold kill. wp_steps. apply wp_acquire; [done|]. wp_steps. cbn [k_procs]. simpl k_procs.
    rewrite E. wp_steps. apply (wp_upd_proc i _ p); [exact Hp|]. wp_steps.
    eapply wp_proc_at; [simpl; apply list_lookup_insert_eq, Hlt|]. wp_steps.
    simpl p_state. case_bool_decide; wp_steps.
    + eapply wp_upd_proc; [simpl; apply list_lookup_insert_eq, Hlt|]. wp_steps.
      apply wp_release; [simpl; set_solver|]. wp_steps. split; [done|]. destruct s. cbn.
      rewrite decide_True by done. now rewrite list_insert_insert_eq.
    + apply wp_release; [simpl; set_solver|]. wp_steps. split; [done|]. destruct s. cbn.
      now rewrite decide_True.
  - split; [|now intros p Hp; apply Z.eqb_neq, (proj1 (find_idx_None _ _) E)].
    enough (wp (kill pid) (fun r x => r = -1 /\ x = s) s) as H.
    { now apply wp_ok in H as (r & x & -> & -> & ->). }
    unfold kill. wp_steps. apply wp_acquire; [done|]. wp_steps. simpl k_procs. rewrite E.
    wp_steps. apply wp_release; [simpl; set_solver|]. wp_steps. split; [done|].
    destruct s. cbn. now rewrite decide_True.
Qed.

Lemma kill_spec_witness :
  let s := one_proc_state (zero_proc <| p_pid := 7 |>) [] in
  (LPtable ∉ k_held s) /\ kill 7 s = Ok 0 (s <| k_procs :=
    (zero_proc <| p_pid := 7 |> <| p_state := RUNNING |> <| p_killed := 1 |>)
      :: replicate 63 zero_proc |>).
Proof.
  intros s. assert (LPtable ∉ k_held s) as H by apply not_elem_of_nil. split; [exact H|].
  destruct (kill_spec 7 s H) as (p & p' & Hp & _ & Hk & Hp' & Hs). simpl in Hp.
  injection Hp as Hp. rewrite Hk, Hp', Hs, <- Hp. reflexivity.
Defined.

(** ** Sleeplocks *)

(** The locks and the process a sleeplock operation needs. *)
Definition sl_ready (l : slid) (me : nat) (p : proc) (s : kstate) : Prop :=
  k_cur s = Some me /\ k_procs s !! me = Some p /\ (LSleep l ∉ k_held s) /\ (LPtable ∉ k_held s).

Lemma wp_mypid me p (Q : Z -> kstate -> Prop) s :
  k_cur s = Some me -> k_procs s !! me = Some p -> Q (p_pid p) s -> wp mypid Q s.
Proof.
  intros Hc Hp HQ. unfold mypid. wp_steps. apply (wp_curproc me); [done|]. wp_steps.
  apply (wp_proc_at me p); [done|]. now wp_steps.
Qed.

Section sleeplock_buf.
Context (i : nat) (b : buf) (me : nat) (p : proc) (s : kstate).
Hypothesis Hb : k_bufs s !! i = Some b.
Hypothesis Hr : sl_ready (SLBuf i) me p s.

Lemma wp_acquiresleep_buf Q :
  sl_locked (b_lock b) = 0 ->
  Q tt (s <| k_bufs := <[i := b <| b_lock := mk_sleeplock 1 (p_pid p) |>]> (k_bufs s) |>) ->
  wp (acquiresleep (SLBuf i)) Q s.
Proof.
  destruct Hr as (Hc & Hp & Hl & _). intros Hf HQ. unfold acquiresleep. wp_steps.
  apply wp_acquire; [done|]. wp_steps. unfold sl_get. wp_steps.
  apply (wp_buf_at i b); [done|]. wp_steps. rewrite Hf. cbn [Z.eqb negb]. wp_steps.
  apply (wp_mypid me p); [done..|]. wp_steps. apply (wp_upd_buf i _ b); [done|]. wp_steps.
  eapply wp_release_head; [reflexivity|]. now destruct s.
Qed.

Lemma wp_releasesleep_buf Q :
  Q tt (s <| k_bufs := <[i := b <| b_lock := mk_sleeplock 0 0 |>]> (k_bufs s) |>
          <| k_procs := wake (ChSleeplock (SLBuf i)) <$> k_procs s |>) ->
  wp (releasesleep (SLBuf i)) Q s.
Proof.
  destruct Hr as (Hc & Hp & Hl & Hpt). intros HQ. unfold releasesleep. wp_steps.
  apply wp_acquire; [done|]. wp_steps. apply (wp_upd_buf i _ b); [done|]. wp_steps.
  apply wp_wakeup; [simpl; set_solver|]. wp_steps.
  eapply wp_release_head; [reflexivity|]. now destruct s.
Qed.

Lemma wp_holdingsleep_buf (Q : bool -> kstate -> Prop) :
  Q (negb (sl_locked (b_lock b) =? 0) && (sl_pid (b_lock b) =? p_pid p)) s ->
  wp (holdingsleep (SLBuf i)) Q s.
Proof.
  destruct Hr as (Hc & Hp & Hl & Hpt). intros HQ. unfold holdingsleep, sl_get. wp_steps.
  apply wp_acquire; [done|]. wp_steps. apply (wp_buf_at i b); [done|]. wp_steps.
  apply (wp_mypid me p); [done..|]. wp_steps.
  eapply wp_release_head; [reflexivity|]. wp_steps. now destruct s.
Qed.
End sleeplock_buf.

Section sleeplock_inode.
Context (i : nat) (ip : inode) (me : nat) (p : proc) (s : kstate).
Hypothesis Hi : k_icache s !! i = Some ip.
Hypothesis Hr : sl_ready (SLInode i) me p s.

Lemma wp_acquiresleep_inode Q :
  sl_locked (i_lock ip) = 0 ->
  Q tt (s <| k_icache := <[i := ip <| i_lock := mk_sleeplock 1 (p_pid p) |>]> (k_icache s) |>) ->
  wp (acquiresleep (SLInode i)) Q s.
Proof.
  destruct Hr as (Hc & Hp & Hl & _). intros Hf HQ. unfold acquiresleep. wp_steps.
  apply wp_acquire; [done|]. wp_steps. unfold sl_get. wp_steps.
  apply (wp_inode_at i ip); [done|]. wp_steps. rewrite Hf. cbn [Z.eqb negb]. wp_steps.
  apply (wp_mypid me p); [done..|]. wp_steps. apply (wp_upd_inode i _ ip); [done|]. wp_steps.
  eapply wp_release_head; [reflexivity|]. now destruct s.
Qed.

Lemma wp_releasesleep_inode Q :
  Q tt (s <| k_icache := <[i := ip <| i_lock := mk_sleeplock 0 0 |>]> (k_icache s) |>
          <| k_procs := wake (ChSleeplock (SLInode i)) <$> k_procs s |>) ->
  wp (releasesleep (SLInode i)) Q s.
Proof.
  destruct Hr as (Hc & Hp & Hl & Hpt). intros HQ. unfold releasesleep. wp_steps.
  apply wp_acquire; [done|]. wp_steps. apply (wp_upd_inode i _ ip); [done|]. wp_steps.
  apply wp_wakeup; [simpl; set_solver|]. wp_steps.
  eapply wp_release_head; [reflexivity|]. now destruct s.
Qed.

Lemma wp_holdingsleep_inode (Q : bool -> kstate -> Prop) :
  Q (negb (sl_locked (i_lock ip) =? 0) && (sl_pid (i_lock ip) =? p_pid p)) s ->
  wp (holdingsleep (SLInode i)) Q s.
Proof.
  destruct Hr as (Hc & Hp & Hl & Hpt). intros HQ. unfold holdingsleep, sl_get. wp_steps.
  apply wp_acquire; [done|]. wp_steps. apply (wp_inode_at i ip); [done|]. wp_steps.
  apply (wp_mypid me p); [done..|]. wp_steps.
  eapply wp_release_head; [reflexivity|]. wp_steps. now destruct s.
Qed.
End sleeplock_inode.
