(* ===== verification/Bio.v ===== *)
(** The buffer cache, bio.c, and the disk driver it calls.

    bcache.buf and bcache.head are the list [k_bufs] (the head at index
    [NBUF]); [b_prev] and [b_next] are the links of the C list. The driver is
    the synchronous one of memide.c; [Ide.v] models the interrupt-driven one
    of ide.c. *)

From stdpp Require Import base list gmap strings numbers.
From Stdlib Require Import ZArith Lia.
From S2P Require Import Prelude Bytes Kstate Sched.
Open Scope Z_scope.

(** ** memide.c *)

Definition zero_block : list Z := replicate (Z.to_nat BSIZE) 0.

(** The number of blocks of the disk image ([disksize]), built by mkfs. *)
Definition disksize : Z := FSSIZE.

Definition disk_block (d : gmap Z (list Z)) (bno : Z) : list Z := default zero_block (d !! bno).

Definition iderw (b : nat) : K unit :=
  h ← holdingsleep (SLBuf b);
  if negb h then panic "iderw: buf not locked" else
  bp ← buf_at b;
  if Z.land (b_flags bp) (Z.lor B_VALID B_DIRTY) =? B_VALID then panic "iderw: nothing to do" else
  if negb (b_dev bp =? 1) then panic "iderw: request not for disk 1" else
  if disksize <=? b_blockno bp then panic "iderw: block out of range" else
  (if negb (Z.land (b_flags bp) B_DIRTY =? 0) then
     upd_buf b (fun bp => bp <| b_flags := Z.land (b_flags bp) (Z.lnot B_DIRTY) |>) ;;
     modify (fun s => s <| k_disk := <[b_blockno bp := b_data bp]> (k_disk s) |>
                        <| k_trace := k_trace s ++ [(b_blockno bp, b_data bp)] |>)
   else
     d ← gets k_disk;
     upd_buf b (fun bp => bp <| b_data := disk_block d (b_blockno bp) |>)) ;;
  upd_buf b (fun bp => bp <| b_flags := Z.lor (b_flags bp) B_VALID |>).

(** ** bio.c *)

(** bcache.head *)
Definition bhead : nat := Z.to_nat NBUF.

(** Insert [b] at the front of the list (the statements binit and brelse
    share). *)
Definition push_front (b : nat) : K unit :=
  h ← buf_at bhead;
  upd_buf b (fun x => x <| b_next := b_next h |> <| b_prev := bhead |>) ;;
  h ← buf_at bhead;
  upd_buf (b_next h) (fun x => x <| b_prev := b |>) ;;
  upd_buf bhead (fun x => x <| b_next := b |>).

Definition binit : K unit :=
  upd_buf bhead (fun x => x <| b_prev := bhead |>) ;;
  upd_buf bhead (fun x => x <| b_next := bhead |>) ;;
  for_ (seq 0 (Z.to_nat NBUF)) (fun b => initsleeplock (SLBuf b) ;; push_front b).

(** First loop of bget: from [b] along [b_next], the buffer of the block. *)
Fixpoint bget_cached (fuel : nat) (dev blockno : Z) (b : nat) : K (option nat) :=
  if (b =? bhead)%nat then ret None else
  match fuel with
  | O => nofuel
  | S fuel' =>
    bp ← buf_at b;
    if (b_dev bp =? dev) && (b_blockno bp =? blockno) then ret (Some b)
    else bget_cached fuel' dev blockno (b_next bp)
  end.

(** Second loop of bget: from [b] along [b_prev], an unused clean buffer. *)
Fixpoint bget_unused (fuel : nat) (b : nat) : K (option nat) :=
  if (b =? bhead)%nat then ret None else
  match fuel with
  | O => nofuel
  | S fuel' =>
    bp ← buf_at b;
    if (b_refcnt bp =? 0) && (Z.land (b_flags bp) B_DIRTY =? 0) then ret (Some b)
    else bget_unused fuel' (b_prev bp)
  end.

(** The list holds NBUF buffers, so NBUF steps reach its end. *)
Definition bget (dev blockno : Z) : K nat :=
  acquire LBcache ;;
  h ← buf_at bhead;
  hit ← bget_cached (Z.to_nat NBUF) dev blockno (b_next h);
  match hit with
  | Some b =>
    upd_buf b (fun x => x <| b_refcnt := u32 (b_refcnt x + 1) |>) ;;
    release LBcache ;;
    acquiresleep (SLBuf b) ;;
    ret b
  | None =>
    h ← buf_at bhead;
    free ← bget_unused (Z.to_nat NBUF) (b_prev h);
    match free with
    | Some b =>
      upd_buf b (fun x => x <| b_dev := dev |> <| b_blockno := blockno |>
                            <| b_flags := 0 |> <| b_refcnt := 1 |>) ;;
      release LBcache ;;
      acquiresleep (SLBuf b) ;;
      ret b
    | None => panic "bget: no buffers"
    end
  end.

Definition bread (dev blockno : Z) : K nat :=
  b ← bget dev blockno;
  bp ← buf_at b;
  when (Z.land (b_flags bp) B_VALID =? 0) (iderw b) ;;
  ret b.

Definition bwrite (b : nat) : K unit :=
  h ← holdingsleep (SLBuf b);
  if negb h then panic "bwrite" else
  upd_buf b (fun x => x <| b_flags := Z.lor (b_flags x) B_DIRTY |>) ;;
  iderw b.

(** Unlink [b] and put it at the front: no one is waiting for it. *)
Definition move_front (b : nat) : K unit :=
  bp ← buf_at b;
  upd_buf (b_next bp) (fun x => x <| b_prev := b_prev bp |>) ;;
  bp ← buf_at b;
  upd_buf (b_prev bp) (fun x => x <| b_next := b_next bp |>) ;;
  push_front b.

Definition brelse (b : nat) : K unit :=
  h ← holdingsleep (SLBuf b);
  if negb h then panic "brelse" else
  releasesleep (SLBuf b) ;;
  acquire LBcache ;;
  upd_buf b (fun x => x <| b_refcnt := u32 (b_refcnt x - 1) |>) ;;
  bp ← buf_at b;
  when (b_refcnt bp =? 0) (move_front b) ;;
  release LBcache.
