(* ===== verification/Bcache.v ===== *)
(** The buffer cache invariant and the specifications of bread, bwrite and brelse.

    The list of buffers is a ring through bcache.head ([seg], [ring]). The view
    [bview] is what the file system sees of the cache: the content of every block,
    the blocks locked (with the buffer and the pid), the blocks pinned by the log
    (B_DIRTY), and the blocks modified in the cache but not yet logged. [binv s v]
    says that the buffers and the disk of [s] represent [v]. *)

From stdpp Require Import base list gmap sets fin_sets strings numbers.
From Stdlib Require Import ZArith Lia.
From S2P Require Import Prelude Bytes Kstate Sched Bio.
Open Scope Z_scope.

Lemma disk_block_insert d k x n :
  disk_block (<[k := x]> d) n = if decide (n = k) then x else disk_block d n.
Proof.
  unfold disk_block. case_decide as E; [subst; now rewrite lookup_insert_eq|].
  now rewrite lookup_insert_ne.
Qed.

(** ** The ring *)

(** In the next links [nx] and the prev links [pv], [a] is followed by the elements of [l]
    and then by [z]. *)
Fixpoint seg (nx pv : list nat) (a : nat) (l : list nat) (z : nat) : Prop :=
  match l with
  | [] => nx !! a = Some z /\ pv !! z = Some a
  | x :: l' => nx !! a = Some x /\ pv !! x = Some a /\ seg nx pv x l' z
  end.

Definition ring (nx pv : list nat) (l : list nat) : Prop :=
  seg nx pv bhead l bhead /\ l ≡ₚ seq 0 bhead /\ length nx = S bhead /\ length pv = S bhead.

Section seg.
Implicit Types (nx pv l : list nat).

Lemma seg_nx nx pv a l z i v : i <> a -> i ∉ l -> seg nx pv a l z -> seg (<[i := v]> nx) pv a l z.
Proof.
  revert a. induction l as [|x l IH]; intros a Ha Hl; simpl.
  - intros [H1 H2]. now rewrite list_lookup_insert_ne.
  - intros (H1 & H2 & H3). apply not_elem_of_cons in Hl as [Hx Hl].
    rewrite list_lookup_insert_ne by done. auto.
Qed.

Lemma seg_pv nx pv a l z i v : i <> z -> i ∉ l -> seg nx pv a l z -> seg nx (<[i := v]> pv) a l z.
Proof.
  revert a. induction l as [|x l IH]; intros a Ha Hl; simpl.
  - intros [H1 H2]. now rewrite list_lookup_insert_ne.
  - intros (H1 & H2 & H3). apply not_elem_of_cons in Hl as [Hx Hl].
    rewrite list_lookup_insert_ne by done. auto.
Qed.

Lemma seg_app nx pv a l1 x l2 z :
  seg nx pv a (l1 ++ x :: l2) z <-> seg nx pv a l1 x /\ seg nx pv x l2 z.
Proof.
  revert a. induction l1 as [|y l1 IH]; intros a; simpl; [tauto|]. rewrite IH. tauto.
Qed.

Lemma seg_first nx pv a l z : seg nx pv a l z -> nx !! a = Some (hd z l).
Proof. destruct l; simpl; tauto. Qed.

Lemma last_cons (x a : nat) l : List.last (x :: l) a = List.last l x.
Proof.
  revert x a. induction l as [|y l IH]; intros x a; [done|].
  change (List.last (y :: l) a = List.last (y :: l) x). now rewrite !IH.
Qed.

Lemma seg_last nx pv a l z : seg nx pv a l z -> pv !! z = Some (List.last l a).
Proof.
  revert a. induction l as [|x l IH]; intros a; [simpl; tauto|]. intros (_ & _ & H).
  apply IH in H. now rewrite last_cons.
Qed.

Lemma last_in (a : nat) l : List.last l a = a \/ List.last l a ∈ l.
Proof.
  revert a. induction l as [|x l IH]; intros a; [now left|]. rewrite last_cons. right.
  destruct (IH x) as [-> | H]; set_solver.
Qed.

Lemma hd_in (z : nat) l : hd z l = z \/ hd z l ∈ l.
Proof. destruct l; simpl; set_solver. Qed.

(** Unlinking [b]: its neighbours point to each other. *)
Lemma seg_unlink nx pv a l1 b l2 z :
  let p := List.last l1 a in let n := hd z l2 in
  NoDup (l1 ++ l2) -> a ∉ l1 ++ l2 -> z ∉ l1 ++ l2 ->
  (a < length nx)%nat -> (z < length pv)%nat ->
  seg nx pv a l1 b -> seg nx pv b l2 z ->
  seg (<[p := n]> nx) (<[n := p]> pv) a (l1 ++ l2) z.
Proof.
  revert a. induction l1 as [|x l1 IH]; intros a p n Hd Ha Hz Hla Hlz H1 H2.
  - simpl in *. destruct H1 as [Hn Hp]. destruct l2 as [|y l2]; simpl in *.
    + rewrite !list_lookup_insert_eq by done. done.
    + destruct H2 as (_ & Hpy & H2). apply lookup_lt_Some in Hpy.
      rewrite !list_lookup_insert_eq by done. split; [done|]. split; [done|].
      apply list.NoDup_cons in Hd as [Hy Hd]. apply seg_nx; [set_solver..|].
      apply seg_pv; [set_solver..|done].
  - simpl in Hd, Ha, Hz. destruct H1 as (Hax & Hxa & H1). apply list.NoDup_cons in Hd as [Hx Hd].
    unfold p. rewrite last_cons. simpl. pose proof (last_in x l1). pose proof (hd_in z l2).
    assert (x < length nx)%nat as Hxl.
    { destruct l1; simpl in H1; destruct H1 as [H1 _]; now apply lookup_lt_Some in H1. }
    rewrite !list_lookup_insert_ne by set_solver.
    split; [done|]. split; [done|]. apply IH; auto; set_solver.
Qed.

(** Inserting [b] after [a]. *)
Lemma seg_push nx pv a l b z :
  let f := hd z l in
  NoDup l -> b ∉ l -> b <> a -> b <> z -> a ∉ l -> z ∉ l ->
  (a < length nx)%nat -> (b < length nx)%nat -> (z < length pv)%nat -> (b < length pv)%nat ->
  seg nx pv a l z ->
  seg (<[a := b]> (<[b := f]> nx)) (<[f := b]> (<[b := a]> pv)) a (b :: l) z.
Proof.
  intros f Hd Hb Hba Hbz Ha Hz Hla Hlb Hlz Hlb' H. pose proof (hd_in z l) as Hf. fold f in Hf.
  simpl. rewrite list_lookup_insert_eq by (now rewrite length_insert). split; [done|].
  rewrite list_lookup_insert_ne by set_solver. rewrite list_lookup_insert_eq by done.
  split; [done|]. destruct l as [|y l]; simpl in *.
  - rewrite list_lookup_insert_ne, list_lookup_insert_eq by done.
    rewrite list_lookup_insert_eq by (now rewrite length_insert). done.
  - destruct H as (_ & Hy & H). apply lookup_lt_Some in Hy.
    rewrite list_lookup_insert_ne, list_lookup_insert_eq by done. unfold f.
    rewrite list_lookup_insert_eq by (now rewrite length_insert). split; [done|].
    split; [done|]. apply list.NoDup_cons in Hd as [Hyl Hd].
    do 2 (apply seg_nx; [set_solver..|]). do 2 (apply seg_pv; [set_solver..|]). done.
Qed.
End seg.

(** ** The view *)

Record bview := mk_bview {
  v_data : Z -> list Z;
  v_held : gmap Z (nat * Z);
  v_dirty : gset Z;
  v_mod : gset Z
}.
Definition eta_bview (r : bview) : bview := mk_bview (v_data r) (v_held r) (v_dirty r) (v_mod r).
#[global] Instance set_v_data : Setter v_data := ltac:(mk_setter eta_bview v_data).
#[global] Instance set_v_held : Setter v_held := ltac:(mk_setter eta_bview v_held).
#[global] Instance set_v_dirty : Setter v_dirty := ltac:(mk_setter eta_bview v_dirty).
#[global] Instance set_v_mod : Setter v_mod := ltac:(mk_setter eta_bview v_mod).

(** Buffer [i], a cached block of device 1. *)
Definition buf_rep (d : gmap Z (list Z)) (v : bview) (i : nat) (b : buf) : Prop :=
  let bno := b_blockno b in
  b_dev b = 1 /\ 0 <= bno < FSSIZE /\ b_data b = v_data v bno /\
  (b_lock b, b_refcnt b) =
    match v_held v !! bno with
    | Some (_, pid) => (mk_sleeplock 1 pid, 1) | None => (mk_sleeplock 0 0, 0)
    end /\
  b_flags b = (if decide (bno ∈ v_dirty v) then 6 else 2) /\
  (bno ∉ v_dirty v -> bno ∉ v_mod v -> b_data b = disk_block d bno).

(** A buffer that has never been used. *)
Definition buf_fresh (b : buf) : Prop :=
  b_dev b = 0 /\ b_flags b = 0 /\ b_lock b = mk_sleeplock 0 0 /\ b_refcnt b = 0.

(** Buffer [i] caches block [bno]. *)
Definition caches (bs : list buf) (i : nat) (bno : Z) : Prop :=
  (i < bhead)%nat /\ exists b, bs !! i = Some b /\ b_dev b = 1 /\ b_blockno b = bno.

#[global] Instance caches_dec bs i bno : Decision (caches bs i bno).
Proof.
  unfold caches. apply and_dec; [apply _|]. destruct (bs !! i) as [b|].
  - destruct (decide (b_dev b = 1 /\ b_blockno b = bno)) as [H|H].
    + left. exists b. auto.
    + right. intros (x & [= <-] & Hx). auto.
  - right. now intros (x & ? & _).
Defined.

Record binv_at (bs : list buf) (d : gmap Z (list Z)) (v : bview) : Prop := {
  bi_ring : exists l, ring (b_next <$> bs) (b_prev <$> bs) l;
  bi_bufs : forall i b, (i < bhead)%nat -> bs !! i = Some b -> buf_fresh b \/ buf_rep d v i b;
  bi_uniq : forall i j bno, caches bs i bno -> caches bs j bno -> i = j;
  bi_disk : forall bno, (forall i, ~ caches bs i bno) -> v_data v bno = disk_block d bno;
  bi_dirty : forall bno, bno ∈ v_dirty v -> exists i, caches bs i bno;
  bi_held : forall bno i pid, v_held v !! bno = Some (i, pid) -> caches bs i bno;
  bi_mod : v_mod v ⊆ dom (v_held v);
  bi_len : forall bno, length (v_data v bno) = 512%nat;
  bi_dlen : forall bno, length (disk_block d bno) = 512%nat
}.
Definition binv (s : kstate) (v : bview) : Prop := binv_at (k_bufs s) (k_disk s) v.

(** The running process [me], with no spinlock held. *)
Definition kenv (s : kstate) (me : nat) (p : proc) : Prop :=
  k_cur s = Some me /\ k_procs s !! me = Some p /\ p_state p = RUNNING /\ k_held s = [].

(** Some sleeping processes have been made runnable. *)
Definition woken : list proc -> list proc -> Prop :=
  Forall2 (fun p p' => p' = p \/ p_state p = SLEEPING /\ p' = p <| p_state := RUNNABLE |>).

(** [s'] is [s] with other buffers and woken processes. *)
Definition same_env (s s' : kstate) : Prop :=
  exists bs ps, s' = s <| k_bufs := bs |> <| k_procs := ps |> /\ woken (k_procs s) ps.

Lemma woken_refl ps : woken ps ps.
Proof. induction ps; constructor; auto. Qed.

Lemma woken_trans ps1 ps2 ps3 : woken ps1 ps2 -> woken ps2 ps3 -> woken ps1 ps3.
Proof.
  intros H12. revert ps3. induction H12 as [|p1 p2 ps1 ps2 H _ IH]; intros ps3 H23.
  { now inversion H23; constructor. }
  inversion H23 as [|? p3 ? ps3' H' H23']; subst. constructor; [|now apply IH].
  destruct H as [-> | [H ->]], H' as [-> | [H' ->]]; auto.
Qed.

Lemma woken_wake c ps : woken ps (wake c <$> ps).
Proof.
  induction ps as [|p ps IH]; simpl; constructor; auto. unfold wake.
  do 2 case_bool_decide; simpl; auto.
Qed.

Lemma woken_lookup ps ps' i p :
  woken ps ps' -> ps !! i = Some p -> p_state p = RUNNING -> ps' !! i = Some p.
Proof.
  intros H Hp Hr. eapply Forall2_lookup_l in H as (p' & Hp' & [-> | [Hs _]]); eauto. congruence.
Qed.

Lemma same_env_refl s : same_env s s.
Proof. exists (k_bufs s), (k_procs s). split; [now destruct s|apply woken_refl]. Qed.

Lemma same_env_trans s1 s2 s3 : same_env s1 s2 -> same_env s2 s3 -> same_env s1 s3.
Proof.
  intros (b1 & p1 & -> & H1) (b2 & p2 & -> & H2). exists b2, p2. split; [done|].
  simpl in H2. now apply woken_trans with p1.
Qed.

Lemma same_env_kenv s s' me p : same_env s s' -> kenv s me p -> kenv s' me p.
Proof.
  intros (b1 & p1 & -> & H1) (Hc & Hp & Hr & Hh). repeat (split; [done|]); simpl.
  split; [now apply woken_lookup with (k_procs s)|]. done.
Qed.

(** ** The loops of bget *)

Section loops.
Context (s : kstate).
Abbreviation bs := (k_bufs s).
Abbreviation sg := (seg (b_next <$> bs) (b_prev <$> bs)).

Lemma seg_lookup a x l z : sg a (x :: l) z -> exists b, bs !! x = Some b /\ b_next b = hd z l.
Proof.
  intros (_ & _ & H). apply seg_first in H. rewrite list_lookup_fmap in H.
  destruct (bs !! x) as [b|]; simpl in H; [|done]. exists b. split; congruence.
Qed.

Lemma wp_bget_cached dev bno l : forall a fuel,
  sg a l bhead -> bhead ∉ l -> (length l <= fuel)%nat ->
  wp (bget_cached fuel dev bno (hd bhead l)) (fun r s' => s' = s /\
    match r with
    | Some i => i ∈ l /\ exists b, bs !! i = Some b /\ b_dev b = dev /\ b_blockno b = bno
    | None => forall i b, i ∈ l -> bs !! i = Some b -> ~ (b_dev b = dev /\ b_blockno b = bno)
    end) s.
Proof.
  induction l as [|x l IH]; intros a fuel Hs Hh Hf.
  { destruct fuel; simpl; (split; [done|]); set_solver. }
  apply not_elem_of_cons in Hh as [Hx Hh]. destruct (seg_lookup a x l bhead Hs) as (b & Hb & Hn).
  destruct fuel as [|fuel]; simpl in Hf; [lia|]. cbn [hd bget_cached].
  rewrite (proj2 (Nat.eqb_neq x bhead)) by congruence. wp_steps.
  apply (wp_buf_at x b); [done|]. destruct (_ && _) eqn:E.
  - apply andb_true_iff in E as [E1%Z.eqb_eq E2%Z.eqb_eq]. wp_steps. split; [done|].
    split; [left|]. eauto.
  - rewrite Hn. destruct Hs as (_ & _ & Hs).
    eapply wp_mono; [apply (IH x fuel Hs Hh); lia|]. intros r s' [-> Hr]. split; [done|].
    destruct r as [i|]; [destruct Hr; split; [now right|done]|].
    intros i b' [-> | Hi]%elem_of_cons Hb'; [|now eauto].
    rewrite Hb in Hb'. injection Hb' as <-. apply andb_false_iff in E. lia.
Qed.

Lemma wp_bget_unused l : forall z fuel,
  sg bhead l z -> bhead ∉ l -> (length l <= fuel)%nat ->
  wp (bget_unused fuel (List.last l bhead)) (fun r s' => s' = s /\
    match r with
    | Some i => i ∈ l /\ exists b, bs !! i = Some b /\ b_refcnt b = 0 /\ Z.land (b_flags b) B_DIRTY = 0
    | None => forall i b, i ∈ l -> bs !! i = Some b ->
                b_refcnt b <> 0 \/ Z.land (b_flags b) B_DIRTY <> 0
    end) s.
Proof.
  induction l as [|x l IH] using rev_ind; intros z fuel Hs Hh Hf.
  { destruct fuel; simpl; (split; [done|]); set_solver. }
  apply not_elem_of_app in Hh as [Hh Hx]. apply seg_app in Hs as [Hs Hsx].
  pose proof (seg_last _ _ _ _ _ Hs) as Hp. rewrite list_lookup_fmap in Hp.
  destruct (bs !! x) as [b|] eqn:Hb; simpl in Hp; [|done]. injection Hp as Hp.
  rewrite length_app in Hf. destruct fuel as [|fuel]; simpl in Hf; [lia|].
  rewrite last_last. cbn [bget_unused].
  rewrite (proj2 (Nat.eqb_neq x bhead)) by set_solver. wp_steps.
  apply (wp_buf_at x b); [done|]. destruct (_ && _) eqn:E.
  - apply andb_true_iff in E as [E1%Z.eqb_eq E2%Z.eqb_eq]. wp_steps. split; [done|].
    split; [set_solver|]. eauto.
  - rewrite Hp. eapply wp_mono; [apply (IH x fuel Hs Hh); lia|].
    intros r s' [-> Hr]. split; [done|].
    destruct r as [i|]; [destruct Hr; split; [set_solver|done]|].
    intros i b' [Hi | ->%list_elem_of_singleton]%elem_of_app Hb'; [now eauto|].
    rewrite Hb in Hb'. injection Hb' as <-. apply andb_false_iff in E. lia.
Qed.
End loops.

(** ** Updating one buffer *)

(** The two views and disks agree on every block but [bno]. *)
Definition agree_off (bno : Z) (d d' : gmap Z (list Z)) (v v' : bview) : Prop :=
  forall k, k <> bno ->
    v_data v' k = v_data v k /\ v_held v' !! k = v_held v !! k /\
    (k ∈ v_dirty v' <-> k ∈ v_dirty v) /\ (k ∈ v_mod v' <-> k ∈ v_mod v) /\
    disk_block d' k = disk_block d k.

Lemma agree_off_rep bno d d' v v' i b :
  agree_off bno d d' v v' -> b_blockno b <> bno -> buf_rep d v i b -> buf_rep d' v' i b.
Proof.
  intros Ha Hne (Hd & Hr & Hdat & Hl & Hf & Hc). destruct (Ha _ Hne) as (E1 & E2 & E3 & E4 & E5).
  unfold buf_rep. rewrite E1, E2, E5. repeat (split; [done|]). split.
  - rewrite Hf. now do 2 case_decide; try tauto.
  - intros H1 H2. apply Hc; tauto.
Qed.

Section one_buf.
Context (bs : list buf) (i : nat) (b b' : buf).
Hypothesis Hb : bs !! i = Some b.
Hypothesis Hi : (i < bhead)%nat.
Hypothesis Hlinks : b_next b' = b_next b /\ b_prev b' = b_prev b.

Lemma links_insert :
  b_next <$> <[i := b']> bs = b_next <$> bs /\ b_prev <$> <[i := b']> bs = b_prev <$> bs.
Proof.
  destruct Hlinks as [Hn Hp]. rewrite !list_fmap_insert, Hn, Hp.
  split; apply list_insert_id; now rewrite list_lookup_fmap, Hb.
Qed.

Lemma caches_insert j k :
  caches (<[i := b']> bs) j k <->
  (j = i /\ b_dev b' = 1 /\ b_blockno b' = k) \/ (j <> i /\ caches bs j k).
Proof.
  unfold caches. pose proof (lookup_lt_Some _ _ _ Hb) as Hlt. destruct (decide (j = i)) as [->|Hj].
  - rewrite list_lookup_insert_eq by done. naive_solver.
  - rewrite list_lookup_insert_ne by done. naive_solver.
Qed.

Lemma insert_bufs_cases (P : nat -> buf -> Prop) :
  P i b' -> (forall j x, j <> i -> (j < bhead)%nat -> bs !! j = Some x -> P j x) ->
  forall j x, (j < bhead)%nat -> <[i := b']> bs !! j = Some x -> P j x.
Proof.
  intros Hp Ho j x Hj Hx. destruct (decide (j = i)) as [->|Hne].
  - rewrite list_lookup_insert_eq in Hx by (now apply lookup_lt_Some in Hb). now injection Hx as <-.
  - rewrite list_lookup_insert_ne in Hx by done. now apply Ho.
Qed.

(** A buffer changes but still caches the same block. *)
Lemma binv_update d d' v v' :
  let bno := b_blockno b in
  binv_at bs d v -> b_dev b = 1 -> b_dev b' = 1 -> b_blockno b' = bno ->
  agree_off bno d d' v v' -> buf_rep d' v' i b' ->
  (forall j pid, v_held v' !! bno = Some (j, pid) -> j = i) ->
  (bno ∈ v_mod v' -> bno ∈ dom (v_held v')) ->
  length (v_data v' bno) = 512%nat -> length (disk_block d' bno) = 512%nat ->
  binv_at (<[i := b']> bs) d' v'.
Proof.
  intros bno Hinv Hdev Hdev' Hbno Ha Hrep Hh Hm Hl1 Hl2.
  assert (Hci : caches bs i bno) by (split; [done|]; eauto).
  assert (Hc : forall j k, caches (<[i := b']> bs) j k <-> caches bs j k).
  { intros j k. rewrite caches_insert. split.
    - intros [(-> & _ & <-)|[_ H]]; [|done]. now rewrite Hbno.
    - intros H. destruct (decide (j = i)) as [->|]; [left|now right].
      split; [done|]. split; [done|]. destruct H as (_ & x & Hx & _ & <-).
      rewrite Hb in Hx. now injection Hx as <-. }
  destruct Hinv as [Hr Hbu Hu Hd Hdi Hhe Hmo Hle Hdl]. constructor.
  - destruct links_insert as [-> ->]. exact Hr.
  - apply insert_bufs_cases; [now right|]. intros j x Hne Hj Hx.
    destruct (Hbu j x Hj Hx) as [Hf|Hrp]; [now left|right].
    apply (agree_off_rep bno d d' v v'); [done| |done]. intros E. apply Hne.
    apply (Hu j i bno); [|done]. split; [done|]. exists x. split; [done|]. split; [apply Hrp|done].
  - intros j k n. rewrite !Hc. apply Hu.
  - intros k Hk. assert (k <> bno) as Hne by (intros ->; apply (Hk i); now rewrite Hc).
    destruct (Ha k Hne) as (-> & _ & _ & _ & ->). apply Hd. intros j. rewrite <- Hc. apply Hk.
  - intros k Hk. destruct (decide (k = bno)) as [->|Hne]; [exists i; now rewrite Hc|].
    destruct (Ha k Hne) as (_ & _ & Hkd & _). apply Hkd, Hdi in Hk as (j & Hj). exists j. now rewrite Hc.
  - intros k j pid Hk. rewrite Hc. destruct (decide (k = bno)) as [->|Hne].
    + now rewrite (Hh j pid Hk).
    + destruct (Ha k Hne) as (_ & Hkh & _). rewrite Hkh in Hk. eauto.
  - intros k Hk. destruct (decide (k = bno)) as [->|Hne]; [auto|].
    destruct (Ha k Hne) as (_ & Hkh & _ & Hkm & _). apply Hkm, Hmo in Hk.
    apply elem_of_dom in Hk. apply elem_of_dom. now rewrite Hkh.
  - intros k. destruct (decide (k = bno)) as [->|Hne]; [done|]. destruct (Ha k Hne) as (-> & _). done.
  - intros k. destruct (decide (k = bno)) as [->|Hne]; [done|].
    destruct (Ha k Hne) as (_ & _ & _ & _ & ->). done.
Qed.

(** A buffer nobody uses is recycled for block [bno], which no buffer caches. *)
Definition unused (d : gmap Z (list Z)) (v : bview) (x : buf) : Prop :=
  buf_fresh x \/
  buf_rep d v i x /\ v_held v !! b_blockno x = None /\ b_blockno x ∉ v_dirty v.

Lemma unused_caches d v k : unused d v b -> caches bs i k ->
  buf_rep d v i b /\ b_blockno b = k /\ v_held v !! k = None /\ k ∉ v_dirty v.
Proof.
  intros Hu (_ & x & Hx & Hd & Hk). rewrite Hb in Hx. injection Hx as <-.
  destruct Hu as [(H0 & _)|(H1 & H2 & H3)]; [congruence|]. now subst k.
Qed.

Lemma binv_recycle d v bno pid :
  binv_at bs d v -> unused d v b -> (forall j, ~ caches bs j bno) -> 
  b_blockno b' = bno ->
  buf_rep d (v <| v_held := <[bno := (i, pid)]> (v_held v) |>) i b' ->
  binv_at (<[i := b']> bs) d (v <| v_held := <[bno := (i, pid)]> (v_held v) |>).
Proof.
  intros Hinv Hun Hno Hbno Hrep. set (v' := v <| v_held := _ |>).
  assert (agree_off bno d d v v') as Ha.
  { intros k Hk. simpl. now rewrite lookup_insert_ne. }
  pose proof (proj1 Hrep) as Hdev. pose proof (unused_caches d v) as Huc.
  destruct Hinv as [Hr Hbu Hu Hd Hdi Hhe Hmo Hle Hdl]. constructor; try done.
  - destruct links_insert as [-> ->]. exact Hr.
  - apply insert_bufs_cases; [now right|]. intros j x Hne Hj Hx.
    destruct (Hbu j x Hj Hx) as [Hf|Hrp]; [now left|right].
    apply (agree_off_rep bno d d v v'); [done| |done]. intros E. apply (Hno j).
    split; [done|]. exists x. split; [done|]. split; [apply Hrp|done].
  - intros j k n. rewrite !caches_insert. rewrite Hbno.
    intros [(-> & _ & <-)|[Hj H]] [(-> & _ & E)|[Hk H']]; try done.
    + now destruct (Hno k).
    + subst. now destruct (Hno j).
    + eauto.
  - intros k Hk. change (v_data v' k) with (v_data v k). destruct (decide (caches bs i k)) as [Hc|Hc].
    + destruct (Huc k Hun Hc) as ((_ & _ & Hdat & _ & _ & Hco) & <- & Hnh & Hnd).
      rewrite <- Hdat. apply Hco; [done|]. intros Hm%Hmo%elem_of_dom. rewrite Hnh in Hm.
      now destruct Hm.
    + apply Hd. intros j Hj. apply (Hk j). rewrite caches_insert. right. split; [|done].
      now intros ->.
  - intros k Hk. destruct (Hdi k Hk) as (j & Hj). exists j. rewrite caches_insert. right.
    split; [|done]. intros ->. now destruct (Huc k Hun Hj) as (_ & _ & _ & Hnd).
  - intros k j q Hk. simpl in Hk. rewrite caches_insert. destruct (decide (k = bno)) as [->|Hne].
    + rewrite lookup_insert_eq in Hk. injection Hk as <- <-. now left.
    + rewrite lookup_insert_ne in Hk by done. right. pose proof (Hhe k j q Hk) as Hj. split; [|done].
      intros ->. destruct (Huc k Hun Hj) as (_ & _ & Hnh & _). congruence.
  - simpl. intros k Hk%Hmo. rewrite dom_insert. set_solver.
Qed.
End one_buf.

(** Only the links of the buffers change. *)
Definition core (b : buf) : buf := b <| b_next := 0%nat |> <| b_prev := 0%nat |>.

Lemma core_lookup (bs bs' : list buf) i b :
  core <$> bs' = core <$> bs -> bs' !! i = Some b ->
  exists b0, bs !! i = Some b0 /\ core b0 = core b.
Proof.
  intros Hc Hb. assert ((core <$> bs') !! i = Some (core b)) as H by (now rewrite list_lookup_fmap, Hb).
  rewrite Hc, list_lookup_fmap in H. destruct (bs !! i) as [b0|]; [|done].
  exists b0. split; [done|]. now apply (inj Some) in H.
Qed.

Lemma core_caches (bs bs' : list buf) i bno : core <$> bs' = core <$> bs -> caches bs' i bno -> caches bs i bno.
Proof.
  intros Hc (Hi & b & Hb & Hd & Hn). destruct (core_lookup _ _ _ _ Hc Hb) as (b0 & Hb0 & E).
  split; [done|]. exists b0. destruct b, b0. injection E as. simpl in *. subst. auto.
Qed.

Lemma binv_links (bs bs' : list buf) d v l :
  core <$> bs' = core <$> bs -> ring (b_next <$> bs') (b_prev <$> bs') l ->
  binv_at bs d v -> binv_at bs' d v.
Proof.
  intros Hc Hr Hinv. assert (forall i k, caches bs' i k <-> caches bs i k) as Hca.
  { intros i k. split; now apply core_caches. }
  destruct Hinv as [_ Hbu Hu Hd Hdi Hhe Hmo Hle Hdl]. constructor; try done.
  - eauto.
  - intros i b Hi Hb. destruct (core_lookup _ _ _ _ Hc Hb) as (b0 & Hb0 & E).
    specialize (Hbu i b0 Hi Hb0). destruct b, b0. injection E as. simpl in *. subst. exact Hbu.
  - intros i j k. rewrite !Hca. apply Hu.
  - intros k Hk. apply Hd. intros i. rewrite <- Hca. apply Hk.
  - intros k Hk. destruct (Hdi k Hk) as (i & Hi). exists i. now rewrite Hca.
  - intros k i q Hk. rewrite Hca. eauto.
Qed.

(** ** A buffer is available as long as fewer than NBUF blocks are locked or pinned *)

Lemma size_list_le (l : list Z) (X : gset Z) :
  NoDup l -> (forall x, x ∈ l -> x ∈ X) -> (length l <= size X)%nat.
Proof.
  intros Hd Hl. rewrite <- (size_list_to_set (C := gset Z) l Hd). apply subseteq_size.
  intros x Hx. apply elem_of_list_to_set in Hx. auto.
Qed.

Definition in_use (v : bview) : gset Z := dom (v_held v) ∪ v_dirty v.

Lemma ring_length bs l : ring (b_next <$> bs) (b_prev <$> bs) l -> length bs = S bhead.
Proof. intros (_ & _ & Hl & _). now rewrite length_fmap in Hl. Qed.

Lemma rep_in_use d v i b :
  buf_rep d v i b -> b_refcnt b <> 0 \/ Z.land (b_flags b) B_DIRTY <> 0 -> b_blockno b ∈ in_use v.
Proof.
  intros (_ & _ & _ & Hl & Hf & _) Hor. unfold in_use. apply elem_of_union.
  destruct (v_held v !! b_blockno b) as [[j q]|] eqn:Eh.
  - left. apply elem_of_dom. eauto.
  - right. injection Hl as _ Hrc. destruct Hor as [Hor|Hor]; [congruence|].
    destruct (decide (b_blockno b ∈ v_dirty v)); [done|]. now rewrite Hf in Hor.
Qed.

Lemma binv_available bs d v :
  binv_at bs d v -> (size (in_use v) < bhead)%nat ->
  ~ (forall i b, (i < bhead)%nat -> bs !! i = Some b ->
       b_refcnt b <> 0 \/ Z.land (b_flags b) B_DIRTY <> 0).
Proof.
  intros Hinv Hsz Hall. destruct (bi_ring _ _ _ Hinv) as (l & Hr). apply ring_length in Hr as Hlen.
  enough (bhead <= size (in_use v))%nat by lia.
  assert (forall i b, (i < bhead)%nat -> bs !! i = Some b -> buf_rep d v i b) as Hrep.
  { intros i b Hi Hb. destruct (bi_bufs _ _ _ Hinv i b Hi Hb) as [(_ & Hf & _ & Hr')|]; [|done].
    destruct (Hall i b Hi Hb) as [H|H]; [done|]. now rewrite Hf in H. }
  replace bhead with (length (b_blockno <$> take bhead bs)) by (rewrite length_fmap, length_take; lia).
  apply size_list_le.
  - apply NoDup_alt. intros i j x Hi Hj. rewrite list_lookup_fmap in Hi, Hj.
    destruct (take bhead bs !! i) as [bi|] eqn:Ei, (take bhead bs !! j) as [bj|] eqn:Ej; try done.
    simpl in Hi, Hj. apply lookup_take_Some in Ei as [Ei Hli], Ej as [Ej Hlj].
    apply (bi_uniq _ _ _ Hinv i j x); (split; [done|]); eexists; (split; [eassumption|]).
    + destruct (Hrep i bi Hli Ei) as [-> _]. split; congruence.
    + destruct (Hrep j bj Hlj Ej) as [-> _]. split; congruence.
  - intros x (b & -> & Hb)%list_elem_of_fmap. apply list_elem_of_lookup in Hb as (i & Hi).
    apply lookup_take_Some in Hi as [Hi Hli]. apply (rep_in_use d v i); eauto.
Qed.

(** ** bread *)

(** The facts about a locked block. *)
Lemma binv_held bs d v bno i pid :
  binv_at bs d v -> v_held v !! bno = Some (i, pid) ->
  (i < bhead)%nat /\ exists b, bs !! i = Some b /\ buf_rep d v i b /\ b_blockno b = bno /\
    b_lock b = mk_sleeplock 1 pid /\ b_refcnt b = 1.
Proof.
  intros Hinv Hh. destruct (bi_held _ _ _ Hinv _ _ _ Hh) as (Hi & b & Hb & Hd & <-).
  split; [done|]. exists b. destruct (bi_bufs _ _ _ Hinv i b Hi Hb) as [[H0 _]|Hrep]; [congruence|].
  split; [done|]. split; [done|]. split; [done|]. destruct Hrep as (_ & _ & _ & Hl & _).
  rewrite Hh in Hl. now injection Hl.
Qed.

Lemma kenv_ready s me p l : kenv s me p -> sl_ready l me p s.
Proof. intros (Hc & Hp & _ & Hh). unfold sl_ready. rewrite Hh. set_solver. Qed.

Lemma kenv_bufs s me p bs : kenv s me p -> kenv (s <| k_bufs := bs |>) me p.
Proof. exact id. Qed.

(** What bget finds in a state that represents [v]: the buffer of the block, or one to
    recycle. *)
Definition bget_choice (s : kstate) (v : bview) (bno : Z) (i : nat) (b : buf) : Prop :=
  (i < bhead)%nat /\ k_bufs s !! i = Some b /\ b_lock b = mk_sleeplock 0 0 /\ b_refcnt b = 0 /\
  (buf_rep (k_disk s) v i b /\ b_blockno b = bno \/
   unused i (k_disk s) v b /\ forall j, ~ caches (k_bufs s) j bno).

(** bget finds a buffer: the block is pinned in the cache, or not all buffers are in use. *)
Definition available (v : bview) (bno : Z) : Prop :=
  bno ∈ v_dirty v \/ (size (in_use v) < bhead)%nat.

(** The buffer as bget hands it out, locked. *)
Definition bget_buf (bno pid : Z) (b : buf) : buf :=
  (if bool_decide (b_dev b = 1 /\ b_blockno b = bno) then b <| b_refcnt := 1 |>
   else b <| b_dev := 1 |> <| b_blockno := bno |> <| b_flags := 0 |> <| b_refcnt := 1 |>)
  <| b_lock := mk_sleeplock 1 pid |>.

Lemma wp_bget s me p v bno (Q : nat -> kstate -> Prop) :
  kenv s me p -> binv s v -> v_held v !! bno = None -> available v bno ->
  (forall i b, bget_choice s v bno i b ->
     Q i (s <| k_bufs := <[i := bget_buf bno (p_pid p) b]> (k_bufs s) |>)) ->
  wp (bget 1 bno) Q s.
Proof.
  intros He Hinv Hnh Hsz HQ. pose proof He as (Hc & Hp & Hr & Hh).
  destruct (bi_ring _ _ _ Hinv) as (l & Hring). pose proof (ring_length _ _ Hring) as Hlen.
  destruct Hring as (Hseg & Hperm & _).
  assert (forall i, i ∈ l <-> (i < bhead)%nat) as Hl.
  { intros i. rewrite Hperm, elem_of_seq. lia. }
  assert (bhead ∉ l) as Hnl by (rewrite Hl; lia).
  assert (length l = bhead) as Hll by (rewrite Hperm; apply length_seq).
  destruct (lookup_lt_is_Some_2 (k_bufs s) bhead ltac:(lia)) as (hb & Hhb).
  pose proof (seg_first _ _ _ _ _ Hseg) as Hn. pose proof (seg_last _ _ _ _ _ Hseg) as Hpv.
  rewrite list_lookup_fmap, Hhb in Hn, Hpv. simpl in Hn, Hpv. injection Hn as Hn. injection Hpv as Hpv.
  unfold bget. wp_steps. apply wp_acquire; [rewrite Hh; set_solver|]. wp_steps.
  apply (wp_buf_at bhead hb); [done|]. rewrite Hn. wp_steps.
  eapply wp_mono; [apply (wp_bget_cached (s <| k_held := LBcache :: k_held s |>) 1 bno l bhead);
                   [done|done|rewrite Hll; done]|].
  intros [i|] s' [-> Hres]; simpl in Hres.
  - destruct Hres as (Hi & b & Hb & Hd & Hbn). apply Hl in Hi.
    destruct (bi_bufs _ _ _ Hinv i b Hi Hb) as [[H0 _]|Hrep]; [congruence|].
    pose proof Hrep as (_ & _ & _ & Hlk & _). rewrite Hbn, Hnh in Hlk. injection Hlk as Hlk Hrc.
    wp_steps. apply (wp_upd_buf i _ b); [done|]. wp_steps.
    eapply wp_release_head; [simpl; reflexivity|]. wp_steps.
    eapply (wp_acquiresleep_buf i _ me p).
    { simpl. apply list_lookup_insert_eq. lia. }
    { apply (kenv_ready _ me p); exact He. }
    { simpl. now rewrite Hlk. }
    wp_steps. simpl. rewrite list_insert_insert_eq, Hrc. change (u32 (0 + 1)) with 1.
    specialize (HQ i b). unfold bget_buf in HQ. rewrite bool_decide_eq_true_2 in HQ by done.
    destruct s. apply HQ. split; [done|]. split; [done|]. split; [done|]. split; [done|]. now left.
  - wp_steps. apply (wp_buf_at bhead hb); [done|]. rewrite Hpv. wp_steps.
    eapply wp_mono; [apply (wp_bget_unused (s <| k_held := LBcache :: k_held s |>) l bhead);
                     [done|done|rewrite Hll; done]|].
    intros [i|] s' [-> Hun]; simpl in Hun; cycle 1.
    { exfalso. destruct Hsz as [Hd|Hsz].
      - destruct (bi_dirty _ _ _ Hinv bno Hd) as (j & Hj & x & Hx & Hdx & Hnx).
        apply (Hres j x); [now apply Hl|done|done].
      - eapply (binv_available _ _ _ Hinv Hsz). intros i b Hi Hb. apply (Hun i b); [|done].
        now apply Hl. }
    destruct Hun as (Hi & b & Hb & Hrc & Hfl). apply Hl in Hi as Hi'.
    assert (forall j, ~ caches (k_bufs s) j bno) as Hno.
    { intros j (Hj & x & Hx & Hdx & Hnx). apply (Hres j x); [now apply Hl|done|done]. }
    assert (b_lock b = mk_sleeplock 0 0 /\ unused i (k_disk s) v b) as [Hlk Hu].
    { destruct (bi_bufs _ _ _ Hinv i b Hi' Hb) as [Hf|Hrep].
      - split; [apply Hf|now left].
      - pose proof Hrep as (_ & _ & _ & Hlk & Hf & _).
        destruct (v_held v !! b_blockno b) as [[? ?]|] eqn:Eh; injection Hlk as Hlk Hrc'; [congruence|].
        split; [done|]. right. split; [done|]. split; [done|]. intros Hdirty.
        rewrite decide_True in Hf by done. now rewrite Hf in Hfl. }
    wp_steps. apply (wp_upd_buf i _ b); [done|]. wp_steps.
    eapply wp_release_head; [simpl; reflexivity|]. wp_steps.
    eapply (wp_acquiresleep_buf i _ me p).
    { simpl. apply list_lookup_insert_eq. lia. }
    { apply (kenv_ready _ me p); exact He. }
    { simpl. now rewrite Hlk. }
    wp_steps. simpl. rewrite list_insert_insert_eq.
    specialize (HQ i b). unfold bget_buf in HQ. rewrite bool_decide_eq_false_2 in HQ.
    + destruct s. apply HQ. split; [done|]. split; [done|]. split; [done|]. split; [done|]. now right.
    + intros [H1 H2]. apply (Hno i). split; [done|]. eauto.
Qed.

Section iderw.
Context (s : kstate) (me : nat) (p : proc) (i : nat) (b : buf).
Hypothesis He : kenv s me p.
Hypothesis Hb : k_bufs s !! i = Some b.
Hypothesis Hlk : b_lock b = mk_sleeplock 1 (p_pid p).

Lemma wp_holdingsleep_mine (Q : bool -> kstate -> Prop) : Q true s -> wp (holdingsleep (SLBuf i)) Q s.
Proof.
  intros HQ. eapply (wp_holdingsleep_buf i b me p); [done|now apply kenv_ready|].
  rewrite Hlk. simpl. now rewrite Z.eqb_refl.
Qed.

Hypothesis Hdev : b_dev b = 1.
Hypothesis Hbno : 0 <= b_blockno b < FSSIZE.

Lemma wp_iderw_read Q :
  b_flags b = 0 ->
  Q tt (s <| k_bufs := <[i := b <| b_data := disk_block (k_disk s) (b_blockno b) |>
                                <| b_flags := 2 |>]> (k_bufs s) |>) ->
  wp (iderw i) Q s.
Proof.
  intros Hf HQ. unfold iderw. wp_steps. apply wp_holdingsleep_mine. cbn [negb]. wp_steps.
  apply (wp_buf_at i b); [done|]. rewrite Hf, Hdev.
  change (Z.land 0 (Z.lor B_VALID B_DIRTY) =? B_VALID) with false.
  change (negb (1 =? 1)) with false. cbn beta iota.
  rewrite (proj2 (Z.leb_gt disksize (b_blockno b))) by (unfold disksize; lia).
  assert (i < length (k_bufs s))%nat as Hlt by (now apply lookup_lt_Some in Hb).
  change (negb (Z.land 0 B_DIRTY =? 0)) with false. cbn beta iota.
  wp_steps. apply (wp_upd_buf i _ b); [done|]. wp_steps.
  eapply wp_upd_buf; [simpl; now apply list_lookup_insert_eq|].
  simpl. rewrite list_insert_insert_eq, Hf. exact HQ.
Qed.

Lemma wp_iderw_write Q :
  b_flags b = 6 ->
  Q tt (s <| k_bufs := <[i := b <| b_flags := 2 |>]> (k_bufs s) |>
          <| k_disk := <[b_blockno b := b_data b]> (k_disk s) |>
          <| k_trace := k_trace s ++ [(b_blockno b, b_data b)] |>) ->
  wp (iderw i) Q s.
Proof.
  intros Hf HQ. unfold iderw. wp_steps. apply wp_holdingsleep_mine. cbn [negb]. wp_steps.
  apply (wp_buf_at i b); [done|]. rewrite Hf, Hdev.
  change (Z.land 6 (Z.lor B_VALID B_DIRTY) =? B_VALID) with false.
  change (negb (1 =? 1)) with false. cbn beta iota.
  rewrite (proj2 (Z.leb_gt disksize (b_blockno b))) by (unfold disksize; lia).
  assert (i < length (k_bufs s))%nat as Hlt by (now apply lookup_lt_Some in Hb).
  change (negb (Z.land 6 B_DIRTY =? 0)) with true. cbn beta iota.
  wp_steps. apply (wp_upd_buf i _ b); [done|]. wp_steps.
  eapply wp_upd_buf; [simpl; now apply list_lookup_insert_eq|].
  simpl. rewrite list_insert_insert_eq, Hf. exact HQ.
Qed.
End iderw.

(** bread returns the block's buffer, locked by the caller; nothing of the view changes but
    the lock. *)
Lemma wp_bread s me p v bno (Q : nat -> kstate -> Prop) :
  kenv s me p -> binv s v -> 0 <= bno < FSSIZE ->
  v_held v !! bno = None -> available v bno ->
  (forall i bs', let s' := s <| k_bufs := bs' |> in
     binv s' (v <| v_held := <[bno := (i, p_pid p)]> (v_held v) |>) -> Q i s') ->
  wp (bread 1 bno) Q s.
Proof.
  intros He Hinv Hbno Hnh Hsz HQ. unfold bread. wp_steps.
  eapply (wp_bget s me p v); [done..|]. intros i b (Hi & Hb & Hlk & Hrc & Hor).
  assert (i < length (k_bufs s))%nat as Hlt by (now apply lookup_lt_Some in Hb).
  wp_steps. eapply wp_buf_at; [simpl; now apply list_lookup_insert_eq|].
  unfold bget_buf. destruct Hor as [[Hrep Hbn]|[Hun Hno]].
  - pose proof Hrep as (Hd & _ & Hdat & _ & Hfl & Hco).
    rewrite bool_decide_eq_true_2 by done. simpl b_flags.
    apply wp_bind, wp_when; intros Hv.
    { rewrite Hfl in Hv. now case_decide. }
    wp_steps. apply HQ. eapply (binv_update (k_bufs s) i b); eauto; simpl.
    + rewrite Hbn. intros k Hk. simpl. now rewrite lookup_insert_ne.
    + unfold buf_rep. simpl. rewrite Hbn, lookup_insert_eq. rewrite Hbn in *. auto 10.
    + rewrite Hbn, lookup_insert_eq. congruence.
    + rewrite Hbn, dom_insert. set_solver.
    + apply (bi_len _ _ _ Hinv).
    + apply (bi_dlen _ _ _ Hinv).
  - rewrite bool_decide_eq_false_2 by (intros [H1 H2]; apply (Hno i); split; eauto).
    simpl b_flags. apply wp_bind, wp_when; [|done]. intros _.
    eapply (wp_iderw_read _ me p i); [now apply kenv_bufs|simpl; now apply list_lookup_insert_eq|done..|].
    wp_steps. simpl. rewrite list_insert_insert_eq. apply HQ.
    eapply (binv_recycle (k_bufs s) i b); [done|done|done|exact Hinv|done|done|done|].
    assert (bno ∉ v_dirty v) as Hnd.
    { intros Hd. destruct (bi_dirty _ _ _ Hinv bno Hd) as (j & Hj). now apply (Hno j). }
    unfold buf_rep. simpl. rewrite lookup_insert_eq. repeat (split; [done|]).
    split; [symmetry; now apply (bi_disk _ _ _ Hinv)|]. split; [done|].
    split; [now rewrite decide_False|]. done.
Qed.

(** ** Writing to a locked block *)

Definition dupd (f : Z -> list Z) (k : Z) (x : list Z) : Z -> list Z :=
  fun n => if decide (n = k) then x else f n.
Lemma dupd_eq f k x : dupd f k x k = x.
Proof. unfold dupd. now rewrite decide_True. Qed.
Lemma dupd_ne f k x n : n <> k -> dupd f k x n = f n.
Proof. intros. unfold dupd. now rewrite decide_False. Qed.

(** The view after the content of [bno] was changed in the cache. *)
Definition v_modify (bno : Z) (x : list Z) (v : bview) : bview :=
  v <| v_data := dupd (v_data v) bno x |> <| v_mod := {[ bno ]} ∪ v_mod v |>.

Lemma wp_upd_data s v bno i pid (f : buf -> list Z) (Q : unit -> kstate -> Prop) :
  binv s v -> v_held v !! bno = Some (i, pid) ->
  (forall b, k_bufs s !! i = Some b -> b_data b = v_data v bno -> length (f b) = 512%nat) ->
  (forall b bs', k_bufs s !! i = Some b -> b_data b = v_data v bno ->
     let s' := s <| k_bufs := bs' |> in binv s' (v_modify bno (f b) v) -> Q tt s') ->
  wp (upd_buf i (fun x => x <| b_data := f x |>)) Q s.
Proof.
  intros Hinv Hh Hlen HQ.
  destruct (binv_held _ _ _ _ _ _ Hinv Hh) as (Hi & b & Hb & Hrep & Hbn & Hlk & Hrc).
  pose proof Hrep as (Hd & Hr & Hdat & Hl & Hfl & Hco). rewrite Hbn in *.
  apply (wp_upd_buf i _ b); [done|]. apply (HQ b _); [done|done|].
  eapply (binv_update (k_bufs s) i b); eauto; simpl; rewrite ?Hbn.
  - intros k Hk. simpl. rewrite dupd_ne by done. set_solver.
  - unfold buf_rep. simpl. rewrite Hbn, dupd_eq. repeat (split; [done|]). set_solver.
  - intros j q. rewrite Hh. congruence.
  - intros _. apply elem_of_dom. eauto.
  - rewrite dupd_eq. eauto.
  - apply (bi_dlen _ _ _ Hinv).
Qed.

(** The view after block [bno] was written to the disk. *)
Definition v_clean (bno : Z) (v : bview) : bview :=
  v <| v_dirty := v_dirty v ∖ {[ bno ]} |> <| v_mod := v_mod v ∖ {[ bno ]} |>.

Lemma wp_bwrite s me p v bno i (Q : unit -> kstate -> Prop) :
  kenv s me p -> binv s v -> v_held v !! bno = Some (i, p_pid p) ->
  (forall bs', let s' := s <| k_bufs := bs' |>
       <| k_disk := <[bno := v_data v bno]> (k_disk s) |>
       <| k_trace := k_trace s ++ [(bno, v_data v bno)] |> in
     binv s' (v_clean bno v) -> Q tt s') ->
  wp (bwrite i) Q s.
Proof.
  intros He Hinv Hh HQ.
  destruct (binv_held _ _ _ _ _ _ Hinv Hh) as (Hi & b & Hb & Hrep & Hbn & Hlk & Hrc).
  pose proof Hrep as (Hd & Hr & Hdat & Hl & Hfl & Hco). rewrite Hbn in *.
  assert (i < length (k_bufs s))%nat as Hlt by (now apply lookup_lt_Some in Hb).
  assert (Z.lor (b_flags b) B_DIRTY = 6) as Hf6 by (rewrite Hfl; now case_decide).
  unfold bwrite. wp_steps. eapply (wp_holdingsleep_mine s me p i b); [done..|]. cbn [negb]. wp_steps.
  apply (wp_upd_buf i _ b); [done|].
  eapply (wp_iderw_write _ me p i);
    [now apply kenv_bufs|simpl; now apply list_lookup_insert_eq|done|done|simpl; now rewrite Hbn|done|].
  simpl. rewrite list_insert_insert_eq, Hbn, Hdat. apply HQ.
  assert (disk_block (<[bno := v_data v bno]> (k_disk s)) bno = v_data v bno) as Hdb.
  { unfold disk_block. now rewrite lookup_insert_eq. }
  eapply (binv_update (k_bufs s) i b); eauto; simpl; rewrite ?Hbn.
  - intros k Hk. simpl. unfold disk_block. rewrite lookup_insert_ne by done. set_solver.
  - unfold buf_rep. simpl. rewrite Hbn, Hdb, Hh. rewrite decide_False by set_solver.
    rewrite Hlk, Hrc. auto 10.
  - rewrite Hh. congruence.
  - set_solver.
  - apply (bi_len _ _ _ Hinv).
  - rewrite Hdb. apply (bi_len _ _ _ Hinv).
Qed.

(** ** brelse *)

Section links.
Implicit Types (s : kstate) (Q : unit -> kstate -> Prop).

(** [bs'] is [bs] with the links [nx] and [pv]. *)
Definition relinked (bs bs' : list buf) (nx pv : list nat) : Prop :=
  core <$> bs' = core <$> bs /\ b_next <$> bs' = nx /\ b_prev <$> bs' = pv.

Lemma fmap_insert_id {A B} (g : A -> B) (l : list A) i x y :
  l !! i = Some x -> g y = g x -> g <$> <[i := y]> l = g <$> l.
Proof.
  intros Hx Hg. rewrite list_fmap_insert, Hg. apply list_insert_id.
  now rewrite list_lookup_fmap, Hx.
Qed.

Lemma wp_set_prev s j q Q :
  (j < length (k_bufs s))%nat ->
  (forall bs', relinked (k_bufs s) bs' (b_next <$> k_bufs s) (<[j := q]> (b_prev <$> k_bufs s)) ->
     Q tt (s <| k_bufs := bs' |>)) ->
  wp (upd_buf j (fun x => x <| b_prev := q |>)) Q s.
Proof.
  intros Hj HQ. destruct (lookup_lt_is_Some_2 _ _ Hj) as (b & Hb).
  apply (wp_upd_buf j _ b); [done|]. apply HQ. split; [|split].
  - now apply fmap_insert_id with b.
  - now apply fmap_insert_id with b.
  - now rewrite list_fmap_insert.
Qed.

Lemma wp_set_next s j q Q :
  (j < length (k_bufs s))%nat ->
  (forall bs', relinked (k_bufs s) bs' (<[j := q]> (b_next <$> k_bufs s)) (b_prev <$> k_bufs s) ->
     Q tt (s <| k_bufs := bs' |>)) ->
  wp (upd_buf j (fun x => x <| b_next := q |>)) Q s.
Proof.
  intros Hj HQ. destruct (lookup_lt_is_Some_2 _ _ Hj) as (b & Hb).
  apply (wp_upd_buf j _ b); [done|]. apply HQ. split; [|split].
  - now apply fmap_insert_id with b.
  - now rewrite list_fmap_insert.
  - now apply fmap_insert_id with b.
Qed.

Lemma wp_set_both s j q r Q :
  (j < length (k_bufs s))%nat ->
  (forall bs', relinked (k_bufs s) bs' (<[j := q]> (b_next <$> k_bufs s))
                 (<[j := r]> (b_prev <$> k_bufs s)) -> Q tt (s <| k_bufs := bs' |>)) ->
  wp (upd_buf j (fun x => x <| b_next := q |> <| b_prev := r |>)) Q s.
Proof.
  intros Hj HQ. destruct (lookup_lt_is_Some_2 _ _ Hj) as (b & Hb).
  apply (wp_upd_buf j _ b); [done|]. apply HQ. split; [|split].
  - now apply fmap_insert_id with b.
  - now rewrite list_fmap_insert.
  - now rewrite list_fmap_insert.
Qed.

(** Reading a buffer whose links are known. *)
Lemma wp_buf_links s j n q (Q : buf -> kstate -> Prop) :
  (b_next <$> k_bufs s) !! j = Some n -> (b_prev <$> k_bufs s) !! j = Some q ->
  (forall b, b_next b = n -> b_prev b = q -> Q b s) -> wp (buf_at j) Q s.
Proof.
  rewrite !list_lookup_fmap. destruct (k_bufs s !! j) as [b|] eqn:Hb; simpl; [|done].
  intros [= Hn] [= Hq] HQ. apply (wp_buf_at j b); auto.
Qed.
End links.

Lemma relinked_trans bs bs1 bs2 nx1 pv1 nx2 pv2 :
  relinked bs bs1 nx1 pv1 -> relinked bs1 bs2 nx2 pv2 -> relinked bs bs2 nx2 pv2.
Proof. intros (H1 & _) (H2 & H3 & H4). unfold relinked. now rewrite H2. Qed.

Lemma seg_lt nx pv a l z : seg nx pv a l z -> (a < length nx)%nat /\ (z < length pv)%nat.
Proof.
  intros H. split; [apply seg_first in H|apply seg_last in H]; now apply lookup_lt_Some in H.
Qed.

(** push_front and move_front on the ring. *)
Lemma wp_push_front s b l (Q : unit -> kstate -> Prop) :
  seg (b_next <$> k_bufs s) (b_prev <$> k_bufs s) bhead l bhead ->
  NoDup l -> b ∉ l -> bhead ∉ l -> (b < bhead)%nat -> length (k_bufs s) = S bhead ->
  (forall bs' nx pv, relinked (k_bufs s) bs' nx pv -> seg nx pv bhead (b :: l) bhead ->
     Q tt (s <| k_bufs := bs' |>)) ->
  wp (push_front b) Q s.
Proof.
  intros Hs Hd Hb Hh Hlt Hlen HQ. pose proof (seg_first _ _ _ _ _ Hs) as Hf.
  pose proof (seg_last _ _ _ _ _ Hs) as Hl. pose proof (hd_in bhead l) as Hhd.
  unfold push_front. wp_steps. eapply wp_buf_links; [exact Hf|exact Hl|]. intros h Hn Hp.
  rewrite Hn. wp_steps. apply wp_set_both; [lia|]. intros bs1 Hr1. wp_steps.
  pose proof Hr1 as (Hc1 & Hn1 & Hp1).
  assert (length bs1 = S bhead) as Hlen1.
  { apply (f_equal length) in Hn1. rewrite length_insert, !length_fmap in Hn1. lia. }
  eapply (wp_buf_links _ bhead (hd bhead l)).
  { simpl. rewrite Hn1, list_lookup_insert_ne by lia. exact Hf. }
  { simpl. rewrite Hp1, list_lookup_insert_ne by lia. exact Hl. }
  intros h' Hn' _. rewrite Hn'. wp_steps.
  assert (hd bhead l < S bhead)%nat as Hhdlt.
  { destruct l as [|x l]; simpl; [lia|]. destruct Hs as (_ & Hx & _). apply lookup_lt_Some in Hx.
    rewrite length_fmap in Hx. lia. }
  apply wp_set_prev; [simpl; lia|]. intros bs2 Hr2. pose proof Hr2 as (Hc2 & Hn2 & Hp2).
  assert (length bs2 = S bhead) as Hlen2.
  { apply (f_equal length) in Hn2. simpl in Hn2. rewrite !length_fmap in Hn2. lia. }
  wp_steps. apply wp_set_next; [simpl; lia|]. intros bs3 Hr3. simpl in Hr2, Hr3, Hn2, Hp2.
  eapply (HQ bs3 _ _ (relinked_trans _ _ _ _ _ _ _ Hr1 (relinked_trans _ _ _ _ _ _ _ Hr2 Hr3))).
  rewrite Hn2, Hp2, Hn1, Hp1. apply seg_push; auto; rewrite ?length_fmap; lia.
Qed.

Lemma wp_move_front s b l (Q : unit -> kstate -> Prop) :
  ring (b_next <$> k_bufs s) (b_prev <$> k_bufs s) l -> (b < bhead)%nat ->
  (forall bs' l', core <$> bs' = core <$> k_bufs s ->
     ring (b_next <$> bs') (b_prev <$> bs') l' -> head l' = Some b -> Q tt (s <| k_bufs := bs' |>)) ->
  wp (move_front b) Q s.
Proof.
  intros Hring Hb HQ. pose proof (ring_length _ _ Hring) as Hlen.
  destruct Hring as (Hs & Hperm & _ & _).
  assert (NoDup l) as Hd by (rewrite Hperm; apply NoDup_seq).
  assert (b ∈ l) as Hin by (rewrite Hperm, elem_of_seq; lia).
  assert (bhead ∉ l) as Hh by (rewrite Hperm, elem_of_seq; lia).
  apply list_elem_of_split in Hin as (l1 & l2 & ->).
  rewrite <- Permutation_middle in Hd. apply list.NoDup_cons in Hd as [Hbl Hd].
  pose proof Hs as [H1 H2]%seg_app.
  pose proof (seg_first _ _ _ _ _ H2) as Hn. pose proof (seg_last _ _ _ _ _ H1) as Hp.
  pose proof (last_in bhead l1) as Hlast. pose proof (hd_in bhead l2) as Hhd.
  assert (hd bhead l2 <> b) as Hne1 by (destruct Hhd as [-> | ?]; [lia | set_solver]).
  assert (hd bhead l2 < S bhead)%nat as Hlt1.
  { destruct Hhd as [-> | Hi]; [lia|]. assert (hd bhead l2 ∈ seq 0 bhead) as E.
    { rewrite <- Hperm. set_solver. } apply elem_of_seq in E. lia. }
  assert (List.last l1 bhead < S bhead)%nat as Hlt2.
  { destruct Hlast as [-> | Hi]; [lia|]. assert (List.last l1 bhead ∈ seq 0 bhead) as E.
    { rewrite <- Hperm. set_solver. } apply elem_of_seq in E. lia. }
  unfold move_front. wp_steps. eapply wp_buf_links; [exact Hn|exact Hp|]. intros x Hxn Hxp.
  rewrite Hxn, Hxp. wp_steps. apply wp_set_prev; [lia|]. intros bs1 Hr1. pose proof Hr1 as (_ & Hn1 & Hp1).
  wp_steps. eapply (wp_buf_links _ b).
  { simpl. rewrite Hn1. exact Hn. }
  { simpl. rewrite Hp1, list_lookup_insert_ne by done. exact Hp. }
  intros y Hyn Hyp. rewrite Hyn, Hyp. wp_steps.
  assert (length bs1 = S bhead) as Hlen1.
  { apply (f_equal length) in Hn1. rewrite !length_fmap in Hn1. lia. }
  apply wp_set_next; [simpl; lia|]. intros bs2 Hr2. simpl in Hr2. pose proof Hr2 as (_ & Hn2 & Hp2).
  assert (length bs2 = S bhead) as Hlen2.
  { apply (f_equal length) in Hp2. rewrite !length_fmap in Hp2. lia. }
  apply (wp_push_front _ b (l1 ++ l2)); try done.
  { simpl. rewrite Hn2, Hp2, Hn1, Hp1. apply (seg_unlink _ _ bhead l1 b l2 bhead); rewrite ?length_fmap; auto; try lia; set_solver. }
  { set_solver. }
  simpl. intros bs3 nx pv Hr3 Hseg.
  pose proof (relinked_trans _ _ _ _ _ _ _ Hr1 (relinked_trans _ _ _ _ _ _ _ Hr2 Hr3)) as (Hc & <- & <-).
  apply (HQ bs3 (b :: l1 ++ l2)); [done| |done].
  assert (length bs3 = S bhead) as Hlen3.
  { apply (f_equal length) in Hc. rewrite !length_fmap in Hc. lia. }
  split; [done|]. split; [rewrite <- Hperm; apply Permutation_middle|]. now rewrite !length_fmap.
Qed.

Definition v_unlock (bno : Z) (v : bview) : bview := v <| v_held := delete bno (v_held v) |>.

(** Unlocking a block that is clean or pinned. *)
Lemma binv_unlock bs d v bno i pid b :
  binv_at bs d v -> v_held v !! bno = Some (i, pid) -> bno ∉ v_mod v -> bs !! i = Some b ->
  binv_at (<[i := b <| b_lock := mk_sleeplock 0 0 |> <| b_refcnt := 0 |>]> bs) d (v_unlock bno v).
Proof.
  intros Hinv Hh Hm Hb. destruct (binv_held _ _ _ _ _ _ Hinv Hh) as (Hi & b' & Hb' & Hrep & Hbn & _).
  rewrite Hb in Hb'. injection Hb' as <-. pose proof Hrep as (Hd & Hr & Hdat & Hl & Hfl & Hco).
  eapply (binv_update bs i b); eauto; simpl; rewrite ?Hbn in *.
  - intros k Hk. simpl. now rewrite lookup_delete_ne.
  - unfold buf_rep. simpl. rewrite Hbn, lookup_delete_eq. auto 10.
  - now rewrite lookup_delete_eq.
  - done.
  - apply (bi_len _ _ _ Hinv).
  - apply (bi_dlen _ _ _ Hinv).
Qed.

Lemma wp_brelse s me p v bno i (Q : unit -> kstate -> Prop) :
  kenv s me p -> binv s v -> v_held v !! bno = Some (i, p_pid p) -> bno ∉ v_mod v ->
  (forall s', same_env s s' -> binv s' (v_unlock bno v) -> Q tt s') ->
  wp (brelse i) Q s.
Proof.
  intros He Hinv Hh Hm HQ.
  destruct (binv_held _ _ _ _ _ _ Hinv Hh) as (Hi & b & Hb & Hrep & Hbn & Hlk & Hrc).
  assert (i < length (k_bufs s))%nat as Hlt by (now apply lookup_lt_Some in Hb).
  pose proof (binv_unlock _ _ _ _ _ _ _ Hinv Hh Hm Hb) as Hinv'.
  unfold brelse. wp_steps. eapply (wp_holdingsleep_mine s me p i b); [done..|]. cbn [negb]. wp_steps.
  eapply (wp_releasesleep_buf i b me p); [done|now apply kenv_ready|]. wp_steps.
  apply wp_acquire; [simpl; destruct He as (_ & _ & _ & ->); set_solver|]. wp_steps.
  eapply (wp_upd_buf i); [simpl; now apply list_lookup_insert_eq|]. wp_steps.
  eapply wp_buf_at; [simpl; rewrite list_insert_insert_eq; now apply list_lookup_insert_eq|].
  simpl. rewrite Hrc. change (u32 (1 - 1)) with 0. wp_steps. apply wp_when; [intros _|done].
  simpl. rewrite list_insert_insert_eq. destruct (bi_ring _ _ _ Hinv') as (l & Hring).
  apply (wp_move_front _ i l); [exact Hring|exact Hi|]. simpl. intros bs' l' Hc Hr' _.
  wp_steps. eapply wp_release_head; [simpl; reflexivity|]. apply HQ.
  - exists bs', (wake (ChSleeplock (SLBuf i)) <$> k_procs s). split; [now destruct s|].
    apply woken_wake.
  - exact (binv_links _ _ _ _ l' Hc Hr' Hinv').
Qed.

(** ** binit *)

(** The cache in which no block is cached. *)
Definition v_init (d : gmap Z (list Z)) : bview := mk_bview (disk_block d) ∅ ∅ ∅.

Definition bufs_fresh (bs : list buf) : Prop :=
  length bs = S bhead /\ forall i b, (i < bhead)%nat -> bs !! i = Some b -> buf_fresh b.

Lemma core_fresh (bs bs' : list buf) :
  core <$> bs' = core <$> bs -> bufs_fresh bs -> bufs_fresh bs'.
Proof.
  intros Hc [Hl Hf]. split.
  { apply (f_equal length) in Hc. rewrite !length_fmap in Hc. lia. }
  intros i b Hi Hb. destruct (core_lookup _ _ _ _ Hc Hb) as (b0 & Hb0 & E).
  specialize (Hf i b0 Hi Hb0). destruct b, b0. injection E as. unfold buf_fresh in *. simpl in *.
  now subst.
Qed.

Lemma binv_fresh bs d l :
  bufs_fresh bs -> ring (b_next <$> bs) (b_prev <$> bs) l ->
  (forall bno, length (disk_block d bno) = 512%nat) -> binv_at bs d (v_init d).
Proof.
  intros [_ Hf] Hr Hd. assert (forall i k, ~ caches bs i k) as Hno.
  { intros i k (Hi & b & Hb & H1 & _). destruct (Hf i b Hi Hb) as (H0 & _). congruence. }
  constructor; simpl; eauto; try done; intros; exfalso; eapply Hno; eauto.
Qed.

(** The loop of binit: the buffers before [k] are linked, the last one first. *)
Lemma wp_binit_loop n : forall k s (Q : unit -> kstate -> Prop),
  (k + n = bhead)%nat -> bufs_fresh (k_bufs s) ->
  seg (b_next <$> k_bufs s) (b_prev <$> k_bufs s) bhead (reverse (seq 0 k)) bhead ->
  (forall bs', bufs_fresh bs' ->
     seg (b_next <$> bs') (b_prev <$> bs') bhead (reverse (seq 0 bhead)) bhead ->
     Q tt (s <| k_bufs := bs' |>)) ->
  wp (for_ (seq k n) (fun b => initsleeplock (SLBuf b) ;; push_front b)) Q s.
Proof.
  induction n as [|n IH]; intros k s Q Hk Hf Hs HQ; simpl.
  { apply wp_ret. rewrite Nat.add_0_r in Hk. subst k. specialize (HQ (k_bufs s) Hf Hs).
    now rewrite set_bufs_same in HQ. }
  pose proof Hf as [Hlen Hfr].
  destruct (lookup_lt_is_Some_2 (k_bufs s) k ltac:(lia)) as (b & Hb).
  destruct (Hfr k b ltac:(lia) Hb) as (_ & _ & Hlk & _).
  wp_steps. unfold initsleeplock, sl_set. apply (wp_upd_buf k _ b); [done|].
  assert (<[k := b <| b_lock := mk_sleeplock 0 0 |>]> (k_bufs s) = k_bufs s) as ->.
  { apply list_insert_id. rewrite Hb. f_equal. destruct b. simpl in *. now subst. }
  rewrite set_bufs_same. apply (wp_push_front _ k (reverse (seq 0 k))); auto.
  - rewrite reverse_Permutation. apply NoDup_seq.
  - rewrite elem_of_reverse, elem_of_seq. lia.
  - rewrite elem_of_reverse, elem_of_seq. lia.
  - lia.
  - intros bs' nx pv (Hc & <- & <-) Hs'. apply (IH (S k)); [lia| | |exact HQ].
    + now apply core_fresh with (k_bufs s).
    + rewrite seq_S, reverse_snoc. exact Hs'.
Qed.

Lemma wp_binit s (Q : unit -> kstate -> Prop) :
  bufs_fresh (k_bufs s) -> (forall bno, length (disk_block (k_disk s) bno) = 512%nat) ->
  (forall bs', let s' := s <| k_bufs := bs' |> in binv s' (v_init (k_disk s)) -> Q tt s') ->
  wp binit Q s.
Proof.
  intros Hf Hd HQ. pose proof Hf as [Hlen _]. unfold binit. wp_steps.
  apply wp_set_prev; [lia|]. intros bs1 (Hc1 & Hn1 & Hp1). wp_steps.
  assert (length bs1 = S bhead) as Hlen1 by (apply (core_fresh _ _ Hc1 Hf)).
  apply wp_set_next; [simpl; lia|]. intros bs2 (Hc2 & Hn2 & Hp2). simpl in *.
  apply (wp_binit_loop bhead 0); [done| | |].
  - simpl. apply (core_fresh _ _ Hc2), (core_fresh _ _ Hc1), Hf.
  - simpl. rewrite Hn2, Hp2, Hp1. rewrite !list_lookup_insert_eq by (rewrite length_fmap; lia). done.
  - simpl. intros bs' Hf' Hs'. apply HQ. eapply (binv_fresh _ _ (reverse (seq 0 bhead))); [done| |done].
    split; [done|]. split; [apply reverse_Permutation|]. destruct Hf' as [Hl' _].
    now rewrite !length_fmap.
Qed.

(** ** The cache refines the disk *)

(** A client reads a block, or overwrites one through its buffer. *)
Inductive bop := BRead (bno : Z) | BWrite (bno : Z) (x : list Z).

Definition bop_ok (o : bop) : Prop :=
  match o with
  | BRead bno => 0 <= bno < FSSIZE
  | BWrite bno x => 0 <= bno < FSSIZE /\ length x = 512%nat
  end.

Fixpoint bclient (ops : list bop) : K (list (list Z)) :=
  match ops with
  | [] => ret []
  | BRead bno :: ops' =>
    b ← bread 1 bno; x ← buf_at b; brelse b ;;
    rest ← bclient ops'; ret (b_data x :: rest)
  | BWrite bno x :: ops' =>
    b ← bread 1 bno; upd_buf b (fun y => y <| b_data := x |>) ;; bwrite b ;; brelse b ;;
    bclient ops'
  end.

(** The same operations on a disk without a cache. *)
Fixpoint disk_run (d : gmap Z (list Z)) (ops : list bop) : list (list Z) * gmap Z (list Z) :=
  match ops with
  | [] => ([], d)
  | BRead bno :: ops' => let '(r, d') := disk_run d ops' in (disk_block d bno :: r, d')
  | BWrite bno x :: ops' => disk_run (<[bno := x]> d) ops'
  end.

(** No block is locked, pinned or modified, and the view is the disk. *)
Definition quiet (d : gmap Z (list Z)) (v : bview) : Prop :=
  v_held v = ∅ /\ v_dirty v = ∅ /\ v_mod v = ∅ /\ forall bno, v_data v bno = disk_block d bno.

Lemma quiet_in_use d v : quiet d v -> (size (in_use v) < bhead)%nat.
Proof.
  intros (Hh & Hd & _). unfold in_use. rewrite Hh, Hd, dom_empty_L, union_empty_l_L, size_empty.
  now apply Nat.ltb_lt.
Qed.

Lemma bclient_refines ops : forall s me p v,
  Forall bop_ok ops -> kenv s me p -> binv s v -> quiet (k_disk s) v ->
  wp (bclient ops) (fun r s' => (r, k_disk s') = disk_run (k_disk s) ops) s.
Proof.
  induction ops as [|[bno|bno x] ops IH]; intros s me p v Hops He Hinv Hq; pose proof Hq as (Hh & Hd & Hm & Hv);
    [done|apply list.Forall_cons in Hops as [Hop Hops]; simpl in Hop; cbn [bclient disk_run]..].
  - wp_steps. apply (wp_bread s me p v); auto; [now rewrite Hh|right; now apply quiet_in_use with (k_disk s)|].
    intros i bs' s' Hinv'. wp_steps.
    destruct (binv_held _ _ _ bno i (p_pid p) Hinv') as (_ & b & Hb & (_ & _ & Hdat & _) & Hbn & _).
    { simpl. apply lookup_insert_eq. }
    apply (wp_buf_at i b); [done|]. wp_steps.
    eapply (wp_brelse s' me p _ bno); [exact He|exact Hinv'|apply lookup_insert_eq| |].
    { simpl. rewrite Hm. set_solver. }
    intros s2 Hse Hinv2. wp_steps.
    assert (k_disk s2 = k_disk s) as Hk by (destruct Hse as (? & ? & -> & _); done).
    eapply wp_mono; [apply (IH s2 me p _ Hops (same_env_kenv _ _ _ _ Hse He) Hinv2)|].
    { rewrite Hk. unfold v_unlock. split; [|split; [done|split; [done|done]]]. simpl.
      rewrite Hh. apply map_eq. intros k. rewrite lookup_empty. destruct (decide (k = bno)) as [->|].
      - apply lookup_delete_eq.
      - now rewrite lookup_delete_ne, lookup_insert_ne. }
    simpl. intros r s3 Hr. wp_steps. rewrite Hk in Hr. rewrite <- Hr. do 2 f_equal.
    rewrite Hdat, Hbn. apply Hv.
  - destruct Hop as [Hop Hx]. wp_steps.
    apply (wp_bread s me p v); auto; [now rewrite Hh|right; now apply quiet_in_use with (k_disk s)|].
    intros i bs' s' Hinv'. wp_steps.
    eapply (wp_upd_data s' _ bno i (p_pid p) (fun _ => x)); [exact Hinv'|apply lookup_insert_eq|done|].
    intros b bs2 _ _ s2 Hinv2. wp_steps.
    eapply (wp_bwrite s2 me p _ bno i); [exact He|exact Hinv2|apply lookup_insert_eq|].
    intros bs3 s3 Hinv3. wp_steps.
    eapply (wp_brelse s3 me p _ bno); [exact He|exact Hinv3|apply lookup_insert_eq|simpl; set_solver|].
    intros s4 Hse Hinv4.
    assert (k_disk s4 = <[bno := x]> (k_disk s)) as Hk.
    { destruct Hse as (? & ? & -> & _). simpl. now rewrite dupd_eq. }
    eapply wp_mono; [apply (IH s4 me p _ Hops (same_env_kenv _ _ _ _ Hse He) Hinv4)|].
    { rewrite Hk. split; [|split; [|split]]; simpl.
      - rewrite Hh. apply map_eq. intros k. rewrite lookup_empty. destruct (decide (k = bno)) as [->|].
        + apply lookup_delete_eq.
        + now rewrite lookup_delete_ne, lookup_insert_ne.
      - rewrite Hd. set_solver.
      - rewrite Hm. set_solver.
      - intros k. unfold disk_block. destruct (decide (k = bno)) as [->|].
        + now rewrite dupd_eq, lookup_insert_eq.
        + rewrite dupd_ne, lookup_insert_ne by done. apply Hv. }
    intros r s5 ->. now rewrite Hk.
Qed.

(** C13: after binit, any sequence of block reads and writes through the buffer cache (bread,
    bwrite, brelse) terminates without panic and gives exactly the results and the final disk
    of the same sequence on the bare disk: the cache never serves stale or misplaced data, and
    it never runs out of buffers. *)
Theorem bcache_refines_disk ops s me p :
  Forall bop_ok ops -> kenv s me p -> bufs_fresh (k_bufs s) ->
  (forall bno, length (disk_block (k_disk s) bno) = 512%nat) ->
  wp (binit ;; bclient ops) (fun r s' => (r, k_disk s') = disk_run (k_disk s) ops) s.
Proof.
  intros Hops He Hf Hd. wp_steps. apply wp_binit; auto. intros bs' s' Hinv.
  apply (bclient_refines ops s' me p (v_init (k_disk s))); auto. now repeat split.
Qed.

Lemma one_proc_fresh p : bufs_fresh (k_bufs (one_proc_state p [])).
Proof.
  split; [reflexivity|]. intros i b _ Hb. apply lookup_replicate in Hb as [-> _]. done.
Qed.

Lemma one_proc_kenv : kenv (one_proc_state zero_proc []) 0 running_proc.
Proof. repeat split. Qed.

Lemma empty_disk_len bno : length (disk_block ∅ bno) = 512%nat.
Proof. unfold disk_block. rewrite lookup_empty. reflexivity. Qed.

Lemma bcache_refines_disk_witness :
  let ops := [BRead 3; BWrite 3 (replicate 512 7); BRead 3] in
  let s := one_proc_state zero_proc [] in
  wp (binit ;; bclient ops) (fun r s' => (r, k_disk s') = disk_run (k_disk s) ops) s.
Proof.
  intros ops s. refine (bcache_refines_disk ops s 0 running_proc _ one_proc_kenv
                          (one_proc_fresh zero_proc) empty_disk_len).
  unfold ops. rewrite !list.Forall_cons. cbn [bop_ok]. rewrite length_replicate. unfold FSSIZE.
  repeat split; lia || constructor.
Defined.
