(* ===== verification/Ports.v ===== *)
(** The devices behind the port instructions of x86.h.

    A device is hardware, not part of the sources: the drivers are written against the interface
    [Ports], the effect of the port instructions on the state of the devices, and their theorems
    against laws that state what the device documents. A driver's state is a pair of its own
    variables and the devices. *)

From stdpp Require Import base list gmap strings numbers.
From Stdlib Require Import ZArith Lia.
From S2P Require Import Prelude.
Open Scope Z_scope.

Class Ports (D : Type) := {
  port_in : Z -> D -> Z * D;                    (* in: the byte read *)
  port_out : Z -> Z -> D -> D;                  (* out *)
  port_insl : Z -> nat -> D -> list Z * D;      (* rep insl: 4 * cnt bytes *)
  port_outsl : Z -> list Z -> D -> D            (* rep outsl *)
}.

(** Memory-mapped device registers: 32-bit accesses at physical addresses. *)
Class Mmio (D : Type) := {
  mmio_load : Z -> D -> Z * D;
  mmio_store : Z -> Z -> D -> D
}.

Section mmio.
Context {G D : Type} `{Mmio D}.

Definition mload (a : Z) : M (G * D) Z := fun '(g, d) => let '(v, d') := mmio_load a d in Ok v (g, d').
Definition mstore (a v : Z) : M (G * D) unit := fun '(g, d) => Ok tt (g, mmio_store a (u32 v) d).

Lemma wp_mload a v d' (Q : Z -> G * D -> Prop) g d : mmio_load a d = (v, d') -> Q v (g, d') -> wp (mload a) Q (g, d).
Proof. intros E HQ. unfold wp, mload. now rewrite E. Qed.

Lemma wp_mstore a v (Q : unit -> G * D -> Prop) g d : Q tt (g, mmio_store a (u32 v) d) -> wp (mstore a v) Q (g, d).
Proof. done. Qed.
End mmio.

Section ports.
Context {G D : Type} `{Ports D}.

Definition inb (port : Z) : M (G * D) Z := fun '(g, d) => let '(v, d') := port_in port d in Ok v (g, d').
Definition outb (port data : Z) : M (G * D) unit := fun '(g, d) => Ok tt (g, port_out port (u8 data) d).
Definition insl (port cnt : Z) : M (G * D) (list Z) := fun '(g, d) =>
  let '(bs, d') := port_insl port (Z.to_nat cnt) d in Ok bs (g, d').
Definition outsl (port : Z) (bs : list Z) : M (G * D) unit := fun '(g, d) => Ok tt (g, port_outsl port bs d).

(** Code that touches only the driver's variables. *)
Definition lift {A} (m : M G A) : M (G * D) A := fun '(g, d) =>
  match m g with
  | Ok a g' => Ok a (g', d)
  | Switch g' => Switch (g', d)
  | Panic msg => Panic msg
  | Fault msg => Fault msg
  | OutOfFuel => OutOfFuel
  end.

Lemma wp_inb port v d' (Q : Z -> G * D -> Prop) g d : port_in port d = (v, d') -> Q v (g, d') -> wp (inb port) Q (g, d).
Proof. intros E HQ. unfold wp, inb. now rewrite E. Qed.

Lemma wp_outb port data (Q : unit -> G * D -> Prop) g d : Q tt (g, port_out port (u8 data) d) -> wp (outb port data) Q (g, d).
Proof. done. Qed.

Lemma wp_insl port cnt bs d' (Q : list Z -> G * D -> Prop) g d : port_insl port (Z.to_nat cnt) d = (bs, d') -> Q bs (g, d') ->
  wp (insl port cnt) Q (g, d).
Proof. intros E HQ. unfold wp, insl. now rewrite E. Qed.

Lemma wp_outsl port bs (Q : unit -> G * D -> Prop) g d : Q tt (g, port_outsl port bs d) -> wp (outsl port bs) Q (g, d).
Proof. done. Qed.

Lemma wp_lift {A} (m : M G A) (Q : A -> G * D -> Prop) g d : wp m (fun a g' => Q a (g', d)) g -> wp (lift m) Q (g, d).
Proof. unfold wp, lift. now destruct (m g). Qed.

Lemma wps_lift {A} (m : M G A) (Q : A -> G * D -> Prop) R g d :
  wps m (fun a g' => Q a (g', d)) (fun g' => R (g', d)) g -> wps (lift m) Q R (g, d).
Proof. unfold wps, lift. now destruct (m g). Qed.
End ports.
