(* ===== verification/Ide.v ===== *)
(** The interrupt-driven disk driver, ide.c.

    The variables of the driver are the kernel's and [idequeue], [havedisk1]; the disk is behind the
    ports. The requests are linked by [b_qnext]: [qchain] is the queue as a list. The laws of the
    disk, class [IdeDisk], are those of the ATA registers the driver uses; the theorem is that the
    driver serves the requests in order, each with the effect of the synchronous driver memide.c. *)

From stdpp Require Import base list gmap strings numbers.
From Stdlib Require Import ZArith Lia.
From S2P Require Import Prelude Bytes Kstate Sched Bio Bcache Ports.
Open Scope Z_scope.

(** ** ide.c *)

Definition SECTOR_SIZE : Z := 512.
Definition IDE_BSY : Z := 0x80.
Definition IDE_DRDY : Z := 0x40.
Definition IDE_DF : Z := 0x20.
Definition IDE_ERR : Z := 0x01.
Definition IDE_CMD_READ : Z := 0x20.
Definition IDE_CMD_WRITE : Z := 0x30.
Definition IDE_CMD_RDMUL : Z := 0xc4.
Definition IDE_CMD_WRMUL : Z := 0xc5.

Record ideg := mk_ideg {
  ig_k : kstate;
  ig_queue : option nat;     (* idequeue *)
  ig_havedisk1 : Z
}.
Definition eta_ideg (r : ideg) : ideg := mk_ideg (ig_k r) (ig_queue r) (ig_havedisk1 r).
#[global] Instance set_ig_k : Setter ig_k := ltac:(mk_setter eta_ideg ig_k).
#[global] Instance set_ig_queue : Setter ig_queue := ltac:(mk_setter eta_ideg ig_queue).
#[global] Instance set_ig_havedisk1 : Setter ig_havedisk1 := ltac:(mk_setter eta_ideg ig_havedisk1).

(** Kernel code inside the driver. *)
Definition kern {A} (m : K A) : M ideg A := fun g =>
  match m (ig_k g) with
  | Ok a s => Ok a (g <| ig_k := s |>)
  | Switch s => Switch (g <| ig_k := s |>)
  | Panic msg => Panic msg
  | Fault msg => Fault msg
  | OutOfFuel => OutOfFuel
  end.

Section driver.
Context {D : Type} `{Ports D}.
Abbreviation I := (M (ideg * D)).
Abbreviation lk m := (lift (kern m)).

(** How often idewait may find the disk busy. *)
Context (fuel : nat).

Fixpoint idewait_loop (n : nat) : I Z :=
  match n with
  | O => nofuel
  | S n' =>
    r ← inb 0x1f7;
    if negb (Z.land r (Z.lor IDE_BSY IDE_DRDY) =? IDE_DRDY) then idewait_loop n' else ret r
  end.

Definition idewait (checkerr : bool) : I Z :=
  r ← idewait_loop fuel;
  ret (if checkerr && negb (Z.land r (Z.lor IDE_DF IDE_ERR) =? 0) then -1 else 0).

(** for(i=0; i<1000; i++) if(inb(0x1f7) != 0){ havedisk1 = 1; break; } *)
Fixpoint probe_disk1 (n : nat) : I unit :=
  match n with
  | O => ret tt
  | S n' =>
    r ← inb 0x1f7;
    if negb (r =? 0) then lift (modify (fun g => g <| ig_havedisk1 := 1 |>)) else probe_disk1 n'
  end.

(** [ioapicenable] is ioapicenable(IRQ_IDE, ncpu - 1). *)
Definition ideinit (ioapicenable : I unit) : I unit :=
  ioapicenable ;;
  idewait false ;;
  outb 0x1f6 (Z.lor 0xe0 (Z.shiftl 1 4)) ;;
  probe_disk1 1000 ;;
  outb 0x1f6 (Z.lor 0xe0 (Z.shiftl 0 4)).

Definition idestart (b : option nat) : I unit :=
  match b with
  | None => panic "idestart"
  | Some b =>
    bp ← lk (buf_at b);
    if FSSIZE <=? b_blockno bp then panic "incorrect blockno" else
    let sector_per_block := BSIZE / SECTOR_SIZE in
    let sector := s32 (b_blockno bp * sector_per_block) in
    let read_cmd := if sector_per_block =? 1 then IDE_CMD_READ else IDE_CMD_RDMUL in
    let write_cmd := if sector_per_block =? 1 then IDE_CMD_WRITE else IDE_CMD_WRMUL in
    if 7 <? sector_per_block then panic "idestart" else
    idewait false ;;
    outb 0x3f6 0 ;;
    outb 0x1f2 sector_per_block ;;
    outb 0x1f3 (Z.land sector 0xff) ;;
    outb 0x1f4 (Z.land (Z.shiftr sector 8) 0xff) ;;
    outb 0x1f5 (Z.land (Z.shiftr sector 16) 0xff) ;;
    outb 0x1f6 (Z.lor (Z.lor 0xe0 (Z.shiftl (Z.land (b_dev bp) 1) 4)) (Z.land (Z.shiftr sector 24) 0x0f)) ;;
    if negb (Z.land (b_flags bp) B_DIRTY =? 0) then
      outb 0x1f7 write_cmd ;;
      outsl 0x1f0 (b_data bp)
    else outb 0x1f7 read_cmd
  end.

Definition ideintr : I unit :=
  lk (acquire LIde) ;;
  q ← lift (gets ig_queue);
  match q with
  | None => lk (release LIde)
  | Some b =>
    bp ← lk (buf_at b);
    lift (modify (fun g => g <| ig_queue := b_qnext bp |>)) ;;
    (if Z.land (b_flags bp) B_DIRTY =? 0 then
       r ← idewait true;
       if 0 <=? r then
         bs ← insl 0x1f0 (BSIZE / 4);
         lk (upd_buf b (fun bp => bp <| b_data := bs |>))
       else ret tt
     else ret tt) ;;
    lk (upd_buf b (fun bp => bp <| b_flags := Z.lor (b_flags bp) B_VALID |>)) ;;
    lk (upd_buf b (fun bp => bp <| b_flags := Z.land (b_flags bp) (Z.lnot B_DIRTY) |>)) ;;
    lk (wakeup (ChBuf b)) ;;
    q ← lift (gets ig_queue);
    match q with Some _ => idestart q | None => ret tt end ;;
    lk (release LIde)
  end.

(** The loop that follows qnext from the buffer [a] to the end of the queue and puts [b] there. *)
Fixpoint append_after (n : nat) (a b : nat) : K unit :=
  match n with
  | O => nofuel
  | S n' =>
    ap ← buf_at a;
    match b_qnext ap with
    | None => upd_buf a (fun ap => ap <| b_qnext := Some b |>)
    | Some a' => append_after n' a' b
    end
  end.

Definition ide_append (b : nat) : M ideg unit :=
  q ← gets ig_queue;
  match q with
  | None => modify (fun g => g <| ig_queue := Some b |>)
  | Some a => kern (append_after (S (Z.to_nat NBUF)) a b)
  end.

(** while((b->flags & (B_VALID|B_DIRTY)) != B_VALID) sleep(b, &idelock); release(&idelock); *)
Definition iderw_wait (b : nat) : K unit :=
  bp ← buf_at b;
  if negb (Z.land (b_flags bp) (Z.lor B_VALID B_DIRTY) =? B_VALID) then sleep (ChBuf b) LIde
  else release LIde.

(** What a woken process does in iderw. *)
Definition iderw_resume (b : nat) : K unit := sleep_resume LIde ;; iderw_wait b.

Definition iderw (b : nat) : I unit :=
  h ← lk (holdingsleep (SLBuf b));
  if negb h then panic "iderw: buf not locked" else
  bp ← lk (buf_at b);
  if Z.land (b_flags bp) (Z.lor B_VALID B_DIRTY) =? B_VALID then panic "iderw: nothing to do" else
  have ← lift (gets ig_havedisk1);
  if negb (b_dev bp =? 0) && (have =? 0) then panic "iderw: ide disk 1 not present" else
  lk (acquire LIde) ;;
  lk (upd_buf b (fun bp => bp <| b_qnext := None |>)) ;;
  lift (ide_append b) ;;
  q ← lift (gets ig_queue);
  when (bool_decide (q = Some b)) (idestart (Some b)) ;;
  lk (iderw_wait b).
End driver.

(** ** The disk *)

(** Drive and sector that the task-file registers name. *)
Definition reg_drive (r : Z -> Z) : Z := r 0x1f6 / 16 mod 2.
Definition reg_sector (r : Z -> Z) : Z := r 0x1f3 + 256 * r 0x1f4 + 65536 * r 0x1f5 + 16777216 * (r 0x1f6 mod 16).

(** What the interface is in when its status is not busy: without a command, with the sector of a read at its data
    port (DRQ), or waiting there for the sector of a write (DRQ). *)
Inductive phase :=
  | Idle
  | HasData (drive sector : Z)
  | WantsData (drive sector : Z).

(** What the ATA interface promises. The status register shows ready after finitely many reads. An interface that is ready and
    without a command takes the task-file registers and a command; a read command leads to the sector they name at the
    data port or to an error, a write command to the wait for a sector of data or to an error; the data port works only in
    these phases. Of registers, commands and data sent at any other time nothing is said. *)
Class IdeDisk (D : Type) `{Ports D} := {
  disk_of : D -> Z -> Z -> list Z;               (* drive, sector *)
  reg_of : D -> Z -> Z;
  phase_of : D -> phase;                         (* when it is ready next *)
  polls_of : D -> nat;                           (* how often the status still reads busy *)
  bad_of : D -> bool;                            (* the last command failed *)
  law_status : forall d r d', port_in 0x1f7 d = (r, d') ->
    disk_of d' = disk_of d /\ phase_of d' = phase_of d /\ bad_of d' = bad_of d /\
    match polls_of d with
    | O => Z.land r (Z.lor IDE_BSY IDE_DRDY) = IDE_DRDY /\ (Z.land r (Z.lor IDE_DF IDE_ERR) =? 0) = negb (bad_of d) /\ polls_of d' = O
    | S n => Z.land r (Z.lor IDE_BSY IDE_DRDY) <> IDE_DRDY /\ polls_of d' = n
    end;
  law_control : forall v d, polls_of d = O -> phase_of d = Idle ->
    disk_of (port_out 0x3f6 v d) = disk_of d /\ polls_of (port_out 0x3f6 v d) = O /\ phase_of (port_out 0x3f6 v d) = Idle;
  law_reg : forall p v d, 0x1f2 <= p <= 0x1f6 -> polls_of d = O -> phase_of d = Idle ->
    disk_of (port_out p v d) = disk_of d /\ polls_of (port_out p v d) = O /\ phase_of (port_out p v d) = Idle /\
    forall p', reg_of (port_out p v d) p' = if p' =? p then v else reg_of d p';
  law_read : forall d, polls_of d = O -> phase_of d = Idle -> reg_of d 0x1f2 = 1 ->
    let d' := port_out 0x1f7 IDE_CMD_READ d in
    disk_of d' = disk_of d /\ phase_of d' = if bad_of d' then Idle else HasData (reg_drive (reg_of d)) (reg_sector (reg_of d));
  law_write : forall d, polls_of d = O -> phase_of d = Idle -> reg_of d 0x1f2 = 1 ->
    let d' := port_out 0x1f7 IDE_CMD_WRITE d in
    disk_of d' = disk_of d /\ phase_of d' = if bad_of d' then Idle else WantsData (reg_drive (reg_of d)) (reg_sector (reg_of d));
  law_insl : forall d dr sec, polls_of d = O -> phase_of d = HasData dr sec ->
    exists d', port_insl 0x1f0 128 d = (disk_of d dr sec, d') /\ disk_of d' = disk_of d /\ phase_of d' = Idle;
  law_outsl : forall d dr sec bs, polls_of d = O -> phase_of d = WantsData dr sec -> length bs = 512%nat ->
    let d' := port_outsl 0x1f0 bs d in
    phase_of d' = Idle /\
    (bad_of d' = false -> forall dr' sec', disk_of d' dr' sec' = if (dr' =? dr) && (sec' =? sec) then bs else disk_of d dr' sec')
}.

(** The driver sends the data of a write without looking at the status register, and it never looks whether a write failed. The
    disks it is made for ask for the data as soon as they have the command, and do not fail writes. *)
Definition prompt_writes (D : Type) `{IdeDisk D} : Prop :=
  forall d bs, polls_of d = O -> phase_of d = Idle -> reg_of d 0x1f2 = 1 -> length bs = 512%nat ->
    let d' := port_out 0x1f7 IDE_CMD_WRITE d in
    polls_of d' = O /\ bad_of d' = false /\ bad_of (port_outsl 0x1f0 bs d') = false.

Lemma wp_kern {A} (m : K A) (Q : A -> ideg -> Prop) g : wp m (fun a s => Q a (g <| ig_k := s |>)) (ig_k g) -> wp (kern m) Q g.
Proof. unfold wp, kern. now destruct (m (ig_k g)). Qed.

Lemma wps_kern {A} (m : K A) (Q : A -> ideg -> Prop) R g :
  wps m (fun a s => Q a (g <| ig_k := s |>)) (fun s => R (g <| ig_k := s |>)) (ig_k g) -> wps (kern m) Q R g.
Proof. unfold wps, kern. now destruct (m (ig_k g)). Qed.

(** A buffer that waits for the disk, as bread and bwrite hand it to iderw. *)
Record request (bp : buf) : Prop := {
  rq_dev : b_dev bp = 1;
  rq_bno : 0 <= b_blockno bp < FSSIZE;
  rq_len : length (b_data bp) = 512%nat;
  rq_flags : b_flags bp = 0 \/ b_flags bp = 6
}.

(** The disk after idestart: a write is done, a read is in progress. *)
Definition started {D} `{IdeDisk D} (bp : buf) (d d' : D) : Prop :=
  if b_flags bp =? 6
  then (forall sec, disk_of d' 1 sec = if sec =? b_blockno bp then b_data bp else disk_of d 1 sec) /\ phase_of d' = Idle
  else (forall sec, disk_of d' 1 sec = disk_of d 1 sec) /\ phase_of d' = if bad_of d' then Idle else HasData 1 (b_blockno bp).

Section disk.
Context {D : Type} `{HD : IdeDisk D}.
Context (fuel : nat).
Hypothesis Hfuel : forall d : D, (polls_of d < fuel)%nat.
Hypothesis Hprompt : prompt_writes D.

Lemma wp_idewait_loop n : forall g d (Q : Z -> ideg * D -> Prop), (polls_of d < n)%nat ->
  (forall r d', disk_of d' = disk_of d -> phase_of d' = phase_of d -> bad_of d' = bad_of d -> polls_of d' = O ->
     (Z.land r (Z.lor IDE_DF IDE_ERR) =? 0) = negb (bad_of d) -> Q r (g, d')) ->
  wp (idewait_loop n) Q (g, d).
Proof.
  induction n as [|n IH]; intros g d Q Hn HQ; [lia|]. cbn [idewait_loop]. wp_steps.
  destruct (port_in 0x1f7 d) as [r d'] eqn:E. apply (wp_inb _ _ _ _ _ _ E).
  destruct (law_status _ _ _ E) as (E1 & E2 & E3 & E4). destruct (polls_of d) as [|k] eqn:Ek.
  - destruct E4 as (A1 & A2 & A3). rewrite A1, Z.eqb_refl. cbn [negb]. wp_steps. now apply HQ.
  - destruct E4 as (A1 & A2). apply wp_if_true; [lia|]. apply IH; [lia|].
    intros r' d2 B1 B2 B3 B4 B5. apply HQ; congruence.
Qed.

Lemma wp_idewait g d checkerr (Q : Z -> ideg * D -> Prop) :
  (forall d', disk_of d' = disk_of d -> phase_of d' = phase_of d -> bad_of d' = bad_of d -> polls_of d' = O ->
     Q (if checkerr && bad_of d then -1 else 0) (g, d')) ->
  wp (idewait fuel checkerr) Q (g, d).
Proof.
  intros HQ. unfold idewait. wp_steps. apply wp_idewait_loop; [apply Hfuel|]. intros r d' E1 E2 E3 E4 E5. wp_steps.
  rewrite E5, negb_involutive. now apply HQ.
Qed.

(** The interface takes registers and commands. *)
Definition accepts (d : D) : Prop := polls_of d = O /\ phase_of d = Idle.

Lemma accepts_out p v d : 0x1f2 <= p <= 0x1f6 -> accepts d -> accepts (port_out p v d).
Proof. intros Hp [H1 H2]. now destruct (law_reg p v d Hp H1 H2) as (_ & ? & ? & _). Qed.
Lemma disk_of_out p v d : 0x1f2 <= p <= 0x1f6 -> accepts d -> disk_of (port_out p v d) = disk_of d.
Proof. intros Hp [H1 H2]. now destruct (law_reg p v d Hp H1 H2). Qed.
Lemma reg_of_out p v d p' : 0x1f2 <= p <= 0x1f6 -> accepts d -> reg_of (port_out p v d) p' = if p' =? p then v else reg_of d p'.
Proof. intros Hp [H1 H2]. now destruct (law_reg p v d Hp H1 H2) as (_ & _ & _ & ->). Qed.

(** The registers of a command, written one after the other. *)
Definition set_regs (v2 v3 v4 v5 v6 : Z) (d : D) : D :=
  port_out 0x1f6 v6 (port_out 0x1f5 v5 (port_out 0x1f4 v4 (port_out 0x1f3 v3 (port_out 0x1f2 v2 d)))).

Lemma set_regs_spec v2 v3 v4 v5 v6 d : accepts d -> let d' := set_regs v2 v3 v4 v5 v6 d in
  accepts d' /\ disk_of d' = disk_of d /\ reg_of d' 0x1f2 = v2 /\ reg_drive (reg_of d') = v6 / 16 mod 2 /\
  reg_sector (reg_of d') = v3 + 256 * v4 + 65536 * v5 + 16777216 * (v6 mod 16).
Proof.
  intros H2 d'. unfold d', set_regs, reg_drive, reg_sector.
  pose proof (accepts_out 0x1f2 v2 d ltac:(lia) H2) as H3. pose proof (accepts_out 0x1f3 v3 _ ltac:(lia) H3) as H4.
  pose proof (accepts_out 0x1f4 v4 _ ltac:(lia) H4) as H5. pose proof (accepts_out 0x1f5 v5 _ ltac:(lia) H5) as H6.
  split; [now apply accepts_out|]. split; [now rewrite !disk_of_out by (done || lia)|].
  repeat (rewrite reg_of_out by (done || lia); cbn [Z.eqb Pos.eqb]). done.
Qed.

(** The registers idestart fills. *)
Lemma ide_regs d bno : 0 <= bno < FSSIZE -> accepts d ->
  let d' := set_regs (u8 1) (u8 (Z.land bno 0xff)) (u8 (Z.land (Z.shiftr bno 8) 0xff)) (u8 (Z.land (Z.shiftr bno 16) 0xff))
              (u8 (Z.lor (Z.lor 0xe0 (Z.shiftl (Z.land 1 1) 4)) (Z.land (Z.shiftr bno 24) 0x0f))) (port_out 0x3f6 (u8 0) d) in
  accepts d' /\ disk_of d' = disk_of d /\ reg_of d' 0x1f2 = 1 /\ reg_drive (reg_of d') = 1 /\ reg_sector (reg_of d') = bno.
Proof.
  intros Hb [A1 A2] d'. unfold FSSIZE in Hb. destruct (law_control (u8 0) d A1 A2) as (C1 & C2 & C3).
  unfold d'. edestruct set_regs_spec as (S1 & S2 & S3 & S4 & S5); [exact (conj C2 C3)|].
  rewrite S4, S5, S3, S2, C1. split; [exact S1|]. split; [done|].
  rewrite !Z.shiftr_div_pow2 by lia. change 0xff with (Z.ones 8). change 0x0f with (Z.ones 4). rewrite !Z.land_ones by lia.
  change (2 ^ 24) with 16777216. change (2 ^ 16) with 65536. change (2 ^ 8) with 256. change (2 ^ 4) with 16.
  rewrite !(Z.div_small bno 16777216), !(Z.div_small bno 65536) by lia.
  change (u8 (Z.lor (Z.lor 224 (Z.shiftl (Z.land 1 1) 4)) (0 mod 16))) with 240. unfold u8.
  split; [reflexivity|]. split; [reflexivity|]. change (240 mod 16) with 0. div_lia.
Qed.

Lemma wp_lk {A} (m : K A) (Q : A -> ideg * D -> Prop) s q h d :
  wp m (fun a s' => Q a (mk_ideg s' q h, d)) s -> wp (lift (kern m)) Q (mk_ideg s q h, d).
Proof. intros Hw. apply wp_lift, wp_kern. exact Hw. Qed.

Lemma wps_lk {A} (m : K A) (Q : A -> ideg * D -> Prop) R s q h d :
  wps m (fun a s' => Q a (mk_ideg s' q h, d)) (fun s' => R (mk_ideg s' q h, d)) s -> wps (lift (kern m)) Q R (mk_ideg s q h, d).
Proof. intros Hw. apply wps_lift, wps_kern. exact Hw. Qed.

Lemma wp_idestart b bp s q h d (Q : unit -> ideg * D -> Prop) : k_bufs s !! b = Some bp -> request bp -> phase_of d = Idle ->
  (forall d', started bp d d' -> Q tt (mk_ideg s q h, d')) -> wp (idestart fuel (Some b)) Q (mk_ideg s q h, d).
Proof.
  intros Hb [Hdev Hbno Hlen Hfl] Hph HQ. unfold idestart. wp_steps. apply wp_lk, (wp_buf_at b bp); [done|].
  apply wp_if_false; [lia|]. cbv zeta. change (BSIZE / SECTOR_SIZE) with 1. rewrite Z.mul_1_r. cbn [Z.eqb Pos.eqb Z.ltb Z.compare].
  replace (s32 (b_blockno bp)) with (b_blockno bp) by (unfold FSSIZE in Hbno; word_lia). rewrite Hdev.
  apply wp_bind, wp_idewait. intros d1 E1 E2 _ E4. rewrite Hph in E2. wp_steps. repeat (apply wp_outb; wp_steps).
  destruct (ide_regs d1 (b_blockno bp) Hbno (conj E4 E2)) as ([A1 A2] & R1 & R2 & R3 & R4). unfold started in HQ. destruct Hfl as [Hf|Hf]; rewrite Hf in *.
  - change (negb (Z.land 0 B_DIRTY =? 0)) with false. cbv iota. apply wp_outb. destruct (law_read _ A1 A2 R2) as [L1 L2].
    apply HQ. change (0 =? 6) with false. cbv iota. change (u8 IDE_CMD_READ) with IDE_CMD_READ. rewrite R3, R4 in L2.
    split; [intros sec; exact (f_equal (fun f => f 1 sec) (eq_trans L1 (eq_trans R1 E1)))|exact L2].
  - change (negb (Z.land 6 B_DIRTY =? 0)) with true. cbv iota. wp_steps. apply wp_outb. wp_steps. apply wp_outsl.
    apply HQ. change (6 =? 6) with true. cbv iota. change (u8 IDE_CMD_WRITE) with IDE_CMD_WRITE. destruct (law_write _ A1 A2 R2) as [L1 L2].
    destruct (Hprompt _ (b_data bp) A1 A2 R2 Hlen) as (P1 & P2 & P3). rewrite P2, R3, R4 in L2.
    destruct (law_outsl _ _ _ _ P1 L2 Hlen) as [O1 O2]. split; [|exact O1]. intros sec. etrans; [exact (O2 P3 1 sec)|]. cbn [Z.eqb Pos.eqb andb].
    now rewrite L1, R1, E1.
Qed.

End disk.

(** ** The queue *)

Fixpoint qchain (bs : list buf) (o : option nat) (q : list nat) : Prop :=
  match q with
  | [] => o = None
  | b :: q' => o = Some b /\ exists bp, bs !! b = Some bp /\ qchain bs (b_qnext bp) q'
  end.

(** A buffer without its link. *)
Definition noq (bp : buf) : buf := bp <| b_qnext := None |>.

Lemma qchain_frame bs b bp o q : (b ∉ q) -> qchain bs o q -> qchain (<[b := bp]> bs) o q.
Proof.
  revert o. induction q as [|a q IH]; intros o Hb; simpl; [done|]. intros (-> & ap & Ha & Hq). apply not_elem_of_cons in Hb as [Hne Hb].
  split; [done|]. exists ap. rewrite list_lookup_insert_ne by done. split; [done|]. now apply IH.
Qed.

Lemma noq_insert (bs : list buf) (b : nat) bp bp' : bs !! b = Some bp -> noq bp' = noq bp -> noq <$> <[b := bp']> bs = noq <$> bs.
Proof.
  intros Hb E. rewrite list_fmap_insert, E. apply list_insert_id. rewrite list_lookup_fmap, Hb. done.
Qed.

(** [c] is the last buffer of the queue. *)
Lemma qchain_append (b : nat) bp q : forall a (bs : list buf) (c : nat) cp, qchain bs (Some a) (a :: q) -> NoDup (a :: q) -> (b ∉ a :: q) -> bs !! b = Some bp -> b_qnext bp = None ->
  list.last (a :: q) = Some c -> bs !! c = Some cp ->
  qchain (<[c := cp <| b_qnext := Some b |>]> bs) (Some a) ((a :: q) ++ [b]).
Proof.
  induction q as [|a' q IH]; intros a bs c cp Hq Hn Hb Hbp Hbn Hl Hc.
  - injection Hl as ->. apply not_elem_of_cons in Hb as [Hne _]. pose proof (lookup_lt_Some _ _ _ Hc) as Hlt. simpl. split; [done|].
    exists (cp <| b_qnext := Some b |>). rewrite list_lookup_insert_eq by done. split; [done|]. split; [done|]. exists bp.
    rewrite list_lookup_insert_ne by done. done.
  - destruct Hq as (_ & ap & Ha & Hq'). pose proof Hq' as (Ea & _). apply list.NoDup_cons in Hn as [Hna Hn]. apply not_elem_of_cons in Hb as [Hne Hb].
    change (list.last (a :: a' :: q)) with (list.last (a' :: q)) in Hl. assert (c ∈ a' :: q) as Hin by now apply last_Some_elem_of.
    assert (c <> a) by (intros ->; done). split; [done|]. exists ap. rewrite list_lookup_insert_ne by done. split; [done|].
    rewrite Ea in *. apply IH; done.
Qed.

Lemma wp_append_after b q : forall n a s (Q : unit -> kstate -> Prop), qchain (k_bufs s) (Some a) (a :: q) -> (length q < n)%nat ->
  (forall c cp, list.last (a :: q) = Some c -> k_bufs s !! c = Some cp -> Q tt (s <| k_bufs := <[c := cp <| b_qnext := Some b |>]> (k_bufs s) |>)) ->
  wp (append_after n a b) Q s.
Proof.
  induction q as [|a' q IH]; intros [|n] a s Q (_ & ap & Ha & Hq) Hn HQ; simpl in Hn; try lia; cbn [append_after]; wp_steps;
    apply (wp_buf_at a ap); try done; simpl in Hq.
  - rewrite Hq. apply (wp_upd_buf a _ ap); [done|]. now apply HQ.
  - destruct Hq as [E Hq]. rewrite E. apply IH; [done|lia|]. intros c cp Hl Hc. now apply HQ.
Qed.

Lemma wp_ide_append s a q h b bp : qchain (k_bufs s) a q -> NoDup q -> (b ∉ q) -> k_bufs s !! b = Some bp -> b_qnext bp = None ->
  (length q <= 31)%nat ->
  wp (ide_append b) (fun _ g => exists bs a', g = mk_ideg (s <| k_bufs := bs |>) a' h /\ qchain bs a' (q ++ [b]) /\
     noq <$> bs = noq <$> k_bufs s /\ (a' = Some b <-> q = [])) (mk_ideg s a h).
Proof.
  intros Hq Hn Hb Hbp Hbn Hlen. unfold ide_append. wp_steps. destruct q as [|x q]; simpl in Hq.
  - subst. cbn [ig_queue]. wp_steps. exists (k_bufs s), (Some b). split; [now destruct s|]. split; [|done]. simpl. eauto.
  - pose proof Hq as (-> & _). cbn [ig_queue]. apply wp_kern, (wp_append_after b q); [exact Hq|change (S (Z.to_nat NBUF)) with 31%nat; simpl in Hlen; lia|].
    intros c cp Hl Hc. eexists _, (Some x). split; [reflexivity|]. split; [now apply (qchain_append b bp)|].
    split; [now apply (noq_insert _ _ cp)|]. apply not_elem_of_cons in Hb as [Hne _]. split; [|done]. intros [= ->]. done.
Qed.

Lemma noq_lookup (bs bs' : list buf) (b : nat) bp : noq <$> bs = noq <$> bs' -> bs' !! b = Some bp ->
  exists bp', bs !! b = Some bp' /\ noq bp' = noq bp.
Proof.
  intros E Hb. assert ((noq <$> bs) !! b = Some (noq bp)) as Hl by (rewrite E, list_lookup_fmap, Hb; done).
  rewrite list_lookup_fmap in Hl. destruct (bs !! b) as [bp'|] eqn:Hb'; [|discriminate]. exists bp'. split; [done|].
  exact (inj Some _ _ Hl).
Qed.

Lemma noq_fields bp bp' : noq bp' = noq bp ->
  b_dev bp' = b_dev bp /\ b_blockno bp' = b_blockno bp /\ b_data bp' = b_data bp /\ b_flags bp' = b_flags bp /\ b_lock bp' = b_lock bp.
Proof. destruct bp, bp'. unfold noq. simpl. intros E. now injection E. Qed.

Lemma request_noq bp bp' : noq bp' = noq bp -> request bp -> request bp'.
Proof. intros E%noq_fields [H1 H2 H3 H4]. destruct E as (E1 & E2 & E3 & E4 & _). split; congruence || now rewrite ?E1, ?E2, ?E3, ?E4. Qed.

Lemma started_noq {D} `{IdeDisk D} bp bp' (d d' : D) : noq bp' = noq bp -> started bp d d' -> started bp' d d'.
Proof. intros E%noq_fields. destruct E as (_ & E2 & E3 & E4 & _). unfold started. now rewrite E2, E3, E4. Qed.

(** The driver with the requests [q] beside a kernel whose disk is memide.c's and which has not
    served them yet. *)
Record ide_ok {D} `{IdeDisk D} (g : ideg) (d : D) (sm : kstate) (q : list nat) : Prop := {
  io_chain : qchain (k_bufs (ig_k g)) (ig_queue g) q;
  io_nodup : NoDup q;
  io_bufs : noq <$> k_bufs (ig_k g) = noq <$> k_bufs sm;
  io_len : length (k_bufs (ig_k g)) = 31%nat;
  io_procs : k_procs (ig_k g) = k_procs sm;
  io_held : k_held (ig_k g) = [] /\ k_held sm = [];
  io_have : ig_havedisk1 g <> 0;
  io_req : forall b, b ∈ q -> exists bp, k_bufs (ig_k g) !! b = Some bp /\ request bp;
  io_disk : match q with
            | [] => (forall sec, disk_of d 1 sec = disk_block (k_disk sm) sec) /\ phase_of d = Idle
            | b :: _ => exists bp d0, k_bufs (ig_k g) !! b = Some bp /\ started bp d0 d /\
                                      forall sec, disk_of d0 1 sec = disk_block (k_disk sm) sec
            end
}.

Lemma queue_length (q : list nat) n : NoDup q -> (forall b, b ∈ q -> (b < n)%nat) -> (length q <= n)%nat.
Proof.
  intros Hn Hb. pose proof (submseteq_length q (seq 0 n)) as H. rewrite length_seq in H. apply H, NoDup_submseteq; [done|].
  intros b Hin. apply elem_of_seq. specialize (Hb b Hin). lia.
Qed.

Section refine.
Context {D : Type} `{HD : IdeDisk D}.
Context (fuel : nat).
Hypothesis Hfuel : forall d : D, (polls_of d < fuel)%nat.
Hypothesis Hprompt : prompt_writes D.

Definition asleep (b : nat) (p : proc) : proc := p <| p_chan := ChBuf b |> <| p_state := SLEEPING |>.

(** The state when process [i] runs on the cpu, and when nobody does. *)
Definition oncpu (i : nat) (g : ideg) : ideg := g <| ig_k := (ig_k g) <| k_cur := Some i |> |>.
Definition offcpu (g : ideg) : ideg := g <| ig_k := (ig_k g) <| k_held := [] |> |>.

(** The requests after [b] has joined them. *)
Lemma ide_ok_join g d sm q i p b bp1 bp2 bs a' d' s' : ide_ok g d sm q -> k_bufs (ig_k g) !! b = Some bp1 -> noq bp2 = noq bp1 -> request bp1 -> (b ∉ q) ->
  qchain bs a' (q ++ [b]) -> noq <$> bs = noq <$> <[b := bp2]> (k_bufs (ig_k g)) ->
  (if decide (q = []) then started bp1 d d' else d' = d) ->
  k_bufs s' = bs -> k_held s' = [] -> k_procs s' = <[i := asleep b p]> (k_procs sm) ->
  ide_ok (mk_ideg s' a' (ig_havedisk1 g)) d' (sm <| k_procs := <[i := asleep b p]> (k_procs sm) |>) (q ++ [b]).
Proof.
  intros [Hch Hnd Hbs Hlen Hpr [Hh Hhm] Hhv Hrq Hdk] Hb1 En Hreq Hnb Hq Hnoq Hd Hsb Hsh Hsp.
  rewrite (noq_insert _ _ bp1) in Hnoq by done. subst bs. split; cbn [ig_k ig_queue ig_havedisk1]; try done.
  - apply list.NoDup_app. split; [done|]. split; [|apply list.NoDup_singleton]. intros x Hx Hx'. apply list_elem_of_singleton in Hx' as ->. done.
  - now rewrite Hnoq.
  - rewrite <- (length_fmap noq), Hnoq, length_fmap. done.
  - intros x [Hx|Hx]%elem_of_app; [|apply list_elem_of_singleton in Hx as ->].
    + destruct (Hrq x Hx) as (bp & Hx1 & Hx2). destruct (noq_lookup _ _ _ _ Hnoq Hx1) as (bp' & Hx3 & Hx4). eauto using request_noq.
    + destruct (noq_lookup _ _ _ _ Hnoq Hb1) as (bp' & Hx3 & Hx4). eauto using request_noq.
  - destruct q as [|x q]; simpl.
    + destruct (noq_lookup _ _ _ _ Hnoq Hb1) as (bp' & Hx3 & Hx4). exists bp', d. rewrite decide_True in Hd by done. destruct Hdk as [Hdk _]. eauto using started_noq.
    + rewrite decide_False in Hd by done. subst d'. destruct Hdk as (bp & d0 & Hx1 & Hx2 & Hx5).
      destruct (noq_lookup _ _ _ _ Hnoq Hx1) as (bp' & Hx3 & Hx4). exists bp', d0. eauto using started_noq.
Qed.

Lemma ide_request g d sm q i p b bp : ide_ok g d sm q -> k_procs sm !! i = Some p -> k_bufs sm !! b = Some bp ->
  b_lock bp = mk_sleeplock 1 (p_pid p) -> request bp -> (b ∉ q) ->
  exists g' d', iderw fuel b (oncpu i g, d) = Switch (g', d') /\ k_held (ig_k g') = [LPtable] /\
    ide_ok (offcpu g') d' (sm <| k_procs := <[i := asleep b p]> (k_procs sm) |>) (q ++ [b]).
Proof.
  intros Hok Hp Hb Hlk Hreq Hnb. pose proof Hok as [Hch Hnd Hbs Hlen Hpr [Hh Hhm] Hhv Hrq Hdk]. destruct g as [s a h]. cbn [ig_k ig_queue ig_havedisk1] in *.
  destruct (noq_lookup _ _ _ _ Hbs Hb) as (bp1 & Hb1 & En). pose proof (noq_fields _ _ En) as (E1 & E2 & E3 & E4 & E5).
  pose proof (request_noq _ _ En Hreq) as Hreq1. pose proof (lookup_lt_Some _ _ _ Hb1) as Hlt.
  enough (wps (iderw fuel b) (fun _ _ => False) (fun gd => k_held (ig_k gd.1) = [LPtable] /\
    ide_ok (offcpu gd.1) gd.2 (sm <| k_procs := <[i := asleep b p]> (k_procs sm) |>) (q ++ [b])) (mk_ideg (s <| k_cur := Some i |>) a h, d)) as Hw.
  { unfold wps in Hw. unfold oncpu. cbn [ig_k]. destruct (iderw fuel b _) as [|[g' d']| | |] eqn:E in Hw; try done. exists g', d'. now destruct Hw. }
  unfold iderw. wps_steps. apply wp_lk, (wp_holdingsleep_buf b bp1 i p); [done| |].
  { split; [done|]. split; [simpl; now rewrite Hpr|]. simpl. rewrite Hh. split; apply not_elem_of_nil. }
  rewrite E5, Hlk. cbn [sl_locked sl_pid]. rewrite Z.eqb_refl. cbn [negb andb Z.eqb]. wps_steps. apply wp_lk, (wp_buf_at b bp1); [done|].
  replace (Z.land (b_flags bp1) _ =? B_VALID) with false by (destruct (rq_flags _ Hreq1) as [-> | ->]; reflexivity). wps_steps.
  apply wp_lift. wp_steps. rewrite (rq_dev _ Hreq1). cbn [ig_havedisk1]. rewrite (proj2 (Z.eqb_neq h 0)) by done. cbn [andb negb Z.eqb]. cbv iota.
  wps_steps. apply wp_lk, wp_acquire; [simpl; rewrite Hh; apply not_elem_of_nil|]. wps_steps.
  apply wp_lk, (wp_upd_buf b _ bp1); [done|]. wps_steps. apply wp_lift.
  set (bp2 := bp1 <| b_qnext := None |>).
  set (s2 := s <| k_cur := Some i |> <| k_held := LIde :: k_held s |> <| k_bufs := <[b := bp2]> (k_bufs s) |>).
  eapply wp_mono; [apply (wp_ide_append s2 a q h b bp2)|].
  1: now apply qchain_frame. 1: done. 1: done. 1: now apply list_lookup_insert_eq. 1: done.
  { apply queue_length; [done|]. intros x Hx. destruct (Hrq x Hx) as (bx & Hbx & _). apply lookup_lt_Some in Hbx. lia. }
  intros _ g2 (bs & a' & -> & Hq & Hnoq & Ha').
  assert (forall d', (if decide (q = []) then started bp1 d d' else d' = d) ->
    wps (lift (kern (iderw_wait b))) (fun _ _ => False) (fun gd => k_held (ig_k gd.1) = [LPtable] /\
      ide_ok (offcpu gd.1) gd.2 (sm <| k_procs := <[i := asleep b p]> (k_procs sm) |>) (q ++ [b])) (mk_ideg (s2 <| k_bufs := bs |>) a' h, d')) as Hwait.
  { intros d' Hd. assert (k_bufs s2 !! b = Some bp2) as Hb2 by now apply list_lookup_insert_eq.
    destruct (noq_lookup _ _ _ _ Hnoq Hb2) as (bp3 & Hb3 & En3). assert (noq bp3 = noq bp1) as En1 by (rewrite En3; now destruct bp1).
    apply wps_lk. unfold iderw_wait. wps_steps. apply (wp_buf_at b bp3); [done|].
    pose proof (noq_fields _ _ En1) as (_ & _ & _ & F4 & _).
    replace (negb _) with true by (rewrite F4; destruct (rq_flags _ Hreq1) as [-> | ->]; reflexivity).
    eapply wps_switch; [apply (sleep_eq i p); [done|simpl; now rewrite Hpr|simpl; now rewrite Hh]|]. split; [done|].
    unfold offcpu. cbn [fst snd ig_k ig_queue ig_havedisk1].
    eapply (ide_ok_join (mk_ideg s a h) d sm q i p b bp1 bp2 bs); try done. simpl. now rewrite Hpr. }
  apply wps_bind_wp, wp_lift, wp_gets. cbn [ig_queue]. apply wps_bind_wp. destruct (decide (q = [])) as [Hqn|Hqn].
  - rewrite bool_decide_eq_true_2 by now apply Ha'. cbn [when].
    assert (k_bufs s2 !! b = Some bp2) as Hb2 by now apply list_lookup_insert_eq.
    destruct (noq_lookup _ _ _ _ Hnoq Hb2) as (bp3 & Hb3 & En3). assert (noq bp3 = noq bp1) as En1 by (rewrite En3; now destruct bp1).
    rewrite Hqn in Hdk. eapply (wp_idestart fuel Hfuel Hprompt b bp3); [done|now apply (request_noq bp1)|apply Hdk|]. intros d' Hd'. apply Hwait.
    apply (started_noq bp3); [done|exact Hd'].
  - rewrite bool_decide_eq_false_2 by now rewrite Ha'. cbn [when]. wp_steps. now apply Hwait.
Qed.

(** The owner of a request, as it ran when it made it. *)
Definition running (i : nat) (p : proc) (sm : kstate) : kstate :=
  sm <| k_cur := Some i |> <| k_procs := <[i := p <| p_state := RUNNING |>]> (k_procs sm) |>.

(** A request served: what the buffer holds then, and the disk. *)
Definition served_buf (disk : gmap Z (list Z)) (bp : buf) : buf :=
  (if b_flags bp =? 6 then bp else bp <| b_data := disk_block disk (b_blockno bp) |>) <| b_flags := 2 |>.
Definition served_disk (disk : gmap Z (list Z)) (bp : buf) : gmap Z (list Z) :=
  if b_flags bp =? 6 then <[b_blockno bp := b_data bp]> disk else disk.

(** memide.c serves a request so. *)
Lemma memide_serves sm i p b bp : k_procs sm !! i = Some p -> k_held sm = [] -> k_bufs sm !! b = Some bp ->
  b_lock bp = mk_sleeplock 1 (p_pid p) -> request bp ->
  exists sm', Bio.iderw b (running i p sm) = Ok tt sm' /\ k_bufs sm' = <[b := served_buf (k_disk sm) bp]> (k_bufs sm) /\
    k_disk sm' = served_disk (k_disk sm) bp /\ k_held sm' = [].
Proof.
  intros Hp Hh Hb Hlk [R1 R2 R3 R4]. pose proof (lookup_lt_Some _ _ _ Hp) as Hlt.
  assert (kenv (running i p sm) i (p <| p_state := RUNNING |>)) as He.
  { split; [done|]. split; [now apply list_lookup_insert_eq|]. split; [done|]. exact Hh. }
  enough (wp (Bio.iderw b) (fun _ sm' => k_bufs sm' = <[b := served_buf (k_disk sm) bp]> (k_bufs sm) /\
    k_disk sm' = served_disk (k_disk sm) bp /\ k_held sm' = []) (running i p sm)) as Hw.
  { apply wp_ok in Hw as ([] & sm' & E & Hw). eauto. }
  unfold served_buf, served_disk. destruct R4 as [Hf|Hf]; rewrite Hf.
  - eapply (wp_iderw_read _ i _ b bp He Hb Hlk R1 R2); [done|]. done.
  - eapply (wp_iderw_write _ i _ b bp He Hb Hlk R1 R2); [done|]. done.
Qed.

Lemma noq_served disk bp bp' : noq bp' = noq bp -> noq (served_buf disk bp') = noq (served_buf disk bp).
Proof.
  intros E. pose proof (noq_fields _ _ E) as (E1 & E2 & E3 & E4 & E5). unfold served_buf. rewrite E2, E4.
  destruct bp, bp'. unfold noq in *. simpl in *. injection E as -> -> -> -> -> -> -> ->. now destruct (_ =? 6).
Qed.

(** The middle of ideintr: the first request is served. *)
Lemma wp_serve_head s qn h d d0 b bp disk (k : M (ideg * D) unit) (Q : unit -> ideg * D -> Prop) : k_bufs s !! b = Some bp -> request bp ->
  started bp d0 d -> (forall sec, disk_of d0 1 sec = disk_block disk sec) -> (b_flags bp = 0 -> bad_of d = false) -> (LPtable ∉ k_held s) ->
  (forall d1, (forall sec, disk_of d1 1 sec = disk_block (served_disk disk bp) sec) -> phase_of d1 = Idle ->
    wp k Q (mk_ideg (s <| k_bufs := <[b := served_buf disk bp]> (k_bufs s) |> <| k_procs := wake (ChBuf b) <$> k_procs s |>) qn h, d1)) ->
  wp ((if Z.land (b_flags bp) B_DIRTY =? 0 then
         r ← idewait fuel true;
         if 0 <=? r then bs ← insl 0x1f0 (BSIZE / 4); lift (kern (upd_buf b (fun bp => bp <| b_data := bs |>))) else ret tt
       else ret tt) ;;
      lift (kern (upd_buf b (fun bp => bp <| b_flags := Z.lor (b_flags bp) B_VALID |>))) ;;
      lift (kern (upd_buf b (fun bp => bp <| b_flags := Z.land (b_flags bp) (Z.lnot B_DIRTY) |>))) ;;
      lift (kern (wakeup (ChBuf b))) ;; k) Q (mk_ideg s qn h, d).
Proof.
  intros Hb [R1 R2 R3 R4] Hst Hd0 Hbad Hpt Hk. pose proof (lookup_lt_Some _ _ _ Hb) as Hlt. unfold started in Hst.
  assert (forall bp1 d1, b_flags bp1 = b_flags bp -> bp1 <| b_flags := 2 |> = served_buf disk bp ->
    (forall sec, disk_of d1 1 sec = disk_block (served_disk disk bp) sec) -> phase_of d1 = Idle ->
    wp (lift (kern (upd_buf b (fun bp => bp <| b_flags := Z.lor (b_flags bp) B_VALID |>))) ;;
      lift (kern (upd_buf b (fun bp => bp <| b_flags := Z.land (b_flags bp) (Z.lnot B_DIRTY) |>))) ;;
      lift (kern (wakeup (ChBuf b))) ;; k) Q (mk_ideg (s <| k_bufs := <[b := bp1]> (k_bufs s) |>) qn h, d1)) as Hrest.
  { intros bp1 d1 Hf1 Hs1 Hd1 Hp1. wp_steps. apply wp_lk. eapply wp_upd_buf; [now apply list_lookup_insert_eq|]. wp_steps. apply wp_lk.
    eapply wp_upd_buf; [simpl; rewrite list_insert_insert_eq; now apply list_lookup_insert_eq|]. wp_steps. apply wp_lk, wp_wakeup; [done|].
    simpl k_bufs. simpl k_procs. rewrite !list_insert_insert_eq.
    replace (bp1 <| b_flags := Z.lor (b_flags bp1) B_VALID |> <| b_flags := _ |>) with (served_buf disk bp).
    - exact (Hk d1 Hd1 Hp1).
    - rewrite <- Hs1. simpl. rewrite Hf1. destruct R4 as [-> | ->]; now destruct bp1. }
  destruct R4 as [Hf|Hf]; rewrite Hf in *.
  - change (0 =? 6) with false in Hst. destruct Hst as [Hs1 Hjob]. rewrite Hbad in Hjob by done. change (Z.land 0 B_DIRTY =? 0) with true. cbv iota. wp_steps.
    apply (wp_idewait fuel Hfuel). intros d1 F1 F2 F3 F4. rewrite Hbad by done. cbn [andb]. change (0 <=? 0) with true. cbv iota. wp_steps.
    destruct (law_insl d1 1 (b_blockno bp)) as (d2 & L1 & L2 & L3); [done|congruence|].
    eapply wp_insl; [exact L1|]. wp_steps. apply wp_lk, (wp_upd_buf b _ bp); [done|].
    apply Hrest; [done| | |done].
    + unfold served_buf. rewrite Hf. change (0 =? 6) with false. cbv iota. now rewrite F1, Hs1, Hd0.
    + intros sec. unfold served_disk. rewrite Hf, L2, F1, Hs1. apply Hd0.
  - change (6 =? 6) with true in Hst. cbv iota in Hst. destruct Hst as [Hst Hidle]. change (Z.land 6 B_DIRTY =? 0) with false. cbv iota. apply wp_bind, wp_ret.
    specialize (Hrest bp d). rewrite list_insert_id in Hrest by done. replace (s <| k_bufs := k_bufs s |>) with s in Hrest by now destruct s.
    apply Hrest; [done| | |done].
    + unfold served_buf. now rewrite Hf.
    + intros sec. unfold served_disk. rewrite Hf. change (6 =? 6) with true. cbv iota. rewrite disk_block_insert, Hst. case_decide; destruct (Z.eqb_spec sec (b_blockno bp)); congruence.
Qed.

(** The requests after the first one has been served. *)
Lemma ide_ok_leave g d sm b q bp d1 d2 s' a' sm' : ide_ok g d sm (b :: q) -> k_bufs (ig_k g) !! b = Some bp ->
  k_bufs s' = <[b := served_buf (k_disk sm) bp]> (k_bufs (ig_k g)) -> qchain (k_bufs s') a' q -> k_held s' = [] -> k_held sm' = [] ->
  noq <$> k_bufs s' = noq <$> k_bufs sm' -> k_procs s' = k_procs sm' ->
  (forall sec, disk_of d1 1 sec = disk_block (k_disk sm') sec) -> phase_of d1 = Idle ->
  match q with [] => d2 = d1 | b' :: _ => exists bp', k_bufs s' !! b' = Some bp' /\ started bp' d1 d2 end ->
  ide_ok (mk_ideg s' a' (ig_havedisk1 g)) d2 sm' q.
Proof.
  intros [Hch Hnd Hbs Hlen Hpr [Hh Hhm] Hhv Hrq Hdk] Hb Hs' Hq Hsh Hsm Hnoq Hp Hd1 Hi1 Hd2. apply list.NoDup_cons in Hnd as [Hnb Hnd].
  split; cbn [ig_k ig_queue ig_havedisk1]; try done.
  - now rewrite Hs', length_insert.
  - intros x Hx. destruct (Hrq x (list_elem_of_further _ _ _ Hx)) as (bx & Hbx & Hr). exists bx. split; [|done].
    rewrite Hs', list_lookup_insert_ne; [done|]. now intros ->.
  - destruct q as [|b' q]; [now subst|]. destruct Hd2 as (bp' & Hb' & Hst). eauto.
Qed.

Lemma ide_interrupt g d sm b q i p bp : ide_ok g d sm (b :: q) -> k_procs sm !! i = Some p -> k_bufs sm !! b = Some bp ->
  b_lock bp = mk_sleeplock 1 (p_pid p) -> (b_flags bp = 0 -> bad_of d = false) ->
  exists g' d' sm', ideintr fuel (g, d) = Ok tt (g', d') /\ Bio.iderw b (running i p sm) = Ok tt sm' /\
    ide_ok g' d' (sm' <| k_procs := wake (ChBuf b) <$> k_procs sm |>) q.
Proof.
  intros Hok Hp Hb Hlk Hbad. pose proof Hok as [Hch Hnd Hbs Hlen Hpr [Hh Hhm] Hhv Hrq Hdk]. destruct g as [s a h]. cbn [ig_k ig_queue ig_havedisk1] in *.
  destruct (noq_lookup _ _ _ _ Hbs Hb) as (bp1 & Hb1 & En). pose proof (noq_fields _ _ En) as (E1 & E2 & E3 & E4 & E5).
  destruct (Hrq b (list_elem_of_here _ _)) as (bp1' & Hb1' & Hr1). rewrite Hb1 in Hb1'. injection Hb1' as <-.
  assert (request bp) as Hr by now apply (request_noq bp1).
  destruct Hdk as (bp1' & d0 & Hb1' & Hst & Hd0). rewrite Hb1 in Hb1'. injection Hb1' as <-.
  destruct (memide_serves sm i p b bp Hp Hhm Hb Hlk Hr) as (sm' & Hmem & M1 & M2 & M3).
  destruct Hch as (-> & bpc & Hbc & Hch). rewrite Hb1 in Hbc. injection Hbc as <-. apply list.NoDup_cons in Hnd as [Hnb Hnd].
  enough (wp (ideintr fuel) (fun _ gd => ide_ok gd.1 gd.2 (sm' <| k_procs := wake (ChBuf b) <$> k_procs sm |>) q) (mk_ideg s (Some b) h, d)) as Hw.
  { apply wp_ok in Hw as ([] & [g' d'] & E & Hw). exists g', d', sm'. done. }
  unfold ideintr. wp_steps. apply wp_lk, wp_acquire; [rewrite Hh; apply not_elem_of_nil|]. wp_steps. apply wp_lift. wp_steps. cbn [ig_queue].
  wp_steps. apply wp_lk, (wp_buf_at b bp1); [done|]. wp_steps. apply wp_lift. wp_steps.
  apply wp_bind_inv, (wp_serve_head _ (b_qnext bp1) h d d0 b bp1 (k_disk sm)); [done|done|done|done|now rewrite E4|simpl; rewrite Hh; set_solver|].
  intros d1 Hd1 Hi1. wp_steps. apply wp_lift. wp_steps. cbn [ig_queue].
  set (s2 := s <| k_held := LIde :: k_held s |> <| k_bufs := <[b := served_buf (k_disk sm) bp1]> (k_bufs s) |> <| k_procs := wake (ChBuf b) <$> k_procs s |>).
  assert (forall d2, match q with [] => d2 = d1 | b' :: _ => exists bp', k_bufs s2 !! b' = Some bp' /\ started bp' d1 d2 end ->
    wp (lift (kern (release LIde))) (fun _ gd => ide_ok gd.1 gd.2 (sm' <| k_procs := wake (ChBuf b) <$> k_procs sm |>) q)
      (mk_ideg s2 (b_qnext bp1) h, d2)) as Hend.
  { intros d2 Hd2. apply wp_lk. eapply wp_release_head; [reflexivity|].
    eapply (ide_ok_leave (mk_ideg s (Some b) h) d sm b q bp1 d1); try done.
    - now apply qchain_frame.
    - cbn [k_bufs]. change (k_bufs (s2 <| k_held := k_held s |>)) with (<[b := served_buf (k_disk sm) bp1]> (k_bufs s)).
      change (k_bufs (sm' <| k_procs := wake (ChBuf b) <$> k_procs sm |>)) with (k_bufs sm').
      rewrite M1, !list_fmap_insert, Hbs. f_equal. now apply noq_served.
    - simpl. now rewrite Hpr.
    - intros sec. rewrite Hd1. simpl. rewrite M2. unfold served_disk. now rewrite E2, E3, E4. }
  destruct q as [|b' q]; simpl in Hch.
  - rewrite Hch in *. wp_steps. now apply Hend.
  - destruct Hch as (Hqn & bp' & Hb' & _). rewrite Hqn in *.
    assert (k_bufs s2 !! b' = Some bp') as Hb2.
    { change (k_bufs s2) with (<[b := served_buf (k_disk sm) bp1]> (k_bufs s)). rewrite list_lookup_insert_ne; [done|].
      intros ->. apply Hnb. left. }
    wp_steps. eapply (wp_idestart fuel Hfuel Hprompt b' bp'); [done| |done|].
    + destruct (Hrq b' (list_elem_of_further _ _ _ (list_elem_of_here _ _))) as (bx & Hbx & Hrx). rewrite Hb' in Hbx. now injection Hbx as <-.
    + intros d2 Hd2. apply Hend. eauto.
Qed.

(** C14: the interrupt-driven driver does what memide.c does, in the order of the requests, on a disk that asks for the data of a
    write at once and does not fail writes ([prompt_writes]), since the driver checks neither. While the
    requests [q] wait, a process that has locked a buffer and calls iderw joins the end of the queue
    and goes to sleep on the buffer, without a panic and without losing the idle cpu; each
    completion interrupt serves the first request (if it is a read, one on which the disk reports no
    error), with the effect on buffers and disk that iderw of memide.c has when the owner calls it, starts the next one and wakes the sleepers; an interrupt
    with no request waiting changes nothing. *)
Theorem ide_refines_memide g d sm q : ide_ok g d sm q ->
  (forall i p b bp, k_procs sm !! i = Some p -> k_bufs sm !! b = Some bp ->
     b_lock bp = mk_sleeplock 1 (p_pid p) -> request bp -> (b ∉ q) ->
     exists g' d', iderw fuel b (oncpu i g, d) = Switch (g', d') /\ k_held (ig_k g') = [LPtable] /\
       ide_ok (offcpu g') d' (sm <| k_procs := <[i := asleep b p]> (k_procs sm) |>) (q ++ [b])) /\
  (forall b q' i p bp, q = b :: q' -> k_procs sm !! i = Some p -> k_bufs sm !! b = Some bp ->
     b_lock bp = mk_sleeplock 1 (p_pid p) -> (b_flags bp = 0 -> bad_of d = false) ->
     exists g' d' sm', ideintr fuel (g, d) = Ok tt (g', d') /\ Bio.iderw b (running i p sm) = Ok tt sm' /\
       ide_ok g' d' (sm' <| k_procs := wake (ChBuf b) <$> k_procs sm |>) q') /\
  (q = [] -> ideintr fuel (g, d) = Ok tt (g, d)).
Proof.
  intros Hok. split; [intros; eapply ide_request; eassumption|]. split; [intros b q' i p bp ->; intros; eapply ide_interrupt; eassumption|].
  intros ->. pose proof Hok as [Hch _ _ _ _ [Hh _] _ _ _]. destruct g as [s a h]. cbn [ig_k ig_queue] in *. simpl in Hch. subst a.
  enough (wp (ideintr fuel) (fun _ gd => gd = (mk_ideg s None h, d)) (mk_ideg s None h, d)) as Hw.
  { apply wp_ok in Hw as ([] & gd & E & ->). exact E. }
  unfold ideintr. wp_steps. apply wp_lk, wp_acquire; [rewrite Hh; apply not_elem_of_nil|]. wp_steps. apply wp_lift. wp_steps. cbn [ig_queue].
  apply wp_lk. eapply wp_release_head; [reflexivity|]. do 2 f_equal. now destruct s.
Qed.

(** A failed read is not reported: when the disk flags an error, ideintr marks the buffer valid
    with the bytes it happened to hold, and wakes the reader. *)
Theorem ideintr_read_error g d sm b bp : ide_ok g d sm [b] -> k_bufs (ig_k g) !! b = Some bp -> b_flags bp = 0 -> bad_of d = true ->
  exists g' d', ideintr fuel (g, d) = Ok tt (g', d') /\
    k_bufs (ig_k g') = <[b := bp <| b_flags := B_VALID |>]> (k_bufs (ig_k g)) /\
    k_procs (ig_k g') = wake (ChBuf b) <$> k_procs (ig_k g).
Proof using Hfuel.
  clear Hprompt.
  intros Hok Hb Hf Hbad. pose proof Hok as [Hch _ _ _ _ [Hh _] _ _ _]. destruct g as [s a h]. cbn [ig_k ig_queue ig_havedisk1] in *.
  destruct Hch as (-> & bpc & Hbc & Hch). rewrite Hb in Hbc. injection Hbc as <-. simpl in Hch. pose proof (lookup_lt_Some _ _ _ Hb) as Hlt.
  enough (wp (ideintr fuel) (fun _ gd => k_bufs (ig_k gd.1) = <[b := bp <| b_flags := B_VALID |>]> (k_bufs s) /\
    k_procs (ig_k gd.1) = wake (ChBuf b) <$> k_procs s) (mk_ideg s (Some b) h, d)) as Hw.
  { apply wp_ok in Hw as ([] & [g' d'] & E & Hw). eauto. }
  unfold ideintr. wp_steps. apply wp_lk, wp_acquire; [rewrite Hh; apply not_elem_of_nil|]. wp_steps. apply wp_lift. wp_steps. cbn [ig_queue].
  wp_steps. apply wp_lk, (wp_buf_at b bp); [done|]. wp_steps. apply wp_lift. wp_steps. rewrite Hf. change (Z.land 0 B_DIRTY =? 0) with true. cbv iota.
  wp_steps. apply (wp_idewait fuel Hfuel). intros d1 _ _ F3 _. rewrite Hbad. cbn [andb]. change (0 <=? -1) with false. cbv iota. wp_steps.
  apply wp_lk, (wp_upd_buf b _ bp); [done|]. wp_steps. apply wp_lk. eapply wp_upd_buf; [now apply list_lookup_insert_eq|]. wp_steps.
  apply wp_lk, wp_wakeup; [simpl; rewrite Hh; set_solver|]. wp_steps. apply wp_lift. wp_steps. cbn [ig_queue]. rewrite Hch. wp_steps.
  apply wp_lk. eapply wp_release_head; [reflexivity|]. simpl. rewrite list_insert_insert_eq, Hf. done.
Qed.
End refine.

(** ** A disk that satisfies the laws

    Its status reads busy once after a read command and after each sector; a command or a register that reaches it in another
    phase is lost. When it is [flawed], every read fails. *)

Record simdisk (flawed : bool) := mk_simdisk {
  sd_disk : Z -> Z -> list Z;
  sd_reg : Z -> Z;
  sd_phase : phase;
  sd_polls : bool;
  sd_bad : bool
}.
Arguments mk_simdisk {_}.
Arguments sd_disk {_}.
Arguments sd_reg {_}.
Arguments sd_phase {_}.
Arguments sd_polls {_}.
Arguments sd_bad {_}.

Definition sim_accepts {flawed} (d : simdisk flawed) : bool := negb (sd_polls d) && match sd_phase d with Idle => true | _ => false end.

Definition sim_out {flawed} (port v : Z) (d : simdisk flawed) : simdisk flawed :=
  let at_regs f := f (reg_drive (sd_reg d)) (reg_sector (sd_reg d)) in
  if negb (sim_accepts d) then d
  else if port =? 0x1f7 then
    if v =? IDE_CMD_READ then mk_simdisk (sd_disk d) (sd_reg d) (if flawed then Idle else at_regs HasData) true flawed
    else if v =? IDE_CMD_WRITE then mk_simdisk (sd_disk d) (sd_reg d) (at_regs WantsData) false false
    else d
  else if (0x1f2 <=? port) && (port <=? 0x1f6) then
    mk_simdisk (sd_disk d) (fun p => if p =? port then v else sd_reg d p) (sd_phase d) (sd_polls d) (sd_bad d)
  else d.

#[global] Instance simdisk_ports flawed : Ports (simdisk flawed) := {
  port_in p d := (if sd_polls d then 0x80 else if flawed && sd_bad d then 0x41 else 0x40,
                  mk_simdisk (sd_disk d) (sd_reg d) (sd_phase d) false (sd_bad d));
  port_out := sim_out;
  port_insl p n d := match sd_phase d with
                     | HasData dr sec => (sd_disk d dr sec, mk_simdisk (sd_disk d) (sd_reg d) Idle true (sd_bad d))
                     | _ => ([], d)
                     end;
  port_outsl p bs d := match sd_phase d with
                       | WantsData dr sec =>
                           mk_simdisk (fun dr' sec' => if (dr' =? dr) && (sec' =? sec) then bs else sd_disk d dr' sec') (sd_reg d) Idle true false
                       | _ => d
                       end
}.

Lemma sim_accepts_true {flawed} (d : simdisk flawed) : (if sd_polls d then 1%nat else 0%nat) = 0%nat -> sd_phase d = Idle -> sim_accepts d = true.
Proof. unfold sim_accepts. intros Hp ->. now destruct (sd_polls d). Qed.

#[global] Instance simdisk_ide flawed : IdeDisk (simdisk flawed).
Proof.
  refine {| disk_of := sd_disk; reg_of := sd_reg; phase_of := sd_phase; polls_of d := if sd_polls d then 1%nat else 0%nat;
    bad_of d := flawed && sd_bad d |}.
  - intros d r d' [= <- <-]. simpl. destruct (sd_polls d), flawed, (sd_bad d); repeat split; discriminate.
  - intros v d Hp Hi. simpl. unfold sim_out. now rewrite sim_accepts_true.
  - intros p v d Hr Hp Hi. simpl. unfold sim_out. rewrite sim_accepts_true by done. cbn [negb]. rewrite (proj2 (Z.eqb_neq p 0x1f7)) by lia.
    rewrite (proj2 (Z.leb_le 0x1f2 p)), (proj2 (Z.leb_le p 0x1f6)) by lia. done.
  - intros d Hp Hi _. simpl. unfold sim_out. rewrite sim_accepts_true by done. now destruct flawed.
  - intros d Hp Hi _. simpl. unfold sim_out. rewrite sim_accepts_true by done. now destruct flawed.
  - intros d dr sec _ Hi. simpl. rewrite Hi. eexists. done.
  - intros d dr sec bs _ Hi _. simpl. rewrite Hi. done.
Defined.

Lemma simdisk_prompt flawed : prompt_writes (simdisk flawed).
Proof. intros d bs Hp Hi _ _. simpl in *. unfold sim_out. rewrite sim_accepts_true by done. now destruct flawed. Qed.

(** Process 0 has locked buffer 2 to read block 7; the disk is empty. *)
Definition ex_ide_proc : proc := zero_proc <| p_state := RUNNING |> <| p_pid := 5 |>.
Definition ex_ide_buf : buf := zero_buf <| b_dev := 1 |> <| b_blockno := 7 |> <| b_lock := mk_sleeplock 1 5 |>.
Definition ex_ide_k : kstate :=
  (boot_state (mk_symbols 0x80110000 0x80108000 0x80103000 0x80105000) ∅)
    <| k_procs := [ex_ide_proc] |> <| k_bufs := <[2%nat := ex_ide_buf]> (replicate 31 zero_buf) |>.
Definition ex_ide_disk (flawed : bool) : simdisk flawed := mk_simdisk (fun _ _ => zero_block) (fun _ => 0) Idle true flawed.

Lemma ex_ide_fuel flawed : forall d : simdisk flawed, (polls_of d < 2)%nat.
Proof. intros d. simpl. destruct (sd_polls d); lia. Qed.

Lemma ex_ide_request : request ex_ide_buf.
Proof. split; [done|done|reflexivity|now left]. Qed.

Lemma ex_ide_idle flawed : ide_ok (mk_ideg ex_ide_k None 1) (ex_ide_disk flawed) ex_ide_k [].
Proof. split; try done; [constructor|]. intros b Hb. now apply not_elem_of_nil in Hb. Qed.

Lemma ide_refines_memide_witness :
  ide_ok (mk_ideg ex_ide_k None 1) (ex_ide_disk false) ex_ide_k [] /\
  exists g' d', iderw 2 2 (oncpu 0 (mk_ideg ex_ide_k None 1), ex_ide_disk false) = Switch (g', d') /\
    ide_ok (offcpu g') d' (ex_ide_k <| k_procs := <[0%nat := asleep 2 ex_ide_proc]> (k_procs ex_ide_k) |>) [2%nat].
Proof.
  split; [apply ex_ide_idle|].
  destruct (ide_refines_memide 2 (ex_ide_fuel false) (simdisk_prompt false) _ _ _ _ (ex_ide_idle false)) as (Hr & _ & _).
  destruct (Hr 0%nat ex_ide_proc 2%nat ex_ide_buf eq_refl eq_refl eq_refl ex_ide_request (not_elem_of_nil _)) as (g' & d' & E & _ & Hok).
  eauto.
Defined.

Lemma ex_ide_busy : ide_ok (mk_ideg ex_ide_k (Some 2%nat) 1) (ex_ide_disk true) ex_ide_k [2%nat].
Proof.
  split; try done.
  - split; [done|]. exists ex_ide_buf. done.
  - apply list.NoDup_singleton.
  - intros b Hb. apply list_elem_of_singleton in Hb as ->. exists ex_ide_buf. split; [done|exact ex_ide_request].
  - exists ex_ide_buf, (ex_ide_disk true). split; [done|]. split; [split; done|done].
Qed.

Lemma ideintr_read_error_witness :
  ide_ok (mk_ideg ex_ide_k (Some 2%nat) 1) (ex_ide_disk true) ex_ide_k [2%nat] /\
  exists g' d', ideintr 2 (mk_ideg ex_ide_k (Some 2%nat) 1, ex_ide_disk true) = Ok tt (g', d') /\
    k_bufs (ig_k g') = <[2%nat := ex_ide_buf <| b_flags := B_VALID |>]> (k_bufs ex_ide_k).
Proof.
  split; [exact ex_ide_busy|].
  destruct (ideintr_read_error 2 (ex_ide_fuel true) _ _ _ 2 ex_ide_buf ex_ide_busy eq_refl eq_refl eq_refl) as (g' & d' & E & Hb & _).
  eauto.
Defined.
