(* ===== verification/Log.v ===== *)
(** The write-ahead log, log.c. *)

From stdpp Require Import base list gmap strings numbers.
From Stdlib Require Import ZArith Lia.
From S2P Require Import Prelude Bytes Kstate Sched Bio.
Open Scope Z_scope.

(** memmove(dst->data, src->data, BSIZE) *)
Definition copy_block (dst src : nat) : K unit :=
  f ← buf_at src; upd_buf dst (fun x => x <| b_data := b_data f |>).

(** readsb of fs.c (initlog calls it): the seven uints of block 1. *)
Definition decode_superblock (d : list Z) : superblock :=
  mk_superblock (rd32 d 0) (rd32 d 4) (rd32 d 8) (rd32 d 12) (rd32 d 16) (rd32 d 20) (rd32 d 24).

Definition readsb (dev : Z) : K superblock :=
  bp ← bread dev 1;
  b ← buf_at bp;
  brelse bp ;;
  ret (decode_superblock (b_data b)).

(** An array access [log.lh.block[i]]. *)
Definition lh_block_at (i : nat) : K Z :=
  l ← gets k_log; of_opt "log.lh.block" (lh_block l !! i).

(** for(tail = 0; tail < log.lh.n; tail++) *)
Definition install_trans : K unit :=
  l ← gets k_log;
  for_ (seq 0 (Z.to_nat (lh_n l))) (fun tail =>
    lbuf ← bread (l_dev l) (u32 (l_start l + Z.of_nat tail + 1));
    dst ← lh_block_at tail;
    dbuf ← bread (l_dev l) (u32 dst);
    copy_block dbuf lbuf ;;
    bwrite dbuf ;;
    brelse lbuf ;;
    brelse dbuf).

Definition read_head : K unit :=
  l ← gets k_log;
  bp ← bread (l_dev l) (u32 (l_start l));
  b ← buf_at bp;
  upd_log (fun l => l <| lh_n := s32 (rd32 (b_data b) 0) |>) ;;
  l ← gets k_log;
  for_ (seq 0 (Z.to_nat (lh_n l))) (fun i =>
    l ← gets k_log;
    if (i <? length (lh_block l))%nat then
      upd_log (fun l => l <| lh_block := <[i := s32 (rd32 (b_data b) (4 + 4 * i))]> (lh_block l) |>)
    else fault "log.lh.block overflow") ;;
  brelse bp.

Definition write_head : K unit :=
  l ← gets k_log;
  bp ← bread (l_dev l) (u32 (l_start l));
  upd_buf bp (fun x => x <| b_data := wr32 (b_data x) 0 (lh_n l) |>) ;;
  for_ (seq 0 (Z.to_nat (lh_n l))) (fun i =>
    v ← lh_block_at i;
    upd_buf bp (fun x => x <| b_data := wr32 (b_data x) (4 + 4 * i) v |>)) ;;
  bwrite bp ;;
  brelse bp.

Definition recover_from_log : K unit :=
  read_head ;;
  install_trans ;;
  upd_log (fun l => l <| lh_n := 0 |>) ;;
  write_head.

(** sizeof(struct logheader) = 4 + 4 * LOGSIZE < BSIZE: the first check passes. *)
Definition initlog (dev : Z) : K unit :=
  if BSIZE <=? 4 + 4 * LOGSIZE then panic "initlog: too big logheader" else
  sb ← readsb dev;
  upd_log (fun l => l <| l_start := s32 (sb_logstart sb) |> <| l_size := s32 (sb_nlog sb) |>
                      <| l_dev := dev |>) ;;
  recover_from_log.

Definition write_log : K unit :=
  l ← gets k_log;
  for_ (seq 0 (Z.to_nat (lh_n l))) (fun tail =>
    to ← bread (l_dev l) (u32 (l_start l + Z.of_nat tail + 1));
    src ← lh_block_at tail;
    from ← bread (l_dev l) (u32 src);
    copy_block to from ;;
    bwrite to ;;
    brelse from ;;
    brelse to).

Definition commit : K unit :=
  l ← gets k_log;
  when (0 <? lh_n l)
    (write_log ;;
     write_head ;;
     install_trans ;;
     upd_log (fun l => l <| lh_n := 0 |>) ;;
     write_head).

Definition begin_op : K unit :=
  acquire LLog ;;
  l ← gets k_log;
  if negb (l_committing l =? 0) then sleep ChLog LLog else
  if LOGSIZE <? lh_n l + (l_outstanding l + 1) * MAXOPBLOCKS then sleep ChLog LLog else
  upd_log (fun l => l <| l_outstanding := l_outstanding l + 1 |>) ;;
  release LLog.

Definition end_op : K unit :=
  acquire LLog ;;
  upd_log (fun l => l <| l_outstanding := l_outstanding l - 1 |>) ;;
  l ← gets k_log;
  if negb (l_committing l =? 0) then panic "log.committing" else
  (if l_outstanding l =? 0 then upd_log (fun l => l <| l_committing := 1 |>) else wakeup ChLog) ;;
  release LLog ;;
  when (l_outstanding l =? 0)
    (commit ;;
     acquire LLog ;;
     upd_log (fun l => l <| l_committing := 0 |>) ;;
     wakeup ChLog ;;
     release LLog).

Definition log_write (b : nat) : K unit :=
  l ← gets k_log;
  if (LOGSIZE <=? lh_n l) || (l_size l - 1 <=? lh_n l) then panic "too big a transaction" else
  if l_outstanding l <? 1 then panic "log_write outside of trans" else
  acquire LLog ;;
  bp ← buf_at b;
  l ← gets k_log;
  let i := default (Z.to_nat (lh_n l))
             (find_idx (fun x => u32 x =? b_blockno bp) (take (Z.to_nat (lh_n l)) (lh_block l))) in
  (if (i <? length (lh_block l))%nat
   then upd_log (fun l => l <| lh_block := <[i := s32 (b_blockno bp)]> (lh_block l) |>)
   else fault "log.lh.block overflow") ;;
  when (Z.of_nat i =? lh_n l) (upd_log (fun l => l <| lh_n := lh_n l + 1 |>)) ;;
  upd_buf b (fun x => x <| b_flags := Z.lor (b_flags x) B_DIRTY |>) ;;
  release LLog.
