(* ===== verification/Commit.v ===== *)
(** Atomicity of the log: what commit() writes to the disk, in order, and what
    recover_from_log() makes of the disk after a crash at any point in between. *)

From stdpp Require Import base list gmap sets fin_sets strings numbers.
From Stdlib Require Import ZArith Lia.
From S2P Require Import Prelude Bytes Kstate Sched Bio Bcache Log.
Open Scope Z_scope.

(** ** Sequences of block writes *)

Definition writes : Type := list (Z * list Z).

Definition apply_disk (d : gmap Z (list Z)) (T : writes) : gmap Z (list Z) :=
  foldl (fun d kx => <[kx.1 := kx.2]> d) d T.
Definition apply_view (f : Z -> list Z) (T : writes) : Z -> list Z :=
  foldl (fun f kx => dupd f kx.1 kx.2) f T.

Lemma apply_disk_app d T1 T2 : apply_disk d (T1 ++ T2) = apply_disk (apply_disk d T1) T2.
Proof. apply foldl_app. Qed.
Lemma apply_view_app f T1 T2 : apply_view f (T1 ++ T2) = apply_view (apply_view f T1) T2.
Proof. apply foldl_app. Qed.

Lemma apply_disk_block T : forall d k, disk_block (apply_disk d T) k = apply_view (disk_block d) T k.
Proof.
  induction T as [|[k' x] T IH] using rev_ind; intros d k; [done|].
  rewrite apply_disk_app, apply_view_app. simpl. unfold dupd. rewrite <- IH. apply disk_block_insert.
Qed.

Lemma apply_view_out f T k : k ∉ T.*1 -> apply_view f T k = f k.
Proof.
  induction T as [|[k' x] T IH] using rev_ind; intros Hk; [done|].
  rewrite apply_view_app. simpl. rewrite fmap_app in Hk. rewrite dupd_ne by set_solver.
  apply IH. set_solver.
Qed.

Lemma apply_view_in f T k x : NoDup (T.*1) -> (k, x) ∈ T -> apply_view f T k = x.
Proof.
  induction T as [|[k' x'] T IH] using rev_ind; intros Hd Hin; [set_solver|].
  rewrite fmap_app, list.NoDup_app in Hd. destruct Hd as (Hd & Hdis & _).
  rewrite apply_view_app. simpl. apply elem_of_app in Hin as [Hin|Hin].
  - rewrite dupd_ne; [now apply IH|]. intros ->. apply (Hdis k'); [|set_solver].
    apply list_elem_of_fmap. exists (k', x). auto.
  - apply list_elem_of_singleton in Hin. injection Hin as -> ->. apply dupd_eq.
Qed.

(** [s'] is [s] after the disk served the writes [T]. *)
Definition dstep (s : kstate) (T : writes) (s' : kstate) : Prop :=
  exists bs ps, woken (k_procs s) ps /\
    s' = s <| k_bufs := bs |> <| k_procs := ps |>
           <| k_disk := apply_disk (k_disk s) T |> <| k_trace := k_trace s ++ T |>.

(** The view after the writes [T]: the locks are as before. *)
Definition vstep (v : bview) (T : writes) (v' : bview) : Prop :=
  v_held v' = v_held v /\ v_mod v' = v_mod v /\
  v_dirty v' = v_dirty v ∖ list_to_set (T.*1) /\ v_data v' = apply_view (v_data v) T.

Lemma dstep_nil s : dstep s [] s.
Proof.
  exists (k_bufs s), (k_procs s). split; [apply woken_refl|]. rewrite app_nil_r. now destruct s.
Qed.
Lemma dstep_trans s1 T1 s2 T2 s3 : dstep s1 T1 s2 -> dstep s2 T2 s3 -> dstep s1 (T1 ++ T2) s3.
Proof.
  intros (b1 & p1 & H1 & ->) (b2 & p2 & H2 & ->). exists b2, p2. simpl in H2.
  split; [now apply woken_trans with p1|]. rewrite apply_disk_app, (assoc_L (++)). done.
Qed.
Lemma dstep_kenv s T s' me p : dstep s T s' -> kenv s me p -> kenv s' me p.
Proof.
  intros (b1 & p1 & H1 & ->) (Hc & Hp & Hr & Hh). split; [done|].
  split; [now apply woken_lookup with (k_procs s)|]. done.
Qed.
Lemma dstep_same s s' : same_env s s' -> dstep s [] s'.
Proof.
  intros (b & p & -> & H). exists b, p. split; [done|]. rewrite app_nil_r. now destruct s.
Qed.
Lemma dstep_log s T s' : dstep s T s' -> k_log s' = k_log s.
Proof. intros (b & p & _ & ->). done. Qed.

Lemma vstep_nil v : vstep v [] v.
Proof. unfold vstep. simpl. split; [done|]. split; [done|]. split; [set_solver|done]. Qed.
Lemma vstep_trans v1 T1 v2 T2 v3 : vstep v1 T1 v2 -> vstep v2 T2 v3 -> vstep v1 (T1 ++ T2) v3.
Proof.
  intros (H1 & H2 & H3 & H4) (E1 & E2 & E3 & E4). unfold vstep.
  rewrite E1, E2, E3, E4, H3, H4, fmap_app, apply_view_app. split; [done|]. split; [done|].
  split; [set_solver|done].
Qed.

(** ** Copying one block through the cache *)

(** The body of the loops of write_log and install_trans after its two breads: copy the
    locked block [src] over the locked block [dst], write [dst], release both. *)
Lemma wp_copy_write s me p v v0 dst src x y (Q : unit -> kstate -> Prop) :
  kenv s me p -> binv s v -> dst <> src ->
  v_held v = <[dst := (x, p_pid p)]> (<[src := (y, p_pid p)]> (v_held v0)) ->
  v_held v0 !! dst = None -> v_held v0 !! src = None -> v_mod v0 ⊆ dom (v_held v0) ->
  v_mod v = v_mod v0 -> v_dirty v = v_dirty v0 -> v_data v = v_data v0 ->
  (forall s' v', dstep s [(dst, v_data v0 src)] s' -> vstep v0 [(dst, v_data v0 src)] v' ->
     binv s' v' -> Q tt s') ->
  wp (copy_block x y ;; bwrite x ;; brelse y ;; brelse x) Q s.
Proof.
  intros He Hinv Hne Hh Hd0 Hs0 Hmd Hm Hdi Hda HQ.
  assert (v_held v !! dst = Some (x, p_pid p)) as Hhd by (rewrite Hh; apply lookup_insert_eq).
  assert (v_held v !! src = Some (y, p_pid p)) as Hhs.
  { rewrite Hh, lookup_insert_ne by done. apply lookup_insert_eq. }
  assert ((dst ∉ v_mod v0) /\ (src ∉ v_mod v0)) as [Hmd1 Hms1].
  { split; intros H%Hmd%elem_of_dom; rewrite ?Hd0, ?Hs0 in H; now destruct H. }
  destruct (binv_held _ _ _ _ _ _ Hinv Hhs) as (_ & b & Hb & (_ & _ & Hdat & _) & Hbn & _).
  rewrite Hbn in Hdat. wp_steps. unfold copy_block. wp_steps. apply (wp_buf_at y b); [done|].
  eapply (wp_upd_data s v dst x (p_pid p) (fun _ => b_data b)); [done|done| |].
  { intros _ _ _. rewrite Hdat. apply (bi_len _ _ _ Hinv). }
  intros _ bs1 _ _ s1 Hinv1. wp_steps. apply (wp_bwrite s1 me p _ dst x _ He Hinv1 Hhd).
  intros bs2 s2 Hinv2. wp_steps.
  eapply (wp_brelse s2 me p _ src y); [exact He|exact Hinv2|exact Hhs| |].
  { simpl. rewrite Hm. set_solver. }
  intros s3 Hse3 Hinv3. wp_steps.
  eapply (wp_brelse s3 me p _ dst x); [now apply (same_env_kenv _ _ _ _ Hse3)|exact Hinv3| | |].
  { simpl. now rewrite lookup_delete_ne. }
  { simpl. rewrite Hm. set_solver. }
  intros s4 Hse4 Hinv4. refine (HQ s4 _ _ _ Hinv4).
  - apply dstep_same in Hse3, Hse4. rewrite <- (app_nil_r [_]).
    apply (dstep_trans s _ s3); [|done]. rewrite <- (app_nil_r [_]). apply (dstep_trans s _ s2); [|done].
    exists bs2, (k_procs s). split; [apply woken_refl|]. unfold s2, s1. simpl.
    rewrite dupd_eq, Hdat, Hda. now destruct s.
  - unfold vstep. simpl. rewrite Hh, Hdi, Hda, Hm, Hdat, Hda. split; [|split; [|split]].
    + apply map_eq. intros k. destruct (decide (k = dst)) as [->|]; [now rewrite lookup_delete_eq|].
      rewrite lookup_delete_ne by done. destruct (decide (k = src)) as [->|].
      * now rewrite lookup_delete_eq.
      * now rewrite lookup_delete_ne, !lookup_insert_ne.
    + set_solver.
    + set_solver.
    + done.
Qed.

(** Reading two blocks. *)
Lemma wp_bread2 s me p v b1 b2 (m : K Z) (k : nat -> Z -> nat -> K unit) a (Q : unit -> kstate -> Prop) :
  kenv s me p -> binv s v -> 0 <= b1 < FSSIZE -> 0 <= b2 < FSSIZE -> b1 <> b2 ->
  v_held v !! b1 = None -> v_held v !! b2 = None -> (size (in_use v) < bhead)%nat ->
  b2 ∈ v_dirty v \/ (S (size (in_use v)) < bhead)%nat ->
  u32 a = b2 -> (forall bs, m (s <| k_bufs := bs |>) = Ok a (s <| k_bufs := bs |>)) ->
  (forall x y bs, let s' := s <| k_bufs := bs |> in
     binv s' (v <| v_held := <[b2 := (y, p_pid p)]> (<[b1 := (x, p_pid p)]> (v_held v)) |>) ->
     wp (k x a y) Q s') ->
  wp (x ← bread 1 b1; a ← m; y ← bread 1 (u32 a); k x a y) Q s.
Proof.
  intros He Hinv H1 H2 Hne Hh1 Hh2 Hsz Hav Ha Hm HQ. wp_steps.
  apply (wp_bread s me p v); auto; [now right|]. intros x bs s' Hinv'. wp_steps.
  eapply wp_eq; [apply Hm|]. rewrite Ha. wp_steps.
  eapply (wp_bread _ me p); [exact He|exact Hinv'|done| | |].
  { simpl. now rewrite lookup_insert_ne. }
  { destruct Hav as [Hd|Hs]; [now left|right]. unfold in_use. simpl. rewrite dom_insert_L.
    rewrite <- (assoc_L (∪)). fold (in_use v).
    pose proof (size_union_alt {[b1]} (in_use v)) as E. rewrite size_singleton in E.
    assert (size (in_use v ∖ {[b1]}) <= size (in_use v))%nat by (apply subseteq_size; set_solver). lia. }
  intros y bs2 s2 Hinv2. exact (HQ x y bs2 Hinv2).
Qed.

(** ** The loops *)

(** The log area and the blocks of a transaction: at most LOGSIZE-1 distinct blocks outside
    the log. *)
Definition in_log (start b : Z) : Prop := start <= b < start + LOGSIZE.
Record geometry (start : Z) (bl : list Z) : Prop := {
  g_start : 0 <= start; g_end : start + LOGSIZE <= FSSIZE;
  g_len : (length bl < Z.to_nat LOGSIZE)%nat;
  g_nodup : NoDup bl;
  g_home : forall b, b ∈ bl -> 0 <= b < FSSIZE /\ ~ in_log start b
}.

(** The in-memory log header lists the blocks [bl]. *)
Definition log_at (l : logst) (start : Z) (bl : list Z) : Prop :=
  l_dev l = 1 /\ l_start l = start /\ lh_n l = Z.of_nat (length bl) /\
  take (length bl) (lh_block l) = bl.

Lemma log_at_block l start bl i : log_at l start bl -> (i < length bl)%nat ->
  lh_block l !! i = Some (bl !!! i).
Proof.
  intros (_ & _ & _ & Hbl) Hi. rewrite <- (lookup_take_lt _ (length bl)) by done.
  rewrite Hbl. now apply list_lookup_lookup_total_lt.
Qed.

Lemma lh_block_at_eq s i b : lh_block (k_log s) !! i = Some b -> lh_block_at i s = Ok b s.
Proof.
  intros H. unfold lh_block_at. erewrite bind_ok by reflexivity. now rewrite H.
Qed.

(** The writes of write_log and of install_trans, from entry [k] on. *)
Definition log_writes (start : Z) (bl : list Z) (f : Z -> list Z) (k n : nat) : writes :=
  (fun i => (start + 1 + Z.of_nat i, f (bl !!! i))) <$> seq k n.
Definition home_writes (start : Z) (bl : list Z) (f : Z -> list Z) (k n : nat) : writes :=
  (fun i => (bl !!! i, f (start + 1 + Z.of_nat i))) <$> seq k n.

Section loops.
Context (start : Z) (bl : list Z) (me : nat) (p : proc).
Hypothesis G : geometry start bl.

Lemma geo_lookup i : (i < length bl)%nat ->
  let h := bl !!! i in let b := start + 1 + Z.of_nat i in
  0 <= h < FSSIZE /\ 0 <= b < FSSIZE /\ b <> h /\ u32 h = h /\ in_log start b /\ ~ in_log start h /\
  u32 (start + Z.of_nat i + 1) = b.
Proof.
  intros Hi h b. destruct G as [H1 H2 H3 _ H4].
  destruct (H4 h) as [Hh Hn].
  { apply list_elem_of_lookup. exists i. now apply list_lookup_lookup_total_lt. }
  assert (in_log start b) as Hb by (unfold in_log; lia).
  unfold FSSIZE, LOGSIZE, MAXOPBLOCKS in *. split; [done|]. split; [lia|].
  split; [congruence|]. split; [apply u32_small; lia|]. split; [done|]. split; [done|].
  rewrite u32_small; lia.
Qed.

(** Nothing is locked, and the blocks of [bl] from [k] on are pinned or the cache has room. *)
Definition copy_ready (v : bview) (k : nat) : Prop :=
  v_held v = ∅ /\ v_mod v = ∅ /\ (size (v_dirty v) < bhead)%nat /\
  (S (size (v_dirty v)) < bhead \/ forall i, k <= i < length bl -> bl !!! i ∈ v_dirty v)%nat.

Lemma copy_ready_use v k : copy_ready v k ->
  in_use v = v_dirty v /\ (forall b, v_held v !! b = None) /\ v_mod v ⊆ dom (v_held v).
Proof.
  intros (H1 & H2 & _). unfold in_use. rewrite H1, H2, dom_empty_L.
  split; [set_solver|]. split; [intros; apply lookup_empty|set_solver].
Qed.

Lemma copy_ready_vstep v k T v' :
  copy_ready v k -> vstep v T v' -> (forall i, (S k <= i < length bl)%nat -> bl !!! i ∉ T.*1) ->
  copy_ready v' (S k).
Proof.
  intros (H1 & H2 & H3 & H4) (E1 & E2 & E3 & E4) Hn. unfold copy_ready. rewrite E1, E2, E3.
  assert (size (v_dirty v ∖ list_to_set T.*1) <= size (v_dirty v))%nat by (apply subseteq_size; set_solver).
  split; [done|]. split; [done|]. split; [lia|]. destruct H4 as [H4|H4]; [left; lia|right].
  intros i Hi. apply elem_of_difference. split; [apply H4; lia|].
  rewrite elem_of_list_to_set. apply Hn. lia.
Qed.

Lemma wp_write_log_loop n : forall k s v (Q : unit -> kstate -> Prop),
  (k + n = length bl)%nat -> kenv s me p -> binv s v -> log_at (k_log s) start bl ->
  copy_ready v k ->
  (forall s' v', let T := log_writes start bl (v_data v) k n in
     dstep s T s' -> vstep v T v' -> binv s' v' -> Q tt s') ->
  wp (for_ (seq k n) (fun tail =>
    to ← bread 1 (u32 (start + Z.of_nat tail + 1));
    src ← lh_block_at tail;
    from ← bread 1 (u32 src);
    copy_block to from ;; bwrite to ;; brelse from ;; brelse to)) Q s.
Proof.
  induction n as [|n IH]; intros k s v Q Hk He Hinv Hl Hrd HQ; cbn [seq for_].
  { apply wp_ret. apply (HQ s v); auto using dstep_nil, vstep_nil. }
  pose proof (geo_lookup k ltac:(lia)) as (Hh & Hb & Hne & Hu & Hin & Hni & Hub).
  pose proof (copy_ready_use _ _ Hrd) as (Huse & Hnh & Hmd). pose proof Hrd as (_ & _ & Hsz & Hav).
  apply wp_bind. rewrite Hub.
  apply (wp_bread2 s me p v _ (bl !!! k) (lh_block_at k) _ (bl !!! k)); auto.
  { now rewrite Huse. }
  { rewrite Huse. destruct Hav as [Hav|Hav]; [now right|left; apply Hav; lia]. }
  { intros bs. apply lh_block_at_eq. now apply (log_at_block _ start); [|lia]. }
  intros x y bs s1 Hinv1.
  eapply (wp_copy_write s1 me p _ v (start + 1 + Z.of_nat k) (bl !!! k)); [exact He|exact Hinv1|done|..]; auto.
  { simpl. apply insert_insert_ne. congruence. }
  intros s2 v2 Hd2 Hv2 Hinv2.
  assert (forall i, (i < length bl)%nat -> v_data v2 (bl !!! i) = v_data v (bl !!! i)) as Hsame.
  { intros i Hi. destruct Hv2 as (_ & _ & _ & ->). apply apply_view_out. simpl.
    rewrite list_elem_of_singleton. pose proof (geo_lookup i Hi) as (_ & _ & _ & _ & _ & Hni' & _).
    intros E. rewrite E in Hni'. done. }
  assert (log_writes start bl (v_data v2) (S k) n = log_writes start bl (v_data v) (S k) n) as ET.
  { apply list_fmap_ext. intros j i Hi. apply lookup_seq in Hi as [-> Hi]. rewrite Hsame by lia. done. }
  refine (IH (S k) s2 v2 Q _ (dstep_kenv s1 _ s2 me p Hd2 He) Hinv2 _ _ _).
  { clear -Hk. lia. }
  { rewrite (dstep_log _ _ _ Hd2). exact Hl. }
  { apply (copy_ready_vstep v k _ v2 Hrd Hv2). intros i Hi. simpl. rewrite list_elem_of_singleton.
    pose proof (geo_lookup i ltac:(lia)) as (_ & _ & _ & _ & _ & Hni' & _). intros E.
    rewrite E in Hni'. done. }
  intros s' v' T HdT HvT Hinv'. unfold T in *. rewrite ET in HdT, HvT. apply (HQ s' v').
  - change (log_writes start bl (v_data v) k (S n)) with
      ([(start + 1 + Z.of_nat k, v_data v (bl !!! k))] ++ log_writes start bl (v_data v) (S k) n).
    apply (dstep_trans s _ s2); [|done].
    destruct Hd2 as (b2 & p2 & Hw & ->). exists b2, p2. split; [done|]. now destruct s.
  - exact (vstep_trans v _ v2 _ v' Hv2 HvT).
  - done.
Qed.

Lemma wp_install_loop n : forall k s v (Q : unit -> kstate -> Prop),
  (k + n = length bl)%nat -> kenv s me p -> binv s v -> log_at (k_log s) start bl ->
  copy_ready v k ->
  (forall s' v', let T := home_writes start bl (v_data v) k n in
     dstep s T s' -> vstep v T v' -> binv s' v' -> Q tt s') ->
  wp (for_ (seq k n) (fun tail =>
    lbuf ← bread 1 (u32 (start + Z.of_nat tail + 1));
    dst ← lh_block_at tail;
    dbuf ← bread 1 (u32 dst);
    copy_block dbuf lbuf ;; bwrite dbuf ;; brelse lbuf ;; brelse dbuf)) Q s.
Proof.
  induction n as [|n IH]; intros k s v Q Hk He Hinv Hl Hrd HQ; cbn [seq for_].
  { apply wp_ret. apply (HQ s v); auto using dstep_nil, vstep_nil. }
  pose proof (geo_lookup k ltac:(lia)) as (Hh & Hb & Hne & Hu & Hin & Hni & Hub).
  pose proof (copy_ready_use _ _ Hrd) as (Huse & Hnh & Hmd). pose proof Hrd as (_ & _ & Hsz & Hav).
  apply wp_bind. rewrite Hub.
  apply (wp_bread2 s me p v _ (bl !!! k) (lh_block_at k) _ (bl !!! k)); auto.
  { now rewrite Huse. }
  { rewrite Huse. destruct Hav as [Hav|Hav]; [now right|left; apply Hav; lia]. }
  { intros bs. apply lh_block_at_eq. now apply (log_at_block _ start); [|lia]. }
  intros x y bs s1 Hinv1.
  eapply (wp_copy_write s1 me p _ v (bl !!! k) (start + 1 + Z.of_nat k)); [exact He|exact Hinv1|congruence|..]; auto.
  intros s2 v2 Hd2 Hv2 Hinv2.
  assert (forall i, (i < length bl)%nat ->
            v_data v2 (start + 1 + Z.of_nat i) = v_data v (start + 1 + Z.of_nat i)) as Hsame.
  { intros i Hi. destruct Hv2 as (_ & _ & _ & ->). apply apply_view_out. simpl.
    rewrite list_elem_of_singleton. pose proof (geo_lookup i Hi) as (_ & _ & _ & _ & Hin' & _).
    intros E. rewrite E in Hin'. done. }
  assert (home_writes start bl (v_data v2) (S k) n = home_writes start bl (v_data v) (S k) n) as ET.
  { apply list_fmap_ext. intros j i Hi. apply lookup_seq in Hi as [-> Hi]. rewrite Hsame by lia. done. }
  refine (IH (S k) s2 v2 Q _ (dstep_kenv s1 _ s2 me p Hd2 He) Hinv2 _ _ _).
  { clear -Hk. lia. }
  { rewrite (dstep_log _ _ _ Hd2). exact Hl. }
  { apply (copy_ready_vstep v k _ v2 Hrd Hv2). intros i Hi. simpl. rewrite list_elem_of_singleton.
    intros E. pose proof (list_lookup_lookup_total_lt bl i ltac:(lia)) as Ei. rewrite E in Ei.
    pose proof (list_lookup_lookup_total_lt bl k ltac:(lia)) as Ek.
    pose proof (NoDup_lookup bl i k _ (g_nodup _ _ G) Ei Ek). lia. }
  intros s' v' T HdT HvT Hinv'. unfold T in *. rewrite ET in HdT, HvT. apply (HQ s' v').
  - change (home_writes start bl (v_data v) k (S n)) with
      ([(bl !!! k, v_data v (start + 1 + Z.of_nat k))] ++ home_writes start bl (v_data v) (S k) n).
    apply (dstep_trans s _ s2); [|done].
    destruct Hd2 as (b2 & p2 & Hw & ->). exists b2, p2. split; [done|]. now destruct s.
  - exact (vstep_trans v _ v2 _ v' Hv2 HvT).
  - done.
Qed.

(** ** write_head and read_head *)

(** The header block: the count and the block numbers over the old content. *)
Definition encode_head (bl : list Z) (old : list Z) : list Z :=
  foldl (fun x i => wr32 x (4 + 4 * i) (bl !!! i)) (wr32 old 0 (Z.of_nat (length bl)))
        (seq 0 (length bl)).
End loops.

Lemma foldl_wr32_length (bl x : list Z) k n :
  (4 + 4 * (k + n) <= length x)%nat ->
  length (foldl (fun x i => wr32 x (4 + 4 * i) (bl !!! i)) x (seq k n)) = length x.
Proof.
  revert k x. induction n as [|n IH]; intros k x Hn; simpl; [done|].
  rewrite IH; rewrite length_wr32; lia.
Qed.

Lemma foldl_wr32_other (bl x : list Z) k n off :
  (4 + 4 * (k + n) <= length x)%nat -> (off + 4 <= 4 + 4 * k)%nat ->
  rd32 (foldl (fun x i => wr32 x (4 + 4 * i) (bl !!! i)) x (seq k n)) off = rd32 x off.
Proof.
  revert k x. induction n as [|n IH]; intros k x Hn Ho; simpl; [done|].
  rewrite IH; [|rewrite length_wr32; lia|lia]. apply rd32_wr32_other; lia.
Qed.

Lemma foldl_wr32_same (bl x : list Z) k n i :
  (4 + 4 * (k + n) <= length x)%nat -> (k <= i < k + n)%nat ->
  rd32 (foldl (fun x i => wr32 x (4 + 4 * i) (bl !!! i)) x (seq k n)) (4 + 4 * i) = u32 (bl !!! i).
Proof.
  revert k x. induction n as [|n IH]; intros k x Hn Hi; [lia|]. cbn [seq foldl].
  destruct (decide (i = k)) as [->|].
  - rewrite foldl_wr32_other; [|rewrite length_wr32; lia|lia].
    rewrite rd32_wr32_same by lia. reflexivity.
  - rewrite IH; [done|rewrite length_wr32; lia|lia].
Qed.

Section head.
Context (bl old : list Z).
Hypothesis Hlen : length old = 512%nat.
Hypothesis Hbl : (length bl <= Z.to_nat LOGSIZE)%nat.

Lemma encode_head_length : length (encode_head bl old) = 512%nat.
Proof.
  assert (Z.to_nat LOGSIZE = 30)%nat as E by done. unfold encode_head.
  rewrite foldl_wr32_length; rewrite length_wr32; lia.
Qed.

Lemma encode_head_n : rd32 (encode_head bl old) 0 = Z.of_nat (length bl).
Proof.
  assert (Z.to_nat LOGSIZE = 30)%nat as E by done. unfold encode_head.
  rewrite foldl_wr32_other; [|rewrite length_wr32; lia|lia].
  rewrite rd32_wr32_same by lia. apply u32_small. lia.
Qed.

Lemma encode_head_block i : (i < length bl)%nat ->
  rd32 (encode_head bl old) (4 + 4 * i) = u32 (bl !!! i).
Proof.
  assert (Z.to_nat LOGSIZE = 30)%nat as E by done. intros Hi. unfold encode_head.
  apply foldl_wr32_same; [rewrite length_wr32|]; lia.
Qed.
End head.

Lemma binv_ext bs d v v' :
  (forall k, v_data v' k = v_data v k) -> v_held v' = v_held v -> v_dirty v' = v_dirty v ->
  v_mod v' = v_mod v -> binv_at bs d v -> binv_at bs d v'.
Proof.
  intros Hd Hh Hdi Hm [H1 H2 H3 H4 H5 H6 H7 H8 H9]. constructor; rewrite ?Hh, ?Hdi, ?Hm; auto.
  - intros i b Hi Hb. destruct (H2 i b Hi Hb) as [Hf|Hr]; [now left|right].
    unfold buf_rep in *. rewrite Hd, Hh, Hdi, Hm. exact Hr.
  - intros bno Hn. rewrite Hd. auto.
  - intros bno. now rewrite Hd.
Qed.

Lemma v_modify_twice s v k x y : binv s (v_modify k y (v_modify k x v)) -> binv s (v_modify k y v).
Proof.
  apply binv_ext; simpl; try done; [|set_solver]. intros n. unfold dupd. now case_decide.
Qed.

(** The loop of write_head on the locked header block [start] in buffer [i]. *)
Lemma wp_write_head_loop start bl i pid n : forall k s v x (Q : unit -> kstate -> Prop),
  log_at (k_log s) start bl -> (k + n <= length bl)%nat -> (length bl <= Z.to_nat LOGSIZE)%nat ->
  v_held v !! start = Some (i, pid) -> binv s (v_modify start x v) -> length x = 512%nat ->
  (forall bs', let s' := s <| k_bufs := bs' |> in
     binv s' (v_modify start (foldl (fun x i => wr32 x (4 + 4 * i) (bl !!! i)) x (seq k n)) v) -> Q tt s') ->
  wp (for_ (seq k n) (fun j => z ← lh_block_at j;
        upd_buf i (fun y => y <| b_data := wr32 (b_data y) (4 + 4 * j) z |>))) Q s.
Proof.
  assert (Z.to_nat LOGSIZE = 30)%nat as E30 by done.
  induction n as [|n IH]; intros k s v x Q Hl Hk Hbl Hh Hinv Hx HQ; cbn [seq for_ foldl].
  { apply wp_ret. specialize (HQ (k_bufs s)). rewrite set_bufs_same in HQ. exact (HQ Hinv). }
  wp_steps. eapply wp_eq; [apply lh_block_at_eq, (log_at_block _ start bl); [done|lia]|].
  eapply (wp_upd_data s _ start i pid (fun y => wr32 (b_data y) (4 + 4 * k) (bl !!! k)));
    [exact Hinv|exact Hh| |].
  { intros b _ Hb. simpl in Hb. rewrite dupd_eq in Hb. rewrite Hb, length_wr32; lia. }
  intros b bs' _ Hb s' Hinv'. simpl in Hb. rewrite dupd_eq in Hb. rewrite Hb in Hinv'.
  apply v_modify_twice in Hinv'.
  apply (IH (S k) s' v (wr32 x (4 + 4 * k) (bl !!! k))); auto; [lia|rewrite length_wr32; lia].
Qed.

Lemma wp_write_head s me p v start bl (Q : unit -> kstate -> Prop) :
  geometry start bl -> kenv s me p -> binv s v -> log_at (k_log s) start bl ->
  v_held v = ∅ -> v_mod v = ∅ -> (size (v_dirty v) < bhead)%nat ->
  (forall s' v', let T := [(start, encode_head bl (v_data v start))] in
     dstep s T s' -> vstep v T v' -> binv s' v' -> Q tt s') ->
  wp write_head Q s.
Proof.
  intros G He Hinv Hl Hh Hm Hsz HQ. pose proof Hl as (Hdev & Hst & Hn & _).
  pose proof (g_len _ _ G) as Hlen. pose proof (g_start _ _ G). pose proof (g_end _ _ G).
  assert (Z.to_nat LOGSIZE = 30)%nat as E30 by done.
  unfold write_head. wp_steps. rewrite Hdev, Hst, Hn, Nat2Z.id.
  rewrite (u32_small start) by (unfold FSSIZE, LOGSIZE, MAXOPBLOCKS in *; lia).
  apply (wp_bread s me p v); auto.
  { unfold LOGSIZE, MAXOPBLOCKS in *. lia. }
  { rewrite Hh. apply lookup_empty. }
  { right. unfold in_use. rewrite Hh, dom_empty_L, union_empty_l_L. done. }
  intros i bs1 s1 Hinv1. wp_steps.
  eapply (wp_upd_data s1 _ start i (p_pid p) (fun y => wr32 (b_data y) 0 _)); [exact Hinv1|apply lookup_insert_eq| |].
  { intros b _ Hb. simpl in Hb. rewrite Hb, length_wr32; rewrite (bi_len _ _ _ Hinv); lia. }
  intros b bs2 _ Hb s2 Hinv2. simpl in Hb. rewrite Hb in Hinv2. wp_steps.
  eapply (wp_write_head_loop start bl i (p_pid p) (length bl) 0 s2); [exact Hl|lia|lia| |exact Hinv2| |].
  { apply lookup_insert_eq. }
  { rewrite length_wr32; rewrite (bi_len _ _ _ Hinv); lia. }
  intros bs3 s3 Hinv3. wp_steps.
  eapply (wp_bwrite s3 me p _ start i); [exact He|exact Hinv3|apply lookup_insert_eq|].
  intros bs4 s4 Hinv4. wp_steps.
  eapply (wp_brelse s4 me p _ start i); [exact He|exact Hinv4|apply lookup_insert_eq|simpl; set_solver|].
  intros s5 Hse Hinv5. refine (HQ s5 _ _ _ Hinv5).
  - apply dstep_same in Hse. rewrite <- (app_nil_r [_]). apply (dstep_trans s _ s4); [|done].
    exists bs4, (k_procs s). split; [apply woken_refl|]. unfold s4. simpl. rewrite dupd_eq. now destruct s.
  - unfold vstep. simpl. rewrite Hh, Hm. split; [|split; [set_solver|split; [set_solver|done]]].
    apply map_eq. intros k. rewrite lookup_empty. destruct (decide (k = start)) as [->|].
    + apply lookup_delete_eq.
    + now rewrite lookup_delete_ne, lookup_insert_ne.
Qed.

(** ** commit *)

Lemma geometry_nil start bl : geometry start bl -> geometry start [].
Proof.
  intros [H1 H2 _ _ _]. constructor; try done; [|constructor|set_solver]. now apply Nat.ltb_lt.
Qed.

(** Writing the blocks [bl] of the view [f] home. *)
Definition install_writes (bl : list Z) (f : Z -> list Z) : writes := (fun b => (b, f b)) <$> bl.

(** The disk writes of commit(), in order: the log blocks, the header, the blocks at home, and
    the cleared header. *)
Definition commit_writes (start : Z) (bl : list Z) (f : Z -> list Z) : writes :=
  let h := encode_head bl (f start) in
  log_writes start bl f 0 (length bl) ++ [(start, h)] ++ install_writes bl f ++
  [(start, encode_head [] h)].

Lemma log_writes_keys start bl f k n x :
  x ∈ (log_writes start bl f k n).*1 -> start + 1 + Z.of_nat k <= x < start + 1 + Z.of_nat (k + n).
Proof.
  unfold log_writes. rewrite <- list_fmap_compose. intros (i & -> & Hi)%list_elem_of_fmap.
  apply elem_of_seq in Hi. simpl. lia.
Qed.

Lemma log_writes_nodup start bl f k n : NoDup (log_writes start bl f k n).*1.
Proof.
  unfold log_writes. rewrite <- list_fmap_compose. apply NoDup_fmap_2; [|apply NoDup_seq].
  intros i j E. simpl in E. lia.
Qed.

Lemma install_writes_keys bl f : (install_writes bl f).*1 = bl.
Proof. unfold install_writes. rewrite <- list_fmap_compose. apply list_fmap_id. Qed.

Section commit.
Context (start : Z) (bl : list Z).
Hypothesis G : geometry start bl.

Lemma bl_home b : b ∈ bl -> ~ in_log start b.
Proof. intros Hb. now apply (g_home _ _ G). Qed.

Lemma log_writes_in_log f k n x :
  (k + n <= length bl)%nat -> x ∈ (log_writes start bl f k n).*1 -> in_log start x /\ x <> start.
Proof.
  intros Hn Hx%log_writes_keys. pose proof (g_len _ _ G). unfold in_log. lia.
Qed.

(** After [T1] the log block [i] holds block [bl !!! i]. *)
Lemma log_block_after g f T i :
  (i < length bl)%nat -> (forall b, b ∈ T.*1 -> b ∈ bl \/ b = start) ->
  apply_view g (log_writes start bl f 0 (length bl) ++ T) (start + 1 + Z.of_nat i) = f (bl !!! i).
Proof.
  intros Hi HT. rewrite apply_view_app. rewrite apply_view_out.
  - apply apply_view_in; [apply log_writes_nodup|]. unfold log_writes. apply list_elem_of_fmap.
    exists i. split; [done|]. apply elem_of_seq. lia.
  - intros Hin. pose proof (g_len _ _ G). destruct (HT _ Hin) as [Hb|Hb]; [|lia].
    apply bl_home in Hb. apply Hb. unfold in_log. lia.
Qed.

Lemma home_writes_install g f :
  (forall i, (i < length bl)%nat -> g (start + 1 + Z.of_nat i) = f (bl !!! i)) ->
  home_writes start bl g 0 (length bl) = install_writes bl f.
Proof.
  intros Hg. apply list_eq. intros i. unfold home_writes, install_writes.
  rewrite !list_lookup_fmap. destruct (decide (i < length bl)%nat) as [Hi|Hi].
  - rewrite lookup_seq_lt by done. simpl. rewrite Hg by done.
    now rewrite (list_lookup_lookup_total_lt bl i Hi).
  - rewrite (lookup_ge_None_2 bl) by lia. rewrite lookup_ge_None_2; [done|]. rewrite length_seq. lia.
Qed.
End commit.

(** The state after some code wrote [T] to the disk and emptied the log: everything but the
    buffers, the disk, the in-memory log header and the state of woken processes is unchanged. *)
Definition log_done (s : kstate) (T : writes) (s' : kstate) : Prop :=
  exists n bk, dstep (s <| k_log := (k_log s) <| lh_n := n |> <| lh_block := bk |> |>) T s' /\
    lh_n (k_log s') = 0 /\ length bk = length (lh_block (k_log s)).

Lemma copy_ready_intro bl v :
  v_held v = ∅ -> v_mod v = ∅ -> (size (v_dirty v) < bhead)%nat ->
  (forall b, b ∈ bl -> b ∈ v_dirty v) -> copy_ready bl v 0.
Proof.
  intros H1 H2 H3 H4. split; [done|]. split; [done|]. split; [done|]. right. intros i Hi.
  apply H4, list_elem_of_lookup. exists i. apply list_lookup_lookup_total_lt. lia.
Qed.

Lemma wp_commit s me p v start bl (Q : unit -> kstate -> Prop) :
  geometry start bl -> bl <> [] -> kenv s me p -> binv s v -> log_at (k_log s) start bl ->
  v_held v = ∅ -> v_mod v = ∅ -> (size (v_dirty v) < bhead)%nat ->
  (forall b, b ∈ bl -> b ∈ v_dirty v) ->
  (forall s' v', let T := commit_writes start bl (v_data v) in
     log_done s T s' -> vstep v T v' -> binv s' v' -> Q tt s') ->
  wp commit Q s.
Proof.
  intros G Hne He Hinv Hl Hh Hm Hsz Hdirty HQ. pose proof Hl as (Hdev & Hst & Hn & _).
  assert (length bl <> 0%nat) as Hn0 by (now destruct bl).
  unfold commit. wp_steps. apply wp_when; [intros _|rewrite Hn; lia].
  unfold write_log. wp_steps. rewrite Hdev, Hst, Hn, Nat2Z.id.
  apply (wp_write_log_loop start bl me p G (length bl) 0 s v); auto using copy_ready_intro.
  intros s1 v1 T1 Hd1 Hv1 Hinv1. pose proof Hv1 as (E1 & E2 & E3 & E4).
  assert (size (v_dirty v1) < bhead)%nat as Hsz1.
  { rewrite E3. apply (Nat.le_lt_trans _ (size (v_dirty v))); [apply subseteq_size; set_solver|done]. }
  wp_steps. apply (wp_write_head s1 me p v1 start bl _ G); auto; try congruence.
  { now apply (dstep_kenv s T1 s1). }
  { now rewrite (dstep_log _ _ _ Hd1). }
  assert (v_data v1 start = v_data v start) as ->.
  { rewrite E4. apply apply_view_out. intros Hx. now apply (log_writes_in_log start bl G) in Hx as [_ ?]. }
  intros s2 v2 T2 Hd2 Hv2 Hinv2.
  pose proof (vstep_trans _ _ _ _ _ Hv1 Hv2) as Hv02. pose proof (dstep_trans _ _ _ _ _ Hd1 Hd2) as Hd02.
  pose proof Hv02 as (F1 & F2 & F3 & F4). wp_steps. unfold install_trans. wp_steps.
  rewrite (dstep_log _ _ _ Hd02), Hdev, Hst, Hn, Nat2Z.id.
  assert (forall b, b ∈ bl -> b ∈ v_dirty v2) as Hdirty2.
  { intros b Hb. rewrite F3. apply elem_of_difference. split; [auto|].
    rewrite elem_of_list_to_set, fmap_app, not_elem_of_app. pose proof (bl_home start bl G b Hb) as Hnl.
    split; [intros Hx; now apply (log_writes_in_log start bl G) in Hx as [? _]|].
    simpl. rewrite list_elem_of_singleton. intros ->. apply Hnl. unfold in_log, LOGSIZE, MAXOPBLOCKS. lia. }
  apply (wp_install_loop start bl me p G (length bl) 0 s2 v2); auto.
  { now apply (dstep_kenv s _ s2 me p Hd02). }
  { now rewrite (dstep_log _ _ _ Hd02). }
  { apply copy_ready_intro; auto; try congruence. rewrite F3.
    apply (Nat.le_lt_trans _ (size (v_dirty v))); [apply subseteq_size; set_solver|done]. }
  rewrite (home_writes_install start bl (v_data v2) (v_data v)); cycle 1.
  { intros i Hi. rewrite F4. apply (log_block_after start bl G); [done|]. simpl.
    intros b Hb. right. now apply list_elem_of_singleton in Hb. }
  intros s3 v3 T3 Hd3 Hv3 Hinv3.
  pose proof (vstep_trans _ _ _ _ _ Hv02 Hv3) as Hv03. pose proof (dstep_trans _ _ _ _ _ Hd02 Hd3) as Hd03.
  pose proof Hv03 as (I1 & I2 & I3 & I4). unfold upd_log. wp_steps.
  eapply (wp_write_head _ me p v3 start []); [now apply geometry_nil with bl| |exact Hinv3| | | | |].
  { exact (dstep_kenv s _ s3 me p Hd03 He). }
  { split; [|split; [|split; [done|done]]]; simpl; rewrite (dstep_log _ _ _ Hd03); done. }
  { congruence. }
  { congruence. }
  { rewrite I3. apply (Nat.le_lt_trans _ (size (v_dirty v))); [apply subseteq_size; set_solver|done]. }
  intros s4 v4 T4 Hd4 Hv4 Hinv4.
  assert (v_data v3 start = encode_head bl (v_data v start)) as Eh.
  { destruct Hv3 as (_ & _ & _ & ->). rewrite apply_view_out.
    - rewrite F4, apply_view_app. apply dupd_eq.
    - unfold T3. rewrite install_writes_keys. intros Hb%(bl_home start bl G). apply Hb.
      unfold in_log, LOGSIZE, MAXOPBLOCKS. lia. }
  unfold T4 in *. rewrite Eh in Hd4, Hv4. unfold T1, T2, T3 in *.
  assert (commit_writes start bl (v_data v) =
    ((log_writes start bl (v_data v) 0 (length bl) ++ [(start, encode_head bl (v_data v start))]) ++
     install_writes bl (v_data v)) ++ [(start, encode_head [] (encode_head bl (v_data v start)))]) as ET.
  { unfold commit_writes. now rewrite <- !(assoc_L (++)). }
  apply (HQ s4 v4); [|rewrite ET; exact (vstep_trans _ _ _ _ _ Hv03 Hv4)|done].
  exists 0, (lh_block (k_log s)). rewrite ET. split; [|now rewrite (dstep_log _ _ _ Hd4)].
  apply (dstep_trans _ _ (s3 <| k_log := (k_log s3) <| lh_n := 0 |> |>)); [|done].
  destruct Hd03 as (bs & ps & Hw & ->). exists bs, ps. split; [done|]. destruct s as [].
  simpl. now destruct k_log.
Qed.

(** ** recover_from_log *)

(** The header block [x] lists the blocks [bl]. *)
Definition has_head (x : list Z) (bl : list Z) : Prop :=
  rd32 x 0 = Z.of_nat (length bl) /\ forall i, (i < length bl)%nat -> rd32 x (4 + 4 * i) = bl !!! i.

Lemma s32_small a : 0 <= a < 2147483648 -> s32 a = a.
Proof.
  intros H. unfold s32. rewrite Z.mod_small by lia. now rewrite (proj2 (Z.ltb_lt _ _)) by lia.
Qed.

(** The loop of read_head. *)
Lemma wp_read_head_loop x bl n : forall k s (Q : unit -> kstate -> Prop),
  (k + n = length bl)%nat -> has_head x bl -> (forall b, b ∈ bl -> 0 <= b < 2147483648) ->
  length (lh_block (k_log s)) = Z.to_nat LOGSIZE -> (length bl <= Z.to_nat LOGSIZE)%nat ->
  take k (lh_block (k_log s)) = take k bl ->
  (forall bk, take (length bl) bk = bl -> length bk = Z.to_nat LOGSIZE ->
     Q tt (s <| k_log := (k_log s) <| lh_block := bk |> |>)) ->
  wp (for_ (seq k n) (fun i =>
    l ← gets k_log;
    if (i <? length (lh_block l))%nat then
      upd_log (fun l => l <| lh_block := <[i := s32 (rd32 x (4 + 4 * i))]> (lh_block l) |>)
    else fault "log.lh.block overflow")) Q s.
Proof.
  induction n as [|n IH]; intros k s Q Hk Hx Hb Hlen Hle Ht HQ; cbn [seq for_].
  { apply wp_ret. specialize (HQ (lh_block (k_log s))). rewrite Nat.add_0_r in Hk. subst k.
    rewrite firstn_all in Ht. specialize (HQ Ht Hlen). destruct s as []. simpl in HQ. now destruct k_log. }
  wp_steps. apply wp_if_true; [apply Nat.ltb_lt; lia|]. unfold upd_log. wp_steps.
  pose proof (list_lookup_lookup_total_lt bl k ltac:(lia)) as Ek.
  rewrite (proj2 Hx k) by lia. rewrite s32_small.
  2: { apply Hb, list_elem_of_lookup. eauto. }
  apply (IH (S k)); auto; simpl; [lia|now rewrite length_insert|].
  rewrite (take_S_r _ _ (bl !!! k)) by (rewrite list_lookup_insert_eq; [done|lia]).
  rewrite (take_S_r bl k _ Ek), take_insert_ge, Ht by lia. done.
Qed.

Lemma wp_read_head s me p v start bl (Q : unit -> kstate -> Prop) :
  geometry start bl -> kenv s me p -> binv s v -> l_dev (k_log s) = 1 -> l_start (k_log s) = start ->
  length (lh_block (k_log s)) = Z.to_nat LOGSIZE -> has_head (v_data v start) bl ->
  v_held v = ∅ -> v_mod v = ∅ -> (size (v_dirty v) < bhead)%nat ->
  (forall s' v' bk, dstep (s <| k_log := (k_log s) <| lh_n := Z.of_nat (length bl) |> <| lh_block := bk |> |>) [] s' ->
     log_at (k_log s') start bl -> length bk = Z.to_nat LOGSIZE -> vstep v [] v' -> binv s' v' -> Q tt s') ->
  wp read_head Q s.
Proof.
  intros G He Hinv Hdev Hst Hlen Hx Hh Hm Hsz HQ.
  pose proof (g_len _ _ G) as Hbl. pose proof (g_start _ _ G). pose proof (g_end _ _ G).
  assert (Z.to_nat LOGSIZE = 30)%nat as E30 by done.
  unfold read_head. wp_steps. rewrite Hdev, Hst.
  rewrite (u32_small start) by (unfold FSSIZE, LOGSIZE, MAXOPBLOCKS in *; lia).
  apply (wp_bread s me p v); auto.
  { unfold LOGSIZE, MAXOPBLOCKS in *. lia. }
  { rewrite Hh. apply lookup_empty. }
  { right. unfold in_use. rewrite Hh, dom_empty_L, union_empty_l_L. done. }
  intros i bs1 s1 Hinv1. wp_steps.
  destruct (binv_held _ _ _ start i (p_pid p) Hinv1) as (_ & b & Hb & (_ & _ & Hdat & _) & Hbn & _).
  { apply lookup_insert_eq. }
  rewrite Hbn in Hdat. simpl in Hdat. apply (wp_buf_at i b); [done|]. unfold upd_log. wp_steps.
  rewrite Hdat. simpl lh_n. rewrite (proj1 Hx), s32_small, Nat2Z.id by lia.
  apply (wp_read_head_loop _ bl (length bl) 0); auto; [|lia|].
  { intros c Hc. destruct (g_home _ _ G c Hc) as [Hc' _]. unfold FSSIZE in Hc'. lia. }
  intros bk Hbk Hbl'. wp_steps.
  eapply (wp_brelse _ me p _ start i); [exact He|exact Hinv1|apply lookup_insert_eq|simpl; rewrite Hm; set_solver|].
  intros s2 Hse Hinv2. apply dstep_same in Hse. refine (HQ s2 _ bk _ _ Hbl' _ Hinv2).
  - destruct Hse as (bs & ps & Hw & ->). exists bs, ps. split; [done|]. now destruct s.
  - rewrite (dstep_log _ _ _ Hse). split; [done|]. split; [done|]. split; [|done]. done.
  - unfold vstep. simpl. rewrite Hh, Hm. split; [|split; [done|split; [set_solver|done]]].
    apply map_eq. intros k. rewrite lookup_empty. destruct (decide (k = start)) as [->|].
    + apply lookup_delete_eq.
    + now rewrite lookup_delete_ne, lookup_insert_ne.
Qed.

(** The disk writes of recover_from_log() when the view of the disk is [f]. *)
Definition recover_writes (start : Z) (bl : list Z) (f : Z -> list Z) : writes :=
  home_writes start bl f 0 (length bl) ++ [(start, encode_head [] (f start))].

Lemma home_writes_keys start bl f : (home_writes start bl f 0 (length bl)).*1 = bl.
Proof.
  unfold home_writes. rewrite <- list_fmap_compose. apply list_eq. intros i.
  rewrite list_lookup_fmap. destruct (decide (i < length bl)%nat) as [Hi|Hi].
  - rewrite lookup_seq_lt by done. simpl. now rewrite (list_lookup_lookup_total_lt bl i Hi).
  - rewrite (lookup_ge_None_2 bl) by lia. rewrite lookup_ge_None_2; [done|]. rewrite length_seq. lia.
Qed.

Lemma wp_recover s me p v start bl (Q : unit -> kstate -> Prop) :
  geometry start bl -> kenv s me p -> binv s v -> l_dev (k_log s) = 1 -> l_start (k_log s) = start ->
  length (lh_block (k_log s)) = Z.to_nat LOGSIZE -> has_head (v_data v start) bl ->
  v_held v = ∅ -> v_mod v = ∅ -> v_dirty v = ∅ ->
  (forall s' v', let T := recover_writes start bl (v_data v) in
     log_done s T s' -> vstep v T v' -> binv s' v' -> Q tt s') ->
  wp recover_from_log Q s.
Proof.
  intros G He Hinv Hdev Hst Hlen Hx Hh Hm Hd HQ.
  assert (size (v_dirty v) = 0)%nat as Hsz by (rewrite Hd; apply size_empty).
  assert (1 < bhead)%nat as H30 by (now apply Nat.ltb_lt).
  unfold recover_from_log. wp_steps. apply (wp_read_head s me p v start bl); auto; [lia|].
  intros s1 v1 bk Hd1 Hl1 Hbk Hv1 Hinv1. pose proof Hv1 as (E1 & E2 & E3 & E4).
  pose proof Hl1 as (Hdev1 & Hst1 & Hn1 & _). wp_steps. unfold install_trans. wp_steps.
  assert (v_dirty v1 = ∅) as Ed by (rewrite E3, Hd; set_solver).
  rewrite Hdev1, Hst1, Hn1, Nat2Z.id.
  apply (wp_install_loop start bl me p G (length bl) 0 s1 v1); auto.
  { exact (dstep_kenv _ _ s1 me p Hd1 He). }
  { split; [congruence|]. split; [congruence|]. rewrite Ed, size_empty. lia. }
  assert (v_data v1 = v_data v) as -> by (rewrite E4; done).
  intros s2 v2 T2 Hd2 Hv2 Hinv2.
  pose proof (vstep_trans _ _ _ _ _ Hv1 Hv2) as Hv02. pose proof (dstep_trans _ _ _ _ _ Hd1 Hd2) as Hd02.
  pose proof Hv02 as (F1 & F2 & F3 & F4). simpl in Hd02, Hv02, F3, F4. unfold upd_log. wp_steps.
  eapply (wp_write_head _ me p v2 start []); [now apply geometry_nil with bl| |exact Hinv2| | | | |].
  { exact (dstep_kenv _ _ s2 me p Hd02 He). }
  { split; [|split; [|split; [done|done]]]; simpl; rewrite (dstep_log _ _ _ Hd02); done. }
  { congruence. }
  { congruence. }
  { rewrite F3, Hd. replace (∅ ∖ _) with (∅ : gset Z) by set_solver. rewrite size_empty. lia. }
  intros s3 v3 T3 Hd3 Hv3 Hinv3.
  assert (v_data v2 start = v_data v start) as Eh.
  { rewrite F4. apply apply_view_out. unfold T2. rewrite home_writes_keys.
    intros Hb%(g_home _ _ G). apply Hb. unfold in_log, LOGSIZE, MAXOPBLOCKS. lia. }
  unfold T3, T2 in *. rewrite Eh in Hd3, Hv3.
  apply (HQ s3 v3); [|exact (vstep_trans _ _ _ _ _ Hv02 Hv3)|done].
  exists 0, bk. split; [|now rewrite (dstep_log _ _ _ Hd3), Hlen].
  apply (dstep_trans _ _ (s2 <| k_log := (k_log s2) <| lh_n := 0 |> |>)); [|done].
  destruct Hd02 as (bs & ps & Hw & ->). exists bs, ps. split; [done|]. now destruct s as [].
Qed.

Lemma wp_initlog s me p v start bl (Q : unit -> kstate -> Prop) :
  geometry start bl -> kenv s me p -> binv s v -> quiet (k_disk s) v ->
  sb_logstart (decode_superblock (v_data v 1)) = start ->
  length (lh_block (k_log s)) = Z.to_nat LOGSIZE -> has_head (v_data v start) bl ->
  (forall s' v', let T := recover_writes start bl (v_data v) in
     k_disk s' = apply_disk (k_disk s) T -> k_trace s' = k_trace s ++ T -> lh_n (k_log s') = 0 ->
     vstep v T v' -> binv s' v' -> Q tt s') ->
  wp (initlog 1) Q s.
Proof.
  intros G He Hinv Hq Hsb Hlen Hx HQ. pose proof Hq as (Hh & Hd & Hm & Hv).
  pose proof (g_start _ _ G). pose proof (g_end _ _ G).
  unfold initlog. change (BSIZE <=? 4 + 4 * LOGSIZE) with false. cbn beta iota. unfold readsb. wp_steps.
  apply (wp_bread s me p v); auto.
  { unfold FSSIZE. lia. }
  { rewrite Hh. apply lookup_empty. }
  { right. now apply quiet_in_use with (k_disk s). }
  intros i bs1 s1 Hinv1. wp_steps.
  destruct (binv_held _ _ _ 1 i (p_pid p) Hinv1) as (_ & b & Hb & (_ & _ & Hdat & _) & Hbn & _).
  { apply lookup_insert_eq. }
  rewrite Hbn in Hdat. simpl in Hdat. apply (wp_buf_at i b); [done|]. wp_steps.
  eapply (wp_brelse _ me p _ 1 i); [exact He|exact Hinv1|apply lookup_insert_eq|simpl; rewrite Hm; set_solver|].
  intros s2 Hse Hinv2. wp_steps. unfold upd_log. wp_steps. rewrite Hdat, Hsb.
  rewrite (s32_small start) by (unfold FSSIZE, LOGSIZE, MAXOPBLOCKS in *; lia).
  pose proof (same_env_kenv _ _ _ _ Hse He) as He2. destruct Hse as (bs & ps & -> & Hw).
  assert (vstep v [] (v_unlock 1 v <| v_held := <[1 := (i, p_pid p)]> (v_held v) |>)) as Hv2.
  { unfold vstep. simpl. split; [|split; [done|split; [set_solver|done]]]. rewrite Hh.
    apply map_eq. intros k. rewrite lookup_empty. destruct (decide (k = 1)) as [->|].
    + apply lookup_delete_eq.
    + now rewrite lookup_delete_ne, lookup_insert_ne. }
  pose proof Hv2 as (E1 & E2 & E3 & E4).
  eapply (wp_recover _ me p _ start bl); [exact G|exact He2|exact Hinv2|done|done|done|done| | | |].
  { now rewrite E1. }
  { done. }
  { done. }
  intros s' v' T (n & bk & (bs' & ps' & _ & Hs') & Hn & _) HvT Hinv'. apply (HQ s' v'); auto.
  - now rewrite Hs'.
  - now rewrite Hs'.
  - exact (vstep_trans _ _ _ _ _ Hv2 HvT).
Qed.

(** ** Crash and recovery *)

Lemma has_head_fun x bl bl' : has_head x bl -> has_head x bl' -> bl = bl'.
Proof.
  intros [H1 H2] [H1' H2']. assert (length bl = length bl') as Hl by lia.
  apply list_eq. intros i. destruct (decide (i < length bl)%nat) as [Hi|Hi].
  - rewrite (list_lookup_lookup_total_lt bl) by done. rewrite (list_lookup_lookup_total_lt bl') by lia.
    f_equal. rewrite <- H2, <- H2'; lia.
  - rewrite !lookup_ge_None_2 by lia. done.
Qed.

Lemma has_head_encode start bl old :
  geometry start bl -> length old = 512%nat -> has_head (encode_head bl old) bl.
Proof.
  intros G Hl. pose proof (g_len _ _ G). split; [apply encode_head_n; [done|lia]|]. intros i Hi.
  rewrite encode_head_block by (done || lia).
  destruct (geo_lookup start bl G i Hi) as (_ & _ & _ & Hu & _). exact Hu.
Qed.

Lemma start_in_log start : in_log start start.
Proof. unfold in_log, LOGSIZE, MAXOPBLOCKS. lia. Qed.

Lemma apply_view_length f T b :
  (forall b, length (f b) = 512%nat) -> (forall x, x ∈ T.*2 -> length x = 512%nat) ->
  length (apply_view f T b) = 512%nat.
Proof.
  intros Hf. induction T as [|[k x] T IH] using rev_ind; intros HT; [apply Hf|].
  rewrite apply_view_app. simpl. unfold dupd. rewrite fmap_app in HT.
  case_decide; [apply HT; simpl; set_solver|]. apply IH. intros y Hy. apply HT. set_solver.
Qed.

Section crash.
Context (start : Z) (bl : list Z) (old new : Z -> list Z).
Hypothesis G : geometry start bl.
Hypothesis Hne : bl <> [].
Hypothesis Hold : forall b, length (old b) = 512%nat.
Hypothesis Hnew : forall b, length (new b) = 512%nat.
(** Only the blocks of the transaction change. *)
Hypothesis Hsame : forall b, ~ in_log start b -> b ∉ bl -> new b = old b.

(** The disk [D] of a machine that crashed: nothing of the transaction is there and the log is
    empty; or the transaction is in the log, to be installed; or all of it is there. *)
Definition crash_ok (committed : bool) (f : Z -> list Z) : Prop :=
  (forall b, length (f b) = 512%nat) /\
  (has_head (f start) [] /\ (forall b, ~ in_log start b -> f b = if committed then new b else old b) \/
   committed = true /\ has_head (f start) bl /\
     (forall i, (i < length bl)%nat -> f (start + 1 + Z.of_nat i) = new (bl !!! i)) /\
     (forall b, ~ in_log start b -> b ∉ bl -> f b = new b)).

Lemma header_cleared f T :
  (forall b, length (f b) = 512%nat) ->
  has_head (apply_view f (T ++ [(start, encode_head [] (f start))]) start) [].
Proof.
  intros Hf. rewrite apply_view_app. simpl. rewrite dupd_eq.
  apply (has_head_encode start []); [now apply geometry_nil with bl|apply Hf].
Qed.

(** Recovery may itself be interrupted, any number of times. *)
Lemma crash_ok_recover c f bl' j :
  crash_ok c f -> has_head (f start) bl' ->
  crash_ok c (apply_view f (take j (recover_writes start bl' f))).
Proof.
  intros [Hlen Hc] Hh. assert (length (encode_head [] (f start)) = 512%nat) as Hel.
  { apply encode_head_length; [apply Hlen|]. simpl. lia. }
  destruct Hc as [[Hh0 Hf]|(-> & Hhb & Hlog & Hrest)].
  - rewrite (has_head_fun _ _ _ Hh Hh0). 
    change (recover_writes start [] f) with [(start, encode_head [] (f start))].
    destruct j as [|j]; [now split; [|left]|]. rewrite take_ge by (simpl; lia). split.
    + intros b. apply apply_view_length; [done|]. simpl. set_solver.
    + left. split; [exact (header_cleared f [] Hlen)|]. intros b Hb. simpl.
      rewrite dupd_ne; [now apply Hf|]. intros ->. apply Hb, start_in_log.
  - rewrite (has_head_fun _ _ _ Hh Hhb). unfold recover_writes.
    rewrite (home_writes_install start bl f new Hlog).
    assert (forall x, x ∈ (install_writes bl new).*2 -> length x = 512%nat) as Hil.
    { unfold install_writes. rewrite <- list_fmap_compose. intros x (b & -> & _)%list_elem_of_fmap. apply Hnew. }
    destruct (decide (j <= length bl)%nat) as [Hj|Hj].
    + rewrite take_app_le by (unfold install_writes; now rewrite length_fmap).
      assert (forall k, k ∈ (take j (install_writes bl new)).*1 -> k ∈ bl) as Hk.
      { intros k Hk. rewrite fmap_take, install_writes_keys in Hk. now apply elem_of_take_in in Hk. }
      split.
      * intros b. apply apply_view_length; [done|]. intros x Hx. apply Hil. rewrite fmap_take in Hx.
        now apply elem_of_take_in in Hx.
      * right. split; [done|]. rewrite apply_view_out; [|intros H%Hk%(bl_home start bl G); apply H, start_in_log].
        split; [done|]. split.
        -- intros i Hi. rewrite apply_view_out; [now apply Hlog|]. intros H%Hk%(bl_home start bl G).
           apply H. pose proof (geo_lookup start bl G i Hi) as (_ & _ & _ & _ & Hin & _). exact Hin.
        -- intros b Hb Hbl. rewrite apply_view_out; [auto|]. intros H%Hk. done.
    + rewrite take_ge by (rewrite length_app; unfold install_writes; rewrite length_fmap; simpl; lia).
      split.
      * intros b. apply apply_view_length; [done|]. intros x. rewrite fmap_app.
        intros [Hx|Hx]%elem_of_app; [auto|]. simpl in Hx. apply list_elem_of_singleton in Hx. now subst.
      * left. split; [now apply header_cleared|]. intros b Hb. rewrite apply_view_app. simpl.
        rewrite dupd_ne by (intros ->; apply Hb, start_in_log).
        destruct (decide (b ∈ bl)) as [Hin|Hin].
        -- apply apply_view_in; [rewrite install_writes_keys; apply (g_nodup _ _ G)|].
           apply list_elem_of_fmap. eauto.
        -- rewrite apply_view_out; [auto|]. now rewrite install_writes_keys.
Qed.

Hypothesis Hempty : has_head (old start) [].

(** The values written are whole blocks. *)
Lemma commit_writes_length x : x ∈ (commit_writes start bl new).*2 -> length x = 512%nat.
Proof.
  pose proof (g_len _ _ G) as Hl.
  assert (length (encode_head bl (new start)) = 512%nat) as Hh by (apply encode_head_length; [apply Hnew|lia]).
  unfold commit_writes, log_writes, install_writes. rewrite !fmap_app, !elem_of_app, <- !list_fmap_compose.
  intros [(i & -> & _)%list_elem_of_fmap|[Hx|[(b & -> & _)%list_elem_of_fmap|Hx]]]; simpl in *; auto;
    apply list_elem_of_singleton in Hx; subst; [done|].
  apply encode_head_length; [done|simpl; lia].
Qed.

Lemma view_before_header k b :
  (k <= length bl)%nat -> b = start \/ ~ in_log start b ->
  apply_view old (take k (log_writes start bl new 0 (length bl))) b = old b.
Proof.
  intros Hk Hb. apply apply_view_out. rewrite fmap_take. intros Hx%elem_of_take_in.
  apply (log_writes_in_log start bl G) in Hx as [H1 H2]; [|done]. tauto.
Qed.

(** Every prefix of commit's writes leaves a disk from which recovery gives all of the
    transaction or nothing of it; it is all once the header is written. *)
Lemma crash_ok_commit k :
  crash_ok (bool_decide (length bl < k)%nat) (apply_view old (take k (commit_writes start bl new))).
Proof.
  set (n := length bl). set (T1 := log_writes start bl new 0 n).
  set (h := encode_head bl (new start)).
  assert (length T1 = n) as HT1 by (unfold T1, log_writes; now rewrite length_fmap, length_seq).
  assert (length (install_writes bl new) = n) as HT3 by (unfold install_writes; now rewrite length_fmap).
  split.
  { intros b. apply apply_view_length; [done|]. intros x Hx. apply commit_writes_length.
    rewrite fmap_take in Hx. now apply elem_of_take_in in Hx. }
  unfold commit_writes. fold n. fold T1. fold h. destruct (decide (k <= n)%nat) as [Hk|Hk].
  - left. rewrite bool_decide_eq_false_2 by lia. rewrite take_app_le by lia.
    split; [|intros b Hb]; unfold T1; rewrite view_before_header; auto.
  - rewrite bool_decide_eq_true_2 by lia. rewrite take_app_ge, HT1 by lia.
    destruct (k - n)%nat as [|j] eqn:Ej; [lia|]. cbn [app take].
    destruct (decide (j <= n)%nat) as [Hj|Hj].
    + rewrite take_app_le by lia. right. split; [done|].
      assert (forall b, b ∈ (take j (install_writes bl new)).*1 -> b ∈ bl) as Hkey.
      { intros b Hb. rewrite fmap_take, install_writes_keys in Hb. now apply elem_of_take_in in Hb. }
      split; [|split].
      * rewrite apply_view_app. change ((start, h) :: ?l) with ([(start, h)] ++ l). rewrite apply_view_app.
        rewrite apply_view_out by (intros H%Hkey%(bl_home start bl G); apply H, start_in_log).
        simpl. rewrite dupd_eq. apply (has_head_encode start); auto.
      * intros i Hi. apply (log_block_after start bl G); [done|]. simpl.
        intros b [->|Hb]%elem_of_cons; [now right|left; auto].
      * intros b Hb Hbl. rewrite Hsame by done. apply apply_view_out. rewrite fmap_app, not_elem_of_app.
        split; [intros Hx; apply (log_writes_in_log start bl G) in Hx as [? _]; done|].
        simpl. apply not_elem_of_cons. split; [intros ->; apply Hb, start_in_log|].
        intros H%Hkey. done.
    + rewrite take_ge by (rewrite length_app; simpl; lia). left. split.
      * rewrite apply_view_app. simpl. change ((start, h) :: ?l) with ([(start, h)] ++ l).
        rewrite !apply_view_app. simpl. rewrite dupd_eq.
        apply (has_head_encode start []); [now apply geometry_nil with bl|].
        apply encode_head_length; [apply Hnew|]. pose proof (g_len _ _ G). lia.
      * intros b Hb. change ((start, h) :: ?l) with ([(start, h)] ++ l). rewrite !apply_view_app. simpl.
        rewrite dupd_ne by (intros ->; apply Hb, start_in_log).
        destruct (decide (b ∈ bl)) as [Hin|Hin].
        -- apply apply_view_in; [rewrite install_writes_keys; apply (g_nodup _ _ G)|].
           apply list_elem_of_fmap. eauto.
        -- rewrite apply_view_out by (now rewrite install_writes_keys).
           rewrite dupd_ne by (intros ->; apply Hb, start_in_log). rewrite Hsame by done.
           apply apply_view_out. intros Hx. now apply (log_writes_in_log start bl G) in Hx as [? _].
Qed.
End crash.

(** ** log_write *)

(** The block list after log_write of block [b]. *)
Definition bl_add (bl : list Z) (b : Z) : list Z := if decide (b ∈ bl) then bl else bl ++ [b].

(** The view after block [bno] was pinned. *)
Definition v_pin (bno : Z) (v : bview) : bview :=
  v <| v_dirty := {[ bno ]} ∪ v_dirty v |> <| v_mod := v_mod v ∖ {[ bno ]} |>.

(** The state of the log inside a transaction with blocks [bl]. *)
Definition log_open (l : logst) (start : Z) (bl : list Z) : Prop :=
  log_at l start bl /\ l_size l = LOGSIZE /\ l_outstanding l = 1 /\ l_committing l = 0 /\
  length (lh_block l) = Z.to_nat LOGSIZE.

Lemma bl_add_lookup bl b :
  (forall x, x ∈ bl -> 0 <= x < FSSIZE) -> 0 <= b < FSSIZE ->
  match find_idx (fun x => u32 x =? b) bl with
  | Some i => b ∈ bl /\ bl !! i = Some b
  | None => b ∉ bl
  end.
Proof.
  intros Hbl Hb. unfold FSSIZE in *. destruct (find_idx _ bl) as [i|] eqn:E.
  - apply find_idx_Some in E as [(x & Hx & Hu) _]. apply Z.eqb_eq in Hu.
    pose proof (Hbl x (list_elem_of_lookup_2 _ _ _ Hx)) as Hxr. rewrite u32_small in Hu by lia. subst x.
    split; [|done]. now apply list_elem_of_lookup_2 in Hx.
  - intros Hin. pose proof (proj1 (find_idx_None _ _) E b Hin) as Hf. simpl in Hf.
    rewrite u32_small in Hf by lia. lia.
Qed.

Lemma binv_pin bs d v bno i pid b :
  binv_at bs d v -> v_held v !! bno = Some (i, pid) -> bs !! i = Some b ->
  binv_at (<[i := b <| b_flags := Z.lor (b_flags b) B_DIRTY |>]> bs) d (v_pin bno v).
Proof.
  intros Hinv Hh Hb. destruct (binv_held _ _ _ _ _ _ Hinv Hh) as (Hi & b' & Hb' & Hrep & Hbn & _).
  rewrite Hb in Hb'. injection Hb' as <-. pose proof Hrep as (Hd & Hr & Hdat & Hl & Hfl & Hco).
  eapply (binv_update bs i b); eauto; simpl; rewrite ?Hbn in *.
  - intros k Hk. simpl. set_solver.
  - unfold buf_rep. simpl. rewrite Hbn. repeat (split; [done|]). rewrite decide_True by set_solver.
    split; [rewrite Hfl; now case_decide|set_solver].
  - rewrite Hh. congruence.
  - set_solver.
  - apply (bi_len _ _ _ Hinv).
  - apply (bi_dlen _ _ _ Hinv).
Qed.

Lemma wp_log_write s me p v start bl bno i (Q : unit -> kstate -> Prop) :
  kenv s me p -> binv s v -> log_open (k_log s) start bl ->
  (forall x, x ∈ bl -> 0 <= x < FSSIZE) -> Z.of_nat (length bl) < LOGSIZE - 1 ->
  v_held v !! bno = Some (i, p_pid p) ->
  (forall bs' l', let s' := s <| k_bufs := bs' |> <| k_log := l' |> in
     binv s' (v_pin bno v) -> log_open l' start (bl_add bl bno) -> Q tt s') ->
  wp (log_write i) Q s.
Proof.
  intros He Hinv Hl Hbl Hlen Hh HQ. pose proof Hl as ((Hdev & Hst & Hn & Htk) & Hsz & Hout & Hcom & Hlb).
  destruct (binv_held _ _ _ _ _ _ Hinv Hh) as (Hi & b & Hb & Hrep & Hbn & _).
  assert (0 <= bno < FSSIZE) as Hr by (rewrite <- Hbn; apply Hrep).
  unfold log_write. wp_steps. apply wp_if_false; [rewrite Hn, Hsz; lia|].
  apply wp_if_false; [rewrite Hout; lia|]. wp_steps. apply wp_acquire.
  { destruct He as (_ & _ & _ & ->). set_solver. }
  wp_steps. apply (wp_buf_at i b); [done|]. wp_steps. simpl k_log. rewrite Hbn, Hn, Nat2Z.id, Htk.
  rewrite (s32_small bno) by (unfold FSSIZE in Hr; lia).
  assert (Z.to_nat LOGSIZE = 30)%nat as E30 by done.
  assert (forall bk n, log_open ((k_log s) <| lh_block := bk |> <| lh_n := n |>) start (bl_add bl bno) ->
    wp (upd_buf i (fun x => x <| b_flags := Z.lor (b_flags x) B_DIRTY |>) ;; release LLog) Q
       (s <| k_held := LLog :: k_held s |> <| k_log := (k_log s) <| lh_block := bk |> <| lh_n := n |> |>)) as Hfin.
  { intros bk n Hopen. wp_steps. apply (wp_upd_buf i _ b); [done|].
    eapply wp_release_head; [reflexivity|].
    refine (HQ (<[i := b <| b_flags := Z.lor (b_flags b) B_DIRTY |>]> (k_bufs s)) _ _ Hopen).
    exact (binv_pin _ _ _ _ _ _ _ Hinv Hh Hb). }
  pose proof (bl_add_lookup bl bno Hbl Hr) as Hadd. unfold bl_add in Hfin.
  destruct (find_idx _ bl) as [j|] eqn:Ef; simpl default.
  - destruct Hadd as [Hin Hj]. pose proof (lookup_lt_Some _ _ _ Hj) as Hjl.
    wp_steps. apply wp_if_true; [apply Nat.ltb_lt; lia|]. unfold upd_log. wp_steps.
    apply wp_when; [intros E; apply Z.eqb_eq in E; lia|intros _].
    specialize (Hfin (<[j := bno]> (lh_block (k_log s))) (lh_n (k_log s))).
    rewrite decide_True in Hfin by done. apply Hfin.
    rewrite list_insert_id; [exact Hl|]. rewrite <- Hj, <- Htk at 1. now rewrite lookup_take_lt.
  - wp_steps. apply wp_if_true; [apply Nat.ltb_lt; lia|]. unfold upd_log. wp_steps.
    apply wp_when; [intros _; unfold upd_log; wp_steps|intros E; apply Z.eqb_neq in E; lia].
    specialize (Hfin (<[length bl := bno]> (lh_block (k_log s))) (lh_n (k_log s) + 1)).
    rewrite decide_False in Hfin by done. apply wp_bind_inv in Hfin; [exact Hfin|]. split; [|split; [done|split; [done|split; [done|]]]].
    + split; [done|]. split; [done|]. simpl. rewrite length_app. simpl. split; [lia|].
      rewrite Nat.add_1_r.
      rewrite (take_S_r _ _ bno) by (rewrite list_lookup_insert_eq; [done|lia]).
      now rewrite take_insert_ge, Htk by lia.
    + simpl. now rewrite length_insert.
Qed.

(** ** A whole transaction *)

(** What a file system call does with the blocks it changes: read the block, modify the buffer,
    log_write, release. *)
Definition tx_write (bx : Z * list Z) : K unit :=
  bp ← bread 1 bx.1;
  upd_buf bp (fun y => y <| b_data := bx.2 |>) ;;
  log_write bp ;;
  brelse bp.

Definition transaction (tx : writes) : K unit := begin_op ;; for_ tx tx_write ;; end_op.

(** The blocks listed in the log header at the end. *)
Definition tx_blocks (tx : writes) : list Z := foldl bl_add [] tx.*1.

Definition tx_ok (start : Z) (tx : writes) : Prop :=
  tx <> [] /\ Z.of_nat (length (tx_blocks tx)) < LOGSIZE - 1 /\
  forall b x, (b, x) ∈ tx -> 0 <= b < FSSIZE /\ ~ in_log start b /\ b <> 1 /\ length x = 512%nat.

Definition log_idle (l : logst) (start : Z) : Prop :=
  l_dev l = 1 /\ l_start l = start /\ l_size l = LOGSIZE /\ l_outstanding l = 0 /\
  l_committing l = 0 /\ lh_n l = 0 /\ length (lh_block l) = Z.to_nat LOGSIZE.

(** The file system between two calls: the cache is clean and agrees with the disk, no one is in
    a transaction, and the log on the disk is empty. *)
Record fs_idle (s : kstate) (me : nat) (p : proc) (v : bview) (start : Z) : Prop := {
  fi_env : kenv s me p;
  fi_inv : binv s v;
  fi_quiet : quiet (k_disk s) v;
  fi_log : log_idle (k_log s) start;
  fi_head : has_head (disk_block (k_disk s) start) [];
  fi_sb : sb_logstart (decode_superblock (disk_block (k_disk s) 1)) = start;
  fi_start : 1 < start;
  fi_end : start + LOGSIZE <= FSSIZE
}.

Lemma elem_of_bl_add bl b x : x ∈ bl_add bl b <-> x ∈ bl \/ x = b.
Proof. unfold bl_add. case_decide; set_solver. Qed.

Lemma elem_of_bl_adds bs : forall bl x, x ∈ foldl bl_add bl bs <-> x ∈ bl \/ x ∈ bs.
Proof.
  induction bs as [|b bs IH]; intros bl x; simpl; [set_solver|].
  rewrite IH, elem_of_bl_add. set_solver.
Qed.

Lemma bl_adds_nodup bs : forall bl, NoDup bl -> NoDup (foldl bl_add bl bs).
Proof.
  induction bs as [|b bs IH]; intros bl Hd; simpl; [done|]. apply IH. unfold bl_add.
  case_decide; [done|]. apply list.NoDup_app. split; [done|]. split; [|apply NoDup_singleton].
  set_solver.
Qed.

Lemma bl_adds_length bs : forall bl, (length bl <= length (foldl bl_add bl bs))%nat.
Proof.
  induction bs as [|b bs IH]; intros bl; simpl; [done|]. etrans; [|apply IH]. unfold bl_add.
  case_decide; [done|]. rewrite length_app. lia.
Qed.

Lemma tx_geometry s me p v start tx :
  fs_idle s me p v start -> tx_ok start tx -> geometry start (tx_blocks tx) /\ tx_blocks tx <> [].
Proof.
  intros Hi (Hne & Hlen & Htx). pose proof (fi_start _ _ _ _ _ Hi). pose proof (fi_end _ _ _ _ _ Hi).
  split.
  - constructor; [lia|done|unfold LOGSIZE, MAXOPBLOCKS in *; lia|apply bl_adds_nodup; constructor|].
    intros b [Hb|Hb]%elem_of_bl_adds; [set_solver|]. apply list_elem_of_fmap in Hb as ([b' x] & -> & Hb).
    destruct (Htx b' x Hb) as (H1 & H2 & _). done.
  - destruct tx as [|[b x] tx]; [done|]. intros E.
    assert (b ∈ tx_blocks ((b, x) :: tx)) as Hb by (apply elem_of_bl_adds; set_solver).
    rewrite E in Hb. set_solver.
Qed.

Lemma wp_begin_op s start (Q : unit -> kstate -> Prop) :
  k_held s = [] -> log_idle (k_log s) start ->
  Q tt (s <| k_log := (k_log s) <| l_outstanding := 1 |> |>) -> wp begin_op Q s.
Proof.
  intros Hh (Hd & Hs & Hsz & Hout & Hcom & Hn & _) HQ. unfold begin_op. wp_steps.
  apply wp_acquire; [rewrite Hh; set_solver|]. wp_steps. simpl k_log.
  apply wp_if_false; [now rewrite Hcom|]. apply wp_if_false; [now rewrite Hn, Hout|].
  unfold upd_log. wp_steps. eapply wp_release_head; [reflexivity|].
  simpl. rewrite Hout. now destruct s.
Qed.

(** Inside a transaction started in [s0] that has logged the blocks [bl]. *)
Record in_tx (s0 s : kstate) (me : nat) (p : proc) (v : bview) (start : Z) (bl : list Z) : Prop := {
  it_env : kenv s me p;
  it_inv : binv s v;
  it_log : log_open (k_log s) start bl;
  it_held : v_held v = ∅;
  it_mod : v_mod v = ∅;
  it_dirty : v_dirty v = list_to_set bl;
  it_disk : k_disk s = k_disk s0;
  it_trace : k_trace s = k_trace s0
}.

Lemma wp_tx_write s0 s me p v start bl b x (Q : unit -> kstate -> Prop) :
  in_tx s0 s me p v start bl -> NoDup bl -> (forall y, y ∈ bl -> 0 <= y < FSSIZE) ->
  Z.of_nat (length bl) < LOGSIZE - 1 -> 0 <= b < FSSIZE -> length x = 512%nat ->
  (forall s' v', in_tx s0 s' me p v' start (bl_add bl b) ->
     (forall k, v_data v' k = dupd (v_data v) b x k) -> Q tt s') ->
  wp (tx_write (b, x)) Q s.
Proof.
  intros [He Hinv Hl Hh Hm Hd Hdk Htr] Hnd Hbl Hlen Hb Hx HQ. unfold tx_write. cbn [fst snd]. wp_steps.
  assert (size (v_dirty v) < bhead)%nat as Hsz.
  { rewrite Hd, (size_list_to_set _ Hnd). unfold bhead, NBUF, LOGSIZE, MAXOPBLOCKS in *. lia. }
  apply (wp_bread s me p v); auto.
  { rewrite Hh. apply lookup_empty. }
  { right. unfold in_use. rewrite Hh, dom_empty_L, union_empty_l_L. done. }
  intros i bs1 s1 Hinv1. wp_steps.
  eapply (wp_upd_data s1 _ b i (p_pid p) (fun _ => x)); [exact Hinv1|apply lookup_insert_eq|done|].
  intros _ bs2 _ _ s2 Hinv2. wp_steps.
  eapply (wp_log_write s2 me p _ start bl b i); [exact He|exact Hinv2|exact Hl|done|done|apply lookup_insert_eq|].
  intros bs3 l3 s3 Hinv3 Hl3. wp_steps.
  eapply (wp_brelse s3 me p _ b i); [exact He|exact Hinv3|apply lookup_insert_eq|simpl; set_solver|].
  intros s4 Hse Hinv4. pose proof (same_env_kenv _ _ _ _ Hse He) as He4.
  apply (HQ s4 (v_unlock b (v_pin b (v_modify b x (v <| v_held := <[b := (i, p_pid p)]> (v_held v) |>)))));
    [|done].
  destruct Hse as (bs & ps & -> & _).
  constructor; try done; simpl.
  - rewrite Hh. apply map_eq. intros k. rewrite lookup_empty. destruct (decide (k = b)) as [->|].
    + apply lookup_delete_eq.
    + now rewrite lookup_delete_ne, lookup_insert_ne.
  - rewrite Hm. set_solver.
  - rewrite Hd. apply set_eq. intros k. rewrite elem_of_list_to_set, elem_of_bl_add. set_solver.
Qed.

Lemma apply_view_ext f g T k : (forall n, f n = g n) -> apply_view f T k = apply_view g T k.
Proof.
  revert f g. induction T as [|[b x] T IH]; intros f g Hfg; [apply Hfg|]. simpl. apply IH.
  intros n. unfold dupd. now case_decide.
Qed.

Lemma wp_tx_loop s0 me p start tx : forall s v bl (Q : unit -> kstate -> Prop),
  in_tx s0 s me p v start bl -> NoDup bl -> (forall y, y ∈ bl -> 0 <= y < FSSIZE) ->
  Z.of_nat (length (foldl bl_add bl tx.*1)) < LOGSIZE - 1 ->
  (forall b x, (b, x) ∈ tx -> 0 <= b < FSSIZE /\ length x = 512%nat) ->
  (forall s' v', in_tx s0 s' me p v' start (foldl bl_add bl tx.*1) ->
     (forall k, v_data v' k = apply_view (v_data v) tx k) -> Q tt s') ->
  wp (for_ tx tx_write) Q s.
Proof.
  induction tx as [|[b x] tx IH]; intros s v bl Q Hin Hnd Hbl Hlen Htx HQ; cbn [for_].
  { apply wp_ret. eauto. }
  destruct (Htx b x ltac:(left)) as [Hb Hx]. wp_steps.
  change (foldl bl_add bl ((b, x) :: tx).*1) with (foldl bl_add (bl_add bl b) tx.*1) in *.
  pose proof (bl_adds_length tx.*1 (bl_add bl b)) as Hle.
  assert (length bl <= length (bl_add bl b))%nat by (unfold bl_add; case_decide; rewrite ?length_app; lia).
  apply (wp_tx_write s0 s me p v start bl); auto; [lia|]. intros s' v' Hin' Hv'.
  apply (IH s' v' (bl_add bl b)); auto.
  - apply (bl_adds_nodup [b]); done.
  - intros y [Hy | ->]%elem_of_bl_add; auto.
  - intros c y Hc. apply (Htx c y). now right.
  - intros s2 v2 Hin2 Hv2. apply (HQ s2 v2 Hin2). intros k. rewrite Hv2.
    change (apply_view (v_data v) ((b, x) :: tx) k) with (apply_view (dupd (v_data v) b x) tx k).
    now apply apply_view_ext.
Qed.

(** What a commit may change of the kernel state. *)
Definition end_frame (s s' : kstate) : Prop :=
  exists bs ps lg dk tr, woken (k_procs s) ps /\
    s' = s <| k_bufs := bs |> <| k_procs := ps |> <| k_log := lg |> <| k_disk := dk |> <| k_trace := tr |>.

Lemma end_frame_trans s s1 s2 : end_frame s s1 -> end_frame s1 s2 -> end_frame s s2.
Proof.
  intros (bs & ps & lg & dk & tr & Hw & ->) (bs' & ps' & lg' & dk' & tr' & Hw' & ->).
  exists bs', ps', lg', dk', tr'. split; [|reflexivity]. exact (woken_trans _ _ _ Hw Hw').
Qed.

Lemma end_frame_log s h lg h' : k_held s = h' -> end_frame s (s <| k_held := h |> <| k_log := lg |> <| k_held := h' |>).
Proof.
  intros <-. exists (k_bufs s), (k_procs s), lg, (k_disk s), (k_trace s). split; [apply woken_refl|].
  now destruct s.
Qed.

Lemma end_frame_wake s h lg ps h' : k_held s = h' -> woken (k_procs s) ps ->
  end_frame s (s <| k_held := h |> <| k_log := lg |> <| k_procs := ps |> <| k_held := h' |>).
Proof.
  intros <- Hw. exists (k_bufs s), ps, lg, (k_disk s), (k_trace s). split; [done|]. now destruct s.
Qed.

Lemma end_frame_dstep s lg T s' : dstep (s <| k_log := lg |>) T s' -> end_frame s s'.
Proof.
  intros (bs & ps & Hw & ->). exists bs, ps, lg, (apply_disk (k_disk s) T), (k_trace s ++ T).
  split; [exact Hw|]. now destruct s.
Qed.

(** end_op by the only outstanding operation commits. *)
Lemma wp_end_op s0 s me p v start bl (Q : unit -> kstate -> Prop) :
  in_tx s0 s me p v start bl -> geometry start bl -> bl <> [] ->
  (forall s' v', let T := commit_writes start bl (v_data v) in
     kenv s' me p -> binv s' v' -> vstep v T v' -> log_idle (k_log s') start ->
     k_disk s' = apply_disk (k_disk s0) T -> k_trace s' = k_trace s0 ++ T -> end_frame s s' -> Q tt s') ->
  wp end_op Q s.
Proof.
  intros [He Hinv Hl Hh Hm Hd Hdk Htr] G Hne HQ.
  pose proof Hl as (Hla & Hsz & Hout & Hcom & Hlb). pose proof He as (Hc & Hp & Hr & Hheld).
  unfold end_op. wp_steps. apply wp_acquire; [rewrite Hheld; set_solver|]. unfold upd_log. wp_steps.
  simpl l_committing. simpl l_outstanding. rewrite Hcom, Hout.
  change (negb (0 =? 0)) with false. change (1 - 1 =? 0) with true. cbn beta iota.
  wp_steps. eapply wp_release_head; [reflexivity|]. wp_steps.
  apply wp_when; [intros _|done]. wp_steps.
  match goal with |- wp commit _ ?x => set (s1 := x) end.
  assert (kenv s1 me p) as He1 by (repeat split; done).
  eapply (wp_commit s1 me p v start bl); [done|done|exact He1|exact Hinv|exact Hla|done|done| | |].
  { rewrite Hd, (size_list_to_set _ (g_nodup _ _ G)). apply (g_len _ _ G). }
  { intros b Hb. rewrite Hd. now apply elem_of_list_to_set. }
  intros s2 v2 T (n & bk & Hd2 & Hn2 & Hbk) Hv2 Hinv2.
  assert (kenv s2 me p) as He2 by exact (dstep_kenv _ _ s2 me p Hd2 He1).
  pose proof He2 as (Hc2 & Hp2 & Hr2 & Hh2). wp_steps.
  apply wp_acquire; [rewrite Hh2; apply not_elem_of_nil|]. wp_steps.
  apply wp_wakeup; [simpl; rewrite Hh2; set_solver|]. wp_steps. eapply wp_release_head; [reflexivity|].
  assert (k_log s2 = (k_log s1) <| lh_n := 0 |> <| lh_block := bk |>) as Hlog2.
  { destruct Hd2 as (bs & ps & _ & ->). simpl in *. now subst n. }
  apply (HQ _ v2); [| exact Hinv2 | exact Hv2 | | | |].
  - split; [exact Hc2|]. split; [|done]. simpl. rewrite list_lookup_fmap, Hp2. simpl. f_equal.
    unfold wake. now rewrite Hr2.
  - simpl. rewrite Hlog2. destruct Hla as (H1 & H2 & _). repeat split; try done. simpl.
    rewrite Hbk. exact Hlb.
  - destruct Hd2 as (bs & ps & _ & ->). simpl. now rewrite Hdk.
  - destruct Hd2 as (bs & ps & _ & ->). simpl. now rewrite Htr.
  - apply (end_frame_trans _ s2); [apply (end_frame_trans _ s1)|].
    + now apply end_frame_log.
    + exact (end_frame_dstep _ _ _ _ Hd2).
    + apply end_frame_wake; [done|apply woken_wake].
Qed.

Lemma commit_writes_ext start bl f g : (forall k, f k = g k) -> commit_writes start bl f = commit_writes start bl g.
Proof.
  intros H. unfold commit_writes. rewrite (H start). f_equal; [|f_equal; f_equal].
  - apply list_fmap_ext. intros i k _. now rewrite H.
  - apply list_fmap_ext. intros i k _. now rewrite H.
Qed.

Lemma apply_view_in_keys f g T k : k ∈ T.*1 -> apply_view f T k = apply_view g T k.
Proof.
  induction T as [|[b x] T IH] using rev_ind; [set_solver|]. rewrite fmap_app, !apply_view_app. simpl.
  intros Hk. unfold dupd. case_decide; [done|]. apply IH. set_solver.
Qed.

Lemma apply_view_agree f g T k : f k = g k -> apply_view f T k = apply_view g T k.
Proof.
  intros H. destruct (decide (k ∈ T.*1)) as [Hk|Hk]; [now apply apply_view_in_keys|].
  now rewrite !apply_view_out.
Qed.

(** ** Crashes *)

(** [crashed start d T n c D]: [D] is a disk a machine may have after a crash, when the disk was
    [d] and the commit of a transaction with [n] blocks issues the writes [T]: the crash hit after
    some prefix of [T], or during the recovery from such a disk, any number of times. [c] says
    that the header had been written. *)
Inductive crashed (start : Z) (d : gmap Z (list Z)) (T : writes) (n : nat) :
  bool -> gmap Z (list Z) -> Prop :=
| crash_in_commit k : crashed start d T n (bool_decide (n < k)%nat) (apply_disk d (take k T))
| crash_in_recovery c D bl j :
  crashed start d T n c D -> has_head (disk_block D start) bl ->
  crashed start d T n c (apply_disk D (take j (recover_writes start bl (disk_block D)))).

(** A machine that boots: an empty buffer cache and a log structure in .bss. *)
Definition booting (s : kstate) (me : nat) (p : proc) : Prop :=
  kenv s me p /\ bufs_fresh (k_bufs s) /\ length (lh_block (k_log s)) = Z.to_nat LOGSIZE.

Lemma crash_ok_ext start bl old new c f g :
  (forall k, f k = g k) -> crash_ok start bl old new c g -> crash_ok start bl old new c f.
Proof.
  intros H [H1 H2]. split; [intros b; now rewrite H|].
  destruct H2 as [[H2 H3]|(Hc & H2 & H3 & H4)]; [left|right]; rewrite !H.
  - split; [done|]. intros b Hb. rewrite H. auto.
  - split; [done|]. split; [done|]. split; intros; rewrite H; auto.
Qed.

(** ** The end of a transaction

    A transaction started in the idle state [s] logged the blocks [bl], whose contents are now
    those of [new]. *)
Section body.
Context (s : kstate) (me : nat) (p : proc) (v : bview) (start : Z) (bl : list Z) (new : Z -> list Z).
Abbreviation old := (disk_block (k_disk s)).
Abbreviation T := (commit_writes start bl new).
Hypothesis Hidle : fs_idle s me p v start.
Hypothesis G : geometry start bl.
Hypothesis Hne : bl <> [].
Hypothesis Hb1 : 1 ∉ bl.
Hypothesis Hnew : forall b, length (new b) = 512%nat.
Hypothesis Hsame : forall b, b ∉ bl -> new b = old b.

Lemma old_len b : length (old b) = 512%nat.
Proof. apply (bi_dlen _ _ _ (fi_inv _ _ _ _ _ Hidle)). Qed.

Lemma not_in_log_1 : ~ in_log start 1.
Proof using Hidle. pose proof (fi_start _ _ _ _ _ Hidle). unfold in_log. lia. Qed.

Lemma body_crash_commit k :
  crash_ok start bl old new (bool_decide (length bl < k)%nat) (apply_view old (take k T)).
Proof. apply crash_ok_commit; auto using old_len. apply (fi_head _ _ _ _ _ Hidle). Qed.

(** After all its writes: the header is clear and the new blocks are at home. *)
Lemma body_done :
  has_head (apply_view old T start) [] /\ forall b, ~ in_log start b -> apply_view old T b = new b.
Proof.
  assert (length bl < length T)%nat as Hlt.
  { unfold commit_writes, log_writes. rewrite length_app, length_fmap, length_seq. simpl. lia. }
  pose proof (body_crash_commit (length T)) as [_ Hc].
  rewrite firstn_all, bool_decide_eq_true_2 in Hc by done.
  destruct Hc as [Hc|(_ & Hh & _)]; [done|exfalso].
  unfold commit_writes in Hh. rewrite !apply_view_app in Hh. simpl in Hh. rewrite dupd_eq in Hh.
  apply Hne. apply (has_head_fun _ _ _ Hh). apply (has_head_encode start []); [now apply geometry_nil with bl|].
  apply encode_head_length; [apply Hnew|]. pose proof (g_len _ _ G). lia.
Qed.

Lemma commit_keys k : k ∈ bl -> k ∈ T.*1.
Proof.
  intros Hk. unfold commit_writes. rewrite !fmap_app, install_writes_keys, !elem_of_app. auto.
Qed.

(** end_op leaves the file system idle, with the new contents on the disk. *)
Lemma wp_body_end s1 v1 (Q : unit -> kstate -> Prop) :
  in_tx s s1 me p v1 start bl -> (forall b, v_data v1 b = new b) ->
  (forall s' v', fs_idle s' me p v' start -> k_trace s' = k_trace s ++ T ->
     k_disk s' = apply_disk (k_disk s) T -> end_frame s1 s' ->
     (forall b, ~ in_log start b -> v_data v' b = new b) -> Q tt s') ->
  wp end_op Q s1.
Proof.
  intros Hin Hv1 HQ. pose proof Hidle as [He Hinv Hq Hl Hhd Hsb Hst Hend].
  apply (wp_end_op s s1 me p v1 start bl); auto. rewrite (commit_writes_ext _ _ _ new Hv1).
  intros s2 v2 T2 He2 Hinv2 (E1 & E2 & E3 & E4) Hl2 Hdk Htr Hfr.
  destruct body_done as [Hhead Hhome]. apply (HQ s2 v2); auto.
  2: { intros b Hb. rewrite E4, <- Hhome by done. unfold T2. destruct (decide (b ∈ T.*1)) as [Hk|Hk].
       - now apply apply_view_in_keys.
       - apply apply_view_agree. rewrite Hv1. apply Hsame. intros H'. now apply Hk, commit_keys. }
  constructor; auto; rewrite Hdk; unfold T2; rewrite ?apply_disk_block; auto.
  - destruct Hin as [_ _ _ Hh1 Hm1 Hd1 _ _]. split; [congruence|]. split; [|split; [congruence|]].
    + rewrite E3, Hd1. apply set_eq. intros k. rewrite elem_of_difference, !elem_of_list_to_set.
      split; [|set_solver]. intros [Hk Hn]. exfalso. now apply Hn, commit_keys.
    + intros k. rewrite apply_disk_block, E4. destruct (decide (k ∈ T.*1)) as [Hk|Hk].
      * now apply apply_view_in_keys.
      * apply apply_view_agree. rewrite Hv1. apply Hsame. intros Hb. now apply Hk, commit_keys.
  - rewrite Hhome by apply not_in_log_1. rewrite Hsame by done. exact Hsb.
Qed.

(** Every crash disk satisfies [crash_ok]. *)
Lemma crashed_ok c D :
  crashed start (k_disk s) T (length bl) c D -> crash_ok start bl old new c (disk_block D).
Proof.
  induction 1 as [k|c D bl' j _ IH Hh]; (eapply crash_ok_ext; [apply apply_disk_block|]).
  - apply body_crash_commit.
  - apply crash_ok_recover; auto using old_len.
Qed.

Lemma wp_reboot c D s0 me0 p0 (Q : unit -> kstate -> Prop) :
  crash_ok start bl old new c (disk_block D) -> booting s0 me0 p0 -> k_disk s0 = D ->
  (forall s1 bl', has_head (disk_block D start) bl' ->
     k_trace s1 = k_trace s0 ++ recover_writes start bl' (disk_block D) ->
     has_head (disk_block (k_disk s1) start) [] ->
     (forall b, ~ in_log start b -> disk_block (k_disk s1) b = if c then new b else old b) ->
     Q tt s1) ->
  wp (binit ;; initlog 1) Q s0.
Proof.
  intros Hok (He & Hf & Hlb) <- HQ. set (D := k_disk s0) in *. pose proof Hok as [Hlen Hc].
  assert (exists bl', has_head (disk_block D start) bl' /\ geometry start bl') as (bl' & Hh & Gbl).
  { destruct Hc as [[Hh _]|(_ & Hh & _)]; eauto using geometry_nil. }
  assert (disk_block D 1 = old 1) as H1.
  { pose proof not_in_log_1 as Hn1.
    destruct Hc as [[_ Hc]|(_ & _ & _ & Hc)]; rewrite Hc by done; [destruct c|]; rewrite ?Hsame; done. }
  wp_steps. apply wp_binit; [done|exact Hlen|]. intros bs s1 Hinv1.
  eapply (wp_initlog s1 me0 p0 _ start bl'); [done|exact He|exact Hinv1|now repeat split| |exact Hlb|exact Hh|].
  { change (v_data _ 1) with (disk_block D 1). rewrite H1. apply (fi_sb _ _ _ _ _ Hidle). }
  intros s2 v2 T' Hdk Htr Hn Hv2 Hinv2. change (recover_writes start bl' (v_data (v_init (k_disk s0)))) with
    (recover_writes start bl' (disk_block D)) in T'.
  assert (crash_ok start bl old new c (apply_view (disk_block D) T')) as Hok2.
  { rewrite <- (firstn_all T'). apply crash_ok_recover; auto using old_len. }
  assert (has_head (apply_view (disk_block D) T' start) []) as Hclear.
  { unfold T', recover_writes. rewrite apply_view_app. simpl. rewrite dupd_eq.
    apply (has_head_encode start []); [now apply geometry_nil with bl'|apply Hlen]. }
  apply (HQ s2 bl'); auto; rewrite Hdk; [now rewrite apply_disk_block|].
  intros b Hb. rewrite apply_disk_block. destruct Hok2 as [_ [[_ Hall]|(_ & Hbl & _)]]; [auto|].
  exfalso. apply Hne. exact (has_head_fun _ _ _ Hbl Hclear).
Qed.

(** What a crash during the commit leads to after the next boot. *)
Lemma body_crash_safe c D s0 me0 p0 :
  crashed start (k_disk s) T (length bl) c D -> booting s0 me0 p0 -> k_disk s0 = D ->
  wp (binit ;; initlog 1) (fun _ s1 =>
    (exists bl', has_head (disk_block D start) bl' /\
       k_trace s1 = k_trace s0 ++ recover_writes start bl' (disk_block D)) /\
    forall b, ~ in_log start b -> disk_block (k_disk s1) b = if c then new b else old b) s0.
Proof.
  intros Hc Hboot HD. eapply (wp_reboot c D); [now apply crashed_ok|exact Hboot|exact HD|]. eauto 6.
Qed.
End body.

(** ** A transaction that writes a list of blocks *)

Section tx.
Context (s : kstate) (me : nat) (p : proc) (v : bview) (start : Z) (tx : writes).
Abbreviation new := (apply_view (disk_block (k_disk s)) tx).
Hypothesis Hidle : fs_idle s me p v start.
Hypothesis Htx : tx_ok start tx.

Lemma tx_same b : b ∉ tx_blocks tx -> new b = disk_block (k_disk s) b.
Proof using.
  intros Hb. apply apply_view_out. intros Hx. apply Hb. apply elem_of_bl_adds. now right.
Qed.

Lemma tx_not_1 : 1 ∉ tx_blocks tx.
Proof using Htx.
  intros [H|([b' x] & E & Hin)%list_elem_of_fmap]%elem_of_bl_adds; [now apply not_elem_of_nil in H|].
  destruct Htx as (_ & _ & H). destruct (H b' x Hin) as (_ & _ & H2 & _). simpl in E. congruence.
Qed.

Lemma tx_new_len b : length (new b) = 512%nat.
Proof.
  apply apply_view_length; [apply (old_len s me p v start Hidle)|].
  intros x ([b' y] & -> & Hin)%list_elem_of_fmap.
  destruct Htx as (_ & _ & H). now destruct (H b' y Hin) as (_ & _ & _ & H2).
Qed.

Lemma wp_tx_body (Q : unit -> kstate -> Prop) :
  (forall s1 v1, in_tx s s1 me p v1 start (tx_blocks tx) -> (forall k, v_data v1 k = new k) -> wp end_op Q s1) ->
  wp (transaction tx) Q s.
Proof.
  intros HQ. pose proof Hidle as [He Hinv (Hh & Hd & Hm & Hv) Hl _ _ _ _].
  pose proof Hl as (L1 & L2 & L3 & L4 & L5 & L6 & L7). pose proof Htx as (_ & Hlen & Hok).
  unfold transaction. wp_steps. apply (wp_begin_op s start); [apply He|done|]. wp_steps.
  apply (wp_tx_loop s me p start tx _ v []); [now constructor|constructor|set_solver|done| |].
  { intros b x Hb. destruct (Hok b x Hb) as (H1 & _ & _ & H2). done. }
  fold (tx_blocks tx). intros s1 v1 Hin Hv1. wp_steps. apply (HQ s1 v1 Hin). intros k. rewrite Hv1.
  apply apply_view_ext, Hv.
Qed.
End tx.

(** C1: file system transactions are atomic and durable. A transaction (begin_op, any writes to
    blocks outside the log through bread / log_write / brelse, end_op) run from an idle file
    system completes and leaves it idle; and if the machine crashes after any number of its disk
    writes, and again any number of times during recovery, the next boot (binit, initlog)
    completes and leaves every block outside the log with its old content if the commit header
    had not reached the disk, and with its new content otherwise. *)
Theorem transaction_crash_safe s me p v start tx :
  fs_idle s me p v start -> tx_ok start tx ->
  let old := disk_block (k_disk s) in
  let new := apply_view old tx in
  let bl := tx_blocks tx in
  let T := commit_writes start bl new in
  wp (transaction tx) (fun _ s' =>
    (exists v', fs_idle s' me p v' start) /\ k_trace s' = k_trace s ++ T /\
    k_disk s' = apply_disk (k_disk s) T /\
    forall b, ~ in_log start b -> disk_block (k_disk s') b = new b) s /\
  forall c D, crashed start (k_disk s) T (length bl) c D ->
  forall s0 me0 p0, booting s0 me0 p0 -> k_disk s0 = D ->
  wp (binit ;; initlog 1) (fun _ s1 =>
    (exists bl', has_head (disk_block D start) bl' /\
       k_trace s1 = k_trace s0 ++ recover_writes start bl' (disk_block D)) /\
    forall b, ~ in_log start b -> disk_block (k_disk s1) b = if c then new b else old b) s0.
Proof.
  intros Hidle Htx old new bl T. destruct (tx_geometry _ _ _ _ _ _ Hidle Htx) as [G Hne].
  pose proof (tx_not_1 start tx Htx) as H1. pose proof (tx_new_len s me p v start tx Hidle Htx) as Hlen.
  pose proof (tx_same s tx) as Hsame. split.
  - apply (wp_tx_body s me p v start tx Hidle Htx). intros s1 v1 Hin Hv1.
    apply (wp_body_end s me p v start bl new Hidle G Hne H1 Hlen Hsame s1 v1); auto.
    intros s' v' Hi Htr Hdk _ _. split; [eauto|]. split; [done|]. split; [done|]. intros b Hb.
    rewrite Hdk, apply_disk_block. now apply (body_done s me p v start bl new).
  - intros c D Hc s0 me0 p0. now apply (body_crash_safe s me p v start bl new).
Qed.

(** ** Witness: a file system with the log at block 2 *)

Definition ex_disk : gmap Z (list Z) := {[ 1 := wr32 zero_block 16 2 ]}.
Definition ex_booted : kstate :=
  state_after binit
    ((one_proc_state zero_proc []) <| k_disk := ex_disk |>
       <| k_log := mk_logst 2 30 0 0 1 0 (replicate 30 0) |>).

Lemma ex_disk_len bno : length (disk_block ex_disk bno) = 512%nat.
Proof.
  unfold disk_block, ex_disk. destruct (decide (bno = 1)) as [->|].
  - rewrite lookup_singleton_eq. reflexivity.
  - rewrite lookup_singleton_ne by congruence. reflexivity.
Qed.

Lemma ex_idle : fs_idle ex_booted 0 running_proc (v_init ex_disk) 2.
Proof.
  unfold ex_booted. apply (wp_state_after _ (fun s => fs_idle s 0 running_proc (v_init ex_disk) 2)).
  apply wp_binit; [apply (one_proc_fresh zero_proc)|apply ex_disk_len|]. intros bs s' Hinv.
  constructor; try done; try exact Hinv; try (now repeat split).
Qed.

Definition ex_tx : writes := [(100, replicate 512 1); (101, replicate 512 2); (100, replicate 512 3)].
Lemma ex_tx_ok : tx_ok 2 ex_tx.
Proof.
  split; [done|]. split; [now vm_compute|]. intros b x Hb. unfold ex_tx in Hb.
  rewrite !elem_of_cons in Hb. unfold FSSIZE, in_log, LOGSIZE, MAXOPBLOCKS.
  destruct Hb as [Hb|[Hb|[Hb|Hb]]]; [..|set_solver]; apply (inj2 pair) in Hb as [-> ->]; rewrite length_replicate; lia.
Qed.

Lemma transaction_crash_safe_witness :
  let s := ex_booted in let tx := ex_tx in
  let old := disk_block (k_disk s) in
  let new := apply_view old tx in
  let bl := tx_blocks tx in
  let T := commit_writes 2 bl new in
  wp (transaction tx) (fun _ s' =>
    (exists v', fs_idle s' 0 running_proc v' 2) /\ k_trace s' = k_trace s ++ T /\
    k_disk s' = apply_disk (k_disk s) T /\
    forall b, ~ in_log 2 b -> disk_block (k_disk s') b = new b) s /\
  forall c D, crashed 2 (k_disk s) T (length bl) c D ->
  forall s0 me0 p0, booting s0 me0 p0 -> k_disk s0 = D ->
  wp (binit ;; initlog 1) (fun _ s1 =>
    (exists bl', has_head (disk_block D 2) bl' /\
       k_trace s1 = k_trace s0 ++ recover_writes 2 bl' (disk_block D)) /\
    forall b, ~ in_log 2 b -> disk_block (k_disk s1) b = if c then new b else old b) s0.
Proof.
  exact (transaction_crash_safe ex_booted 0 running_proc (v_init ex_disk) 2 ex_tx ex_idle ex_tx_ok).
Defined.
