(* ===== verification/Inode.v ===== *)
(** The block allocator and the inode layer, fs.c up to stati. *)

From stdpp Require Import base list gmap strings numbers.
From Stdlib Require Import ZArith Lia.
From S2P Require Import Prelude Bytes Itoa Kstate Cons Sched Bio Log.
Open Scope Z_scope.

(** fs.h *)
Definition IBLOCK (i : Z) (sb : superblock) : Z := u32 (i / IPB + sb_inodestart sb).
Definition BBLOCK (b : Z) (sb : superblock) : Z := u32 (b / BPB + sb_bmapstart sb).

(** The bytes of a buffer, and their update. *)
Definition bdata (bp : nat) : K (list Z) := b ← buf_at bp; ret (b_data b).
Definition set_bdata (bp : nat) (d : list Z) : K unit := upd_buf bp (fun x => x <| b_data := d |>).

(** ** Blocks *)

Definition bzero (dev bno : Z) : K unit :=
  bp ← bread dev bno;
  set_bdata bp zero_block ;;
  log_write bp ;;
  brelse bp.

(** Bit [bi] of the bitmap block [d]. *)
Definition bit_mask (bi : nat) : Z := Z.shiftl 1 (Z.of_nat bi mod 8).
Definition bit_clear (d : list Z) (bi : nat) : bool :=
  Z.land (default 0 (d !! (bi / 8)%nat)) (bit_mask bi) =? 0.
Definition set_bit (d : list Z) (bi : nat) : list Z :=
  <[(bi / 8)%nat := Z.lor (default 0 (d !! (bi / 8)%nat)) (bit_mask bi)]> d.
Definition clear_bit (d : list Z) (bi : nat) : list Z :=
  <[(bi / 8)%nat := Z.land (default 0 (d !! (bi / 8)%nat)) (Z.lnot (bit_mask bi))]> d.

(** The outer loop of balloc from [b] on; [fuel] bitmap blocks are left. *)
Fixpoint balloc_loop (fuel : nat) (dev b : Z) : K Z :=
  sb ← gets k_sb;
  if b <? sb_size sb then
    match fuel with
    | O => nofuel
    | S fuel' =>
      bp ← bread dev (BBLOCK b sb);
      d ← bdata bp;
      match find_idx (bit_clear d) (seq 0 (Z.to_nat (Z.min BPB (sb_size sb - b)))) with
      | Some bi =>
        set_bdata bp (set_bit d bi) ;;
        log_write bp ;;
        brelse bp ;;
        bzero dev (b + Z.of_nat bi) ;;
        ret (b + Z.of_nat bi)
      | None => brelse bp ;; balloc_loop fuel' dev (b + BPB)
      end
    end
  else panic "balloc: out of blocks".

Definition balloc (dev : Z) : K Z :=
  sb ← gets k_sb; balloc_loop (S (Z.to_nat (sb_size sb / BPB))) dev 0.

Definition bfree (dev b : Z) : K unit :=
  sb ← gets k_sb;
  bp ← bread dev (BBLOCK b sb);
  let bi := Z.to_nat (b mod BPB) in
  d ← bdata bp;
  if bit_clear d bi then panic "freeing free block" else
  set_bdata bp (clear_bit d bi) ;;
  log_write bp ;;
  brelse bp.

(** ** Inodes *)

Definition iinit (dev : Z) : K unit :=
  for_ (seq 0 (Z.to_nat NINODE)) (fun i => initsleeplock (SLInode i)) ;;
  sb ← readsb dev;
  modify (fun s => s <| k_sb := sb |>) ;;
  cprintf (str "sb: size %d nblocks %d ninodes %d nlog %d logstart %d inodestart %d bmap start %d" ++ [10])
    [AInt (sb_size sb); AInt (sb_nblocks sb); AInt (sb_ninodes sb); AInt (sb_nlog sb);
     AInt (sb_logstart sb); AInt (sb_inodestart sb); AInt (sb_bmapstart sb)].

(** fs.h [struct dinode]: 64 bytes on disk. *)
Definition dinode_off (inum : Z) : nat := Z.to_nat (inum mod IPB * 64).

Definition encode_dinode (ip : inode) : list Z :=
  le_bytes 2 (i_type ip) ++ le_bytes 2 (i_major ip) ++ le_bytes 2 (i_minor ip) ++
  le_bytes 2 (i_nlink ip) ++ le_bytes 4 (i_size ip) ++ concat (le_bytes 4 <$> i_addrs ip).

(** ip->type = dip->type; ... memmove(ip->addrs, dip->addrs, ...) *)
Definition decode_dinode (d : list Z) (off : nat) (ip : inode) : inode :=
  ip <| i_type := s16 (rd16 d off) |> <| i_major := s16 (rd16 d (off + 2)) |>
     <| i_minor := s16 (rd16 d (off + 4)) |> <| i_nlink := s16 (rd16 d (off + 6)) |>
     <| i_size := rd32 d (off + 8) |>
     <| i_addrs := (fun k => rd32 d (off + 12 + 4 * k)%nat) <$> seq 0 (Z.to_nat (NDIRECT + 1)) |>.

Definition iget (dev inum : Z) : K nat :=
  acquire LIcache ;;
  ips ← gets k_icache;
  match find_idx (fun ip => (0 <? i_ref ip) && (i_dev ip =? dev) && (i_inum ip =? inum)) ips with
  | Some i =>
    upd_inode i (fun ip => ip <| i_ref := i_ref ip + 1 |>) ;;
    release LIcache ;;
    ret i
  | None =>
    match find_idx (fun ip => i_ref ip =? 0) ips with
    | None => panic "iget: no inodes"
    | Some i =>
      upd_inode i (fun ip => ip <| i_dev := dev |> <| i_inum := inum |>
                                <| i_ref := 1 |> <| i_valid := 0 |>) ;;
      release LIcache ;;
      ret i
    end
  end.

(** The loop of ialloc over the inode numbers [inums]. *)
Fixpoint ialloc_loop (dev type : Z) (inums : list Z) : K nat :=
  match inums with
  | [] => panic "ialloc: no inodes"
  | inum :: rest =>
    sb ← gets k_sb;
    bp ← bread dev (IBLOCK inum sb);
    d ← bdata bp;
    let off := dinode_off inum in
    if rd16 d off =? 0 then
      set_bdata bp (wr16 (splice off (replicate 64 0) d) off type) ;;
      log_write bp ;;
      brelse bp ;;
      iget dev inum
    else brelse bp ;; ialloc_loop dev type rest
  end.

Definition ialloc (dev type : Z) : K nat :=
  sb ← gets k_sb;
  ialloc_loop dev type (Z.of_nat <$> seq 1 (Z.to_nat (sb_ninodes sb - 1))).

Definition iupdate (i : nat) : K unit :=
  ip ← inode_at i;
  sb ← gets k_sb;
  bp ← bread (i_dev ip) (IBLOCK (i_inum ip) sb);
  d ← bdata bp;
  set_bdata bp (splice (dinode_off (i_inum ip)) (encode_dinode ip) d) ;;
  log_write bp ;;
  brelse bp.

Definition idup (i : nat) : K nat :=
  acquire LIcache ;;
  upd_inode i (fun ip => ip <| i_ref := i_ref ip + 1 |>) ;;
  release LIcache ;;
  ret i.

Definition ilock (i : nat) : K unit :=
  ip ← inode_at i;
  if i_ref ip <? 1 then panic "ilock" else
  acquiresleep (SLInode i) ;;
  ip ← inode_at i;
  when (i_valid ip =? 0)
    (sb ← gets k_sb;
     bp ← bread (i_dev ip) (IBLOCK (i_inum ip) sb);
     d ← bdata bp;
     upd_inode i (decode_dinode d (dinode_off (i_inum ip))) ;;
     brelse bp ;;
     upd_inode i (fun ip => ip <| i_valid := 1 |>) ;;
     ip ← inode_at i;
     when (i_type ip =? 0) (panic "ilock: no type")).

Definition iunlock (i : nat) : K unit :=
  h ← holdingsleep (SLInode i);
  ip ← inode_at i;
  if negb h || (i_ref ip <? 1) then panic "iunlock" else releasesleep (SLInode i).

(** ** Inode content *)

Definition addr_at (i : nat) (bn : Z) : K Z :=
  ip ← inode_at i; of_opt "ip->addrs" (i_addrs ip !! Z.to_nat bn).
Definition set_addr (i : nat) (bn addr : Z) : K unit :=
  upd_inode i (fun ip => ip <| i_addrs := <[Z.to_nat bn := addr]> (i_addrs ip) |>).

Definition bmap (i : nat) (bn : Z) : K Z :=
  ip ← inode_at i;
  if bn <? NDIRECT then
    addr ← addr_at i bn;
    if addr =? 0 then addr ← balloc (i_dev ip); set_addr i bn addr ;; ret addr else ret addr
  else
  let bn := bn - NDIRECT in
  if bn <? NINDIRECT then
    addr ← addr_at i NDIRECT;
    addr ← (if addr =? 0 then addr ← balloc (i_dev ip); set_addr i NDIRECT addr ;; ret addr
            else ret addr);
    bp ← bread (i_dev ip) addr;
    d ← bdata bp;
    let a := rd32 d (Z.to_nat (4 * bn)) in
    addr ← (if a =? 0 then
              addr ← balloc (i_dev ip);
              d ← bdata bp;
              set_bdata bp (wr32 d (Z.to_nat (4 * bn)) addr) ;;
              log_write bp ;;
              ret addr
            else ret a);
    brelse bp ;;
    ret addr
  else panic "bmap: out of range".

Definition itrunc (i : nat) : K unit :=
  ip ← inode_at i;
  for_ (seq 0 (Z.to_nat NDIRECT)) (fun k =>
    addr ← addr_at i (Z.of_nat k);
    when (negb (addr =? 0)) (bfree (i_dev ip) addr ;; set_addr i (Z.of_nat k) 0)) ;;
  addr ← addr_at i NDIRECT;
  when (negb (addr =? 0))
    (bp ← bread (i_dev ip) addr;
     for_ (seq 0 (Z.to_nat NINDIRECT)) (fun j =>
       d ← bdata bp;
       let a := rd32 d (4 * j) in
       when (negb (a =? 0)) (bfree (i_dev ip) a)) ;;
     brelse bp ;;
     addr ← addr_at i NDIRECT;
     bfree (i_dev ip) addr ;;
     set_addr i NDIRECT 0) ;;
  upd_inode i (fun ip => ip <| i_size := 0 |>) ;;
  iupdate i.

Definition iput (i : nat) : K unit :=
  acquiresleep (SLInode i) ;;
  ip ← inode_at i;
  when (negb (i_valid ip =? 0) && (i_nlink ip =? 0))
    (acquire LIcache ;;
     ip ← inode_at i;
     release LIcache ;;
     when (i_ref ip =? 1)
       (itrunc i ;;
        upd_inode i (fun ip => ip <| i_type := 0 |>) ;;
        iupdate i ;;
        upd_inode i (fun ip => ip <| i_valid := 0 |>))) ;;
  releasesleep (SLInode i) ;;
  acquire LIcache ;;
  upd_inode i (fun ip => ip <| i_ref := i_ref ip - 1 |>) ;;
  release LIcache.

Definition iunlockput (i : nat) : K unit := iunlock i ;; iput i.

(** stat.h [struct stat] *)
Record stat := mk_stat { st_type : Z; st_dev : Z; st_ino : Z; st_nlink : Z; st_size : Z }.

Definition stati (i : nat) : K stat :=
  ip ← inode_at i;
  ret (mk_stat (i_type ip) (i_dev ip) (i_inum ip) (i_nlink ip) (i_size ip)).
