(* ===== verification/User.v ===== *)
(** User programs: the system call interface of user.h, the input and output functions of printf.c
    and ulib.c, and what a program may assume about the streams it reads and writes.

    A program is a function in the monad [M S] over any implementation [Sys S] of the system
    calls. The class [Streams] states what the programs rely on: a descriptor delivers the bytes
    of its stream in order, in pieces of any size, and output is appended. *)

From stdpp Require Import base list gmap strings numbers.
From Stdlib Require Import ZArith Lia.
From S2P Require Import Prelude Bytes CString Itoa Kstate Inode.
Open Scope Z_scope.

(** ** user.h *)

(** read and fstat return the bytes and the structure they store. exit does not return. *)
Class Sys (S : Type) := {
  u_fork : M S Z;
  u_exit : forall A, M S A;
  u_wait : M S Z;
  u_pipe : M S (Z * (Z * Z));
  u_write : Z -> list Z -> M S Z;
  u_read : Z -> Z -> M S (Z * list Z);
  u_close : Z -> M S Z;
  u_kill : Z -> M S Z;
  u_exec : list Z -> list (list Z) -> M S Z;
  u_open : list Z -> Z -> M S Z;
  u_mknod : list Z -> Z -> Z -> M S Z;
  u_unlink : list Z -> M S Z;
  u_fstat : Z -> M S (option stat);
  u_link : list Z -> list Z -> M S Z;
  u_mkdir : list Z -> M S Z;
  u_chdir : list Z -> M S Z;
  u_dup : Z -> M S Z;
  u_sbrk : Z -> M S Z;
  u_sleep : Z -> M S Z
}.
Arguments u_exit {S _} {A}.

(** ** printf.c *)

(** The words that follow the format on the stack. *)
Inductive uarg := UInt (x : Z) | UStr (s : option (list Z)).

Section printf.
Context {S : Type} `{!Sys S}.

Definition putc (fd c : Z) : M S unit := u_write fd [u8 c] ;; ret tt.

Definition udigits : list Z := str "0123456789ABCDEF".

Definition uprintint (fd xx base : Z) (sgn : bool) : M S unit :=
  cs ← of_opt "printint" (printint_chars udigits xx base (sgn && (xx <? 0)));
  for_ cs (putc fd).

(** The loop of printf; [state] is '%' (true) or 0. *)
Fixpoint printf_loop (fd : Z) (fmt : list Z) (state : bool) (ap : list uarg) : M S unit :=
  match fmt with
  | [] => ret tt
  | c :: fmt' =>
    if negb state then
      if c =? 37 then printf_loop fd fmt' true ap
      else putc fd c ;; printf_loop fd fmt' false ap
    else if c =? 100 then
      match ap with
      | UInt x :: ap' => uprintint fd (s32 x) 10 true ;; printf_loop fd fmt' false ap'
      | _ => fault "printf"
      end
    else if (c =? 120) || (c =? 112) then
      match ap with
      | UInt x :: ap' => uprintint fd (s32 x) 16 false ;; printf_loop fd fmt' false ap'
      | _ => fault "printf"
      end
    else if c =? 115 then
      match ap with
      | UStr o :: ap' =>
        for_ (default (str "(null)") o) (putc fd) ;; printf_loop fd fmt' false ap'
      | _ => fault "printf"
      end
    else if c =? 99 then
      match ap with
      | UInt x :: ap' => putc fd x ;; printf_loop fd fmt' false ap'
      | _ => fault "printf"
      end
    else if c =? 37 then putc fd c ;; printf_loop fd fmt' false ap
    else putc fd 37 ;; putc fd c ;; printf_loop fd fmt' false ap
  end.

Definition printf (fd : Z) (fmt : list Z) (ap : list uarg) : M S unit :=
  printf_loop fd fmt false ap.

(** ** ulib.c *)

(** for(i=0; i+1 < max; ): the bytes stored in buf, before the final NUL. *)
Fixpoint gets_loop (n : nat) : M S (list Z) :=
  match n with
  | O => ret []
  | Datatypes.S n' =>
    '(cc, bs) ← u_read 0 1;
    if cc <? 1 then ret [] else
    c ← of_opt "gets" (head bs);
    if (c =? 10) || (c =? 13) then ret [c] else
    l ← gets_loop n';
    ret (c :: l)
  end.

Definition gets (max : Z) : M S (list Z) := gets_loop (Z.to_nat (max - 1)).

Definition ustat (n : list Z) : M S (option stat) :=
  fd ← u_open n 0;
  if fd <? 0 then ret None else
  r ← u_fstat fd;
  u_close fd ;;
  ret r.
End printf.

(** ** Streams *)

(** [inp fd l s]: the bytes that reading from [fd] will still deliver are [l]. [out fd l s]: the
    bytes written to [fd] so far are [l]. *)
Class Streams (S : Type) `{!Sys S} := {
  inp : Z -> list Z -> S -> Prop;
  out : Z -> list Z -> S -> Prop;
  read_inp : forall fd n l s, 0 < n -> inp fd l s ->
    wp (u_read fd n) (fun r s' => exists k,
      r = (Z.of_nat (length (take k l)), take k l) /\ (Z.of_nat k <= n) /\ (l <> [] -> 0 < k)%nat /\
      inp fd (drop k l) s' /\ forall fd' o, out fd' o s -> out fd' o s') s;
  write_out : forall fd bs o s, bs <> [] -> out fd o s ->
    wp (u_write fd bs) (fun r s' => r = Z.of_nat (length bs) /\ out fd (o ++ bs) s' /\
      (forall fd' o', fd' <> fd -> out fd' o' s -> out fd' o' s') /\
      forall fd' l, inp fd' l s -> inp fd' l s') s
}.

(** Files: a read delivers as many bytes as it asks for, as long as there are so many. *)
Class FullReads (S : Type) `{Streams S} := {
  read_full : forall fd n l s, 0 < n -> inp fd l s ->
    wp (u_read fd n) (fun r s' =>
      r = (Z.of_nat (length (take (Z.to_nat n) l)), take (Z.to_nat n) l) /\
      inp fd (drop (Z.to_nat n) l) s' /\ forall fd' o, out fd' o s -> out fd' o s') s
}.

(** ** What printf prints *)

(** The characters of printf's output, [None] when an argument is missing or of the wrong kind. *)
Fixpoint render (fmt : list Z) (state : bool) (ap : list uarg) : option (list Z) :=
  match fmt with
  | [] => Some []
  | c :: fmt' =>
    let skip bs ap' := app (u8 <$> bs) <$> render fmt' false ap' in
    if negb state then if c =? 37 then render fmt' true ap else skip [c] ap
    else if c =? 100 then
      match ap with
      | UInt x :: ap' => bs ← printint_chars udigits (s32 x) 10 (s32 x <? 0); skip bs ap'
      | _ => None
      end
    else if (c =? 120) || (c =? 112) then
      match ap with
      | UInt x :: ap' => bs ← printint_chars udigits (s32 x) 16 false; skip bs ap'
      | _ => None
      end
    else if c =? 115 then
      match ap with UStr o :: ap' => skip (default (str "(null)") o) ap' | _ => None end
    else if c =? 99 then
      match ap with UInt x :: ap' => skip [x] ap' | _ => None end
    else if c =? 37 then skip [c] ap
    else skip [37; c] ap
  end.

Section io.
Context {S : Type} `{Streams S}.

(** The other streams stay as they are. *)
Definition io_frame (fd : Z) (s s' : S) : Prop :=
  (forall fd' o', fd' <> fd -> out fd' o' s -> out fd' o' s') /\ forall fd' l, inp fd' l s -> inp fd' l s'.

Lemma io_frame_refl fd s : io_frame fd s s.
Proof. split; auto. Qed.

Lemma io_frame_trans fd s1 s2 s3 : io_frame fd s1 s2 -> io_frame fd s2 s3 -> io_frame fd s1 s3.
Proof. intros [A1 A2] [B1 B2]. split; auto. Qed.

Lemma wp_putc fd c o s (Q : unit -> S -> Prop) :
  out fd o s -> (forall s', out fd (o ++ [u8 c]) s' -> io_frame fd s s' -> Q tt s') -> wp (putc fd c) Q s.
Proof.
  intros Ho HQ. unfold putc. wp_steps. eapply wp_mono; [apply (write_out fd [u8 c] o); [done|exact Ho]|].
  intros r s' (-> & H1 & H2 & H3). wp_steps. apply HQ; [done|]. now split.
Qed.

Lemma wp_puts fd cs : forall o s (Q : unit -> S -> Prop),
  out fd o s -> (forall s', out fd (o ++ (u8 <$> cs)) s' -> io_frame fd s s' -> Q tt s') ->
  wp (for_ cs (putc fd)) Q s.
Proof.
  induction cs as [|c cs IH]; intros o s Q Ho HQ; cbn [for_].
  - wp_steps. apply HQ; [now rewrite app_nil_r|apply io_frame_refl].
  - wp_steps. apply (wp_putc fd c o); [done|]. intros s1 H1 F1. apply (IH (o ++ [u8 c])); [done|].
    intros s2 H2 F2. apply HQ; [now rewrite <- app_assoc in H2|eapply io_frame_trans; eauto].
Qed.

(** Running one segment of the output, then the rest. *)
Lemma wp_print_step fd bs fmt ap rest o s (m : M S unit) (Q : unit -> S -> Prop) :
  (forall o s (Q : unit -> S -> Prop), out fd o s ->
     (forall s', out fd (o ++ rest) s' -> io_frame fd s s' -> Q tt s') -> wp (printf_loop fd fmt false ap) Q s) ->
  (forall Q : unit -> S -> Prop, (forall s', out fd (o ++ (u8 <$> bs)) s' -> io_frame fd s s' -> Q tt s') -> wp m Q s) ->
  (forall s', out fd (o ++ (u8 <$> bs) ++ rest) s' -> io_frame fd s s' -> Q tt s') ->
  wp (m ;; printf_loop fd fmt false ap) Q s.
Proof.
  intros Hrest Hm HQ. wp_steps. apply Hm. intros s1 H1 F1. eapply Hrest; [exact H1|].
  intros s2 H2 F2. apply HQ; [now rewrite app_assoc|eapply io_frame_trans; eauto].
Qed.

Lemma fmap_app_Some (pre : list Z) o text :
  app pre <$> o = Some text -> exists rest, o = Some rest /\ text = pre ++ rest.
Proof. destruct o; simpl; [|discriminate]. intros [= <-]. eauto. Qed.

Lemma wp_printint fd xx base sgn bs o s (Q : unit -> S -> Prop) :
  printint_chars udigits xx base (sgn && (xx <? 0)) = Some bs -> out fd o s ->
  (forall s', out fd (o ++ (u8 <$> bs)) s' -> io_frame fd s s' -> Q tt s') -> wp (uprintint fd xx base sgn) Q s.
Proof. intros E Ho HQ. unfold uprintint. rewrite E. wp_steps. now apply (wp_puts fd bs o). Qed.

Lemma wp_printf_loop fd fmt : forall state ap text o s (Q : unit -> S -> Prop),
  render fmt state ap = Some text -> out fd o s ->
  (forall s', out fd (o ++ text) s' -> io_frame fd s s' -> Q tt s') -> wp (printf_loop fd fmt state ap) Q s.
Proof.
  induction fmt as [|c fmt IH]; intros state ap text o s Q E Ho HQ; cbn [printf_loop render] in *.
  { injection E as <-. wp_steps. apply HQ; [now rewrite app_nil_r|apply io_frame_refl]. }
  assert (forall bs ap' (m : M S unit), app (u8 <$> bs) <$> render fmt false ap' = Some text ->
    (forall Q : unit -> S -> Prop, (forall s', out fd (o ++ (u8 <$> bs)) s' -> io_frame fd s s' -> Q tt s') -> wp m Q s) ->
    wp (m ;; printf_loop fd fmt false ap') Q s) as Hstep.
  { intros bs ap' m (rest & Er & ->)%fmap_app_Some Hm. apply (wp_print_step fd bs fmt ap' rest o); auto.
    intros o1 s1 Q1. now apply IH. }
  destruct state; cbn [negb] in *.
  - destruct (c =? 100).
    { destruct ap as [|[x|] ap]; try discriminate. apply bind_Some in E as (bs & Eb & E).
      apply (Hstep bs ap); [done|]. intros Q1. now apply (wp_printint fd _ 10 true). }
    destruct (_ || _).
    { destruct ap as [|[x|] ap]; try discriminate. apply bind_Some in E as (bs & Eb & E).
      apply (Hstep bs ap); [done|]. intros Q1. now apply (wp_printint fd _ 16 false). }
    destruct (c =? 115).
    { destruct ap as [|[x|x] ap]; try discriminate. apply (Hstep _ ap _ E). intros Q1. now apply wp_puts. }
    destruct (c =? 99).
    { destruct ap as [|[x|x] ap]; try discriminate. apply (Hstep _ ap _ E). intros Q1. now apply wp_putc. }
    destruct (c =? 37).
    { apply (Hstep _ ap _ E). intros Q1. now apply wp_putc. }
    apply fmap_app_Some in E as (rest & Er & ->). wp_steps. apply (wp_putc fd 37 o); [done|].
    intros s1 H1 F1. wp_steps. apply (wp_putc fd c (o ++ [u8 37])); [done|]. intros s2 H2 F2.
    apply (IH false ap rest ((o ++ [u8 37]) ++ [u8 c])); [done|done|]. intros s3 H3 F3. apply HQ.
    + now rewrite <- !app_assoc in H3.
    + eauto using io_frame_trans.
  - destruct (c =? 37); [now apply (IH true ap text o)|].
    apply (Hstep _ ap _ E). intros Q1. now apply wp_putc.
Qed.

Lemma wp_printf fd fmt ap text o s (Q : unit -> S -> Prop) :
  render fmt false ap = Some text -> out fd o s ->
  (forall s', out fd (o ++ text) s' -> io_frame fd s s' -> Q tt s') -> wp (printf fd fmt ap) Q s.
Proof. apply wp_printf_loop. Qed.
End io.

(** ** A stream machine

    Descriptors with the bytes they will deliver, and the output. With [short], the sizes of the
    next reads are given (a pipe delivers what is there); else every read is complete. There is
    one process and the file names are bound to contents. *)

Record sstate (short : bool) := mk_sstate {
  st_in : gmap Z (list Z);
  st_out : gmap Z (list Z);
  st_sizes : list nat;
  st_files : list (list Z * list Z)
}.
Arguments mk_sstate {short}.
Arguments st_in {short}.
Arguments st_out {short}.
Arguments st_sizes {short}.
Arguments st_files {short}.

Section machine.
Context (short : bool).
Implicit Types (s : sstate short).

(** How many of the [n] bytes asked for the next read delivers. *)
Definition read_size (n : nat) s : nat :=
  if short then match st_sizes s with k :: _ => n `min` S k | [] => n end else n.

Definition st_read (fd n : Z) : M (sstate short) (Z * list Z) := fun s =>
  match st_in s !! fd with
  | None => Ok (-1, []) s
  | Some l =>
    let k := read_size (Z.to_nat n) s in
    Ok (Z.of_nat (length (take k l)), take k l)
       (mk_sstate (<[fd := drop k l]> (st_in s)) (st_out s) (tail (st_sizes s)) (st_files s))
  end.

Definition st_write (fd : Z) (bs : list Z) : M (sstate short) Z := fun s =>
  Ok (Z.of_nat (length bs))
     (mk_sstate (st_in s) (<[fd := default [] (st_out s !! fd) ++ bs]> (st_out s)) (st_sizes s) (st_files s)).

(** open for reading; the descriptor is the number of the file plus 3. *)
Definition st_open (name : list Z) (mode : Z) : M (sstate short) Z := fun s =>
  match find_idx (fun f => bool_decide (fst f = name)) (st_files s) with
  | None => Ok (-1) s
  | Some i =>
    let fd := Z.of_nat i + 3 in
    Ok fd (mk_sstate (<[fd := default [] (snd <$> st_files s !! i)]> (st_in s)) (st_out s) (st_sizes s) (st_files s))
  end.

#[global] Instance stream_sys : Sys (sstate short) := {|
  u_fork := ret (-1); u_exit := fun A s => Switch s; u_wait := ret (-1); u_pipe := ret (-1, (0, 0));
  u_write := st_write; u_read := st_read; u_close := fun _ => ret 0; u_kill := fun _ => ret (-1);
  u_exec := fun _ _ => ret (-1); u_open := st_open; u_mknod := fun _ _ _ => ret (-1);
  u_unlink := fun _ => ret (-1); u_fstat := fun _ => ret None; u_link := fun _ _ => ret (-1);
  u_mkdir := fun _ => ret (-1); u_chdir := fun _ => ret (-1); u_dup := fun _ => ret (-1);
  u_sbrk := fun _ => ret (-1); u_sleep := fun _ => ret 0 |}.

#[global] Program Instance stream_streams : Streams (sstate short) := {|
  inp := fun fd l s => st_in s !! fd = Some l;
  out := fun fd o s => default [] (st_out s !! fd) = o |}.
Next Obligation.
  intros fd n l s Hn Hl. simpl in *. unfold wp. simpl. unfold st_read. rewrite Hl.
  exists (read_size (Z.to_nat n) s). simpl. rewrite lookup_insert_eq. unfold read_size.
  repeat case_match; repeat split; auto; lia.
Qed.
Next Obligation.
  intros fd bs o s _ Ho. simpl in *. unfold wp. simpl. rewrite Ho. split; [done|].
  rewrite lookup_insert_eq. split; [done|]. split; [|done]. intros fd' o' Hne <-.
  now rewrite lookup_insert_ne.
Qed.
End machine.

#[global] Instance stream_full : FullReads (sstate false).
Proof.
  constructor. intros fd n l s Hn Hl. simpl in *. unfold wp. simpl. unfold st_read. rewrite Hl.
  simpl. rewrite lookup_insert_eq. done.
Qed.
