(* ===== verification/Uprogs.v ===== *)
(** The small user programs: cat.c, echo.c, kill.c, ln.c, mkdir.c, rm.c, wc.c, zombie.c and ls.c.
    [args] is argv[1], argv[2], ...; the fuel of a loop that reads to the end of a stream bounds
    the number of reads. *)

From stdpp Require Import base list gmap strings numbers.
From Stdlib Require Import ZArith Lia.
From S2P Require Import Prelude Bytes CString Itoa Kstate Inode User.
Open Scope Z_scope.

Section progs.
Context {S : Type} `{!Sys S}.

(** ** cat.c *)

Fixpoint cat (fuel : nat) (fd : Z) : M S unit :=
  match fuel with
  | O => nofuel
  | Datatypes.S fuel' =>
    '(n, buf) ← u_read fd 512;
    if 0 <? n then
      w ← u_write 1 buf;
      if negb (w =? n) then printf 1 (str "cat: write error" ++ [10]) [] ;; u_exit
      else cat fuel' fd
    else if n <? 0 then printf 1 (str "cat: read error" ++ [10]) [] ;; u_exit
    else ret tt
  end.

(** for(i = 1; i < argc; i++): open the file, run [body] on it, close it. *)
Fixpoint each_file (cmd : string) (body : Z -> list Z -> M S unit) (args : list (list Z)) : M S unit :=
  match args with
  | [] => ret tt
  | a :: args' =>
    fd ← u_open a 0;
    if fd <? 0 then printf 1 (str cmd ++ str ": cannot open %s" ++ [10]) [UStr (Some a)] ;; u_exit
    else body fd a ;; u_close fd ;; each_file cmd body args'
  end.

Definition cat_main (fuel : nat) (args : list (list Z)) : M S unit :=
  match args with
  | [] => cat fuel 0 ;; u_exit
  | _ => each_file "cat" (fun fd _ => cat fuel fd) args ;; u_exit
  end.

(** ** echo.c *)

Fixpoint echo_loop (args : list (list Z)) : M S unit :=
  match args with
  | [] => ret tt
  | a :: args' =>
    printf 1 (str "%s%s") [UStr (Some a); UStr (Some (if bool_decide (args' = []) then [10] else str " "))] ;;
    echo_loop args'
  end.

Definition echo_main (args : list (list Z)) : M S unit := echo_loop args ;; u_exit.

(** ** kill.c, ln.c, mkdir.c, rm.c, zombie.c *)

Definition kill_main (args : list (list Z)) : M S unit :=
  match args with
  | [] => printf 2 (str "usage: kill pid..." ++ [10]) [] ;; u_exit
  | _ => for_ args (fun a => u_kill (atoi a) ;; ret tt) ;; u_exit
  end.

Definition ln_main (args : list (list Z)) : M S unit :=
  match args with
  | [old; new] =>
    r ← u_link old new;
    when (r <? 0) (printf 2 (str "link %s %s: failed" ++ [10]) [UStr (Some old); UStr (Some new)]) ;;
    u_exit
  | _ => printf 2 (str "Usage: ln old new" ++ [10]) [] ;; u_exit
  end.

(** for(...) if(op(argv[i]) < 0){ printf(2, msg, argv[i]); break; } *)
Fixpoint until_failure (op : list Z -> M S Z) (msg : string) (args : list (list Z)) : M S unit :=
  match args with
  | [] => ret tt
  | a :: args' =>
    r ← op a;
    if r <? 0 then printf 2 (str msg ++ [10]) [UStr (Some a)] else until_failure op msg args'
  end.

Definition mkdir_main (args : list (list Z)) : M S unit :=
  match args with
  | [] => printf 2 (str "Usage: mkdir files..." ++ [10]) [] ;; u_exit
  | _ => until_failure u_mkdir "mkdir: %s failed to create" args ;; u_exit
  end.

Definition rm_main (args : list (list Z)) : M S unit :=
  match args with
  | [] => printf 2 (str "Usage: rm files..." ++ [10]) [] ;; u_exit
  | _ => until_failure u_unlink "rm: %s failed to delete" args ;; u_exit
  end.

Definition zombie_main : M S unit :=
  pid ← u_fork;
  (if 0 <? pid then u_sleep 5 ;; ret tt else ret tt) ;;
  u_exit.

(** ** wc.c *)

(** The locals l, w, c and inword. *)
Record wcount := mk_wcount { wc_l : Z; wc_w : Z; wc_c : Z; wc_inword : bool }.

(** " \r\t\n\v" *)
Definition wc_space : list Z := [32; 13; 9; 10; 11].

(** The body of the loop over the bytes of buf. *)
Definition wc_byte (x : wcount) (b : Z) : wcount :=
  let c := s32 (wc_c x + 1) in
  let l := if b =? 10 then s32 (wc_l x + 1) else wc_l x in
  match strchr wc_space b with
  | Some _ => mk_wcount l (wc_w x) c false
  | None => if wc_inword x then mk_wcount l (wc_w x) c true else mk_wcount l (s32 (wc_w x + 1)) c true
  end.

Fixpoint wc_loop (fuel : nat) (fd : Z) (x : wcount) : M S (Z * wcount) :=
  match fuel with
  | O => nofuel
  | Datatypes.S fuel' =>
    '(n, buf) ← u_read fd 512;
    if 0 <? n then wc_loop fuel' fd (fold_left wc_byte buf x) else ret (n, x)
  end.

Definition wc (fuel : nat) (fd : Z) (name : list Z) : M S unit :=
  '(n, x) ← wc_loop fuel fd (mk_wcount 0 0 0 false);
  if n <? 0 then printf 1 (str "wc: read error" ++ [10]) [] ;; u_exit
  else printf 1 (str "%d %d %d %s" ++ [10]) [UInt (wc_l x); UInt (wc_w x); UInt (wc_c x); UStr (Some name)].

Definition wc_main (fuel : nat) (args : list (list Z)) : M S unit :=
  match args with
  | [] => wc fuel 0 [] ;; u_exit
  | _ => each_file "wc" (fun fd a => wc fuel fd a) args ;; u_exit
  end.

(** ** ls.c *)

(** The part of the path after the last slash. *)
Fixpoint after_slash (path : list Z) : list Z :=
  match path with
  | [] => []
  | c :: path' => if existsb (Z.eqb 47) path' then after_slash path' else if c =? 47 then path' else path
  end.

Definition fmtname (path : list Z) : list Z :=
  let p := after_slash path in
  if DIRSIZ <=? Z.of_nat (length p) then p else p ++ replicate (Z.to_nat DIRSIZ - length p) 32.

Definition ls_line (path : list Z) (st : stat) : M S unit :=
  printf 1 (str "%s %d %d %d" ++ [10])
    [UStr (Some (fmtname path)); UInt (st_type st); UInt (st_ino st); UInt (st_size st)].

(** while(read(fd, &de, sizeof(de)) == sizeof(de)): [dir] is the path with the slash. *)
Fixpoint ls_dir (fuel : nat) (fd : Z) (dir : list Z) : M S unit :=
  match fuel with
  | O => nofuel
  | Datatypes.S fuel' =>
    '(n, de) ← u_read fd 16;
    if negb (n =? 16) then ret tt else
    if rd16 de 0 =? 0 then ls_dir fuel' fd dir else
    let buf := dir ++ cstr (slice 2 (Z.to_nat DIRSIZ) de) in
    o ← ustat buf;
    match o with
    | None => printf 1 (str "ls: cannot stat %s" ++ [10]) [UStr (Some buf)]
    | Some st => ls_line buf st
    end ;;
    ls_dir fuel' fd dir
  end.

Definition ls (fuel : nat) (path : list Z) : M S unit :=
  fd ← u_open path 0;
  if fd <? 0 then printf 2 (str "ls: cannot open %s" ++ [10]) [UStr (Some path)] else
  o ← u_fstat fd;
  match o with
  | None =>
    printf 2 (str "ls: cannot stat %s" ++ [10]) [UStr (Some path)] ;;
    u_close fd ;; ret tt
  | Some st =>
    (if st_type st =? T_FILE then ls_line path st
     else if st_type st =? T_DIR then
       if 512 <? Z.of_nat (length path) + 1 + DIRSIZ + 1
       then printf 1 (str "ls: path too long" ++ [10]) []
       else ls_dir fuel fd (path ++ [47])
     else ret tt) ;;
    u_close fd ;; ret tt
  end.

Definition ls_main (fuel : nat) (args : list (list Z)) : M S unit :=
  match args with
  | [] => ls fuel (str ".") ;; u_exit
  | _ => for_ args (ls fuel) ;; u_exit
  end.

(** ** init.c *)

(** while((wpid=wait()) >= 0 && wpid != pid) printf(1, "zombie!\n"); *)
Fixpoint init_wait (fuel : nat) (pid : Z) : M S unit :=
  match fuel with
  | O => nofuel
  | Datatypes.S fuel' =>
    wpid ← u_wait;
    if (0 <=? wpid) && negb (wpid =? pid)
    then printf 1 (str "zombie!" ++ [10]) [] ;; init_wait fuel' pid
    else ret tt
  end.

(** for(;;): [fuel] bounds the shells started. *)
Fixpoint init_loop (fuel : nat) : M S unit :=
  match fuel with
  | O => nofuel
  | Datatypes.S fuel' =>
    printf 1 (str "init: starting sh" ++ [10]) [] ;;
    pid ← u_fork;
    if pid <? 0 then printf 1 (str "init: fork failed" ++ [10]) [] ;; u_exit else
    if pid =? 0 then
      u_exec (str "sh") [str "sh"] ;;
      printf 1 (str "init: exec sh failed" ++ [10]) [] ;;
      u_exit
    else init_wait fuel pid ;; init_loop fuel'
  end.

Definition init_main (fuel : nat) : M S unit :=
  r ← u_open (str "console") 2;
  (if r <? 0 then u_mknod (str "console") 1 1 ;; u_open (str "console") 2 ;; ret tt else ret tt) ;;
  u_dup 0 ;;
  u_dup 0 ;;
  init_loop fuel.
End progs.

(** ** cat copies its input *)

Section correct.
Context {S : Type} `{Streams S}.

Lemma wp_cat fd l : forall fuel o s,
  inp fd l s -> out 1 o s -> (length l < fuel)%nat ->
  wp (cat fuel fd) (fun _ s' => inp fd [] s' /\ out 1 (o ++ l) s') s.
Proof.
  induction l as [l IH] using (induction_ltof1 _ (@length Z)). unfold ltof in IH.
  intros [|fuel] o s Hi Ho Hf; [lia|]. cbn [cat]. wp_steps.
  eapply wp_mono; [apply (read_inp fd 512 l); [lia|exact Hi]|].
  intros r s1 (k & -> & Hk & Hpos & Hi1 & Ho1). cbn beta iota. destruct l as [|b l].
  - rewrite take_nil, drop_nil in *. simpl. wp_steps. rewrite app_nil_r. auto.
  - specialize (Hpos ltac:(done)). destruct k as [|k]; [lia|].
    apply wp_if_true; [simpl; lia|]. wp_steps.
    eapply wp_mono; [apply (write_out 1 _ o); [done|now apply Ho1]|].
    intros w s2 (-> & Ho2 & _ & Hi2). apply wp_if_false; [rewrite Z.eqb_refl; done|].
    eapply wp_mono; [apply (IH (drop (Datatypes.S k) (b :: l))); [simpl; rewrite length_drop; lia|now apply Hi2|exact Ho2|]|].
    + simpl in *. rewrite length_drop. lia.
    + intros [] s3 [H1 H2]. split; [done|]. rewrite <- app_assoc, take_drop in H2. done.
Qed.

(** cat writes to its standard output exactly the bytes it reads, in order, however the input
    is cut into reads, and terminates once the input ends. *)
Theorem cat_copies fd l fuel o s :
  inp fd l s -> out 1 o s -> (length l < fuel)%nat ->
  wp (cat fuel fd) (fun _ s' => inp fd [] s' /\ out 1 (o ++ l) s') s.
Proof. exact (wp_cat fd l fuel o s). Qed.

(** ** wc counts lines, words and characters *)

Definition is_space (b : Z) : bool := existsb (Z.eqb b) wc_space.

(** A word starts at [i]: a non-space after a space or at the beginning. *)
Definition word_start (l : list Z) (i : nat) : bool :=
  match l !! i with
  | Some b => negb (is_space b) &&
      match i with O => true | Datatypes.S j => match l !! j with Some a => is_space a | None => true end end
  | None => false
  end.

Definition count_words (l : list Z) : Z := Z.of_nat (length (List.filter (word_start l) (seq 0 (length l)))).
Definition count_lines (l : list Z) : Z := Z.of_nat (length (List.filter (Z.eqb 10) l)).

(** Inside a word after [l]. *)
Definition in_word (l : list Z) : bool := match list.last l with Some b => negb (is_space b) | None => false end.

Lemma strchr_space b : match strchr wc_space b with Some _ => true | None => false end = is_space b.
Proof.
  unfold is_space, wc_space. cbn [strchr existsb]. rewrite !(Z.eqb_sym b _).
  destruct (32 =? b), (13 =? b), (9 =? b), (10 =? b), (11 =? b); reflexivity.
Qed.

Lemma count_lines_snoc l b : count_lines (l ++ [b]) = count_lines l + (if b =? 10 then 1 else 0).
Proof.
  unfold count_lines. rewrite List.filter_app, length_app. simpl. rewrite Z.eqb_sym. case_match; simpl; lia.
Qed.

Lemma count_words_snoc l b :
  count_words (l ++ [b]) = count_words l + (if negb (is_space b) && negb (in_word l) then 1 else 0).
Proof.
  unfold count_words. rewrite length_app, seq_app, List.filter_app, length_app. simpl seq.
  rewrite (List.filter_ext_in _ (word_start l)).
  - assert (word_start (l ++ [b]) (length l) = negb (is_space b) && negb (in_word l)) as E.
    { unfold word_start, in_word. rewrite lookup_app_r, Nat.sub_diag by lia. simpl. f_equal.
      destruct l as [|a l _] using rev_ind; [done|]. rewrite length_app, Nat.add_comm. simpl.
      rewrite last_snoc, lookup_app_l by (rewrite length_app; simpl; lia).
      rewrite lookup_app_r, Nat.sub_diag by lia. simpl. now rewrite negb_involutive. }
    simpl. rewrite E. case_match; simpl; lia.
  - intros i Hi%List.in_seq. unfold word_start. rewrite lookup_app_l by lia. destruct i; [done|].
    now rewrite (lookup_app_l _ _ i) by lia.
Qed.

Lemma s32_add x y : s32 (s32 x + y) = s32 (x + y).
Proof.
  unfold s32. assert (forall a, (if a mod 4294967296 <? 2147483648 then a mod 4294967296
    else a mod 4294967296 - 4294967296) = (a + 2147483648) mod 4294967296 - 2147483648) as E.
  { intros a. destruct (Z.ltb_spec (a mod 4294967296) 2147483648); div_lia. }
  rewrite !E. replace (_ - 2147483648 + y + 2147483648) with ((x + 2147483648) mod 4294967296 + y) by lia.
  rewrite Zplus_mod_idemp_l. f_equal. f_equal. lia.
Qed.

(** The counters after [l]. *)
Definition wc_after (l : list Z) : wcount :=
  mk_wcount (s32 (count_lines l)) (s32 (count_words l)) (s32 (Z.of_nat (length l))) (in_word l).

Lemma wc_fold l : fold_left wc_byte l (mk_wcount 0 0 0 false) = wc_after l.
Proof.
  induction l as [|b l IH] using rev_ind; [done|].
  rewrite fold_left_app, IH. unfold wc_after. cbn [fold_left]. unfold wc_byte at 1. cbn [wc_l wc_w wc_c wc_inword].
  rewrite count_lines_snoc, count_words_snoc, length_app, Nat2Z.inj_add, !s32_add. simpl (Z.of_nat (length [b])).
  assert (in_word (l ++ [b]) = negb (is_space b)) as -> by (unfold in_word; now rewrite last_snoc).
  pose proof (strchr_space b) as E.
  assert ((if b =? 10 then s32 (count_lines l + 1) else s32 (count_lines l)) =
          s32 (count_lines l + (if b =? 10 then 1 else 0))) as -> by (destruct (b =? 10); [done|now rewrite Z.add_0_r]).
  change (Z.of_nat 1) with 1. destruct (strchr wc_space b), (is_space b); try discriminate; simpl; rewrite ?Z.add_0_r; [done|].
  destruct (in_word l); simpl; now rewrite ?Z.add_0_r.
Qed.

Lemma wp_wc_loop fd l : forall fuel x o s,
  inp fd l s -> out 1 o s -> (length l < fuel)%nat ->
  wp (wc_loop fuel fd x) (fun r s' => r = (0, fold_left wc_byte l x) /\ inp fd [] s' /\ out 1 o s') s.
Proof.
  induction l as [l IH] using (induction_ltof1 _ (@length Z)). unfold ltof in IH.
  intros [|fuel] x o s Hi Ho Hf; [lia|]. cbn [wc_loop]. wp_steps.
  eapply wp_mono; [apply (read_inp fd 512 l); [lia|exact Hi]|].
  intros r s1 (k & -> & Hk & Hpos & Hi1 & Ho1). cbn beta iota. destruct l as [|b l].
  - rewrite take_nil, drop_nil in *. simpl. wp_steps. auto.
  - specialize (Hpos ltac:(done)). destruct k as [|k]; [lia|].
    apply wp_if_true; [simpl; lia|].
    eapply wp_mono; [apply (IH (drop (Datatypes.S k) (b :: l))); [simpl; rewrite length_drop; lia|exact Hi1|apply Ho1, Ho|]|].
    + simpl in *. rewrite length_drop. lia.
    + intros r s3 (-> & H1 & H2). split; [|done].
      now rewrite <- fold_left_app, take_drop.
Qed.

(** wc prints the number of newlines, of words (maximal runs of bytes that are not blank) and of
    bytes of its input, however the input is cut into reads. The counters are C ints. *)
Theorem wc_counts fd l name fuel o s text :
  inp fd l s -> out 1 o s -> (length l < fuel)%nat ->
  render (str "%d %d %d %s" ++ [10]) false
    [UInt (s32 (count_lines l)); UInt (s32 (count_words l)); UInt (s32 (Z.of_nat (length l))); UStr (Some name)] = Some text ->
  wp (wc fuel fd name) (fun _ s' => inp fd [] s' /\ out 1 (o ++ text) s') s.
Proof.
  intros Hi Ho Hf Hr. unfold wc. wp_steps.
  eapply wp_mono; [apply (wp_wc_loop fd l fuel _ o); done|]. intros r s1 (-> & Hi1 & Ho1). rewrite wc_fold.
  apply wp_if_false; [done|]. eapply (wp_printf 1 _ _ text o); [exact Hr|exact Ho1|].
  intros s2 H2 F2. split; [|done]. now apply F2.
Qed.
End correct.

(** ** Witnesses *)

(** "hello world\nby" on descriptor 0, read 3 bytes at a time. *)
Definition ex_input : list Z := str "hello world" ++ [10] ++ str "by".
Definition ex_streams : sstate true := mk_sstate {[ 0 := ex_input ]} ∅ (replicate 5 2%nat) [].

Lemma cat_copies_witness :
  wp (cat 15 0) (fun _ s' => inp 0 [] s' /\ out 1 ex_input s') ex_streams.
Proof. exact (cat_copies 0 ex_input 15 [] ex_streams eq_refl eq_refl ltac:(vm_compute; lia)). Defined.

Lemma wc_counts_witness :
  wp (wc 15 0 (str "f")) (fun _ s' => inp 0 [] s' /\ out 1 (str "1 3 14 f" ++ [10]) s') ex_streams.
Proof. exact (wc_counts 0 ex_input (str "f") 15 [] ex_streams _ eq_refl eq_refl ltac:(vm_compute; lia) eq_refl). Defined.
