(* ===== verification/Grep.v ===== *)
(** grep.c: the regular expression matcher, proved against the language of the pattern, and the
    loop that cuts its input into lines. *)

From stdpp Require Import base list gmap strings numbers.
From Stdlib Require Import ZArith Lia.
From S2P Require Import Prelude Bytes CString Itoa Kstate Inode User Uprogs.
Open Scope Z_scope.

(** ** The matcher

    A C string is the list of its bytes; the empty list is a pointer to the final NUL. *)

(** do { if(matchhere(re, text)) return 1; } while( *text!='\0' && ( *text++==c || c=='.')); *)
Definition matchstar (matchhere_re : list Z -> bool) (c : Z) : list Z -> bool :=
  fix loop (text : list Z) : bool :=
    matchhere_re text ||
    match text with
    | [] => false
    | t :: text' => ((t =? c) || (c =? 46)) && loop text'
    end.

Fixpoint matchhere (re text : list Z) {struct re} : bool :=
  match re with
  | [] => true
  | c :: re1 =>
    let tail :=
      if (c =? 36) && bool_decide (re1 = []) then bool_decide (text = [])
      else match text with
           | t :: text' => ((c =? 46) || (c =? t)) && matchhere re1 text'
           | [] => false
           end in
    match re1 with
    | c1 :: re2 => if c1 =? 42 then matchstar (matchhere re2) c text else tail
    | [] => tail
    end
  end.

(** do { if(matchhere(re, text)) return 1; } while( *text++ != '\0'); *)
Fixpoint match_any (re text : list Z) : bool :=
  matchhere re text || match text with [] => false | _ :: text' => match_any re text' end.

Definition match_ (re text : list Z) : bool :=
  match re with
  | c :: re' => if c =? 94 then matchhere re' text else match_any re text
  | [] => match_any re text
  end.

(** ** grep *)

(** The loop over the lines of the string at p: [n] bounds the number of lines. [started] says that
    p has moved from the start of buf. The result is what follows p in the buffer. *)
Section grep.
Context {S : Type} `{!Sys S}.

(** The line before the first newline of the C string [p], and what follows the newline in the
    buffer. strchr does not look beyond a NUL. *)
Fixpoint next_line (p : list Z) : option (list Z * list Z) :=
  match p with
  | [] => None
  | c :: p' =>
    if c =? 0 then None else
    if c =? 10 then Some ([], p') else
    '(l, r) ← next_line p'; Some (c :: l, r)
  end.

Fixpoint grep_lines (n : nat) (pattern p : list Z) (moved : bool) : M S (bool * list Z) :=
  match next_line p with
  | None => ret (moved, p)
  | Some (line, rest) =>
    match n with
    | O => nofuel
    | Datatypes.S n' =>
      (if match_ pattern line then u_write 1 (line ++ [10]) ;; ret tt else ret tt) ;;
      grep_lines n' pattern rest true
    end
  end.

(** The bytes buf[0], ..., buf[m - 1] are [buf]. *)
Fixpoint grep_loop (fuel : nat) (pattern : list Z) (fd : Z) (buf : list Z) : M S unit :=
  match fuel with
  | O => nofuel
  | Datatypes.S fuel' =>
    '(n, bs) ← u_read fd (1024 - Z.of_nat (length buf) - 1);
    if n <=? 0 then ret tt else
    '(moved, rest) ← grep_lines (length (buf ++ bs)) pattern (buf ++ bs) false;
    grep_loop fuel' pattern fd (if moved : bool then rest else [])
  end.

Definition grep (fuel : nat) (pattern : list Z) (fd : Z) : M S unit := grep_loop fuel pattern fd [].

Definition grep_main (fuel : nat) (args : list (list Z)) : M S unit :=
  match args with
  | [] => printf 2 (str "usage: grep pattern [file ...]" ++ [10]) [] ;; u_exit
  | [pattern] => grep fuel pattern 0 ;; u_exit
  | pattern :: files => each_file "grep" (fun fd _ => grep fuel pattern fd) files ;; u_exit
  end.
End grep.

(** ** The language of a pattern *)

Inductive item := Lit (c : Z) | Dot | StarLit (c : Z) | StarDot.

(** The items of a pattern without its leading ^, and whether it ends with $. *)
Fixpoint parse_re (re : list Z) : list item * bool :=
  match re with
  | [] => ([], false)
  | c :: re1 =>
    let one :=
      if (c =? 36) && bool_decide (re1 = []) then ([], true)
      else let '(l, e) := parse_re re1 in ((if c =? 46 then Dot else Lit c) :: l, e) in
    match re1 with
    | c1 :: re2 =>
      if c1 =? 42 then let '(l, e) := parse_re re2 in ((if c =? 46 then StarDot else StarLit c) :: l, e)
      else one
    | [] => one
    end
  end.

(** The strings an item stands for. *)
Definition item_lang (i : item) (w : list Z) : Prop :=
  match i with
  | Lit c => w = [c]
  | Dot => exists c, w = [c]
  | StarLit c => exists n, w = replicate n c
  | StarDot => True
  end.

Fixpoint lang (l : list item) (w : list Z) : Prop :=
  match l with
  | [] => w = []
  | i :: l' => exists w1 w2, w = w1 ++ w2 /\ item_lang i w1 /\ lang l' w2
  end.

(** The pattern matches a prefix of the text, all of it if [e]. *)
Definition prefix_match (le : list item * bool) (text : list Z) : Prop :=
  exists w rest, text = w ++ rest /\ lang le.1 w /\ (le.2 = true -> rest = []).

Lemma prefix_match_cons i l e text :
  prefix_match (i :: l, e) text <->
  exists w rest, text = w ++ rest /\ item_lang i w /\ prefix_match (l, e) rest.
Proof.
  split.
  - intros (w & rest & -> & (w1 & w2 & -> & H1 & H2) & He). exists w1, (w2 ++ rest).
    split; [now rewrite app_assoc|]. split; [done|]. now exists w2, rest.
  - intros (w & rest & -> & H1 & (w2 & r2 & -> & H2 & He)). exists (w ++ w2), r2.
    split; [now rewrite app_assoc|]. split; [|done]. now exists w, w2.
Qed.

(** A starred item takes any number of characters it admits. *)
Lemma matchstar_spec mh c P text :
  (forall t, mh t = true <-> P t) ->
  matchstar mh c text = true <->
  exists w rest, text = w ++ rest /\ (if c =? 46 then True else exists n, w = replicate n c) /\ P rest.
Proof.
  intros Hmh. induction text as [|t text IH]; cbn [matchstar].
  - rewrite orb_false_r, Hmh. split.
    + intros H. exists [], []. split; [done|]. split; [|done]. destruct (c =? 46); [done|now exists 0%nat].
    + intros (w & rest & E & _ & H). symmetry in E. apply app_nil in E as [-> ->]. done.
  - rewrite orb_true_iff, andb_true_iff, orb_true_iff, Hmh, Z.eqb_eq. fold (matchstar mh c).
    rewrite IH. split.
    + intros [H|[Ht (w & rest & -> & Hw & H)]].
      * exists [], (t :: text). split; [done|]. split; [|done]. destruct (c =? 46); [done|now exists 0%nat].
      * exists (t :: w), rest. split; [done|]. split; [|done]. destruct (c =? 46); [done|].
        destruct Hw as [n ->], Ht as [->|]; [now exists (S n)|done].
    + intros ([|t' w] & rest & E & Hw & H); [left; now rewrite E|right]. simplify_eq/=. split.
      * destruct (c =? 46); [now right|left]. destruct Hw as [[|n] E]; simplify_eq/=. done.
      * exists w, rest. split; [done|]. split; [|done]. destruct (c =? 46); [done|].
        destruct Hw as [[|n] E]; simplify_eq/=. now exists n.
Qed.

Lemma matchhere_spec re : forall text, matchhere re text = true <-> prefix_match (parse_re re) text.
Proof.
  induction re as [re IH] using (induction_ltof1 _ (@length Z)). unfold ltof in IH. intros text.
  destruct re as [|c re1].
  { simpl. split; [|done]. intros _. exists [], text. done. }
  assert (forall text, (if (c =? 36) && bool_decide (re1 = []) then bool_decide (text = [])
      else match text with
           | t :: text' => ((c =? 46) || (c =? t)) && matchhere re1 text'
           | [] => false
           end) = true <->
    prefix_match (if (c =? 36) && bool_decide (re1 = []) then ([], true)
      else let '(l, e) := parse_re re1 in ((if c =? 46 then Dot else Lit c) :: l, e)) text) as Hone.
  { clear text. intros text. destruct (_ && _).
    - rewrite bool_decide_eq_true. split.
      + intros ->. now exists [], [].
      + intros (w & rest & -> & E & H). simpl in *. subst w. now apply H.
    - destruct (parse_re re1) as [l e] eqn:E. rewrite prefix_match_cons.
      assert (forall t, matchhere re1 t = true <-> prefix_match (l, e) t) as IH1
        by (intros t; rewrite <- E; apply IH; simpl; lia).
      destruct text as [|t text].
      + split; [done|]. intros (w & rest & E' & Hw & _). symmetry in E'. apply app_nil in E' as [-> ->].
        destruct (c =? 46); [now destruct Hw|done].
      + rewrite andb_true_iff, orb_true_iff, IH1. split.
        * intros [Hc H]. exists [t], text. split; [done|]. split; [|done].
          destruct (Z.eqb_spec c 46); [now exists t|]. destruct Hc as [|<-%Z.eqb_eq]; done.
        * intros (w & rest & E' & Hw & H). destruct (Z.eqb_spec c 46).
          -- destruct Hw as [c' ->]. simplify_eq/=. auto.
          -- simpl in Hw. subst w. simplify_eq/=. rewrite Z.eqb_refl. auto. }
  cbn [matchhere parse_re]. destruct re1 as [|c1 re2]; [exact (Hone text)|].
  destruct (c1 =? 42); [|exact (Hone text)].
  rewrite (matchstar_spec _ c (prefix_match (parse_re re2))) by (apply IH; simpl; lia).
  destruct (parse_re re2) as [l e]. rewrite prefix_match_cons. now destruct (c =? 46).
Qed.

(** The text contains a match: anywhere, or at its start if the pattern begins with ^. *)
Definition matches (re text : list Z) : Prop :=
  match re with
  | 94 :: re' => prefix_match (parse_re re') text
  | _ => (exists pre suf, text = pre ++ suf /\ prefix_match (parse_re re) suf)
  end.

Lemma match_any_spec re text :
  match_any re text = true <-> exists pre suf, text = pre ++ suf /\ prefix_match (parse_re re) suf.
Proof.
  induction text as [|t text IH]; cbn [match_any]; rewrite orb_true_iff, matchhere_spec.
  - split.
    + intros [H|H]; [|done]. now exists [], [].
    + intros (pre & suf & E & H). symmetry in E. apply app_nil in E as [-> ->]. now left.
  - rewrite IH. split.
    + intros [H|(pre & suf & -> & H)]; [now exists [], (t :: text)|now exists (t :: pre), suf].
    + intros ([|t' pre] & suf & E & H); simplify_eq/=; [now left|right; eauto].
Qed.

(** C21: the matcher decides the language of the pattern. match(re, text) returns 1 exactly when some
    part of the text, its start if the pattern begins with ^, and up to its end if it ends with $,
    is the concatenation of strings of the pattern's items, where [c] stands for itself, [.] for
    any character, and a starred item for any number of them. It terminates on every input. *)
Theorem match_correct re text : match_ re text = true <-> matches re text.
Proof.
  unfold match_, matches. destruct re as [|c re]; [apply match_any_spec|].
  destruct (Z.eqb_spec c 94) as [->|Hc]; [apply matchhere_spec|].
  destruct c as [|c|c]; try apply match_any_spec.
  do 7 (destruct c as [c|c|]; try apply match_any_spec). done.
Qed.

(** ** grep prints the matching lines *)

Definition unlines (ls : list (list Z)) : list Z := concat ((fun x => x ++ [10]) <$> ls).

Lemma unlines_cons x ls : unlines (x :: ls) = x ++ 10 :: unlines ls.
Proof. unfold unlines. simpl. now rewrite <- app_assoc. Qed.

Lemma unlines_length ls : (length ls <= length (unlines ls))%nat.
Proof. induction ls as [|x ls IH]; [done|]. rewrite unlines_cons, length_app. simpl. lia. Qed.

Lemma next_line_line x p : 0 ∉ x -> 10 ∉ x -> next_line (x ++ 10 :: p) = Some (x, p).
Proof.
  induction x as [|c x IH]; [done|]. intros H0 H1. cbn [next_line app].
  apply not_elem_of_cons in H0 as [Hc0 H0], H1 as [Hc1 H1].
  destruct (Z.eqb_spec c 0); [congruence|]. destruct (Z.eqb_spec c 10); [congruence|]. now rewrite IH.
Qed.

Lemma next_line_none p : 10 ∉ p -> next_line p = None.
Proof.
  induction p as [|c p IH]; [done|]. intros [Hc H]%not_elem_of_cons. cbn [next_line].
  destruct (c =? 0); [done|]. destruct (Z.eqb_spec c 10); [congruence|]. now rewrite IH.
Qed.

(** The part of the text that fits the buffer: whole lines and the start of the next. *)
Lemma take_lines n ls r :
  Forall (fun x => 10 ∉ x) ls -> 10 ∉ r ->
  exists k r1, take n (unlines ls ++ r) = unlines (take k ls) ++ r1 /\ (10 ∉ r1) /\
    r1 ++ drop n (unlines ls ++ r) = unlines (drop k ls) ++ r /\
    match ls with x :: _ => ((length x < n)%nat -> k <> 0%nat) | [] => (k = 0%nat) end.
Proof.
  intros Hls Hr. revert n. induction Hls as [|x ls Hx _ IH]; intros n.
  { exists 0%nat, (take n r). simpl. split; [done|]. split; [|now rewrite take_drop].
    intros H. now apply Hr, (elem_of_take_in _ n). }
  rewrite unlines_cons, <- !app_assoc.
  destruct (decide (length x < n)%nat) as [Hn|Hn].
  - destruct (IH (n - length x - 1)%nat) as (k & r1 & H1 & H2 & H3 & _). exists (S k), r1.
    rewrite take_app_ge, drop_app_ge by lia. destruct (n - length x)%nat as [|m] eqn:E; [lia|].
    replace (S m - 1)%nat with m in * by lia. cbn [app take drop]. rewrite H1. split; [|done].
    now rewrite unlines_cons, <- !app_assoc.
  - exists 0%nat, (take n x). rewrite take_app_le, drop_app_le by lia. cbn [take drop].
    split; [done|]. split; [intros H; now apply Hx, (elem_of_take_in _ n)|]. split; [|lia].
    rewrite app_assoc, take_drop. now rewrite unlines_cons, <- !app_assoc.
Qed.

(** A line the buffer can hold with its newline. *)
Definition line_ok (x : list Z) : Prop := (0 ∉ x) /\ (10 ∉ x) /\ (length x < 1023)%nat.

Lemma unlines_no_newline ls r : 10 ∉ unlines ls ++ r -> ls = [].
Proof. destruct ls as [|x ls]; [done|]. rewrite unlines_cons, !elem_of_app. set_solver. Qed.

(** A read that fills the buffer up. *)
Lemma buffer_fill ls r buf l :
  buf ++ l = unlines ls ++ r -> (length buf < 1023)%nat -> Forall line_ok ls -> 10 ∉ r ->
  let n := (1023 - length buf)%nat in
  exists k r1, buf ++ take n l = unlines (take k ls) ++ r1 /\ (10 ∉ r1) /\
    r1 ++ drop n l = unlines (drop k ls) ++ r /\ (length (buf ++ take n l) <= 1023)%nat /\
    (take k ls = [] -> ls = []).
Proof.
  intros E Hbuf Hls Hr n.
  destruct (take_lines 1023 ls r) as (k & r1 & H1 & H2 & H3 & H4); [|done|].
  { eapply list.Forall_impl; [exact Hls|]. intros x (_ & ? & _). done. }
  rewrite <- E, take_app_ge in H1 by lia. rewrite <- E, drop_app_ge in H3 by lia. fold n in H1, H3.
  exists k, r1. split; [done|]. split; [done|]. split; [done|].
  split; [rewrite length_app, length_take; lia|]. destruct ls as [|x ls]; [done|].
  apply list.Forall_cons in Hls as [(_ & _ & Hx) _]. destruct k; [now destruct (H4 Hx)|done].
Qed.

Section grep_correct.
Context {S : Type} {HS : Sys S} {HT : Streams S} {HF : FullReads S}.
Context (pattern : list Z).

Definition matching (ls : list (list Z)) : list Z := unlines (List.filter (match_ pattern) ls).

Lemma matching_split k ls : matching (take k ls) ++ matching (drop k ls) = matching ls.
Proof.
  rewrite <- (take_drop k ls) at 3. unfold matching, unlines. now rewrite List.filter_app, fmap_app, concat_app.
Qed.

Lemma wp_grep_lines fd l ls r : forall n moved o s,
  Forall (fun x => (0 ∉ x) /\ 10 ∉ x) ls -> 10 ∉ r -> inp fd l s -> out 1 o s -> (length ls <= n)%nat ->
  wp (grep_lines n pattern (unlines ls ++ r) moved)
    (fun res s' => res = (moved || negb (bool_decide (ls = [])), r) /\ inp fd l s' /\ out 1 (o ++ matching ls) s') s.
Proof.
  induction ls as [|x ls IH]; intros n moved o s Hls Hr Hi Ho Hn.
  { change (unlines [] ++ r) with r. destruct n; cbn [grep_lines]; rewrite next_line_none by done; wp_steps;
      rewrite orb_false_r, app_nil_r; done. }
  apply list.Forall_cons in Hls as [[H0 H1] Hls].
  rewrite unlines_cons, <- !app_assoc. cbn [app].
  destruct n as [|n]; [simpl in Hn; lia|]. cbn [grep_lines]. rewrite next_line_line by done. wp_steps.
  assert (forall o1 s1, inp fd l s1 -> out 1 o1 s1 -> o1 ++ matching ls = o ++ matching (x :: ls) ->
    wp (grep_lines n pattern (unlines ls ++ r) true) (fun res s' =>
      res = (moved || negb (bool_decide (x :: ls = [])), r) /\ inp fd l s' /\
      out 1 (o ++ matching (x :: ls)) s') s1) as Hrest.
  { intros o1 s1 Hi1 Ho1 E. eapply wp_mono; [apply (IH n true o1 s1); auto; simpl in Hn; lia|].
    intros res s2 (-> & H2 & H3). rewrite E in H3. split; [|done]. f_equal. simpl. now rewrite orb_true_r. }
  unfold matching in *. cbn [List.filter] in *. destruct (match_ pattern x).
  - wp_steps. eapply wp_mono; [apply (write_out 1 _ o); [now destruct x|done]|].
    intros w s1 (_ & Ho1 & _ & Hi1). wp_steps. apply (Hrest _ s1 (Hi1 _ _ Hi) Ho1).
    now rewrite <- app_assoc.
  - wp_steps. now apply (Hrest o s).
Qed.

Lemma wp_grep_loop fd : forall fuel ls r buf l o s,
  buf ++ l = unlines ls ++ r -> (length buf < 1023)%nat -> 10 ∉ buf ->
  Forall line_ok ls -> 10 ∉ r -> inp fd l s -> out 1 o s -> (length l < fuel)%nat ->
  wp (grep_loop fuel pattern fd buf) (fun _ s' => inp fd [] s' /\ out 1 (o ++ matching ls) s') s.
Proof.
  induction fuel as [|fuel IH]; intros ls r buf l o s E Hbuf Hnl Hls Hr Hi Ho Hf; [lia|].
  cbn [grep_loop]. wp_steps.
  replace (1024 - Z.of_nat (length buf) - 1) with (Z.of_nat (1023 - length buf)) by lia.
  eapply wp_mono; [apply (read_full fd _ l); [lia|exact Hi]|]. rewrite Nat2Z.id.
  intros rr s1 (-> & Hi1 & Ho1). cbn beta iota. destruct l as [|b l].
  { rewrite take_nil, drop_nil in *. apply wp_if_true; [done|]. wp_steps. split; [done|].
    rewrite app_nil_r in E. rewrite E in Hnl. rewrite (unlines_no_newline _ _ Hnl). unfold matching. simpl.
    rewrite app_nil_r. now apply Ho1. }
  destruct (buffer_fill ls r buf (b :: l) E Hbuf Hls Hr) as (k & r1 & H1 & H2 & H3 & H4 & H5).
  set (n := (1023 - length buf)%nat) in *.
  assert (length (take n (b :: l)) <> 0)%nat by (rewrite length_take; simpl; lia).
  apply wp_if_false; [lia|]. wp_steps. rewrite H1 in H4 |- *. rewrite length_app in H4.
  assert (length (drop n (b :: l)) < fuel)%nat as Hfuel by (rewrite length_drop; simpl in *; lia).
  eapply wp_mono; [apply (wp_grep_lines fd (drop n (b :: l)) (take k ls) r1 _ false o s1); auto|].
  { apply Forall_take. eapply list.Forall_impl; [exact Hls|]. intros x (? & ? & _). done. }
  { pose proof (unlines_length (take k ls)). rewrite length_app. lia. }
  intros res s2 (-> & Hi2 & Ho2). cbn beta iota. cbn [orb]. destruct (decide (take k ls = [])) as [E0|E0].
  - rewrite bool_decide_eq_true_2 by done. specialize (H5 E0). subst ls. rewrite take_nil in Ho2. rewrite drop_nil in H3.
    apply (IH [] (drop n (b :: l)) [] (drop n (b :: l)) _ s2); auto; [simpl; lia|set_solver| |].
    + change (unlines [] ++ r) with r in H3. rewrite <- H3 in Hr. set_solver.
    + unfold matching in Ho2. simpl in Ho2. now rewrite app_nil_r in Ho2.
  - rewrite bool_decide_eq_false_2 by done. cbn [negb].
    eapply wp_mono; [apply (IH (drop k ls) r r1 _ (o ++ matching (take k ls)) s2 H3); auto|].
    + pose proof (unlines_length (take k ls)). destruct (take k ls); [done|]. simpl in *. lia.
    + now apply Forall_drop.
    + intros [] s3 [Hi3 Ho3]. split; [done|]. now rewrite <- app_assoc, matching_split in Ho3.
Qed.
(** C35: grep on a file prints exactly the lines of its input that match the pattern, in order, and
    terminates. The lines must be free of NULs and fit the buffer (1022 characters); what follows
    the last newline is not a line. Every read of a file is complete, which the short reads of a
    pipe are not. *)
Theorem grep_correct fd ls r o s fuel :
  let l := unlines ls ++ r in
  Forall line_ok ls -> 10 ∉ r -> inp fd l s -> out 1 o s -> (length l < fuel)%nat ->
  wp (grep fuel pattern fd) (fun _ s' => inp fd [] s' /\ out 1 (o ++ matching ls) s') s.
Proof.
  intros l Hls Hr Hi Ho Hf. apply (wp_grep_loop fd fuel ls r [] l o s); auto; [simpl; lia|set_solver].
Qed.
End grep_correct.

(** ** Witnesses *)

Definition ex_lines : list (list Z) := [str "hello world"; str "good by"; str "worldly"].
Definition ex_grep_state : sstate false := mk_sstate {[ 0 := unlines ex_lines ++ str "tail" ]} ∅ [] [].

Lemma grep_correct_witness :
  wp (grep 50 (str "wor*l") 0) (fun _ s' => inp 0 [] s' /\
    out 1 (str "hello world" ++ [10] ++ str "worldly" ++ [10]) s') ex_grep_state.
Proof.
  apply (grep_correct (str "wor*l") 0 ex_lines (str "tail") [] ex_grep_state 50).
  - repeat constructor; simpl; try set_solver; lia.
  - set_solver.
  - reflexivity.
  - reflexivity.
  - vm_compute. lia.
Defined.

(** When a line arrives in two reads, as from a pipe, grep drops its first part: the test
    if(p == buf) m = 0 discards a buffer without a newline, even if the line is not over. *)
Definition ex_pipe_state : sstate true := mk_sstate {[ 0 := str "hello" ++ [10] ]} ∅ [2%nat; 5%nat] [].

(** Grep loses a matching line that arrives in two reads: on the input "hello\n" delivered as
    "hel" and "lo\n", grep he prints nothing, although the line matches. *)
Theorem grep_short_read_loses_line :
  match_ (str "he") (str "hello") = true /\
  wp (grep 10 (str "he") 0) (fun _ s' => inp 0 [] s' /\ out 1 [] s') ex_pipe_state.
Proof. split; reflexivity || (now vm_compute). Qed.

