(* ===== verification/Usertests.v ===== *)
(** The test programs: usertests.c, forktest.c and stressfs.c, as programs over the system calls of user.h.

    The tests that use the global array buf take its contents and return what they leave in it. [UserEnv] is
    what the tests use besides the system calls of [Sys]: the process id, loads and stores in the process's
    own memory, malloc and free, system calls with raw addresses as arguments, and two port instructions.
    The fuel of a loop bounds its turns; [spin] is the loop for(;;); of a child that waits to be killed. *)

From stdpp Require Import base list gmap strings numbers.
From Stdlib Require Import ZArith Lia.
From S2P Require Import Prelude Bytes CString Itoa Kstate Mmu Inode User.
Open Scope Z_scope.

Class UserEnv (S : Type) := {
  u_getpid : M S Z;
  u_load8 : Z -> M S Z;
  u_store8 : Z -> Z -> M S unit;
  u_load32 : Z -> M S Z;
  u_store32 : Z -> Z -> M S unit;
  u_malloc : Z -> M S Z;
  u_free : Z -> M S unit;
  u_sleep_arg : Z -> M S unit;     (* int $T_SYSCALL with SYS_sleep in %eax and this address in %esp *)
  u_link_to : list Z -> Z -> M S Z;
  u_read_to : Z -> Z -> Z -> M S Z;
  u_outb : Z -> Z -> M S unit;
  u_inb : Z -> M S Z
}.

Section tests.
Context {S : Type} `{!Sys S} `{!UserEnv S}.

Definition say (fd : Z) (msg : string) (ap : list uarg) : M S unit := printf fd (str msg ++ [10]) ap.

(** printf(fd, msg, ...); exit(); *)
Definition fail {A} (fd : Z) (msg : string) (ap : list uarg) : M S A := say fd msg ap ;; u_exit.

Definition spin {A} : M S A := nofuel.

Definition CREATE_RDWR : Z := Z.lor O_CREATE O_RDWR.

(** ** The tests of usertests.c, in the order of the file *)

Definition iputtest : M S unit :=
  say 1 "iput test" [] ;;
  r ← u_mkdir (str "iputdir");
  when (r <? 0) (fail 1 "mkdir failed" []) ;;
  r ← u_chdir (str "iputdir");
  when (r <? 0) (fail 1 "chdir iputdir failed" []) ;;
  r ← u_unlink (str "../iputdir");
  when (r <? 0) (fail 1 "unlink ../iputdir failed" []) ;;
  r ← u_chdir (str "/");
  when (r <? 0) (fail 1 "chdir / failed" []) ;;
  say 1 "iput test ok" [].

Definition exitiputtest : M S unit :=
  say 1 "exitiput test" [] ;;
  pid ← u_fork;
  when (pid <? 0) (fail 1 "fork failed" []) ;;
  when (pid =? 0)
    (r ← u_mkdir (str "iputdir");
     when (r <? 0) (fail 1 "mkdir failed" []) ;;
     r ← u_chdir (str "iputdir");
     when (r <? 0) (fail 1 "child chdir failed" []) ;;
     r ← u_unlink (str "../iputdir");
     when (r <? 0) (fail 1 "unlink ../iputdir failed" []) ;;
     u_exit) ;;
  u_wait ;;
  say 1 "exitiput test ok" [].

Definition openiputtest : M S unit :=
  say 1 "openiput test" [] ;;
  r ← u_mkdir (str "oidir");
  when (r <? 0) (fail 1 "mkdir oidir failed" []) ;;
  pid ← u_fork;
  when (pid <? 0) (fail 1 "fork failed" []) ;;
  when (pid =? 0)
    (fd ← u_open (str "oidir") O_RDWR;
     when (0 <=? fd) (fail 1 "open directory for write succeeded" []) ;;
     u_exit) ;;
  u_sleep 1 ;;
  r ← u_unlink (str "oidir");
  when (negb (r =? 0)) (fail 1 "unlink failed" []) ;;
  u_wait ;;
  say 1 "openiput test ok" [].

Definition opentest : M S unit :=
  say 1 "open test" [] ;;
  fd ← u_open (str "echo") 0;
  when (fd <? 0) (fail 1 "open echo failed!" []) ;;
  u_close fd ;;
  fd ← u_open (str "doesnotexist") 0;
  when (0 <=? fd) (fail 1 "open doesnotexist succeeded!" []) ;;
  say 1 "open test ok" [].

Definition writetest (buf : list Z) : M S (list Z) :=
  say 1 "small file test" [] ;;
  fd ← u_open (str "small") CREATE_RDWR;
  (if 0 <=? fd then say 1 "creat small succeeded; ok" [] else fail 1 "error: creat small failed!" []) ;;
  for_ (seq 0 100) (fun i =>
    w ← u_write fd (str "aaaaaaaaaa");
    when (negb (w =? 10)) (fail 1 "error: write aa %d new file failed" [UInt (Z.of_nat i)]) ;;
    w ← u_write fd (str "bbbbbbbbbb");
    when (negb (w =? 10)) (fail 1 "error: write bb %d new file failed" [UInt (Z.of_nat i)])) ;;
  say 1 "writes ok" [] ;;
  u_close fd ;;
  fd ← u_open (str "small") O_RDONLY;
  (if 0 <=? fd then say 1 "open small succeeded ok" [] else fail 1 "error: open small failed!" []) ;;
  '(i, bs) ← u_read fd 2000;
  (if i =? 2000 then say 1 "read succeeded ok" [] else fail 1 "read failed" []) ;;
  u_close fd ;;
  r ← u_unlink (str "small");
  when (r <? 0) (fail 1 "unlink small failed" []) ;;
  say 1 "small file test ok" [] ;;
  ret (splice 0 bs buf).

(** ((int* )buf)[0] *)
Definition buf_int (buf : list Z) : Z := s32 (rd32 buf 0).

(** The writes of writetest1. *)
Fixpoint big_write (js : list nat) (fd : Z) (buf : list Z) : M S (list Z) :=
  match js with
  | [] => ret buf
  | i :: js' =>
    let buf := splice 0 (le_bytes 4 (Z.of_nat i)) buf in
    w ← u_write fd (take 512 buf);
    when (negb (w =? 512)) (fail 1 "error: write big file failed" []) ;;
    big_write js' fd buf
  end.

(** ... and its reads; [n] counts the blocks. *)
Fixpoint big_read (fuel : nat) (fd n : Z) (buf : list Z) : M S (list Z) :=
  match fuel with
  | O => nofuel
  | Datatypes.S fuel' =>
    '(i, bs) ← u_read fd 512;
    let buf := splice 0 bs buf in
    if i =? 0 then
      (if n =? MAXFILE - 1 then printf 1 (str "read only %d blocks from big") [UInt n] ;; u_exit else ret buf)
    else
      when (negb (i =? 512)) (fail 1 "read failed %d" [UInt i]) ;;
      when (negb (buf_int buf =? n)) (fail 1 "read content of block %d is %d" [UInt n; UInt (buf_int buf)]) ;;
      big_read fuel' fd (n + 1) buf
  end.

Definition writetest1 (fuel : nat) (buf : list Z) : M S (list Z) :=
  say 1 "big files test" [] ;;
  fd ← u_open (str "big") CREATE_RDWR;
  when (fd <? 0) (fail 1 "error: creat big failed!" []) ;;
  buf ← big_write (seq 0 (Z.to_nat MAXFILE)) fd buf;
  u_close fd ;;
  fd ← u_open (str "big") O_RDONLY;
  when (fd <? 0) (fail 1 "error: open big failed!" []) ;;
  buf ← big_read fuel fd 0 buf;
  u_close fd ;;
  r ← u_unlink (str "big");
  when (r <? 0) (fail 1 "unlink big failed" []) ;;
  say 1 "big files ok" [] ;;
  ret buf.

Definition createtest : M S unit :=
  say 1 "many creates, followed by unlink test" [] ;;
  for_ (seq 0 52) (fun i => fd ← u_open [97; 48 + Z.of_nat i] CREATE_RDWR; u_close fd ;; ret tt) ;;
  for_ (seq 0 52) (fun i => u_unlink [97; 48 + Z.of_nat i] ;; ret tt) ;;
  say 1 "many creates, followed by unlink; ok" [].

Definition dirtest : M S unit :=
  say 1 "mkdir test" [] ;;
  r ← u_mkdir (str "dir0");
  when (r <? 0) (fail 1 "mkdir failed" []) ;;
  r ← u_chdir (str "dir0");
  when (r <? 0) (fail 1 "chdir dir0 failed" []) ;;
  r ← u_chdir (str "..");
  when (r <? 0) (fail 1 "chdir .. failed" []) ;;
  r ← u_unlink (str "dir0");
  when (r <? 0) (fail 1 "unlink dir0 failed" []) ;;
  say 1 "mkdir test ok" [].

Definition exectest : M S unit :=
  say 1 "exec test" [] ;;
  r ← u_exec (str "echo") [str "echo"; str "ALL"; str "TESTS"; str "PASSED"];
  when (r <? 0) (fail 1 "exec echo failed" []).

(** The bytes seq, seq + 1, ... as chars. *)
Definition seq_bytes (sq : Z) (n : nat) : list Z := (fun i => u8 (sq + Z.of_nat i)) <$> seq 0 n.

(** The child's loop in pipe1. *)
Fixpoint pipe1_write (k : nat) (fd sq : Z) (buf : list Z) : M S unit :=
  match k with
  | O => ret tt
  | Datatypes.S k' =>
    let buf := splice 0 (seq_bytes sq 1033) buf in
    w ← u_write fd (take 1033 buf);
    when (negb (w =? 1033)) (fail 1 "pipe1 oops 1" []) ;;
    pipe1_write k' fd (sq + 1033) buf
  end.

(** The loop over the bytes of one read, with its early return. *)
Fixpoint pipe1_check (sq : Z) (bs : list Z) : bool :=
  match bs with
  | [] => true
  | b :: bs' => if negb (Z.land b 255 =? Z.land sq 255) then false else pipe1_check (sq + 1) bs'
  end.

(** The parent's loop; the result is total, or [None] after a wrong byte. A read past the end of buf is a fault. *)
Fixpoint pipe1_read (fuel : nat) (fd sq cc total : Z) (buf : list Z) : M S (option Z * list Z) :=
  match fuel with
  | O => nofuel
  | Datatypes.S fuel' =>
    '(n, bs) ← u_read fd cc;
    if (length buf <? length bs)%nat then fault "buf" else
    let buf := splice 0 bs buf in
    if negb (0 <? n) then ret (Some total, buf) else
    if negb (pipe1_check sq (take (Z.to_nat n) buf))
    then say 1 "pipe1 oops 2" [] ;; ret (None, buf)
    else pipe1_read fuel' fd (sq + n) (Z.min (cc * 2) 8192) (total + n) buf
  end.

Definition pipe1 (fuel : nat) (buf : list Z) : M S (list Z) :=
  '(r, fds) ← u_pipe;
  when (negb (r =? 0)) (fail 1 "pipe() failed" []) ;;
  pid ← u_fork;
  if pid =? 0 then
    u_close fds.1 ;;
    pipe1_write 5 fds.2 0 buf ;;
    u_exit
  else if 0 <? pid then
    u_close fds.2 ;;
    '(total, buf) ← pipe1_read fuel fds.1 0 1 0 buf;
    match total with
    | None => ret buf
    | Some total =>
      when (negb (total =? 5 * 1033)) (fail 1 "pipe1 oops 3 total %d" [UInt total]) ;;
      u_close fds.1 ;;
      u_wait ;;
      say 1 "pipe1 ok" [] ;;
      ret buf
    end
  else fail 1 "fork() failed" [].

Definition preempt (buf : list Z) : M S (list Z) :=
  printf 1 (str "preempt: ") [] ;;
  pid1 ← u_fork;
  when (pid1 =? 0) spin ;;
  pid2 ← u_fork;
  when (pid2 =? 0) spin ;;
  '(_, pfds) ← u_pipe;
  pid3 ← u_fork;
  when (pid3 =? 0)
    (u_close pfds.1 ;;
     w ← u_write pfds.2 (str "x");
     when (negb (w =? 1)) (printf 1 (str "preempt write error") []) ;;
     u_close pfds.2 ;;
     spin) ;;
  u_close pfds.2 ;;
  '(n, bs) ← u_read pfds.1 8192;
  let buf := splice 0 bs buf in
  if negb (n =? 1) then printf 1 (str "preempt read error") [] ;; ret buf else
  u_close pfds.1 ;;
  printf 1 (str "kill... ") [] ;;
  u_kill pid1 ;; u_kill pid2 ;; u_kill pid3 ;;
  printf 1 (str "wait... ") [] ;;
  u_wait ;; u_wait ;; u_wait ;;
  say 1 "preempt ok" [] ;;
  ret buf.

(** for(i = 0; i < 100; i++): [n] turns are left. *)
Fixpoint exitwait_loop (n : nat) : M S unit :=
  match n with
  | O => say 1 "exitwait ok" []
  | Datatypes.S n' =>
    pid ← u_fork;
    if pid <? 0 then say 1 "fork failed" [] else
    if negb (pid =? 0) then
      w ← u_wait;
      if negb (w =? pid) then say 1 "wait wrong pid" [] else exitwait_loop n'
    else u_exit
  end.

Definition exitwait : M S unit := exitwait_loop 100.

(** The two loops of mem: the blocks are linked through their first word. *)
Fixpoint mem_fill (fuel : nat) (m1 : Z) : M S Z :=
  match fuel with
  | O => nofuel
  | Datatypes.S fuel' =>
    m2 ← u_malloc 10001;
    if m2 =? 0 then ret m1 else u_store32 m2 m1 ;; mem_fill fuel' m2
  end.

Fixpoint mem_drain (fuel : nat) (m1 : Z) : M S unit :=
  match fuel with
  | O => nofuel
  | Datatypes.S fuel' => if m1 =? 0 then ret tt else m2 ← u_load32 m1; u_free m1 ;; mem_drain fuel' m2
  end.

Definition mem (fuel : nat) : M S unit :=
  say 1 "mem test" [] ;;
  ppid ← u_getpid;
  pid ← u_fork;
  if pid =? 0 then
    m1 ← mem_fill fuel 0;
    mem_drain fuel m1 ;;
    m1 ← u_malloc (1024 * 20);
    when (m1 =? 0) (say 1 "couldn't allocate mem?!!" [] ;; u_kill ppid ;; u_exit) ;;
    u_free m1 ;;
    say 1 "mem ok" [] ;;
    u_exit
  else u_wait ;; ret tt.

(** The writes of sharedfd, which stop at the first failure. *)
Fixpoint shared_write (n : nat) (fd : Z) (buf : list Z) : M S unit :=
  match n with
  | O => ret tt
  | Datatypes.S n' =>
    w ← u_write fd buf;
    if negb (w =? 10) then say 1 "fstests: write sharedfd failed" [] else shared_write n' fd buf
  end.

Definition count_char (c : Z) (buf : list Z) : Z := Z.of_nat (length (filter (fun b => b = c) buf)).

(** ... and its reads: after each one all ten bytes of the local buf are counted. *)
Fixpoint shared_read (fuel : nat) (fd : Z) (buf : list Z) (nc np : Z) : M S (Z * Z) :=
  match fuel with
  | O => nofuel
  | Datatypes.S fuel' =>
    '(n, bs) ← u_read fd 10;
    if negb (0 <? n) then ret (nc, np) else
    let buf := splice 0 bs buf in
    shared_read fuel' fd buf (nc + count_char 99 buf) (np + count_char 112 buf)
  end.

Definition sharedfd (fuel : nat) : M S unit :=
  say 1 "sharedfd test" [] ;;
  u_unlink (str "sharedfd") ;;
  fd ← u_open (str "sharedfd") CREATE_RDWR;
  if fd <? 0 then printf 1 (str "fstests: cannot open sharedfd for writing") [] else
  pid ← u_fork;
  let buf := replicate 10 (if pid =? 0 then 99 else 112) in
  shared_write 1000 fd buf ;;
  (if pid =? 0 then u_exit else u_wait) ;;
  u_close fd ;;
  fd ← u_open (str "sharedfd") 0;
  if fd <? 0 then say 1 "fstests: cannot open sharedfd for reading" [] else
  '(nc, np) ← shared_read fuel fd buf 0 0;
  u_close fd ;;
  u_unlink (str "sharedfd") ;;
  if (nc =? 10000) && (np =? 10000) then say 1 "sharedfd ok" []
  else fail 1 "sharedfd oops %d %d" [UInt nc; UInt np].

Definition four_name (pi : nat) : list Z := [102; 48 + Z.of_nat pi].

(** The child that writes the file [pi]. *)
Definition four_child (pi : nat) (buf : list Z) : M S unit :=
  fd ← u_open (four_name pi) CREATE_RDWR;
  when (fd <? 0) (fail 1 "create failed" []) ;;
  let buf := splice 0 (replicate 512 (48 + Z.of_nat pi)) buf in
  for_ (seq 0 12) (fun _ =>
    n ← u_write fd (take 500 buf);
    when (negb (n =? 500)) (fail 1 "write failed %d" [UInt n])) ;;
  u_exit.

(** Reading one file to its end. *)
Fixpoint four_read (fuel : nat) (fd : Z) (i : nat) (total : Z) (buf : list Z) : M S (Z * list Z) :=
  match fuel with
  | O => nofuel
  | Datatypes.S fuel' =>
    '(n, bs) ← u_read fd 8192;
    let buf := splice 0 bs buf in
    if negb (0 <? n) then ret (total, buf) else
    when (negb (forallb (fun b => b =? 48 + Z.of_nat i) (take (Z.to_nat n) buf))) (fail 1 "wrong char" []) ;;
    four_read fuel' fd i (total + n) buf
  end.

(** Checking the files [js]. *)
Fixpoint four_check (fuel : nat) (js : list nat) (buf : list Z) : M S (list Z) :=
  match js with
  | [] => ret buf
  | i :: js' =>
    fd ← u_open (four_name i) 0;
    '(total, buf) ← four_read fuel fd i 0 buf;
    u_close fd ;;
    when (negb (total =? 12 * 500)) (fail 1 "wrong length %d" [UInt total]) ;;
    u_unlink (four_name i) ;;
    four_check fuel js' buf
  end.

Definition fourfiles (fuel : nat) (buf : list Z) : M S (list Z) :=
  say 1 "fourfiles test" [] ;;
  for_ (seq 0 4) (fun pi =>
    u_unlink (four_name pi) ;;
    pid ← u_fork;
    when (pid <? 0) (fail 1 "fork failed" []) ;;
    when (pid =? 0) (four_child pi buf)) ;;
  for_ (seq 0 4) (fun _ => u_wait ;; ret tt) ;;
  buf ← four_check fuel (seq 0 2) buf;
  say 1 "fourfiles ok" [] ;;
  ret buf.

(** The file [i] of the process [pi] of createdelete. *)
Definition cd_name (pi i : nat) : list Z := [112 + Z.of_nat pi; 48 + Z.of_nat i].

(** The child [pi]: creates its files and deletes every second one later. *)
Definition cd_child (pi : nat) : M S unit :=
  for_ (seq 0 20) (fun i =>
    fd ← u_open (cd_name pi i) CREATE_RDWR;
    when (fd <? 0) (fail 1 "create failed" []) ;;
    u_close fd ;;
    when ((0 <? i)%nat && (i mod 2 =? 0)%nat)
      (r ← u_unlink (cd_name pi (i / 2));
       when (r <? 0) (fail 1 "unlink failed" []))) ;;
  u_exit.

(** The check that the right files exist. *)
Definition cd_check : M S unit :=
  for_ (seq 0 20) (fun i => for_ (seq 0 4) (fun pi =>
    fd ← u_open (cd_name pi i) 0;
    (if ((i =? 0)%nat || (10 <=? i)%nat) && (fd <? 0)
     then fail 1 "oops createdelete %s didn't exist" [UStr (Some (cd_name pi i))]
     else when ((1 <=? i)%nat && (i <? 10)%nat && (0 <=? fd)) (fail 1 "oops createdelete %s did exist" [UStr (Some (cd_name pi i))])) ;;
    when (0 <=? fd) (u_close fd ;; ret tt))).

(** The loops that delete the files. *)
Definition cd_cleanup : M S unit :=
  for_ (seq 0 20) (fun i => for_ (seq 0 4) (fun pi => u_unlink [u8 (112 + Z.of_nat i); 48 + Z.of_nat i] ;; ret tt)).

Definition createdelete : M S unit :=
  say 1 "createdelete test" [] ;;
  for_ (seq 0 4) (fun pi =>
    pid ← u_fork;
    when (pid <? 0) (fail 1 "fork failed" []) ;;
    when (pid =? 0) (cd_child pi)) ;;
  for_ (seq 0 4) (fun _ => u_wait ;; ret tt) ;;
  cd_check ;;
  cd_cleanup ;;
  say 1 "createdelete ok" [].

Definition unlinkread (buf : list Z) : M S (list Z) :=
  say 1 "unlinkread test" [] ;;
  fd ← u_open (str "unlinkread") CREATE_RDWR;
  when (fd <? 0) (fail 1 "create unlinkread failed" []) ;;
  u_write fd (str "hello") ;;
  u_close fd ;;
  fd ← u_open (str "unlinkread") O_RDWR;
  when (fd <? 0) (fail 1 "open unlinkread failed" []) ;;
  r ← u_unlink (str "unlinkread");
  when (negb (r =? 0)) (fail 1 "unlink unlinkread failed" []) ;;
  fd1 ← u_open (str "unlinkread") CREATE_RDWR;
  u_write fd1 (str "yyy") ;;
  u_close fd1 ;;
  '(n, bs) ← u_read fd 8192;
  let buf := splice 0 bs buf in
  when (negb (n =? 5)) (printf 1 (str "unlinkread read failed") [] ;; u_exit) ;;
  when (negb (bool_decide (head buf = Some 104))) (fail 1 "unlinkread wrong data" []) ;;
  w ← u_write fd (take 10 buf);
  when (negb (w =? 10)) (fail 1 "unlinkread write failed" []) ;;
  u_close fd ;;
  u_unlink (str "unlinkread") ;;
  say 1 "unlinkread ok" [] ;;
  ret buf.

Definition linktest (buf : list Z) : M S (list Z) :=
  say 1 "linktest" [] ;;
  u_unlink (str "lf1") ;;
  u_unlink (str "lf2") ;;
  fd ← u_open (str "lf1") CREATE_RDWR;
  when (fd <? 0) (fail 1 "create lf1 failed" []) ;;
  w ← u_write fd (str "hello");
  when (negb (w =? 5)) (fail 1 "write lf1 failed" []) ;;
  u_close fd ;;
  r ← u_link (str "lf1") (str "lf2");
  when (r <? 0) (fail 1 "link lf1 lf2 failed" []) ;;
  u_unlink (str "lf1") ;;
  fd ← u_open (str "lf1") 0;
  when (0 <=? fd) (fail 1 "unlinked lf1 but it is still there!" []) ;;
  fd ← u_open (str "lf2") 0;
  when (fd <? 0) (fail 1 "open lf2 failed" []) ;;
  '(n, bs) ← u_read fd 8192;
  when (negb (n =? 5)) (fail 1 "read lf2 failed" []) ;;
  u_close fd ;;
  r ← u_link (str "lf2") (str "lf2");
  when (0 <=? r) (fail 1 "link lf2 lf2 succeeded! oops" []) ;;
  u_unlink (str "lf2") ;;
  r ← u_link (str "lf2") (str "lf1");
  when (0 <=? r) (fail 1 "link non-existant succeeded! oops" []) ;;
  r ← u_link (str ".") (str "lf1");
  when (0 <=? r) (fail 1 "link . lf1 succeeded! oops" []) ;;
  say 1 "linktest ok" [] ;;
  ret (splice 0 bs buf).

(** The file [i] of concreate. *)
Definition cc_name (i : nat) : list Z := [67; 48 + Z.of_nat i].

(** One turn of the loop that creates the files, in the parent and in the child. *)
Definition cc_create (i : nat) : M S unit :=
  u_unlink (cc_name i) ;;
  pid ← u_fork;
  (if negb (pid =? 0) && (i mod 3 =? 1)%nat then u_link (str "C0") (cc_name i) ;; ret tt
   else if (pid =? 0) && (i mod 5 =? 1)%nat then u_link (str "C0") (cc_name i) ;; ret tt
   else
     fd ← u_open (cc_name i) CREATE_RDWR;
     when (fd <? 0) (fail 1 "concreate create %s failed" [UStr (Some (cc_name i))]) ;;
     u_close fd ;; ret tt) ;;
  if pid =? 0 then u_exit else u_wait ;; ret tt.

(** The loop over the directory: [de] is the local entry, [fa] marks the files seen, [n] counts them. *)
Fixpoint cc_scan (fuel : nat) (fd : Z) (de : list Z) (fa : list Z) (n : Z) : M S Z :=
  match fuel with
  | O => nofuel
  | Datatypes.S fuel' =>
    '(r, bs) ← u_read fd 16;
    let de := splice 0 bs de in
    if negb (0 <? r) then ret n else
    if rd16 de 0 =? 0 then cc_scan fuel' fd de fa n else
    let name := drop 2 de in
    if (default 0 (name !! 0%nat) =? 67) && (default 0 (name !! 2%nat) =? 0) then
      let i := s8 (default 0 (name !! 1%nat)) - 48 in
      when ((i <? 0) || (40 <=? u32 i)) (fail 1 "concreate weird file %s" [UStr (Some (cstr name))]) ;;
      when (negb (default 0 (fa !! Z.to_nat i) =? 0)) (fail 1 "concreate duplicate file %s" [UStr (Some (cstr name))]) ;;
      cc_scan fuel' fd de (<[Z.to_nat i := 1]> fa) (n + 1)
    else cc_scan fuel' fd de fa n
  end.

(** One turn of the loop that opens or unlinks the files four times in the parent and in the child. *)
Definition cc_delete (i : nat) : M S unit :=
  pid ← u_fork;
  when (pid <? 0) (fail 1 "fork failed" []) ;;
  (if (i mod 3 =? 0)%nat && (pid =? 0) || (i mod 3 =? 1)%nat && negb (pid =? 0)
   then for_ (seq 0 4) (fun _ => fd ← u_open (cc_name i) 0; u_close fd ;; ret tt)
   else for_ (seq 0 4) (fun _ => u_unlink (cc_name i) ;; ret tt)) ;;
  if pid =? 0 then u_exit else u_wait ;; ret tt.

Definition concreate (fuel : nat) (de : list Z) : M S unit :=
  say 1 "concreate test" [] ;;
  for_ (seq 0 40) cc_create ;;
  fd ← u_open (str ".") 0;
  n ← cc_scan fuel fd de (replicate 40 0) 0;
  u_close fd ;;
  when (negb (n =? 40)) (fail 1 "concreate not enough files in directory listing" []) ;;
  for_ (seq 0 40) cc_delete ;;
  say 1 "concreate ok" [].

(** The loop of linkunlink; [x] is its random number. *)
Fixpoint lu_loop (n : nat) (x : Z) : M S unit :=
  match n with
  | O => ret tt
  | Datatypes.S n' =>
    let x := u32 (x * 1103515245 + 12345) in
    (if x mod 3 =? 0 then fd ← u_open (str "x") (Z.lor O_RDWR O_CREATE); u_close fd ;; ret tt
     else if x mod 3 =? 1 then u_link (str "cat") (str "x") ;; ret tt
     else u_unlink (str "x") ;; ret tt) ;;
    lu_loop n' x
  end.

Definition linkunlink : M S unit :=
  say 1 "linkunlink test" [] ;;
  u_unlink (str "x") ;;
  pid ← u_fork;
  when (pid <? 0) (fail 1 "fork failed" []) ;;
  lu_loop 100 (if pid =? 0 then 97 else 1) ;;
  (if pid =? 0 then u_exit else u_wait) ;;
  say 1 "linkunlink ok" [].

(** The name [i] of bigdir. *)
Definition bd_name (i : nat) : list Z := [120; 48 + Z.of_nat (i / 64); 48 + Z.of_nat (i mod 64)].

Definition bigdir : M S unit :=
  say 1 "bigdir test" [] ;;
  u_unlink (str "bd") ;;
  fd ← u_open (str "bd") O_CREATE;
  when (fd <? 0) (fail 1 "bigdir create failed" []) ;;
  u_close fd ;;
  for_ (seq 0 500) (fun i =>
    r ← u_link (str "bd") (bd_name i);
    when (negb (r =? 0)) (fail 1 "bigdir link failed" [])) ;;
  u_unlink (str "bd") ;;
  for_ (seq 0 500) (fun i =>
    r ← u_unlink (bd_name i);
    when (negb (r =? 0)) (printf 1 (str "bigdir unlink failed") [] ;; u_exit)) ;;
  say 1 "bigdir ok" [].

(** The first part of subdir: files and links in nested directories, and paths with dots. *)
Definition subdir_make (buf : list Z) : M S (list Z) :=
  say 1 "subdir test" [] ;;
  u_unlink (str "ff") ;;
  r ← u_mkdir (str "dd");
  when (negb (r =? 0)) (fail 1 "subdir mkdir dd failed" []) ;;
  fd ← u_open (str "dd/ff") CREATE_RDWR;
  when (fd <? 0) (fail 1 "create dd/ff failed" []) ;;
  u_write fd (str "ff") ;;
  u_close fd ;;
  r ← u_unlink (str "dd");
  when (0 <=? r) (fail 1 "unlink dd (non-empty dir) succeeded!" []) ;;
  r ← u_mkdir (str "/dd/dd");
  when (negb (r =? 0)) (fail 1 "subdir mkdir dd/dd failed" []) ;;
  fd ← u_open (str "dd/dd/ff") CREATE_RDWR;
  when (fd <? 0) (fail 1 "create dd/dd/ff failed" []) ;;
  u_write fd (str "FF") ;;
  u_close fd ;;
  fd ← u_open (str "dd/dd/../ff") 0;
  when (fd <? 0) (fail 1 "open dd/dd/../ff failed" []) ;;
  '(cc, bs) ← u_read fd 8192;
  let buf := splice 0 bs buf in
  when (negb (cc =? 2) || negb (bool_decide (head buf = Some 102))) (fail 1 "dd/dd/../ff wrong content" []) ;;
  u_close fd ;;
  r ← u_link (str "dd/dd/ff") (str "dd/dd/ffff");
  when (negb (r =? 0)) (fail 1 "link dd/dd/ff dd/dd/ffff failed" []) ;;
  r ← u_unlink (str "dd/dd/ff");
  when (negb (r =? 0)) (fail 1 "unlink dd/dd/ff failed" []) ;;
  r ← u_open (str "dd/dd/ff") O_RDONLY;
  when (0 <=? r) (fail 1 "open (unlinked) dd/dd/ff succeeded" []) ;;
  r ← u_chdir (str "dd");
  when (negb (r =? 0)) (fail 1 "chdir dd failed" []) ;;
  r ← u_chdir (str "dd/../../dd");
  when (negb (r =? 0)) (fail 1 "chdir dd/../../dd failed" []) ;;
  r ← u_chdir (str "dd/../../../dd");
  when (negb (r =? 0)) (fail 1 "chdir dd/../../dd failed" []) ;;
  r ← u_chdir (str "./..");
  when (negb (r =? 0)) (fail 1 "chdir ./.. failed" []) ;;
  ret buf.

(** The rest of it: calls that must fail, and the clean-up. *)
Definition subdir (buf : list Z) : M S (list Z) :=
  buf ← subdir_make buf;
  fd ← u_open (str "dd/dd/ffff") 0;
  when (fd <? 0) (fail 1 "open dd/dd/ffff failed" []) ;;
  '(cc, bs) ← u_read fd 8192;
  let buf := splice 0 bs buf in
  when (negb (cc =? 2)) (fail 1 "read dd/dd/ffff wrong len" []) ;;
  u_close fd ;;
  r ← u_open (str "dd/dd/ff") O_RDONLY;
  when (0 <=? r) (fail 1 "open (unlinked) dd/dd/ff succeeded!" []) ;;
  r ← u_open (str "dd/ff/ff") CREATE_RDWR;
  when (0 <=? r) (fail 1 "create dd/ff/ff succeeded!" []) ;;
  r ← u_open (str "dd/xx/ff") CREATE_RDWR;
  when (0 <=? r) (fail 1 "create dd/xx/ff succeeded!" []) ;;
  r ← u_open (str "dd") O_CREATE;
  when (0 <=? r) (fail 1 "create dd succeeded!" []) ;;
  r ← u_open (str "dd") O_RDWR;
  when (0 <=? r) (fail 1 "open dd rdwr succeeded!" []) ;;
  r ← u_open (str "dd") O_WRONLY;
  when (0 <=? r) (fail 1 "open dd wronly succeeded!" []) ;;
  r ← u_link (str "dd/ff/ff") (str "dd/dd/xx");
  when (r =? 0) (fail 1 "link dd/ff/ff dd/dd/xx succeeded!" []) ;;
  r ← u_link (str "dd/xx/ff") (str "dd/dd/xx");
  when (r =? 0) (fail 1 "link dd/xx/ff dd/dd/xx succeeded!" []) ;;
  r ← u_link (str "dd/ff") (str "dd/dd/ffff");
  when (r =? 0) (fail 1 "link dd/ff dd/dd/ffff succeeded!" []) ;;
  r ← u_mkdir (str "dd/ff/ff");
  when (r =? 0) (fail 1 "mkdir dd/ff/ff succeeded!" []) ;;
  r ← u_mkdir (str "dd/xx/ff");
  when (r =? 0) (fail 1 "mkdir dd/xx/ff succeeded!" []) ;;
  r ← u_mkdir (str "dd/dd/ffff");
  when (r =? 0) (fail 1 "mkdir dd/dd/ffff succeeded!" []) ;;
  r ← u_unlink (str "dd/xx/ff");
  when (r =? 0) (fail 1 "unlink dd/xx/ff succeeded!" []) ;;
  r ← u_unlink (str "dd/ff/ff");
  when (r =? 0) (fail 1 "unlink dd/ff/ff succeeded!" []) ;;
  r ← u_chdir (str "dd/ff");
  when (r =? 0) (fail 1 "chdir dd/ff succeeded!" []) ;;
  r ← u_chdir (str "dd/xx");
  when (r =? 0) (fail 1 "chdir dd/xx succeeded!" []) ;;
  r ← u_unlink (str "dd/dd/ffff");
  when (negb (r =? 0)) (fail 1 "unlink dd/dd/ff failed" []) ;;
  r ← u_unlink (str "dd/ff");
  when (negb (r =? 0)) (fail 1 "unlink dd/ff failed" []) ;;
  r ← u_unlink (str "dd");
  when (r =? 0) (fail 1 "unlink non-empty dd succeeded!" []) ;;
  r ← u_unlink (str "dd/dd");
  when (r <? 0) (fail 1 "unlink dd/dd failed" []) ;;
  r ← u_unlink (str "dd");
  when (r <? 0) (fail 1 "unlink dd failed" []) ;;
  say 1 "subdir ok" [] ;;
  ret buf.

(** bigwrite: the sizes sz = 499; sz < 12*512; sz += 471. *)
Definition bigwrite (buf : list Z) : M S unit :=
  say 1 "bigwrite test" [] ;;
  u_unlink (str "bigwrite") ;;
  for_ (seq 0 12) (fun k =>
    let sz := 499 + 471 * Z.of_nat k in
    fd ← u_open (str "bigwrite") CREATE_RDWR;
    when (fd <? 0) (fail 1 "cannot create bigwrite" []) ;;
    for_ (seq 0 2) (fun _ =>
      cc ← u_write fd (take (Z.to_nat sz) buf);
      when (negb (cc =? sz)) (fail 1 "write(%d) ret %d" [UInt sz; UInt cc])) ;;
    u_close fd ;;
    u_unlink (str "bigwrite") ;; ret tt) ;;
  say 1 "bigwrite ok" [].

(** The writes of bigfile ... *)
Fixpoint bigfile_write (js : list nat) (fd : Z) (buf : list Z) : M S (list Z) :=
  match js with
  | [] => ret buf
  | i :: js' =>
    let buf := splice 0 (replicate 600 (Z.of_nat i)) buf in
    w ← u_write fd (take 600 buf);
    when (negb (w =? 600)) (fail 1 "write bigfile failed" []) ;;
    bigfile_write js' fd buf
  end.

(** ... and its reads: the result is total. *)
Fixpoint bigfile_read (fuel : nat) (fd i total : Z) (buf : list Z) : M S (Z * list Z) :=
  match fuel with
  | O => nofuel
  | Datatypes.S fuel' =>
    '(cc, bs) ← u_read fd 300;
    let buf := splice 0 bs buf in
    when (cc <? 0) (fail 1 "read bigfile failed" []) ;;
    if cc =? 0 then ret (total, buf) else
    when (negb (cc =? 300)) (fail 1 "short read bigfile" []) ;;
    when (negb (bool_decide (s8 <$> head buf = Some (i / 2))) || negb (bool_decide (s8 <$> buf !! 299%nat = Some (i / 2))))
      (fail 1 "read bigfile wrong data" []) ;;
    bigfile_read fuel' fd (i + 1) (total + cc) buf
  end.

Definition bigfile (fuel : nat) (buf : list Z) : M S (list Z) :=
  say 1 "bigfile test" [] ;;
  u_unlink (str "bigfile") ;;
  fd ← u_open (str "bigfile") CREATE_RDWR;
  when (fd <? 0) (printf 1 (str "cannot create bigfile") [] ;; u_exit) ;;
  buf ← bigfile_write (seq 0 20) fd buf;
  u_close fd ;;
  fd ← u_open (str "bigfile") 0;
  when (fd <? 0) (fail 1 "cannot open bigfile" []) ;;
  '(total, buf) ← bigfile_read fuel fd 0 0 buf;
  u_close fd ;;
  when (negb (total =? 20 * 600)) (fail 1 "read bigfile wrong total" []) ;;
  u_unlink (str "bigfile") ;;
  say 1 "bigfile test ok" [] ;;
  ret buf.

Definition fourteen : M S unit :=
  say 1 "fourteen test" [] ;;
  r ← u_mkdir (str "12345678901234");
  when (negb (r =? 0)) (fail 1 "mkdir 12345678901234 failed" []) ;;
  r ← u_mkdir (str "12345678901234/123456789012345");
  when (negb (r =? 0)) (fail 1 "mkdir 12345678901234/123456789012345 failed" []) ;;
  fd ← u_open (str "123456789012345/123456789012345/123456789012345") O_CREATE;
  when (fd <? 0) (fail 1 "create 123456789012345/123456789012345/123456789012345 failed" []) ;;
  u_close fd ;;
  fd ← u_open (str "12345678901234/12345678901234/12345678901234") 0;
  when (fd <? 0) (fail 1 "open 12345678901234/12345678901234/12345678901234 failed" []) ;;
  u_close fd ;;
  r ← u_mkdir (str "12345678901234/12345678901234");
  when (r =? 0) (fail 1 "mkdir 12345678901234/12345678901234 succeeded!" []) ;;
  r ← u_mkdir (str "123456789012345/12345678901234");
  when (r =? 0) (fail 1 "mkdir 12345678901234/123456789012345 succeeded!" []) ;;
  say 1 "fourteen ok" [].

Definition rmdot : M S unit :=
  say 1 "rmdot test" [] ;;
  r ← u_mkdir (str "dots");
  when (negb (r =? 0)) (fail 1 "mkdir dots failed" []) ;;
  r ← u_chdir (str "dots");
  when (negb (r =? 0)) (fail 1 "chdir dots failed" []) ;;
  r ← u_unlink (str ".");
  when (r =? 0) (fail 1 "rm . worked!" []) ;;
  r ← u_unlink (str "..");
  when (r =? 0) (fail 1 "rm .. worked!" []) ;;
  r ← u_chdir (str "/");
  when (negb (r =? 0)) (fail 1 "chdir / failed" []) ;;
  r ← u_unlink (str "dots/.");
  when (r =? 0) (fail 1 "unlink dots/. worked!" []) ;;
  r ← u_unlink (str "dots/..");
  when (r =? 0) (fail 1 "unlink dots/.. worked!" []) ;;
  r ← u_unlink (str "dots");
  when (negb (r =? 0)) (fail 1 "unlink dots failed!" []) ;;
  say 1 "rmdot ok" [].

Definition dirfile : M S unit :=
  say 1 "dir vs file" [] ;;
  fd ← u_open (str "dirfile") O_CREATE;
  when (fd <? 0) (fail 1 "create dirfile failed" []) ;;
  u_close fd ;;
  r ← u_chdir (str "dirfile");
  when (r =? 0) (fail 1 "chdir dirfile succeeded!" []) ;;
  fd ← u_open (str "dirfile/xx") 0;
  when (0 <=? fd) (fail 1 "create dirfile/xx succeeded!" []) ;;
  fd ← u_open (str "dirfile/xx") O_CREATE;
  when (0 <=? fd) (fail 1 "create dirfile/xx succeeded!" []) ;;
  r ← u_mkdir (str "dirfile/xx");
  when (r =? 0) (fail 1 "mkdir dirfile/xx succeeded!" []) ;;
  r ← u_unlink (str "dirfile/xx");
  when (r =? 0) (fail 1 "unlink dirfile/xx succeeded!" []) ;;
  r ← u_link (str "README") (str "dirfile/xx");
  when (r =? 0) (fail 1 "link to dirfile/xx succeeded!" []) ;;
  r ← u_unlink (str "dirfile");
  when (negb (r =? 0)) (fail 1 "unlink dirfile failed!" []) ;;
  fd ← u_open (str ".") O_RDWR;
  when (0 <=? fd) (fail 1 "open . for writing succeeded!" []) ;;
  fd ← u_open (str ".") 0;
  w ← u_write fd (str "x");
  when (0 <? w) (fail 1 "write . succeeded!" []) ;;
  u_close fd ;;
  say 1 "dir vs file OK" [].

Definition iref : M S unit :=
  say 1 "empty file name" [] ;;
  for_ (seq 0 51) (fun _ =>
    r ← u_mkdir (str "irefd");
    when (negb (r =? 0)) (fail 1 "mkdir irefd failed" []) ;;
    r ← u_chdir (str "irefd");
    when (negb (r =? 0)) (fail 1 "chdir irefd failed" []) ;;
    u_mkdir [] ;;
    u_link (str "README") [] ;;
    fd ← u_open [] O_CREATE;
    when (0 <=? fd) (u_close fd ;; ret tt) ;;
    fd ← u_open (str "xx") O_CREATE;
    when (0 <=? fd) (u_close fd ;; ret tt) ;;
    u_unlink (str "xx") ;; ret tt) ;;
  u_chdir (str "/") ;;
  say 1 "empty file name OK" [].

(** forktest: the forks, at most [k] more after [n] of them; the result is the number of children. *)
Fixpoint fork_loop (k : nat) (n : Z) : M S Z :=
  match k with
  | O => ret n
  | Datatypes.S k' =>
    pid ← u_fork;
    if pid <? 0 then ret n else
    if pid =? 0 then u_exit else fork_loop k' (n + 1)
  end.

Definition forktest : M S unit :=
  say 1 "fork test" [] ;;
  n ← fork_loop 1000 0;
  when (n =? 1000) (fail 1 "fork claimed to work 1000 times!" []) ;;
  for_ (seq 0 (Z.to_nat n)) (fun _ => r ← u_wait; when (r <? 0) (fail 1 "wait stopped early" [])) ;;
  r ← u_wait;
  when (negb (r =? -1)) (fail 1 "wait got too many" []) ;;
  say 1 "fork test OK" [].

(** sbrktest: growing by a byte at a time; the result is the end of the heap. *)
Fixpoint sbrk_bytes (js : list nat) (a : Z) : M S Z :=
  match js with
  | [] => ret a
  | i :: js' =>
    b ← u_sbrk 1;
    when (negb (u32 b =? a)) (fail 1 "sbrk test failed %d %x %x" [UInt (Z.of_nat i); UInt a; UInt b]) ;;
    u_store8 (u32 b) 1 ;;
    sbrk_bytes js' (u32 (b + 1))
  end.

Definition BIG : Z := 100 * 1024 * 1024.

(** for(;;) sleep(1000); *)
Fixpoint sleep_loop {A} (fuel : nat) : M S A :=
  match fuel with O => nofuel | Datatypes.S fuel' => u_sleep 1000 ;; sleep_loop fuel' end.

(** The children that allocate a lot of memory; the result is the array pids. *)
Fixpoint sbrk_children (fuel k : nat) (fds : Z * Z) : M S (list Z) :=
  match k with
  | O => ret []
  | Datatypes.S k' =>
    pid ← u_fork;
    when (pid =? 0) (b ← u_sbrk 0; u_sbrk (s32 (BIG - u32 b)) ;; u_write fds.2 (str "x") ;; sleep_loop fuel) ;;
    when (negb (pid =? -1)) (u_read fds.1 1 ;; ret tt) ;;
    pids ← sbrk_children fuel k' fds;
    ret (pid :: pids)
  end.

(** The first part of sbrktest: growing and shrinking the process. *)
Definition sbrk_resize : M S Z :=
  say 1 "sbrk test" [] ;;
  oldbrk ← u_sbrk 0;
  a ← u_sbrk 0;
  a ← sbrk_bytes (seq 0 5000) (u32 a);
  pid ← u_fork;
  when (pid <? 0) (fail 1 "sbrk test fork failed" []) ;;
  u_sbrk 1 ;;
  c ← u_sbrk 1;
  when (negb (u32 c =? u32 (a + 1))) (fail 1 "sbrk test failed post-fork" []) ;;
  when (pid =? 0) u_exit ;;
  u_wait ;;
  a ← u_sbrk 0;
  p ← u_sbrk (s32 (BIG - u32 a));
  when (negb (p =? a)) (fail 1 "sbrk test failed to grow big address space; enough phys mem?" []) ;;
  u_store8 (BIG - 1) 99 ;;
  a ← u_sbrk 0;
  c ← u_sbrk (-4096);
  when (u32 c =? 0xffffffff) (fail 1 "sbrk could not deallocate" []) ;;
  c ← u_sbrk 0;
  when (negb (u32 c =? u32 (a - 4096))) (fail 1 "sbrk deallocation produced wrong address, a %x c %x" [UInt a; UInt c]) ;;
  a ← u_sbrk 0;
  c ← u_sbrk 4096;
  (if negb (c =? a) then fail 1 "sbrk re-allocation failed, a %x c %x" [UInt a; UInt c]
   else e ← u_sbrk 0; when (negb (u32 e =? u32 (a + 4096))) (fail 1 "sbrk re-allocation failed, a %x c %x" [UInt a; UInt c])) ;;
  x ← u_load8 (BIG - 1);
  when (x =? 99) (fail 1 "sbrk de-allocation didn't really deallocate" []) ;;
  a ← u_sbrk 0;
  e ← u_sbrk 0;
  c ← u_sbrk (s32 (- (e - oldbrk)));
  when (negb (c =? a)) (fail 1 "sbrk downsize failed, a %x c %x" [UInt a; UInt c]) ;;
  ret oldbrk.

Definition sbrktest (fuel : nat) : M S unit :=
  oldbrk ← sbrk_resize;
  for_ (seq 0 40) (fun k =>
    let a := KERNBASE + 50000 * Z.of_nat k in
    ppid ← u_getpid;
    pid ← u_fork;
    when (pid <? 0) (fail 1 "fork failed" []) ;;
    when (pid =? 0)
      (x ← u_load8 a;
       say 1 "oops could read %x = %x" [UInt a; UInt (s8 x)] ;;
       u_kill ppid ;;
       u_exit) ;;
    u_wait ;; ret tt) ;;
  '(r, fds) ← u_pipe;
  when (negb (r =? 0)) (fail 1 "pipe() failed" []) ;;
  pids ← sbrk_children fuel 10 fds;
  c ← u_sbrk 4096;
  for_ pids (fun pid => when (negb (pid =? -1)) (u_kill pid ;; u_wait ;; ret tt)) ;;
  when (u32 c =? 0xffffffff) (fail 1 "failed sbrk leaked memory" []) ;;
  e ← u_sbrk 0;
  when (u32 oldbrk <? u32 e) (e ← u_sbrk 0; u_sbrk (s32 (- (e - oldbrk))) ;; ret tt) ;;
  say 1 "sbrk test OK" [].

Definition validatetest : M S unit :=
  say 1 "validate test" [] ;;
  for_ (seq 0 276) (fun k =>
    let p := 4096 * Z.of_nat k in
    pid ← u_fork;
    when (pid =? 0) (u_sleep_arg p ;; u_exit) ;;
    u_sleep 0 ;;
    u_sleep 0 ;;
    u_kill pid ;;
    u_wait ;;
    r ← u_link_to (str "nosuchfile") p;
    when (negb (r =? -1)) (fail 1 "link should not succeed" [])) ;;
  say 1 "validate ok" [].

(** [uninit] is the array of that name in the bss. *)
Definition bsstest (uninit : list Z) : M S unit :=
  say 1 "bss test" [] ;;
  for_ uninit (fun b => when (negb (b =? 0)) (fail 1 "bss test failed" [])) ;;
  say 1 "bss test ok" [].

Definition bigargtest : M S unit :=
  u_unlink (str "bigarg-ok") ;;
  pid ← u_fork;
  (if pid =? 0 then
     say 1 "bigarg test" [] ;;
     u_exec (str "echo") (replicate 31 (str "bigargs test: failed" ++ [10] ++ replicate 199 32)) ;;
     say 1 "bigarg test ok" [] ;;
     fd ← u_open (str "bigarg-ok") O_CREATE;
     u_close fd ;;
     u_exit
   else when (pid <? 0) (fail 1 "bigargtest: fork failed" [])) ;;
  u_wait ;;
  fd ← u_open (str "bigarg-ok") 0;
  when (fd <? 0) (fail 1 "bigarg test failed!" []) ;;
  u_close fd ;;
  u_unlink (str "bigarg-ok") ;; ret tt.

(** fsfull: the name of the file [n], the writes to one file and the loop over the files. *)
Definition full_name (n : nat) : list Z :=
  [102; u8 (48 + Z.of_nat (n / 1000)); 48 + Z.of_nat (n mod 1000 / 100); 48 + Z.of_nat (n mod 100 / 10); 48 + Z.of_nat (n mod 10)].

Fixpoint full_write (fuel : nat) (fd total : Z) (buf : list Z) : M S Z :=
  match fuel with
  | O => nofuel
  | Datatypes.S fuel' =>
    cc ← u_write fd (take 512 buf);
    if cc <? 512 then ret total else full_write fuel' fd (total + cc) buf
  end.

Fixpoint full_files (fuel : nat) (n : nat) (buf : list Z) : M S nat :=
  match fuel with
  | O => nofuel
  | Datatypes.S fuel' =>
    say 1 "writing %s" [UStr (Some (full_name n))] ;;
    fd ← u_open (full_name n) CREATE_RDWR;
    if fd <? 0 then say 1 "open %s failed" [UStr (Some (full_name n))] ;; ret n else
    total ← full_write fuel' fd 0 buf;
    say 1 "wrote %d bytes" [UInt total] ;;
    u_close fd ;;
    if total =? 0 then ret n else full_files fuel' (n + 1) buf
  end.

Definition fsfull (fuel : nat) (buf : list Z) : M S unit :=
  say 1 "fsfull test" [] ;;
  n ← full_files fuel 0 buf;
  for_ (rev (seq 0 (n + 1))) (fun k => u_unlink (full_name k) ;; ret tt) ;;
  say 1 "fsfull test finished" [].

Definition uio : M S unit :=
  say 1 "uio test" [] ;;
  pid ← u_fork;
  (if pid =? 0 then
     u_outb 0x70 9 ;;
     u_inb 0x71 ;;
     say 1 "uio: uio succeeded; test FAILED" [] ;;
     u_exit
   else when (pid <? 0) (fail 1 "fork failed" [])) ;;
  u_wait ;;
  say 1 "uio test done" [].

Definition argptest : M S unit :=
  fd ← u_open (str "init") O_RDONLY;
  when (fd <? 0) (fail 2 "open failed" []) ;;
  b ← u_sbrk 0;
  u_read_to fd (u32 (b - 1)) (-1) ;;
  u_close fd ;;
  say 1 "arg test passed" [].

(** rand: the new randstate, which is the number returned. *)
Definition rand (randstate : Z) : Z := u32 (randstate * 1664525 + 1013904223).

(** main: [buf] and [uninit] are the arrays, [de] what the stack holds where concreate has its entry. *)
Definition usertests_main (fuel : nat) (buf uninit de : list Z) : M S unit :=
  say 1 "usertests starting" [] ;;
  fd ← u_open (str "usertests.ran") 0;
  when (0 <=? fd) (fail 1 "already ran user tests -- rebuild fs.img" []) ;;
  fd ← u_open (str "usertests.ran") O_CREATE;
  u_close fd ;;
  argptest ;;
  createdelete ;;
  linkunlink ;;
  concreate fuel de ;;
  buf ← fourfiles fuel buf;
  sharedfd fuel ;;
  bigargtest ;;
  bigwrite buf ;;
  bigargtest ;;
  bsstest uninit ;;
  sbrktest fuel ;;
  validatetest ;;
  opentest ;;
  buf ← writetest buf;
  buf ← writetest1 fuel buf;
  createtest ;;
  openiputtest ;;
  exitiputtest ;;
  iputtest ;;
  mem fuel ;;
  buf ← pipe1 fuel buf;
  buf ← preempt buf;
  exitwait ;;
  rmdot ;;
  fourteen ;;
  buf ← bigfile fuel buf;
  buf ← subdir buf;
  buf ← linktest buf;
  buf ← unlinkread buf;
  dirfile ;;
  iref ;;
  forktest ;;
  bigdir ;;
  uio ;;
  exectest ;;
  u_exit.

(** ** forktest.c *)

(** Its own printf writes the format as it is. *)
Definition ft_printf (fd : Z) (msg : string) : M S unit := u_write fd (str msg ++ [10]) ;; ret tt.

Definition forktest_prog : M S unit :=
  ft_printf 1 "fork test" ;;
  n ← fork_loop 1000 0;
  when (n =? 1000) (ft_printf 1 "fork claimed to work N times!" ;; u_exit) ;;
  for_ (seq 0 (Z.to_nat n)) (fun _ => r ← u_wait; when (r <? 0) (ft_printf 1 "wait stopped early" ;; u_exit)) ;;
  r ← u_wait;
  when (negb (r =? -1)) (ft_printf 1 "wait got too many" ;; u_exit) ;;
  ft_printf 1 "fork test OK".

Definition forktest_main : M S unit := forktest_prog ;; u_exit.

(** ** stressfs.c *)

(** for(i = 0; i < 4; i++) if(fork() > 0) break; the result is i. *)
Fixpoint stress_fork (k : nat) (i : Z) : M S Z :=
  match k with
  | O => ret i
  | Datatypes.S k' => pid ← u_fork; if 0 <? pid then ret i else stress_fork k' (i + 1)
  end.

Definition stressfs_main : M S unit :=
  say 1 "stressfs starting" [] ;;
  let data := replicate 512 97 in
  i ← stress_fork 4 0;
  say 1 "write %d" [UInt i] ;;
  let path := str "stressfs" ++ [u8 (48 + i)] in
  fd ← u_open path CREATE_RDWR;
  for_ (seq 0 20) (fun _ => u_write fd data ;; ret tt) ;;
  u_close fd ;;
  say 1 "read" [] ;;
  fd ← u_open path O_RDONLY;
  for_ (seq 0 20) (fun _ => u_read fd 512 ;; ret tt) ;;
  u_close fd ;;
  u_wait ;;
  u_exit.
End tests.
