(* ===== verification/Usertestsok.v ===== *)
(** What the checks of the test programs accept: pipe1 accepts exactly the bytes its child writes; the check
    of writetest1 accepts most files that are too short, and createdelete leaves most of its files behind. *)

From stdpp Require Import base list gmap strings numbers.
From Stdlib Require Import ZArith Lia.
From S2P Require Import Prelude Bytes CString Itoa Kstate Inode User Usertests.
Open Scope Z_scope.

(** ** pipe1 *)

Lemma length_seq_bytes sq n : length (seq_bytes sq n) = n.
Proof. unfold seq_bytes. now rewrite length_fmap, length_seq. Qed.

Lemma seq_bytes_app sq a b : seq_bytes sq (a + b) = seq_bytes sq a ++ seq_bytes (sq + Z.of_nat a) b.
Proof.
  unfold seq_bytes. rewrite seq_app, fmap_app. f_equal. apply list_eq. intros k. rewrite !list_lookup_fmap. destruct (decide (k < b)%nat) as [Hk|Hk].
  - rewrite !lookup_seq_lt by done. cbn. do 2 f_equal. lia.
  - now rewrite !lookup_seq_ge by lia.
Qed.

Lemma seq_bytes_split sq xs ys : xs ++ ys = seq_bytes sq (length (xs ++ ys)) <-> xs = seq_bytes sq (length xs) /\ ys = seq_bytes (sq + Z.of_nat (length xs)) (length ys).
Proof.
  rewrite length_app, seq_bytes_app. split; [|now intros [<- <-]]. intros E. apply app_inj_1 in E; [done|now rewrite length_seq_bytes].
Qed.

Lemma pipe1_check_spec l : forall sq, bytes_ok l -> pipe1_check sq l = bool_decide (l = seq_bytes sq (length l)).
Proof.
  induction l as [|b l IH]; intros sq Hb; [done|]. apply list.Forall_cons in Hb as [Hb Hl]. cbn [pipe1_check length]. rewrite (IH _ Hl).
  change (Datatypes.S (length l)) with (1 + length l)%nat. rewrite seq_bytes_app. change (seq_bytes sq 1) with [u8 (sq + 0)]. rewrite Z.add_0_r.
  change 255 with (Z.ones 8). rewrite !Z.land_ones by lia. change (2 ^ 8) with 256. rewrite (Z.mod_small b) by apply Hb.
  change (sq mod 256) with (u8 sq). change (Z.of_nat 1) with 1. cbn [app]. destruct (Z.eqb_spec b (u8 sq)) as [->|Hne]; cbn [negb]; apply bool_decide_ext || symmetry.
  - split; [now intros <-|congruence].
  - apply bool_decide_eq_false_2. congruence.
Qed.

Lemma take_splice bs buf : take (length bs) (splice 0 bs buf) = bs.
Proof. unfold splice. rewrite take_0, app_nil_l. apply take_app_length. Qed.

Section pipe1.
Context {S : Type} `{Streams S}.

(** The parent of pipe1 reads the pipe to its end, however the bytes are cut into reads, and finds an error
    unless they are the expected ones. *)
Lemma wp_pipe1_read fd l : forall fuel sq cc total buf o s, bytes_ok l -> Z.of_nat (length buf) = 8192 -> 0 < cc <= 8192 ->
  inp fd l s -> out 1 o s -> (length l < fuel)%nat ->
  wp (pipe1_read fuel fd sq cc total buf) (fun r s' => out 1 (if decide (l = seq_bytes sq (length l)) then o else o ++ str "pipe1 oops 2" ++ [10]) s' /\
    r.1 = if decide (l = seq_bytes sq (length l)) then Some (total + Z.of_nat (length l)) else None) s.
Proof.
  induction l as [l IH] using (induction_ltof1 _ (@length Z)). unfold ltof in IH.
  intros [|fuel] sq cc total buf o s Hb Hlen Hcc Hi Ho Hf; [lia|]. cbn [pipe1_read]. wp_steps.
  eapply wp_mono; [apply (read_inp fd cc l); [lia|exact Hi]|]. intros r s1 (k & -> & Hk & Hpos & Hi1 & Ho1). cbn beta iota.
  apply wp_if_false; [rewrite length_take; lia|]. destruct (decide (l = [])) as [->|Hl].
  { rewrite take_nil. cbn [length]. apply wp_if_true; [done|]. wp_steps. cbn. split; [now apply Ho1|f_equal; lia]. }
  specialize (Hpos Hl). assert (0 < length l)%nat as Hll by (destruct l; [done|cbn; lia]). rewrite <- (take_drop k l) in Hb.
  apply Forall_app in Hb as [Hb1 Hb2]. assert (length (take k l) = Nat.min k (length l)) as Ek by apply length_take.
  assert (length l = length (take k l) + length (drop k l))%nat as El by (rewrite <- length_app; now rewrite take_drop).
  apply wp_if_false; [lia|]. rewrite Nat2Z.id, take_splice, pipe1_check_spec by done.
  pose proof (seq_bytes_split sq (take k l) (drop k l)) as Hsp. rewrite take_drop in Hsp.
  destruct (decide (take k l = seq_bytes sq (length (take k l)))) as [E1|E1].
  - rewrite bool_decide_eq_true_2 by exact E1. cbn [negb]. eapply wp_mono; [apply (IH (drop k l)) with (o := o)|].
    + rewrite Ek in El. lia.
    + done.
    + rewrite length_splice by lia. done.
    + lia.
    + done.
    + now apply Ho1.
    + lia.
    + intros r s2 [R1 R2]. destruct (decide (drop k l = _)) as [E2|E2].
      * destruct (decide (l = _)); [|exfalso; tauto]. split; [done|]. rewrite R2. f_equal. lia.
      * destruct (decide (l = _)); [exfalso; tauto|done].
  - rewrite bool_decide_eq_false_2 by exact E1. cbn [negb]. destruct (decide (l = _)); [exfalso; tauto|]. wp_steps.
    eapply (wp_printf 1 _ _ _ o); [reflexivity|now apply Ho1|]. intros s2 Ho2 _. wp_steps. split; [exact Ho2|done].
Qed.

Lemma wp_pipe1_write fd : forall k sq buf o s, out fd o s ->
  wp (pipe1_write k fd sq buf) (fun _ s' => out fd (o ++ seq_bytes sq (k * 1033)) s') s.
Proof.
  induction k as [|k IH]; intros sq buf o s Ho; cbn [pipe1_write]; wp_steps; [now rewrite app_nil_r|].
  assert (take 1033 (splice 0 (seq_bytes sq 1033) buf) = seq_bytes sq 1033) as ->
    by (rewrite <- (length_seq_bytes sq 1033) at 1; apply take_splice).
  eapply wp_mono; [apply (write_out fd (seq_bytes sq 1033) o); [done|exact Ho]|]. intros w s1 (-> & Ho1 & _).
  rewrite length_seq_bytes. wp_steps. apply wp_when; [done|]. intros _. wp_steps. eapply wp_mono; [apply (IH _ _ _ _ Ho1)|].
  intros u s2 Ho2. change (Datatypes.S k * 1033)%nat with (1033 + k * 1033)%nat. now rewrite seq_bytes_app, app_assoc.
Qed.

(** The bytes that pass through the pipe of pipe1. *)
Definition pipe1_bytes : list Z := seq_bytes 0 (5 * 1033).

(** C38: pipe1 is an exact test of a pipe: its child writes the bytes 0, 1, ... up to 5165 of them (modulo 256), and its
    parent, however the pipe cuts them into reads, finds the right total exactly when it receives these bytes,
    in this order, and then the end of the pipe. *)
Theorem pipe1_exact fdw fdr l fuel buf o o' s s' : bytes_ok l -> Z.of_nat (length buf) = 8192 -> out fdw o' s' ->
  inp fdr l s -> out 1 o s -> (length l < fuel)%nat ->
  wp (pipe1_write 5 fdw 0 buf) (fun _ s2 => out fdw (o' ++ pipe1_bytes) s2) s' /\
  wp (pipe1_read fuel fdr 0 1 0 buf) (fun r _ => r.1 = Some (5 * 1033) <-> l = pipe1_bytes) s.
Proof.
  intros Hb Hlen Ho' Hi Ho Hf. split; [now apply wp_pipe1_write|].
  eapply wp_mono; [apply (wp_pipe1_read fdr l fuel 0 1 0 buf o s); (done || lia)|]. intros r s2 [_ ->].
  assert (length pipe1_bytes = 5 * 1033)%nat as Hn by apply length_seq_bytes. split.
  - destruct (decide (l = _)) as [E|E]; [|done]. intros [= E2]. unfold pipe1_bytes. rewrite E. f_equal. lia.
  - intros ->. rewrite decide_True by (rewrite Hn; done). rewrite Hn. f_equal.
Qed.
End pipe1.

(** A short stream is enough to see the test reject it. *)
Lemma pipe1_exact_witness :
  wp (pipe1_read 4 0 0 1 0 (replicate (Z.to_nat 8192) 0)) (fun r _ => ~ r.1 = Some (5 * 1033)) (mk_sstate {[ 0 := [0; 1; 2] ]} ∅ [] [] : sstate true).
Proof.
  eapply wp_mono; [apply (pipe1_exact 5 0 [0; 1; 2] 4 (replicate (Z.to_nat 8192) 0) [] [] (mk_sstate {[ 0 := [0; 1; 2] ]} ∅ [] [] : sstate true) (mk_sstate ∅ ∅ [] []))|];
    [repeat constructor; done|now rewrite length_replicate|reflexivity|reflexivity|reflexivity|cbn; lia|].
  cbn beta. intros r s' [H _] E. apply H in E. apply (f_equal length) in E. unfold pipe1_bytes in E. rewrite length_seq_bytes in E. cbn [length] in E. lia.
Defined.

(** ** writetest1 *)

(** The first [k] blocks of the file that writetest1 writes into an array of zeros. *)
Definition big_block (i : nat) : list Z := le_bytes 4 (Z.of_nat i) ++ replicate 508 0.
Definition big_file (i k : nat) : list Z := concat (big_block <$> seq i k).

Lemma length_big_block i : length (big_block i) = 512%nat.
Proof. unfold big_block. now rewrite length_app, length_le_bytes, length_replicate. Qed.

Lemma buf_int_block i buf : Z.of_nat i < 2 ^ 31 -> buf_int (splice 0 (big_block i) buf) = Z.of_nat i.
Proof.
  intros Hi. unfold buf_int, rd32, splice, slice, big_block. rewrite take_0, drop_0, app_nil_l, <- app_assoc.
  rewrite take_app_length' by now rewrite length_le_bytes. rewrite le_val_le_bytes. change (256 ^ Z.of_nat 4) with 4294967296. word_lia.
Qed.

Section big.
Context {S : Type} `{FullReads S}.

Lemma wp_big_read fd : forall k fuel i buf o s, Z.of_nat (length buf) = 8192 -> Z.of_nat i + Z.of_nat k < 2 ^ 31 ->
  inp fd (big_file i k) s -> out 1 o s -> (k < fuel)%nat -> Z.of_nat i + Z.of_nat k <> MAXFILE - 1 ->
  wp (big_read fuel fd (Z.of_nat i) buf) (fun _ s' => out 1 o s') s.
Proof.
  induction k as [|k IH]; intros [|fuel] i buf o s Hlen Hmax Hi Ho Hf Hne; try lia; cbn [big_read]; wp_steps.
  - eapply wp_mono; [apply (read_full fd 512 []); [lia|exact Hi]|]. intros r s1 (-> & _ & Ho1). cbn beta iota. rewrite take_nil. cbn [length].
    apply wp_if_true; [done|]. apply wp_if_false; [lia|]. wp_steps. now apply Ho1.
  - unfold big_file in Hi. cbn [seq fmap list_fmap concat] in Hi. eapply wp_mono; [apply (read_full fd 512); [lia|exact Hi]|].
    intros r s1 (-> & Hi1 & Ho1). change (Z.to_nat 512) with 512%nat in *.
    rewrite drop_app_length' in Hi1 by now rewrite length_big_block. rewrite take_app_length' by now rewrite length_big_block. cbn beta iota. rewrite length_big_block.
    change (Z.of_nat 512) with 512. cbn [Z.eqb Pos.eqb negb]. wp_steps. rewrite buf_int_block by lia. rewrite Z.eqb_refl. cbn [negb]. wp_steps.
    replace (Z.of_nat i + 1) with (Z.of_nat (Datatypes.S i)) by lia. apply (IH fuel); [|lia|exact Hi1|now apply Ho1|lia|lia].
    rewrite length_splice; [done|]. rewrite length_big_block. lia.
Qed.

(** The check of writetest1 misses files that are too short: given a file of only [k] of its 140 blocks, it
    goes on as if all of them were there, unless exactly one is missing. *)
Theorem writetest1_misses_short_file fd k fuel buf o s : (k < 139)%nat -> Z.of_nat (length buf) = 8192 ->
  inp fd (big_file 0 k) s -> out 1 o s -> (k < fuel)%nat ->
  wp (big_read fuel fd 0 buf) (fun _ s' => out 1 o s') s.
Proof. intros Hk Hlen Hi Ho Hf. apply (wp_big_read fd k fuel 0); try done; change (MAXFILE - 1) with 139; lia. Qed.
End big.

Lemma writetest1_misses_short_file_witness :
  wp (big_read 5 0 0 (replicate (Z.to_nat 8192) 0)) (fun _ s' => out 1 [] s') (mk_sstate {[ 0 := big_file 0 2 ]} ∅ [] [] : sstate false).
Proof.
  apply (writetest1_misses_short_file 0 2 5); [lia|now rewrite length_replicate|reflexivity|reflexivity|lia].
Defined.

(** ** createdelete *)

(** unlink removes no other name than the one it is given. *)
Class Names (S : Type) `{!Sys S} := {
  present : list Z -> S -> Prop;
  unlink_other : forall n n' s, n' <> n -> present n s -> wp (u_unlink n') (fun _ s' => present n s') s
}.

Section names.
Context {S : Type} `{Names S}.

Lemma wp_for_present {A} n (xs : list A) (body : A -> M S unit) :
  (forall x s, x ∈ xs -> present n s -> wp (body x) (fun _ s' => present n s') s) ->
  forall s, present n s -> wp (for_ xs body) (fun _ s' => present n s') s.
Proof.
  induction xs as [|x xs IH]; intros Hb s Hn; cbn [for_]; wp_steps; [done|]. eapply wp_mono; [apply Hb; [left|done]|].
  intros u s1 H1. apply IH; [|done]. intros y s2 Hy. apply Hb. now right.
Qed.

(** The loops at the end of createdelete build the name of a file from its number alone, where the file
    name has the number of the process first: they leave every file that process [pi] made, but for the file
    whose number is that of the process. *)
Theorem createdelete_leaves_files pi i s : (pi < 4)%nat -> (i < 20)%nat -> i <> pi ->
  present (cd_name pi i) s -> wp cd_cleanup (fun _ s' => present (cd_name pi i) s') s.
Proof.
  intros Hp Hi Hne. apply wp_for_present. intros j s1 Hj H1. revert s1 H1. apply wp_for_present. intros q s1 _ H1. wp_steps.
  assert ([u8 (112 + Z.of_nat j); 48 + Z.of_nat j] <> cd_name pi i) as Hn.
  { intros [= E1 E2]. apply elem_of_seq in Hj. unfold u8 in E1. rewrite Z.mod_small in E1; lia. }
  eapply wp_mono; [apply (unlink_other _ _ _ Hn H1)|]. intros r s2 H2. now wp_steps.
Qed.
End names.
