(* ===== verification/Shparse.v ===== *)
(** The parser of the shell is correct.

    The grammar of command lines is an inductive definition over tokens; the parser of Shell.v
    accepts exactly the lines of the grammar, with the tree the grammar gives them, and reports an
    error on the others. *)

From stdpp Require Import base list sets strings numbers.
From Stdlib Require Import ZArith Lia.
From S2P Require Import Prelude CString Itoa Kstate User Shell.
Open Scope Z_scope.

#[local] Arguments Nat.leb : simpl never.

(** ** The grammar *)

(** A redirection: a token < or > or >>, and the file. *)
Inductive gredirs : list token -> list token -> Prop :=
| gr_nil : gredirs [] []
| gr_cons op w file ts rs : op = 60 \/ op = 62 \/ op = 43 -> gredirs ts rs ->
    gredirs ((op, w) :: (97, file) :: ts) ((op, file) :: rs).

(** Arguments, each followed by redirections. *)
Inductive gargs : list token -> list word -> list token -> Prop :=
| ga_nil : gargs [] [] []
| ga_cons w ts rs ts' argv rs' : gredirs ts rs -> gargs ts' argv rs' ->
    gargs ((97, w) :: ts ++ ts') (w :: argv) (rs ++ rs').

Fixpoint gback (ts : list token) (c : cmd) : cmd :=
  match ts with [] => c | _ :: ts => gback ts (BACK c) end.

Inductive gline : list token -> cmd -> Prop :=
| gl_end ts c bs : gpipe ts c -> Forall (fun t : token => t.1 = 38) bs -> gline (ts ++ bs) (gback bs c)
| gl_list ts c bs w ts2 c2 : gpipe ts c -> Forall (fun t : token => t.1 = 38) bs -> gline ts2 c2 ->
    gline (ts ++ bs ++ (59, w) :: ts2) (LIST (gback bs c) c2)
with gpipe : list token -> cmd -> Prop :=
| gp_one ts c : gexec ts c -> gpipe ts c
| gp_pipe ts c w ts2 c2 : gexec ts c -> gpipe ts2 c2 -> gpipe (ts ++ (124, w) :: ts2) (PIPE c c2)
with gexec : list token -> cmd -> Prop :=
| ge_simple ts rs ts2 argv rs2 : gredirs ts rs -> gargs ts2 argv rs2 -> (length argv < MAXARGS)%nat ->
    gexec (ts ++ ts2) (redirs (rs ++ rs2) (EXEC argv))
| ge_block w ts c w2 ts2 rs : gline ts c -> gredirs ts2 rs ->
    gexec ((40, w) :: ts ++ (41, w2) :: ts2) (redirs rs c).

Scheme gline_rec := Minimality for gline Sort Prop
with gpipe_rec := Minimality for gpipe Sort Prop
with gexec_rec := Minimality for gexec Sort Prop.
Combined Scheme grammar_ind from gline_rec, gpipe_rec, gexec_rec.

(** The words of a command. *)
Fixpoint words (c : cmd) : list word :=
  match c with
  | EXEC argv => argv
  | REDIR c file _ _ => words c ++ [file]
  | PIPE l r | LIST l r => words l ++ words r
  | BACK c => words c
  end.

Lemma words_redirs rs : forall c, words (redirs rs c) = words c ++ rs.*2.
Proof.
  induction rs as [|r rs IH]; intros c; simpl; [now rewrite app_nil_r|]. unfold redirs in IH. rewrite IH.
  replace (words (redircmd c r)) with (words c ++ [r.2]); [now rewrite <- app_assoc|]. unfold redircmd. now destruct (_ =? 60).
Qed.

Lemma words_gback bs : forall c, words (gback bs c) = words c.
Proof. induction bs as [|b bs IH]; intros c; simpl; [done|]. now rewrite IH. Qed.

Lemma gredirs_words ts rs : gredirs ts rs -> forall w, w ∈ rs.*2 -> (97, w) ∈ ts.
Proof. induction 1 as [|op w file ts rs _ _ IH]; intros x; simpl; [set_solver|]. rewrite !elem_of_cons. naive_solver. Qed.

Lemma gargs_words ts argv rs : gargs ts argv rs -> forall w, w ∈ argv \/ w ∈ rs.*2 -> (97, w) ∈ ts.
Proof.
  induction 1 as [|w ts rs ts' argv rs' Hr _ IH]; intros x; [set_solver|]. rewrite fmap_app, !elem_of_cons, !elem_of_app.
  pose proof (gredirs_words _ _ Hr x). specialize (IH x). naive_solver.
Qed.

(** The words of the tree are words of the line. *)
Lemma grammar_words :
  (forall ts c, gline ts c -> forall w, w ∈ words c -> (97, w) ∈ ts) /\
  (forall ts c, gpipe ts c -> forall w, w ∈ words c -> (97, w) ∈ ts) /\
  (forall ts c, gexec ts c -> forall w, w ∈ words c -> (97, w) ∈ ts).
Proof.
  apply grammar_ind; intros; rewrite ?words_redirs, ?words_gback in *; simpl in *;
    repeat rewrite ?elem_of_app, ?elem_of_cons, ?fmap_app, ?words_gback in *.
  1-4: naive_solver.
  - pose proof (gredirs_words _ _ H w). pose proof (gargs_words _ _ _ H0 w). naive_solver.
  - pose proof (gredirs_words _ _ H1 w0). naive_solver.
Qed.

(** ** The tokens of a buffer *)

Lemma span_le f l : (span f l <= length l)%nat.
Proof. induction l; simpl; [lia|]. case_match; simpl; lia. Qed.

Lemma span_drop f l : span f (drop (span f l) l) = O.
Proof. induction l as [|c l IH]; simpl; [done|]. destruct (f c) eqn:E; simpl; [done|]. now rewrite E. Qed.

Lemma span_stop f l c : drop (span f l) l = c :: tl (drop (span f l) l) -> f c = false.
Proof.
  intros E. pose proof (span_drop f l) as H. rewrite E in H. simpl in H. now destruct (f c).
Qed.

Section tokens.
Context (buf : list Z).
Hypothesis Hbuf : 0 ∉ buf.
Abbreviation len := (length buf).

Lemma skip_white_le s : (s <= len)%nat -> (s <= skip_white buf s <= len)%nat.
Proof. intros H. unfold skip_white. pose proof (span_le is_white (drop s buf)). rewrite length_drop in *. lia. Qed.

Lemma skip_white_idem s : skip_white buf (skip_white buf s) = skip_white buf s.
Proof.
  unfold skip_white at 1. rewrite <- (Nat.add_0_r (skip_white buf s)) at 3. f_equal.
  unfold skip_white. rewrite <- drop_drop. apply span_drop.
Qed.

Lemma scan_skip s : scan buf (skip_white buf s) = scan buf s.
Proof. unfold scan. now rewrite skip_white_idem. Qed.

Lemma char_at_0 s : (s <= len)%nat -> char_at buf s = 0 <-> s = len.
Proof.
  intros Hs. unfold char_at. split.
  - intros H. destruct (buf !! s) as [c|] eqn:E; [|apply lookup_ge_None in E; lia].
    simpl in H. subst. now apply list_elem_of_lookup_2 in E.
  - intros ->. now rewrite lookup_ge_None_2 by lia.
Qed.

Lemma char_lt s : char_at buf s <> 0 -> (s < len)%nat.
Proof.
  unfold char_at. intros H. apply lookup_lt_is_Some. destruct (buf !! s); [eauto|done].
Qed.

(** A word: no blank or symbol in it, and it ends before one or at the end of the buffer. *)
Definition word_char (c : Z) : bool := negb (is_white c) && negb (is_symbol c).
Definition word_ok (w : word) : Prop :=
  (w.1 < w.2 <= len)%nat /\ (forall i, (w.1 <= i < w.2)%nat -> word_char (char_at buf i) = true) /\
  (w.2 = len \/ word_char (char_at buf w.2) = false).

(** The character a token begins with, for the tokens that are not words. *)
Definition tchar (r : Z) : Z := if r =? 43 then 62 else r.

Definition token_ok (s : nat) (t : token) : Prop :=
  t.2.1 = skip_white buf s /\ (t.2.1 < t.2.2 <= len)%nat /\ t.1 <> 0 /\
  (t.1 <> 97 -> char_at buf t.2.1 = tchar t.1 /\ t.1 ∈ [124; 40; 41; 59; 38; 60; 62; 43]) /\
  (t.1 = 97 -> word_ok t.2).

Lemma span_lookup f l i : (i < span f l)%nat -> exists c, l !! i = Some c /\ f c = true.
Proof.
  revert i. induction l as [|x l IH]; simpl; intros i Hi; [lia|]. destruct (f x) eqn:E; [|lia].
  destruct i; simpl; eauto with lia.
Qed.

Lemma span_end f l : span f l = length l \/ exists c, l !! span f l = Some c /\ f c = false.
Proof.
  induction l as [|x l IH]; simpl; [auto|]. destruct (f x) eqn:E; simpl; [|eauto].
  destruct IH as [->|IH]; auto.
Qed.

Lemma span_word_ok q : char_at buf q <> 0 -> word_char (char_at buf q) = true ->
  word_ok (q, (q + span word_char (drop q buf))%nat).
Proof.
  intros Hc Hw. apply char_lt in Hc. pose proof (span_le word_char (drop q buf)) as Hl. rewrite length_drop in Hl.
  split; simpl.
  - split; [|lia]. destruct (drop q buf) as [|c l] eqn:E.
    + apply (f_equal length) in E. rewrite length_drop in E. simpl in E. lia.
    + simpl. replace c with (char_at buf q); [rewrite Hw; lia|]. unfold char_at.
      replace (buf !! q) with (Some c); [done|]. rewrite <- (Nat.add_0_r q), <- lookup_drop, E. done.
  - split.
    + intros i Hi. destruct (span_lookup word_char (drop q buf) (i - q)) as (c & E & Ec); [lia|].
      rewrite lookup_drop in E. replace (q + (i - q))%nat with i in E by lia. unfold char_at. now rewrite E.
    + destruct (span_end word_char (drop q buf)) as [->|(c & E & Ec)]; [left; rewrite length_drop; lia|right].
      rewrite lookup_drop in E. unfold char_at. now rewrite E.
Qed.

Lemma skip_not_white s : is_white (char_at buf (skip_white buf s)) = false.
Proof.
  unfold char_at, skip_white. destruct (span_end is_white (drop s buf)) as [->|(c & E & Ec)].
  - rewrite lookup_ge_None_2; [done|]. rewrite length_drop. lia.
  - rewrite lookup_drop in E. now rewrite E.
Qed.

Lemma is_symbol_spec c : is_symbol c = true <-> c ∈ [60; 124; 62; 38; 59; 40; 41].
Proof.
  unfold is_symbol. rewrite bool_decide_eq_true. cbn -[Z.eqb is_Some]. rewrite !elem_of_cons, elem_of_nil.
  repeat case_match; rewrite ?Z.eqb_eq, ?Z.eqb_neq in *; (split; [try (intros [? ?])|]); try discriminate; try lia; eauto.
Qed.

Lemma scan_spec s : (s <= len)%nat ->
  (scan buf s = ((0, (len, len)), len) /\ skip_white buf s = len) \/
  exists t, scan buf s = (t, skip_white buf t.2.2) /\ token_ok s t.
Proof.
  intros Hs. pose proof (skip_white_le s Hs) as Hq. pose proof (skip_not_white s) as Hnw. unfold scan.
  set (q := skip_white buf s) in *. destruct (Z.eqb_spec (char_at buf q) 0) as [C|C].
  { apply char_at_0 in C; [|lia]. left. rewrite C. split; [|done]. f_equal. pose proof (skip_white_le len). lia. }
  right. apply char_lt in C as Hlt. destruct (_ || _) eqn:Es.
  { exists (char_at buf q, (q, S q)). split; [reflexivity|]. unfold token_ok. cbn [fst snd].
    split; [done|]. split; [lia|]. split; [done|]. split; [intros _|intros E; lia]. unfold tchar.
    destruct (Z.eqb_spec (char_at buf q) 43); [lia|]. split; [done|].
    assert (char_at buf q = 124 \/ char_at buf q = 40 \/ char_at buf q = 41 \/ char_at buf q = 59 \/
      char_at buf q = 38 \/ char_at buf q = 60) as H by lia. rewrite !elem_of_cons. tauto. }
  destruct (Z.eqb_spec (char_at buf q) 62) as [C2|C2].
  { destruct (Z.eqb_spec (char_at buf (S q)) 62) as [D|D].
    - assert (S q < len)%nat by (apply char_lt; lia).
      exists (43, (q, S (S q))). split; [reflexivity|]. unfold token_ok. simpl. repeat split; try lia; auto. set_solver.
    - exists (62, (q, S q)). split; [reflexivity|]. unfold token_ok. simpl. repeat split; try lia; auto. set_solver. }
  exists (97, (q, (q + span word_char (drop q buf))%nat)). split; [reflexivity|]. assert (is_symbol (char_at buf q) = false) as Hsym.
  { apply not_true_is_false. rewrite is_symbol_spec, !elem_of_cons, elem_of_nil. lia. }
  pose proof (span_word_ok q C ltac:(unfold word_char; now rewrite Hnw, Hsym)) as Hw.
  unfold token_ok. simpl. split; [done|]. split; [apply Hw|]. split; [done|]. split; [done|]. intros _. exact Hw.
Qed.

(** The tokens from [s] on. *)
Fixpoint lex (n : nat) (s : nat) : list token :=
  match n with
  | O => []
  | S n => let '(t, s') := scan buf s in if t.1 =? 0 then [] else t :: lex n s'
  end.
Definition tokens (s : nat) : list token := lex (S (len - s)) s.

Lemma lex_enough n s : (s <= len)%nat -> (len - s < n)%nat -> lex n s = tokens s.
Proof.
  unfold tokens. remember (S (len - s)) as m eqn:Em. intros Hs Hn. assert (len - s < m)%nat as Hm by lia. clear Em.
  revert m s Hs Hn Hm. induction n as [|n IH]; intros m s Hs Hn Hm; [lia|]. destruct m as [|m]; [lia|]. simpl.
  destruct (scan_spec s Hs) as [[-> _]|(t & -> & Hq & Ht & H0 & _)]; [done|].
  destruct (Z.eqb_spec t.1 0); [done|]. f_equal. pose proof (skip_white_le s Hs). pose proof (skip_white_le t.2.2 ltac:(lia)).
  apply IH; lia.
Qed.

Lemma tokens_end s : (s <= len)%nat -> tokens s = [] <-> skip_white buf s = len.
Proof.
  intros Hs. unfold tokens. simpl. destruct (scan_spec s Hs) as [[-> H]|(t & -> & Hq & Ht & H0 & _)].
  - done.
  - destruct (Z.eqb_spec t.1 0); [done|]. split; [done|]. lia.
Qed.

Lemma tokens_skip s : (s <= len)%nat -> tokens (skip_white buf s) = tokens s.
Proof.
  intros Hs. pose proof (skip_white_le s Hs). rewrite <- (lex_enough (S (len - s)) (skip_white buf s)) by lia.
  unfold tokens. simpl. now rewrite scan_skip.
Qed.

(** [at_tokens s ts]: the pointer is in the buffer and [ts] is what follows. *)
Definition at_tokens (s : nat) (ts : list token) : Prop := (s <= len)%nat /\ tokens s = ts.

Lemma gettoken_end s : at_tokens s [] -> gettoken buf s = Ok (0, (len, len)) len.
Proof.
  intros [Hs E]. unfold gettoken. destruct (scan_spec s Hs) as [[-> _]|(t & Es & Hq & Ht & _)]; [done|].
  apply tokens_end in E; [|done]. lia.
Qed.

Lemma gettoken_next s t ts : at_tokens s (t :: ts) ->
  exists s', gettoken buf s = Ok t s' /\ at_tokens s' ts /\ token_ok s t.
Proof.
  intros [Hs E]. unfold gettoken, tokens in *. simpl in E.
  destruct (scan_spec s Hs) as [[Es _]|(t' & Es & Ht)]; rewrite Es in E; [done|]. pose proof Ht as (Hq & Ht2 & H0 & _).
  destruct (Z.eqb_spec t'.1 0); [done|]. injection E as -> <-. rewrite Es. exists (skip_white buf t.2.2).
  split; [done|]. split; [|done]. pose proof (skip_white_le s Hs). pose proof (skip_white_le t.2.2 ltac:(lia)).
  split; [lia|]. symmetry. apply lex_enough; lia.
Qed.

(** The next token has one of the codes. *)
Definition starts (codes : list Z) (ts : list token) : bool :=
  match ts with [] => false | t :: _ => existsb (Z.eqb t.1) codes end.

(** The characters [toks] begin the tokens with the codes [codes] and no other. *)
Definition toks_codes (toks codes : list Z) : bool :=
  forallb (fun r => eqb (existsb (Z.eqb (tchar r)) toks) (existsb (Z.eqb r) codes)) [124; 40; 41; 59; 38; 60; 62; 43] &&
  forallb is_symbol toks && negb (existsb (Z.eqb 97) codes).

Lemma strchr_existsb toks c : bool_decide (is_Some (strchr toks c)) = existsb (Z.eqb c) toks.
Proof.
  induction toks as [|x toks IH]; simpl; [done|]. rewrite (Z.eqb_sym c x). now destruct (x =? c).
Qed.

Lemma peek_ok toks codes s ts : toks_codes toks codes = true -> at_tokens s ts ->
  exists s', peek buf toks s = Ok (starts codes ts) s' /\ at_tokens s' ts.
Proof.
  intros Hc [Hs E]. pose proof (skip_white_le s Hs) as Hq. exists (skip_white buf s).
  split; [|split; [lia|now rewrite tokens_skip]]. unfold peek. f_equal. rewrite strchr_existsb. destruct ts as [|t ts].
  { apply tokens_end in E; [|done]. rewrite E. replace (char_at buf len) with 0; [done|].
    symmetry. now apply char_at_0. }
  destruct (gettoken_next s t ts) as (_ & _ & _ & E1 & E2 & E3 & E4 & E5); [done|]. rewrite <- E1.
  apply andb_prop in Hc as [[Hc1 Hc2]%andb_prop Hc3].
  assert (char_at buf t.2.1 <> 0) as H0 by (rewrite char_at_0 by lia; lia).
  destruct (Z.eqb_spec (char_at buf t.2.1) 0); [done|]. simpl. destruct (decide (t.1 = 97)) as [Ew|Ew].
  - rewrite Ew. apply negb_true_iff in Hc3. rewrite Hc3. apply not_true_is_false. intros (c & Hin & Ec%Z.eqb_eq)%existsb_exists.
    rewrite forallb_forall in Hc2. specialize (Hc2 c Hin). destruct (E5 Ew) as (_ & Hw & _).
    specialize (Hw t.2.1 ltac:(lia)). unfold word_char in Hw. rewrite Ec, Hc2, andb_false_r in Hw. done.
  - destruct (E4 Ew) as [-> Hin]. rewrite forallb_forall in Hc1. apply eqb_prop, Hc1. now apply list_elem_of_In.
Qed.

(** ** The parser accepts only the grammar, and terminates *)

(** [m] returns with [Q] or reports an error. *)
Definition prs {A} (m : M nat A) (Q : A -> nat -> Prop) (s : nat) : Prop :=
  match m s with Ok a s' => Q a s' | Panic _ => True | _ => False end.

Lemma prs_bind {A B} (m : M nat A) (k : A -> M nat B) Q s :
  prs m (fun a s' => prs (k a) Q s') s -> prs (m ≫= k) Q s.
Proof. unfold prs, mbind, M_bind, bind. now destruct (m s). Qed.

Lemma prs_mono {A} (m : M nat A) (Q Q' : A -> nat -> Prop) s :
  prs m Q s -> (forall a s', Q a s' -> Q' a s') -> prs m Q' s.
Proof. unfold prs. destruct (m s); auto. Qed.

Lemma prs_ret {A} (a : A) (Q : A -> nat -> Prop) s : Q a s -> prs (ret a) Q s.
Proof. exact id. Qed.

Lemma prs_peek toks codes (Q : bool -> nat -> Prop) s ts : toks_codes toks codes = true -> at_tokens s ts ->
  (forall s', at_tokens s' ts -> Q (starts codes ts) s') -> prs (peek buf toks) Q s.
Proof. intros Hc Hs HQ. destruct (peek_ok toks codes s ts Hc Hs) as (s' & E & Hs'). unfold prs. rewrite E. auto. Qed.

Lemma prs_gettoken (Q : token -> nat -> Prop) s t ts : at_tokens s (t :: ts) ->
  (forall s', at_tokens s' ts -> token_ok s t -> Q t s') -> prs (gettoken buf) Q s.
Proof. intros Hs HQ. destruct (gettoken_next s t ts Hs) as (s' & E & Hs' & Ht). unfold prs. rewrite E. auto. Qed.

Lemma prs_gettoken_end (Q : token -> nat -> Prop) s : at_tokens s [] ->
  (at_tokens len [] -> Q (0, (len, len)) len) -> prs (gettoken buf) Q s.
Proof.
  intros Hs HQ. unfold prs. rewrite (gettoken_end s Hs). apply HQ. split; [done|]. apply tokens_end; [done|].
  pose proof (skip_white_le len). lia.
Qed.

(** What a parser function does: it reads some tokens and leaves the others. *)
Definition reads {A} (G : list token -> A -> Prop) (ts : list token) (a : A) (s' : nat) : Prop :=
  exists ts1 ts2, ts = ts1 ++ ts2 /\ G ts1 a /\ at_tokens s' ts2.

Lemma parseredirs_sound fuel : forall s ts, at_tokens s ts -> (length ts < fuel)%nat ->
  prs (parseredirs buf fuel) (reads gredirs ts) s.
Proof.
  induction fuel as [|fuel IH]; intros s ts Hs Hf; [lia|]. simpl. apply prs_bind.
  apply (prs_peek _ [60; 62; 43] _ _ ts); [done|done|]. intros s1 H1. destruct (starts _ ts) eqn:E; simpl.
  2: { apply prs_ret. exists [], ts. split; [done|]. split; [constructor|done]. }
  destruct ts as [|[op w] ts]; [done|]. apply prs_bind, (prs_gettoken _ _ _ _ H1). intros s2 H2 _. apply prs_bind.
  destruct ts as [|[r file] ts]; [now apply prs_gettoken_end|]. apply (prs_gettoken _ _ _ _ H2). intros s3 H3 _. simpl.
  destruct (Z.eqb_spec r 97) as [->|]; [|done]. simpl in *. apply prs_bind. eapply prs_mono; [apply (IH s3 ts H3); lia|].
  intros rs s4 (ts1 & ts2 & -> & Hg & H4). apply prs_ret. exists ((op, w) :: (97, file) :: ts1), ts2.
  split; [done|]. split; [|done]. constructor; [lia|done].
Qed.

(** The arguments and redirections that follow those already read. *)
Definition gmore (argv : list word) (rs : list token) (ts : list token) (r : list word * list token) : Prop :=
  exists argv' rs', gargs ts argv' rs' /\ r = (argv ++ argv', rs ++ rs') /\ (length r.1 < MAXARGS)%nat.

Lemma gmore_nil argv rs : (length argv < MAXARGS)%nat -> gmore argv rs [] (argv, rs).
Proof. intros H. exists [], []. rewrite !app_nil_r. split; [constructor|done]. Qed.

Lemma parseargs_sound fuel : forall argv rs s ts, at_tokens s ts -> (length ts < fuel)%nat -> (length argv < MAXARGS)%nat ->
  prs (parseargs buf fuel argv rs) (reads (gmore argv rs) ts) s.
Proof.
  induction fuel as [|fuel IH]; intros argv rs s ts Hs Hf Ha; [lia|]. simpl. apply prs_bind.
  apply (prs_peek _ [124; 41; 38; 59] _ _ ts); [done|done|]. intros s1 H1. destruct (starts _ ts) eqn:E.
  { apply prs_ret. exists [], ts. eauto using gmore_nil. }
  apply prs_bind. destruct ts as [|[r w] ts].
  { apply prs_gettoken_end; [done|]. intros H. apply prs_ret. exists [], []. eauto using gmore_nil. }
  apply (prs_gettoken _ _ _ _ H1). intros s2 H2 (_ & _ & H0 & _). cbn [fst snd length] in *. destruct (Z.eqb_spec r 0); [done|].
  destruct (Z.eqb_spec r 97) as [->|]; [|done]. cbn [negb]. destruct (Nat.leb_spec MAXARGS (length (argv ++ [w]))); [done|].
  apply prs_bind. eapply prs_mono; [apply (parseredirs_sound fuel s2 ts H2); lia|].
  intros rs' s3 (ts1 & ts2 & -> & Hg & H3). rewrite length_app in Hf.
  eapply prs_mono; [apply (IH (argv ++ [w]) (rs ++ rs') s3 ts2 H3); [lia|done]|].
  intros r s4 (ts3 & ts4 & -> & (argv' & rs2 & Hm & -> & Hl) & H4). exists ((97, w) :: ts1 ++ ts3), ts4.
  split; [simpl; now rewrite <- app_assoc|]. split; [|done]. exists (w :: argv'), (rs' ++ rs2).
  split; [now constructor|]. rewrite <- !app_assoc in Hl |- *. done.
Qed.

Definition gbacks (c : cmd) (bs : list token) (c' : cmd) : Prop :=
  Forall (fun t : token => t.1 = 38) bs /\ c' = gback bs c.

Lemma parseback_sound fuel : forall c s ts, at_tokens s ts -> (length ts < fuel)%nat ->
  prs (parseback buf fuel c) (reads (gbacks c) ts) s.
Proof.
  induction fuel as [|fuel IH]; intros c s ts Hs Hf; [lia|]. simpl. apply prs_bind.
  apply (prs_peek _ [38] _ _ ts); [done|done|]. intros s1 H1. destruct (starts _ ts) eqn:E; simpl.
  2: { apply prs_ret. exists [], ts. split; [done|]. split; [by split|done]. }
  destruct ts as [|[r w] ts]; [done|]. apply prs_bind, (prs_gettoken _ _ _ _ H1). intros s2 H2 _. simpl in *.
  eapply prs_mono; [apply (IH (BACK c) s2 ts H2); lia|]. intros c' s3 (bs & ts2 & -> & [Hb ->] & H3).
  exists ((r, w) :: bs), ts2. split; [done|]. split; [|done]. split; [|done]. constructor; [simpl; lia|done].
Qed.

(** One level of the recursive descent, given the functions with less fuel. *)
Section sound.
Context (fuel : nat).
Hypothesis IHline : forall s ts, at_tokens s ts -> (5 * length ts + 5 <= fuel)%nat -> prs (parseline buf fuel) (reads gline ts) s.
Hypothesis IHpipe : forall s ts, at_tokens s ts -> (5 * length ts + 4 <= fuel)%nat -> prs (parsepipe buf fuel) (reads gpipe ts) s.
Hypothesis IHexec : forall s ts, at_tokens s ts -> (5 * length ts + 3 <= fuel)%nat -> prs (parseexec buf fuel) (reads gexec ts) s.
Hypothesis IHblock : forall s ts, at_tokens s ts -> (5 * length ts + 2 <= fuel)%nat -> starts [40] ts = true ->
  prs (parseblock buf fuel) (reads gexec ts) s.

Lemma parseline_sound s ts : at_tokens s ts -> (5 * length ts + 4 <= fuel)%nat -> prs (parseline buf (S fuel)) (reads gline ts) s.
Proof.
  intros Hs Hf. simpl. apply prs_bind. eapply prs_mono; [apply (IHpipe s ts Hs); lia|].
  intros c s1 (ts1 & ts2 & -> & Hg & H1). rewrite length_app in Hf.
  apply prs_bind. eapply prs_mono; [apply (parseback_sound fuel c s1 ts2 H1); lia|].
  intros c' s2 (bs & ts3 & -> & [Hb ->] & H2). rewrite length_app in Hf. apply prs_bind, (prs_peek _ [59] _ _ ts3); [done|done|].
  intros s3 H3. destruct (starts _ ts3) eqn:E.
  - destruct ts3 as [|[r w] ts3]; [done|]. simpl in *. apply prs_bind, (prs_gettoken _ _ _ _ H3). intros s4 H4 _.
    apply prs_bind. eapply prs_mono; [apply (IHline s4 ts3 H4); lia|]. intros c2 s5 (ts4 & ts5 & -> & Hg2 & H5).
    apply prs_ret. exists (ts1 ++ bs ++ (59, w) :: ts4), ts5. assert (r = 59) as -> by lia.
    split; [now rewrite <- !app_assoc|]. split; [|done]. now constructor.
  - apply prs_ret. exists (ts1 ++ bs), ts3. split; [now rewrite <- app_assoc|]. split; [|done]. now constructor.
Qed.

Lemma parsepipe_sound s ts : at_tokens s ts -> (5 * length ts + 3 <= fuel)%nat -> prs (parsepipe buf (S fuel)) (reads gpipe ts) s.
Proof.
  intros Hs Hf. simpl. apply prs_bind. eapply prs_mono; [apply (IHexec s ts Hs); lia|].
  intros c s1 (ts1 & ts2 & -> & Hg & H1). rewrite length_app in Hf.
  apply prs_bind, (prs_peek _ [124] _ _ ts2); [done|done|]. intros s3 H3. destruct (starts _ ts2) eqn:E.
  - destruct ts2 as [|[r w] ts3]; [done|]. simpl in *. apply prs_bind, (prs_gettoken _ _ _ _ H3). intros s4 H4 _.
    apply prs_bind. eapply prs_mono; [apply (IHpipe s4 ts3 H4); lia|]. intros c2 s5 (ts4 & ts5 & -> & Hg2 & H5).
    apply prs_ret. exists (ts1 ++ (124, w) :: ts4), ts5. assert (r = 124) as -> by lia.
    split; [now rewrite <- !app_assoc|]. split; [|done]. now constructor.
  - apply prs_ret. exists ts1, ts2. split; [done|]. split; [|done]. now constructor.
Qed.

Lemma parseexec_sound s ts : at_tokens s ts -> (5 * length ts + 2 <= fuel)%nat -> prs (parseexec buf (S fuel)) (reads gexec ts) s.
Proof.
  intros Hs Hf. simpl. apply prs_bind, (prs_peek _ [40] _ _ ts); [done|done|]. intros s1 H1.
  destruct (starts _ ts) eqn:E; [apply (IHblock s1 ts H1); [lia|done]|].
  apply prs_bind. eapply prs_mono; [apply (parseredirs_sound fuel s1 ts H1); lia|]. intros rs s2 (ts1 & ts2 & -> & Hg & H2).
  rewrite length_app in Hf. apply prs_bind.
  eapply prs_mono; [apply (parseargs_sound fuel [] rs s2 ts2 H2); [lia|unfold MAXARGS; simpl; lia]|].
  intros [argv rs2] s3 (ts3 & ts4 & -> & (argv' & rs' & Hm & [= -> ->] & Hl) & H3). apply prs_ret. exists (ts1 ++ ts3), ts4.
  split; [now rewrite <- app_assoc|]. split; [|done]. now constructor.
Qed.

Lemma parseblock_sound s ts : at_tokens s ts -> (5 * length ts + 1 <= fuel)%nat -> starts [40] ts = true ->
  prs (parseblock buf (S fuel)) (reads gexec ts) s.
Proof.
  intros Hs Hf Hst. simpl. apply prs_bind, (prs_peek _ [40] _ _ ts); [done|done|]. intros s1 H1. rewrite Hst. simpl.
  destruct ts as [|[r w] ts]; [done|]. simpl in *. apply prs_bind, (prs_gettoken _ _ _ _ H1). intros s2 H2 _.
  apply prs_bind. eapply prs_mono; [apply (IHline s2 ts H2); lia|]. intros c s3 (ts1 & ts2 & -> & Hg & H3). rewrite length_app in Hf.
  apply prs_bind, (prs_peek _ [41] _ _ ts2); [done|done|]. intros s4 H4. destruct (starts _ ts2) eqn:E; [|done]. simpl.
  destruct ts2 as [|[r2 w2] ts2]; [done|]. simpl in *. apply prs_bind, (prs_gettoken _ _ _ _ H4). intros s5 H5 _.
  apply prs_bind. eapply prs_mono; [apply (parseredirs_sound fuel s5 ts2 H5); lia|]. intros rs s6 (ts3 & ts4 & -> & Hr & H6).
  apply prs_ret. exists ((40, w) :: ts1 ++ (41, w2) :: ts3), ts4. assert (r = 40) as -> by lia. assert (r2 = 41) as -> by lia.
  split; [simpl; now rewrite <- !app_assoc|]. split; [|done]. now constructor.
Qed.
End sound.

Lemma parse_sound fuel : forall s ts, at_tokens s ts ->
  ((5 * length ts + 5 <= fuel)%nat -> prs (parseline buf fuel) (reads gline ts) s) /\
  ((5 * length ts + 4 <= fuel)%nat -> prs (parsepipe buf fuel) (reads gpipe ts) s) /\
  ((5 * length ts + 3 <= fuel)%nat -> prs (parseexec buf fuel) (reads gexec ts) s) /\
  ((5 * length ts + 2 <= fuel)%nat -> starts [40] ts = true -> prs (parseblock buf fuel) (reads gexec ts) s).
Proof.
  induction fuel as [|fuel IH]; intros s ts Hs; [split; [|split; [|split]]; intros Hf; lia|].
  split; [|split; [|split]]; intros Hf.
  - apply parseline_sound; [intros s1 ts1 H1; apply (IH s1 ts1 H1)..|done|lia].
  - apply parsepipe_sound; [intros s1 ts1 H1; apply (IH s1 ts1 H1)..|done|lia].
  - apply parseexec_sound; [intros s1 ts1 H1; apply (IH s1 ts1 H1)..|done|lia].
  - apply parseblock_sound; [intros s1 ts1 H1; apply (IH s1 ts1 H1)..|done|lia].
Qed.

(** ** The parser accepts all of the grammar *)

Lemma wp_peek toks codes b (Q : bool -> nat -> Prop) s ts : toks_codes toks codes = true -> at_tokens s ts ->
  starts codes ts = b -> (forall s', at_tokens s' ts -> Q b s') -> wp (peek buf toks) Q s.
Proof. intros Hc Hs <- HQ. destruct (peek_ok toks codes s ts Hc Hs) as (s' & E & Hs'). eapply wp_eq; eauto. Qed.

Lemma wp_gettoken (Q : token -> nat -> Prop) s t ts : at_tokens s (t :: ts) ->
  (forall s', at_tokens s' ts -> Q t s') -> wp (gettoken buf) Q s.
Proof. intros Hs HQ. destruct (gettoken_next s t ts Hs) as (s' & E & Hs' & Ht). eapply wp_eq; eauto. Qed.

Lemma at_end : at_tokens len [].
Proof. split; [done|]. apply tokens_end; [done|]. pose proof (skip_white_le len). lia. Qed.

Lemma wp_gettoken_end (Q : token -> nat -> Prop) s : at_tokens s [] -> Q (0, (len, len)) len -> wp (gettoken buf) Q s.
Proof. intros Hs HQ. eapply wp_eq; [now apply gettoken_end|done]. Qed.

(** The rest of the line begins with one of the codes, or there is none. *)
Definition follow (codes : list Z) (rest : list token) : Prop := rest = [] \/ starts codes rest = true.

Lemma follow_not codes codes' rest : follow codes rest -> forallb (fun r => negb (existsb (Z.eqb r) codes')) codes = true ->
  starts codes' rest = false.
Proof.
  intros [->|H] Hd; [done|]. destruct rest as [|t rest]; [done|]. simpl in *. apply existsb_exists in H as (c & Hc & ->%Z.eqb_eq).
  rewrite forallb_forall in Hd. now apply negb_true_iff, Hd.
Qed.

Lemma starts_app codes ts rest : starts codes ts = true -> starts codes (ts ++ rest) = true.
Proof. now destruct ts. Qed.

(** [m] reads exactly the tokens [ts] before [rest] and returns [a]. *)
Definition takes {A} (m : M nat A) (ts rest : list token) (a : A) : Prop :=
  forall s, at_tokens s (ts ++ rest) -> wp m (fun a' s' => a' = a /\ at_tokens s' rest) s.

Lemma parseredirs_complete ts rs : gredirs ts rs -> forall fuel rest, starts [60; 62; 43] rest = false -> (length ts < fuel)%nat ->
  takes (parseredirs buf fuel) ts rest rs.
Proof.
  induction 1 as [|op w file ts rs Hop _ IH]; intros [|fuel] rest Hr Hf s Hs; simpl in *; try lia; wp_steps.
  - apply (wp_peek _ [60; 62; 43] false _ _ rest); [done..|]. intros s1 H1. simpl. wp_steps. done.
  - eapply (wp_peek _ [60; 62; 43] true); [done|exact Hs|simpl; lia|]. intros s1 H1. simpl. wp_steps.
    apply (wp_gettoken _ _ _ _ H1). intros s2 H2. wp_steps. apply (wp_gettoken _ _ _ _ H2). intros s3 H3. simpl. wp_steps.
    eapply wp_mono; [apply (IH fuel rest Hr ltac:(lia) s3 H3)|]. intros rs' s4 [-> H4]. wp_steps. done.
Qed.

Lemma gargs_starts ts argv rs codes : gargs ts argv rs -> existsb (Z.eqb 97) codes = false ->
  forall rest, starts codes rest = false -> starts codes (ts ++ rest) = false.
Proof. intros [|] Hc rest Hr; [done|exact Hc]. Qed.

Lemma parseargs_complete ts argv rs : gargs ts argv rs -> forall fuel rest argv0 rs0, follow [124; 41; 38; 59] rest ->
  (length ts < fuel)%nat -> (length (argv0 ++ argv) < MAXARGS)%nat ->
  takes (parseargs buf fuel argv0 rs0) ts rest (argv0 ++ argv, rs0 ++ rs).
Proof.
  induction 1 as [|w ts rs ts' argv rs' Hr Ha IH]; intros [|fuel] rest argv0 rs0 Hfol Hf Hl s Hs; simpl in Hf, Hs; try lia;
    simpl; wp_steps.
  - rewrite !app_nil_r. destruct Hfol as [->|Hfol].
    + apply (wp_peek _ [124; 41; 38; 59] false _ _ []); [done..|]. intros s1 H1. simpl. wp_steps.
      apply wp_gettoken_end; [done|]. simpl. wp_steps. split; [done|apply at_end].
    + apply (wp_peek _ [124; 41; 38; 59] true _ _ rest); [done..|]. intros s1 H1. simpl. wp_steps. done.
  - eapply (wp_peek _ [124; 41; 38; 59] false); [done|exact Hs|done|]. intros s1 H1. cbn [negb]. wp_steps.
    apply (wp_gettoken _ _ _ _ H1). intros s2 H2. cbn [fst snd Z.eqb Pos.eqb negb]. rewrite length_app in Hl, Hf. simpl in Hl.
    apply wp_if_false; [apply Nat.leb_gt; rewrite length_app; simpl; lia|]. wp_steps. rewrite <- app_assoc in H2.
    eapply wp_mono; [apply (parseredirs_complete _ _ Hr fuel (ts' ++ rest)); [|lia|exact H2]|].
    { apply (gargs_starts _ _ _ _ Ha); [done|]. now apply (follow_not [124; 41; 38; 59]). }
    intros rs1 s3 [-> H3]. eapply wp_mono; [apply (IH fuel rest (argv0 ++ [w]) (rs0 ++ rs) Hfol); [lia| |exact H3]|].
    { rewrite !length_app. simpl. lia. }
    intros r s4 [-> H4]. now rewrite <- !app_assoc.
Qed.

Lemma parseback_complete bs : Forall (fun t : token => t.1 = 38) bs -> forall fuel rest c, starts [38] rest = false ->
  (length bs < fuel)%nat -> takes (parseback buf fuel c) bs rest (gback bs c).
Proof.
  induction 1 as [|[r w] bs Hb _ IH]; intros [|fuel] rest c Hr Hf s Hs; simpl in *; try lia; wp_steps.
  - apply (wp_peek _ [38] false _ _ rest); [done..|]. intros s1 H1. simpl. wp_steps. done.
  - eapply (wp_peek _ [38] true); [done|exact Hs|simpl; lia|]. intros s1 H1. simpl. wp_steps.
    apply (wp_gettoken _ _ _ _ H1). intros s2 H2. apply (IH fuel rest (BACK c) Hr ltac:(lia) s2 H2).
Qed.

Lemma gredirs_starts ts rs codes : gredirs ts rs -> existsb (fun r => existsb (Z.eqb r) codes) [60; 62; 43] = false ->
  forall rest, starts codes rest = false -> starts codes (ts ++ rest) = false.
Proof.
  intros [|op w file ts' rs' Hop _] Hc rest Hr; [done|]. simpl in *. rewrite !orb_false_iff in Hc.
  destruct Hc as (H1 & H2 & H3 & _). now destruct Hop as [->|[->| ->]].
Qed.

Section complete.
Context (fuel : nat).

Lemma exec_simple_complete ts rs ts2 argv rs2 rest : gredirs ts rs -> gargs ts2 argv rs2 -> (length argv < MAXARGS)%nat ->
  follow [124; 41; 38; 59] rest -> (length (ts ++ ts2) < fuel)%nat ->
  takes (parseexec buf (S fuel)) (ts ++ ts2) rest (redirs (rs ++ rs2) (EXEC argv)).
Proof.
  intros Hr Ha Hl Hfol Hf s Hs. rewrite length_app in Hf. rewrite <- app_assoc in Hs. simpl. wp_steps.
  eapply (wp_peek _ [40] false); [done|exact Hs| |].
  { apply (gredirs_starts _ _ _ Hr); [done|]. apply (gargs_starts _ _ _ _ Ha); [done|]. now apply (follow_not [124; 41; 38; 59]). }
  intros s1 H1. wp_steps. eapply wp_mono; [apply (parseredirs_complete _ _ Hr fuel (ts2 ++ rest)); [|lia|exact H1]|].
  { apply (gargs_starts _ _ _ _ Ha); [done|]. now apply (follow_not [124; 41; 38; 59]). }
  intros rs' s2 [-> H2]. wp_steps. eapply wp_mono; [apply (parseargs_complete _ _ _ Ha fuel rest [] rs Hfol); [lia|done|exact H2]|].
  intros r s3 [-> H3]. wp_steps. done.
Qed.

Lemma exec_block_complete w ts c w2 ts2 rs rest : takes (parseline buf fuel) ts ((41, w2) :: ts2 ++ rest) c -> gredirs ts2 rs ->
  follow [124; 41; 38; 59] rest -> (length ts2 < fuel)%nat ->
  takes (parseexec buf (S (S fuel))) ((40, w) :: ts ++ (41, w2) :: ts2) rest (redirs rs c).
Proof.
  intros Hc Hr Hfol Hf s Hs. cbn [parseexec parseblock]. wp_steps. eapply (wp_peek _ [40] true); [done|exact Hs|done|]. intros s1 H1. wp_steps.
  eapply (wp_peek _ [40] true); [done|exact H1|done|]. intros s2 H2. simpl. wp_steps. simpl in H2.
  apply (wp_gettoken _ _ _ _ H2). intros s3 H3. wp_steps. rewrite <- app_assoc in H3.
  eapply wp_mono; [apply Hc; exact H3|]. intros c' s4 [-> H4]. wp_steps.
  eapply (wp_peek _ [41] true); [done|exact H4|done|]. intros s5 H5. simpl. wp_steps.
  apply (wp_gettoken _ _ _ _ H5). intros s6 H6. wp_steps. eapply wp_mono.
  { apply (parseredirs_complete _ _ Hr fuel rest); [now apply (follow_not [124; 41; 38; 59])|lia|exact H6]. }
  intros rs' s7 [-> H7]. wp_steps. done.
Qed.

Lemma pipe_one_complete ts c rest : takes (parseexec buf fuel) ts rest c -> follow [41; 38; 59] rest ->
  takes (parsepipe buf (S fuel)) ts rest c.
Proof.
  intros Hc Hfol s Hs. simpl. wp_steps. eapply wp_mono; [apply Hc; exact Hs|]. intros c' s1 [-> H1]. wp_steps.
  eapply (wp_peek _ [124] false); [done|exact H1|now apply (follow_not [41; 38; 59])|]. intros s2 H2. wp_steps. done.
Qed.

Lemma pipe_more_complete ts c w ts2 c2 rest : takes (parseexec buf fuel) ts ((124, w) :: ts2 ++ rest) c ->
  takes (parsepipe buf fuel) ts2 rest c2 -> takes (parsepipe buf (S fuel)) (ts ++ (124, w) :: ts2) rest (PIPE c c2).
Proof.
  intros Hc Hc2 s Hs. rewrite <- app_assoc in Hs. simpl. wp_steps. eapply wp_mono; [apply Hc; exact Hs|]. intros c' s1 [-> H1].
  wp_steps. eapply (wp_peek _ [124] true); [done|exact H1|done|]. intros s2 H2. wp_steps.
  apply (wp_gettoken _ _ _ _ H2). intros s3 H3. wp_steps. eapply wp_mono; [apply Hc2; exact H3|]. intros c' s4 [-> H4]. wp_steps. done.
Qed.

Lemma line_end_complete ts c bs rest : takes (parsepipe buf fuel) ts (bs ++ rest) c -> Forall (fun t : token => t.1 = 38) bs ->
  follow [41] rest -> (length bs < fuel)%nat -> takes (parseline buf (S fuel)) (ts ++ bs) rest (gback bs c).
Proof.
  intros Hc Hb Hfol Hf s Hs. rewrite <- app_assoc in Hs. simpl. wp_steps. eapply wp_mono; [apply Hc; exact Hs|].
  intros c' s1 [-> H1]. wp_steps. eapply wp_mono.
  { apply (parseback_complete bs Hb fuel rest c); [now apply (follow_not [41])|done|exact H1]. }
  intros c' s2 [-> H2]. wp_steps. eapply (wp_peek _ [59] false); [done|exact H2|now apply (follow_not [41])|]. intros s3 H3. wp_steps. done.
Qed.

Lemma line_list_complete ts c bs w ts2 c2 rest : takes (parsepipe buf fuel) ts (bs ++ (59, w) :: ts2 ++ rest) c ->
  Forall (fun t : token => t.1 = 38) bs -> takes (parseline buf fuel) ts2 rest c2 -> (length bs < fuel)%nat ->
  takes (parseline buf (S fuel)) (ts ++ bs ++ (59, w) :: ts2) rest (LIST (gback bs c) c2).
Proof.
  intros Hc Hb Hc2 Hf s Hs. rewrite <- !app_assoc in Hs. simpl. wp_steps. eapply wp_mono; [apply Hc; exact Hs|].
  intros c' s1 [-> H1]. wp_steps. eapply wp_mono.
  { apply (parseback_complete bs Hb fuel ((59, w) :: ts2 ++ rest) c); [done|done|exact H1]. }
  intros c' s2 [-> H2]. wp_steps. eapply (wp_peek _ [59] true); [done|exact H2|done|]. intros s3 H3. wp_steps.
  apply (wp_gettoken _ _ _ _ H3). intros s4 H4. wp_steps. eapply wp_mono; [apply Hc2; exact H4|]. intros c' s5 [-> H5]. wp_steps. done.
Qed.
End complete.

(** A derivation of the grammar is followed by the parser, given enough fuel. *)
Lemma parse_complete :
  (forall ts c, gline ts c -> forall fuel rest, (5 * length ts + 5 <= fuel)%nat -> follow [41] rest -> takes (parseline buf fuel) ts rest c) /\
  (forall ts c, gpipe ts c -> forall fuel rest, (5 * length ts + 4 <= fuel)%nat -> follow [41; 38; 59] rest -> takes (parsepipe buf fuel) ts rest c) /\
  (forall ts c, gexec ts c -> forall fuel rest, (5 * length ts + 3 <= fuel)%nat -> follow [124; 41; 38; 59] rest -> takes (parseexec buf fuel) ts rest c).
Proof.
  apply grammar_ind.
  - intros ts c bs _ IH Hb [|fuel] rest Hf Hfol; [lia|]. rewrite length_app in Hf. apply line_end_complete; [|done|done|lia].
    apply IH; [lia|]. destruct bs as [|t bs]; [|right; inversion Hb; simpl; lia].
    destruct Hfol as [->|Hfol]; [by left|right]. simpl in *. destruct rest; simpl in *; lia.
  - intros ts c bs w ts2 c2 _ IH Hb _ IH2 [|fuel] rest Hf Hfol; [lia|]. rewrite !length_app in Hf. simpl in Hf.
    apply line_list_complete; [|done| |lia]; [|apply IH2; [lia|done]]. apply IH; [lia|]. right. destruct bs as [|t bs]; [done|].
    inversion Hb. simpl. lia.
  - intros ts c _ IH [|fuel] rest Hf Hfol; [lia|]. apply pipe_one_complete; [|done]. apply IH; [lia|].
    destruct Hfol as [->|Hfol]; [by left|right]. destruct rest; simpl in *; lia.
  - intros ts c w ts2 c2 _ IH _ IH2 [|fuel] rest Hf Hfol; [lia|]. rewrite length_app in Hf. simpl in Hf.
    apply pipe_more_complete; [apply IH; [lia|by right]|apply IH2; [lia|done]].
  - intros ts rs ts2 argv rs2 Hr Ha Hl [|fuel] rest Hf Hfol; [lia|]. apply exec_simple_complete; auto. lia.
  - intros w ts c w2 ts2 rs _ IH Hr [|[|fuel]] rest Hf Hfol; simpl in Hf; rewrite length_app in Hf; simpl in Hf; [lia..|].
    apply exec_block_complete; [|done|done|lia]. apply IH; [lia|by right].
Qed.

Lemma lex_length n : forall s, (s <= len)%nat -> (length (lex n s) <= len - s)%nat.
Proof.
  induction n as [|n IH]; intros s Hs; simpl; [lia|].
  destruct (scan_spec s Hs) as [[-> _]|(t & -> & Hq & Ht & H0 & _)]; [simpl; lia|].
  destruct (t.1 =? 0); simpl; [lia|]. pose proof (skip_white_le s Hs). pose proof (skip_white_le t.2.2 ltac:(lia)).
  specialize (IH (skip_white buf t.2.2) ltac:(lia)). lia.
Qed.

Lemma fuel_enough : (5 * length (tokens 0) + 5 <= parse_fuel buf)%nat.
Proof. pose proof (lex_length (S (len - 0)) 0 ltac:(lia)) as H. unfold tokens, parse_fuel. lia. Qed.

(** ** The strings of a command *)

Lemma tokens_words n : forall s w, (s <= len)%nat -> (97, w) ∈ lex n s -> word_ok w.
Proof.
  induction n as [|n IH]; intros s w Hs; simpl; [set_solver|].
  destruct (scan_spec s Hs) as [[-> _]|(t & -> & Hq & Ht & H0 & _ & H5)]; [set_solver|].
  destruct (t.1 =? 0); [set_solver|]. rewrite elem_of_cons. intros [<-|Hin]; [now apply H5|].
  apply (IH (skip_white buf t.2.2) w); [|done]. apply skip_white_le. lia.
Qed.

(** Writing NULs at the positions [P]. *)
Definition zeroed (P : nat -> Prop) (mem mem' : list Z) : Prop :=
  forall i, (P i -> mem' !! i = (fun _ => 0) <$> mem !! i) /\ (~ P i -> mem' !! i = mem !! i).

Lemma zeroed_insert (a : nat) mem : zeroed (fun i => i = a) mem (<[a := 0]> mem).
Proof.
  intros i. split; [intros ->|intros Hi; now rewrite list_lookup_insert_ne].
  destruct (mem !! a) eqn:El; simpl; [|now rewrite list_insert_ge, El by now apply lookup_ge_None].
  rewrite list_lookup_insert_eq; [done|]. now apply lookup_lt_Some in El.
Qed.

Lemma zeroed_trans (P P' : nat -> Prop) mem mem' mem'' {HD : forall i, Decision (P i)} {HD' : forall i, Decision (P' i)} :
  zeroed P mem mem' -> zeroed P' mem' mem'' -> zeroed (fun i => P i \/ P' i) mem mem''.
Proof.
  intros H H' i. destruct (H i) as [A1 A2], (H' i) as [B1 B2]. split.
  - intros Hi. destruct (decide (P' i)) as [Hp|Hp].
    + rewrite B1 by done. destruct (decide (P i)); [rewrite A1 by done; now destruct (mem !! i)|now rewrite A2].
    + rewrite B2 by done. apply A1. tauto.
  - intros Hi. rewrite B2, A2 by tauto. done.
Qed.

Lemma zeroed_iff (P P' : nat -> Prop) mem mem' : (forall i, P i <-> P' i) -> zeroed P mem mem' -> zeroed P' mem mem'.
Proof. intros E H i. rewrite <- (E i). apply H. Qed.

Lemma nulterminate_zeroed c : forall mem, zeroed (fun i => i ∈ (words c).*2) mem (nulterminate c mem).
Proof.
  induction c as [argv|c IH f m d|l IHl r IHr|l IHl r IHr|c IH]; intros mem; simpl; [|..|apply IH].
  - revert mem. induction argv as [|w argv IHa]; intros mem; simpl; [intros i; split; [set_solver|done]|].
    eapply zeroed_iff; [|apply (zeroed_trans _ _ _ _ _ (zeroed_insert w.2 mem) (IHa _))].
    intros i. simpl. now rewrite elem_of_cons.
  - eapply zeroed_iff; [|apply (zeroed_trans _ _ _ _ _ (IH mem) (zeroed_insert f.2 _))]. intros i. set_solver.
  - eapply zeroed_iff; [|apply (zeroed_trans _ _ _ _ _ (IHl mem) (IHr _))]. intros i. set_solver.
  - eapply zeroed_iff; [|apply (zeroed_trans _ _ _ _ _ (IHl mem) (IHr _))]. intros i. set_solver.
Qed.

Lemma span_exact f l n : (forall i, (i < n)%nat -> exists c, l !! i = Some c /\ f c = true) ->
  (exists c, l !! n = Some c /\ f c = false) -> span f l = n.
Proof.
  revert l. induction n as [|n IH]; intros l Hlt (c & Hc & Hf).
  - destruct l as [|x l]; [done|]. simpl in *. injection Hc as ->. now rewrite Hf.
  - destruct (Hlt 0%nat ltac:(lia)) as (x & Hx & Hfx). destruct l as [|y l]; [done|]. injection Hx as ->. simpl. rewrite Hfx.
    f_equal. apply IH; [|eauto]. intros i Hi. apply (Hlt (S i)). lia.
Qed.

(** Terminating the words leaves each of them as it was in the line. *)
Lemma nulterminate_string c w : Forall word_ok (words c) -> w ∈ words c ->
  string_at (nulterminate c (buf ++ [0])) w = take (w.2 - w.1) (drop w.1 buf).
Proof.
  intros Hall Hw. rewrite list.Forall_forall in Hall. pose proof (Hall w Hw) as (Hle & Hin & _). set (mem := nulterminate c (buf ++ [0])).
  assert (forall i, (w.1 <= i < w.2)%nat -> mem !! i = buf !! i) as Hkeep.
  { intros i Hi. rewrite <- (lookup_app_l buf [0]) by lia. apply nulterminate_zeroed.
    intros (w' & -> & Hw')%list_elem_of_fmap. destruct (Hall w' Hw') as (_ & _ & [E|E]); [lia|]. rewrite Hin in E by done. done. }
  assert (span (fun x => negb (x =? 0)) (drop w.1 mem) = (w.2 - w.1)%nat) as Hs.
  { apply span_exact.
    - intros i Hi. rewrite lookup_drop, Hkeep by lia. destruct (lookup_lt_is_Some_2 buf (w.1 + i)) as [x Hx]; [lia|].
      exists x. split; [done|]. apply negb_true_iff, Z.eqb_neq. intros ->. now apply list_elem_of_lookup_2 in Hx.
    - exists 0. split; [|done]. rewrite lookup_drop. replace (w.1 + (w.2 - w.1))%nat with w.2 by lia. unfold mem.
      rewrite (proj1 (nulterminate_zeroed c (buf ++ [0]) w.2)) by (apply list_elem_of_fmap; eauto).
      destruct (lookup_lt_is_Some_2 (buf ++ [0]) w.2) as [x ->]; [rewrite length_app; simpl; lia|]. done. }
  unfold string_at. rewrite Hs. apply list_eq. intros i. destruct (decide (i < w.2 - w.1)%nat).
  - rewrite !lookup_take_lt, !lookup_drop by done. apply Hkeep. lia.
  - now rewrite !lookup_take_ge by lia.
Qed.
End tokens.

(** ** The theorems *)

(** C22: the shell's parser is correct. On a line of the grammar it returns the tree the grammar
    gives the line, without other effect; on any other line it prints a message and exits. It
    terminates on every line. *)
Theorem parsecmd_correct {S} {HS : Sys S} buf : 0 ∉ buf ->
  (forall c, gline (tokens buf 0) c -> forall s, parsecmd buf s = Ok (c, nulterminate c (buf ++ [0])) s) /\
  ((forall c, ~ gline (tokens buf 0) c) ->
   (exists msg, forall s, parsecmd buf s = sh_panic msg s) \/
   (exists rest, forall s, parsecmd buf s = (printf 2 (str "leftovers: %s" ++ [10]) [UStr (Some rest)] ;; sh_panic "syntax") s)).
Proof.
  intros Hbuf. assert (at_tokens buf 0 (tokens buf 0)) as H0 by (split; [lia|done]). pose proof (fuel_enough buf Hbuf) as Hf. split.
  - intros c Hg s. destruct (parse_complete buf Hbuf) as (Hc & _). specialize (Hc _ _ Hg _ [] Hf ltac:(by left) 0%nat).
    rewrite app_nil_r in Hc. specialize (Hc H0). apply wp_ok in Hc as (c' & s' & E & -> & Hs' & Ht). unfold parsecmd. rewrite E.
    apply (tokens_end buf Hbuf) in Ht; [|done]. rewrite Ht, bool_decide_eq_true_2 by done. done.
  - intros Hno. destruct (parse_sound buf Hbuf (parse_fuel buf) 0 _ H0) as (Hs & _). specialize (Hs Hf). unfold prs in Hs.
    unfold parsecmd. destruct (parseline buf (parse_fuel buf) 0%nat) as [c s'| |msg|msg|]; try done; [|eauto].
    destruct Hs as (ts1 & ts2 & E & Hg & Hs' & Ht). right. exists (drop (skip_white buf s') buf). intros s.
    rewrite bool_decide_eq_false_2; [done|]. rewrite <- (tokens_end buf Hbuf) by done. rewrite Ht. intros ->.
    rewrite app_nil_r in E. subst. now destruct (Hno c).
Qed.

(** The strings of a parsed command are the words of the line. The NULs the shell writes after
    each word fall on blanks, symbols or the end of the line, never inside another word. *)
Theorem parsecmd_strings buf c : 0 ∉ buf -> gline (tokens buf 0) c ->
  forall w, w ∈ words c -> word_ok buf w /\ string_at (nulterminate c (buf ++ [0])) w = take (w.2 - w.1) (drop w.1 buf).
Proof.
  intros Hbuf Hg. assert (forall w, w ∈ words c -> word_ok buf w) as Hall.
  { intros w Hw. destruct (grammar_words) as (Hgw & _). specialize (Hgw _ _ Hg w Hw). eapply (tokens_words buf Hbuf); [|exact Hgw]. lia. }
  intros w Hw. split; [auto|]. apply nulterminate_string; [done| |done]. now apply list.Forall_forall.
Qed.

(** ** An example: ls|wc>f *)

Definition ex_line : list Z := str "ls|wc>f".
Definition ex_cmd : cmd := PIPE (EXEC [(0, 2)%nat]) (REDIR (EXEC [(3, 5)%nat]) (6, 7)%nat 513 1).

Lemma ex_line_ok : 0 ∉ ex_line.
Proof. refine (bool_decide_unpack _ _); reflexivity. Qed.

Lemma ex_line_gline : gline (tokens ex_line 0) ex_cmd.
Proof.
  assert (forall w, gargs [(97, w)] [w] []) as Harg by (intros w; apply (ga_cons w [] [] [] [] []); constructor).
  apply (gl_end [(97, (0, 2)%nat); (124, (2, 3)%nat); (97, (3, 5)%nat); (62, (5, 6)%nat); (97, (6, 7)%nat)] ex_cmd []); [|constructor].
  apply (gp_pipe [(97, (0, 2)%nat)] (EXEC [(0, 2)%nat]) (2, 3)%nat).
  - apply (ge_simple [] [] _ _ []); [constructor|apply Harg|]. unfold MAXARGS. simpl. lia.
  - constructor. apply (ge_simple [] [] _ _ [(62, (6, 7)%nat)]); [constructor| |unfold MAXARGS; simpl; lia].
    apply (ga_cons (3, 5)%nat [(62, (5, 6)%nat); (97, (6, 7)%nat)] [(62, (6, 7)%nat)] [] [] []); [|constructor].
    constructor; [lia|constructor].
Qed.

Lemma parsecmd_correct_witness :
  let s : sstate false := mk_sstate ∅ ∅ [] [] in
  parsecmd ex_line s = Ok (ex_cmd, nulterminate ex_cmd (ex_line ++ [0])) s.
Proof. intros s. exact (proj1 (parsecmd_correct ex_line ex_line_ok) ex_cmd ex_line_gline s). Defined.

Lemma parsecmd_strings_witness :
  string_at (nulterminate ex_cmd (ex_line ++ [0])) (6, 7)%nat = str "f".
Proof. apply (parsecmd_strings ex_line ex_cmd ex_line_ok ex_line_gline (6, 7)%nat). refine (bool_decide_unpack _ _); reflexivity. Defined.
