(* ===== verification/Fsblock.v ===== *)
(** Blocks inside a transaction: the rules by which fs.c reads, modifies and logs a block, and
    the block allocator, balloc and bfree, over the free map.

    [fss s l ic v]: the state [s] is the state [s0] in which the system call started, up to the
    buffers, the log structure (now [l]), the inode cache (now [ic]) and wake-ups, and its
    buffers and disk represent the view [v]. [txl l v bl]: the log is open and has the blocks
    [bl] of the view pinned. *)

From stdpp Require Import base list gmap sets fin_sets strings numbers.
From Stdlib Require Import ZArith Lia.
From S2P Require Import Prelude Bytes Kstate Cons Sched Bio Bcache Log Commit Inode.
Open Scope Z_scope.

(** ** Views *)

Definition v_hold (b : Z) (i : nat) (pid : Z) (v : bview) : bview :=
  v <| v_held := <[b := (i, pid)]> (v_held v) |>.

(** Block [b] rewritten and logged. *)
Definition v_put (b : Z) (x : list Z) (v : bview) : bview :=
  v <| v_data := dupd (v_data v) b x |> <| v_dirty := {[ b ]} ∪ v_dirty v |>.

Lemma v_unlock_hold b i pid v : v_held v !! b = None -> v_unlock b (v_hold b i pid v) = v.
Proof.
  intros H. destruct v as [d h di m]. unfold v_unlock, v_hold. cbn in *. now rewrite delete_insert_id.
Qed.

Lemma v_unlock_put b x i pid v :
  v_held v !! b = None -> b ∉ v_mod v ->
  v_unlock b (v_pin b (v_modify b x (v_hold b i pid v))) = v_put b x v.
Proof.
  intros H Hm. destruct v as [d h di m]. unfold v_unlock, v_pin, v_modify, v_hold, v_put. cbn in *.
  rewrite delete_insert_id by done.
  change (mk_bview (dupd d b x) h ({[ b ]} ∪ di) (({[ b ]} ∪ m) ∖ {[ b ]}) =
          mk_bview (dupd d b x) h ({[ b ]} ∪ di) m).
  f_equal. apply set_eq. set_solver.
Qed.

(** ** The rules *)

Section rules.
Context (s0 : kstate) (me : nat) (p : proc) (start : Z).
Hypothesis Henv : kenv s0 me p.

Record fss (s : kstate) (l : logst) (ic : list inode) (v : bview) : Prop := {
  fs_step : exists bs ps, s = s0 <| k_bufs := bs |> <| k_procs := ps |> <| k_log := l |>
                                 <| k_icache := ic |> /\ woken (k_procs s0) ps;
  fs_inv : binv s v
}.

(** At most [LOGSIZE - 2] blocks are logged, so that log_write does not panic. *)
Record txl (l : logst) (v : bview) (bl : list Z) : Prop := {
  tl_open : log_open l start bl;
  tl_dirty : v_dirty v = list_to_set bl;
  tl_nodup : NoDup bl;
  tl_range : forall b, b ∈ bl -> 0 <= b < FSSIZE
}.

Lemma fss_env s l ic v : fss s l ic v -> kenv s me p.
Proof.
  destruct Henv as (Hc & Hp & Hr & Hh). intros [(bs & ps & -> & Hw) _]. repeat split; try done.
  simpl. now apply woken_lookup with (k_procs s0).
Qed.

Lemma fss_bufs s l ic v bs' v' :
  fss s l ic v -> binv (s <| k_bufs := bs' |>) v' ->
  fss (s <| k_bufs := bs' |>) l ic v'.
Proof.
  intros [(bs & ps & -> & Hw) _] Hinv. constructor; [|done]. exists bs', ps. now split.
Qed.

Lemma fss_same s l ic v s' v' :
  fss s l ic v -> same_env s s' -> binv s' v' -> fss s' l ic v'.
Proof.
  intros [(bs & ps & -> & Hw) _] (bs' & ps' & -> & Hw') Hinv. constructor; [|done].
  exists bs', ps'. split; [done|]. simpl in Hw'. now apply woken_trans with ps.
Qed.

(** The number of buffers in use leaves one for the next bread. *)
Definition room (v : bview) (bl : list Z) : Prop := (size (v_held v) + length bl < 30)%nat.

Lemma room_available l v bl b : txl l v bl -> room v bl -> available v b.
Proof using.
  clear Henv. intros [_ Hd Hn _] Hr. right. unfold in_use. rewrite size_union_alt, size_dom, Hd.
  change bhead with 30%nat. eapply Nat.le_lt_trans; [|exact Hr]. apply Nat.add_le_mono_l.
  rewrite <- (size_list_to_set (C := gset Z) bl Hn). apply subseteq_size. set_solver.
Qed.

Section step.
Context (s : kstate) (l : logst) (ic : list inode) (v : bview).
Hypothesis Hs : fss s l ic v.

Lemma fss_bread b (Q : nat -> kstate -> Prop) :
  0 <= b < FSSIZE -> v_held v !! b = None -> available v b ->
  (forall i s', fss s' l ic (v_hold b i (p_pid p) v) -> Q i s') -> wp (bread 1 b) Q s.
Proof using Hs Henv.
  intros Hb Hh Ha HQ. pose proof Hs as [_ Hinv].
  apply (wp_bread s me p v); auto; [now apply (fss_env s l ic v)|].
  intros i bs' s' Hinv'. apply HQ. apply (fss_bufs _ _ _ v); [done|exact Hinv'].
Qed.

Lemma fss_bdata b i pid (Q : list Z -> kstate -> Prop) :
  v_held v !! b = Some (i, pid) -> Q (v_data v b) s -> wp (bdata i) Q s.
Proof using Hs.
  intros Hh HQ. destruct Hs as [_ Hinv].
  destruct (binv_held _ _ _ _ _ _ Hinv Hh) as (_ & x & Hx & (_ & _ & Hd & _) & <- & _).
  unfold bdata. wp_steps. apply (wp_buf_at i x); [done|]. wp_steps. now rewrite Hd.
Qed.

Lemma fss_set_bdata b i pid x (Q : unit -> kstate -> Prop) :
  v_held v !! b = Some (i, pid) -> length x = 512%nat ->
  (forall s', fss s' l ic (v_modify b x v) -> Q tt s') -> wp (set_bdata i x) Q s.
Proof using Hs.
  intros Hh Hx HQ. pose proof Hs as [_ Hinv]. unfold set_bdata.
  eapply (wp_upd_data s v b i pid (fun _ => x)); [done|done|done|].
  intros _ bs' _ _ s' Hinv'. apply HQ. apply (fss_bufs _ _ _ v); [done|exact Hinv'].
Qed.

Lemma fss_log_write b i bl (Q : unit -> kstate -> Prop) :
  txl l v bl -> (length bl < 29)%nat -> v_held v !! b = Some (i, p_pid p) ->
  (forall s' l', fss s' l' ic (v_pin b v) -> txl l' (v_pin b v) (bl_add bl b) -> Q tt s') ->
  wp (log_write i) Q s.
Proof using Hs Henv.
  intros [Ho Hd Hn Hr] Hlen Hh HQ. pose proof Hs as [(bs & ps & Es & Hw) Hinv].
  assert (k_log s = l) as El by (now rewrite Es). rewrite <- El in Ho.
  apply (wp_log_write s me p v start bl b i); auto; [now apply (fss_env s l ic v)|unfold LOGSIZE, MAXOPBLOCKS; lia|].
  intros bs' l' s' Hinv' Ho'. apply (HQ s' l').
  - constructor; [|exact Hinv']. exists bs', ps. unfold s'. rewrite Es. now split.
  - constructor; [done| | |].
    + simpl. rewrite Hd. apply set_eq. intros k. rewrite elem_of_list_to_set, elem_of_bl_add. set_solver.
    + now apply (bl_adds_nodup [b]).
    + intros y [Hy | ->]%elem_of_bl_add; [auto|].
      destruct (binv_held _ _ _ _ _ _ Hinv Hh) as (_ & x & _ & (_ & Hx & _) & <- & _). done.
Qed.

Lemma fss_brelse b i (Q : unit -> kstate -> Prop) :
  v_held v !! b = Some (i, p_pid p) -> b ∉ v_mod v ->
  (forall s', fss s' l ic (v_unlock b v) -> Q tt s') -> wp (brelse i) Q s.
Proof using Hs Henv.
  intros Hh Hb HQ. pose proof Hs as [_ Hinv].
  apply (wp_brelse s me p v b i); auto; [now apply (fss_env s l ic v)|].
  intros s' Hse Hinv'. apply HQ. now apply (fss_same s _ _ v).
Qed.
End step.

Lemma fss_icache s l ic v : fss s l ic v -> k_icache s = ic.
Proof using. intros [(bs & ps & -> & _) _]. done. Qed.

Lemma fss_inode_at s l ic v i ip (Q : inode -> kstate -> Prop) :
  fss s l ic v -> ic !! i = Some ip -> Q ip s -> wp (inode_at i) Q s.
Proof using. intros Hs Hi HQ. apply (wp_inode_at i ip); [|done]. now rewrite (fss_icache _ _ _ _ Hs). Qed.

Lemma fss_upd_inode s l ic v i ip f (Q : unit -> kstate -> Prop) :
  fss s l ic v -> ic !! i = Some ip ->
  (forall s', fss s' l (<[i := f ip]> ic) v -> Q tt s') -> wp (upd_inode i f) Q s.
Proof using.
  intros Hs Hi HQ. pose proof (fss_icache _ _ _ _ Hs) as E.
  apply (wp_upd_inode i f ip); [now rewrite E|]. apply HQ. rewrite E.
  destruct Hs as [(bs & ps & -> & Hw) Hinv]. constructor; [|exact Hinv]. exists bs, ps. now split.
Qed.

(** The end of every block update of fs.c: modify the locked block, log it, release it. *)
Lemma fss_put s l ic v b i x bl (Q : unit -> kstate -> Prop) :
  fss s l ic (v_hold b i (p_pid p) v) -> txl l v bl -> v_held v !! b = None -> b ∉ v_mod v ->
  (length bl < 29)%nat -> length x = 512%nat ->
  (forall s' l', fss s' l' ic (v_put b x v) -> txl l' (v_put b x v) (bl_add bl b) -> Q tt s') ->
  wp (set_bdata i x ;; log_write i ;; brelse i) Q s.
Proof using Henv.
  intros Hs Ht Hh Hm Hlen Hx HQ. wp_steps.
  eapply (fss_set_bdata s _ _ _ Hs b i); [apply lookup_insert_eq|done|]. intros s2 Hs2. wp_steps.
  eapply (fss_log_write s2 _ _ _ Hs2 b i bl); [|done|apply lookup_insert_eq|].
  { destruct Ht as [T1 T2 T3 T4]. now constructor. }
  intros s3 l3 Hs3 Ht3. wp_steps.
  eapply (fss_brelse s3 _ _ _ Hs3 b i); [apply lookup_insert_eq|simpl; set_solver|].
  intros s4 Hs4. rewrite v_unlock_put in Hs4 by done. apply (HQ s4 l3 Hs4).
  destruct Ht3 as [T1 T2 T3 T4]. now constructor.
Qed.

Lemma fss_put_then {A} s l ic v b i x bl (k : K A) (Q : A -> kstate -> Prop) :
  fss s l ic (v_hold b i (p_pid p) v) -> txl l v bl -> v_held v !! b = None -> b ∉ v_mod v ->
  (length bl < 29)%nat -> length x = 512%nat ->
  (forall s' l', fss s' l' ic (v_put b x v) -> txl l' (v_put b x v) (bl_add bl b) -> wp k Q s') ->
  wp (set_bdata i x ;; log_write i ;; brelse i ;; k) Q s.
Proof using Henv.
  intros Hs Ht Hh Hm Hlen Hx HQ.
  pose proof (fss_put s l ic v b i x bl (fun _ => wp k Q) Hs Ht Hh Hm Hlen Hx HQ) as H.
  apply wp_bind_inv in H. apply wp_bind. eapply wp_mono; [exact H|]. intros u1 s1 H1.
  apply wp_bind_inv in H1. apply wp_bind. eapply wp_mono; [exact H1|]. intros u2 s2 H2. now apply wp_bind.
Qed.

(** A block nobody holds has no unlogged modification. *)
Lemma fss_unmodified s l ic v b : fss s l ic v -> v_held v !! b = None -> b ∉ v_mod v.
Proof using.
  intros Hs Hh Hx. apply (bi_mod _ _ _ (fs_inv _ _ _ _ Hs)) in Hx. apply elem_of_dom in Hx.
  rewrite Hh in Hx. now destruct Hx.
Qed.

Lemma fss_bzero s l ic v b bl (Q : unit -> kstate -> Prop) :
  fss s l ic v -> txl l v bl -> 0 <= b < FSSIZE -> v_held v !! b = None ->
  room v bl -> (length bl < 29)%nat ->
  (forall s' l', fss s' l' ic (v_put b zero_block v) ->
     txl l' (v_put b zero_block v) (bl_add bl b) -> Q tt s') ->
  wp (bzero 1 b) Q s.
Proof using Henv.
  intros Hs Ht Hb Hh Hr Hlen HQ. pose proof (fss_unmodified _ _ _ _ _ Hs Hh) as Hm.
  unfold bzero. wp_steps.
  apply (fss_bread s l ic v Hs); auto; [now apply (room_available l v bl)|]. intros i s1 Hs1.
  now apply (fss_put s1 l ic v b i _ bl).
Qed.
End rules.

(** ** The free map *)

Section bits.
Implicit Types (d : list Z) (i j : nat).

Lemma bit_clear_testbit d i :
  bit_clear d i = negb (Z.testbit (default 0 (d !! (i / 8)%nat)) (Z.of_nat i mod 8)).
Proof.
  unfold bit_clear, bit_mask. set (x := default 0 _). set (k := Z.of_nat i mod 8).
  assert (0 <= k < 8) as Hk by (apply Z.mod_pos_bound; lia).
  rewrite Z.shiftl_1_l. destruct (Z.testbit x k) eqn:E; simpl; apply Z.eqb_neq || apply Z.eqb_eq.
  - intros H. apply (f_equal (fun z => Z.testbit z k)) in H.
    rewrite Z.land_spec, Z.pow2_bits_true, E, Z.bits_0 in H by lia. done.
  - apply Z.bits_inj_0. intros n. rewrite Z.land_spec, Z.pow2_bits_eqb by lia.
    destruct (Z.eqb_spec k n) as [<-|]; rewrite ?E, ?andb_false_r; done.
Qed.

Lemma same_bit i j : (i / 8 = j / 8)%nat -> Z.of_nat i mod 8 = Z.of_nat j mod 8 -> i = j.
Proof.
  intros H1%(f_equal Z.of_nat) H2. rewrite !Nat2Z.inj_div in H1. apply Nat2Z.inj.
  change (Z.of_nat 8) with 8 in *. div_lia.
Qed.

Lemma set_bit_spec d i j :
  (i / 8 < length d)%nat -> bit_clear (set_bit d i) j = bit_clear d j && negb (i =? j)%nat.
Proof.
  intros Hi. rewrite !bit_clear_testbit. unfold set_bit, bit_mask.
  pose proof (Z.mod_pos_bound (Z.of_nat i) 8 ltac:(lia)). pose proof (Z.mod_pos_bound (Z.of_nat j) 8 ltac:(lia)).
  destruct (decide (i / 8 = j / 8)%nat) as [E|E].
  - rewrite <- E, list_lookup_insert_eq by done. simpl.
    rewrite Z.lor_spec, Z.shiftl_1_l, Z.pow2_bits_eqb, negb_orb by lia. f_equal. f_equal.
    destruct (Nat.eqb_spec i j) as [->|Hne]; [lia|]. apply Z.eqb_neq. intros H'. now apply Hne, same_bit.
  - rewrite list_lookup_insert_ne by done. destruct (Nat.eqb_spec i j) as [->|]; [done|].
    simpl. now rewrite andb_true_r.
Qed.

Lemma clear_bit_spec d i j :
  (i / 8 < length d)%nat -> bit_clear (clear_bit d i) j = bit_clear d j || (i =? j)%nat.
Proof.
  intros Hi. rewrite !bit_clear_testbit. unfold clear_bit, bit_mask.
  pose proof (Z.mod_pos_bound (Z.of_nat i) 8 ltac:(lia)). pose proof (Z.mod_pos_bound (Z.of_nat j) 8 ltac:(lia)).
  destruct (decide (i / 8 = j / 8)%nat) as [E|E].
  - rewrite <- E, list_lookup_insert_eq by done. simpl.
    rewrite Z.land_spec, Z.lnot_spec, Z.shiftl_1_l, Z.pow2_bits_eqb, negb_andb, negb_involutive by lia. f_equal.
    destruct (Nat.eqb_spec i j) as [->|Hne]; [lia|]. apply Z.eqb_neq. intros H'. now apply Hne, same_bit.
  - rewrite list_lookup_insert_ne by done. destruct (Nat.eqb_spec i j) as [->|]; [done|].
    now rewrite orb_false_r.
Qed.

Lemma length_set_bit d i : length (set_bit d i) = length d.
Proof. apply length_insert. Qed.
Lemma length_clear_bit d i : length (clear_bit d i) = length d.
Proof. apply length_insert. Qed.
End bits.

(** The layout mkfs gives the disk: boot block, superblock, log, inodes, one block of free map,
    data. *)
Record layout (sb : superblock) (start : Z) : Prop := {
  lay_log : 1 < start /\ start + LOGSIZE <= sb_inodestart sb;
  lay_ino : 0 <= sb_ninodes sb /\ sb_inodestart sb + sb_ninodes sb / IPB < sb_bmapstart sb;
  lay_map : sb_bmapstart sb < sb_size sb <= FSSIZE
}.

Section freemap.
Context (sb : superblock).

(** Block [b] is marked in use in the free map of [D]. *)
Definition used (D : Z -> list Z) (b : Z) : Prop := bit_clear (D (sb_bmapstart sb)) (Z.to_nat b) = false.

#[global] Instance used_dec D b : Decision (used D b).
Proof. unfold used. apply _. Defined.

Definition data_block (b : Z) : Prop := sb_bmapstart sb < b < sb_size sb.

(** The blocks before the data are never free. *)
Definition meta_used (D : Z -> list Z) : Prop := forall b, 0 <= b <= sb_bmapstart sb -> used D b.

(** The contents once balloc has handed out block [b], and once bfree has taken it back. *)
Definition alloc_map (D : Z -> list Z) (b : Z) : Z -> list Z :=
  dupd (dupd D (sb_bmapstart sb) (set_bit (D (sb_bmapstart sb)) (Z.to_nat b))) b zero_block.
Definition free_map (D : Z -> list Z) (b : Z) : Z -> list Z :=
  dupd D (sb_bmapstart sb) (clear_bit (D (sb_bmapstart sb)) (Z.to_nat b)).

Lemma used_alloc start D b k :
  layout sb start -> length (D (sb_bmapstart sb)) = 512%nat -> data_block b -> 0 <= k < FSSIZE ->
  (used (alloc_map D b) k <-> used D k \/ k = b).
Proof.
  intros Hl Hd Hb Hk. unfold used, alloc_map, data_block, FSSIZE in *.
  pose proof (lay_log _ _ Hl). pose proof (lay_ino _ _ Hl). pose proof (lay_map _ _ Hl).
  unfold FSSIZE, LOGSIZE, MAXOPBLOCKS, IPB, BSIZE in *. change (512 / 64) with 8 in *.
  assert (0 <= sb_ninodes sb / 8) by (apply Z.div_pos; lia).
  rewrite dupd_ne, dupd_eq by lia. rewrite set_bit_spec.
  - rewrite andb_false_iff, negb_false_iff, Nat.eqb_eq. split; intros [H'|H']; auto; right; lia.
  - rewrite Hd. apply Nat.Div0.div_lt_upper_bound. lia.
Qed.

Lemma used_free start D b k :
  layout sb start -> length (D (sb_bmapstart sb)) = 512%nat -> data_block b -> 0 <= k < FSSIZE ->
  (used (free_map D b) k <-> used D k /\ k <> b).
Proof.
  intros Hl Hd Hb Hk. unfold used, free_map, data_block, FSSIZE in *.
  pose proof (lay_log _ _ Hl). pose proof (lay_ino _ _ Hl). pose proof (lay_map _ _ Hl).
  unfold FSSIZE, LOGSIZE, MAXOPBLOCKS, IPB, BSIZE in *. change (512 / 64) with 8 in *.
  assert (0 <= sb_ninodes sb / 8) by (apply Z.div_pos; lia).
  rewrite dupd_eq, clear_bit_spec.
  - rewrite orb_false_iff, Nat.eqb_neq. split; intros [Hu Hn]; (split; [done|lia]).
  - rewrite Hd. apply Nat.Div0.div_lt_upper_bound. lia.
Qed.
End freemap.

(** The number of free blocks. *)
Definition nfree (sb : superblock) (D : Z -> list Z) : nat :=
  length (filter (fun b => ~ used sb D b) (seqZ 0 (sb_size sb))).

Section counting.
Context (P P' : Z -> Prop) `{!forall x, Decision (P x), !forall x, Decision (P' x)}.

Lemma filter_same_length (l : list Z) :
  (forall x, x ∈ l -> (P' x <-> P x)) -> length (filter P l) = length (filter P' l).
Proof.
  induction l as [|y l IH]; intros Hx; [done|]. rewrite !filter_cons.
  pose proof (Hx y ltac:(left)). assert (length (filter P l) = length (filter P' l)) as E.
  { apply IH. intros x Hin. apply Hx. now right. }
  destruct (decide (P y)), (decide (P' y)); simpl; rewrite ?E; tauto.
Qed.

Lemma filter_remove_length (l : list Z) b :
  NoDup l -> b ∈ l -> P b -> (forall x, x ∈ l -> (P' x <-> P x /\ x <> b)) ->
  length (filter P l) = S (length (filter P' l)).
Proof.
  intros Hn Hb HP Hx. induction l as [|y l IH]; [set_solver|]. apply list.NoDup_cons in Hn as [Hy Hn].
  rewrite !filter_cons. pose proof (Hx y ltac:(left)) as Hxy. destruct (decide (y = b)) as [->|Hne].
  - rewrite decide_True, decide_False by tauto. simpl. f_equal. apply filter_same_length.
    intros x Hin. rewrite (Hx x) by (now right). split; [tauto|]. intros HPx. split; [done|]. now intros ->.
  - assert (length (filter P l) = S (length (filter P' l))) as E.
    { apply IH; [done|set_solver|]. intros x Hin. apply Hx. now right. }
    destruct (decide (P y)), (decide (P' y)); simpl; rewrite ?E; tauto.
Qed.
End counting.

Lemma layout_bounds sb start : layout sb start ->
  32 <= sb_inodestart sb /\ sb_inodestart sb < sb_bmapstart sb < sb_size sb /\ sb_size sb <= 1000 /\
  BBLOCK 0 sb = sb_bmapstart sb.
Proof.
  intros [[H1 H2] [H3 H4] H5]. unfold FSSIZE, LOGSIZE, MAXOPBLOCKS, IPB, BSIZE in *.
  change (512 / 64) with 8 in *. assert (0 <= sb_ninodes sb / 8) by (apply Z.div_pos; lia).
  unfold BBLOCK. change (0 / BPB) with 0. rewrite u32_small; lia.
Qed.

Lemma nfree_alloc sb start D b :
  layout sb start -> (forall k, length (D k) = 512%nat) -> data_block sb b -> ~ used sb D b ->
  nfree sb D = S (nfree sb (alloc_map sb D b)).
Proof.
  intros Hl Hd Hb Hu. destruct (layout_bounds _ _ Hl) as (H1 & H2 & H3 & _). unfold data_block in Hb.
  apply (filter_remove_length _ _ _ b); [apply NoDup_seqZ|apply elem_of_seqZ; lia|done|].
  intros x Hx%elem_of_seqZ. rewrite (used_alloc sb start) by (auto; unfold FSSIZE; lia). tauto.
Qed.

Lemma nfree_same sb D D' : D' (sb_bmapstart sb) = D (sb_bmapstart sb) -> nfree sb D' = nfree sb D.
Proof. intros E. unfold nfree. apply filter_same_length. intros x _. unfold used. now rewrite E. Qed.

(** ** balloc and bfree *)

Section alloc.
Context (s0 : kstate) (me : nat) (p : proc) (start : Z).
Hypothesis Henv : kenv s0 me p.
Abbreviation sb := (k_sb s0).
Abbreviation bm := (sb_bmapstart sb).
Hypothesis Hlay : layout sb start.

(** The first free block of the map. *)
Definition first_free (D : Z -> list Z) : option nat :=
  find_idx (bit_clear (D bm)) (seq 0 (Z.to_nat (sb_size sb))).

Lemma first_free_Some D k :
  first_free D = Some k -> 0 <= Z.of_nat k < sb_size sb /\ ~ used sb D (Z.of_nat k).
Proof using.
  intros [(x & Hx & Hf) _]%find_idx_Some. apply lookup_seq in Hx as [-> Hk]. unfold used.
  rewrite Nat2Z.id. simpl in Hf. rewrite Hf. split; [lia|done].
Qed.

Lemma first_free_exists D b :
  0 <= b < sb_size sb -> ~ used sb D b -> exists k, first_free D = Some k.
Proof using.
  intros Hb Hu. destruct (first_free D) as [k|] eqn:E; [eauto|]. exfalso. apply Hu. unfold used.
  apply (proj1 (find_idx_None _ _) E). apply elem_of_seq. lia.
Qed.

Lemma nfree_first D : (0 < nfree sb D)%nat -> exists k, first_free D = Some k.
Proof using.
  unfold nfree. intros H. destruct (filter _ _) as [|b l] eqn:E; [simpl in H; lia|].
  assert (b ∈ filter (fun b => ~ used sb D b) (seqZ 0 (sb_size sb))) as Hb by (rewrite E; left).
  apply list_elem_of_filter in Hb as [Hu Hb%elem_of_seqZ]. apply (first_free_exists D b); [lia|done].
Qed.

Lemma fss_sb s l ic v : fss s0 s l ic v -> k_sb s = sb.
Proof using. intros [(bs & ps & -> & _) _]. done. Qed.

Lemma used_data D b : meta_used sb D -> 0 <= b < sb_size sb -> ~ used sb D b -> data_block sb b.
Proof using.
  intros Hm Hb Hu. unfold data_block. destruct (Z.le_gt_cases b bm); [|lia].
  exfalso. apply Hu, Hm. lia.
Qed.

(** balloc takes the first free block, marks it and zeroes it. *)
Lemma wp_balloc s l ic v bl k (Q : Z -> kstate -> Prop) :
  fss s0 s l ic v -> txl start l v bl -> v_held v !! bm = None ->
  (forall b, b ∈ dom (v_held v) -> used sb (v_data v) b) -> meta_used sb (v_data v) ->
  (size (v_held v) + length bl < 28)%nat -> first_free (v_data v) = Some k ->
  (forall s' l', let b := Z.of_nat k in
     let v' := v_put b zero_block (v_put bm (set_bit (v_data v bm) k) v) in
     data_block sb b -> ~ used sb (v_data v) b ->
     fss s0 s' l' ic v' -> txl start l' v' (bl_add (bl_add bl bm) b) -> Q b s') ->
  wp (balloc 1) Q s.
Proof.
  intros Hs Ht Hbm Hheld Hmeta Hlen Hff HQ.
  destruct (layout_bounds _ _ Hlay) as (Hi & Hb & Hsz & HB).
  destruct (first_free_Some _ _ Hff) as [Hk Hu]. pose proof (used_data _ _ Hmeta Hk Hu) as Hdb.
  unfold first_free in Hff.
  unfold balloc. wp_steps. rewrite (fss_sb _ _ _ _ Hs). cbn [balloc_loop]. wp_steps.
  rewrite (fss_sb _ _ _ _ Hs), HB. apply wp_if_true; [lia|]. wp_steps.
  apply (fss_bread s0 me p Henv s l ic v Hs); auto; [unfold FSSIZE; lia| |].
  { apply (room_available start l v bl); [done|unfold room; lia]. }
  intros i s1 Hs1. wp_steps. eapply (fss_bdata s0 s1 _ _ _ Hs1); [apply lookup_insert_eq|].
  change (v_data (v_hold bm i (p_pid p) v) bm) with (v_data v bm).
  replace (Z.min BPB (sb_size sb - 0)) with (sb_size sb) by (unfold BPB, BSIZE; lia).
  rewrite Hff.
  apply (fss_put_then s0 me p start Henv s1 l ic v bm i _ bl); auto; [now apply (fss_unmodified s0 s l ic)|lia| |].
  { rewrite length_set_bit. apply (bi_len _ _ _ (fs_inv _ _ _ _ _ Hs)). }
  intros s4 l4 Hs4 Ht4. wp_steps.
  assert (length (bl_add bl bm) <= S (length bl))%nat by (unfold bl_add; case_decide; rewrite ?length_app; simpl; lia).
  change (0 + Z.of_nat k) with (Z.of_nat k).
  eapply (fss_bzero s0 me p start Henv s4 _ _ _ _ (bl_add bl bm) _ Hs4).
  - exact Ht4.
  - unfold FSSIZE. lia.
  - simpl. destruct (v_held v !! Z.of_nat k) eqn:E; [|done]. exfalso. apply Hu, Hheld, elem_of_dom. eauto.
  - unfold room. simpl. lia.
  - lia.
  - intros s5 l5 Hs5 Ht5. wp_steps. now apply (HQ s5 l5).
Qed.

(** With no free block balloc panics. *)
Lemma balloc_full s l ic v bl :
  fss s0 s l ic v -> txl start l v bl -> v_held v !! bm = None -> room v bl ->
  first_free (v_data v) = None -> panics (balloc 1) "balloc: out of blocks" s.
Proof using Henv Hlay.
  intros Hs Ht Hbm Hr Hff. destruct (layout_bounds _ _ Hlay) as (Hi & Hb & Hsz & HB).
  unfold first_free in Hff. unfold balloc. apply panics_bind. wp_steps. rewrite (fss_sb _ _ _ _ Hs).
  assert (sb_size sb / BPB = 0) as -> by (apply Z.div_small; unfold BPB, BSIZE; lia).
  change (S (Z.to_nat 0)) with 1%nat. cbn [balloc_loop]. apply panics_bind. wp_steps.
  rewrite (fss_sb _ _ _ _ Hs), HB. destruct (Z.ltb_spec 0 (sb_size sb)); [|lia].
  apply panics_bind. apply (fss_bread s0 me p Henv s l ic v Hs); auto; [unfold FSSIZE; lia| |].
  { now apply (room_available start l v bl). }
  intros i s1 Hs1. apply panics_bind.
  eapply (fss_bdata s0 s1 _ _ _ Hs1); [apply lookup_insert_eq|].
  change (v_data (v_hold bm i (p_pid p) v) bm) with (v_data v bm).
  replace (Z.min BPB (sb_size sb - 0)) with (sb_size sb) by (unfold BPB, BSIZE; lia).
  rewrite Hff. apply panics_bind. pose proof (fss_unmodified s0 s l ic v bm Hs Hbm) as Hm.
  eapply (fss_brelse s0 me p Henv s1 _ _ _ Hs1 bm i); [apply lookup_insert_eq|done|].
  intros s2 Hs2. apply panics_bind. wp_steps. rewrite (fss_sb _ _ _ _ Hs2).
  destruct (Z.ltb_spec (0 + BPB) (sb_size sb)); [unfold BPB, BSIZE in *; lia|]. reflexivity.
Qed.

(** bfree clears the bit of a block in use. *)
Lemma wp_bfree s l ic v bl b (Q : unit -> kstate -> Prop) :
  fss s0 s l ic v -> txl start l v bl -> v_held v !! bm = None ->
  (size (v_held v) + length bl < 29)%nat -> data_block sb b -> used sb (v_data v) b ->
  (forall s' l', let v' := v_put bm (clear_bit (v_data v bm) (Z.to_nat b)) v in
     fss s0 s' l' ic v' -> txl start l' v' (bl_add bl bm) -> Q tt s') ->
  wp (bfree 1 b) Q s.
Proof using Henv Hlay.
  intros Hs Ht Hbm Hlen Hdb Hu HQ. destruct (layout_bounds _ _ Hlay) as (Hi & Hb & Hsz & HB).
  unfold data_block in Hdb. unfold bfree. wp_steps. rewrite (fss_sb _ _ _ _ Hs).
  assert (BBLOCK b sb = bm) as ->.
  { rewrite <- HB. unfold BBLOCK. rewrite Z.div_small; [done|unfold BPB, BSIZE; lia]. }
  apply (fss_bread s0 me p Henv s l ic v Hs); auto; [unfold FSSIZE; lia| |].
  { apply (room_available start l v bl); [done|unfold room; lia]. }
  intros i s1 Hs1. wp_steps. eapply (fss_bdata s0 s1 _ _ _ Hs1); [apply lookup_insert_eq|].
  change (v_data (v_hold bm i (p_pid p) v) bm) with (v_data v bm).
  rewrite Z.mod_small by (unfold BPB, BSIZE; lia). unfold used in Hu. rewrite Hu.
  apply (fss_put s0 me p start Henv s1 l ic v bm i _ bl); auto; [now apply (fss_unmodified s0 s l ic)|lia|].
  rewrite length_clear_bit. apply (bi_len _ _ _ (fs_inv _ _ _ _ _ Hs)).
Qed.
End alloc.
