(* ===== verification/Console.v ===== *)
(** Console input: the line discipline of console.c (consoleintr,
    consoleread), consolewrite and consoleinit. *)

From stdpp Require Import base list gmap strings numbers.
From Stdlib Require Import ZArith Lia.
From S2P Require Import Prelude Bytes Itoa Kstate Cons Sched Bio Log Inode.
Open Scope Z_scope.

Definition INPUT_BUF : Z := 128.
(** Control-x *)
Definition C_ (x : Z) : Z := x - 64.

Definition upd_input (f : inputbuf -> inputbuf) : K unit :=
  modify (fun s => s <| k_input := f (k_input s) |>).

(** input.buf[k % INPUT_BUF] *)
Definition input_at (k : Z) : K Z :=
  inp ← gets k_input; of_opt "input.buf" (in_buf inp !! Z.to_nat (k mod INPUT_BUF)).

(** The loop of Control-U: erase back to the start of the line. *)
Fixpoint kill_line (fuel : nat) : K unit :=
  inp ← gets k_input;
  if in_e inp =? in_w inp then ret tt else
  c ← input_at (u32 (in_e inp - 1));
  if c =? 10 then ret tt else
  match fuel with
  | O => nofuel
  | S fuel' =>
    upd_input (fun i => i <| in_e := u32 (in_e i - 1) |>) ;;
    consputc BACKSPACE ;;
    kill_line fuel'
  end.

(** One character [c] read by consoleintr; the result says whether procdump
    was asked for. *)
Definition consoleintr_char (c : Z) : K bool :=
  if c =? C_ 80 then ret true else
  if c =? C_ 85 then kill_line (Z.to_nat INPUT_BUF) ;; ret false else
  if (c =? C_ 72) || (c =? 127) then
    inp ← gets k_input;
    when (negb (in_e inp =? in_w inp))
      (upd_input (fun i => i <| in_e := u32 (in_e i - 1) |>) ;; consputc BACKSPACE) ;;
    ret false
  else
    inp ← gets k_input;
    when (negb (c =? 0) && (u32 (in_e inp - in_r inp) <? INPUT_BUF))
      (let c := if c =? 13 then 10 else c in
       upd_input (fun i => i <| in_buf := <[Z.to_nat (in_e i mod INPUT_BUF) := c]> (in_buf i) |>
                             <| in_e := u32 (in_e i + 1) |>) ;;
       consputc c ;;
       inp ← gets k_input;
       when ((c =? 10) || (c =? C_ 68) || (in_e inp =? u32 (in_r inp + INPUT_BUF)))
         (upd_input (fun i => i <| in_w := in_e i |>) ;; wakeup ChInput)) ;;
    ret false.

(** consoleintr on the characters [cs] that getc() returns before it returns
    a negative number; the result is [doprocdump]. *)
Fixpoint consoleintr_loop (cs : list Z) (doprocdump : bool) : K bool :=
  match cs with
  | [] => ret doprocdump
  | c :: cs' => d ← consoleintr_char c; consoleintr_loop cs' (doprocdump || d)
  end.

Definition consoleintr (cs : list Z) : K bool :=
  acquire LCons ;;
  d ← consoleintr_loop cs false;
  release LCons ;;
  ret d.

(** What the copy loop of consoleread did with the bytes that are there:
    done, or wait for more with [n] bytes still wanted. [got] is what has been
    copied to dst, latest first. *)
Inductive pull := PullDone (n : Z) (got : list Z) | PullWait (n : Z) (got : list Z).

Fixpoint console_pull (fuel : nat) (target n : Z) (got : list Z) : K pull :=
  if n <=? 0 then ret (PullDone n got) else
  match fuel with
  | O => nofuel
  | S fuel' =>
    inp ← gets k_input;
    if in_r inp =? in_w inp then ret (PullWait n got) else
    c ← input_at (in_r inp);
    upd_input (fun i => i <| in_r := u32 (in_r i + 1) |>) ;;
    if c =? C_ 68 then
      when (n <? target) (upd_input (fun i => i <| in_r := u32 (in_r i - 1) |>)) ;;
      ret (PullDone n got)
    else if c =? 10 then ret (PullDone (n - 1) (c :: got))
    else console_pull fuel' target (n - 1) (c :: got)
  end.

(** consoleread from the copy loop on, with [n] of [target] bytes still
    wanted: a thread that is woken up runs it again. *)
Definition consoleread_from (i : nat) (target n : Z) (got : list Z) : K (Z * list Z) :=
  p ← console_pull (Z.to_nat n) target n got;
  match p with
  | PullWait n got =>
    me ← curproc; pr ← proc_at me;
    if negb (p_killed pr =? 0) then release LCons ;; ilock i ;; ret (-1, rev got)
    else sleep ChInput LCons
  | PullDone n got => release LCons ;; ilock i ;; ret (target - n, rev got)
  end.

Definition consoleread (i : nat) (n : Z) : K (Z * list Z) :=
  iunlock i ;;
  acquire LCons ;;
  consoleread_from i n n [].

Definition consolewrite (i : nat) (src : list Z) (n : Z) : K Z :=
  iunlock i ;;
  acquire LCons ;;
  for_ (take (Z.to_nat n) src) (fun c => consputc (u8 c)) ;;
  release LCons ;;
  ilock i ;;
  ret n.

Definition consoleinit : K unit := modify (fun s => s <| k_devsw := true |>).
