(* ===== verification/Conline.v ===== *)
(** The line discipline of the console: what console.c makes of the characters typed.

    The input ring with its three 32-bit indices r, w and e implements two lists, the bytes
    committed for readers and the line being edited, and the keys act on the lists. *)

From stdpp Require Import base list gmap strings numbers.
From Stdlib Require Import ZArith Lia.
From S2P Require Import Prelude Bytes Itoa Kstate Cons Sched Bio Log Inode Console.
Open Scope Z_scope.

(** ** The screen *)

Definition crt_ok (crt : list Z) (pos : Z) : Prop := length crt = 2000%nat /\ 0 <= pos < 1920.

Lemma crt_scroll_length crt pos : length crt = 2000%nat -> 0 <= pos <= 1920 -> length (crt_scroll crt pos) = 2000%nat.
Proof.
  intros Hl Hp. unfold crt_scroll. repeat rewrite ?length_app, ?length_take, ?length_drop, ?length_replicate. lia.
Qed.

Lemma wp_crt_put pos v Q s : length (k_crt s) = 2000%nat -> 0 <= pos < 2000 ->
  Q tt (s <| k_crt := <[Z.to_nat pos := v]> (k_crt s) |>) -> wp (crt_put pos v) Q s.
Proof.
  intros Hl Hp HQ. unfold crt_put. wp_steps. apply wp_if_true; [|now wp_steps]. rewrite Hl.
  apply andb_true_iff. split; [lia|]. apply Nat.ltb_lt. lia.
Qed.

(** Only the screen and the output change. *)
Definition screen (s : kstate) (o crt : list Z) (pos : Z) : kstate :=
  s <| k_conout := o |> <| k_crt := crt |> <| k_crtpos := pos |>.

Lemma screen_same s : screen s (k_conout s) (k_crt s) (k_crtpos s) = s.
Proof. now destruct s. Qed.

Lemma crt_screen s crt1 pos crt2 :
  s <| k_crt := crt1 |> <| k_crtpos := pos |> <| k_crt := crt2 |> = screen s (k_conout s) crt2 pos.
Proof. now destruct s. Qed.

Lemma wp_cgaputc c Q s : crt_ok (k_crt s) (k_crtpos s) ->
  (forall crt pos, crt_ok crt pos -> Q tt (screen s (k_conout s) crt pos)) -> wp (cgaputc c) Q s.
Proof.
  intros [Hl Hp] HQ. set (P := fun (pos : Z) (s' : kstate) =>
    0 <= pos <= 1920 /\ exists crt, length crt = 2000%nat /\ s' = s <| k_crt := crt |>).
  unfold cgaputc. wp_steps. eapply (wp_mono _ P).
  { apply wp_if; intros _; [wp_steps; split; [|exists (k_crt s); split; [done|now destruct s]]; div_lia|].
    apply wp_if; intros _.
    - wp_steps. split; [destruct (Z.ltb_spec 0 (k_crtpos s)); lia|]. exists (k_crt s). split; [done|now destruct s].
    - wp_steps. apply wp_crt_put; [done|lia|]. wp_steps. split; [lia|]. eexists. split; [|reflexivity]. now rewrite length_insert. }
  intros pos s1 (Hpos & crt & Hc & ->). apply wp_if_false; [lia|]. wp_steps.
  eapply (wp_mono _ (fun pos s' => 0 <= pos < 1920 /\ exists crt, length crt = 2000%nat /\ s' = s <| k_crt := crt |>)).
  { apply wp_if; intros H24; wp_steps.
    - split; [div_lia|]. eexists. split; [|reflexivity]. simpl. apply crt_scroll_length; [done|div_lia].
    - split; [div_lia|]. eauto. }
  intros pos' s2 (Hpos' & crt' & Hc' & ->). wp_steps. apply wp_crt_put; [done|lia|].
  rewrite crt_screen. apply HQ. split; [now rewrite length_insert|done].
Qed.

Lemma wp_consputc c Q s : crt_ok (k_crt s) (k_crtpos s) ->
  (forall o crt pos, crt_ok crt pos -> Q tt (screen s o crt pos)) -> wp (consputc c) Q s.
Proof.
  intros Hc HQ. unfold consputc, uartputc. wp_steps. apply wp_if; intros _; wp_steps; apply wp_cgaputc; try done; intros crt pos Hok; apply (HQ _ _ _ Hok).
Qed.

(** ** The ring *)

Definition ring_rep (i : inputbuf) (q el : list Z) : Prop :=
  length (in_buf i) = 128%nat /\ is_u32 (in_r i) /\ (length (q ++ el) <= 128)%nat /\
  in_w i = u32 (in_r i + Z.of_nat (length q)) /\ in_e i = u32 (in_r i + Z.of_nat (length (q ++ el))) /\
  forall k x, (q ++ el) !! k = Some x -> in_buf i !! Z.to_nat ((in_r i + Z.of_nat k) mod INPUT_BUF) = Some x.

Lemma u32_mod_input x : u32 x mod INPUT_BUF = x mod INPUT_BUF.
Proof. unfold u32, INPUT_BUF. div_lia. Qed.

Section ring.
Context (i : inputbuf) (q el : list Z).
Hypothesis Hi : ring_rep i q el.

Lemma ring_empty_edit : (in_e i =? in_w i) = true <-> el = [].
Proof.
  destruct Hi as (_ & Hr & Hl & -> & -> & _). rewrite length_app in *. rewrite Z.eqb_eq. unfold is_u32 in Hr. split.
  - intros E. destruct el; [done|]. simpl in *. unfold u32 in E. div_lia.
  - intros ->. f_equal. simpl. lia.
Qed.

Lemma ring_empty_done : (in_r i =? in_w i) = true <-> q = [].
Proof.
  destruct Hi as (_ & Hr & Hl & -> & _ & _). rewrite length_app in *. rewrite Z.eqb_eq. unfold is_u32 in Hr. split.
  - intros E. destruct q; [done|]. simpl in *. unfold u32 in E. div_lia.
  - intros ->. simpl. unfold u32. div_lia.
Qed.

Lemma ring_room : (u32 (in_e i - in_r i) <? INPUT_BUF) = bool_decide (length (q ++ el) < 128)%nat.
Proof.
  destruct Hi as (_ & Hr & Hl & _ & -> & _). rewrite u32_sub_l. replace (in_r i + _ - in_r i) with (Z.of_nat (length (q ++ el))) by lia.
  rewrite u32_small by lia. unfold INPUT_BUF. case_bool_decide; lia.
Qed.

Lemma ring_put c : (length (q ++ el) < 128)%nat ->
  ring_rep (i <| in_buf := <[Z.to_nat (in_e i mod INPUT_BUF) := c]> (in_buf i) |> <| in_e := u32 (in_e i + 1) |>) q (el ++ [c]).
Proof.
  intros Hlt. destruct Hi as (Hb & Hr & Hl & Hw & He & Hd). unfold ring_rep. simpl in_buf; simpl in_r; simpl in_w; simpl in_e.
  rewrite app_assoc, (length_app (q ++ el)), length_insert. simpl. repeat split; auto; try apply Hr; [lia| |].
  - rewrite He, u32_add_l. f_equal. lia.
  - rewrite He, u32_mod_input. intros k x Hk. unfold INPUT_BUF in *. destruct (decide (k < length (q ++ el))%nat) as [Hk'|Hk'].
    + rewrite lookup_app_l in Hk by done. rewrite list_lookup_insert_ne; [now apply Hd|]. div_lia.
    + rewrite lookup_app_r in Hk by lia. assert (k = length (q ++ el)) as ->.
      { apply lookup_lt_Some in Hk. simpl in Hk. lia. }
      rewrite Nat.sub_diag in Hk. injection Hk as <-. rewrite list_lookup_insert_eq; [done|]. rewrite Hb. div_lia.
Qed.

Lemma ring_commit : ring_rep (i <| in_w := in_e i |>) (q ++ el) [].
Proof.
  destruct Hi as (Hb & Hr & Hl & Hw & He & Hd). unfold ring_rep. simpl in_buf; simpl in_r; simpl in_w; simpl in_e. rewrite app_nil_r. auto 10.
Qed.
End ring.

Lemma ring_back i q el x : ring_rep i q (el ++ [x]) -> ring_rep (i <| in_e := u32 (in_e i - 1) |>) q el.
Proof.
  intros (Hb & Hr & Hl & Hw & He & Hd). rewrite app_assoc, (length_app (q ++ el)) in *. simpl in *.
  unfold ring_rep. simpl in_buf; simpl in_r; simpl in_w; simpl in_e. repeat split; auto; try apply Hr; [lia| |].
  - rewrite He, u32_sub_l. f_equal. lia.
  - intros k y Hk. apply Hd. now apply lookup_app_l_Some.
Qed.

Lemma ring_last i q el x : ring_rep i q (el ++ [x]) ->
  in_buf i !! Z.to_nat (u32 (in_e i - 1) mod INPUT_BUF) = Some x.
Proof.
  intros (Hb & Hr & Hl & Hw & He & Hd). rewrite app_assoc, (length_app (q ++ el)) in *. simpl in *.
  rewrite u32_mod_input, He, <- Zminus_mod_idemp_l, u32_mod_input, Zminus_mod_idemp_l.
  replace (in_r i + _ - 1) with (in_r i + Z.of_nat (length (q ++ el))) by lia. apply Hd.
  rewrite lookup_app_r, Nat.sub_diag by lia. done.
Qed.

Lemma ring_get i c q el : ring_rep i (c :: q) el ->
  in_buf i !! Z.to_nat (in_r i mod INPUT_BUF) = Some c /\ ring_rep (i <| in_r := u32 (in_r i + 1) |>) q el.
Proof.
  intros (Hb & Hr & Hl & Hw & He & Hd). split.
  - specialize (Hd 0%nat c eq_refl). now rewrite Z.add_0_r in Hd.
  - unfold ring_rep. simpl in_buf; simpl in_r; simpl in_w; simpl in_e. simpl in *. repeat split; auto.
    + unfold u32. div_lia.
    + unfold u32. div_lia.
    + lia.
    + rewrite Hw, u32_add_l. f_equal. lia.
    + rewrite He, u32_add_l. f_equal. lia.
    + intros k x Hk. specialize (Hd (S k) x Hk). rewrite <- Zplus_mod_idemp_l, u32_mod_input, Zplus_mod_idemp_l.
      replace (in_r i + 1 + Z.of_nat k) with (in_r i + Z.of_nat (S k)) by lia. done.
Qed.

(** ** The lists *)

(** What the character [c] does to the committed bytes and the line being edited. *)
Definition ln_key (l : list Z * list Z) (c : Z) : list Z * list Z :=
  let '(q, el) := l in
  if c =? C_ 80 then l
  else if c =? C_ 85 then (q, [])
  else if (c =? C_ 72) || (c =? 127) then (q, take (length el - 1) el)
  else if negb (c =? 0) && bool_decide (length (q ++ el) < 128)%nat then
    let c := if c =? 13 then 10 else c in
    let el := el ++ [c] in
    if (c =? 10) || (c =? C_ 68) || bool_decide (length (q ++ el) = 128)%nat then (q ++ el, []) else (q, el)
  else l.

Definition in_rep (i : inputbuf) (l : list Z * list Z) : Prop := ring_rep i l.1 l.2 /\ 10 ∉ l.2.

Definition con_ok (s : kstate) (l : list Z * list Z) : Prop := in_rep (k_input s) l /\ crt_ok (k_crt s) (k_crtpos s).

Definition con_upd (s : kstate) (ps : list proc) (i : inputbuf) (o crt : list Z) (pos : Z) : kstate :=
  s <| k_procs := ps |> <| k_input := i |> <| k_conout := o |> <| k_crt := crt |> <| k_crtpos := pos |>.

(** Nothing changes but the console and processes that are woken up. *)
Definition con_frame (s s' : kstate) : Prop :=
  (exists ps i o crt pos, s' = con_upd s ps i o crt pos) /\
  forall j p, k_procs s !! j = Some p -> p_state p = RUNNING -> k_procs s' !! j = Some p.

Lemma con_frame_refl s : con_frame s s.
Proof. split; [|done]. exists (k_procs s), (k_input s), (k_conout s), (k_crt s), (k_crtpos s). now destruct s. Qed.

Lemma con_frame_trans s1 s2 s3 : con_frame s1 s2 -> con_frame s2 s3 -> con_frame s1 s3.
Proof.
  intros [(ps & i & o & crt & pos & ->) R1] [(ps' & i' & o' & crt' & pos' & ->) R2].
  split; [|intros j p Hp Hr; apply R2; [apply R1; [exact Hp|exact Hr]|exact Hr]].
  exists ps', i', o', crt', pos'. now destruct s1.
Qed.

Lemma con_frame_screen s i o crt pos : con_frame s (screen (s <| k_input := i |>) o crt pos).
Proof. split; [|done]. exists (k_procs s), i, o, crt, pos. now destruct s. Qed.

Lemma con_frame_input s i : con_frame s (s <| k_input := i |>).
Proof. split; [|done]. exists (k_procs s), i, (k_conout s), (k_crt s), (k_crtpos s). now destruct s. Qed.

Lemma con_frame_held s s' : con_frame s s' -> k_held s' = k_held s.
Proof. now intros [(ps & i & o & crt & pos & ->) _]. Qed.

Lemma con_frame_fields s s' : con_frame s s' -> k_cur s' = k_cur s /\ k_icache s' = k_icache s.
Proof. now intros [(ps & i & o & crt & pos & ->) _]. Qed.

Lemma wake_running_at c (l : list proc) j p : l !! j = Some p -> p_state p = RUNNING -> (wake c <$> l) !! j = Some p.
Proof.
  intros Hp Hr. rewrite list_lookup_fmap, Hp. simpl. f_equal. unfold wake. rewrite bool_decide_eq_false_2; [done|]. now rewrite Hr.
Qed.

Lemma con_frame_wake s c : con_frame s (s <| k_procs := wake c <$> k_procs s |>).
Proof.
  split; [|intros j p Hp Hr; simpl; now apply wake_running_at].
  exists (wake c <$> k_procs s), (k_input s), (k_conout s), (k_crt s), (k_crtpos s). now destruct s.
Qed.

(** Control-U *)
Lemma wp_kill_line q : forall el fuel s, con_ok s (q, el) -> (length el <= fuel)%nat ->
  wp (kill_line fuel) (fun _ s' => con_ok s' (q, []) /\ con_frame s s') s.
Proof.
  induction el as [|x el IH] using rev_ind; intros fuel s [[Hi Hn] Hc] Hf.
  - assert ((in_e (k_input s) =? in_w (k_input s)) = true) as E by now apply (ring_empty_edit _ _ _ Hi).
    destruct fuel; simpl; wp_steps; (split; [done|apply con_frame_refl]).
  - rewrite length_app in Hf. simpl in Hf. destruct fuel as [|fuel]; [lia|]. simpl. wp_steps.
    rewrite (not_true_is_false (in_e (k_input s) =? in_w (k_input s))) by (rewrite (ring_empty_edit _ _ _ Hi); now destruct el).
    wp_steps. unfold input_at. wp_steps. eapply wp_of_opt; [exact (ring_last _ _ _ _ Hi)|]. simpl in Hn.
    apply wp_if_false; [apply Z.eqb_neq; set_solver|]. unfold upd_input. wp_steps. apply wp_consputc; [done|].
    intros o crt pos Hcrt. eapply wp_mono; [apply IH; [|lia]|].
    + split; [|done]. split; [exact (ring_back _ _ _ _ Hi)|]. simpl. set_solver.
    + intros _ s' [H1 H2]. split; [done|]. eapply con_frame_trans; [|exact H2]. apply con_frame_screen.
Qed.

(** The branch of a character that is stored. *)
Lemma wp_store_char c q el s : con_ok s (q, el) -> LPtable ∉ k_held s -> (length (q ++ el) < 128)%nat ->
  wp (upd_input (fun i => i <| in_buf := <[Z.to_nat (in_e i mod INPUT_BUF) := c]> (in_buf i) |>
                            <| in_e := u32 (in_e i + 1) |>) ;;
      consputc c ;;
      inp ← gets k_input;
      when ((c =? 10) || (c =? C_ 68) || (in_e inp =? u32 (in_r inp + INPUT_BUF)))
        (upd_input (fun i => i <| in_w := in_e i |>) ;; wakeup ChInput))
    (fun _ s' => con_ok s' (if (c =? 10) || (c =? C_ 68) || bool_decide (length (q ++ el ++ [c]) = 128)%nat
                            then (q ++ el ++ [c], []) else (q, el ++ [c])) /\ con_frame s s') s.
Proof.
  intros [[Hi Hn] Hc] Hh Hlt. pose proof (ring_put _ _ _ Hi c Hlt) as Hi'. simpl in Hi, Hi'. unfold upd_input. wp_steps.
  apply wp_consputc; [done|]. intros o crt pos Hcrt. wp_steps.
  assert (forall i', ring_rep i' q (el ++ [c]) -> (in_e i' =? u32 (in_r i' + INPUT_BUF)) = bool_decide (length (q ++ el ++ [c]) = 128)%nat) as Efull.
  { intros i' (_ & Hr & Hl & _ & -> & _). unfold is_u32, INPUT_BUF in *. case_bool_decide as E.
    - rewrite E. apply Z.eqb_eq. f_equal.
    - apply Z.eqb_neq. unfold u32. div_lia. }
  cbn [k_input screen setf]. simpl k_input. rewrite (Efull _ Hi'). apply wp_when; intros E; rewrite E.
  - wp_steps. apply wp_wakeup; [done|]. split.
    + split; [|done]. split; [|simpl; set_solver]. exact (ring_commit _ _ _ Hi').
    + eapply con_frame_trans; [|apply con_frame_wake]. eapply con_frame_trans; [|apply con_frame_input]. apply con_frame_screen.
  - split; [split; [|done]; split; [done|]|apply con_frame_screen]. simpl. simpl in Hn. rewrite !orb_false_iff, Z.eqb_neq in E. set_solver.
Qed.

Lemma wp_consoleintr_char c l s : con_ok s l -> LPtable ∉ k_held s ->
  wp (consoleintr_char c) (fun d s' => d = (c =? C_ 80) /\ con_ok s' (ln_key l c) /\ con_frame s s') s.
Proof.
  intros Hok Hh. destruct l as [q el]. pose proof Hok as [[Hi Hn] Hc]. simpl in Hi, Hn.
  pose proof Hi as (_ & _ & Hl & _). rewrite length_app in Hl. unfold consoleintr_char, ln_key.
  destruct (c =? C_ 80); [wp_steps; auto using con_frame_refl|]. destruct (c =? C_ 85).
  { wp_steps. eapply wp_mono; [apply (wp_kill_line q el _ s Hok); unfold INPUT_BUF; lia|]. intros u s' H. now wp_steps. }
  destruct ((c =? C_ 72) || (c =? 127)).
  { wp_steps. assert (el = [] \/ exists el' x, el = el' ++ [x]) as [->|(el' & x & ->)].
    { destruct el as [|y el0 _] using rev_ind; eauto. }
    - rewrite (proj2 (ring_empty_edit _ _ _ Hi)) by done. cbn [negb when]. wp_steps. split; [done|]. split; [exact Hok|apply con_frame_refl].
    - rewrite (not_true_is_false (in_e (k_input s) =? in_w (k_input s))) by (rewrite (ring_empty_edit _ _ _ Hi); now destruct el').
      cbn [negb when]. unfold upd_input. wp_steps. apply wp_consputc; [done|]. intros o crt pos Hcrt. wp_steps. split; [done|].
      rewrite length_app, Nat.add_sub, take_app_length. split; [|apply con_frame_screen]. split; [|done].
      split; [exact (ring_back _ _ _ _ Hi)|]. simpl. set_solver. }
  wp_steps. rewrite (ring_room _ _ _ Hi). apply wp_when; intros E; rewrite E; [|wp_steps; auto using con_frame_refl].
  apply andb_prop in E as [_ E%bool_decide_eq_true]. eapply wp_mono; [apply (wp_store_char _ q el s Hok Hh E)|].
  intros u s' H. now wp_steps.
Qed.

Lemma wp_consoleintr_loop cs : forall d l s, con_ok s l -> LPtable ∉ k_held s ->
  wp (consoleintr_loop cs d) (fun _ s' => con_ok s' (fold_left ln_key cs l) /\ con_frame s s') s.
Proof.
  induction cs as [|c cs IH]; intros d l s Hok Hh; simpl; wp_steps; [auto using con_frame_refl|].
  eapply wp_mono; [apply (wp_consoleintr_char c l s Hok Hh)|]. intros d' s1 (_ & Hok1 & F1).
  eapply wp_mono; [apply (IH _ _ s1 Hok1); now rewrite (con_frame_held _ _ F1)|]. intros _ s2 [Hok2 F2].
  eauto using con_frame_trans.
Qed.

Lemma procs_set_held s h : k_procs (s <| k_held := h |>) = k_procs s.
Proof. now destruct s. Qed.

Lemma con_frame_held_update s s' h : con_frame (s <| k_held := h |>) s' -> con_frame s (s' <| k_held := k_held s |>).
Proof.
  intros [(ps & i & o & crt & pos & ->) R].
  rewrite procs_set_held in R. split; [|rewrite procs_set_held; exact R]. exists ps, i, o, crt, pos. now destruct s.
Qed.

Lemma wp_consoleintr cs l s : con_ok s l -> LCons ∉ k_held s -> LPtable ∉ k_held s ->
  wp (consoleintr cs) (fun _ s' => con_ok s' (fold_left ln_key cs l) /\ con_frame s s') s.
Proof.
  intros Hok Hc Hp. unfold consoleintr. wp_steps. apply wp_acquire; [done|]. wp_steps.
  eapply wp_mono; [apply (wp_consoleintr_loop cs false l); [exact Hok|simpl; set_solver]|]. intros d s1 [Hok1 F1]. wp_steps.
  apply (wp_release_head LCons (k_held s)); [exact (con_frame_held _ _ F1)|]. wp_steps.
  split; [exact Hok1|]. exact (con_frame_held_update _ _ _ F1).
Qed.

(** ** Reading *)

(** What a read of [n] bytes takes from the committed bytes: the bytes up to a newline or an end
    of file, and what is left, with a flag that says whether the read is complete. An end of file
    after other bytes is kept for the next read. *)
Fixpoint ln_read (n : nat) (fresh : bool) (q : list Z) : list Z * list Z * bool :=
  match n, q with
  | O, _ => ([], q, true)
  | S n, [] => ([], [], false)
  | S n, c :: q' =>
    if c =? C_ 68 then ([], if fresh then q' else q, true)
    else if c =? 10 then ([c], q', true)
    else let '(got, rest, full) := ln_read n false q' in (c :: got, rest, full)
  end.

Lemma ring_unget i : is_u32 (in_r i) -> i <| in_r := u32 (in_r i + 1) |> <| in_r := u32 (in_r (i <| in_r := u32 (in_r i + 1) |>) - 1) |> = i.
Proof. intros H. destruct i. simpl in *. unfold setf, set_in_r. simpl. f_equal. word_lia. Qed.

(** The result of the copy loop, given what is read. *)
Definition pulled (n : Z) (acc : list Z) (r : list Z * list Z * bool) (el : list Z) (s : kstate) (p : pull) (s' : kstate) : Prop :=
  let '(got, rest, full) := r in
  p = (if full then PullDone else PullWait) (n - Z.of_nat (length got)) (rev got ++ acc) /\
  con_ok s' (rest, el) /\ con_frame s s'.

Lemma pulled_none n acc full q el s : con_ok s (q, el) -> pulled n acc ([], q, full) el s ((if full then PullDone else PullWait) n acc) s.
Proof. intros H. unfold pulled. simpl. rewrite Z.sub_0_r. auto using con_frame_refl. Qed.

Lemma wp_console_pull q el : forall n fuel target acc s, con_ok s (q, el) -> (Z.to_nat n <= fuel)%nat -> 0 <= n <= target ->
  wp (console_pull fuel target n acc) (pulled n acc (ln_read (Z.to_nat n) (n =? target) q) el s) s.
Proof.
  induction q as [|c q IH]; intros n fuel target acc s Hok Hf Hr; pose proof Hok as [[Hi Hn] Hc]; simpl in Hi, Hn.
  all: destruct (Z.to_nat n) as [|m] eqn:En; [destruct fuel; simpl; (apply wp_if_true; [lia|]); wp_steps; now apply pulled_none|].
  all: destruct fuel as [|fuel]; [lia|]; cbn [console_pull ln_read]; (apply wp_if_false; [lia|]); wp_steps.
  { rewrite (proj2 (ring_empty_done _ _ _ Hi)) by done. wp_steps. now apply pulled_none. }
  rewrite (not_true_is_false (in_r (k_input s) =? in_w (k_input s))) by (rewrite (ring_empty_done _ _ _ Hi); done).
  destruct (ring_get _ _ _ _ Hi) as [Hget Hi']. unfold input_at. wp_steps. unfold upd_input. wp_steps.
  set (s1 := s <| k_input := _ |>). assert (con_ok s1 (q, el)) as Hok1 by (split; [split; [exact Hi'|exact Hn]|exact Hc]).
  pose proof (con_frame_input s ((k_input s) <| in_r := u32 (in_r (k_input s) + 1) |>)) as F1. fold s1 in F1.
  destruct (c =? C_ 68).
  { wp_steps. replace (n <? target) with (negb (n =? target)) by lia. destruct (n =? target); cbn [negb when].
    - wp_steps. unfold pulled. simpl. rewrite Z.sub_0_r. auto.
    - wp_steps. unfold pulled. simpl length. simpl rev. rewrite Z.sub_0_r. split; [done|].
      split; [|exact (con_frame_trans _ _ _ F1 (con_frame_input _ _))].
      split; [|exact Hc]. split; [|exact Hn]. exact (eq_ind_r (fun i => ring_rep i (c :: q) el) Hi (ring_unget (k_input s) (proj1 (proj2 Hi)))). }
  destruct (c =? 10); [wp_steps; unfold pulled; simpl; auto|].
  eapply wp_mono; [apply (IH (n - 1) fuel target (c :: acc) s1 Hok1); lia|]. intros p s' H.
  replace (Z.to_nat (n - 1)) with m in H by lia. replace (n - 1 =? target) with false in H by lia.
  destruct (ln_read m false q) as [[got rest] full]. destruct H as (-> & H2 & H3). split; [|eauto using con_frame_trans].
  cbn [length rev]. rewrite <- app_assoc. replace (n - Z.of_nat (S (length got))) with (n - 1 - Z.of_nat (length got)) by lia. done.
Qed.

(** ** consoleread *)

(** The running process [me] holds the lock of the console's inode, which is in memory. *)
Record console_reader (s : kstate) (me : nat) (p : proc) (i : nat) (ip : inode) : Prop := {
  cr_cur : k_cur s = Some me;
  cr_proc : k_procs s !! me = Some p;
  cr_running : p_state p = RUNNING;
  cr_held : k_held s = [];
  cr_inode : k_icache s !! i = Some ip;
  cr_lock : i_lock ip = mk_sleeplock 1 (p_pid p);
  cr_ref : 1 <= i_ref ip;
  cr_valid : i_valid ip = 1
}.

Lemma console_reader_frame s s' me p i ip : con_frame s s' -> console_reader s me p i ip -> console_reader s' me p i ip.
Proof.
  intros [(ps & inp & o & crt & pos & ->) R] [H1 H2 H3 H4 H5 H6 H7 H8]. constructor; auto.
Qed.

Section read.
Context (s : kstate) (me : nat) (p : proc) (i : nat) (ip : inode).
Hypothesis Hr : console_reader s me p i ip.

(** iunlock before the wait for input. *)
Lemma wp_reader_iunlock (Q : unit -> kstate -> Prop) :
  Q tt (s <| k_icache := <[i := ip <| i_lock := mk_sleeplock 0 0 |>]> (k_icache s) |>
          <| k_procs := wake (ChSleeplock (SLInode i)) <$> k_procs s |>) -> wp (iunlock i) Q s.
Proof.
  intros HQ. destruct Hr as [H1 H2 H3 H4 H5 H6 H7 H8]. unfold iunlock. wp_steps.
  assert (sl_ready (SLInode i) me p s) as Hrd by (split; [done|]; split; [done|]; rewrite H4; set_solver).
  apply (wp_holdingsleep_inode i ip me p s H5 Hrd). wp_steps. apply (wp_inode_at i ip); [done|]. wp_steps.
  rewrite H6. simpl. rewrite Z.eqb_refl. apply wp_if_false; [lia|]. apply (wp_releasesleep_inode i ip me p s H5 Hrd). exact HQ.
Qed.

(** ilock after it. *)
Lemma wp_reader_ilock (Q : unit -> kstate -> Prop) s' ip' :
  k_cur s' = Some me -> k_procs s' !! me = Some p -> k_held s' = [] -> k_icache s' !! i = Some ip' ->
  sl_locked (i_lock ip') = 0 -> 1 <= i_ref ip' -> i_valid ip' = 1 ->
  Q tt (s' <| k_icache := <[i := ip' <| i_lock := mk_sleeplock 1 (p_pid p) |>]> (k_icache s') |>) -> wp (ilock i) Q s'.
Proof.
  intros H1 H2 H4 H5 H6 H7 H8 HQ. unfold ilock. wp_steps. apply (wp_inode_at i ip'); [done|]. wp_steps.
  apply wp_if_false; [lia|]. assert (sl_ready (SLInode i) me p s') as Hrd by (split; [done|]; split; [done|]; rewrite H4; set_solver).
  wp_steps. apply (wp_acquiresleep_inode i ip' me p s' H5 Hrd); [done|]. wp_steps.
  eapply wp_inode_at; [simpl; apply list_lookup_insert_eq; now apply lookup_lt_Some in H5|].
  simpl. rewrite H8. cbn [Z.eqb when]. wp_steps. exact HQ.
Qed.

(** The state in which the copy loop runs. *)
Definition reading : kstate :=
  s <| k_icache := <[i := ip <| i_lock := mk_sleeplock 0 0 |>]> (k_icache s) |>
    <| k_procs := wake (ChSleeplock (SLInode i)) <$> k_procs s |> <| k_held := [LCons] |>.

Lemma reading_proc : k_procs reading !! me = Some p.
Proof. simpl. apply wake_running_at; apply Hr. Qed.

Lemma wp_reader_done (Q : unit -> kstate -> Prop) s3 : con_frame reading s3 ->
  (forall s', k_input s' = k_input s3 -> k_crt s' = k_crt s3 -> k_crtpos s' = k_crtpos s3 -> Q tt s') ->
  wp (release LCons) (fun _ s' => wp (ilock i) Q s') s3.
Proof.
  intros F HQ. destruct (con_frame_fields _ _ F) as [Fc Fi]. pose proof (con_frame_held _ _ F) as Fh. destruct F as [_ R].
  pose proof (R me p reading_proc (cr_running _ _ _ _ _ Hr)) as Hp. apply (wp_release_head LCons []); [exact Fh|].
  assert (k_icache s3 !! i = Some (ip <| i_lock := mk_sleeplock 0 0 |>)) as Hi.
  { rewrite Fi. simpl. apply list_lookup_insert_eq. eapply lookup_lt_Some. apply Hr. }
  eapply (wp_reader_ilock _ (s3 <| k_held := [] |>)); [|exact Hp|done|exact Hi|done|apply Hr|apply Hr|now apply HQ].
  simpl. rewrite Fc. apply Hr.
Qed.
End read.

(** The sleep of a reader: it gives up the console lock and waits for input. *)
Definition waits_for_input (me : nat) (s : kstate) : Prop :=
  k_held s = [LPtable] /\ exists p, k_procs s !! me = Some p /\ p_state p = SLEEPING /\ p_chan p = ChInput.

(** A read of what has been committed. *)
Lemma wp_consoleread s me p i ip q el n got rest :
  console_reader s me p i ip -> con_ok s (q, el) -> 0 <= n -> ln_read (Z.to_nat n) true q = (got, rest, true) ->
  wp (consoleread i n) (fun r s' => r = (Z.of_nat (length got), got) /\ con_ok s' (rest, el)) s.
Proof.
  intros Hr Hok Hn E. unfold consoleread. wp_steps. apply (wp_reader_iunlock s me p i ip Hr). wp_steps.
  apply wp_acquire; [simpl; rewrite (cr_held _ _ _ _ _ Hr); set_solver|]. simpl k_held. rewrite (cr_held _ _ _ _ _ Hr).
  fold (reading s i ip). unfold consoleread_from. wp_steps.
  eapply wp_mono; [apply (wp_console_pull q el n (Z.to_nat n) n [] (reading s i ip) Hok); lia|].
  intros pl s3 H. rewrite Z.eqb_refl, E in H. destruct H as (-> & Hok3 & F). rewrite app_nil_r. wp_steps.
  eapply wp_mono; [apply (wp_reader_done s me p i ip Hr (fun _ s' => con_ok s' (rest, el)) s3 F)|].
  - intros s' H1 H2 H3. unfold con_ok in *. now rewrite H1, H2, H3.
  - intros u s4 H. wp_steps. eapply wp_mono; [exact H|]. intros u' s' H'. wp_steps. rewrite rev_involutive. split; [f_equal; lia|done].
Qed.

Lemma consoleread_waits s me p i ip q el n got rest :
  console_reader s me p i ip -> con_ok s (q, el) -> p_killed p = 0 -> 0 <= n -> ln_read (Z.to_nat n) true q = (got, rest, false) ->
  wps (consoleread i n) (fun _ _ => False) (fun s' => waits_for_input me s' /\ con_ok s' (rest, el)) s.
Proof.
  intros Hr Hok Hk Hn E. unfold consoleread. apply wps_bind_wp, (wp_reader_iunlock s me p i ip Hr). apply wps_bind_wp.
  apply wp_acquire; [simpl; rewrite (cr_held _ _ _ _ _ Hr); set_solver|]. simpl k_held. rewrite (cr_held _ _ _ _ _ Hr).
  fold (reading s i ip). unfold consoleread_from. apply wps_bind_wp.
  eapply wp_mono; [apply (wp_console_pull q el n (Z.to_nat n) n [] (reading s i ip) Hok); lia|].
  intros pl s3 H. rewrite Z.eqb_refl, E in H. destruct H as (-> & Hok3 & F). destruct (con_frame_fields _ _ F) as [Fc Fi].
  pose proof (con_frame_held _ _ F) as Fh. destruct F as [_ R]. pose proof (R me p (reading_proc s me p i ip Hr) (cr_running _ _ _ _ _ Hr)) as Hp.
  assert (k_cur s3 = Some me) as Hc by (rewrite Fc; apply Hr).
  apply wps_bind_wp, (wp_curproc me); [done|]. apply wps_bind_wp, (wp_proc_at me p); [done|]. rewrite Hk. cbn [Z.eqb negb].
  eapply wps_switch; [exact (sleep_eq me p ChInput LCons s3 Hc Hp Fh)|]. split; [|exact Hok3]. split; [done|].
  eexists. split; [simpl; apply list_lookup_insert_eq; now apply lookup_lt_Some in Hp|]. done.
Qed.

(** C23: the console implements a line discipline. Whatever characters arrive and however its
    32-bit indices wrap, the input ring holds the committed bytes and the line being edited as the
    keys make them: a character is appended, Control-H and delete remove the last of the line,
    Control-U all of it, and a newline, Control-D or a full ring commits the line; nothing else of
    the kernel changes but the screen and the processes that wait for input. *)
Theorem console_line_discipline cs l s : con_ok s l -> LCons ∉ k_held s -> LPtable ∉ k_held s ->
  wp (consoleintr cs) (fun _ s' => con_ok s' (fold_left ln_key cs l) /\ con_frame s s') s.
Proof. exact (wp_consoleintr cs l s). Qed.

(** consoleread delivers the committed bytes up to the first newline, the number asked for, or
    an end of file, which it keeps for the next read unless it is the first character; when the
    bytes run out before that it sleeps until there is input, with what it had taken removed. *)
Theorem consoleread_spec s me p i ip q el n :
  console_reader s me p i ip -> con_ok s (q, el) -> p_killed p = 0 -> 0 <= n ->
  let '(got, rest, full) := ln_read (Z.to_nat n) true q in
  wps (consoleread i n)
    (fun r s' => full = true /\ r = (Z.of_nat (length got), got) /\ con_ok s' (rest, el))
    (fun s' => full = false /\ waits_for_input me s' /\ con_ok s' (rest, el)) s.
Proof.
  intros Hr Hok Hk Hn. destruct (ln_read (Z.to_nat n) true q) as [[got rest] []] eqn:E.
  - apply wps_wp. eapply wp_mono; [exact (wp_consoleread s me p i ip q el n got rest Hr Hok Hn E)|]. done.
  - eapply wps_mono; [exact (consoleread_waits s me p i ip q el n got rest Hr Hok Hk Hn E)|done|done].
Qed.

(** ** Examples *)

(** Process 0 runs with the console's inode locked; the input ring is empty, near the wrap of its
    indices. *)
Definition ex_con_proc : proc := zero_proc <| p_state := RUNNING |> <| p_pid := 5 |>.
Definition ex_con : kstate :=
  (boot_state (mk_symbols 0x80110000 0x80108000 0x80103000 0x80105000) ∅)
    <| k_cur := Some 0%nat |> <| k_procs := [ex_con_proc] |>
    <| k_icache := [zero_inode <| i_ref := 1 |> <| i_valid := 1 |> <| i_lock := mk_sleeplock 1 5 |>] |>
    <| k_input := mk_inputbuf (replicate 128 0) 4294967290 4294967290 4294967290 |>.

Lemma ex_con_ok : con_ok ex_con ([], []).
Proof.
  split; [|split; [reflexivity|simpl; lia]]. split; [|apply not_elem_of_nil].
  split; [reflexivity|]. split; [unfold is_u32; simpl; lia|]. split; [simpl; lia|]. split; [reflexivity|]. split; [reflexivity|]. intros k x H. destruct k; discriminate H.
Qed.

Lemma ex_con_reader : console_reader ex_con 0 ex_con_proc 0 (zero_inode <| i_ref := 1 |> <| i_valid := 1 |> <| i_lock := mk_sleeplock 1 5 |>).
Proof. constructor; try reflexivity. Qed.

Lemma console_line_discipline_witness :
  fold_left ln_key (str "ab" ++ [127] ++ str "c" ++ [10]) ([], []) = (str "ac" ++ [10], []) /\
  wp (consoleintr (str "ab" ++ [127] ++ str "c" ++ [10]))
    (fun _ s' => con_ok s' (fold_left ln_key (str "ab" ++ [127] ++ str "c" ++ [10]) ([], [])) /\ con_frame ex_con s') ex_con.
Proof.
  split; [reflexivity|].
  exact (console_line_discipline (str "ab" ++ [127] ++ str "c" ++ [10]) ([], []) ex_con ex_con_ok (not_elem_of_nil _) (not_elem_of_nil _)).
Defined.

Lemma consoleread_spec_witness :
  wps (consoleread 0 10)
    (fun r s' => false = true /\ r = (0, []) /\ con_ok s' ([], []))
    (fun s' => false = false /\ waits_for_input 0 s' /\ con_ok s' ([], [])) ex_con.
Proof.
  pose proof (consoleread_spec ex_con 0 ex_con_proc 0 _ [] [] 10 ex_con_reader ex_con_ok eq_refl ltac:(lia)) as H.
  assert (ln_read (Z.to_nat 10) true [] = ([], [], false)) as E by reflexivity. rewrite E in H. exact H.
Defined.
