(* ===== verification/Kbd.v ===== *)
(** The keyboard, kbd.c and kbd.h: translation of scan codes to characters.

    The bytes the controller has are a list; the status port says whether there is one. *)

From stdpp Require Import base list gmap strings numbers.
From Stdlib Require Import ZArith Lia.
From S2P Require Import Prelude Itoa Kstate Console.
Open Scope Z_scope.

(** ** kbd.h *)

Definition SHIFT : Z := 1.
Definition CTL : Z := 2.
Definition ALT : Z := 4.
Definition CAPSLOCK : Z := 8.
Definition NUMLOCK : Z := 16.
Definition SCROLLLOCK : Z := 32.
Definition E0ESC : Z := 64.

(** A uchar array of 256 elements with the initializers: first elements, then designated ones. *)
Definition table (init : list Z) (des : list (Z * Z)) (i : Z) : option Z :=
  if negb ((0 <=? i) && (i <? 256)) then None else
  match List.find (fun d : Z * Z => d.1 =? i) des with
  | Some d => Some (u8 d.2)
  | None => Some (default 0 (init !! Z.to_nat i))
  end.

Definition shiftcode : Z -> option Z :=
  table [] [(0x1D, CTL); (0x2A, SHIFT); (0x36, SHIFT); (0x38, ALT); (0x9D, CTL); (0xB8, ALT)].
Definition togglecode : Z -> option Z :=
  table [] [(0x3A, CAPSLOCK); (0x45, NUMLOCK); (0x46, SCROLLLOCK)].

(** KEY_HOME to KEY_DEL, which all three maps have. *)
Definition special_keys : list (Z * Z) :=
  [(0xC8, 0xE2); (0xD0, 0xE3); (0xC9, 0xE6); (0xD1, 0xE7); (0xCB, 0xE4); (0xCD, 0xE5); (0x97, 0xE0); (0xCF, 0xE1);
   (0xD2, 0xE8); (0xD3, 0xE9)].
(** The key pad, from 0x47 on. *)
Definition key_pad : list Z := str "789-456+1230.".

Definition normalmap : Z -> option Z :=
  table ([0; 27] ++ str "1234567890-=" ++ [8; 9] ++ str "qwertyuiop[]" ++ [10; 0] ++ str "asdfghjkl;'`" ++ [0] ++
         str "\zxcvbnm,./" ++ [0; 42; 0; 32] ++ replicate 13 0 ++ key_pad)
        ((0x9C, 10) :: (0xB5, 47) :: special_keys).

Definition shiftmap : Z -> option Z :=
  table ([0; 27] ++ str "!@#$%^&*()_+" ++ [8; 9] ++ str "QWERTYUIOP{}" ++ [10; 0] ++ str "ASDFGHJKL:" ++ [34; 126; 0] ++
         str "|ZXCVBNM<>?" ++ [0; 42; 0; 32] ++ replicate 13 0 ++ key_pad)
        ((0x9C, 10) :: (0xB5, 47) :: special_keys).

Definition ctlmap : Z -> option Z :=
  table (replicate 16 0 ++ (C_ <$> str "QWERTYUIOP") ++ [0; 0; 13; 0] ++ (C_ <$> str "ASDFGHJKL") ++ [0; 0; 0; 0] ++
         (C_ <$> str "\ZXCVBNM") ++ [0; 0; u8 (C_ 47); 0; 0])
        ((0x9C, 13) :: (0xB5, C_ 47) :: special_keys).

(** ** kbd.c *)

(** [static uint shift] and the bytes in the controller. *)
Record kbd := mk_kbd { kb_shift : Z; kb_data : list Z }.

(** The array of four tables. *)
Definition charcode (i : Z) : option (Z -> option Z) :=
  if 0 <=? i then [normalmap; shiftmap; ctlmap; ctlmap] !! Z.to_nat i else None.

Definition caps (c : Z) : Z :=
  if (97 <=? c) && (c <=? 122) then c - 32 else if (65 <=? c) && (c <=? 90) then c + 32 else c.

(** kbdgetc after a byte has been read from the data port: the result and the new shift. *)
Definition scan_code (shift data : Z) : option (Z * Z) :=
  if data =? 0xE0 then Some (0, Z.lor shift E0ESC)
  else if negb (Z.land data 0x80 =? 0) then
    let data := if negb (Z.land shift E0ESC =? 0) then data else Z.land data 0x7F in
    sc ← shiftcode data;
    Some (0, Z.land shift (not32 (Z.lor sc E0ESC)))
  else
    let '(data, shift) :=
      if negb (Z.land shift E0ESC =? 0) then (Z.lor data 0x80, Z.land shift (not32 E0ESC)) else (data, shift) in
    sc ← shiftcode data;
    tc ← togglecode data;
    let shift := Z.lxor (Z.lor shift sc) tc in
    map ← charcode (Z.land shift (Z.lor CTL SHIFT));
    c ← map data;
    Some (if negb (Z.land shift CAPSLOCK =? 0) then caps c else c, shift).

Definition kbdgetc : M kbd Z :=
  k ← get;
  match kb_data k with
  | [] => ret (-1)
  | data :: rest =>
    '(c, shift) ← of_opt "kbd table" (scan_code (kb_shift k) data);
    modify (fun _ => mk_kbd shift rest) ;;
    ret c
  end.

(** The characters consoleintr gets: kbdgetc until it returns a negative number. *)
Fixpoint kbd_chars (fuel : nat) : M kbd (list Z) :=
  match fuel with
  | O => nofuel
  | S fuel =>
    c ← kbdgetc;
    if c <? 0 then ret [] else cs ← kbd_chars fuel; ret (c :: cs)
  end.

Definition kbdintr (k : kbd) : K (kbd * bool) :=
  match kbd_chars (S (length (kb_data k))) k with
  | Ok cs k' => d ← consoleintr cs; ret (k', d)
  | _ => fault "kbdintr"
  end.

(** ** Every byte is handled *)

Definition shift_ok (shift : Z) : Prop := 0 <= shift < 128.

Lemma table_some init des i : 0 <= i < 256 -> exists x, table init des i = Some x.
Proof. intros H. unfold table. replace ((0 <=? i) && (i <? 256)) with true by lia. simpl. case_match; eauto. Qed.

Lemma shift_ok_land a : shift_ok a <-> Z.land a 127 = a.
Proof.
  change 127 with (Z.ones 7). unfold shift_ok. rewrite Z.land_ones by lia. change (2 ^ 7) with 128.
  split; intros H; [now apply Z.mod_small|]. rewrite <- H. apply Z.mod_pos_bound. lia.
Qed.

Lemma shift_ok_lor a b : shift_ok a -> shift_ok b -> shift_ok (Z.lor a b).
Proof. rewrite !shift_ok_land. intros Ha Hb. now rewrite Z.land_lor_distr_l, Ha, Hb. Qed.

Lemma shift_ok_lxor a b : shift_ok a -> shift_ok b -> shift_ok (Z.lxor a b).
Proof.
  rewrite !shift_ok_land. intros Ha Hb. rewrite <- Ha at 2. rewrite <- Hb at 2.
  apply Z.bits_inj'. intros n Hn. rewrite Z.land_spec, !Z.lxor_spec, !Z.land_spec. destruct (Z.testbit a n), (Z.testbit b n), (Z.testbit 127 n); done.
Qed.

Lemma shift_ok_and a b : shift_ok a -> shift_ok (Z.land a b).
Proof. rewrite !shift_ok_land. intros Ha. now rewrite <- Z.land_assoc, (Z.land_comm b), Z.land_assoc, Ha. Qed.

(** The values of a table are those of its initializers, or 0. *)
Lemma table_forall (P : Z -> Prop) init des i x : table init des i = Some x ->
  P 0 -> Forall P init -> Forall (fun d : Z * Z => P (u8 d.2)) des -> P x.
Proof.
  unfold table. intros E H0 Hi Hd. destruct (negb _); [done|]. destruct (List.find _ des) as [d|] eqn:Ef.
  - injection E as <-. apply List.find_some in Ef as [Hin _]. rewrite List.Forall_forall in Hd. now apply Hd.
  - injection E as <-. destruct (init !! Z.to_nat i) as [y|] eqn:Ey; [|done]. simpl. rewrite list.Forall_forall in Hi.
    apply Hi. now apply list_elem_of_lookup_2 in Ey.
Qed.


Lemma code_values (f : Z -> option Z) i x : f = shiftcode \/ f = togglecode -> f i = Some x -> shift_ok x.
Proof.
  intros [-> | ->] E; (eapply (table_forall shift_ok) in E; [exact E|unfold shift_ok; lia|constructor|]);
    unfold shift_ok; refine (bool_decide_unpack _ _); reflexivity.
Qed.

Definition uchar (x : Z) : Prop := 0 <= x < 256.

Lemma charcode_values k map i x : charcode k = Some map -> map i = Some x -> uchar x.
Proof.
  unfold charcode, uchar. intros Ek E. destruct (0 <=? k); [|done]. destruct (Z.to_nat k) as [|[|[|[|n]]]]; try (injection Ek as <-); [..|discriminate Ek]; (eapply (table_forall uchar) in E; [exact E|unfold uchar; lia|..]);
    unfold uchar; refine (bool_decide_unpack _ _); reflexivity.
Qed.

Lemma byte_or_128 d : 0 <= d < 256 -> 0 <= Z.lor d 128 < 256.
Proof.
  intros H. assert (Z.land (Z.lor d 128) 255 = Z.lor d 128) as E.
  { rewrite Z.land_lor_distr_l. f_equal. change 255 with (Z.ones 8). rewrite Z.land_ones by lia. now apply Z.mod_small. }
  rewrite <- E. change 255 with (Z.ones 8). rewrite Z.land_ones by lia. apply Z.mod_pos_bound. lia.
Qed.

Lemma byte_and_127 d : 0 <= d < 256 -> 0 <= Z.land d 127 < 256.
Proof. intros H. change 127 with (Z.ones 7). rewrite Z.land_ones by lia. change (2 ^ 7) with 128. div_lia. Qed.

Lemma caps_uchar c : uchar c -> uchar (caps c).
Proof. unfold uchar, caps. intros H. repeat case_match; lia. Qed.

Lemma codes_some d : 0 <= d < 256 -> (exists x, shiftcode d = Some x) /\ (exists x, togglecode d = Some x).
Proof. intros Hd. split; now apply table_some. Qed.

(** The array is indexed below 4, and each of its tables below 256. *)
Lemma charcode_some k d : 0 <= k < 4 -> 0 <= d < 256 -> exists map x, charcode k = Some map /\ map d = Some x.
Proof.
  intros Hk Hd. assert (k = 0 \/ k = 1 \/ k = 2 \/ k = 3) as Hc by lia.
  destruct Hc as [->|[->|[->| ->]]]; (eexists; edestruct table_some as [x Hx]; [exact Hd|]; exists x; split; [reflexivity|exact Hx]).
Qed.

Lemma mask_range a : 0 <= Z.land a (Z.lor CTL SHIFT) < 4.
Proof. change (Z.lor CTL SHIFT) with (Z.ones 2). rewrite Z.land_ones by lia. apply Z.mod_pos_bound. lia. Qed.

Lemma scan_code_total shift data : shift_ok shift -> 0 <= data < 256 ->
  exists c shift', scan_code shift data = Some (c, shift') /\ uchar c /\ shift_ok shift'.
Proof.
  intros Hs Hd. unfold scan_code. destruct (data =? 0xE0).
  { exists 0, (Z.lor shift E0ESC). split; [done|]. split; [unfold uchar; lia|]. apply shift_ok_lor; [done|]. unfold shift_ok, E0ESC. lia. }
  destruct (negb (Z.land data 0x80 =? 0)).
  { set (d := if negb (Z.land shift E0ESC =? 0) then data else Z.land data 127).
    assert (0 <= d < 256) as Hd' by (unfold d; case_match; [lia|now apply byte_and_127]).
    destruct (codes_some d Hd') as ([x ->] & _). simpl. do 2 eexists. split; [reflexivity|].
    split; [unfold uchar; lia|]. now apply shift_ok_and. }
  destruct (if negb (Z.land shift E0ESC =? 0) then _ else _) as [d sh] eqn:E.
  assert (0 <= d < 256 /\ shift_ok sh) as [Hd' Hsh].
  { destruct (negb _); injection E as <- <-; [split; [now apply byte_or_128|now apply shift_ok_and]|done]. }
  destruct (codes_some d Hd') as ([sc Esc] & [tc Etc]). rewrite Esc, Etc. simpl. set (sh' := Z.lxor (Z.lor sh sc) tc).
  assert (shift_ok sh') as Hsh' 
    by (apply shift_ok_lxor; [apply shift_ok_lor; [done|apply (code_values shiftcode d); auto]|apply (code_values togglecode d); auto]).
  destruct (charcode_some _ d (mask_range sh') Hd') as (map & c & Em & Ec). rewrite Em. simpl. rewrite Ec. simpl. do 2 eexists. split; [reflexivity|].
  split; [|done]. pose proof (charcode_values _ _ _ _ Em Ec). destruct (Z.land sh' CAPSLOCK =? 0); [done|now apply caps_uchar].
Qed.

(** ** Typing *)

(** The state of the keyboard over a sequence of bytes, and the characters. *)
Fixpoint scan_codes (shift : Z) (data : list Z) : option (list Z * Z) :=
  match data with
  | [] => Some ([], shift)
  | d :: data => '(c, shift) ← scan_code shift d; '(cs, shift) ← scan_codes shift data; Some (c :: cs, shift)
  end.

Lemma scan_codes_app d1 d2 : forall shift cs1 cs2 shift1 shift2,
  scan_codes shift d1 = Some (cs1, shift1) -> scan_codes shift1 d2 = Some (cs2, shift2) ->
  scan_codes shift (d1 ++ d2) = Some (cs1 ++ cs2, shift2).
Proof.
  induction d1 as [|d d1 IH]; intros shift cs1 cs2 shift1 shift2 H1 H2; simpl in *; [now injection H1 as <- <-|].
  destruct (scan_code shift d) as [[c sh]|]; [|done]. simpl in *. destruct (scan_codes sh d1) as [[cs sh']|] eqn:E; [|done].
  injection H1 as <- <-. now rewrite (IH sh cs cs2 sh' shift2 E H2).
Qed.

Lemma kbd_chars_codes data : forall shift cs shift' fuel, scan_codes shift data = Some (cs, shift') -> shift_ok shift ->
  Forall uchar data -> (length data < fuel)%nat -> kbd_chars fuel (mk_kbd shift data) = Ok cs (mk_kbd shift' []).
Proof.
  induction data as [|d data IH]; intros shift cs shift' [|fuel] E Hs Hd Hf; simpl in Hf; try lia.
  - simpl in E. injection E as <- <-. done.
  - simpl in E. apply list.Forall_cons in Hd as [Hd Hdata]. destruct (scan_code_total shift d Hs Hd) as (c & sh & Ec & Huc & Hsh).
    rewrite Ec in E. simpl in E. destruct (scan_codes sh data) as [[cs' sh']|] eqn:Es; [|done]. simpl in E. injection E as <- <-.
    cbn [kbd_chars]. unfold kbdgetc, mbind, M_bind, bind, get, of_opt, modify, ret. cbn [kb_data kb_shift]. rewrite Ec.
    unfold uchar in Huc. replace (c <? 0) with false by lia.
    specialize (IH sh cs' sh' fuel Es Hsh Hdata ltac:(lia)). unfold ret, mbind, M_bind, bind in IH |- *. now rewrite IH.
Qed.

(** The PC keyboard with the US layout: the rows of keys, by the scan code of the first key of each, with what is
    printed on them, alone and with shift. *)
Definition key_row (code : Z) (plain shifted : list Z) : list (Z * (Z * Z)) :=
  imap (fun i p => (code + Z.of_nat i, p)) (zip plain shifted).
Definition us_layout : list (Z * (Z * Z)) :=
  key_row 0x01 [27] [27] ++
  key_row 0x02 (str "1234567890-=") (str "!@#$%^&*()_+") ++ key_row 0x0E [8] [8] ++
  key_row 0x0F [9] [9] ++ key_row 0x10 (str "qwertyuiop[]") (str "QWERTYUIOP{}") ++ key_row 0x2B (str "\") (str "|") ++
  key_row 0x1E (str "asdfghjkl;'") (str "ASDFGHJKL:" ++ [34]) ++ key_row 0x1C [10] [10] ++
  key_row 0x29 (str "`") (str "~") ++ key_row 0x2C (str "zxcvbnm,./") (str "ZXCVBNM<>?") ++ key_row 0x39 (str " ") (str " ").
Definition left_shift : Z := 0x2A.

(** The codes a keyboard sends when [c] is typed: the key alone, or with shift held down. The break code of a key is its
    code with the high bit set. *)
Definition key_of (c : Z) : option (Z * (Z * Z)) := List.find (fun k => (k.2.1 =? c) || (k.2.2 =? c)) us_layout.
Definition keys (c : Z) : list Z :=
  match key_of c with
  | Some (i, (plain, _)) => if plain =? c then [i; i + 128] else [left_shift; i; i + 128; left_shift + 128]
  | None => []
  end.

(** The bytes of [keys c] give [c] and zeros, and leave the keyboard as it was. *)
Definition types_ok (c : Z) : bool :=
  match scan_codes 0 (keys c) with
  | Some (cs, shift) => bool_decide (List.filter (fun x => negb (x =? 0)) cs = [c] /\ shift = 0 /\ Forall uchar (keys c))
  | None => false
  end.

(** The characters with a key: the printable ones, newline, tab, backspace and escape. *)
Definition typeable : list Z := [8; 9; 10; 27] ++ (Z.of_nat <$> seq 32 95).

Lemma typeable_ok : forallb types_ok typeable = true.
Proof. vm_compute. reflexivity. Qed.

Lemma scan_codes_total data : forall shift, shift_ok shift -> Forall uchar data ->
  exists cs shift', scan_codes shift data = Some (cs, shift') /\ Forall uchar cs /\ length cs = length data /\ shift_ok shift'.
Proof.
  induction data as [|d data IH]; intros shift Hs Hd; simpl; [eauto 10|]. apply list.Forall_cons in Hd as [Hd Hdata].
  destruct (scan_code_total shift d Hs Hd) as (c & sh & -> & Hc & Hsh). simpl.
  destruct (IH sh Hsh Hdata) as (cs & sh' & -> & Hcs & Hl & Hsh'). simpl. do 2 eexists. split; [reflexivity|]. split; [now constructor|]. simpl. split; [lia|done].
Qed.

(** C39: the keyboard driver handles every byte. Whatever bytes the controller delivers, kbdgetc
    indexes its tables and the array of tables within bounds and returns a character for each, a uchar, and the shift
    state stays within its seven bits; the loop of kbdintr ends when the bytes do. *)
Theorem kbd_total shift data : shift_ok shift -> Forall uchar data ->
  exists cs shift', kbd_chars (S (length data)) (mk_kbd shift data) = Ok cs (mk_kbd shift' []) /\
    Forall uchar cs /\ length cs = length data /\ shift_ok shift'.
Proof.
  intros Hs Hd. destruct (scan_codes_total data shift Hs Hd) as (cs & shift' & E & H). exists cs, shift'. split; [|done].
  apply kbd_chars_codes; auto.
Qed.

Lemma scan_codes_text text : Forall (.∈ typeable) text ->
  exists cs, scan_codes 0 (concat (keys <$> text)) = Some (cs, 0) /\ List.filter (fun x => negb (x =? 0)) cs = text /\
    Forall uchar (concat (keys <$> text)).
Proof.
  induction 1 as [|c text Hc _ (cs & E & Hf & Hu)]; [exists []; split; [done|]; split; [done|constructor]|].
  pose proof typeable_ok as Hok. rewrite forallb_forall in Hok. specialize (Hok c ltac:(now apply list_elem_of_In)). unfold types_ok in Hok.
  destruct (scan_codes 0 (keys c)) as [[cs1 sh]|] eqn:E1; [|done]. apply bool_decide_eq_true in Hok as (Hf1 & -> & Hu1).
  exists (cs1 ++ cs). cbn [fmap list_fmap concat]. rewrite (scan_codes_app _ _ _ _ _ _ _ E1 E). split; [done|].
  split; [now rewrite List.filter_app, Hf1, Hf|]. now apply Forall_app.
Qed.

(** What is typed is what arrives. For any text of printable characters, newlines, tabs,
    backspaces and escapes, the make and break codes of the keys that type it, with shift held down
    where needed, are translated to the text and leave no shift state behind. The other results
    are 0, which the console ignores. *)
Theorem kbd_types_text text : Forall (.∈ typeable) text ->
  let data := concat (keys <$> text) in
  exists cs, kbd_chars (S (length data)) (mk_kbd 0 data) = Ok cs (mk_kbd 0 []) /\
    List.filter (fun x => negb (x =? 0)) cs = text.
Proof.
  intros Ht data. destruct (scan_codes_text text Ht) as (cs & E & Hf & Hu). exists cs. split; [|done].
  apply kbd_chars_codes; auto. unfold shift_ok. lia.
Qed.

(** The Home key sends E0 47, which the driver looks up at 0xC7; kbd.h has its entry at 0x97, and nothing arrives. *)
Lemma home_key_lost : scan_codes 0 [0xE0; 0x47; 0xE0; 0xC7] = Some ([0; 0; 0; 0], 0).
Proof. reflexivity. Qed.

(** ** Examples *)

Lemma kbd_total_witness :
  exists cs shift', kbd_chars 4 (mk_kbd 8 [0xE0; 0xFF; 0x1E]) = Ok cs (mk_kbd shift' []) /\
    Forall uchar cs /\ length cs = 3%nat /\ shift_ok shift'.
Proof. apply (kbd_total 8 [0xE0; 0xFF; 0x1E]); [unfold shift_ok; lia|repeat constructor; unfold uchar; lia]. Defined.

Lemma kbd_types_text_witness :
  exists cs, kbd_chars 13 (mk_kbd 0 (keys 72 ++ keys 105 ++ keys 10 ++ keys 104 ++ keys 9)) = Ok cs (mk_kbd 0 []) /\
    List.filter (fun x => negb (x =? 0)) cs = [72; 105; 10; 104; 9].
Proof.
  destruct (kbd_types_text [72; 105; 10; 104; 9]) as (cs & E & H); [refine (bool_decide_unpack _ _); reflexivity|].
  exists cs. split; [exact E|exact H].
Defined.
