(* ===== verification/Typing.v ===== *)
(** From the keyboard to the reader: the keyboard driver, the console's line discipline and
    consoleread composed. *)

From stdpp Require Import base list gmap strings numbers.
From Stdlib Require Import ZArith Lia.
From S2P Require Import Prelude Itoa Kstate Console Conline Kbd.
Open Scope Z_scope.

Definition printable (c : Z) : Prop := 32 <= c <= 126.

Lemma printable_typeable c : printable c -> c ∈ typeable.
Proof.
  unfold printable, typeable. intros H. apply elem_of_app. right. apply list_elem_of_fmap. exists (Z.to_nat c).
  split; [lia|]. apply elem_of_seq. lia.
Qed.

(** Zeros are ignored. *)
Lemma ln_keys_filter cs : forall l, fold_left ln_key cs l = fold_left ln_key (List.filter (fun x => negb (x =? 0)) cs) l.
Proof.
  induction cs as [|c cs IH]; intros l; simpl; [done|]. destruct (Z.eqb_spec c 0) as [->|]; simpl; rewrite <- IH; [|done].
  f_equal. now destruct l.
Qed.

Lemma ln_key_printable c q el : printable c -> (length (q ++ el) < 127)%nat -> ln_key (q, el) c = (q, el ++ [c]).
Proof.
  intros Hc Hl. unfold printable in Hc. unfold ln_key, C_. repeat (rewrite (proj2 (Z.eqb_neq c _)) by lia). cbn [orb negb andb].
  rewrite bool_decide_eq_true_2 by lia. rewrite bool_decide_eq_false_2; [done|].
  rewrite app_assoc, (length_app (q ++ el)). simpl. lia.
Qed.

Lemma ln_keys_printable text : forall q el, Forall printable text -> (length (q ++ el) + length text <= 127)%nat ->
  fold_left ln_key text (q, el) = (q, el ++ text).
Proof.
  induction text as [|c text IH]; intros q el Ht Hl; cbn [fold_left length] in *; [now rewrite app_nil_r|]. apply list.Forall_cons in Ht as [Hc Ht].
  rewrite ln_key_printable by (done || lia). rewrite IH; [now rewrite <- app_assoc|done|].
  rewrite app_assoc, (length_app (q ++ el)). simpl. lia.
Qed.

Lemma ln_keys_line text : Forall printable text -> (length text <= 127)%nat ->
  fold_left ln_key (text ++ [10]) ([], []) = (text ++ [10], []).
Proof.
  intros Ht Hl. rewrite fold_left_app, ln_keys_printable by (done || simpl; lia). simpl.
  rewrite bool_decide_eq_true_2 by lia. done.
Qed.

(** The line is what a read takes. *)
Lemma ln_read_line text : forall n b, Forall printable text -> (length text < n)%nat ->
  ln_read n b (text ++ [10]) = (text ++ [10], [], true).
Proof.
  induction text as [|c text IH]; intros [|n] b Ht Hl; simpl in *; try lia; [done|]. apply list.Forall_cons in Ht as [Hc Ht].
  unfold printable in Hc. unfold C_. repeat (rewrite (proj2 (Z.eqb_neq c _)) by lia). rewrite IH by (done || lia). done.
Qed.

Lemma wp_kbdintr k cs k' l s : kbd_chars (S (length (kb_data k))) k = Ok cs k' -> con_ok s l ->
  LCons ∉ k_held s -> LPtable ∉ k_held s ->
  wp (kbdintr k) (fun r s' => r.1 = k' /\ con_ok s' (fold_left ln_key cs l) /\ con_frame s s') s.
Proof.
  intros E Hok H1 H2. unfold kbdintr. rewrite E. wp_steps. eapply wp_mono; [exact (wp_consoleintr cs l s Hok H1 H2)|].
  intros d s' H. now wp_steps.
Qed.

(** C24: a typed line is read. When the keys that type a line of up to 127 printable characters and
    a newline on a US keyboard are pressed and released, and no input waits in the console, a process that then reads the console with room for the
    line gets the line. *)
Theorem typed_line_read s me p i ip text n :
  console_reader s me p i ip -> con_ok s ([], []) -> Forall printable text -> (length text <= 127)%nat ->
  Z.of_nat (length text) < n ->
  wp (k ← kbdintr (mk_kbd 0 (concat (keys <$> text ++ [10])));
      r ← consoleread i n;
      ret (k.1, r))
    (fun r _ => r = (mk_kbd 0 [], (Z.of_nat (length text) + 1, text ++ [10]))) s.
Proof.
  intros Hr Hok Ht Hl Hn. destruct (scan_codes_text (text ++ [10])) as (cs & E & Hf & Hu).
  { apply Forall_app. split; [|repeat constructor; unfold typeable; set_solver]. eapply list.Forall_impl; [exact Ht|]. exact printable_typeable. }
  wp_steps. eapply wp_mono.
  { eapply (wp_kbdintr _ cs (mk_kbd 0 [])); [|exact Hok|rewrite (cr_held _ _ _ _ _ Hr); apply not_elem_of_nil..].
    apply kbd_chars_codes; [exact E|unfold shift_ok; lia|exact Hu|simpl; lia]. }
  intros [k d] s1 (Hk & Hok1 & F1). simpl in Hk. subst k. rewrite ln_keys_filter, Hf, ln_keys_line in Hok1 by done. wp_steps.
  eapply wp_mono; [eapply (wp_consoleread s1 me p i ip _ [] n)|].
  - exact (console_reader_frame _ _ _ _ _ _ F1 Hr).
  - exact Hok1.
  - lia.
  - apply ln_read_line; [done|lia].
  - intros r s2 [-> _]. wp_steps. rewrite length_app. simpl. do 2 f_equal. lia.
Qed.

Lemma typed_line_read_witness :
  wp (k ← kbdintr (mk_kbd 0 (concat (keys <$> str "Ls" ++ [10])));
      r ← consoleread 0 10;
      ret (k.1, r))
    (fun r _ => r = (mk_kbd 0 [], (3, str "Ls" ++ [10]))) ex_con.
Proof.
  apply (typed_line_read ex_con 0 ex_con_proc 0 _ (str "Ls") 10 ex_con_reader ex_con_ok); [|simpl; lia|simpl; lia].
  repeat constructor; unfold printable; simpl; lia.
Defined.
