(* ===== verification/Fsdata.v ===== *)
(** File contents, directories and path names: fs.c from readi on. *)

From stdpp Require Import base list gmap strings numbers.
From Stdlib Require Import ZArith Lia.
From S2P Require Import Prelude Bytes CString Itoa Kstate Cons Sched Bio Log Inode Console.
Open Scope Z_scope.

(** file.h: the only device that registers functions is CONSOLE. *)
Definition CONSOLE : Z := 1.
Definition devsw_set (major : Z) : K bool :=
  on ← gets k_devsw; ret ((major =? CONSOLE) && on).

(** ** Contents

    A pointer to a buffer the function fills is a result, one it reads from is
    a byte list. *)

(** The copy loop of readi: [n] bytes from [off] on. Every turn copies at
    least one byte, so [n] turns are enough. *)
Fixpoint readi_loop (fuel : nat) (i : nat) (off n : Z) : K (list Z) :=
  if n <=? 0 then ret [] else
  match fuel with
  | O => nofuel
  | S fuel' =>
    ip ← inode_at i;
    bn ← bmap i (off / BSIZE);
    bp ← bread (i_dev ip) bn;
    let m := Z.min n (BSIZE - off mod BSIZE) in
    d ← bdata bp;
    brelse bp ;;
    rest ← readi_loop fuel' i (off + m) (n - m);
    ret (slice (Z.to_nat (off mod BSIZE)) (Z.to_nat m) d ++ rest)
  end.

Definition readi (i : nat) (off n : Z) : K (Z * list Z) :=
  ip ← inode_at i;
  if i_type ip =? T_DEV then
    ok ← devsw_set (i_major ip);
    if (i_major ip <? 0) || (NDEV <=? i_major ip) || negb ok then ret (-1, [])
    else consoleread i (s32 n)
  else
  if (i_size ip <? off) || (u32 (off + n) <? off) then ret (-1, []) else
  let n := if i_size ip <? u32 (off + n) then i_size ip - off else n in
  bs ← readi_loop (Z.to_nat n) i off n;
  ret (n, bs).

Fixpoint writei_loop (fuel : nat) (i : nat) (src : list Z) (off n : Z) : K Z :=
  if n <=? 0 then ret off else
  match fuel with
  | O => nofuel
  | S fuel' =>
    ip ← inode_at i;
    bn ← bmap i (off / BSIZE);
    bp ← bread (i_dev ip) bn;
    let m := Z.min n (BSIZE - off mod BSIZE) in
    d ← bdata bp;
    set_bdata bp (splice (Z.to_nat (off mod BSIZE)) (take (Z.to_nat m) src) d) ;;
    log_write bp ;;
    brelse bp ;;
    writei_loop fuel' i (drop (Z.to_nat m) src) (off + m) (n - m)
  end.

Definition writei (i : nat) (src : list Z) (off n : Z) : K Z :=
  ip ← inode_at i;
  if i_type ip =? T_DEV then
    ok ← devsw_set (i_major ip);
    if (i_major ip <? 0) || (NDEV <=? i_major ip) || negb ok then ret (-1)
    else consolewrite i src (s32 n)
  else
  if (i_size ip <? off) || (u32 (off + n) <? off) then ret (-1) else
  if MAXFILE * BSIZE <? u32 (off + n) then ret (-1) else
  off' ← writei_loop (Z.to_nat n) i src off n;
  ip ← inode_at i;
  when ((0 <? n) && (i_size ip <? off'))
    (upd_inode i (fun ip => ip <| i_size := off' |>) ;; iupdate i) ;;
  ret n.

(** ** Directories *)

Definition namecmp (s t : list Z) : Z := strncmp s t (Z.to_nat DIRSIZ).

(** fs.h [struct dirent]: inum and name, 16 bytes. *)
Definition DIRENT : Z := 16.
Definition de_inum (de : list Z) : Z := rd16 de 0.
Definition de_name (de : list Z) : list Z := slice 2 (Z.to_nat DIRSIZ) de.

(** The offsets 0, 16, 32, ... below [size]. *)
Definition dir_offs (from size : Z) : list Z :=
  (fun k => from + DIRENT * Z.of_nat k) <$> seq 0 (Z.to_nat ((size - from + DIRENT - 1) / DIRENT)).

Fixpoint dirlookup_loop (offs : list Z) (dp : nat) (name : list Z) : K (option (Z * Z)) :=
  match offs with
  | [] => ret None
  | off :: offs' =>
    '(r, de) ← readi dp off DIRENT;
    if negb (r =? DIRENT) then panic "dirlookup read" else
    if de_inum de =? 0 then dirlookup_loop offs' dp name else
    if namecmp name (de_name de) =? 0 then ret (Some (off, de_inum de))
    else dirlookup_loop offs' dp name
  end.

(** The inode found, and the offset of its entry (the [*poff]). *)
Definition dirlookup (dp : nat) (name : list Z) : K (option (nat * Z)) :=
  d ← inode_at dp;
  if negb (i_type d =? T_DIR) then panic "dirlookup not DIR" else
  r ← dirlookup_loop (dir_offs 0 (i_size d)) dp name;
  match r with
  | Some (off, inum) => ip ← iget (i_dev d) inum; ret (Some (ip, off))
  | None => ret None
  end.

(** The offset of the first empty entry, the end of the directory if there
    is none. *)
Fixpoint dirlink_loop (offs : list Z) (dp : nat) (last : Z) : K Z :=
  match offs with
  | [] => ret last
  | off :: offs' =>
    '(r, de) ← readi dp off DIRENT;
    if negb (r =? DIRENT) then panic "dirlink read" else
    if de_inum de =? 0 then ret off else dirlink_loop offs' dp (off + DIRENT)
  end.

Definition dirlink (dp : nat) (name : list Z) (inum : Z) : K Z :=
  r ← dirlookup dp name;
  match r with
  | Some (ip, _) => iput ip ;; ret (-1)
  | None =>
    d ← inode_at dp;
    off ← dirlink_loop (dir_offs 0 (i_size d)) dp 0;
    let de := le_bytes 2 inum ++ strncpy name (Z.to_nat DIRSIZ) in
    w ← writei dp de off DIRENT;
    if negb (w =? DIRENT) then panic "dirlink" else ret 0
  end.

(** ** Paths *)

(** A path is the bytes of a C string. [skip_slashes] is
    while( *path == '/') path++. *)
Fixpoint skip_slashes (path : list Z) : list Z :=
  match path with
  | c :: path' => if c =? 47 then skip_slashes path' else path
  | [] => []
  end.

(** The element before the next slash, and what follows it. *)
Fixpoint take_elem (path : list Z) : list Z * list Z :=
  match path with
  | c :: path' =>
    if c =? 47 then ([], path) else let '(e, r) := take_elem path' in (c :: e, r)
  | [] => ([], [])
  end.

(** The name is cut to DIRSIZ bytes; [None] is the null pointer. *)
Definition skipelem (path : list Z) : option (list Z * list Z) :=
  match skip_slashes path with
  | [] => None
  | s =>
    let '(e, r) := take_elem s in
    Some (take (Z.to_nat DIRSIZ) e, skip_slashes r)
  end.

(** The loop of namex; [fuel] bounds the number of path elements. *)
Fixpoint namex_loop (fuel : nat) (ip : nat) (path : list Z) (nameiparent : bool) :
    K (option (nat * list Z)) :=
  match skipelem path with
  | None => if nameiparent then iput ip ;; ret None else ret (Some (ip, []))
  | Some (name, rest) =>
    match fuel with
    | O => nofuel
    | S fuel' =>
      ilock ip ;;
      d ← inode_at ip;
      if negb (i_type d =? T_DIR) then iunlockput ip ;; ret None else
      if nameiparent && bool_decide (rest = []) then iunlock ip ;; ret (Some (ip, name)) else
      next ← dirlookup ip name;
      match next with
      | None => iunlockput ip ;; ret None
      | Some (n, _) => iunlockput ip ;; namex_loop fuel' n rest nameiparent
      end
    end
  end.

Definition namex (path : list Z) (nameiparent : bool) : K (option (nat * list Z)) :=
  ip ← (if bool_decide (head path = Some 47) then iget ROOTDEV ROOTINO
        else me ← curproc; p ← proc_at me; cwd ← of_opt "cwd" (p_cwd p); idup cwd);
  namex_loop (length path) ip path nameiparent.

Definition namei (path : list Z) : K (option nat) :=
  r ← namex path false; ret (fst <$> r).

Definition nameiparent (path : list Z) : K (option (nat * list Z)) := namex path true.
