(* ===== verification/Fsfile.v ===== *)
(** File contents: bmap, readi and writei of fs.c.

    [slot D ip bn] is the disk block that holds block [bn] of the file [ip] when the disk blocks
    have the contents [D] (0 if there is none), and [fblk D ip bn] its content, zeroes in a hole.
    [evo D ip D' ip'] says how the operations let a file evolve: no block of it moves, new blocks
    come from the free map, and no block in use elsewhere changes. *)

From stdpp Require Import base list gmap sets fin_sets strings numbers.
From Stdlib Require Import ZArith Lia.
From S2P Require Import Prelude Bytes Kstate Cons Sched Bio Bcache Log Commit Inode Fsblock Console.
From S2P Require Import Fsdata.
Open Scope Z_scope.

(** ** The blocks of a file *)

Definition ind (ip : inode) : Z := default 0 (i_addrs ip !! 12%nat).

Definition ind_off (bn : Z) : nat := Z.to_nat (4 * (bn - NDIRECT)).

Definition slot (D : Z -> list Z) (ip : inode) (bn : Z) : Z :=
  if bn <? NDIRECT then default 0 (i_addrs ip !! Z.to_nat bn)
  else if ind ip =? 0 then 0 else rd32 (D (ind ip)) (ind_off bn).

Definition fblk (D : Z -> list Z) (ip : inode) (bn : Z) : list Z :=
  if slot D ip bn =? 0 then zero_block else D (slot D ip bn).

Definition in_file (bn : Z) : Prop := 0 <= bn < MAXFILE.

(** Byte [o] of the file, and the [n] bytes from [off] on. *)
Definition fbyte (D : Z -> list Z) (ip : inode) (o : Z) : Z :=
  default 0 (fblk D ip (o / BSIZE) !! Z.to_nat (o mod BSIZE)).

Definition fbytes (D : Z -> list Z) (ip : inode) (off n : Z) : list Z :=
  (fun k => fbyte D ip (off + Z.of_nat k)) <$> seq 0 (Z.to_nat n).

(** Every block below the size of the file is there. *)
Definition no_holes (D : Z -> list Z) (ip : inode) : Prop :=
  i_size ip <= MAXFILE * BSIZE /\ forall bn, 0 <= bn -> bn * BSIZE < i_size ip -> slot D ip bn <> 0.

Section contents.
Context (D : Z -> list Z) (ip : inode).
Hypothesis Hlen : forall k, length (D k) = 512%nat.

Lemma length_fblk bn : length (fblk D ip bn) = 512%nat.
Proof. unfold fblk. now case_match. Qed.

Lemma fbytes_nil off n : n <= 0 -> fbytes D ip off n = [].
Proof using. intros H. unfold fbytes. now replace (Z.to_nat n) with 0%nat by lia. Qed.

Lemma fbytes_app off m n :
  0 <= m <= n -> fbytes D ip off n = fbytes D ip off m ++ fbytes D ip (off + m) (n - m).
Proof using.
  intros H. unfold fbytes. replace (Z.to_nat n) with (Z.to_nat m + Z.to_nat (n - m))%nat by lia.
  rewrite seq_app, fmap_app. f_equal. rewrite Nat.add_comm, <- fmap_add_seq, <- list_fmap_compose.
  apply list_fmap_ext. intros k x _. simpl. f_equal. lia.
Qed.

(** The bytes of one block. *)
Lemma fbytes_block off m :
  0 <= off -> 0 <= m <= BSIZE - off mod BSIZE ->
  fbytes D ip off m = slice (Z.to_nat (off mod BSIZE)) (Z.to_nat m) (fblk D ip (off / BSIZE)).
Proof.
  unfold BSIZE. intros Ho Hm. pose proof (Z.mod_pos_bound off 512 ltac:(lia)).
  apply list_eq. intros k. unfold fbytes. rewrite list_lookup_fmap, lookup_slice.
  case_decide as Hk.
  - rewrite lookup_seq_lt by lia. simpl. unfold fbyte, BSIZE.
    assert ((off + Z.of_nat k) / 512 = off / 512) as -> by div_lia.
    assert (Z.to_nat ((off + Z.of_nat k) mod 512) = Z.to_nat (off mod 512) + k)%nat as -> by div_lia.
    destruct (lookup_lt_is_Some_2 (fblk D ip (off / 512)) (Z.to_nat (off mod 512) + k)) as [x Hx].
    { rewrite length_fblk. lia. }
    now rewrite Hx.
  - rewrite lookup_seq_ge by lia. done.
Qed.
End contents.

Section file.
Context (sb : superblock) (start : Z).
Hypothesis Hlay : layout sb start.
Abbreviation bm := (sb_bmapstart sb).

(** A file is well formed when its blocks are distinct data blocks in use. *)
Record file_ok (D : Z -> list Z) (ip : inode) : Prop := {
  fo_dev : i_dev ip = 1;
  fo_len : length (i_addrs ip) = 13%nat;
  fo_ind : ind ip <> 0 -> data_block sb (ind ip) /\ used sb D (ind ip);
  fo_slot : forall bn, in_file bn -> slot D ip bn <> 0 ->
              data_block sb (slot D ip bn) /\ used sb D (slot D ip bn) /\ slot D ip bn <> ind ip;
  fo_inj : forall a b, in_file a -> in_file b -> slot D ip a <> 0 -> slot D ip a = slot D ip b -> a = b
}.

Definition owned (D : Z -> list Z) (ip : inode) (k : Z) : Prop :=
  k <> 0 /\ (k = ind ip \/ exists bn, in_file bn /\ slot D ip bn = k).

Record evo (D : Z -> list Z) (ip : inode) (D' : Z -> list Z) (ip' : inode) : Prop := {
  ev_slot : forall bn, in_file bn -> slot D ip bn <> 0 -> slot D' ip' bn = slot D ip bn;
  ev_new : forall bn, in_file bn -> slot D ip bn = 0 -> slot D' ip' bn = 0 \/ ~ used sb D (slot D' ip' bn);
  ev_ind : ind ip <> 0 -> ind ip' = ind ip;
  ev_ind_new : ind ip = 0 -> ind ip' = 0 \/ ~ used sb D (ind ip');
  ev_ok : file_ok D' ip';
  ev_meta : meta_used sb D';
  ev_used : forall k, 0 <= k < FSSIZE -> used sb D k -> used sb D' k;
  ev_frame : forall k, 0 <= k < FSSIZE -> used sb D k -> k <> bm -> ~ owned D ip k -> D' k = D k;
  ev_inode : ip' = ip <| i_addrs := i_addrs ip' |>
}.

Lemma data_range b : data_block sb b -> 32 < b < FSSIZE.
Proof. intros H. destruct (layout_bounds _ _ Hlay). unfold data_block, FSSIZE in *. lia. Qed.

Lemma evo_refl D ip : file_ok D ip -> meta_used sb D -> evo D ip D ip.
Proof. intros H1 H2. constructor; auto. now destruct ip. Qed.

(** A block in use that the file owns now, it owned before. *)
Lemma evo_owned D ip D' ip' k : evo D ip D' ip' -> used sb D k -> owned D' ip' k -> owned D ip k.
Proof.
  intros A Hu [H0 H]. split; [done|]. destruct H as [-> | (bn & Hb & <-)].
  - destruct (decide (ind ip = 0)) as [E|E]; [|left; now apply (ev_ind _ _ _ _ A)].
    now destruct (ev_ind_new _ _ _ _ A E).
  - destruct (decide (slot D ip bn = 0)) as [E|E].
    + now destruct (ev_new _ _ _ _ A bn Hb E).
    + right. exists bn. split; [done|]. symmetry. now apply (ev_slot _ _ _ _ A).
Qed.

Lemma evo_trans D ip D1 ip1 D2 ip2 : evo D ip D1 ip1 -> evo D1 ip1 D2 ip2 -> evo D ip D2 ip2.
Proof.
  intros A B. constructor.
  - intros bn Hb Hs. pose proof (ev_slot _ _ _ _ A bn Hb Hs) as E.
    rewrite (ev_slot _ _ _ _ B bn Hb) by congruence. done.
  - intros bn Hb Hs. destruct (decide (slot D1 ip1 bn = 0)) as [E|E].
    + destruct (ev_new _ _ _ _ B bn Hb E) as [?|Hu]; [now left|].
      destruct (decide (slot D2 ip2 bn = 0)) as [?|E2]; [now left|right].
      intros Hx. apply Hu, (ev_used _ _ _ _ A); [|done].
      destruct (fo_slot _ _ (ev_ok _ _ _ _ B) bn Hb E2) as [Hd _]. apply data_range in Hd. lia.
    + rewrite (ev_slot _ _ _ _ B bn Hb E). now apply (ev_new _ _ _ _ A).
  - intros Hi. pose proof (ev_ind _ _ _ _ A Hi) as E. rewrite (ev_ind _ _ _ _ B); congruence.
  - intros Hi. destruct (decide (ind ip1 = 0)) as [E|E].
    + destruct (ev_ind_new _ _ _ _ B E) as [?|Hu]; [now left|].
      destruct (decide (ind ip2 = 0)) as [?|E2]; [now left|right].
      intros Hx. apply Hu, (ev_used _ _ _ _ A); [|done].
      destruct (fo_ind _ _ (ev_ok _ _ _ _ B) E2) as [Hd _]. apply data_range in Hd. lia.
    + rewrite (ev_ind _ _ _ _ B E). now apply (ev_ind_new _ _ _ _ A).
  - apply B.
  - apply B.
  - intros k Hk Hu. apply (ev_used _ _ _ _ B); [done|]. now apply (ev_used _ _ _ _ A).
  - intros k Hk Hu Hbm Ho. rewrite <- (ev_frame _ _ _ _ A k) by done.
    apply (ev_frame _ _ _ _ B); [done|now apply (ev_used _ _ _ _ A)|done|].
    intros H. now apply Ho, (evo_owned D ip D1 ip1).
  - rewrite (ev_inode _ _ _ _ B), (ev_inode _ _ _ _ A) at 1. done.
Qed.

Lemma rd32_zero off : rd32 zero_block off = 0.
Proof.
  unfold rd32, slice, zero_block. rewrite drop_replicate, take_replicate.
  induction (4 `min` (Z.to_nat BSIZE - off))%nat as [|n IH]; [done|]. simpl. now rewrite IH.
Qed.

(** Free blocks that remain once the indirect block has been allocated. *)
Definition avail_blocks (D : Z -> list Z) (ip : inode) : Z :=
  Z.of_nat (nfree sb D) - (if ind ip =? 0 then 1 else 0).

(** The number of blocks the file can have. *)
Definition capacity (D : Z -> list Z) (ip : inode) : Z :=
  (i_size ip + BSIZE - 1) / BSIZE + avail_blocks D ip.

(** ** Allocating a block of the file *)

Section alloc.
Context (D : Z -> list Z) (ip : inode) (b : Z).
Hypothesis Hok : file_ok D ip.
Hypothesis Hmeta : meta_used sb D.
Hypothesis Hlen : forall k, length (D k) = 512%nat.
Hypothesis Hb : data_block sb b.
Hypothesis Hfree : ~ used sb D b.

Lemma alloc_map_other k : k <> b -> k <> bm -> alloc_map sb D b k = D k.
Proof using. intros H1 H2. unfold alloc_map. now rewrite !dupd_ne. Qed.

Lemma alloc_map_new : alloc_map sb D b b = zero_block.
Proof using. unfold alloc_map. apply dupd_eq. Qed.

Lemma alloc_map_used k : data_block sb k -> used sb D k -> alloc_map sb D b k = D k.
Proof using Hfree.
  intros Hd Hu. apply alloc_map_other; [congruence|]. unfold data_block in Hd. lia.
Qed.

Lemma used_map k : 0 <= k < FSSIZE -> used sb D k -> used sb (alloc_map sb D b) k.
Proof using Hlay Hlen Hb. intros Hk Hu. rewrite (used_alloc sb start) by auto. now left. Qed.

Lemma used_map_new : used sb (alloc_map sb D b) b.
Proof using Hlay Hlen Hb.
  apply (used_alloc sb start); auto. apply data_range in Hb. lia.
Qed.

Lemma meta_map : meta_used sb (alloc_map sb D b).
Proof using Hlay Hlen Hb Hmeta.
  intros k Hk. destruct (layout_bounds _ _ Hlay). apply used_map; [unfold FSSIZE; lia|auto].
Qed.

(** The block becomes direct block [j], or the indirect block for [j] = 12. *)
Section addr.
Context (j : nat).
Hypothesis Hj : i_addrs ip !! j = Some 0.
Abbreviation D' := (alloc_map sb D b).
Abbreviation ip' := (ip <| i_addrs := <[j := b]> (i_addrs ip) |>).

Lemma addr_ind : ind ip' = if (j =? 12)%nat then b else ind ip.
Proof using Hj.
  unfold ind. simpl. destruct (Nat.eqb_spec j 12) as [->|H].
  - rewrite list_lookup_insert_eq; [done|]. now apply lookup_lt_Some in Hj.
  - now rewrite list_lookup_insert_ne.
Qed.

Lemma addr_slot bn : in_file bn ->
  slot D' ip' bn = if (bn <? NDIRECT) && (Z.to_nat bn =? j)%nat then b else slot D ip bn.
Proof using Hj Hok Hfree.
  intros Hbn. unfold slot. destruct (Z.ltb_spec bn NDIRECT) as [Hd|Hd]; simpl.
  - destruct (Nat.eqb_spec (Z.to_nat bn) j) as [->|H].
    + rewrite list_lookup_insert_eq; [done|]. now apply lookup_lt_Some in Hj.
    + now rewrite list_lookup_insert_ne.
  - rewrite addr_ind. destruct (Nat.eqb_spec j 12) as [->|H].
    + unfold ind. rewrite Hj. simpl. rewrite alloc_map_new, rd32_zero. now case_match.
    + destruct (Z.eqb_spec (ind ip) 0) as [|Hi]; [done|].
      destruct (fo_ind _ _ Hok Hi) as [H1 H2]. now rewrite alloc_map_used.
Qed.

Lemma addr_free bn : in_file bn -> (bn <? NDIRECT) && (Z.to_nat bn =? j)%nat = true -> slot D ip bn = 0.
Proof using Hj.
  intros Hbn [H1 H2%Nat.eqb_eq]%andb_true_iff. unfold slot. now rewrite H1, H2, Hj.
Qed.

Lemma addr_fblk bn : in_file bn -> fblk D' ip' bn = fblk D ip bn.
Proof using Hj Hok Hfree Hb Hlay.
  intros Hbn. unfold fblk. rewrite addr_slot by done. destruct (_ && _) eqn:E.
  - rewrite (addr_free bn Hbn E), alloc_map_new. now case_match.
  - destruct (Z.eqb_spec (slot D ip bn) 0) as [|H]; [done|].
    destruct (fo_slot _ _ Hok bn Hbn H) as (H1 & H2 & _). now apply alloc_map_used.
Qed.

Lemma free_ne k : used sb D k -> k <> b.
Proof using Hfree. congruence. Qed.

Lemma addr_file_ok : file_ok D' ip'.
Proof using Hj Hok Hfree Hb Hlay Hlen.
  pose proof used_map_new as Hub. pose proof (data_range b Hb) as Hrb.
  constructor.
  - apply Hok.
  - simpl. rewrite length_insert. apply Hok.
  - rewrite addr_ind. destruct (j =? 12)%nat; [done|]. intros Hi.
    destruct (fo_ind _ _ Hok Hi) as [H1 H2]. pose proof (data_range _ H1). split; [done|].
    apply used_map; [lia|done].
  - intros bn Hbn. rewrite addr_slot, addr_ind by done. destruct (_ && _) eqn:E.
    + intros _. split; [done|]. split; [done|]. apply andb_true_iff in E as [E1 E2%Nat.eqb_eq].
      unfold NDIRECT in E1. destruct (Nat.eqb_spec j 12); [lia|]. intros ->.
      destruct (fo_ind _ _ Hok ltac:(lia)) as [_ H]. done.
    + intros Hs. destruct (fo_slot _ _ Hok bn Hbn Hs) as (H1 & H2 & H3). pose proof (data_range _ H1).
      split; [done|]. split; [apply used_map; [lia|done]|]. destruct (j =? 12)%nat; [now apply free_ne|done].
  - intros a c Ha Hc. rewrite !addr_slot by done.
    destruct ((a <? NDIRECT) && _) eqn:Ea, ((c <? NDIRECT) && _) eqn:Ec; intros Hs E.
    + apply andb_true_iff in Ea as [_ Ea%Nat.eqb_eq], Ec as [_ Ec%Nat.eqb_eq]. unfold in_file in *. lia.
    + destruct (fo_slot _ _ Hok c Hc ltac:(lia)) as (_ & H2 & _). rewrite <- E in H2. done.
    + destruct (fo_slot _ _ Hok a Ha Hs) as (_ & H2 & _). rewrite E in H2. done.
    + now apply (fo_inj _ _ Hok).
Qed.

Lemma addr_evo : evo D ip D' ip'.
Proof using Hj Hok Hfree Hb Hlay Hlen Hmeta.
  pose proof (data_range b Hb) as Hrb. constructor.
  - intros bn Hbn Hs. rewrite addr_slot by done. destruct (_ && _) eqn:E; [|done].
    now rewrite (addr_free bn Hbn E) in Hs.
  - intros bn Hbn Hs. rewrite addr_slot by done. destruct (_ && _); [now right|now left].
  - intros Hi. rewrite addr_ind. destruct (Nat.eqb_spec j 12) as [->|]; [|done].
    unfold ind in Hi. now rewrite Hj in Hi.
  - intros Hi. rewrite addr_ind. destruct (j =? 12)%nat; [now right|now left].
  - apply addr_file_ok.
  - apply meta_map.
  - apply used_map.
  - intros k _ Hu Hk _. apply alloc_map_other; [now apply free_ne|done].
  - now destruct ip.
Qed.
End addr.

(** The block becomes entry [bn] of the indirect block. *)
Section entry.
Context (bn : Z).
Hypothesis Hbn : in_file bn.
Hypothesis Hnd : NDIRECT <= bn.
Hypothesis Hi : ind ip <> 0.
Hypothesis Hz : slot D ip bn = 0.
Abbreviation a := (ind ip).
Abbreviation D' := (dupd (alloc_map sb D b) a (wr32 (D a) (ind_off bn) b)).

Lemma entry_slot k : in_file k -> slot D' ip k = if k =? bn then b else slot D ip k.
Proof using Hbn Hnd Hi Hlen Hb Hlay Hfree Hok.
  intros Hk. unfold slot. pose proof (data_range b Hb) as Hrb. unfold FSSIZE in Hrb.
  destruct (Z.ltb_spec k NDIRECT) as [Hd|Hd].
  - destruct (Z.eqb_spec k bn); [lia|done].
  - destruct (Z.eqb_spec a 0); [done|]. rewrite dupd_eq.
    unfold in_file, MAXFILE, NINDIRECT, NDIRECT, BSIZE in *. change (512 / 4) with 128 in *.
    destruct (Z.eqb_spec k bn) as [->|Hne].
    + rewrite rd32_wr32_same by (rewrite Hlen; unfold ind_off, NDIRECT; lia). apply u32_small. lia.
    + apply rd32_wr32_other; rewrite ?Hlen; unfold ind_off, NDIRECT; lia.
Qed.

Lemma entry_used k : 0 <= k < FSSIZE -> used sb D k -> used sb D' k.
Proof using Hok Hi Hlen Hb Hlay Hfree.
  intros Hk Hu. destruct (fo_ind _ _ Hok Hi) as [Ha _]. unfold used, data_block in *.
  rewrite dupd_ne by lia. now apply used_map.
Qed.

Lemma entry_used_new : used sb D' b.
Proof using Hok Hi Hlen Hb Hlay Hfree.
  destruct (fo_ind _ _ Hok Hi) as [Ha _]. unfold used, data_block in *. rewrite dupd_ne by lia.
  apply used_map_new.
Qed.

Lemma entry_other k : data_block sb k -> used sb D k -> k <> a -> D' k = D k.
Proof using Hfree. intros H1 H2 H3. rewrite dupd_ne by done. now apply alloc_map_used. Qed.

Lemma entry_fblk k : in_file k -> fblk D' ip k = fblk D ip k.
Proof using Hbn Hnd Hi Hlen Hb Hlay Hok Hfree Hz.
  intros Hk. unfold fblk. rewrite entry_slot by done. pose proof (data_range b Hb).
  destruct (fo_ind _ _ Hok Hi) as [Ha Hau]. destruct (Z.eqb_spec k bn) as [->|Hne].
  - rewrite Hz. destruct (Z.eqb_spec b 0); [lia|]. cbn [Z.eqb]. rewrite dupd_ne by (intros E; now rewrite E in Hfree).
    apply alloc_map_new.
  - destruct (Z.eqb_spec (slot D ip k) 0) as [|H1]; [done|].
    destruct (fo_slot _ _ Hok k Hk H1) as (H2 & H3 & H4). now apply entry_other.
Qed.

Lemma entry_file_ok : file_ok D' ip.
Proof using Hbn Hnd Hi Hlen Hb Hlay Hok Hfree Hz.
  pose proof (data_range b Hb) as Hrb. pose proof entry_used_new as Hub.
  destruct (fo_ind _ _ Hok Hi) as [Ha Hau]. pose proof (data_range _ Ha).
  constructor; [apply Hok|apply Hok| | |].
  - intros _. split; [done|]. apply entry_used; [lia|done].
  - intros k Hk. rewrite entry_slot by done. destruct (Z.eqb_spec k bn) as [->|Hne]; intros Hs.
    + split; [done|]. split; [done|]. intros E. rewrite E in Hfree. done.
    + destruct (fo_slot _ _ Hok k Hk Hs) as (H1 & H2 & H3). pose proof (data_range _ H1).
      split; [done|]. split; [apply entry_used; [lia|done]|done].
  - intros x y Hx Hy. rewrite !entry_slot by done.
    destruct (Z.eqb_spec x bn) as [->|Hxn], (Z.eqb_spec y bn) as [->|Hyn]; intros Hs E; auto.
    + destruct (fo_slot _ _ Hok y Hy ltac:(lia)) as (_ & H2 & _). now rewrite <- E in H2.
    + destruct (fo_slot _ _ Hok x Hx Hs) as (_ & H2 & _). now rewrite E in H2.
    + now apply (fo_inj _ _ Hok).
Qed.

Lemma entry_evo : evo D ip D' ip.
Proof using Hbn Hnd Hi Hlen Hb Hlay Hok Hfree Hz Hmeta.
  pose proof (data_range b Hb) as Hrb. destruct (layout_bounds _ _ Hlay). constructor; auto.
  - intros k Hk Hs. rewrite entry_slot by done. destruct (Z.eqb_spec k bn) as [->|]; congruence.
  - intros k Hk Hs. rewrite entry_slot by done. destruct (k =? bn); [now right|now left].
  - apply entry_file_ok.
  - intros k Hk. apply entry_used; [unfold FSSIZE; lia|auto].
  - apply entry_used.
  - intros k _ Hu Hk Ho. rewrite dupd_ne.
    + apply alloc_map_other; [now apply free_ne|done].
    + intros ->. apply Ho. split; [done|now left].
  - now destruct ip.
Qed.
End entry.
End alloc.

(** ** Writing a block of the file *)

Section put.
Context (D : Z -> list Z) (ip : inode) (bn : Z) (x : list Z).
Hypothesis Hok : file_ok D ip.
Hypothesis Hmeta : meta_used sb D.
Hypothesis Hbn : in_file bn.
Hypothesis Hs : slot D ip bn <> 0.
Abbreviation D' := (dupd D (slot D ip bn) x).

Lemma put_slot k : slot D' ip k = slot D ip k.
Proof using Hok Hbn Hs.
  unfold slot at 1 3. destruct (k <? NDIRECT); [done|]. destruct (ind ip =? 0); [done|].
  rewrite dupd_ne; [done|]. destruct (fo_slot _ _ Hok bn Hbn Hs) as (_ & _ & H). congruence.
Qed.

Lemma put_used k : used sb D' k <-> used sb D k.
Proof using Hok Hbn Hs.
  unfold used. rewrite dupd_ne; [done|]. destruct (fo_slot _ _ Hok bn Hbn Hs) as (H & _ & _).
  unfold data_block in H. lia.
Qed.

Lemma put_fblk k : in_file k -> fblk D' ip k = if k =? bn then x else fblk D ip k.
Proof using Hok Hbn Hs.
  intros Hk. unfold fblk. rewrite put_slot. destruct (Z.eqb_spec k bn) as [->|Hne].
  - rewrite dupd_eq. destruct (Z.eqb_spec (slot D ip bn) 0); done.
  - destruct (Z.eqb_spec (slot D ip k) 0); [done|]. rewrite dupd_ne; [done|]. intros E.
    now apply Hne, (fo_inj _ _ Hok).
Qed.

(** The bytes [bs] written at [o] in the block. *)
Lemma put_fbyte o bs y :
  (forall k, length (D k) = 512%nat) -> x = splice o bs (D (slot D ip bn)) -> (o + length bs <= 512)%nat ->
  0 <= y < MAXFILE * BSIZE ->
  fbyte D' ip y =
    if bool_decide (bn * 512 + Z.of_nat o <= y < bn * 512 + Z.of_nat o + Z.of_nat (length bs))
    then default 0 (bs !! Z.to_nat (y - (bn * 512 + Z.of_nat o))) else fbyte D ip y.
Proof using Hok Hbn Hs.
  change (MAXFILE * BSIZE) with 71680. intros Hlen Hx Ho Hy. unfold fbyte, BSIZE.
  pose proof (Z.mod_pos_bound y 512 ltac:(lia)). unfold in_file in *. change MAXFILE with 140 in *.
  rewrite put_fblk by (unfold in_file; change MAXFILE with 140; div_lia).
  destruct (Z.eqb_spec (y / 512) bn) as [E|E].
  - rewrite E, Hx, lookup_splice by (rewrite Hlen; lia).
    assert (y = bn * 512 + y mod 512) as Ey by div_lia.
    case_decide; case_bool_decide; try lia.
    + f_equal. f_equal. lia.
    + unfold fblk. destruct (Z.eqb_spec (slot D ip bn) 0); [lia|done].
  - rewrite bool_decide_eq_false_2; [done|]. intros H'. apply E. div_lia.
Qed.

Lemma put_evo : evo D ip D' ip.
Proof using Hok Hbn Hs Hmeta.
  constructor; auto.
  - intros k _ _. apply put_slot.
  - intros k _. rewrite put_slot. auto.
  - constructor; [apply Hok|apply Hok| | |].
    + intros Hi. rewrite put_used. now apply (fo_ind _ _ Hok).
    + intros k Hk. rewrite put_slot, put_used. now apply (fo_slot _ _ Hok).
    + intros a b Ha Hb. rewrite !put_slot. now apply (fo_inj _ _ Hok).
  - intros k Hk. rewrite put_used. auto.
  - intros k _. now rewrite put_used.
  - intros k _ Hu Hk Ho. apply dupd_ne. intros ->. apply Ho. split; [done|right]. eauto.
  - now destruct ip.
Qed.
End put.
End file.

(** ** bmap *)

Section code.
Context (s0 : kstate) (me : nat) (p : proc) (start : Z).
Hypothesis Henv : kenv s0 me p.
Abbreviation sb := (k_sb s0).
Abbreviation bm := (sb_bmapstart sb).
Hypothesis Hlay : layout sb start.
Context (i : nat).

Lemma fss_addr_at s l ic v ip bn (Q : Z -> kstate -> Prop) :
  fss s0 s l ic v -> ic !! i = Some ip -> file_ok sb (v_data v) ip -> 0 <= bn <= 12 ->
  Q (default 0 (i_addrs ip !! Z.to_nat bn)) s -> wp (addr_at i bn) Q s.
Proof using.
  intros Hs Hi Hok Hb HQ. unfold addr_at. wp_steps. apply (fss_inode_at s0 s l ic v i ip); auto.
  destruct (lookup_lt_is_Some_2 (i_addrs ip) (Z.to_nat bn)) as [a Ha].
  { rewrite (fo_len _ _ _ Hok). lia. }
  rewrite Ha in HQ |- *. now wp_steps.
Qed.

(** bmap of a block the file has: it only reads. *)
Lemma wp_bmap_read s l ic v ip bn (Q : Z -> kstate -> Prop) :
  fss s0 s l ic v -> ic !! i = Some ip -> file_ok sb (v_data v) ip -> in_file bn ->
  slot (v_data v) ip bn <> 0 -> v_held v !! ind ip = None -> available v (ind ip) ->
  (forall s', fss s0 s' l ic v -> Q (slot (v_data v) ip bn) s') ->
  wp (bmap i bn) Q s.
Proof using Henv Hlay.
  intros Hs Hi Hok Hbn Hsl Hh Ha HQ. unfold in_file, MAXFILE, NDIRECT in Hbn. unfold bmap. wp_steps.
  apply (fss_inode_at s0 s l ic v i ip); auto. rewrite (fo_dev _ _ _ Hok).
  unfold slot in Hsl, HQ. apply wp_if; intros Hd; rewrite Hd in Hsl, HQ.
  - wp_steps. apply (fss_addr_at s l ic v ip); auto; [unfold NDIRECT in Hd; lia|].
    apply wp_if_false; [lia|]. apply wp_ret. auto.
  - apply wp_if_true; [unfold NDIRECT; lia|]. wp_steps. apply (fss_addr_at s l ic v ip); auto; [done|].
    change (default 0 (i_addrs ip !! Z.to_nat NDIRECT)) with (ind ip).
    destruct (Z.eqb_spec (ind ip) 0) as [|Hn]; [done|]. wp_steps.
    destruct (fo_ind _ _ _ Hok Hn) as [Hdb _]. pose proof (data_range _ _ Hlay _ Hdb).
    apply (fss_bread s0 me p Henv s l ic v Hs); auto; [lia|]. intros j s1 Hs1. wp_steps.
    eapply (fss_bdata s0 s1 _ _ _ Hs1); [apply lookup_insert_eq|]. wp_steps.
    change (v_data (v_hold _ _ _ v)) with (v_data v). fold (ind_off bn).
    destruct (Z.eqb_spec (rd32 (v_data v (ind ip)) (ind_off bn)) 0) as [|_]; [done|]. wp_steps.
    eapply (fss_brelse s0 me p Henv s1 _ _ _ Hs1 (ind ip) j); [apply lookup_insert_eq| |].
    { now apply (fss_unmodified s0 s l ic v). }
    intros s2 Hs2. rewrite v_unlock_hold in Hs2 by done. wp_steps. auto.
Qed.

(** ** readi *)

Lemma wp_readi_loop l ic v ip fuel : forall s off n (Q : list Z -> kstate -> Prop),
  fss s0 s l ic v -> ic !! i = Some ip -> file_ok sb (v_data v) ip ->
  v_held v = ∅ -> (size (in_use v) < 30)%nat -> 0 <= off -> off + n <= MAXFILE * BSIZE -> n <= Z.of_nat fuel ->
  (forall bn, off / BSIZE <= bn -> bn * BSIZE < off + n -> slot (v_data v) ip bn <> 0) ->
  (forall s', fss s0 s' l ic v -> Q (fbytes (v_data v) ip off n) s') ->
  wp (readi_loop fuel i off n) Q s.
Proof using Henv Hlay.
  induction fuel as [|fuel IH]; intros s1 off n Q Hs Hi Hok Hh Hsz Ho Hn Hf Hsl HQ; cbn [readi_loop].
  { apply wp_if_true; [lia|]. apply wp_ret. rewrite fbytes_nil in HQ by lia. auto. }
  apply wp_if; intros Hn0; [apply wp_ret; rewrite fbytes_nil in HQ by lia; auto|].
  change (MAXFILE * BSIZE) with 71680 in Hn. unfold BSIZE in *. pose proof (Z.mod_pos_bound off 512 ltac:(lia)).
  assert (in_file (off / 512)) as Hbn by (split; change MAXFILE with 140; div_lia).
  assert (slot (v_data v) ip (off / 512) <> 0) as Hs0 by (apply Hsl; div_lia).
  destruct (fo_slot _ _ _ Hok _ Hbn Hs0) as (Hdb & _). pose proof (data_range _ _ Hlay _ Hdb) as Hrb.
  wp_steps. apply (fss_inode_at s0 s1 l ic v i ip); auto. wp_steps. rewrite (fo_dev _ _ _ Hok).
  apply (wp_bmap_read s1 l ic v ip); auto; [rewrite Hh; apply lookup_empty|now right|].
  intros s2 Hs2. wp_steps.
  apply (fss_bread s0 me p Henv s2 l ic v Hs2); [lia|rewrite Hh; apply lookup_empty|now right|].
  intros j s3 Hs3. wp_steps. eapply (fss_bdata s0 s3 _ _ _ Hs3); [apply lookup_insert_eq|]. wp_steps.
  eapply (fss_brelse s0 me p Henv s3 _ _ _ Hs3 _ j); [apply lookup_insert_eq| |].
  { apply (fss_unmodified s0 s2 l ic v _ Hs2). rewrite Hh. apply lookup_empty. }
  intros s4 Hs4. rewrite v_unlock_hold in Hs4 by (rewrite Hh; apply lookup_empty). wp_steps.
  set (m := Z.min n (512 - off mod 512)). assert (0 < m <= 512) as Hm by lia.
  apply (IH s4 (off + m) (n - m)); auto; [lia|change (MAXFILE * 512) with 71680; lia|lia| |].
  - intros bn H1 H2. apply Hsl; [|lia]. assert (off / 512 <= (off + m) / 512) by div_lia. lia.
  - intros s5 Hs5. wp_steps. change (v_data (v_hold _ _ _ v)) with (v_data v).
    assert (slice (Z.to_nat (off mod 512)) (Z.to_nat m) (v_data v (slot (v_data v) ip (off / 512))) =
            fbytes (v_data v) ip off m) as ->.
    { rewrite (fbytes_block (v_data v) ip (bi_len _ _ _ (fs_inv _ _ _ _ _ Hs))) by (unfold BSIZE; lia).
      unfold fblk, BSIZE. destruct (Z.eqb_spec (slot (v_data v) ip (off / 512)) 0); done. }
    rewrite <- fbytes_app by lia. auto.
Qed.

(** What readi returns. *)
Definition readi_result (D : Z -> list Z) (ip : inode) (off n : Z) : Z * list Z :=
  if (off <=? i_size ip) && (off + n <? 4294967296) then
    let n' := Z.min n (i_size ip - off) in (n', fbytes D ip off n')
  else (-1, []).

Lemma wp_readi s l ic v ip off n (Q : Z * list Z -> kstate -> Prop) :
  fss s0 s l ic v -> ic !! i = Some ip -> file_ok sb (v_data v) ip -> no_holes (v_data v) ip ->
  i_type ip <> T_DEV -> v_held v = ∅ -> (size (in_use v) < 30)%nat -> is_u32 off -> is_u32 n ->
  (forall s', fss s0 s' l ic v -> Q (readi_result (v_data v) ip off n) s') ->
  wp (readi i off n) Q s.
Proof using Henv Hlay.
  intros Hs Hi Hok [Hsz Hnh] Hty Hh Hu Ho Hn HQ. unfold readi, readi_result, is_u32 in *. wp_steps.
  apply (fss_inode_at s0 s l ic v i ip); auto. apply wp_if_false; [lia|].
  assert ((i_size ip <? off) || (u32 (off + n) <? off) = negb ((off <=? i_size ip) && (off + n <? 4294967296))) as ->.
  { unfold u32. destruct (Z.ltb_spec (off + n) 4294967296).
    - rewrite Z.mod_small by lia. lia.
    - replace (off + n) with (off + n - 4294967296 + 1 * 4294967296) at 1 by lia.
      rewrite Z.mod_add, Z.mod_small by lia. lia. }
  destruct (_ && _) eqn:E; cbn [negb]; [|wp_steps; now apply HQ].
  assert (u32 (off + n) = off + n) as -> by (apply u32_small; lia). wp_steps.
  replace (if i_size ip <? off + n then i_size ip - off else n) with (Z.min n (i_size ip - off))
    by (destruct (Z.ltb_spec (i_size ip) (off + n)); lia).
  apply (wp_readi_loop l ic v ip); auto; try lia.
  intros bn H1 H2. apply Hnh; [|lia]. unfold BSIZE in *. pose proof (Z.div_pos off 512). lia.
Qed.

(** ** Inside a transaction

    The transaction had logged the blocks [bl0] when the operation on blocks [lo, hi) of the file
    in slot [i] of the inode cache started. *)

Context (bl0 : list Z) (lo hi : Z) (ic0 : list inode).
Hypothesis Hi : (i < length ic0)%nat.
Hypothesis Hlo : 0 <= lo <= hi.
Hypothesis Hroom : (length bl0 + Z.to_nat (hi - lo) <= 24)%nat.

(** Besides the free map and the indirect block only blocks [lo, hi) of the file are logged. *)
Definition logged (D : Z -> list Z) (ip : inode) (bl : list Z) : Prop :=
  forall x, x ∈ bl -> x ∈ bl0 \/ x = bm \/ (x = ind ip /\ x <> 0) \/
    exists bn, lo <= bn < hi /\ in_file bn /\ slot D ip bn = x /\ x <> 0.

Lemma logged_length D ip bl :
  NoDup bl -> logged D ip bl -> (length bl <= length bl0 + 2 + Z.to_nat (hi - lo))%nat.
Proof.
  intros Hn Hl. transitivity (length (bl0 ++ [bm; ind ip] ++ (slot D ip <$> seqZ lo (hi - lo)))).
  - apply submseteq_length, NoDup_submseteq; [done|]. intros x Hx. rewrite !elem_of_app, !elem_of_cons.
    destruct (Hl x Hx) as [H|[->|[[-> _]|(bn & Hb & _ & <- & _)]]]; auto.
    do 2 right. apply list_elem_of_fmap_2. apply elem_of_seqZ. lia.
  - rewrite !length_app, length_fmap, length_seqZ. simpl. lia.
Qed.

Lemma logged_mono D ip D' ip' bl : evo sb D ip D' ip' -> logged D ip bl -> logged D' ip' bl.
Proof.
  intros E Hl x Hx. destruct (Hl x Hx) as [H|[->|[[-> Hn]|(bn & Hb & Hf & <- & Hn)]]]; auto.
  - do 2 right. left. now rewrite (ev_ind _ _ _ _ _ E).
  - do 3 right. exists bn. now rewrite (ev_slot _ _ _ _ _ E).
Qed.

Lemma logged_add D ip bl x :
  logged D ip bl -> (x = bm \/ (x = ind ip /\ x <> 0) \/
    exists bn, lo <= bn < hi /\ in_file bn /\ slot D ip bn = x /\ x <> 0) -> logged D ip (bl_add bl x).
Proof. intros Hl Hx y [Hy| ->]%elem_of_bl_add; auto. Qed.

Record ftx (s : kstate) (v : bview) (ip : inode) (bl : list Z) : Prop := {
  ft_fss : exists l, fss s0 s l (<[i := ip]> ic0) v /\ txl start l v bl;
  ft_held : v_held v = ∅;
  ft_ok : file_ok sb (v_data v) ip;
  ft_meta : meta_used sb (v_data v);
  ft_log : logged (v_data v) ip bl
}.

Abbreviation avail := (avail_blocks sb).

Lemma ftx_len s v ip bl : ftx s v ip bl -> (length bl <= 26)%nat.
Proof.
  intros [(l & _ & Ht) _ _ _ Hl]. pose proof (logged_length _ _ _ (tl_nodup _ _ _ _ Ht) Hl). lia.
Qed.

Lemma ftx_blocks s v ip bl k : ftx s v ip bl -> length (v_data v k) = 512%nat.
Proof. intros [(l & Hs & _) _ _ _ _]. apply (bi_len _ _ _ (fs_inv _ _ _ _ _ Hs)). Qed.

Lemma ftx_inode ip : <[i := ip]> ic0 !! i = Some ip.
Proof. now apply list_lookup_insert_eq. Qed.

Definition kept (D : Z -> list Z) (ip : inode) (D' : Z -> list Z) (ip' : inode) : Prop :=
  evo sb D ip D' ip' /\ forall k, in_file k -> fblk D' ip' k = fblk D ip k.

Lemma kept_trans D ip D1 ip1 D2 ip2 : kept D ip D1 ip1 -> kept D1 ip1 D2 ip2 -> kept D ip D2 ip2.
Proof.
  intros [E1 F1] [E2 F2]. split; [now apply (evo_trans _ _ Hlay _ _ D1 ip1)|].
  intros k Hk. rewrite F2, F1; done.
Qed.

Lemma ftx_balloc s v ip bl (Q : Z -> kstate -> Prop) :
  ftx s v ip bl -> (0 < nfree sb (v_data v))%nat ->
  (forall b s' l' v', data_block sb b -> ~ used sb (v_data v) b ->
     fss s0 s' l' (<[i := ip]> ic0) v' -> v_held v' = ∅ -> v_data v' = alloc_map sb (v_data v) b ->
     txl start l' v' (bl_add (bl_add bl bm) b) -> Q b s') ->
  wp (balloc 1) Q s.
Proof.
  intros Hf Hn HQ. pose proof (ftx_len _ _ _ _ Hf) as Hlen. destruct Hf as [(l & Hs & Ht) Hh Hok Hm Hl].
  destruct (nfree_first s0 _ Hn) as [k Hk].
  apply (wp_balloc s0 me p start Henv Hlay s l (<[i := ip]> ic0) v bl k); auto; rewrite ?Hh.
  - apply lookup_empty.
  - set_solver.
  - rewrite map_size_empty. lia.
  - intros s' l' b v' H1 H2 H3 H4. apply (HQ b s' l' v'); auto. unfold v', alloc_map, b. simpl.
    now rewrite Nat2Z.id.
Qed.

(** The statement that gives the file the direct block [j], or its indirect block. *)
Lemma wp_ensure_addr s v ip bl j (Q : Z -> kstate -> Prop) :
  let a := default 0 (i_addrs ip !! Z.to_nat j) in
  ftx s v ip bl -> 0 <= j <= 12 -> j = 12 \/ lo <= j < hi -> 1 <= avail (v_data v) ip + (if j =? 12 then 1 else 0) ->
  (forall s' v' ip' bl', ftx s' v' ip' bl' -> kept (v_data v) ip (v_data v') ip' ->
     default 0 (i_addrs ip' !! Z.to_nat j) <> 0 ->
     avail (v_data v) ip - (if j =? 12 then 0 else 1) <= avail (v_data v') ip' ->
     Q (default 0 (i_addrs ip' !! Z.to_nat j)) s') ->
  wp (if a =? 0 then addr ← balloc 1; set_addr i j addr ;; ret addr else ret a) Q s.
Proof.
  intros a Hf Hj Hr Hav HQ. pose proof Hf as [_ _ Hok Hm Hl]. unfold avail_blocks in *.
  destruct (lookup_lt_is_Some_2 (i_addrs ip) (Z.to_nat j)) as [a' Ha].
  { rewrite (fo_len _ _ _ Hok). lia. }
  apply wp_if; intros Ea; unfold a in Ea; rewrite Ha in Ea; simpl in Ea.
  - apply Z.eqb_eq in Ea. subst a'. wp_steps. apply (ftx_balloc s v ip bl); auto.
    { revert Hav. destruct (Z.eqb_spec j 12) as [->|], (Z.eqb_spec (ind ip) 0) as [|Hne]; try lia.
      exfalso. apply Hne. unfold ind. change 12%nat with (Z.to_nat 12). now rewrite Ha. }
    intros b s1 l1 v1 Hdb Hu Hs1 Hh1 Hd1 Ht1. wp_steps. unfold set_addr.
    eapply (fss_upd_inode s0 s1 _ _ _ i ip); [exact Hs1|apply ftx_inode|]. intros s2 Hs2. wp_steps.
    rewrite list_insert_insert_eq in Hs2. set (ip' := ip <| i_addrs := _ |>) in *.
    assert (forall k, length (v_data v k) = 512%nat) as H512 by (intros; now apply (ftx_blocks s v ip bl)).
    pose proof (addr_evo _ _ Hlay _ ip b Hok Hm H512 Hdb Hu _ Ha) as Hevo. fold ip' in Hevo.
    pose proof (addr_fblk _ _ Hlay _ ip b Hok Hdb Hu _ Ha) as Hblk. fold ip' in Hblk.
    pose proof (addr_slot _ _ ip b Hok Hu _ Ha) as Hslot. fold ip' in Hslot.
    pose proof (addr_ind ip b _ Ha) as Hind. fold ip' in Hind.
    pose proof (data_range _ _ Hlay _ Hdb) as Hrb. pose proof (nfree_alloc _ _ _ _ Hlay H512 Hdb Hu) as Hnf.
    assert (i_addrs ip' !! Z.to_nat j = Some b) as Ea'.
    { apply list_lookup_insert_eq. now apply lookup_lt_Some in Ha. }
    replace b with (default 0 (i_addrs ip' !! Z.to_nat j)) at 1 by (now rewrite Ea').
    apply (HQ s2 v1 ip' (bl_add (bl_add bl bm) b)); rewrite ?Hd1, ?Ea'; [|done|simpl; lia|].
    + constructor; rewrite ?Hd1; eauto; [apply Hevo|apply Hevo|].
      apply logged_add; [apply logged_add; [now apply (logged_mono _ _ _ _ _ Hevo)|now left]|right].
      destruct (Z.eqb_spec j 12) as [->|]; [left; rewrite Hind; simpl; lia|right].
      assert (in_file j) as Hfj by (split; [lia|change MAXFILE with 140; lia]).
      exists j. rewrite Hslot, Nat.eqb_refl by done. change NDIRECT with 12.
      destruct (Z.ltb_spec j 12); [|lia]. split; [lia|]. split; [done|]. split; [done|lia].
    + rewrite Hind. destruct (Z.eqb_spec j 12) as [->|]; simpl.
      * unfold ind in *. change (Z.to_nat 12) with 12%nat in Ha. rewrite Ha. simpl. destruct (Z.eqb_spec b 0); lia.
      * destruct (Nat.eqb_spec (Z.to_nat j) 12); [lia|]. destruct (ind ip =? 0); lia.
  - apply wp_ret. unfold a. apply (HQ s v ip bl); auto.
    + split; [now apply evo_refl|done].
    + rewrite Ha. simpl. lia.
    + destruct (j =? 12); lia.
Qed.

Lemma ftx_available s v ip bl b : ftx s v ip bl -> available v b.
Proof.
  intros Hf. pose proof (ftx_len _ _ _ _ Hf). destruct Hf as [(l & _ & Ht) Hh _ _ _].
  apply (room_available start l v bl); [done|]. unfold room. rewrite Hh, map_size_empty. lia.
Qed.

(** The entry of the indirect block, allocated if it is 0, while the indirect block is locked. *)
Lemma wp_ensure_entry s v ip bl bn j (Q : Z -> kstate -> Prop) :
  let a := ind ip in let D := v_data v in
  ftx s v ip bl -> a <> 0 -> in_file bn -> NDIRECT <= bn -> lo <= bn < hi -> 1 <= avail D ip ->
  forall l1 s1, fss s0 s1 l1 (<[i := ip]> ic0) (v_hold a j (p_pid p) v) -> txl start l1 v bl ->
  (forall s' v' ip' bl', ftx s' v' ip' bl' -> kept D ip (v_data v') ip' -> slot (v_data v') ip' bn <> 0 ->
     avail D ip - 1 <= avail (v_data v') ip' -> Q (slot (v_data v') ip' bn) s') ->
  wp (addr ← (if rd32 (D a) (ind_off bn) =? 0 then
                addr ← balloc 1;
                d ← bdata j;
                set_bdata j (wr32 d (ind_off bn) addr) ;;
                log_write j ;;
                ret addr
              else ret (rd32 (D a) (ind_off bn)));
      brelse j ;; ret addr) Q s1.
Proof.
  intros a D Hf Ha Hbn Hnd Hr Hav l1 s1 Hs1 Ht1 HQ. pose proof (ftx_len _ _ _ _ Hf) as Hlen.
  pose proof Hf as [_ Hh Hok Hm Hl]. destruct (fo_ind _ _ _ Hok Ha) as [Hda Hua].
  pose proof (data_range _ _ Hlay _ Hda) as Hra.
  assert (a <> bm) as Hab by (unfold data_block in Hda; lia).
  assert (slot D ip bn = rd32 (D a) (ind_off bn)) as Hslot.
  { unfold slot. destruct (Z.ltb_spec bn NDIRECT); [lia|]. destruct (Z.eqb_spec (ind ip) 0); done. }
  assert (a ∉ v_mod v) as Hmod.
  { destruct Hf as [(l & Hs & _) _ _ _ _]. apply (fss_unmodified s0 s l (<[i := ip]> ic0) v a Hs). now rewrite Hh. }
  assert (v_held v !! a = None) as Hha by (rewrite Hh; apply lookup_empty).
  rewrite <- Hslot. apply wp_bind, wp_if; intros Ea.
  - apply Z.eqb_eq in Ea. wp_steps.
    assert (0 < nfree sb D)%nat as Hn by (unfold avail_blocks in Hav; destruct (_ =? 0); lia).
    destruct (nfree_first s0 _ Hn) as [k Hk].
    eapply (wp_balloc s0 me p start Henv Hlay s1 l1 _ _ bl k); [exact Hs1| | | |exact Hm| |exact Hk|].
    { destruct Ht1 as [T1 T2 T3 T4]. now constructor. }
    { simpl. rewrite Hh, lookup_insert_ne by done. apply lookup_empty. }
    { simpl. rewrite Hh. intros x Hx. rewrite dom_insert, dom_empty in Hx.
      assert (x = a) as -> by set_solver. exact Hua. }
    { simpl. rewrite Hh, map_size_insert, lookup_empty, map_size_empty. lia. }
    intros s2 l2 b v2 Hdb Hu Hs2 Ht2. change (v_data (v_hold a j (p_pid p) v)) with D in *.
    set (w := v_put b zero_block (v_put bm (set_bit (D bm) k) v)) in *.
    change v2 with (v_hold a j (p_pid p) w) in *. clear v2.
    assert (v_data w = alloc_map sb D b) as Hdw.
    { unfold w, alloc_map, b. simpl. now rewrite Nat2Z.id. }
    assert (v_data w a = D a) as Hwa by (rewrite Hdw; now apply alloc_map_used).
    wp_steps. eapply (fss_bdata s0 s2 _ _ _ Hs2); [apply lookup_insert_eq|].
    change (v_data (v_hold a j (p_pid p) w) a) with (v_data w a). rewrite Hwa. wp_steps.
    assert (forall x, length (D x) = 512%nat) as H512 by (intros; now apply (ftx_blocks s v ip bl)).
    eapply (fss_set_bdata s0 s2 _ _ _ Hs2 a j); [apply lookup_insert_eq| |].
    { unfold in_file, MAXFILE, NINDIRECT, NDIRECT, BSIZE in *. rewrite length_wr32; [done|].
      rewrite H512. unfold ind_off, NDIRECT. change (512 / 4) with 128 in *. lia. }
    intros s3 Hs3. wp_steps.
    assert (length (bl_add (bl_add bl bm) b) <= S (S (length bl)))%nat as Hlb.
    { unfold bl_add. repeat case_decide; rewrite ?length_app; simpl; lia. }
    eapply (fss_log_write s0 me p start Henv s3 _ _ _ Hs3 a j (bl_add (bl_add bl bm) b)); [|lia|apply lookup_insert_eq|].
    { destruct Ht2 as [T1 T2 T3 T4]. now constructor. }
    intros s4 l4 Hs4 Ht4. wp_steps.
    eapply (fss_brelse s0 me p Henv s4 _ _ _ Hs4 a j); [apply lookup_insert_eq|simpl; set_solver|].
    intros s5 Hs5. rewrite v_unlock_put in Hs5 by done. wp_steps.
    set (x := wr32 _ _ _) in *. set (D' := dupd (alloc_map sb D b) a x).
    assert (v_data (v_put a x w) = D') as HD' by (unfold D'; now rewrite <- Hdw).
    assert (kept D ip D' ip) as Hk'.
    { split; [now apply (entry_evo _ _ Hlay D ip b)|now apply (entry_fblk _ _ Hlay D ip b)]. }
    assert (slot D' ip bn = b) as Hsb.
    { unfold D', x. rewrite (entry_slot _ _ Hlay D ip b) by done. now rewrite Z.eqb_refl. }
    pose proof (data_range _ _ Hlay _ Hdb) as Hrb.
    rewrite <- Hsb at 1. rewrite <- HD' in *.
    apply (HQ s5 (v_put a x w) ip (bl_add (bl_add (bl_add bl bm) b) a)); [|done|rewrite Hsb; lia|].
    + constructor; [|done|apply Hk'|apply Hk'|].
      * exists l4. split; [done|]. destruct Ht4 as [T1 T2 T3 T4]. now constructor.
      * apply logged_add; [|right; now left]. apply logged_add.
        -- apply logged_add; [|now left]. now apply (logged_mono _ _ _ _ _ (proj1 Hk')).
        -- do 2 right. exists bn. rewrite Hsb. repeat (split; [done|]). lia.
    + unfold avail_blocks. rewrite (nfree_same sb (alloc_map sb D b) (v_data (v_put a x w))).
      * rewrite (nfree_alloc _ _ _ _ Hlay H512 Hdb Hu). lia.
      * rewrite HD'. unfold D'. apply dupd_ne. congruence.
  - wp_steps.
    eapply (fss_brelse s0 me p Henv s1 _ _ _ Hs1 a j); [apply lookup_insert_eq|done|].
    intros s2 Hs2. rewrite v_unlock_hold in Hs2 by done. wp_steps.
    apply (HQ s2 v ip bl); [|split; [now apply evo_refl|done]|now apply Z.eqb_neq in Ea|unfold D in *; lia].
    constructor; auto. eauto.
Qed.

Lemma slot_direct D ip bn : bn < NDIRECT -> slot D ip bn = default 0 (i_addrs ip !! Z.to_nat bn).
Proof. intros H. unfold slot. destruct (Z.ltb_spec bn NDIRECT); [done|lia]. Qed.

(** bmap finds or allocates block [bn]; nothing the file or the others hold changes. *)
Lemma wp_bmap s v ip bl bn (Q : Z -> kstate -> Prop) :
  ftx s v ip bl -> in_file bn -> lo <= bn < hi -> 1 <= avail (v_data v) ip ->
  (forall s' v' ip' bl', ftx s' v' ip' bl' -> kept (v_data v) ip (v_data v') ip' ->
     slot (v_data v') ip' bn <> 0 -> avail (v_data v) ip - 1 <= avail (v_data v') ip' ->
     Q (slot (v_data v') ip' bn) s') ->
  wp (bmap i bn) Q s.
Proof.
  intros Hf Hbn Hr Hav HQ. pose proof Hf as [(l & Hs & Ht) _ Hok _ _]. unfold in_file in Hbn.
  change MAXFILE with 140 in Hbn. unfold bmap. wp_steps.
  eapply (fss_inode_at s0 s l _ v i ip); [exact Hs|apply ftx_inode|].
  rewrite (fo_dev _ _ _ Hok). apply wp_if; intros Hd.
  - change NDIRECT with 12 in Hd. wp_steps.
    eapply (fss_addr_at s l _ v ip); [exact Hs|apply ftx_inode|done|lia|].
    apply (wp_ensure_addr s v ip bl bn); auto; [lia| |].
    { destruct (Z.eqb_spec bn 12); lia. }
    destruct (Z.eqb_spec bn 12); [lia|]. intros s' v' ip' bl' Hf' Hk Ha Hav'.
    rewrite <- (slot_direct (v_data v') ip' bn) in * by (change NDIRECT with 12; lia). eauto.
  - change NDIRECT with 12 in *. apply wp_if_true; [change NINDIRECT with 128; lia|]. wp_steps.
    eapply (fss_addr_at s l _ v ip); [exact Hs|apply ftx_inode|done|lia|]. wp_steps.
    apply (wp_ensure_addr s v ip bl 12); auto; [lia|simpl; lia|].
    intros s1 v1 ip1 bl1 Hf1 Hk1 Ha1 Hav1. change (default 0 (i_addrs ip1 !! Z.to_nat 12)) with (ind ip1) in *.
    pose proof Hf1 as [(l1 & Hs1 & Ht1) Hh1 Hok1 _ _]. destruct (fo_ind _ _ _ Hok1 Ha1) as [Hda _].
    pose proof (data_range _ _ Hlay _ Hda). wp_steps.
    eapply (fss_bread s0 me p Henv s1 _ _ _ Hs1); [lia|rewrite Hh1; apply lookup_empty|now apply (ftx_available s1 v1 ip1 bl1)|].
    intros j s2 Hs2. wp_steps. eapply (fss_bdata s0 s2 _ _ _ Hs2); [apply lookup_insert_eq|].
    change (v_data (v_hold _ _ _ v1)) with (v_data v1).
    change (Z.to_nat (4 * (bn - 12))) with (ind_off bn).
    apply (wp_ensure_entry s1 v1 ip1 bl1 bn j _ Hf1 Ha1 Hbn ltac:(change NDIRECT with 12; lia) Hr ltac:(simpl in Hav1; lia) l1 s2 Hs2 Ht1).
    intros s' v' ip' bl' Hf' Hk' Hs' Hav'. simpl in Hav1.
    apply (HQ s' v' ip' bl'); auto; [|lia]. now apply (kept_trans _ _ (v_data v1) ip1).
Qed.

(** ** writei *)

(** The bytes [bs] have been written at [off]. *)
Record wrote (D : Z -> list Z) (ip : inode) (off : Z) (bs : list Z) (D' : Z -> list Z) (ip' : inode) : Prop := {
  wr_evo : evo sb D ip D' ip';
  wr_byte : forall y, 0 <= y < MAXFILE * BSIZE -> fbyte D' ip' y =
    if bool_decide (off <= y < off + Z.of_nat (length bs)) then default 0 (bs !! Z.to_nat (y - off))
    else fbyte D ip y;
  wr_slot : forall bn, bs <> [] -> off / BSIZE <= bn -> bn * BSIZE < off + Z.of_nat (length bs) ->
    slot D' ip' bn <> 0;
  wr_same : (forall bn, off / BSIZE <= bn -> bn * BSIZE < off + Z.of_nat (length bs) -> slot D ip bn <> 0) ->
    ip' = ip
}.

Lemma wrote_nil D ip off : file_ok sb D ip -> meta_used sb D -> wrote D ip off [] D ip.
Proof.
  intros H1 H2. constructor; [now apply evo_refl| |done|done]. intros y _.
  rewrite bool_decide_eq_false_2; [done|simpl; lia].
Qed.

Lemma wrote_app D ip off bs1 D1 ip1 bs2 D2 ip2 :
  0 <= off -> off + Z.of_nat (length (bs1 ++ bs2)) <= MAXFILE * BSIZE ->
  bs1 <> [] -> bs2 = [] \/ (off + Z.of_nat (length bs1)) mod BSIZE = 0 ->
  wrote D ip off bs1 D1 ip1 -> wrote D1 ip1 (off + Z.of_nat (length bs1)) bs2 D2 ip2 ->
  wrote D ip off (bs1 ++ bs2) D2 ip2.
Proof.
  intros Ho Hmax Hn1 Hal A B. pose proof (evo_trans _ _ Hlay _ _ _ _ _ _ (wr_evo _ _ _ _ _ _ A) (wr_evo _ _ _ _ _ _ B)) as Hevo.
  rewrite length_app in *. change (MAXFILE * BSIZE) with 71680 in *. unfold BSIZE in *.
  assert (forall bn, off / 512 <= bn -> bn * 512 < off + Z.of_nat (length bs1 + length bs2) -> in_file bn) as Hin.
  { intros bn H1 H2. split; [pose proof (Z.div_pos off 512); lia|change MAXFILE with 140; lia]. }
  constructor; [done| | |].
  - intros y Hy. change (MAXFILE * BSIZE) with 71680 in Hy.
    rewrite (wr_byte _ _ _ _ _ _ B), (wr_byte _ _ _ _ _ _ A) by done.
    repeat case_bool_decide; rewrite ?length_app in *; try lia; f_equal.
    + rewrite lookup_app_r by lia. f_equal. lia.
    + now rewrite lookup_app_l by lia.
  - rewrite length_app. unfold BSIZE. intros bn _ H1 H2. destruct (decide (bn * 512 < off + Z.of_nat (length bs1))) as [H3|H3].
    + pose proof (wr_slot _ _ _ _ _ _ A bn Hn1 H1 H3) as Hs.
      rewrite (ev_slot _ _ _ _ _ (wr_evo _ _ _ _ _ _ B) bn (Hin bn H1 H2) Hs). done.
    + destruct Hal as [-> | Hal]; [simpl in *; lia|].
      apply (wr_slot _ _ _ _ _ _ B); unfold BSIZE; [intros ->; simpl in *; lia|div_lia|lia].
  - rewrite length_app. unfold BSIZE. intros Hsl.
    assert (ip1 = ip) as -> by (apply (wr_same _ _ _ _ _ _ A); unfold BSIZE; intros; apply Hsl; lia).
    apply (wr_same _ _ _ _ _ _ B). unfold BSIZE. intros bn H1 H2.
    assert (off / 512 <= bn) as H1' by (assert (off / 512 <= (off + Z.of_nat (length bs1)) / 512) by div_lia; lia).
    rewrite (ev_slot _ _ _ _ _ (wr_evo _ _ _ _ _ _ A)); [apply Hsl; lia|apply Hin; lia|apply Hsl; lia].
Qed.

(** The blocks bmap has to allocate for block [bn]. *)
Definition need (D : Z -> list Z) (ip : inode) (bn : Z) : Z := if slot D ip bn =? 0 then 1 else 0.

(** bmap as writei calls it: a block the file has is only looked up. *)
Lemma wp_bmap_any s v ip bl bn (Q : Z -> kstate -> Prop) :
  ftx s v ip bl -> in_file bn -> lo <= bn < hi -> (slot (v_data v) ip bn = 0 -> 1 <= avail (v_data v) ip) ->
  (forall s' v' ip' bl', ftx s' v' ip' bl' -> kept (v_data v) ip (v_data v') ip' ->
     slot (v_data v') ip' bn <> 0 ->
     avail (v_data v) ip - need (v_data v) ip bn <= avail (v_data v') ip' ->
     (slot (v_data v) ip bn <> 0 -> ip' = ip) -> Q (slot (v_data v') ip' bn) s') ->
  wp (bmap i bn) Q s.
Proof.
  unfold need. intros Hf Hbn Hr Hav HQ. destruct (decide (slot (v_data v) ip bn = 0)) as [E|E].
  - rewrite E in HQ. apply (wp_bmap s v ip bl); auto. intros. eapply HQ; eauto. done.
  - pose proof Hf as [(l & Hs & Ht) Hh Hok Hm Hl].
    eapply (wp_bmap_read s l _ v ip); [exact Hs|apply ftx_inode|done|done|done| | |].
    { rewrite Hh. apply lookup_empty. }
    { now apply (ftx_available s v ip bl). }
    intros s' Hs'. apply (HQ s' v ip bl); auto; [constructor; eauto|split; [now apply evo_refl|done]|].
    destruct (_ =? 0); lia.
Qed.

Lemma wp_write_block {A} s v ip bl off bs (k : K A) (Q : A -> kstate -> Prop) :
  ftx s v ip bl -> 0 <= off -> in_file (off / BSIZE) -> lo <= off / BSIZE < hi ->
  bs <> [] -> off mod BSIZE + Z.of_nat (length bs) <= BSIZE ->
  (slot (v_data v) ip (off / BSIZE) = 0 -> 1 <= avail (v_data v) ip) ->
  (forall s' v' ip' bl', ftx s' v' ip' bl' -> wrote (v_data v) ip off bs (v_data v') ip' ->
     avail (v_data v) ip - need (v_data v) ip (off / BSIZE) <= avail (v_data v') ip' ->
     bl' <> [] -> wp k Q s') ->
  wp (bn ← bmap i (off / BSIZE);
      bp ← bread 1 bn;
      d ← bdata bp;
      set_bdata bp (splice (Z.to_nat (off mod BSIZE)) bs d) ;; log_write bp ;; brelse bp ;; k) Q s.
Proof.
  intros Hf Ho Hbn Hr Hbs Hfit Hav HQ. unfold BSIZE in *. pose proof (Z.mod_pos_bound off 512 ltac:(lia)).
  wp_steps. apply (wp_bmap_any s v ip bl); auto. intros s1 v1 ip1 bl1 Hf1 [Hevo Hblk] Hs1 Hav1 Hsame.
  set (bn := off / 512) in *. set (D1 := v_data v1) in *. set (b := slot D1 ip1 bn) in *.
  pose proof (ftx_len _ _ _ _ Hf1) as Hlen. pose proof Hf1 as [(l1 & Hss1 & Ht1) Hh1 Hok1 Hm1 Hl1].
  destruct (fo_slot _ _ _ Hok1 bn Hbn Hs1) as (Hdb & Hub & _). fold D1 b in Hdb, Hub.
  pose proof (data_range _ _ Hlay _ Hdb).
  assert (forall x, length (D1 x) = 512%nat) as H512 by (intros; now apply (ftx_blocks s1 v1 ip1 bl1)).
  wp_steps. eapply (fss_bread s0 me p Henv s1 _ _ _ Hss1); [lia|rewrite Hh1; apply lookup_empty| |].
  { now apply (ftx_available s1 v1 ip1 bl1). }
  intros j s2 Hss2. wp_steps. eapply (fss_bdata s0 s2 _ _ _ Hss2); [apply lookup_insert_eq|].
  change (v_data (v_hold b j (p_pid p) v1) b) with (D1 b). set (x := splice _ bs (D1 b)).
  assert (Z.to_nat (off mod 512) + length bs <= 512)%nat as Hfit' by lia.
  assert (length x = 512%nat) as Hx by (unfold x; rewrite length_splice; rewrite H512; lia).
  apply (fss_put_then s0 me p start Henv s2 l1 (<[i := ip1]> ic0) v1 b j x bl1); auto; [rewrite Hh1; apply lookup_empty| |lia|].
  { apply (fss_unmodified s0 s1 l1 (<[i := ip1]> ic0) v1 b Hss1). rewrite Hh1. apply lookup_empty. }
  intros s3 l3 Hss3 Ht3. change (slot D1 ip1 bn) with b in Hs1.
  pose proof (put_evo sb D1 ip1 bn x Hok1 Hm1 Hbn Hs1) as Hput. fold b in Hput.
  pose proof (put_slot sb D1 ip1 bn x Hok1 Hbn Hs1) as Hslot. fold b in Hslot.
  apply (HQ s3 (v_put b x v1) ip1 (bl_add bl1 b)).
  - constructor; eauto; [apply Hput|apply Hput|]. apply logged_add; [now apply (logged_mono _ _ _ _ _ Hput)|].
    do 2 right. exists bn. split; [done|]. split; [done|]. split; [apply Hslot|done].
  - constructor.
    + now apply (evo_trans _ _ Hlay _ _ D1 ip1).
    + intros y Hy. change (v_data (v_put b x v1)) with (dupd D1 b x).
      pose proof (put_fbyte sb D1 ip1 bn x Hok1 Hbn Hs1 _ bs y H512 eq_refl Hfit' Hy) as E. fold b in E. rewrite E.
      assert (bn * 512 + Z.of_nat (Z.to_nat (off mod 512)) = off) as -> by (unfold bn; div_lia).
      destruct (bool_decide (off <= y < off + Z.of_nat (length bs))); [done|]. unfold fbyte. change (MAXFILE * BSIZE) with 71680 in Hy. unfold BSIZE.
      rewrite Hblk; [done|]. unfold in_file. change MAXFILE with 140. div_lia.
    + unfold BSIZE. intros k' _ H1 H2. assert (k' = bn) as -> by (unfold bn in *; div_lia).
      change (slot (dupd D1 b x) ip1 bn <> 0). now rewrite Hslot.
    + unfold BSIZE. intros Hsl. apply Hsame, Hsl; unfold bn; [lia|].
      destruct bs; [done|]. simpl length. div_lia.
  - assert (avail (v_data (v_put b x v1)) ip1 = avail D1 ip1) as ->; [|lia]. unfold avail_blocks. f_equal. f_equal.
    apply nfree_same. simpl. apply dupd_ne. unfold data_block in Hdb. lia.
  - intros E. assert (b ∈ bl_add bl1 b) as Hb by (apply elem_of_bl_add; now right). rewrite E in Hb.
    now apply not_elem_of_nil in Hb.
Qed.

(** The loop of writei on a file whose blocks below [e] are there. *)
Lemma wp_writei_loop fuel : forall s v ip bl src off n e (Q : Z -> kstate -> Prop),
  ftx s v ip bl -> hi <= MAXFILE -> 0 <= off -> lo * BSIZE <= off -> off + n <= hi * BSIZE ->
  0 <= n <= Z.of_nat fuel -> n <= Z.of_nat (length src) ->
  (forall bn, 0 <= bn < e -> slot (v_data v) ip bn <> 0) -> off <= e * BSIZE -> e <= MAXFILE ->
  off + n <= (e + avail (v_data v) ip) * BSIZE ->
  (forall s' v' ip' bl' e', ftx s' v' ip' bl' ->
     wrote (v_data v) ip off (take (Z.to_nat n) src) (v_data v') ip' ->
     e' <= Z.max e ((off + n + BSIZE - 1) / BSIZE) ->
     e + avail (v_data v) ip <= e' + avail (v_data v') ip' ->
     (bl' = [] -> n = 0 /\ bl = []) -> Q (off + n) s') ->
  wp (writei_loop fuel i src off n) Q s.
Proof.
  unfold BSIZE. change MAXFILE with 140.
  induction fuel as [|fuel IH]; intros s v ip bl src off n e Q Hf Hhi Ho Hl Hh Hn Hsrc Hsl Hoe He Hav HQ; cbn [writei_loop].
  { replace n with 0 in * by lia. apply wp_if_true; [lia|]. apply wp_ret.
    rewrite Z.add_0_r in HQ. apply (HQ s v ip bl e Hf); [apply wrote_nil; apply Hf|lia|lia|done]. }
  apply wp_if; intros Hn0.
  { replace n with 0 in * by lia. apply wp_ret. rewrite Z.add_0_r in HQ.
    apply (HQ s v ip bl e Hf); [apply wrote_nil; apply Hf|lia|lia|done]. }
  pose proof (Z.mod_pos_bound off 512 ltac:(lia)). unfold BSIZE. set (m := Z.min n (512 - off mod 512)).
  assert (0 < m <= n) as Hm by lia. pose proof Hf as [(l & Hs & _) _ Hok _ _].
  assert (length (take (Z.to_nat m) src) = Z.to_nat m) as Hlm by (rewrite length_take; lia).
  assert (Z.of_nat (Z.to_nat m) = m) as Em by lia.
  assert (off / 512 <= e /\ off = off / 512 * 512 + off mod 512) as [Hbe Hoff] by div_lia.
  set (bn := off / 512) in *. set (e1 := if bn =? e then e + 1 else e).
  assert (need (v_data v) ip bn <= e1 - e) as Hneed.
  { unfold need, e1. destruct (Z.eqb_spec bn e); [destruct (_ =? 0); lia|].
    pose proof (Hsl bn ltac:(lia)). destruct (Z.eqb_spec (slot (v_data v) ip bn) 0); lia. }
  assert (e1 <= e + 1 /\ off + m <= e1 * 512 /\ e1 <= 140 /\ e1 <= Z.max e ((off + m + 511) / 512)) as (E1 & E2 & E3 & E4).
  { unfold e1, m in *. destruct (Z.eqb_spec bn e); [|lia]. split; [lia|]. split; [lia|]. split; [div_lia|].
    apply Z.max_le_iff. right. apply Z.div_le_lower_bound; lia. }
  wp_steps. eapply (fss_inode_at s0 s l _ v i ip); [exact Hs|apply ftx_inode|]. rewrite (fo_dev _ _ _ Hok).
  apply (wp_write_block s v ip bl off (take (Z.to_nat m) src)); unfold BSIZE; fold bn; auto.
  - split; change MAXFILE with 140; lia.
  - split; [apply Z.div_le_lower_bound; lia|apply Z.div_lt_upper_bound; lia].
  - intros E. rewrite E in Hlm. simpl in Hlm. lia.
  - rewrite Hlm. lia.
  - intros Hs0. destruct (decide (bn < e)); [now destruct (Hsl bn ltac:(lia))|lia].
  - intros s1 v1 ip1 bl1 Hf1 Hw1 Hav1 Hbl1. apply (IH s1 v1 ip1 bl1 _ _ _ e1); auto; try lia.
    + rewrite length_drop. lia.
    + intros k Hk. destruct (decide (slot (v_data v) ip k = 0)) as [Ek|Ek].
      * apply (wr_slot _ _ _ _ _ _ Hw1); rewrite ?Hlm; [intros E; rewrite E in Hlm; simpl in Hlm; lia|..];
          unfold BSIZE, e1 in *; fold bn; destruct (Z.eqb_spec bn e); try (now destruct (Hsl k ltac:(lia)));
          (destruct (decide (k < e)); [now destruct (Hsl k ltac:(lia))|lia]).
      * rewrite (ev_slot _ _ _ _ _ (wr_evo _ _ _ _ _ _ Hw1)); [done|split; change MAXFILE with 140; lia|done].
    + intros s2 v2 ip2 bl2 e2 Hf2 Hw2 He2 Hav2 Hbl2. replace (off + m + (n - m)) with (off + n) in * by lia.
      apply (HQ s2 v2 ip2 bl2 e2 Hf2); [|unfold e1 in *; div_lia|lia|intros E; now destruct (Hbl2 E)].
      replace (take (Z.to_nat n) src) with (take (Z.to_nat m) src ++ take (Z.to_nat (n - m)) (drop (Z.to_nat m) src)).
      2: { rewrite take_drop_commute, <- (take_drop (Z.to_nat m) (take (Z.to_nat n) src)), take_take.
           f_equal; [f_equal; lia|]. f_equal. f_equal. lia. }
      apply (wrote_app _ _ _ _ (v_data v1) ip1); auto; rewrite ?length_app, ?Hlm, ?Em; auto.
      * rewrite length_take, length_drop. change (MAXFILE * BSIZE) with 71680. lia.
      * intros E. rewrite E in Hlm. simpl in Hlm. lia.
      * destruct (decide (n = m)) as [En|Hne]; [left; now rewrite <- En, Z.sub_diag|right]. unfold BSIZE, m in *. div_lia.
Qed.
End code.
