(* ===== verification/Fsinode.v ===== *)
(** Inodes on disk: the encoding of a struct dinode, iupdate, and writei as a whole, which also
    maintains the size of the file and its copy on disk. *)

From stdpp Require Import base list gmap sets fin_sets strings numbers.
From Stdlib Require Import ZArith Lia.
From S2P Require Import Prelude Bytes Kstate Cons Sched Bio Bcache Log Commit Inode Fsblock Console.
From S2P Require Import Fsdata Fsfile.
Open Scope Z_scope.

(** ** struct dinode *)

(** The fields fit the types they have on disk. *)
Definition is_s16 (x : Z) : Prop := -32768 <= x < 32768.
Record inode_fits (ip : inode) : Prop := {
  if_type : is_s16 (i_type ip);
  if_major : is_s16 (i_major ip);
  if_minor : is_s16 (i_minor ip);
  if_nlink : is_s16 (i_nlink ip);
  if_size : is_u32 (i_size ip);
  if_len : length (i_addrs ip) = 13%nat;
  if_addrs : Forall is_u32 (i_addrs ip)
}.

Lemma s16_id x : is_s16 x -> s16 (x mod 65536) = x.
Proof. unfold is_s16, s16. intros H. rewrite Z.mod_mod by lia. destruct (Z.ltb_spec (x mod 65536) 32768); div_lia. Qed.

Lemma slice_splice_in off k n bs d :
  (off + length bs <= length d)%nat -> (k + n <= length bs)%nat ->
  slice (off + k) n (splice off bs d) = slice k n bs.
Proof.
  intros H1 H2. apply list_eq. intros j. rewrite !lookup_slice. case_decide; [|done].
  rewrite lookup_splice by done. rewrite decide_True by lia. f_equal. lia.
Qed.

Lemma length_encode_dinode ip : length (i_addrs ip) = 13%nat -> length (encode_dinode ip) = 64%nat.
Proof.
  unfold encode_dinode. generalize (i_addrs ip). intros l H.
  do 13 (destruct l as [|? l]; [done|]). now destruct l.
Qed.

(** ilock reads back what iupdate wrote. *)
Lemma decode_encode_dinode ip ip0 off d :
  inode_fits ip -> (off + 64 <= length d)%nat ->
  decode_dinode (splice off (encode_dinode ip) d) off ip0 =
    ip0 <| i_type := i_type ip |> <| i_major := i_major ip |> <| i_minor := i_minor ip |>
        <| i_nlink := i_nlink ip |> <| i_size := i_size ip |> <| i_addrs := i_addrs ip |>.
Proof.
  intros [F1 F2 F3 F4 F5 F6 F7] Hd. pose proof (length_encode_dinode ip F6) as Hl.
  assert (forall k n, (k + n <= 64)%nat ->
            slice (off + k) n (splice off (encode_dinode ip) d) = slice k n (encode_dinode ip)) as Hsl.
  { intros k n Hk. apply slice_splice_in; lia. }
  pose proof (Hsl 0%nat 2%nat ltac:(lia)) as H0. rewrite Nat.add_0_r in H0.
  unfold decode_dinode, rd16, rd32. rewrite H0, !Hsl by lia.
  change (seq 0 (Z.to_nat (NDIRECT + 1))) with (seq 0 13).
  assert (((fun k => le_val (slice (off + 12 + 4 * k) 4 (splice off (encode_dinode ip) d))) <$> seq 0 13) =
          i_addrs ip) as ->.
  { transitivity ((fun k => le_val (slice (12 + 4 * k) 4 (encode_dinode ip))) <$> seq 0 13).
    { apply list_fmap_ext. intros j k Hk%lookup_seq. rewrite <- Nat.add_assoc, Hsl by lia. done. }
    unfold encode_dinode. revert F6 F7. clear. generalize (i_addrs ip). intros l Hl Hf.
    do 13 (destruct l as [|? l]; [done|]). destruct l; [|done].
    assert (forall x, is_u32 x -> le_val (le_bytes 4 x) = x) as E.
    { intros x Hx. rewrite le_val_le_bytes. now apply Z.mod_small. }
    repeat match goal with H : Forall _ (_ :: _) |- _ => apply list.Forall_cons in H as [? H] end.
    change (seq 0 13) with [0; 1; 2; 3; 4; 5; 6; 7; 8; 9; 10; 11; 12]%nat. cbn [fmap list_fmap].
    repeat (apply f_equal2; [match goal with H : is_u32 ?x |- _ = ?x => exact (E x H) end|]). done. }
  change (slice 0 2 (encode_dinode ip)) with (le_bytes 2 (i_type ip)).
  change (slice 2 2 (encode_dinode ip)) with (le_bytes 2 (i_major ip)).
  change (slice 4 2 (encode_dinode ip)) with (le_bytes 2 (i_minor ip)).
  change (slice 6 2 (encode_dinode ip)) with (le_bytes 2 (i_nlink ip)).
  change (slice 8 4 (encode_dinode ip)) with (le_bytes 4 (i_size ip)).
  rewrite !le_val_le_bytes. change (256 ^ Z.of_nat 2) with 65536.
  rewrite !s16_id by done. now rewrite (Z.mod_small (i_size ip)).
Qed.

(** ** iupdate *)

Lemma dinode_off_bound inum : (dinode_off inum + 64 <= 512)%nat.
Proof. unfold dinode_off. change IPB with 8. pose proof (Z.mod_pos_bound inum 8 ltac:(done)). lia. Qed.

Section layout.
Context (sb : superblock) (start : Z).
Hypothesis Hlay : layout sb start.

(** The inode block of a valid inode number lies between the log and the free map. *)
Lemma iblock_range inum : 0 <= inum < sb_ninodes sb ->
  IBLOCK inum sb = inum / IPB + sb_inodestart sb /\
  sb_inodestart sb <= IBLOCK inum sb < sb_bmapstart sb.
Proof.
  intros H. destruct (layout_bounds _ _ Hlay) as (H1 & H2 & H3 & _). pose proof (lay_ino _ _ Hlay) as [_ H4].
  change IPB with 8 in *. unfold IBLOCK. change IPB with 8.
  assert (0 <= inum / 8 <= sb_ninodes sb / 8) by (split; [apply Z.div_pos|apply Z.div_le_mono]; lia).
  rewrite u32_small by lia. lia.
Qed.

Lemma iblock_used D inum : meta_used sb D -> 0 <= inum < sb_ninodes sb -> used sb D (IBLOCK inum sb).
Proof.
  intros Hm Hi. destruct (iblock_range inum Hi). destruct (layout_bounds _ _ Hlay). apply Hm. lia.
Qed.
End layout.

(** The inode agrees with its copy on disk. *)
Definition synced (sb : superblock) (D : Z -> list Z) (ip : inode) : Prop :=
  decode_dinode (D (IBLOCK (i_inum ip) sb)) (dinode_off (i_inum ip)) ip = ip.

Definition put_inode (sb : superblock) (D : Z -> list Z) (ip : inode) : Z -> list Z :=
  dupd D (IBLOCK (i_inum ip) sb)
    (splice (dinode_off (i_inum ip)) (encode_dinode ip) (D (IBLOCK (i_inum ip) sb))).

Lemma put_inode_synced sb D ip :
  (forall k, length (D k) = 512%nat) -> inode_fits ip -> synced sb (put_inode sb D ip) ip.
Proof.
  intros Hd Hf. unfold synced, put_inode. rewrite dupd_eq, decode_encode_dinode; [now destruct ip|done|].
  rewrite Hd. apply dinode_off_bound.
Qed.

(** The other inodes of the block stay. *)
Lemma put_inode_other sb D ip j : (forall k, length (D k) = 512%nat) -> length (i_addrs ip) = 13%nat -> dinode_off j <> dinode_off (i_inum ip) ->
  slice (dinode_off j) 64 (put_inode sb D ip (IBLOCK (i_inum ip) sb)) = slice (dinode_off j) 64 (D (IBLOCK (i_inum ip) sb)).
Proof.
  intros Hlen Hl Hj. unfold put_inode. rewrite dupd_eq. pose proof (length_encode_dinode ip Hl) as Hle.
  pose proof (dinode_off_bound j). pose proof (dinode_off_bound (i_inum ip)). apply slice_splice_other; rewrite Hle; [rewrite Hlen; done|].
  unfold dinode_off in *. change IPB with 8 in *.
  pose proof (Z.mod_pos_bound j 8 ltac:(done)). pose proof (Z.mod_pos_bound (i_inum ip) 8 ltac:(done)). lia.
Qed.

Section iupdate.
Context (s0 : kstate) (me : nat) (p : proc) (start : Z).
Hypothesis Henv : kenv s0 me p.
Abbreviation sb := (k_sb s0).
Hypothesis Hlay : layout sb start.

Lemma wp_iupdate s l ic v bl i ip (Q : unit -> kstate -> Prop) :
  fss s0 s l ic v -> txl start l v bl -> ic !! i = Some ip -> i_dev ip = 1 -> length (i_addrs ip) = 13%nat ->
  0 <= i_inum ip < sb_ninodes sb -> v_held v = ∅ -> (length bl < 29)%nat ->
  (forall s' l' v', fss s0 s' l' ic v' -> v_held v' = ∅ -> v_data v' = put_inode sb (v_data v) ip ->
     txl start l' v' (bl_add bl (IBLOCK (i_inum ip) sb)) -> Q tt s') ->
  wp (iupdate i) Q s.
Proof using Henv Hlay.
  intros Hs Ht Hi Hdev Hla Hin Hh Hlen HQ. destruct (iblock_range _ _ Hlay _ Hin) as [_ Hr].
  destruct (layout_bounds _ _ Hlay) as (H1 & H2 & H3 & _). set (b := IBLOCK (i_inum ip) sb) in *.
  assert (v_held v !! b = None) as Hhb by (rewrite Hh; apply lookup_empty).
  unfold iupdate. wp_steps. apply (fss_inode_at s0 s l ic v i ip); auto. wp_steps.
  rewrite (fss_sb s0 _ _ _ _ Hs), Hdev. fold b.
  apply (fss_bread s0 me p Henv s l ic v Hs); [unfold FSSIZE; lia|done| |].
  { apply (room_available start l v bl); [done|]. unfold room. rewrite Hh, map_size_empty. lia. }
  intros j s1 Hs1. wp_steps. eapply (fss_bdata s0 s1 _ _ _ Hs1); [apply lookup_insert_eq|].
  change (v_data (v_hold b j (p_pid p) v) b) with (v_data v b).
  apply (fss_put s0 me p start Henv s1 l ic v b j _ bl); auto; [now apply (fss_unmodified s0 s l ic v)| |].
  { rewrite length_splice; [apply (bi_len _ _ _ (fs_inv _ _ _ _ _ Hs))|].
    rewrite length_encode_dinode, (bi_len _ _ _ (fs_inv _ _ _ _ _ Hs)) by done. apply dinode_off_bound. }
  intros s' l' Hs' Ht'. apply (HQ s' l' _ Hs'); auto.
Qed.
End iupdate.

(** ** writei *)

(** A regular file or directory, in memory and on disk. *)
Record file_inv (sb : superblock) (D : Z -> list Z) (ip : inode) : Prop := {
  fv_ok : file_ok sb D ip;
  fv_holes : no_holes D ip;
  fv_synced : synced sb D ip;
  fv_fits : inode_fits ip;
  fv_inum : 0 <= i_inum ip < sb_ninodes sb;
  fv_type : i_type ip <> T_DEV
}.

(** The file [ip] after the bytes [bs] were written at [off]. *)
Record written (sb : superblock) (D : Z -> list Z) (ip : inode) (off : Z) (bs : list Z)
    (D' : Z -> list Z) (ip' : inode) : Prop := {
  wn_inv : file_inv sb D' ip';
  wn_meta : meta_used sb D';
  wn_size : i_size ip' = Z.max (i_size ip) (off + Z.of_nat (length bs));
  wn_rest : ip' = ip <| i_size := i_size ip' |> <| i_addrs := i_addrs ip' |>;
  wn_byte : forall y, 0 <= y < MAXFILE * BSIZE -> fbyte D' ip' y =
    if bool_decide (off <= y < off + Z.of_nat (length bs)) then default 0 (bs !! Z.to_nat (y - off))
    else fbyte D ip y;
  wn_used : forall k, 0 <= k < FSSIZE -> used sb D k -> used sb D' k;
  wn_frame : forall k, sb_inodestart sb <= k < FSSIZE -> used sb D k -> k <> sb_bmapstart sb ->
    k <> IBLOCK (i_inum ip) sb -> ~ owned D ip k -> D' k = D k;
  wn_inodes : forall j, dinode_off j <> dinode_off (i_inum ip) ->
    slice (dinode_off j) 64 (D' (IBLOCK (i_inum ip) sb)) = slice (dinode_off j) 64 (D (IBLOCK (i_inum ip) sb));
  wn_own : forall k, used sb D k -> owned D' ip' k -> owned D ip k;
  wn_cap : capacity sb D ip <= capacity sb D' ip'
}.

(** ** What a file depends on: the blocks after the log *)

Section agree.
Context (sb : superblock) (start : Z).
Hypothesis Hlay : layout sb start.
Context (D D' : Z -> list Z).
Hypothesis Hag : forall k, sb_inodestart sb <= k -> D' k = D k.

Lemma agree_used k : used sb D' k <-> used sb D k.
Proof. destruct (layout_bounds _ _ Hlay) as (H1 & H2 & _). unfold used. now rewrite Hag by lia. Qed.

Lemma agree_meta : meta_used sb D -> meta_used sb D'.
Proof. intros H k Hk. rewrite agree_used. auto. Qed.

Lemma agree_data b : data_block sb b -> D' b = D b.
Proof. destruct (layout_bounds _ _ Hlay) as (H1 & H2 & _). unfold data_block. intros H. apply Hag. lia. Qed.

Section file.
Context (ip : inode).
Hypothesis Hok : file_ok sb D ip.

Lemma agree_slot bn : slot D' ip bn = slot D ip bn.
Proof.
  unfold slot. destruct (bn <? NDIRECT); [done|]. destruct (Z.eqb_spec (ind ip) 0) as [|Hi]; [done|].
  destruct (fo_ind _ _ _ Hok Hi) as [Hd _]. now rewrite agree_data.
Qed.

Lemma agree_fbyte y : 0 <= y < MAXFILE * BSIZE -> fbyte D' ip y = fbyte D ip y.
Proof.
  change (MAXFILE * BSIZE) with 71680. intros Hy. unfold fbyte, fblk. rewrite agree_slot.
  destruct (Z.eqb_spec (slot D ip (y / BSIZE)) 0) as [|Hs]; [done|].
  destruct (fo_slot _ _ _ Hok (y / BSIZE)) as [Hd _]; [|done|now rewrite agree_data].
  unfold in_file, BSIZE. change MAXFILE with 140. div_lia.
Qed.

Lemma agree_file_ok : file_ok sb D' ip.
Proof.
  constructor; try apply Hok.
  - rewrite agree_used. apply Hok.
  - intros bn Hbn. rewrite agree_slot, agree_used. now apply (fo_slot _ _ _ Hok).
  - intros a b Ha Hb. rewrite !agree_slot. now apply (fo_inj _ _ _ Hok).
Qed.

Lemma agree_owned k : owned D' ip k <-> owned D ip k.
Proof. unfold owned. do 2 f_equiv. apply exist_proper. intros bn. now rewrite agree_slot. Qed.

Lemma agree_capacity : capacity sb D' ip = capacity sb D ip.
Proof.
  destruct (layout_bounds _ _ Hlay) as (H1 & H2 & _). unfold capacity, avail_blocks.
  rewrite (nfree_same sb D D'); [done|]. apply Hag. lia.
Qed.
End file.

Lemma agree_file_inv ip : file_inv sb D ip -> file_inv sb D' ip.
Proof.
  intros [Hok [Hs1 Hs2] Hsy Hfit Hin Hty]. constructor; auto.
  - now apply agree_file_ok.
  - split; [done|]. intros bn B1 B2. rewrite agree_slot by done. auto.
  - destruct (iblock_range _ _ Hlay _ Hin) as [_ Hr]. unfold synced. now rewrite Hag by lia.
Qed.
End agree.

Lemma written_agree sb start D0 D ip off bs D1 D2 ip1 :
  layout sb start -> (forall k, sb_inodestart sb <= k -> D k = D0 k) ->
  (forall k, sb_inodestart sb <= k -> D2 k = D1 k) -> file_inv sb D0 ip ->
  written sb D ip off bs D1 ip1 -> written sb D0 ip off bs D2 ip1.
Proof.
  intros Hl A0 A1 Hinv [W1 W2 W3 W4 W5 W6 W7 W8 W9 W10]. pose proof (fv_ok _ _ _ Hinv) as Hok.
  destruct (iblock_range _ _ Hl _ (fv_inum _ _ _ Hinv)) as [_ Hr].
  constructor; auto.
  - now apply (agree_file_inv sb start Hl D1 D2).
  - now apply (agree_meta sb start Hl D1 D2).
  - intros y Hy. rewrite (agree_fbyte sb start Hl D1 D2) by (auto; apply W1).
    rewrite W5, (agree_fbyte sb start Hl D0 D) by auto. done.
  - intros k K1 K2. apply (agree_used sb start Hl D1 D2); auto. apply W6; auto.
    now apply (agree_used sb start Hl D0 D).
  - intros k K1 K2 K3 K4 K5. rewrite A1, W7, A0; auto; try lia.
    + now apply (agree_used sb start Hl D0 D).
    + now rewrite (agree_owned sb start Hl D0 D) by auto.
  - intros j Hj. rewrite A1, W8, A0 by (auto; lia). done.
  - intros k K1 K2. apply (agree_owned sb start Hl D0 D); auto. apply W9.
    + now apply (agree_used sb start Hl D0 D).
    + apply (agree_owned sb start Hl D1 D2); auto. apply W1.
  - rewrite (agree_capacity sb start Hl D1 D2), <- (agree_capacity sb start Hl D0 D) by auto. done.
Qed.

(** Two writes one after the other. *)
Lemma written_app sb start D ip off bs1 D1 ip1 bs2 D2 ip2 :
  layout sb start -> 0 <= off ->
  written sb D ip off bs1 D1 ip1 -> written sb D1 ip1 (off + Z.of_nat (length bs1)) bs2 D2 ip2 ->
  written sb D ip off (bs1 ++ bs2) D2 ip2.
Proof.
  intros Hl Ho [A1 A2 A3 A4 A5 A6 A7 A8 A9 A10] [B1 B2 B3 B4 B5 B6 B7 B8 B9 B10].
  assert (i_inum ip1 = i_inum ip) as En by (rewrite A4; done). rewrite En in *.
  destruct (layout_bounds _ _ Hl) as (L1 & _). constructor; auto.
  - rewrite length_app. lia.
  - rewrite B4, A4. done.
  - intros y Hy. rewrite B5, A5, length_app by done. repeat case_bool_decide; try lia; f_equal.
    + rewrite lookup_app_r by lia. f_equal. lia.
    + now rewrite lookup_app_l by lia.
  - intros k K1 K2 K3 K4 K5. rewrite B7, A7; auto. apply A6; [lia|done].
  - intros j Hj. now rewrite B8, A8.
  - intros k K1 K2. apply A9; [done|]. apply B9; [|done].
    destruct (decide (0 <= k < FSSIZE)) as [Hk|Hk]; [now apply A6|]. exfalso. apply Hk.
    destruct K2 as [H0 [->|(bn & Hbn & <-)]].
    + destruct (fo_ind _ _ _ (fv_ok _ _ _ B1) H0) as [Hd _]. apply (data_range _ _ Hl) in Hd. lia.
    + destruct (fo_slot _ _ _ (fv_ok _ _ _ B1) bn Hbn H0) as [Hd _]. apply (data_range _ _ Hl) in Hd. lia.
  - lia.
Qed.

Section meta.
Context (sb : superblock) (start : Z).
Hypothesis Hlay : layout sb start.

Lemma file_ok_addrs D ip : file_ok sb D ip -> Forall is_u32 (i_addrs ip).
Proof.
  intros H. apply list.Forall_forall. intros a (j & Hj)%list_elem_of_lookup.
  pose proof (lookup_lt_Some _ _ _ Hj) as Hlt. rewrite (fo_len _ _ _ H) in Hlt.
  destruct (decide (a = 0)) as [->|Ha]; [unfold is_u32; lia|].
  assert (data_block sb a) as Hd.
  { destruct (decide (j = 12%nat)) as [->|].
    - assert (ind ip = a) as E by (unfold ind; now rewrite Hj). rewrite <- E in *. now apply (fo_ind _ _ _ H).
    - assert (slot D ip (Z.of_nat j) = a) as E.
      { unfold slot. destruct (Z.ltb_spec (Z.of_nat j) NDIRECT) as [_|Hge]; [|unfold NDIRECT in Hge; lia].
        now rewrite Nat2Z.id, Hj. }
      rewrite <- E in *. apply (fo_slot _ _ _ H); [|done]. split; [lia|change MAXFILE with 140; lia]. }
  apply (data_range _ _ Hlay) in Hd. unfold is_u32, FSSIZE in *. lia.
Qed.

(** Changing an inode block and the size leaves the blocks of the file alone. *)
Section meta_put.
Context (D : Z -> list Z) (ip ip' : inode) (k : Z) (x : list Z).
Hypothesis Hok : file_ok sb D ip.
Hypothesis Hip : i_addrs ip' = i_addrs ip /\ i_dev ip' = i_dev ip.
Hypothesis Hk : k < sb_bmapstart sb.

Lemma meta_slot bn : slot (dupd D k x) ip' bn = slot D ip bn.
Proof using Hok Hip Hk Hlay.
  unfold slot, ind. rewrite (proj1 Hip). fold (ind ip). destruct (bn <? NDIRECT); [done|].
  destruct (Z.eqb_spec (ind ip) 0) as [|Hi]; [done|]. destruct (fo_ind _ _ _ Hok Hi) as [Hd _].
  unfold data_block in Hd. now rewrite dupd_ne by lia.
Qed.

Lemma meta_put_used j : used sb (dupd D k x) j <-> used sb D j.
Proof using Hk. unfold used. now rewrite dupd_ne by lia. Qed.

Lemma meta_fbyte y : 0 <= y < MAXFILE * BSIZE -> fbyte (dupd D k x) ip' y = fbyte D ip y.
Proof using Hok Hip Hk Hlay.
  change (MAXFILE * BSIZE) with 71680. intros Hy. unfold fbyte, fblk. rewrite meta_slot.
  destruct (Z.eqb_spec (slot D ip (y / BSIZE)) 0) as [|Hs]; [done|].
  destruct (fo_slot _ _ _ Hok (y / BSIZE)) as [Hd _]; [|done|].
  - unfold in_file, BSIZE. change MAXFILE with 140. div_lia.
  - unfold data_block in Hd. now rewrite dupd_ne by lia.
Qed.

Lemma meta_file_ok : file_ok sb (dupd D k x) ip'.
Proof using Hok Hip Hk Hlay.
  assert (ind ip' = ind ip) as Ei by (unfold ind; now rewrite (proj1 Hip)).
  destruct Hip as [Ha Hd]. constructor.
  - rewrite Hd. apply Hok.
  - rewrite Ha. apply Hok.
  - rewrite Ei, meta_put_used. apply Hok.
  - intros bn Hbn. rewrite meta_slot, meta_put_used, Ei. now apply (fo_slot _ _ _ Hok).
  - intros a b H1 H2. rewrite !meta_slot. now apply (fo_inj _ _ _ Hok).
Qed.
End meta_put.
End meta.

Section written.
Context (s0 : kstate) (start : Z).
Abbreviation sb := (k_sb s0).
Hypothesis Hlay : layout sb start.
Context (D : Z -> list Z) (ip : inode) (off : Z) (bs : list Z) (D1 : Z -> list Z) (ip1 : inode).
Hypothesis Hinv : file_inv sb D ip.
Hypothesis Hmeta : meta_used sb D.
Hypothesis Hlen : forall k, length (D1 k) = 512%nat.
Hypothesis Hoff : 0 <= off <= i_size ip.
Hypothesis Hmax : off + Z.of_nat (length bs) <= MAXFILE * BSIZE.
Hypothesis Hbs : bs <> [].
Hypothesis Hw : wrote s0 D ip off bs D1 ip1.
(** The blocks up to [e1] are there. *)
Context (e1 : Z).
Hypothesis He1 : e1 <= Z.max ((i_size ip + BSIZE - 1) / BSIZE) ((off + Z.of_nat (length bs) + BSIZE - 1) / BSIZE).
Hypothesis Hcap : (i_size ip + BSIZE - 1) / BSIZE + avail_blocks sb D ip <= e1 + avail_blocks sb D1 ip1.
Abbreviation iblk := (IBLOCK (i_inum ip) sb).

Lemma iblk_meta : 32 <= iblk < sb_bmapstart sb /\ used sb D iblk /\ ~ owned D ip iblk.
Proof.
  destruct Hinv as [Hok _ _ _ Hin _]. destruct (layout_bounds _ _ Hlay) as (H1 & H2 & H3 & _).
  destruct (iblock_range _ _ Hlay _ Hin) as [_ Hr]. split; [lia|]. split; [now apply (iblock_used _ _ Hlay)|].
  intros [H0 [E|(bn & Hbn & E)]].
  - destruct (fo_ind _ _ _ Hok ltac:(lia)) as [Hd _]. unfold data_block in Hd. lia.
  - destruct (fo_slot _ _ _ Hok bn Hbn ltac:(lia)) as [Hd _]. unfold data_block in Hd. lia.
Qed.

(** The write stays inside the file. *)
Lemma written_inside : off + Z.of_nat (length bs) <= i_size ip -> written sb D ip off bs D1 ip1.
Proof.
  intros Hsz. destruct Hinv as [Hok [Hs1 Hs2] Hsy Hfit Hin Hty]. destruct Hw as [E Hb Hsl Hsame].
  destruct iblk_meta as (Hi1 & Hi2 & Hi3). destruct (layout_bounds _ _ Hlay) as (H1 & H2 & H3 & _).
  assert (ip1 = ip) as E1.
  { apply Hsame. intros bn B1 B2. apply Hs2; [|lia]. pose proof (Z.div_pos off BSIZE ltac:(lia) ltac:(done)). lia. }
  subst ip1. assert (D1 iblk = D iblk) as Eb.
  { apply (ev_frame _ _ _ _ _ E); [unfold FSSIZE; lia|done|lia|done]. }
  constructor.
  - constructor; try done; [apply E| |unfold synced; now rewrite Eb]. split; [done|]. intros bn B1 B2.
    change (MAXFILE * BSIZE) with 71680 in Hs1. unfold BSIZE in B2.
    rewrite (ev_slot _ _ _ _ _ E); [now apply Hs2|split; change MAXFILE with 140; lia|now apply Hs2].
  - apply E.
  - lia.
  - now destruct ip.
  - exact Hb.
  - apply E.
  - intros k K1 K2 K3 K4 K5. apply (ev_frame _ _ _ _ _ E); auto. lia.
  - intros j _. now rewrite Eb.
  - intros k. apply (evo_owned _ _ _ _ _ _ E).
  - unfold capacity. assert ((off + Z.of_nat (length bs) + BSIZE - 1) / BSIZE <= (i_size ip + BSIZE - 1) / BSIZE)
      by (apply Z.div_le_mono; [done|lia]). lia.
Qed.

(** The write extends the file: the new size and blocks go to the inode's copy on disk. *)
Abbreviation ip2 := (ip1 <| i_size := off + Z.of_nat (length bs) |>).
Abbreviation D2 := (put_inode sb D1 ip2).

Lemma written_inum : i_inum ip2 = i_inum ip /\ i_dev ip1 = i_dev ip /\ i_type ip1 = i_type ip /\
  i_major ip1 = i_major ip /\ i_minor ip1 = i_minor ip /\ i_nlink ip1 = i_nlink ip /\ i_size ip1 = i_size ip.
Proof. rewrite (ev_inode _ _ _ _ _ (wr_evo _ _ _ _ _ _ _ Hw)). repeat split. Qed.

Lemma written_holes : i_size ip < off + Z.of_nat (length bs) -> no_holes D2 ip2.
Proof.
  intros Hsz. destruct written_inum as (En & Ed & _). destruct iblk_meta as (Hi1 & _).
  destruct Hinv as [Hok [Hs1 Hs2] _ _ _ _]. destruct Hw as [E Hb Hsl Hsame].
  split; [exact Hmax|]. intros bn B1 B2. simpl i_size in B2. unfold put_inode. rewrite En.
  rewrite (meta_slot _ _ Hlay D1 ip1); [|apply E|done|lia].
  change (MAXFILE * BSIZE) with 71680 in *. unfold BSIZE in *.
  assert (in_file bn) as Hbn by (split; change MAXFILE with 140; lia).
  destruct (decide (bn * 512 < i_size ip)) as [H'|H'].
  - rewrite (ev_slot _ _ _ _ _ E); [now apply Hs2|done|now apply Hs2].
  - apply Hsl; [done| |lia]. apply Z.div_le_upper_bound; lia.
Qed.

Lemma written_fits : inode_fits ip2.
Proof.
  destruct written_inum as (_ & _ & E1 & E2 & E3 & E4 & _). destruct Hinv as [_ _ _ [F1 F2 F3 F4 F5 F6 F7] _ _].
  pose proof (ev_ok _ _ _ _ _ (wr_evo _ _ _ _ _ _ _ Hw)) as Hok1.
  constructor; simpl; rewrite ?E1, ?E2, ?E3, ?E4; try done.
  - change (MAXFILE * BSIZE) with 71680 in Hmax. unfold is_u32. lia.
  - apply Hok1.
  - apply (file_ok_addrs sb start Hlay D1 ip1 Hok1).
Qed.

Lemma written_beyond : i_size ip < off + Z.of_nat (length bs) -> written sb D ip off bs D2 ip2.
Proof.
  intros Hsz. destruct written_inum as (En & Ed & Et & _). destruct iblk_meta as (Hi1 & Hi2 & Hi3).
  pose proof Hinv as [Hok [Hs1 Hs2] Hsy Hfit Hin Hty]. pose proof Hw as [E Hb Hsl Hsame].
  destruct (layout_bounds _ _ Hlay) as (H1 & H2 & H3 & _).
  assert (D1 iblk = D iblk) as Eb.
  { apply (ev_frame _ _ _ _ _ E); [unfold FSSIZE; lia|done|lia|done]. }
  assert (iblk < sb_bmapstart sb) as Hlt by lia.
  constructor.
  - constructor; [|now apply written_holes|apply put_inode_synced; [done|apply written_fits]|apply written_fits|now rewrite En|now rewrite <- Et in Hty].
    unfold put_inode. rewrite En. now apply (meta_file_ok _ _ Hlay D1 ip1); [apply E| |].
  - intros k Hk. unfold put_inode. rewrite En, meta_put_used by done. now apply (ev_meta _ _ _ _ _ E).
  - simpl. lia.
  - rewrite (ev_inode _ _ _ _ _ E) at 1. now destruct ip.
  - intros y Hy. unfold put_inode. rewrite En, (meta_fbyte _ _ Hlay D1 ip1); auto. apply E.
  - intros k K1 K2. unfold put_inode. rewrite En, meta_put_used by done. now apply (ev_used _ _ _ _ _ E).
  - intros k K1 K2 K3 K4 K5. unfold put_inode. rewrite En, dupd_ne by done. apply (ev_frame _ _ _ _ _ E); auto. lia.
  - intros j Hj. rewrite <- Eb. unfold iblk. rewrite <- En in *. apply put_inode_other; [done|apply (fo_len sb D1 ip1), E|done].
  - intros k Hu Ho. apply (evo_owned _ _ _ _ _ _ E Hu). destruct Ho as [H0 Ho]. split; [done|].
    destruct Ho as [->|(bn & Hbn & <-)]; [now left|right]. exists bn. split; [done|]. symmetry.
    unfold put_inode. rewrite En. now apply (meta_slot _ _ Hlay D1 ip1); [apply E| |].
  - unfold capacity, avail_blocks in *. simpl i_size. change (ind ip2) with (ind ip1).
    rewrite (nfree_same sb D1 D2) by (unfold put_inode; rewrite En; apply dupd_ne; lia).
    assert ((i_size ip + BSIZE - 1) / BSIZE <= (off + Z.of_nat (length bs) + BSIZE - 1) / BSIZE)
      by (apply Z.div_le_mono; [done|lia]). lia.
Qed.
End written.

Section writei.
Context (s0 : kstate) (me : nat) (p : proc) (start : Z).
Hypothesis Henv : kenv s0 me p.
Abbreviation sb := (k_sb s0).
Hypothesis Hlay : layout sb start.

(** The number of blocks the [n] bytes from [off] on lie in. *)
Definition nblocks (off n : Z) : Z := (off + n + BSIZE - 1) / BSIZE - off / BSIZE.

(** writei logs the blocks it writes, the free map, the indirect block and the inode block. *)
Definition op_blocks (bl bl' : list Z) (n : Z) : Prop :=
  bl' <> [] /\ (length bl' <= length bl + 3 + Z.to_nat n)%nat /\
  forall x, x ∈ bl' -> x ∈ bl \/ sb_inodestart sb <= x.

Lemma wp_writei s l ic v bl i ip src off n (Q : Z -> kstate -> Prop) :
  fss s0 s l ic v -> txl start l v bl -> ic !! i = Some ip -> v_held v = ∅ ->
  file_inv sb (v_data v) ip -> meta_used sb (v_data v) ->
  0 <= off <= i_size ip -> 0 < n -> off + n <= MAXFILE * BSIZE -> n = Z.of_nat (length src) ->
  off + n <= capacity sb (v_data v) ip * BSIZE -> Z.of_nat (length bl) + nblocks off n <= 24 ->
  (forall s' l' v' ip' bl', fss s0 s' l' (<[i := ip']> ic) v' -> txl start l' v' bl' -> v_held v' = ∅ ->
     written sb (v_data v) ip off src (v_data v') ip' -> op_blocks bl bl' (nblocks off n) -> Q n s') ->
  wp (writei i src off n) Q s.
Proof using Henv Hlay.
  intros Hs Ht Hi Hh Hinv Hmeta Hoff Hn Hmax Hsrc Hav Hbud HQ. pose proof Hinv as [Hok Hho Hsy Hfit Hin Hty].
  unfold nblocks in *. set (lo := off / BSIZE) in *. set (hi := (off + n + BSIZE - 1) / BSIZE) in *.
  change (MAXFILE * BSIZE) with 71680 in *.
  assert (0 <= lo /\ lo * 512 <= off /\ off + n <= hi * 512 /\ lo <= hi <= 140 /\ off < (lo + 1) * 512) as (L1 & L2 & L3 & L4 & L5)
    by (unfold lo, hi, BSIZE; div_lia).
  assert (i < length ic)%nat as Hil by (now apply lookup_lt_Some in Hi).
  unfold writei. wp_steps. apply (fss_inode_at s0 s l ic v i ip); auto.
  apply wp_if_false; [lia|]. rewrite u32_small by lia. apply wp_if_false; [lia|].
  apply wp_if_false; [change (MAXFILE * BSIZE) with 71680; lia|]. wp_steps.
  set (e := (i_size ip + BSIZE - 1) / BSIZE) in *.
  assert (i_size ip <= e * 512 /\ (e - 1) * 512 < i_size ip \/ i_size ip = 0 /\ e = 0) as He by (unfold e, BSIZE; div_lia).
  pose proof Hho as [Hz1 Hz2]. change (MAXFILE * BSIZE) with 71680 in Hz1.
  apply (wp_writei_loop s0 me p start Henv Hlay i bl lo hi ic Hil ltac:(lia) ltac:(lia) (Z.to_nat n) s v ip bl src off n e);
    auto; try lia; try (unfold BSIZE; lia); try (change MAXFILE with 140; unfold BSIZE; lia).
  { constructor; auto; [|intros x Hx; now left]. exists l. now rewrite list_insert_id. }
  { intros bn Hbn. apply Hz2; [lia|unfold BSIZE; lia]. }
  intros s1 v1 ip1 bl1 e1 Hf1 Hw He1 Hcap Hbne. replace (Z.to_nat n) with (length src) in Hw by lia. rewrite firstn_all in Hw.
  assert (src <> []) as Hne by (intros ->; simpl in *; lia).
  pose proof (ftx_len s0 start i bl lo hi ic ltac:(lia) ltac:(lia) _ _ _ _ Hf1) as Hl1.
  pose proof Hf1 as [(l1 & Hs1 & Ht1) Hh1 Hok1 Hm1 Hlog1].
  assert (forall k, length (v_data v1 k) = 512%nat) as H512 by apply (bi_len _ _ _ (fs_inv _ _ _ _ _ Hs1)).
  assert (<[i := ip1]> ic !! i = Some ip1) as Hi1 by (now apply list_lookup_insert_eq).
  destruct (written_inum s0 (v_data v) ip off src (v_data v1) ip1 Hw) as (En & Ed & Et & _ & _ & _ & Es).
  simpl i_inum in En. destruct (iblock_range _ _ Hlay _ Hin) as [_ Hr].
  pose proof (logged_length s0 i bl lo hi ic ltac:(lia) ltac:(lia) _ _ _ (tl_nodup _ _ _ _ Ht1) Hlog1) as Hll.
  assert (forall x, x ∈ bl1 -> x ∈ bl \/ sb_inodestart sb <= x) as Hlx.
  { destruct (layout_bounds _ _ Hlay) as (B1 & B2 & B3 & _).
    intros x Hx. destruct (Hlog1 x Hx) as [?|[->|[[-> H0]|(bn & _ & Hbn & <- & H0)]]]; [now left|right..].
    - lia.
    - destruct (fo_ind _ _ _ Hok1 H0) as [Hd _]. unfold data_block in Hd. lia.
    - destruct (fo_slot _ _ _ Hok1 bn Hbn H0) as [Hd _]. unfold data_block in Hd. lia. }
  wp_steps. eapply (fss_inode_at s0 s1 l1 _ v1 i ip1); [exact Hs1|done|]. wp_steps.
  apply wp_when; intros Hext.
  - assert (i_size ip < off + n) as Hlt by lia. wp_steps.
    eapply (fss_upd_inode s0 s1 _ _ _ i ip1); [exact Hs1|done|]. intros s2 Hs2.
    rewrite list_insert_insert_eq in Hs2. wp_steps.
    eapply (wp_iupdate s0 me p start Henv Hlay s2 l1 _ v1 bl1 i); [exact Hs2|exact Ht1|now apply list_lookup_insert_eq|apply Hok1|apply Hok1|simpl; now rewrite En|done|lia|].
    intros s3 l3 v3 Hs3 Hh3 Hd3 Ht3. wp_steps. subst n.
    apply (HQ s3 l3 v3 _ _ Hs3 Ht3 Hh3); rewrite ?Hd3.
    + now apply (written_beyond s0 start Hlay) with (e1 := e1).
    + simpl i_inum. rewrite En. split; [|split].
      * intros E. assert (IBLOCK (i_inum ip) sb ∈ bl_add bl1 (IBLOCK (i_inum ip) sb)) as Hb
          by (apply elem_of_bl_add; now right). rewrite E in Hb. now apply not_elem_of_nil in Hb.
      * unfold bl_add. case_decide; rewrite ?length_app; simpl; lia.
      * intros x [Hx| ->]%elem_of_bl_add; [auto|right; lia].
  - assert (off + Z.of_nat (length src) <= i_size ip) as Hle by lia. wp_steps.
    apply (HQ s1 l1 v1 ip1 bl1 Hs1 Ht1 Hh1); [subst n; now apply (written_inside s0 start Hlay) with (e1 := e1)|].
    split; [|split; [lia|done]]. intros E. destruct (Hbne E). lia.
Qed.
End writei.
