(* ===== verification/Pipe.v ===== *)
(** Pipes, pipe.c.

    nread and nwrite are 32-bit counters that wrap around; the ring has
    PIPESIZE bytes. The copy loops are functions of the pipe alone
    ([pipe_fill], [pipe_drain]); pipewrite and piperead run them under the
    pipe's lock. *)

From stdpp Require Import base list gmap strings numbers.
From Stdlib Require Import ZArith Lia.
From S2P Require Import Prelude Bytes Kstate Kalloc Sched.
Open Scope Z_scope.

Definition PIPESIZE : Z := 512.

Definition pipe_at (a : Z) : K pipe := s ← get; of_opt "struct pipe" (k_pipes s !! a).
Definition set_pipe (a : Z) (p : pipe) : K unit :=
  modify (fun s => s <| k_pipes := <[a := p]> (k_pipes s) |>).

Definition pipe_full (p : pipe) : bool := pi_nwrite p =? u32 (pi_nread p + PIPESIZE).
Definition pipe_empty (p : pipe) : bool := pi_nread p =? pi_nwrite p.

(** p->data[p->nwrite++ % PIPESIZE] = c *)
Definition pipe_put (p : pipe) (c : Z) : pipe :=
  p <| pi_data := <[Z.to_nat (pi_nwrite p mod PIPESIZE) := c]> (pi_data p) |>
    <| pi_nwrite := u32 (pi_nwrite p + 1) |>.

(** p->data[p->nread++ % PIPESIZE] *)
Definition pipe_get (p : pipe) : option (Z * pipe) :=
  c ← pi_data p !! Z.to_nat (pi_nread p mod PIPESIZE);
  Some (c, p <| pi_nread := u32 (pi_nread p + 1) |>).

(** The loop of pipewrite while there is room: the pipe and the bytes left. *)
Fixpoint pipe_fill (p : pipe) (bs : list Z) : pipe * list Z :=
  match bs with
  | [] => (p, [])
  | c :: bs' => if pipe_full p then (p, bs) else pipe_fill (pipe_put p c) bs'
  end.

(** The copy loop of piperead: at most [n] bytes. *)
Fixpoint pipe_drain (p : pipe) (n : nat) : option (pipe * list Z) :=
  match n with
  | O => Some (p, [])
  | S n' =>
    if pipe_empty p then Some (p, []) else
    '(c, p') ← pipe_get p;
    '(p'', cs) ← pipe_drain p' n';
    Some (p'', c :: cs)
  end.

Definition killed : K bool := me ← curproc; pr ← proc_at me; ret (negb (p_killed pr =? 0)).

(** pipewrite from the loop on, with the bytes [bs] still to write: a woken
    writer runs it again with the bytes that are left. *)
Definition pipewrite_from (a : Z) (n : Z) (bs : list Z) : K Z :=
  p ← pipe_at a;
  let '(p', rest) := pipe_fill p bs in
  set_pipe a p' ;;
  match rest with
  | [] => wakeup (ChPipeRead a) ;; release (LPipe a) ;; ret n
  | _ =>
    k ← killed;
    if (pi_readopen p' =? 0) || k then release (LPipe a) ;; ret (-1)
    else wakeup (ChPipeRead a) ;; sleep (ChPipeWrite a) (LPipe a)
  end.

Definition pipewrite (a : Z) (addr : list Z) (n : Z) : K Z :=
  acquire (LPipe a) ;;
  pipewrite_from a n (take (Z.to_nat n) addr).

(** piperead from the wait loop on. *)
Definition piperead_from (a : Z) (n : Z) : K (Z * list Z) :=
  p ← pipe_at a;
  if pipe_empty p && negb (pi_writeopen p =? 0) then
    k ← killed;
    if (k : bool) then release (LPipe a) ;; ret (-1, []) else sleep (ChPipeRead a) (LPipe a)
  else
  '(p', cs) ← of_opt "pipe data" (pipe_drain p (Z.to_nat n));
  set_pipe a p' ;;
  wakeup (ChPipeWrite a) ;;
  release (LPipe a) ;;
  ret (Z.of_nat (length cs), cs).

Definition piperead (a : Z) (n : Z) : K (Z * list Z) :=
  acquire (LPipe a) ;; piperead_from a n.

Definition pipeclose (a : Z) (writable : bool) : K unit :=
  acquire (LPipe a) ;;
  p ← pipe_at a;
  (if writable then
     set_pipe a (p <| pi_writeopen := 0 |>) ;; wakeup (ChPipeRead a)
   else
     set_pipe a (p <| pi_readopen := 0 |>) ;; wakeup (ChPipeWrite a)) ;;
  p ← pipe_at a;
  if (pi_readopen p =? 0) && (pi_writeopen p =? 0) then
    release (LPipe a) ;;
    modify (fun s => s <| k_pipes := delete a (k_pipes s) |>) ;;
    kfree a
  else release (LPipe a).

(** ** The ring as a queue *)

Definition pipe_ok (p : pipe) : Prop :=
  length (pi_data p) = 512%nat /\ is_u32 (pi_nread p) /\ is_u32 (pi_nwrite p) /\
  u32 (pi_nwrite p - pi_nread p) <= PIPESIZE.

(** The number of bytes written and not read, and those bytes, oldest first. *)
Definition pipe_count (p : pipe) : nat := Z.to_nat (u32 (pi_nwrite p - pi_nread p)).
Definition ring_at (p : pipe) (i : nat) : Z :=
  pi_data p !!! Z.to_nat ((pi_nread p + Z.of_nat i) mod PIPESIZE).
Definition pipe_queue (p : pipe) : list Z := ring_at p <$> seq 0 (pipe_count p).

Lemma length_pipe_queue p : length (pipe_queue p) = pipe_count p.
Proof. unfold pipe_queue. now rewrite length_fmap, length_seq. Qed.

Lemma pipe_count_le p : pipe_ok p -> (pipe_count p <= 512)%nat.
Proof. unfold pipe_ok, pipe_count, PIPESIZE. lia. Qed.

(** The counters wrap at a multiple of PIPESIZE. *)
Lemma u32_mod_pipesize x : u32 x mod PIPESIZE = x mod PIPESIZE.
Proof. unfold u32, PIPESIZE. div_lia. Qed.

Lemma pipe_count_Z p : Z.of_nat (pipe_count p) = u32 (pi_nwrite p - pi_nread p).
Proof. unfold pipe_count, u32. rewrite Z2Nat.id; [done|]. apply Z.mod_pos_bound. lia. Qed.

Lemma pipe_nwrite p :
  pipe_ok p -> pi_nwrite p = u32 (pi_nread p + Z.of_nat (pipe_count p)).
Proof.
  intros (_ & _ & Hw & _). rewrite pipe_count_Z, Z.add_comm, u32_add_l.
  rewrite Z.sub_add. symmetry. now apply u32_small.
Qed.

Lemma pipe_full_spec p : pipe_ok p -> pipe_full p = (pipe_count p =? 512)%nat.
Proof.
  intros Hok. unfold pipe_full. apply eq_true_iff_eq. rewrite Z.eqb_eq, Nat.eqb_eq.
  pose proof (pipe_count_le p Hok). split; intros H'.
  - apply Nat2Z.inj. rewrite pipe_count_Z, H', u32_sub_l. unfold PIPESIZE.
    replace (pi_nread p + 512 - pi_nread p) with 512 by lia. reflexivity.
  - rewrite pipe_nwrite, H' by done. reflexivity.
Qed.

Lemma pipe_empty_spec p : pipe_ok p -> pipe_empty p = (pipe_count p =? 0)%nat.
Proof.
  intros Hok. unfold pipe_empty. apply eq_true_iff_eq. rewrite Z.eqb_eq, Nat.eqb_eq.
  split; intros H'.
  - apply Nat2Z.inj. rewrite pipe_count_Z, H', Z.sub_diag. reflexivity.
  - rewrite (pipe_nwrite p), H', Z.add_0_r by done. destruct Hok as (_ & Hr & _).
    symmetry. now apply u32_small.
Qed.

Lemma ring_index_ne r i n : 0 <= i < n -> n < 512 -> (r + i) mod 512 <> (r + n) mod 512.
Proof. intros. div_lia. Qed.

Lemma pipe_put_ok p c :
  pipe_ok p -> pipe_full p = false ->
  pipe_ok (pipe_put p c) /\ pipe_queue (pipe_put p c) = pipe_queue p ++ [c].
Proof.
  intros Hok Hf. rewrite pipe_full_spec in Hf by done. apply Nat.eqb_neq in Hf.
  pose proof (pipe_count_le p Hok) as Hle. pose proof (pipe_nwrite p Hok) as Hw.
  assert (pipe_count (pipe_put p c) = S (pipe_count p)) as Hc.
  { apply Nat2Z.inj. rewrite pipe_count_Z. simpl. rewrite u32_sub_l, Hw.
    replace (u32 (pi_nread p + Z.of_nat (pipe_count p)) + 1 - pi_nread p)
      with (u32 (pi_nread p + Z.of_nat (pipe_count p)) - (pi_nread p - 1)) by lia.
    rewrite u32_sub_l, u32_small; lia. }
  split.
  { pose proof (pipe_count_Z (pipe_put p c)) as Hz. rewrite Hc in Hz.
    destruct Hok as (Hd & Hr & _). split; [simpl; now rewrite length_insert|].
    split; [done|]. split; [apply Z.mod_pos_bound; lia|]. rewrite <- Hz. unfold PIPESIZE. lia. }
  unfold pipe_queue. rewrite Hc, seq_S, fmap_app. f_equal.
  - apply list_fmap_ext. intros k i Hi. apply lookup_seq in Hi as [-> Hi]. unfold ring_at. simpl.
    apply list_lookup_total_insert_ne. rewrite Hw, u32_mod_pipesize. unfold PIPESIZE.
    pose proof (ring_index_ne (pi_nread p) (Z.of_nat k) (Z.of_nat (pipe_count p))).
    pose proof (Z.mod_pos_bound (pi_nread p + Z.of_nat k) 512).
    pose proof (Z.mod_pos_bound (pi_nread p + Z.of_nat (pipe_count p)) 512). lia.
  - simpl. f_equal. unfold ring_at. simpl. rewrite Hw, u32_mod_pipesize.
    apply list_lookup_total_insert_eq. destruct Hok as (-> & _).
    pose proof (Z.mod_pos_bound (pi_nread p + Z.of_nat (pipe_count p)) 512). unfold PIPESIZE. lia.
Qed.

Lemma pipe_get_ok p :
  pipe_ok p -> pipe_empty p = false ->
  exists c, pipe_get p = Some (c, p <| pi_nread := u32 (pi_nread p + 1) |>) /\
    pipe_ok (p <| pi_nread := u32 (pi_nread p + 1) |>) /\
    pipe_queue p = c :: pipe_queue (p <| pi_nread := u32 (pi_nread p + 1) |>).
Proof.
  intros Hok He. rewrite pipe_empty_spec in He by done. apply Nat.eqb_neq in He.
  pose proof (pipe_count_le p Hok) as Hle. pose proof Hok as (Hd & Hr & Hw & Hn).
  pose proof (Z.mod_pos_bound (pi_nread p) 512). unfold pipe_get.
  rewrite (list_lookup_lookup_total_lt (pi_data p)) by (rewrite Hd; unfold PIPESIZE; lia).
  eexists. split; [reflexivity|].
  set (p' := p <| pi_nread := u32 (pi_nread p + 1) |>).
  assert (pipe_count p = S (pipe_count p')) as Hc.
  { apply Nat2Z.inj. rewrite Nat2Z.inj_succ, (pipe_count_Z p'). unfold p'. simpl.
    rewrite u32_sub_r, (pipe_nwrite p Hok), u32_sub_l, u32_small by lia. lia. }
  split.
  { pose proof (pipe_count_Z p') as Hz. split; [done|]. split; [apply Z.mod_pos_bound; lia|].
    split; [done|]. rewrite <- Hz. unfold PIPESIZE. lia. }
  unfold pipe_queue. rewrite Hc. rewrite <- cons_seq, fmap_cons. f_equal.
  - unfold ring_at. do 3 f_equal. lia.
  - rewrite <- fmap_S_seq, <- list_fmap_compose. apply list_fmap_ext.
    intros k i _. unfold ring_at. simpl. do 2 f_equal. 
    rewrite <- (Zplus_mod_idemp_l (u32 _)), u32_mod_pipesize, Zplus_mod_idemp_l. f_equal. lia.
Qed.

(** The abstract pipe: a queue of at most PIPESIZE bytes. *)
Definition q_write (q bs : list Z) : list Z * list Z :=
  let k := (512 - length q)%nat in (q ++ take k bs, drop k bs).
Definition q_read (q : list Z) (n : nat) : list Z * list Z := (drop n q, take n q).

Lemma pipe_fill_spec bs : forall p,
  pipe_ok p ->
  pipe_ok (fst (pipe_fill p bs)) /\
  (pipe_queue (fst (pipe_fill p bs)), snd (pipe_fill p bs)) = q_write (pipe_queue p) bs.
Proof.
  induction bs as [|c bs IH]; intros p Hok.
  { simpl. unfold q_write. rewrite take_nil, drop_nil, app_nil_r. auto. }
  cbn [pipe_fill]. pose proof (pipe_count_le p Hok) as Hle. destruct (pipe_full p) eqn:Ef.
  - rewrite pipe_full_spec in Ef by done. apply Nat.eqb_eq in Ef. simpl. split; [done|].
    unfold q_write. rewrite length_pipe_queue, Ef. simpl. now rewrite app_nil_r.
  - destruct (pipe_put_ok p c Hok Ef) as [Hok' Hq]. destruct (IH _ Hok') as [H1 H2].
    split; [exact H1|]. rewrite H2, Hq. unfold q_write. rewrite length_app. simpl.
    rewrite pipe_full_spec in Ef by done. apply Nat.eqb_neq in Ef. rewrite length_pipe_queue.
    replace (512 - pipe_count p)%nat with (S (512 - (pipe_count p + 1))) by lia. simpl.
    now rewrite <- (assoc_L (++)).
Qed.

Lemma pipe_drain_spec n : forall p,
  pipe_ok p ->
  exists p', pipe_drain p n = Some (p', take n (pipe_queue p)) /\ pipe_ok p' /\
    pipe_queue p' = drop n (pipe_queue p).
Proof.
  induction n as [|n IH]; intros p Hok; [simpl; eauto|]. cbn [pipe_drain].
  destruct (pipe_empty p) eqn:Ee.
  - rewrite pipe_empty_spec in Ee by done. apply Nat.eqb_eq in Ee.
    assert (pipe_queue p = []) as -> by (apply nil_length_inv; now rewrite length_pipe_queue).
    exists p. split; [done|]. split; [done|].
    apply nil_length_inv. now rewrite length_pipe_queue.
  - destruct (pipe_get_ok p Hok Ee) as (c & -> & Hok' & Hq). cbn.
    destruct (IH _ Hok') as (p' & -> & Hp' & Hq'). exists p'. rewrite Hq. cbn. auto.
Qed.

(** A use of the pipe by some writer or reader. *)
Inductive pipe_op := PWrite (bs : list Z) | PRead (n : nat).

(** The bytes accepted, the bytes delivered and the final pipe of a sequence of uses. *)
Fixpoint pipe_run (p : pipe) (ops : list pipe_op) : option (list Z * list Z * pipe) :=
  match ops with
  | [] => Some ([], [], p)
  | PWrite bs :: ops' =>
    let '(p', rest) := pipe_fill p bs in
    '(inp, out, p'') ← pipe_run p' ops';
    Some (take (length bs - length rest) bs ++ inp, out, p'')
  | PRead n :: ops' =>
    '(p', cs) ← pipe_drain p n;
    '(inp, out, p'') ← pipe_run p' ops';
    Some (inp, cs ++ out, p'')
  end.

(** C25: a pipe is a FIFO channel: over any interleaving of writers' and readers' copy loops,
    across wrap-around of the 32-bit counters and of the ring, the bytes delivered followed by
    the bytes still in the pipe are the bytes it held followed by the bytes accepted; nothing is
    lost, duplicated or reordered, and at most PIPESIZE bytes are ever buffered. *)
Theorem pipe_fifo ops : forall p,
  pipe_ok p ->
  exists inp out p', pipe_run p ops = Some (inp, out, p') /\ pipe_ok p' /\
    out ++ pipe_queue p' = pipe_queue p ++ inp /\ (length (pipe_queue p') <= 512)%nat.
Proof.
  induction ops as [|[bs|n] ops IH]; intros p Hok; cbn [pipe_run].
  - exists [], [], p. rewrite app_nil_r, length_pipe_queue. auto using pipe_count_le.
  - destruct (pipe_fill_spec bs p Hok) as [Hok' Hq]. destruct (pipe_fill p bs) as [p1 rest].
    simpl in Hok', Hq. unfold q_write in Hq. injection Hq as Hq Hr.
    destruct (IH p1 Hok') as (inp & out & p' & -> & Hp' & Hout & Hlen). cbn.
    eexists _, _, _. split; [reflexivity|]. split; [done|]. split; [|done].
    rewrite Hout, Hq, <- (assoc_L (++)). do 2 f_equal. subst rest.
    rewrite length_drop. set (k := (512 - _)%nat). destruct (decide (k <= length bs)%nat).
    + f_equal. lia.
    + rewrite !take_ge by lia. done.
  - destruct (pipe_drain_spec n p Hok) as (p1 & -> & Hok' & Hq). cbn.
    destruct (IH p1 Hok') as (inp & out & p' & -> & Hp' & Hout & Hlen). cbn.
    eexists _, _, _. split; [reflexivity|]. split; [done|]. split; [|done].
    rewrite <- (assoc_L (++)), Hout, Hq, (assoc_L (++)), take_drop. done.
Qed.

(** A pipe whose counters are about to wrap around. *)
Definition wrapping_pipe : pipe := mk_pipe (replicate 512 9) 4294967295 4294967295 1 1.
Lemma wrapping_pipe_ok : pipe_ok wrapping_pipe.
Proof. unfold pipe_ok, PIPESIZE. simpl. word_lia. Qed.

Lemma pipe_fifo_witness :
  exists inp out p',
    pipe_run wrapping_pipe [PWrite [1; 2; 3]; PRead 2; PWrite [4]; PRead 9] = Some (inp, out, p') /\
    pipe_ok p' /\ out ++ pipe_queue p' = pipe_queue wrapping_pipe ++ inp /\
    (length (pipe_queue p') <= 512)%nat.
Proof. apply pipe_fifo, wrapping_pipe_ok. Defined.

(** ** pipewrite and piperead *)

(** Process [i] runs with no lock held and pipe [a] is [p]. *)
Definition pipe_call (a : Z) (p : pipe) (i : nat) (pr : proc) (s : kstate) : Prop :=
  k_cur s = Some i /\ k_procs s !! i = Some pr /\ p_state pr = RUNNING /\
  k_held s = [] /\ k_pipes s !! a = Some p /\ pipe_ok p.

(** Afterwards the pipe [a] holds the queue [q] and every other pipe is as it was. *)
Definition pipe_after (a : Z) (p : pipe) (q : list Z) (s s' : kstate) : Prop :=
  exists p', k_pipes s' = <[a := p']> (k_pipes s) /\ pipe_ok p' /\ pipe_queue p' = q /\
    pi_readopen p' = pi_readopen p /\ pi_writeopen p' = pi_writeopen p.

(** Process [i] sleeps on [c], with ptable.lock held for the scheduler. *)
Definition sleeps_on (i : nat) (c : chan) (s : kstate) : Prop :=
  k_held s = [LPtable] /\ exists pr, k_procs s !! i = Some pr /\ p_state pr = SLEEPING /\ p_chan pr = c.

Lemma wake_running c pr : p_state pr = RUNNING -> wake c pr = pr.
Proof. intros H. unfold wake. now rewrite H. Qed.

Lemma wp_killed i pr (Q : bool -> kstate -> Prop) s :
  k_cur s = Some i -> k_procs s !! i = Some pr -> Q (negb (p_killed pr =? 0)) s -> wp killed Q s.
Proof.
  intros Hc Hp HQ. unfold killed. wp_steps. apply (wp_curproc i); [done|]. wp_steps.
  apply (wp_proc_at i pr); [done|]. now wp_steps.
Qed.

Lemma wp_pipe_at a p (Q : pipe -> kstate -> Prop) s :
  k_pipes s !! a = Some p -> Q p s -> wp (pipe_at a) Q s.
Proof. intros Hp HQ. unfold pipe_at. wp_steps. exact HQ. Qed.

Lemma pipe_fill_ends bs : forall p,
  pi_readopen (fst (pipe_fill p bs)) = pi_readopen p /\
  pi_writeopen (fst (pipe_fill p bs)) = pi_writeopen p.
Proof.
  induction bs as [|c bs IH]; intros p; simpl; [done|]. destruct (pipe_full p); [done|].
  destruct (IH (pipe_put p c)) as [-> ->]. done.
Qed.

Lemma pipe_drain_ends n : forall p p' cs, pipe_drain p n = Some (p', cs) ->
  pi_readopen p' = pi_readopen p /\ pi_writeopen p' = pi_writeopen p.
Proof.
  induction n as [|n IH]; intros p p' cs; cbn [pipe_drain]; [by intros [= <- _]|].
  destruct (pipe_empty p); [by intros [= <- _]|]. unfold pipe_get.
  destruct (pi_data p !! _); cbn; [|done].
  destruct (pipe_drain _ n) as [[p1 cs1]|] eqn:E; cbn; [|done]. intros [= <- _].
  apply IH in E as [-> ->]. done.
Qed.

(** pipewrite(p, addr, n) appends to the queue as many bytes of addr as fit. It returns n
    once all of them are in; it returns -1 only when the read end is closed or the writer was
    killed while bytes were left over; otherwise it sleeps on nwrite with the ring full. It
    never panics. *)
Theorem pipewrite_spec a addr p i pr s :
  pipe_call a p i pr s ->
  let n := Z.of_nat (length addr) in
  let '(q, rest) := q_write (pipe_queue p) addr in
  wps (pipewrite a addr n)
    (fun r s' => pipe_after a p q s s' /\ k_held s' = [] /\
       (rest = [] /\ r = n \/
        rest <> [] /\ r = -1 /\ (pi_readopen p = 0 \/ p_killed pr <> 0)))
    (fun s' => pipe_after a p q s s' /\ rest <> [] /\ length q = 512%nat /\
       pi_readopen p <> 0 /\ p_killed pr = 0 /\ sleeps_on i (ChPipeWrite a) s') s.
Proof.
  intros (Hc & Hp & Hrun & Hh & Ha & Hok) n. destruct (pipe_fill_spec addr p Hok) as [Hok' Hq].
  destruct (pipe_fill_ends addr p) as [Hro Hwo].
  unfold pipewrite. rewrite take_ge by lia. destruct (q_write (pipe_queue p) addr) as [q rest] eqn:Eq.
  wps_steps. apply wp_acquire; [rewrite Hh; set_solver|]. unfold pipewrite_from.
  wps_steps. apply (wp_pipe_at a p); [done|].
  destruct (pipe_fill p addr) as [p' rest'] eqn:Ef. simpl in Hok', Hq, Hro, Hwo.
  injection Hq as Hq ->. unfold set_pipe. wps_steps.
  destruct rest as [|c rest].
  - wps_steps. apply wp_wakeup; [simpl; rewrite Hh; set_solver|]. wps_steps.
    eapply wp_release_head; [reflexivity|]. wps_steps.
    split; [exists p'; auto|]. simpl. auto.
  - wps_steps. apply (wp_killed i pr); [done..|]. rewrite Hro.
    destruct (_ || _) eqn:Ek.
    + wps_steps. eapply wp_release_head; [reflexivity|]. wps_steps.
      split; [exists p'; auto|]. split; [done|]. right. split; [done|]. split; [done|].
      apply orb_true_iff in Ek as [Ek%Z.eqb_eq|Ek%negb_true_iff%Z.eqb_neq]; auto.
    + apply orb_false_iff in Ek as [Er%Z.eqb_neq Ek%negb_false_iff%Z.eqb_eq].
      wps_steps. apply wp_wakeup; [simpl; rewrite Hh; set_solver|].
      eapply wps_switch; [apply (sleep_eq i pr); simpl; [done| |by rewrite Hh]|].
      { rewrite list_lookup_fmap, Hp. simpl. now rewrite wake_running. }
      split; [exists p'; auto|]. split; [done|]. split.
      { pose proof (pipe_count_le p Hok) as Hle. rewrite <- length_pipe_queue in Hle.
        unfold q_write in Eq. injection Eq as <- Ed. rewrite length_app, length_take.
        apply (f_equal length) in Ed. rewrite length_drop in Ed. simpl in Ed. lia. }
      split; [done|]. split; [done|]. split; [done|]. eexists. simpl.
      rewrite list_lookup_insert_eq; [done|]. rewrite length_fmap. now apply lookup_lt_Some in Hp.
Qed.

Lemma pipe_call_example p :
  pipe_ok p -> pipe_call 0x80300000 p 0 running_proc
    ((one_proc_state zero_proc []) <| k_pipes := {[ 0x80300000 := p ]} |>).
Proof. intros Hp. repeat (split; [reflexivity|]). exact Hp. Qed.

Lemma pipewrite_spec_witness :
  let p := wrapping_pipe in let addr := replicate 513 7 in
  let s := (one_proc_state zero_proc []) <| k_pipes := {[ 0x80300000 := p ]} |> in
  let n := Z.of_nat (length addr) in
  let '(q, rest) := q_write (pipe_queue p) addr in
  wps (pipewrite 0x80300000 addr n)
    (fun r s' => pipe_after 0x80300000 p q s s' /\ k_held s' = [] /\
       (rest = [] /\ r = n \/
        rest <> [] /\ r = -1 /\ (pi_readopen p = 0 \/ p_killed running_proc <> 0)))
    (fun s' => pipe_after 0x80300000 p q s s' /\ rest <> [] /\ length q = 512%nat /\
       pi_readopen p <> 0 /\ p_killed running_proc = 0 /\
       sleeps_on 0 (ChPipeWrite 0x80300000) s') s.
Proof.
  intros p addr s. exact (pipewrite_spec 0x80300000 addr p 0 running_proc s
    (pipe_call_example p wrapping_pipe_ok)).
Defined.

(** piperead(p, addr, n) delivers the oldest min(n, count) bytes and removes them from the
    queue. On an empty pipe with an open write end it sleeps on nread, or returns -1 when the
    reader was killed; with the write end closed it returns 0 (end of file). It never panics. *)
Theorem piperead_spec a n p i pr s :
  pipe_call a p i pr s ->
  let '(q, cs) := q_read (pipe_queue p) (Z.to_nat n) in
  wps (piperead a n)
    (fun r s' => k_held s' = [] /\
       (pipe_queue p = [] /\ pi_writeopen p <> 0 /\ p_killed pr <> 0 /\ r = (-1, []) /\
          k_pipes s' = k_pipes s \/
        ~ (pipe_queue p = [] /\ pi_writeopen p <> 0) /\ r = (Z.of_nat (length cs), cs) /\
          pipe_after a p q s s'))
    (fun s' => pipe_queue p = [] /\ pi_writeopen p <> 0 /\ p_killed pr = 0 /\
       k_pipes s' = k_pipes s /\ sleeps_on i (ChPipeRead a) s') s.
Proof.
  intros (Hc & Hp & Hrun & Hh & Ha & Hok). unfold q_read.
  unfold piperead. wps_steps. apply wp_acquire; [rewrite Hh; set_solver|].
  unfold piperead_from. wps_steps. apply (wp_pipe_at a p); [done|].
  assert (pipe_empty p = true <-> pipe_queue p = []) as Hem.
  { rewrite pipe_empty_spec, Nat.eqb_eq, <- length_pipe_queue by done.
    split; [apply nil_length_inv|now intros ->]. }
  destruct (_ && _) eqn:Ee.
  - apply andb_true_iff in Ee as [Eq%Hem Ew%negb_true_iff%Z.eqb_neq].
    wps_steps. apply (wp_killed i pr); [done..|]. destruct (negb _) eqn:Ek.
    + apply negb_true_iff, Z.eqb_neq in Ek. wps_steps.
      eapply wp_release_head; [reflexivity|]. wps_steps. split; [done|]. left. auto.
    + apply negb_false_iff, Z.eqb_eq in Ek.
      eapply wps_switch; [apply (sleep_eq i pr); simpl; [done|done|by rewrite Hh]|].
      repeat (split; [done|]). eexists. simpl.
      rewrite list_lookup_insert_eq; [done|]. now apply lookup_lt_Some in Hp.
  - assert (~ (pipe_queue p = [] /\ pi_writeopen p <> 0)) as Hne.
    { intros [H1%Hem H2%Z.eqb_neq]. rewrite H1, H2 in Ee. done. }
    destruct (pipe_drain_spec (Z.to_nat n) p Hok) as (p' & Ed & Hok' & Hq).
    destruct (pipe_drain_ends _ _ _ _ Ed) as [Hro Hwo].
    rewrite Ed. unfold set_pipe. wps_steps.
    apply wp_wakeup; [simpl; rewrite Hh; set_solver|]. wps_steps.
    eapply wp_release_head; [reflexivity|]. wps_steps. split; [done|]. right.
    split; [done|]. split; [done|]. exists p'. auto.
Qed.

Lemma piperead_spec_witness :
  let p := fst (pipe_fill wrapping_pipe [5; 6; 7]) in
  let s := (one_proc_state zero_proc []) <| k_pipes := {[ 0x80300000 := p ]} |> in
  let '(q, cs) := q_read (pipe_queue p) (Z.to_nat 2) in
  wps (piperead 0x80300000 2)
    (fun r s' => k_held s' = [] /\
       (pipe_queue p = [] /\ pi_writeopen p <> 0 /\ p_killed running_proc <> 0 /\ r = (-1, []) /\
          k_pipes s' = k_pipes s \/
        ~ (pipe_queue p = [] /\ pi_writeopen p <> 0) /\ r = (Z.of_nat (length cs), cs) /\
          pipe_after 0x80300000 p q s s'))
    (fun s' => pipe_queue p = [] /\ pi_writeopen p <> 0 /\ p_killed running_proc = 0 /\
       k_pipes s' = k_pipes s /\ sleeps_on 0 (ChPipeRead 0x80300000) s') s.
Proof.
  intros p s. exact (piperead_spec 0x80300000 2 p 0 running_proc s
    (pipe_call_example p (proj1 (pipe_fill_spec _ _ wrapping_pipe_ok)))).
Defined.
