(* ===== verification/File.v ===== *)
(** Open files: file.c, and pipealloc of pipe.c. *)

From stdpp Require Import base list gmap strings numbers.
From Stdlib Require Import ZArith Lia.
From S2P Require Import Prelude Bytes Kstate Kalloc Sched Bio Log Inode Fsdata Pipe.
Open Scope Z_scope.

(** ** file.c *)

Definition filealloc : K (option nat) :=
  acquire LFtable ;;
  fs ← gets k_files;
  match find_idx (fun f => f_ref f =? 0) fs with
  | Some f =>
    upd_file f (fun x => x <| f_ref := 1 |>) ;;
    release LFtable ;;
    ret (Some f)
  | None => release LFtable ;; ret None
  end.

Definition filedup (f : nat) : K nat :=
  acquire LFtable ;;
  x ← file_at f;
  if f_ref x <? 1 then panic "filedup" else
  upd_file f (fun x => x <| f_ref := f_ref x + 1 |>) ;;
  release LFtable ;;
  ret f.

Definition fileclose (f : nat) : K unit :=
  acquire LFtable ;;
  x ← file_at f;
  if f_ref x <? 1 then panic "fileclose" else
  upd_file f (fun x => x <| f_ref := f_ref x - 1 |>) ;;
  ff ← file_at f;
  if 0 <? f_ref ff then release LFtable else
  upd_file f (fun x => x <| f_ref := 0 |> <| f_type := FD_NONE |>) ;;
  release LFtable ;;
  match f_type ff with
  | FD_PIPE => pipeclose (f_pipe ff) (negb (f_writable ff =? 0))
  | FD_INODE =>
    begin_op ;;
    ip ← of_opt "ff.ip" (f_ip ff);
    iput ip ;;
    end_op
  | FD_NONE => ret tt
  end.

Definition filestat (f : nat) : K (Z * option stat) :=
  x ← file_at f;
  match f_type x with
  | FD_INODE =>
    ip ← of_opt "f->ip" (f_ip x);
    ilock ip ;;
    st ← stati ip;
    iunlock ip ;;
    ret (0, Some st)
  | _ => ret (-1, None)
  end.

Definition fileread (f : nat) (n : Z) : K (Z * list Z) :=
  x ← file_at f;
  if f_readable x =? 0 then ret (-1, []) else
  match f_type x with
  | FD_PIPE => piperead (f_pipe x) n
  | FD_INODE =>
    ip ← of_opt "f->ip" (f_ip x);
    ilock ip ;;
    '(r, bs) ← readi ip (f_off x) (u32 n);
    when (0 <? r) (upd_file f (fun x => x <| f_off := u32 (f_off x + r) |>)) ;;
    iunlock ip ;;
    ret (r, bs)
  | FD_NONE => panic "fileread"
  end.

(** max = ((MAXOPBLOCKS-1-1-2) / 2) * 512 *)
Definition filewrite_max : Z := (MAXOPBLOCKS - 1 - 1 - 2) / 2 * 512.

(** The loop of filewrite: [i] bytes of [n] have been written. Each turn
    writes at least one byte. *)
Fixpoint filewrite_loop (fuel : nat) (f ip : nat) (addr : list Z) (i n : Z) : K Z :=
  if n <=? i then ret i else
  match fuel with
  | O => nofuel
  | S fuel' =>
    let n1 := Z.min (n - i) filewrite_max in
    begin_op ;;
    ilock ip ;;
    x ← file_at f;
    r ← writei ip (take (Z.to_nat n1) (drop (Z.to_nat i) addr)) (f_off x) n1;
    when (0 <? r) (upd_file f (fun x => x <| f_off := u32 (f_off x + r) |>)) ;;
    iunlock ip ;;
    end_op ;;
    if r <? 0 then ret i else
    if negb (r =? n1) then panic "short filewrite" else
    filewrite_loop fuel' f ip addr (i + r) n
  end.

Definition filewrite (f : nat) (addr : list Z) (n : Z) : K Z :=
  x ← file_at f;
  if f_writable x =? 0 then ret (-1) else
  match f_type x with
  | FD_PIPE => pipewrite (f_pipe x) addr n
  | FD_INODE =>
    ip ← of_opt "f->ip" (f_ip x);
    i ← filewrite_loop (Z.to_nat n) f ip addr 0 n;
    ret (if i =? n then n else -1)
  | FD_NONE => panic "filewrite"
  end.

(** ** pipe.c: pipealloc *)

(** The struct pipe in a page that kalloc has just returned. *)
Definition fresh_pipe : pipe := mk_pipe (replicate (Z.to_nat PIPESIZE) 1) 0 0 1 1.

(** The code at label bad, when kalloc has not returned a page. *)
Definition pipealloc_bad (f0 f1 : option nat) : K (option (nat * nat)) :=
  match f0 with Some f => fileclose f | None => ret tt end ;;
  match f1 with Some f => fileclose f | None => ret tt end ;;
  ret None.

(** [Some (f0, f1)] when the C function returns 0. *)
Definition pipealloc : K (option (nat * nat)) :=
  o0 ← filealloc;
  match o0 with
  | None => pipealloc_bad None None
  | Some f0 =>
    o1 ← filealloc;
    match o1 with
    | None => pipealloc_bad (Some f0) None
    | Some f1 =>
      p ← kalloc;
      if p =? 0 then pipealloc_bad (Some f0) (Some f1) else
      set_pipe p fresh_pipe ;;
      upd_file f0 (fun x => x <| f_type := FD_PIPE |> <| f_readable := 1 |>
                              <| f_writable := 0 |> <| f_pipe := p |>) ;;
      upd_file f1 (fun x => x <| f_type := FD_PIPE |> <| f_readable := 0 |>
                              <| f_writable := 1 |> <| f_pipe := p |>) ;;
      ret (Some (f0, f1))
    end
  end.
