(* ===== verification/Fsop.v ===== *)
(** System calls on files as transactions: what filewrite does between begin_op and end_op, and
    what a crash during it leaves. *)

From stdpp Require Import base list gmap sets fin_sets strings numbers.
From Stdlib Require Import ZArith Lia.
From S2P Require Import Prelude Bytes Kstate Cons Sched Bio Bcache Log Commit Inode Fsblock Console.
From S2P Require Import Fsdata Fsfile Fsinode File.
Open Scope Z_scope.

(** ** Locking an inode *)

Section lock.
Context (s0 : kstate) (me : nat) (p : proc).
Hypothesis Henv : kenv s0 me p.
Context (s : kstate) (l : logst) (ic : list inode) (v : bview) (i : nat) (ip : inode).
Hypothesis Hs : fss s0 s l ic v.
Hypothesis Hi : ic !! i = Some ip.
Hypothesis Href : 1 <= i_ref ip.

Lemma fss_ready : k_icache s !! i = Some ip /\ sl_ready (SLInode i) me p s.
Proof.
  split; [now rewrite (fss_icache _ _ _ _ _ Hs)|]. apply kenv_ready. now apply (fss_env s0 me p Henv s l ic v).
Qed.

Lemma fss_set_icache ic' ps :
  woken (k_procs s) ps -> fss s0 (s <| k_icache := ic' |> <| k_procs := ps |>) l ic' v.
Proof using Hs.
  intros Hw. destruct Hs as [(bs & ps0 & -> & Hw0) Hinv]. constructor; [|exact Hinv].
  exists bs, ps. split; [done|]. simpl in Hw. now apply woken_trans with ps0.
Qed.

(** ilock of an inode that is in memory and unlocked. *)
Lemma fss_ilock (Q : unit -> kstate -> Prop) :
  sl_locked (i_lock ip) = 0 -> i_valid ip <> 0 ->
  (forall s', fss s0 s' l (<[i := ip <| i_lock := mk_sleeplock 1 (p_pid p) |>]> ic) v -> Q tt s') ->
  wp (ilock i) Q s.
Proof.
  intros Hl Hv HQ. destruct fss_ready as [Hic Hr]. unfold ilock. wp_steps.
  apply (wp_inode_at i ip); [done|]. apply wp_if_false; [lia|]. wp_steps.
  apply (wp_acquiresleep_inode i ip me p); [done..|]. wp_steps.
  eapply wp_inode_at; [simpl; rewrite list_lookup_insert_eq; [done|now apply lookup_lt_Some in Hic]|].
  apply wp_when; [simpl; lia|intros _]. apply HQ. rewrite (fss_icache _ _ _ _ _ Hs).
  replace (s <| k_icache := _ |>) with (s <| k_icache := <[i := ip <| i_lock := mk_sleeplock 1 (p_pid p) |>]> ic |>
                                          <| k_procs := k_procs s |>) by (now destruct s).
  apply fss_set_icache, woken_refl.
Qed.

Lemma fss_iunlock (Q : unit -> kstate -> Prop) :
  i_lock ip = mk_sleeplock 1 (p_pid p) ->
  (forall s', fss s0 s' l (<[i := ip <| i_lock := mk_sleeplock 0 0 |>]> ic) v -> Q tt s') ->
  wp (iunlock i) Q s.
Proof.
  intros Hl HQ. destruct fss_ready as [Hic Hr]. unfold iunlock. wp_steps.
  apply (wp_holdingsleep_inode i ip me p); [done..|]. wp_steps. apply (wp_inode_at i ip); [done|].
  rewrite Hl. simpl. rewrite Z.eqb_refl. apply wp_if_false; [simpl; lia|].
  apply (wp_releasesleep_inode i ip me p); [done..|]. apply HQ. rewrite (fss_icache _ _ _ _ _ Hs).
  apply fss_set_icache, woken_wake.
Qed.
End lock.

(** The lock of an inode plays no part in the file it describes. *)
Lemma file_inv_lock sb D ip lk : file_inv sb D ip -> file_inv sb D (ip <| i_lock := lk |>).
Proof.
  intros [[O1 O2 O3 O4 O5] Hho Hsy [F1 F2 F3 F4 F5 F6 F7] Hin Hty]. constructor; try done.
  unfold synced in *.
  transitivity ((decode_dinode (D (IBLOCK (i_inum ip) sb)) (dinode_off (i_inum ip)) ip) <| i_lock := lk |>);
    [reflexivity|now rewrite Hsy].
Qed.

Lemma written_lock sb D ip lk off bs D1 ip1 :
  written sb D (ip <| i_lock := lk |>) off bs D1 ip1 ->
  written sb D ip off bs D1 (ip1 <| i_lock := i_lock ip |>).
Proof.
  intros [W1 W2 W3 W4 W5 W6 W7 W8 W9 W10]. constructor; try done.
  - now apply file_inv_lock.
  - rewrite W4. now destruct ip.
Qed.

(** ** A file open for writing, between two system calls *)

Record file_idle (s : kstate) (me : nat) (p : proc) (v : bview) (start : Z) (f i : nat) (x : file) (ip : inode) : Prop := {
  fl_idle : fs_idle s me p v start;
  fl_layout : layout (k_sb s) start;
  fl_file : k_files s !! f = Some x;
  fl_inode : k_icache s !! i = Some ip;
  fl_ref : 1 <= i_ref ip;
  fl_lock : i_lock ip = mk_sleeplock 0 0;
  fl_valid : i_valid ip <> 0;
  fl_inv : file_inv (k_sb s) (v_data v) ip;
  fl_meta : meta_used (k_sb s) (v_data v)
}.

(** The blocks [bl] of a transaction from the idle state [s], and the contents [new] it commits. *)
Record commit_ok (s : kstate) (start : Z) (bl : list Z) (new : Z -> list Z) : Prop := {
  co_geometry : geometry start bl;
  co_some : bl <> [];
  co_boot : 1 ∉ bl;
  co_len : forall b, length (new b) = 512%nat;
  co_same : forall b, b ∉ bl -> new b = disk_block (k_disk s) b;
  co_ops : (length bl <= Z.to_nat MAXOPBLOCKS)%nat
}.

(** A block that is neither pinned nor being modified is the one on the disk. *)
Lemma binv_clean bs d v b : binv_at bs d v -> b ∉ v_dirty v -> b ∉ v_mod v -> v_data v b = disk_block d b.
Proof.
  intros Hinv Hd Hm.
  destruct (decide (Exists (fun i => caches bs i b) (seq 0 (length bs)))) as [H|H].
  - apply list.Exists_exists in H as (i & _ & Hi & x & Hx & Hdev & Hb).
    destruct (bi_bufs _ _ _ Hinv i x Hi Hx) as [[H0 _]|(_ & _ & E & _ & _ & Hc)]; [congruence|].
    rewrite Hb in *. rewrite <- E. now apply Hc.
  - apply (bi_disk _ _ _ Hinv). intros i Hi. apply H, list.Exists_exists. exists i. split; [|done].
    destruct Hi as (_ & x & Hx & _). apply lookup_lt_Some in Hx. apply elem_of_seq. lia.
Qed.

Section tx.
Context (s : kstate) (me : nat) (p : proc) (v : bview) (start : Z).
Hypothesis Hidle : fs_idle s me p v start.

(** The state after begin_op. *)
Definition begun : kstate := s <| k_log := (k_log s) <| l_outstanding := 1 |> |>.

Lemma begun_env : kenv begun me p.
Proof. exact (fi_env _ _ _ _ _ Hidle). Qed.

Lemma begun_fss : fss begun begun (k_log begun) (k_icache s) v.
Proof.
  constructor; [|exact (fi_inv _ _ _ _ _ Hidle)]. exists (k_bufs s), (k_procs s).
  split; [unfold begun; now destruct s|apply woken_refl].
Qed.

Lemma begun_txl : txl start (k_log begun) v [].
Proof.
  destruct Hidle as [_ _ (_ & Hd & _) (L1 & L2 & L3 & L4 & L5 & L6 & L7) _ _ _ _].
  constructor; [|done|constructor|intros b H; now apply not_elem_of_nil in H].
  repeat split; try done.
Qed.

(** The transaction when it reaches end_op. *)
Lemma tx_in s0 s1 l ic v1 bl :
  kenv s0 me p -> k_disk s0 = k_disk s -> k_trace s0 = k_trace s ->
  fss s0 s1 l ic v1 -> txl start l v1 bl -> v_held v1 = ∅ -> in_tx s s1 me p v1 start bl.
Proof using.
  clear Hidle. intros He Hd Ht Hs [T1 T2 T3 T4] Hh. pose proof (fss_env s0 me p He s1 l ic v1 Hs) as He1.
  destruct Hs as [(bs & ps & -> & Hw) Hinv]. constructor; auto.
  apply set_eq. intros b. split; [|set_solver]. intros Hb%(bi_mod _ _ _ Hinv). rewrite Hh in Hb. set_solver.
Qed.

Lemma tx_commit_ok s1 v1 bl sb :
  in_tx s s1 me p v1 start bl -> NoDup bl -> (forall b, b ∈ bl -> 0 <= b < FSSIZE) -> layout sb start ->
  bl <> [] -> (length bl <= 10)%nat -> (forall b, b ∈ bl -> sb_inodestart sb <= b) ->
  commit_ok s start bl (v_data v1).
Proof using.
  clear Hidle. intros [He Hinv _ Hh Hm Hd Hdk _] Hn Hr Hl Hne Hlen Hb. destruct (layout_bounds _ _ Hl) as (L1 & L2 & L3 & _).
  destruct (lay_log _ _ Hl) as [L4 L5]. constructor; auto.
  - constructor; [lia| |change (Z.to_nat LOGSIZE) with 30%nat; lia|done|].
    + unfold FSSIZE. lia.
    + intros b Hin. split; [auto|]. unfold in_log. pose proof (Hb b Hin). lia.
  - intros H%Hb. lia.
  - apply (bi_len _ _ _ Hinv).
  - intros b Hnb. rewrite <- Hdk. apply (binv_clean (k_bufs s1)); [exact Hinv| |rewrite Hm; set_solver].
    rewrite Hd. intros H%elem_of_list_to_set. done.
Qed.
End tx.

Lemma fss_files s0 s l ic v fs :
  fss s0 s l ic v -> fss (s0 <| k_files := fs |>) (s <| k_files := fs |>) l ic v.
Proof. intros [(bs & ps & -> & Hw) Hinv]. constructor; [|exact Hinv]. exists bs, ps. now split. Qed.

Lemma kenv_files s me p fs : kenv s me p -> kenv (s <| k_files := fs |>) me p.
Proof. done. Qed.

Lemma fss_files_eq s0 s l ic v : fss s0 s l ic v -> k_files s = k_files s0.
Proof. intros [(bs & ps & -> & Hw) _]. done. Qed.

(** ** One transaction of filewrite *)

(** What writing to an open file may change of the kernel state. *)
Definition write_frame (s : kstate) (f i : nat) (x' : file) (ip' : inode) (s' : kstate) : Prop :=
  exists bs ps lg dk tr, woken (k_procs s) ps /\
    s' = s <| k_bufs := bs |> <| k_procs := ps |> <| k_log := lg |> <| k_disk := dk |> <| k_trace := tr |>
           <| k_icache := <[i := ip']> (k_icache s) |> <| k_files := <[f := x']> (k_files s) |>.

Lemma write_frame_trans s f i x1 ip1 s1 x2 ip2 s2 :
  write_frame s f i x1 ip1 s1 -> write_frame s1 f i x2 ip2 s2 -> write_frame s f i x2 ip2 s2.
Proof.
  intros (bs & ps & lg & dk & tr & Hw & ->) (bs' & ps' & lg' & dk' & tr' & Hw' & ->).
  exists bs', ps', lg', dk', tr'. split; [exact (woken_trans _ _ _ Hw Hw')|].
  simpl. rewrite !list_insert_insert_eq. reflexivity.
Qed.

Section chunk.
Context (s : kstate) (me : nat) (p : proc) (v : bview) (start : Z) (f i : nat) (x : file) (ip : inode) (src : list Z).
Abbreviation n := (Z.of_nat (length src)).
Abbreviation sb := (k_sb s).
Hypothesis Hfile : file_idle s me p v start f i x ip.
Hypothesis Hn : 0 < n <= filewrite_max.
Hypothesis Hoff : 0 <= f_off x <= i_size ip.
Hypothesis Hmax : f_off x + n <= MAXFILE * BSIZE.
Hypothesis Hcap : f_off x + n <= capacity sb (v_data v) ip * BSIZE.

(** What the transaction leaves: the file with the bytes in it, on the disk, and the offset
    moved on. *)
Record chunk_done (s' : kstate) (v' : bview) (ip' : inode) (bl : list Z) (new : Z -> list Z) : Prop := {
  cd_file : file_idle s' me p v' start f i (x <| f_off := f_off x + n |>) ip';
  cd_sb : k_sb s' = sb;
  cd_commit : commit_ok s start bl new;
  cd_new : written sb (v_data v) ip (f_off x) src new ip';
  cd_written : written sb (v_data v) ip (f_off x) src (v_data v') ip';
  cd_trace : k_trace s' = k_trace s ++ commit_writes start bl new;
  cd_disk : k_disk s' = apply_disk (k_disk s) (commit_writes start bl new);
  cd_rest : write_frame s f i (x <| f_off := f_off x + n |>) ip' s'
}.

(** The file between the transaction's end and the next call. *)
Lemma chunk_end s1 l1 v1 ip1 bl (Q : unit -> kstate -> Prop) :
  let x' := x <| f_off := f_off x + n |> in
  fss ((begun s) <| k_files := <[f := x']> (k_files s) |>) s1 l1 (<[i := ip1]> (k_icache s)) v1 ->
  txl start l1 v1 bl -> v_held v1 = ∅ -> written sb (v_data v) ip (f_off x) src (v_data v1) ip1 ->
  op_blocks (begun s) [] bl (nblocks (f_off x) n) ->
  (forall s' v', chunk_done s' v' ip1 bl (v_data v1) -> Q tt s') -> wp end_op Q s1.
Proof using Hfile Hn.
  intros x' Hs Ht Hh Hw (Hb1 & Hb2 & Hb3) HQ. pose proof Hfile as [Hidle Hlay Hf Hi Href Hlk Hv Hinv Hmeta].
  assert (in_tx s s1 me p v1 start bl) as Hin by (eapply (tx_in s me p start _ s1 l1 _ v1 bl); [|..|exact Hs|exact Ht|exact Hh]; [exact (begun_env s me p v start Hidle)|done|done]).
  assert (commit_ok s start bl (v_data v1)) as Hco.
  { eapply tx_commit_ok; [exact Hin|apply Ht|apply Ht|exact Hlay|done| |].
    - revert Hb2. simpl length. unfold nblocks, filewrite_max, MAXOPBLOCKS, BSIZE in *.
      assert ((f_off x + n + 512 - 1) / 512 - f_off x / 512 <= 4) by div_lia. lia.
    - intros b Hb. destruct (Hb3 b Hb) as [H%not_elem_of_nil|H]; done. }
  destruct Hco as [C1 C2 C3 C4 C5 C6].
  apply (wp_body_end s me p v start bl (v_data v1) Hidle C1 C2 C3 C4 C5 s1 v1 _ Hin); [done|].
  intros s' v' Hidle' Htr Hdk (bs & ps & lg & dk & tr & Hwk & ->) Hdat. apply (HQ _ v').
  destruct Hs as [(bs0 & ps0 & -> & Hwk0) Hinv0]. destruct (layout_bounds _ _ Hlay) as (B1 & B2 & _).
  destruct (lay_log _ _ Hlay) as [B3 B4].
  assert (written sb (v_data v) ip (f_off x) src (v_data v') ip1) as Hw'.
  { apply (written_agree sb start (v_data v) (v_data v) ip _ _ (v_data v1)); auto.
    intros k Hk. apply Hdat. unfold in_log, LOGSIZE, MAXOPBLOCKS in *. lia. }
  pose proof (wn_rest _ _ _ _ _ _ _ Hw') as Hr.
  constructor; auto; [|now constructor|].
  - constructor; auto.
    + simpl. apply list_lookup_insert_eq. now apply lookup_lt_Some in Hf.
    + simpl. apply list_lookup_insert_eq. now apply lookup_lt_Some in Hi.
    + rewrite Hr. exact Href.
    + rewrite Hr. exact Hlk.
    + rewrite Hr. exact Hv.
    + apply Hw'.
    + apply Hw'.
  - exists bs, ps, lg, dk, tr. split; [now apply woken_trans with ps0|reflexivity].
Qed.

(** begin_op, writei, end_op. *)
Lemma wp_chunk {A} (k : Z -> K A) (Q : A -> kstate -> Prop) :
  (forall s' v' ip' bl new, chunk_done s' v' ip' bl new -> wp (k n) Q s') ->
  wp (begin_op ;; ilock i ;; y ← file_at f; r ← writei i src (f_off y) n;
      when (0 <? r) (upd_file f (fun y => y <| f_off := u32 (f_off y + r) |>)) ;;
      iunlock i ;; end_op ;; k r) Q s.
Proof using Hfile Hn Hoff Hmax Hcap.
  intros HQ. pose proof Hfile as [Hidle Hlay Hf Hi Href Hlk Hv Hinv Hmeta].
  pose proof (begun_env s me p v start Hidle) as He. wp_steps.
  apply (wp_begin_op s start); [apply He|apply Hidle|].
  fold (begun s). wp_steps.
  apply (fss_ilock _ me p He (begun s) _ _ v i ip (begun_fss s me p v start Hidle)); [done..|now rewrite Hlk|done|].
  set (ip1 := ip <| i_lock := mk_sleeplock 1 (p_pid p) |>). intros s1 Hs1. wp_steps.
  apply (wp_file_at f x); [now rewrite (fss_files_eq _ _ _ _ _ Hs1)|]. wp_steps.
  assert (i < length (k_icache s))%nat as Hil by (now apply lookup_lt_Some in Hi).
  assert (nblocks (f_off x) n <= 4) as Hnb
    by (unfold nblocks, filewrite_max, MAXOPBLOCKS, BSIZE in *; div_lia).
  eapply (wp_writei (begun s) me p start He Hlay s1 _ _ v [] i ip1);
    [exact Hs1|exact (begun_txl s me p v start Hidle)|now apply list_lookup_insert_eq|apply Hidle|
     now apply file_inv_lock|done|done|lia|done|done|done|simpl length; lia|].
  intros s2 l2 v2 ip2 bl2 Hs2 Ht2 Hh2 Hw2 Hb2. rewrite list_insert_insert_eq in Hs2. wp_steps.
  apply wp_when; [intros _|lia].
  apply (wp_upd_file f _ x); [now rewrite (fss_files_eq _ _ _ _ _ Hs2)|]. rewrite (fss_files_eq _ _ _ _ _ Hs2).
  change (MAXFILE * BSIZE) with 71680 in Hmax. rewrite u32_small by lia.
  apply (fss_files _ _ _ _ _ (<[f := x <| f_off := f_off x + n |>]> (k_files s))) in Hs2. wp_steps.
  assert (ip2 = ip1 <| i_size := i_size ip2 |> <| i_addrs := i_addrs ip2 |>) as Hr2 by apply Hw2.
  eapply (fss_iunlock _ me p (kenv_files _ _ _ _ He) _ l2 _ v2 i ip2 Hs2); [now apply list_lookup_insert_eq|now rewrite Hr2|now rewrite Hr2|].
  rewrite list_insert_insert_eq. intros s3 Hs3. wp_steps.
  eapply chunk_end; [exact Hs3|exact Ht2|exact Hh2| |exact Hb2|].
  - rewrite <- Hlk. exact (written_lock _ _ _ _ _ _ _ _ Hw2).
  - intros s' v' Hd. exact (HQ s' v' _ _ _ Hd).
Qed.
End chunk.

(** ** Crashes during a sequence of transactions *)

(** [crash_disk start d T e D]: the machine stopped after some prefix of the disk writes [T] from
    the disk [d] ([e]: after all of them), or during a recovery from such a disk, and left [D]. *)
Inductive crash_disk (start : Z) (d : gmap Z (list Z)) (T : writes) : bool -> gmap Z (list Z) -> Prop :=
| crash_write k : crash_disk start d T (bool_decide (length T <= k)%nat) (apply_disk d (take k T))
| crash_recover e D bl j :
  crash_disk start d T e D -> has_head (disk_block D start) bl ->
  crash_disk start d T e (apply_disk D (take j (recover_writes start bl (disk_block D)))).

Lemma crash_disk_app start d T1 T2 e D :
  crash_disk start d (T1 ++ T2) e D ->
  e = false /\ (exists e', crash_disk start d T1 e' D) \/ crash_disk start (apply_disk d T1) T2 e D.
Proof.
  induction 1 as [k|e D bl j _ IH Hh].
  - destruct (decide (k < length T1)%nat) as [Hk|Hk].
    + left. split; [apply bool_decide_eq_false; rewrite length_app; lia|].
      rewrite take_app_le by lia. eexists. constructor.
    + right. rewrite take_app_ge, apply_disk_app by lia.
      replace (bool_decide _) with (bool_decide (length T2 <= k - length T1)%nat); [constructor|].
      apply bool_decide_ext. rewrite length_app. lia.
  - destruct IH as [[-> [e' IH]]|IH]; [left|right; now constructor].
    split; [done|]. exists e'. now constructor.
Qed.

Lemma crash_disk_commit start d bl new e D :
  crash_disk start d (commit_writes start bl new) e D ->
  exists c, crashed start d (commit_writes start bl new) (length bl) c D /\ (e = true -> c = true).
Proof.
  induction 1 as [k|e D bl' j _ (c & IH & Hc) Hh].
  - eexists. split; [constructor|]. intros H%bool_decide_eq_true. apply bool_decide_eq_true.
    revert H. unfold commit_writes, log_writes. rewrite !length_app, length_fmap, length_seq. simpl. lia.
  - exists c. split; [now constructor|done].
Qed.

(** A file nothing was written to. *)
Lemma written_nil sb start D ip off D' :
  layout sb start -> file_inv sb D ip -> meta_used sb D -> 0 <= off <= i_size ip ->
  (forall k, sb_inodestart sb <= k -> D' k = D k) -> written sb D ip off [] D' ip.
Proof.
  intros Hl Hi Hm Ho Hag. apply (written_agree sb start D D ip off [] D D'); auto.
  constructor; auto; simpl; try lia.
  - now destruct ip.
  - intros y _. now rewrite bool_decide_eq_false_2 by lia.
Qed.

(** After a boot from the disk [D], the file holds a prefix of the bytes [src] written at [off],
    all of them when [e]. *)
Definition recovers (sb : superblock) (D0 : Z -> list Z) (ip : inode) (off : Z) (src : list Z) (e : bool)
    (D : gmap Z (list Z)) : Prop :=
  forall s0 me0 p0, booting s0 me0 p0 -> k_disk s0 = D ->
  wp (binit ;; initlog 1) (fun _ s1 => exists m ip', (e = true -> take m src = src) /\
    written sb D0 ip off (take m src) (disk_block (k_disk s1)) ip') s0.

Section recover.
Context (s : kstate) (me : nat) (p : proc) (v : bview) (start : Z) (f i : nat) (x : file) (ip : inode) (src : list Z).
Abbreviation sb := (k_sb s).
Hypothesis Hfile : file_idle s me p v start f i x ip.
Hypothesis Hoff : 0 <= f_off x <= i_size ip.

Lemma not_log_home k : sb_inodestart sb <= k -> ~ in_log start k.
Proof. destruct (lay_log _ _ (fl_layout _ _ _ _ _ _ _ _ _ Hfile)). unfold in_log. lia. Qed.

Lemma idle_disk k : disk_block (k_disk s) k = v_data v k.
Proof. destruct (fi_quiet _ _ _ _ _ (fl_idle _ _ _ _ _ _ _ _ _ Hfile)) as (_ & _ & _ & H). now rewrite H. Qed.

Lemma chunk_recovers s' v' ip' bl new e D :
  chunk_done s me p v start f i x ip src s' v' ip' bl new ->
  crash_disk start (k_disk s) (commit_writes start bl new) e D ->
  recovers sb (v_data v) ip (f_off x) src e D.
Proof.
  intros Hd Hc s0 me0 p0 Hboot HD. destruct (crash_disk_commit _ _ _ _ _ _ Hc) as (c & Hcr & He).
  pose proof (cd_commit _ _ _ _ _ _ _ _ _ _ _ _ _ _ _ Hd) as [C1 C2 C3 C4 C5 C6].
  pose proof Hfile as [Hidle Hlay _ _ _ _ _ Hinv Hmeta].
  eapply wp_mono; [apply (body_crash_safe s me p v start bl new Hidle C1 C2 C3 C4 C5 c D s0 me0 p0 Hcr Hboot HD)|].
  intros [] s1 [_ Hb]. destruct c.
  - exists (length src), ip'. rewrite firstn_all. split; [done|].
    apply (written_agree sb start (v_data v) (v_data v) ip _ _ new); auto; [|apply Hd].
    intros k Hk. apply Hb. now apply not_log_home.
  - exists 0%nat, ip. split; [intros E; now specialize (He E)|]. apply (written_nil sb start); auto.
    intros k Hk. rewrite Hb by now apply not_log_home. apply idle_disk.
Qed.

(** A first write, complete, and then a second one that was interrupted. *)
Lemma recovers_app D1 ip1 src2 e D :
  written sb (v_data v) ip (f_off x) src D1 ip1 ->
  recovers sb D1 ip1 (f_off x + Z.of_nat (length src)) src2 e D ->
  recovers sb (v_data v) ip (f_off x) (src ++ src2) e D.
Proof.
  intros Hw Hr s0 me0 p0 Hboot HD. eapply wp_mono; [exact (Hr s0 me0 p0 Hboot HD)|].
  intros [] s1 (m & ip' & He & Hw2). exists (length src + m)%nat, ip'.
  rewrite take_app_add. split; [intros E; f_equal; auto|].
  eapply (written_app sb start); [apply Hfile|lia|exact Hw|exact Hw2].
Qed.

Lemma recovers_prefix src2 e D :
  recovers sb (v_data v) ip (f_off x) src e D -> recovers sb (v_data v) ip (f_off x) (src ++ src2) false D.
Proof using.
  intros Hr s0 me0 p0 Hboot HD. eapply wp_mono; [exact (Hr s0 me0 p0 Hboot HD)|].
  intros [] s1 (m & ip' & _ & Hw). exists (m `min` length src)%nat, ip'. split; [done|].
  rewrite take_app_le, <- firstn_firstn, firstn_all by lia. exact Hw.
Qed.
End recover.

(** ** filewrite *)

Section filewrite.
Context (me : nat) (p : proc) (start : Z) (f i : nat).

(** The bytes [src] can be written to the file. *)
Record can_write (s : kstate) (v : bview) (x : file) (ip : inode) (src : list Z) : Prop := {
  cw_idle : file_idle s me p v start f i x ip;
  cw_off : 0 <= f_off x <= i_size ip;
  cw_max : f_off x + Z.of_nat (length src) <= MAXFILE * BSIZE;
  cw_room : f_off x + Z.of_nat (length src) <= capacity (k_sb s) (v_data v) ip * BSIZE
}.

(** The bytes [src] have been written at the offset of the file, and the offset moved past them;
    a crash before the last disk write leaves a prefix of them. *)
Definition all_written (s : kstate) (v : bview) (x : file) (ip : inode) (src : list Z) (s' : kstate) : Prop :=
  exists v' ip' T,
    file_idle s' me p v' start f i (x <| f_off := f_off x + Z.of_nat (length src) |>) ip' /\
    write_frame s f i (x <| f_off := f_off x + Z.of_nat (length src) |>) ip' s' /\
    written (k_sb s) (v_data v) ip (f_off x) src (v_data v') ip' /\
    k_disk s' = apply_disk (k_disk s) T /\ k_trace s' = k_trace s ++ T /\
    (forall e D, crash_disk start (k_disk s) T e D -> recovers (k_sb s) (v_data v) ip (f_off x) src e D).

Lemma can_write_take s v x ip src k : can_write s v x ip src -> can_write s v x ip (take k src).
Proof. intros [H1 H2 H3 H4]. constructor; auto; rewrite length_take; lia. Qed.

Lemma chunk_all_written s v x ip src s' v' ip' bl new :
  can_write s v x ip src -> chunk_done s me p v start f i x ip src s' v' ip' bl new ->
  all_written s v x ip src s'.
Proof.
  intros [Hi Ho _ _] Hd. exists v', ip', (commit_writes start bl new).
  split; [apply Hd|]. split; [apply Hd|]. split; [apply Hd|]. split; [apply Hd|]. split; [apply Hd|].
  intros e D. now apply (chunk_recovers s me p v start f i x ip src Hi Ho s' v' ip').
Qed.

(** Once the first chunk is written, the rest can be, and then everything has been. *)
Lemma chunk_can_write s v x ip src1 src2 s' v' ip' bl new :
  can_write s v x ip (src1 ++ src2) -> chunk_done s me p v start f i x ip src1 s' v' ip' bl new ->
  can_write s' v' (x <| f_off := f_off x + Z.of_nat (length src1) |>) ip' src2.
Proof.
  intros [Hi Ho Hm Hr] Hd. destruct (cd_written _ _ _ _ _ _ _ _ _ _ _ _ _ _ _ Hd) as [_ _ W3 _ _ _ _ _ _ W10].
  rewrite length_app in Hm, Hr. constructor.
  - apply Hd.
  - simpl. lia.
  - simpl. lia.
  - rewrite (cd_sb _ _ _ _ _ _ _ _ _ _ _ _ _ _ _ Hd). simpl. unfold BSIZE in *. lia.
Qed.

Lemma all_written_app s v x ip src1 src2 s1 v1 ip1 bl new s2 :
  can_write s v x ip (src1 ++ src2) -> chunk_done s me p v start f i x ip src1 s1 v1 ip1 bl new ->
  all_written s1 v1 (x <| f_off := f_off x + Z.of_nat (length src1) |>) ip1 src2 s2 ->
  all_written s v x ip (src1 ++ src2) s2.
Proof.
  intros Hc Hd (v2 & ip2 & T & Hi & Hfr & Hw & Hdk & Htr & Hcr). pose proof Hc as [Hi0 Ho _ _].
  pose proof (cd_sb _ _ _ _ _ _ _ _ _ _ _ _ _ _ _ Hd) as Esb. rewrite Esb in *. simpl in *.
  pose proof (cd_written _ _ _ _ _ _ _ _ _ _ _ _ _ _ _ Hd) as Hw1.
  pose proof (cd_disk _ _ _ _ _ _ _ _ _ _ _ _ _ _ _ Hd) as Ed.
  exists v2, ip2, (commit_writes start bl new ++ T). split; [|split; [|split; [|split; [|split]]]].
  - rewrite length_app, Nat2Z.inj_add, Z.add_assoc. exact Hi.
  - rewrite length_app, Nat2Z.inj_add, Z.add_assoc.
    exact (write_frame_trans _ _ _ _ _ _ _ _ _ (cd_rest _ _ _ _ _ _ _ _ _ _ _ _ _ _ _ Hd) Hfr).
  - eapply (written_app _ start); [apply Hi0|lia|exact Hw1|exact Hw].
  - now rewrite apply_disk_app, <- Ed.
  - rewrite Htr, (cd_trace _ _ _ _ _ _ _ _ _ _ _ _ _ _ _ Hd). now rewrite app_assoc.
  - intros e D [[-> [e' H]]|H]%crash_disk_app.
    + apply (recovers_prefix s v x ip src1 src2 e').
      now apply (chunk_recovers s me p v start f i x ip src1 Hi0 Ho s1 v1 ip1 bl new).
    + rewrite <- Ed in H. apply (recovers_app s me p v start f i x ip src1 Hi0 Ho (v_data v1) ip1); auto.
Qed.

Lemma wp_filewrite_loop addr fuel : forall s v x ip j,
  let n := Z.of_nat (length addr) in
  0 <= j < n -> n - j <= Z.of_nat fuel -> can_write s v x ip (drop (Z.to_nat j) addr) ->
  wp (filewrite_loop fuel f i addr j n) (fun r s' => r = n /\ all_written s v x ip (drop (Z.to_nat j) addr) s') s.
Proof.
  induction fuel as [|fuel IH]; intros s v x ip j n Hj Hf Hc; cbn [filewrite_loop];
    (apply wp_if_false; [lia|]); [exfalso; lia|].
  set (n1 := Z.min (n - j) filewrite_max). set (src := drop (Z.to_nat j) addr) in *.
  set (src1 := take (Z.to_nat n1) src). assert (0 < n1 <= filewrite_max) as Hn1
    by (unfold n1; change filewrite_max with 1536; lia).
  assert (Z.of_nat (length src1) = n1) as El by (unfold src1, src; rewrite length_take, length_drop; lia).
  assert (src = src1 ++ drop (Z.to_nat (j + n1)) addr) as Esrc.
  { unfold src1. rewrite <- (take_drop (Z.to_nat n1) src) at 1. f_equal. unfold src. rewrite drop_drop. f_equal. lia. }
  pose proof (can_write_take _ _ _ _ _ (Z.to_nat n1) Hc : can_write s v x ip src1) as [C1 C2 C3 C4]. rewrite <- El.
  apply (wp_chunk s me p v start f i x ip src1 C1 ltac:(lia) C2 C3 C4).
  intros s1 v1 ip1 bl new Hd. rewrite El. apply wp_if_false; [lia|]. apply wp_if_false; [lia|].
  rewrite Esrc in Hc |- *. destruct (decide (j + n1 < n)) as [Hlt|Hge].
  - pose proof (chunk_can_write _ _ _ _ _ _ _ _ _ _ _ Hc Hd) as Hc1.
    eapply wp_mono; [exact (IH s1 v1 _ ip1 (j + n1) ltac:(lia) ltac:(lia) Hc1)|].
    intros r s2 [-> H]. split; [done|]. exact (all_written_app _ _ _ _ _ _ _ _ _ _ _ _ Hc Hd H).
  - replace (j + n1) with n in * by lia. rewrite drop_ge, app_nil_r in * by lia.
    destruct fuel; cbn [filewrite_loop]; (apply wp_if_true; [lia|]); wp_steps;
      (split; [done|]; exact (chunk_all_written _ _ _ _ _ _ _ _ _ _ Hc Hd)).
Qed.
End filewrite.
