(* ===== verification/Filerw.v ===== *)
(** Reading and writing open files: fileread and filewrite of file.c on a file of the file system,
    their agreement, and what a crash during filewrite leaves. *)

From stdpp Require Import base list gmap sets fin_sets strings numbers.
From Stdlib Require Import ZArith Lia.
From S2P Require Import Prelude Bytes Kstate Cons Sched Bio Bcache Log Commit Inode Fsblock Console.
From S2P Require Import Fsdata Fsfile Fsinode File Fsop.
Open Scope Z_scope.

(** ** fileread *)

Section fileread.
Context (s : kstate) (me : nat) (p : proc) (v : bview) (start : Z) (f i : nat) (x : file) (ip : inode).
Hypothesis Hfile : file_idle s me p v start f i x ip.

Lemma idle_fss : fss s s (k_log s) (k_icache s) v.
Proof.
  constructor; [|apply Hfile]. exists (k_bufs s), (k_procs s). split; [now destruct s|apply woken_refl].
Qed.

(** A call that ends with the inode unlocked and no buffer held. *)
Lemma fss_file_idle fs s' x' :
  fss (s <| k_files := fs |>) s' (k_log s) (k_icache s) v -> fs !! f = Some x' ->
  file_idle s' me p v start f i x' ip.
Proof.
  pose proof Hfile as [[E1 E2 E3 E4 E5 E6 E7 E8] Hlay Hf Hi Href Hlk Hv Hinv Hmeta]. intros Hs Hx.
  pose proof (fss_env _ me p (kenv_files _ _ _ fs E1) s' _ _ _ Hs) as He.
  destruct Hs as [(bs & ps & -> & Hw) Hb]. constructor; auto. constructor; auto.
Qed.

(** The offset moves past the bytes read. *)
Definition read_past (r : Z) : file := if 0 <? r then x <| f_off := u32 (f_off x + r) |> else x.

Lemma wp_fileread n :
  f_readable x <> 0 -> f_type x = FD_INODE -> f_ip x = Some i -> is_u32 (f_off x) -> is_u32 n ->
  wp (fileread f n) (fun r s' => r = readi_result (v_data v) ip (f_off x) n /\
    file_idle s' me p v start f i (read_past (fst r)) ip /\
    k_files s' = <[f := read_past (fst r)]> (k_files s)) s.
Proof.
  intros Hrd Hty Hip Ho Hn. pose proof Hfile as [Hidle Hlay Hf Hi Href Hlk Hv Hinv Hmeta].
  pose proof (fi_env _ _ _ _ _ Hidle) as He. pose proof (fv_ok _ _ _ Hinv) as Hok.
  assert (i < length (k_icache s))%nat as Hil by (now apply lookup_lt_Some in Hi).
  assert (f < length (k_files s))%nat as Hfl by (now apply lookup_lt_Some in Hf).
  unfold fileread. wp_steps. apply (wp_file_at f x); [done|]. apply wp_if_false; [lia|]. rewrite Hty, Hip.
  wp_steps. apply (fss_ilock s me p He s _ _ v i ip idle_fss); [done..|now rewrite Hlk|done|].
  set (ip1 := ip <| i_lock := mk_sleeplock 1 (p_pid p) |>). intros s1 Hs1. rewrite u32_small by done.
  eapply wp_bind, (wp_readi s me p start He Hlay i s1 _ _ v ip1);
    [exact Hs1|now apply list_lookup_insert_eq|apply (file_inv_lock _ _ _ _ Hinv)|
     apply (file_inv_lock _ _ _ _ Hinv)|apply Hinv|apply Hidle|apply (quiet_in_use _ _ (fi_quiet _ _ _ _ _ Hidle))|done|done|].
  intros s2 Hs2. fold (readi_result (v_data v) ip1 (f_off x) n).
  change (readi_result (v_data v) ip1 (f_off x) n) with (readi_result (v_data v) ip (f_off x) n).
  destruct (readi_result (v_data v) ip (f_off x) n) as [r bs] eqn:Er. wp_steps.
  assert (k_files s2 !! f = Some x) as Hf2 by (now rewrite (fss_files_eq _ _ _ _ _ Hs2)).
  assert (forall s3, fss (s <| k_files := <[f := read_past r]> (k_files s) |>) s3 (k_log s) (<[i := ip1]> (k_icache s)) v ->
    wp (iunlock i ;; ret (r, bs)) (fun r s' => r = readi_result (v_data v) ip (f_off x) n /\
      file_idle s' me p v start f i (read_past (fst r)) ip /\
      k_files s' = <[f := read_past (fst r)]> (k_files s)) s3) as Hend.
  { intros s3 Hs3. wp_steps.
    eapply (fss_iunlock _ me p (kenv_files _ _ _ _ He) s3 _ _ v i ip1 Hs3);
      [now apply list_lookup_insert_eq|done|done|].
    rewrite list_insert_insert_eq. intros s4 Hs4. wp_steps. split; [done|].
    replace (ip1 <| i_lock := mk_sleeplock 0 0 |>) with ip in Hs4 by (rewrite <- Hlk; now destruct ip).
    rewrite (list_insert_id (k_icache s) i ip Hi) in Hs4. split; [|exact (fss_files_eq _ _ _ _ _ Hs4)].
    eapply fss_file_idle; [exact Hs4|now apply list_lookup_insert_eq]. }
  rewrite Er in Hend. apply wp_when; intros Hr.
  - apply (wp_upd_file f _ x); [done|]. rewrite (fss_files_eq _ _ _ _ _ Hs2). apply Hend.
    unfold read_past. replace (0 <? r) with true by lia. now apply fss_files.
  - apply Hend. unfold read_past. replace (0 <? r) with false by lia.
    rewrite list_insert_id by done. now destruct s.
Qed.
End fileread.

(** ** filewrite *)

Definition inode_file (x : file) (i : nat) : Prop := f_type x = FD_INODE /\ f_ip x = Some i.

Lemma wp_filewrite s me p v start f i x ip src :
  can_write me p start f i s v x ip src -> src <> [] -> inode_file x i -> f_writable x <> 0 ->
  let n := Z.of_nat (length src) in
  wp (filewrite f src n) (fun r s' => r = n /\ all_written me p start f i s v x ip src s') s.
Proof.
  intros Hc Hne [Hty Hip] Hwr n. destruct src as [|b src]; [done|].
  unfold filewrite. wp_steps. apply (wp_file_at f x); [apply Hc|]. apply wp_if_false; [lia|]. rewrite Hty, Hip.
  wp_steps. eapply wp_mono; [apply (wp_filewrite_loop me p start f i (b :: src) _ s v x ip 0); [simpl; lia|lia|exact Hc]|].
  intros r s' [-> H]. wp_steps. fold n. rewrite Z.eqb_refl. done.
Qed.

(** C2: filewrite to a file of the file system, with the offset inside the file and room for the bytes,
    writes them all at the offset, moves the offset past them, changes no block that belongs to
    another file, and leaves the file system idle with the bytes on the disk. If the machine
    crashes after any of the disk writes, or again and again during recovery, the next boot
    leaves the file with a prefix of the bytes written (and everything else as it was), and with
    all of them if the last disk write was reached. *)
Theorem filewrite_crash_safe s me p v start f i x ip src :
  can_write me p start f i s v x ip src -> src <> [] -> inode_file x i -> f_writable x <> 0 ->
  let n := Z.of_nat (length src) in
  wp (filewrite f src n) (fun r s' => r = n /\ all_written me p start f i s v x ip src s') s.
Proof. exact (wp_filewrite s me p v start f i x ip src). Qed.

Lemma written_fbytes sb D ip off src D' ip' :
  written sb D ip off src D' ip' -> 0 <= off -> off + Z.of_nat (length src) <= MAXFILE * BSIZE ->
  fbytes D' ip' off (Z.of_nat (length src)) = src.
Proof.
  intros Hw Ho Hm. apply list_eq. intros k. unfold fbytes. rewrite list_lookup_fmap, Nat2Z.id.
  destruct (decide (k < length src)%nat) as [Hk|Hk].
  - rewrite lookup_seq_lt by done. simpl. rewrite (wn_byte _ _ _ _ _ _ _ Hw), bool_decide_eq_true_2 by lia.
    replace (Z.to_nat _) with k by lia. apply lookup_lt_is_Some_2 in Hk as [b ->]. done.
  - rewrite lookup_seq_ge, lookup_ge_None_2 by lia. done.
Qed.

(** Another open file of the same inode. *)
Lemma file_idle_other s me p v start f g i x y ip :
  file_idle s me p v start f i x ip -> k_files s !! g = Some y -> file_idle s me p v start g i y ip.
Proof. intros [H1 H2 _ H4 H5 H6 H7 H8 H9] Hg. now constructor. Qed.

(** C20: what filewrite writes through one open file, fileread reads back through another open file of
    the same inode with the same offset. *)
Theorem filewrite_fileread s me p v start f g i x y ip src :
  can_write me p start f i s v x ip src -> src <> [] -> inode_file x i -> f_writable x <> 0 ->
  f <> g -> k_files s !! g = Some y -> inode_file y i -> f_readable y <> 0 -> f_off y = f_off x ->
  let n := Z.of_nat (length src) in
  wp (filewrite f src n ;; fileread g n) (fun r _ => r = (n, src)) s.
Proof.
  intros Hc Hne Hx Hwr Hfg Hg [Hty' Hip'] Hrd Hoff n. wp_steps.
  eapply wp_mono; [exact (wp_filewrite s me p v start f i x ip src Hc Hne Hx Hwr)|].
  intros r s' [_ (v' & ip' & T & Hi & (bs & ps & lg & dk & tr & _ & E) & Hw & _)]. pose proof (written_fbytes _ _ _ _ _ _ _ Hw ltac:(apply Hc) ltac:(apply Hc)) as Hb. fold n in Hb.
  pose proof (wn_size _ _ _ _ _ _ _ Hw) as Hsz. fold n in Hsz. destruct Hc as [_ Ho Hm _]. fold n in Hm.
  change (MAXFILE * BSIZE) with 71680 in Hm. assert (0 < n) by (unfold n; destruct src; simpl; [done|lia]).
  eapply wp_mono; [eapply (wp_fileread s' me p v' start g i y ip'); [|done..| |]|].
  - eapply file_idle_other; [exact Hi|]. rewrite E. simpl. now rewrite list_lookup_insert_ne.
  - unfold is_u32. lia.
  - unfold is_u32. lia.
  - intros r2 s2 [-> _]. unfold readi_result. rewrite Hoff, Hsz.
    replace (_ && _) with true by lia. cbv zeta. replace (Z.min n _) with n by lia. now rewrite Hb.
Qed.

(** ** Witnesses: a small disk with one empty file *)

Definition ex_sb : superblock := mk_superblock 100 65 8 30 2 32 34.
Definition ex_inode : inode :=
  mk_inode 1 3 2 (mk_sleeplock 0 0) 1 T_FILE 0 0 1 0 (replicate 13 0).
Definition ex_map : list Z := foldl set_bit zero_block (seq 0 35).
Definition ex_fs_disk : gmap Z (list Z) :=
  {[ 1 := foldl (fun d '(k, x) => wr32 d k x) zero_block
            [(0%nat, 100); (4%nat, 65); (8%nat, 8); (12%nat, 30); (16%nat, 2); (20%nat, 32); (24%nat, 34)];
     32 := splice (dinode_off 3) (encode_dinode ex_inode) zero_block;
     34 := ex_map ]}.
Definition ex_wfile : file := mk_file FD_INODE 1 0 1 0 (Some 0%nat) 0.
Definition ex_rfile : file := mk_file FD_INODE 1 1 0 0 (Some 0%nat) 0.
Definition ex_fs : kstate :=
  state_after binit
    ((one_proc_state zero_proc []) <| k_disk := ex_fs_disk |> <| k_sb := ex_sb |>
       <| k_icache := [ex_inode] |> <| k_files := [ex_wfile; ex_rfile] |>
       <| k_log := mk_logst 2 30 0 0 1 0 (replicate 30 0) |>).

Lemma ex_fs_len bno : length (disk_block ex_fs_disk bno) = 512%nat.
Proof.
  unfold disk_block, ex_fs_disk. destruct (decide (bno = 1)) as [->|]; [now vm_compute|].
  destruct (decide (bno = 32)) as [->|]; [now vm_compute|].
  destruct (decide (bno = 34)) as [->|]; [now vm_compute|].
  rewrite !lookup_insert_ne, lookup_singleton_ne by congruence. reflexivity.
Qed.

Lemma ex_fs_layout : layout ex_sb 2.
Proof. constructor; vm_compute; intuition congruence. Qed.

Lemma ex_fs_slot D bn : slot D ex_inode bn = 0.
Proof.
  unfold slot. destruct (bn <? NDIRECT); [|done]. change (i_addrs ex_inode) with (replicate 13 0).
  destruct (replicate 13 0 !! Z.to_nat bn) eqn:E; [|done]. now apply lookup_replicate in E as [-> _].
Qed.

Lemma ex_fs_inv : file_inv ex_sb (disk_block ex_fs_disk) ex_inode.
Proof.
  constructor.
  - constructor; try done.
    + intros bn _ H. now rewrite ex_fs_slot in H.
    + intros a b _ _ H. now rewrite ex_fs_slot in H.
  - split; [done|]. intros bn H1 H2. simpl i_size in H2. unfold BSIZE in H2. lia.
  - now vm_compute.
  - constructor; try done. apply Forall_replicate. done.
  - done.
  - done.
Qed.

Lemma ex_fs_meta : meta_used ex_sb (disk_block ex_fs_disk).
Proof.
  assert (Forall (used ex_sb (disk_block ex_fs_disk)) (seqZ 0 35)) as H.
  { apply (bool_decide_unpack _). now vm_compute. }
  intros b Hb. rewrite list.Forall_forall in H. apply H, elem_of_seqZ. simpl in Hb. lia.
Qed.

Lemma ex_fs_idle : fs_idle ex_fs 0 running_proc (v_init ex_fs_disk) 2 /\
  k_sb ex_fs = ex_sb /\ k_icache ex_fs = [ex_inode] /\ k_files ex_fs = [ex_wfile; ex_rfile].
Proof.
  unfold ex_fs. apply (wp_state_after _ (fun s => fs_idle s 0 running_proc (v_init ex_fs_disk) 2 /\
    k_sb s = ex_sb /\ k_icache s = [ex_inode] /\ k_files s = [ex_wfile; ex_rfile])).
  apply wp_binit; [apply (one_proc_fresh zero_proc)|apply ex_fs_len|]. intros bs s' Hinv. split; [|done].
  constructor; try done; try exact Hinv; try (now repeat split).
Qed.

Lemma ex_can_write src : (length src <= 5000)%nat ->
  can_write 0 running_proc 2 0 0 ex_fs (v_init ex_fs_disk) ex_wfile ex_inode src.
Proof.
  intros Hl. destruct ex_fs_idle as (Hi & Es & Ei & Ef).
  assert (capacity ex_sb (disk_block ex_fs_disk) ex_inode = 64) as Hcap by (now vm_compute).
  constructor.
  - constructor; rewrite ?Es, ?Ei, ?Ef; try reflexivity.
    all: first [exact Hi|exact ex_fs_layout|exact ex_fs_inv|exact ex_fs_meta|simpl; lia].
  - simpl. lia.
  - change (MAXFILE * BSIZE) with 71680. simpl. lia.
  - rewrite Es. change (v_data (v_init ex_fs_disk)) with (disk_block ex_fs_disk). rewrite Hcap.
    unfold BSIZE. simpl. lia.
Qed.

Lemma filewrite_crash_safe_witness :
  let src := replicate 4000 65 in
  wp (filewrite 0 src 4000) (fun r s' => r = 4000 /\
    all_written 0 running_proc 2 0 0 ex_fs (v_init ex_fs_disk) ex_wfile ex_inode src s') ex_fs.
Proof.
  intros src. apply (filewrite_crash_safe ex_fs 0 running_proc (v_init ex_fs_disk) 2 0 0 ex_wfile ex_inode src);
    [apply ex_can_write; unfold src; rewrite length_replicate; lia|done|done|done].
Defined.

Lemma filewrite_fileread_witness :
  let src := replicate 4000 65 in
  wp (filewrite 0 src 4000 ;; fileread 1 4000) (fun r _ => r = (4000, src)) ex_fs.
Proof.
  intros src. apply (filewrite_fileread ex_fs 0 running_proc (v_init ex_fs_disk) 2 0 1 0 ex_wfile ex_rfile ex_inode src);
    [apply ex_can_write; unfold src; rewrite length_replicate; lia|done..| |done|done|done].
  destruct ex_fs_idle as (_ & _ & _ & ->). done.
Defined.
