(* ===== verification/Directory.v ===== *)
(** Directories: dirlookup and dirlink of fs.c, and iget and iput of the inodes they name.

    A directory is a file of 16-byte entries. [dir_get] is the directory as a map from names to inode
    numbers; names are compared as namecmp does, up to their first NUL or DIRSIZ bytes. *)

From stdpp Require Import base list gmap sets fin_sets strings numbers.
From Stdlib Require Import ZArith Lia.
From S2P Require Import Prelude Bytes CString Kstate Cons Sched Bio Bcache Log Commit Inode Fsblock Console.
From S2P Require Import Fsdata Fsfile Fsinode Fsop Filerw.
Open Scope Z_scope.

(** ** Directories as maps *)

Definition dirent_at (D : Z -> list Z) (dp : inode) (k : nat) : list Z := fbytes D dp (DIRENT * Z.of_nat k) DIRENT.

Definition ndirents (dp : inode) : nat := Z.to_nat (i_size dp / DIRENT).

Definition dirents (D : Z -> list Z) (dp : inode) : list (list Z) := dirent_at D dp <$> seq 0 (ndirents dp).

(** The part of a name that counts. *)
Definition canon (name : list Z) : list Z := take (Z.to_nat DIRSIZ) (cstr name).

Definition entry_for (name de : list Z) : bool := negb (de_inum de =? 0) && (namecmp name (de_name de) =? 0).

Definition dir_find (D : Z -> list Z) (dp : inode) (name : list Z) : option nat := find_idx (entry_for name) (dirents D dp).

Definition dir_get (D : Z -> list Z) (dp : inode) (name : list Z) : option Z :=
  k ← dir_find D dp name; Some (de_inum (dirent_at D dp k)).

Lemma dir_get_in D dp name m : dir_get D dp name = Some m -> m <> 0 /\ m ∈ de_inum <$> dirents D dp.
Proof.
  unfold dir_get, dir_find. destruct (find_idx _ _) as [k|] eqn:E; cbn; [|done]. intros [= <-]. apply find_idx_Some in E as [(e & He & Hf) _].
  unfold dirents in *. rewrite list_lookup_fmap in He. destruct (seq 0 (ndirents dp) !! k) as [k'|] eqn:Ek; [|done].
  pose proof (lookup_seq 0 (ndirents dp) k k') as [Hq _]. destruct (Hq Ek) as [-> _]. injection He as <-. cbn in *. unfold entry_for in Hf.
  split; [intros H; now rewrite H in Hf|]. apply list_elem_of_fmap. exists (dirent_at D dp k). split; [done|]. apply list_elem_of_fmap.
  exists k. split; [done|]. now apply list_elem_of_lookup_2 in Ek.
Qed.

Record dir_ok (sb : superblock) (D : Z -> list Z) (dp : inode) : Prop := {
  do_inv : file_inv sb D dp;
  do_type : i_type dp = T_DIR;
  do_size : i_size dp mod DIRENT = 0;
  do_pos : 0 <= i_size dp
}.

Lemma entry_for_spec name de : entry_for name de = true <-> de_inum de <> 0 /\ canon name = canon (de_name de).
Proof.
  unfold entry_for, namecmp, canon. rewrite andb_true_iff, negb_true_iff, Z.eqb_neq, Z.eqb_eq. now rewrite strncmp_0.
Qed.

Lemma entry_for_canon n1 n2 de : canon n1 = canon n2 -> entry_for n1 de = entry_for n2 de.
Proof. intros E. apply eq_true_iff_eq. rewrite !entry_for_spec. now rewrite E. Qed.

Lemma lookup_dirents D dp k : (k < ndirents dp)%nat -> dirents D dp !! k = Some (dirent_at D dp k).
Proof. intros H. unfold dirents. now rewrite list_lookup_fmap, lookup_seq_lt. Qed.

Lemma length_dirents D dp : length (dirents D dp) = ndirents dp.
Proof. unfold dirents. now rewrite length_fmap, length_seq. Qed.

Lemma dir_offs_0 dp : 0 <= i_size dp -> i_size dp mod DIRENT = 0 ->
  dir_offs 0 (i_size dp) = (fun k => DIRENT * Z.of_nat k) <$> seq 0 (ndirents dp).
Proof.
  intros H0 Hm. unfold dir_offs, ndirents. unfold DIRENT in *.
  replace ((i_size dp - 0 + 16 - 1) / 16) with (i_size dp / 16) by div_lia. apply list_fmap_ext. intros; lia.
Qed.

(** ** Scanning a directory *)

Section scan.
Context (s0 : kstate) (me : nat) (p : proc) (start : Z).
Hypothesis Henv : kenv s0 me p.
Abbreviation sb := (k_sb s0).
Hypothesis Hlay : layout sb start.
Context (l : logst) (ic : list inode) (v : bview) (i : nat) (dp : inode).
Hypothesis Hi : ic !! i = Some dp.
Hypothesis Hdir : dir_ok sb (v_data v) dp.
Hypothesis Hheld : v_held v = ∅.
Hypothesis Huse : (size (in_use v) < 30)%nat.

Lemma wp_read_dirent s k (Q : Z * list Z -> kstate -> Prop) : fss s0 s l ic v -> (k < ndirents dp)%nat ->
  (forall s', fss s0 s' l ic v -> Q (DIRENT, dirent_at (v_data v) dp k) s') -> wp (readi i (DIRENT * Z.of_nat k) DIRENT) Q s.
Proof.
  intros Hs Hk HQ. destruct Hdir as [[Hok Hho Hsy Hfit Hin Hty] Ht Hm H0]. pose proof Hho as [Hz _]. change (MAXFILE * BSIZE) with 71680 in Hz.
  unfold ndirents, DIRENT in *. assert (16 * Z.of_nat k + 16 <= i_size dp) as Hb by div_lia.
  apply (wp_readi s0 me p start Henv Hlay i s l ic v dp); [done..|unfold is_u32; lia|unfold is_u32; lia|].
  intros s' Hs'. unfold readi_result. replace (_ && _) with true by lia. cbv zeta. rewrite Z.min_l by lia. now apply HQ.
Qed.

Lemma wp_dirlookup_loop name n : forall j s (Q : option (Z * Z) -> kstate -> Prop), fss s0 s l ic v -> (j + n = ndirents dp)%nat ->
  (forall s', fss s0 s' l ic v -> Q ((fun k => (DIRENT * Z.of_nat (j + k), de_inum (dirent_at (v_data v) dp (j + k)))) <$>
      find_idx (entry_for name) (dirent_at (v_data v) dp <$> seq j n)) s') ->
  wp (dirlookup_loop ((fun k => DIRENT * Z.of_nat k) <$> seq j n) i name) Q s.
Proof.
  induction n as [|n IH]; intros j s Q Hs Hj HQ; cbn [seq fmap list_fmap dirlookup_loop find_idx].
  - wp_steps. now apply HQ.
  - wp_steps. apply wp_read_dirent; [done|lia|]. intros s1 Hs1. cbn [Z.eqb negb]. change (DIRENT =? DIRENT) with true. cbn [negb].
    cbn [seq fmap list_fmap find_idx] in HQ. unfold entry_for at 1 in HQ. set (de := dirent_at (v_data v) dp j) in *.
    assert (forall s', fss s0 s' l ic v -> wp (dirlookup_loop ((fun k => DIRENT * Z.of_nat k) <$> seq (S j) n) i name) 
      (fun r s'' => r = ((fun k => (DIRENT * Z.of_nat (S j + k), de_inum (dirent_at (v_data v) dp (S j + k)))) <$>
        find_idx (entry_for name) (dirent_at (v_data v) dp <$> seq (S j) n)) /\ fss s0 s'' l ic v) s') as Hrec by (intros s' Hs'; apply IH; [done|lia|done]).
    destruct (Z.eqb_spec (de_inum de) 0) as [Hz|Hz]; cbn [negb andb] in HQ.
    + eapply wp_mono; [apply Hrec, Hs1|]. intros r s' [-> Hs']. apply HQ in Hs'. revert Hs'. 
      destruct (find_idx _ _) as [k|]; cbn; [|done]. now rewrite <- Nat.add_succ_comm.
    + destruct (namecmp name (de_name de) =? 0).
      * wp_steps. apply HQ in Hs1. cbn in Hs1. now rewrite Nat.add_0_r in Hs1.
      * eapply wp_mono; [apply Hrec, Hs1|]. intros r s' [-> Hs']. apply HQ in Hs'. revert Hs'.
        destruct (find_idx _ _) as [k|]; cbn; [|done]. now rewrite <- Nat.add_succ_comm.
Qed.

(** The first empty entry, or the end. *)
Definition empty_slot (D : Z -> list Z) (x : inode) : nat :=
  default (ndirents x) (find_idx (fun de => de_inum de =? 0) (dirents D x)).

Lemma wp_dirlink_loop n : forall j s (Q : Z -> kstate -> Prop), fss s0 s l ic v -> (j + n = ndirents dp)%nat ->
  (forall s', fss s0 s' l ic v ->
     Q (DIRENT * Z.of_nat (j + default n (find_idx (fun de => de_inum de =? 0) (dirent_at (v_data v) dp <$> seq j n)))) s') ->
  wp (dirlink_loop ((fun k => DIRENT * Z.of_nat k) <$> seq j n) i (DIRENT * Z.of_nat j)) Q s.
Proof.
  induction n as [|n IH]; intros j s Q Hs Hj HQ; cbn [seq fmap list_fmap dirlink_loop find_idx] in *.
  - wp_steps. apply HQ in Hs. cbn in Hs. now rewrite Nat.add_0_r in Hs.
  - wp_steps. apply wp_read_dirent; [done|lia|]. intros s1 Hs1. change (DIRENT =? DIRENT) with true. cbn [negb].
    set (de := dirent_at (v_data v) dp j) in *. destruct (de_inum de =? 0) eqn:Ez.
    + wp_steps. apply HQ in Hs1. cbn in Hs1. now rewrite Nat.add_0_r in Hs1.
    + replace (DIRENT * Z.of_nat j + DIRENT) with (DIRENT * Z.of_nat (S j)) by (unfold DIRENT; lia).
      apply IH; [done|lia|]. intros s' Hs'. apply HQ in Hs'. revert Hs'.
      destruct (find_idx _ _) as [k|]; cbn; now rewrite <- ?Nat.add_succ_comm, ?Nat.add_succ_r.
Qed.
End scan.

(** ** iget and iput *)

Definition cached (dev inum : Z) (ip : inode) : bool := (0 <? i_ref ip) && (i_dev ip =? dev) && (i_inum ip =? inum).
Definition recyclable (ip : inode) : bool := i_ref ip =? 0.

(** The slot of the cache iget takes. *)
Definition iget_slot (ic : list inode) (dev inum : Z) : option nat :=
  match find_idx (cached dev inum) ic with Some i => Some i | None => find_idx recyclable ic end.

Definition igot (dev inum : Z) (ip : inode) : inode :=
  if cached dev inum ip then ip <| i_ref := i_ref ip + 1 |>
  else ip <| i_dev := dev |> <| i_inum := inum |> <| i_ref := 1 |> <| i_valid := 0 |>.

Lemma iget_slot_some ic dev inum j : iget_slot ic dev inum = Some j -> exists ip, ic !! j = Some ip /\ (cached dev inum ip = true \/ i_ref ip = 0).
Proof.
  unfold iget_slot. destruct (find_idx (cached dev inum) ic) as [i|] eqn:E.
  - intros [= ->]. apply find_idx_Some in E as [(ip & Hip & Hc) _]. eauto.
  - intros [(ip & Hip & Hc) _]%find_idx_Some. exists ip. split; [done|]. right. unfold recyclable in Hc. lia.
Qed.

Section cache.
Context (s0 : kstate) (me : nat) (p : proc).
Hypothesis Henv : kenv s0 me p.

Lemma fss_held s l ic v : fss s0 s l ic v -> k_held s = [].
Proof. intros [(bs & ps & -> & _) _]. apply Henv. Qed.

Lemma fss_icache_set s l ic ic' v : fss s0 s l ic v -> fss s0 (s <| k_icache := ic' |>) l ic' v.
Proof.
  intros Hs. replace (s <| k_icache := ic' |>) with (s <| k_icache := ic' |> <| k_procs := k_procs s |>) by now destruct s.
  apply (fss_set_icache s0 s l ic v Hs), woken_refl.
Qed.

(** An update of the cache under its lock. *)
Lemma locked_icache s ic' : k_held s = [] ->
  s <| k_held := LIcache :: k_held s |> <| k_icache := ic' |> <| k_held := [] |> = s <| k_icache := ic' |>.
Proof. destruct s. cbn. now intros ->. Qed.

Lemma fss_iget s l ic v dev inum j ip (Q : nat -> kstate -> Prop) : fss s0 s l ic v -> iget_slot ic dev inum = Some j -> ic !! j = Some ip ->
  (forall s', fss s0 s' l (<[j := igot dev inum ip]> ic) v -> Q j s') -> wp (iget dev inum) Q s.
Proof.
  intros Hs Hj Hip HQ. pose proof (fss_held _ _ _ _ Hs) as Hh. pose proof (fss_icache _ _ _ _ _ Hs) as Hic.
  unfold iget. wp_steps. apply wp_acquire; [rewrite Hh; set_solver|]. wp_steps. cbn [k_icache setf set_k_held]. rewrite Hic.
  change (fun ip => (0 <? i_ref ip) && (i_dev ip =? dev) && (i_inum ip =? inum)) with (cached dev inum).
  change (fun ip => i_ref ip =? 0) with recyclable. unfold iget_slot in Hj. destruct (find_idx (cached dev inum) ic) as [j'|] eqn:Ec.
  - injection Hj as ->. apply find_idx_Some in Ec as [(x & Hx & Hc) _]. assert (x = ip) as -> by congruence.
    wp_steps. apply (wp_upd_inode j _ ip); [cbn; now rewrite Hic|]. wp_steps. eapply wp_release_head; [cbn; now rewrite Hh|]. wp_steps.
    apply HQ. unfold igot. rewrite Hc. cbn [k_icache setf set_k_held]. rewrite Hic, locked_icache by done. now apply (fss_icache_set s l ic).
  - rewrite Hj. assert (cached dev inum ip = false) as Hc by (eapply find_idx_None; [exact Ec|now apply list_elem_of_lookup_2 in Hip]).
    wp_steps. apply (wp_upd_inode j _ ip); [cbn; now rewrite Hic|]. wp_steps. eapply wp_release_head; [cbn; now rewrite Hh|]. wp_steps.
    apply HQ. unfold igot. rewrite Hc. cbn [k_icache setf set_k_held]. rewrite Hic, locked_icache by done. now apply (fss_icache_set s l ic).
Qed.

(** The part of iput that removes the file is skipped. *)
Lemma fss_iput_keep s l ic v j ip (Q : unit -> kstate -> Prop) : fss s0 s l ic v -> ic !! j = Some ip ->
  i_valid ip = 0 \/ i_nlink ip <> 0 \/ i_ref ip <> 1 -> (forall s', fss s0 s' l ic v -> Q tt s') ->
  wp (when (negb (i_valid ip =? 0) && (i_nlink ip =? 0)) (acquire LIcache ;; ip ← inode_at j; release LIcache ;;
       when (i_ref ip =? 1) (itrunc j ;; upd_inode j (fun ip => ip <| i_type := 0 |>) ;; iupdate j ;; upd_inode j (fun ip => ip <| i_valid := 0 |>)))) Q s.
Proof.
  intros Hs Hip Hstay HQ. apply wp_when; [intros Hc|intros _; now apply HQ]. pose proof (fss_held _ _ _ _ Hs) as Hh.
  pose proof (fss_icache _ _ _ _ _ Hs) as Hic. wp_steps. apply wp_acquire; [rewrite Hh; set_solver|]. wp_steps.
  apply (wp_inode_at j ip); [cbn; now rewrite Hic|]. wp_steps. eapply wp_release_head; [cbn; now rewrite Hh|]. apply wp_when.
  - intros Hc2. exfalso. lia.
  - intros _. apply HQ. match goal with |- fss _ ?y _ _ _ => replace y with s; [done|] end. destruct s. cbn in *. now subst.
Qed.

(** iput of an inode that stays on disk: one reference less. *)
Lemma fss_iput s l ic v j ip (Q : unit -> kstate -> Prop) : fss s0 s l ic v -> ic !! j = Some ip -> i_lock ip = mk_sleeplock 0 0 ->
  i_valid ip = 0 \/ i_nlink ip <> 0 \/ i_ref ip <> 1 ->
  (forall s', fss s0 s' l (<[j := ip <| i_ref := i_ref ip - 1 |>]> ic) v -> Q tt s') -> wp (iput j) Q s.
Proof.
  intros Hs Hip Hlk Hstay HQ. pose proof (fss_icache _ _ _ _ _ Hs) as Hic. assert (j < length ic)%nat as Hlt by now apply lookup_lt_Some in Hip.
  assert (sl_ready (SLInode j) me p s) as Hr by (apply kenv_ready; now apply (fss_env s0 me p Henv s l ic v)).
  unfold iput. wp_steps. apply (wp_acquiresleep_inode j ip me p); [now rewrite Hic|done|now rewrite Hlk|].
  rewrite Hic. set (ip1 := ip <| i_lock := mk_sleeplock 1 (p_pid p) |>). pose proof (fss_icache_set s l ic (<[j := ip1]> ic) v Hs) as Hs1.
  assert (<[j := ip1]> ic !! j = Some ip1) as H1 by now apply list_lookup_insert_eq.
  wp_steps. apply (fss_inode_at s0 _ l _ v j ip1 _ Hs1 H1). wp_steps.
  apply (fss_iput_keep _ l (<[j := ip1]> ic) v j ip1); [done|done|done|]. intros s2 Hs2. pose proof (fss_icache _ _ _ _ _ Hs2) as Hic2.
  assert (sl_ready (SLInode j) me p s2) as Hr2 by (apply kenv_ready; exact (fss_env s0 me p Henv s2 l _ v Hs2)).
  wp_steps. apply (wp_releasesleep_inode j ip1 me p); [now rewrite Hic2|done|]. rewrite Hic2, list_insert_insert_eq.
  replace (ip1 <| i_lock := mk_sleeplock 0 0 |>) with ip by (rewrite <- Hlk; now destruct ip). rewrite (list_insert_id ic j ip Hip).
  pose proof (fss_set_icache s0 s2 l _ v Hs2 ic (wake (ChSleeplock (SLInode j)) <$> k_procs s2) (woken_wake _ _)) as Hs3.
  set (s3 := s2 <| k_icache := ic |> <| k_procs := _ |>) in *. clearbody s3. pose proof (fss_held _ _ _ _ Hs3) as Hh3. pose proof (fss_icache _ _ _ _ _ Hs3) as Hic3.
  wp_steps. apply wp_acquire; [rewrite Hh3; set_solver|]. wp_steps. apply (wp_upd_inode j _ ip); [cbn; now rewrite Hic3|]. wp_steps.
  eapply wp_release_head; [cbn; now rewrite Hh3|]. apply HQ. cbn [k_icache setf set_k_held]. rewrite Hic3, locked_icache by done. now apply (fss_icache_set s3 l ic).
Qed.
End cache.

(** ** dirlookup *)

Section lookup.
Context (s0 : kstate) (me : nat) (p : proc) (start : Z).
Hypothesis Henv : kenv s0 me p.
Abbreviation sb := (k_sb s0).
Hypothesis Hlay : layout sb start.
Context (s : kstate) (l : logst) (ic : list inode) (v : bview) (i : nat) (dp : inode) (name : list Z).
Hypothesis Hs : fss s0 s l ic v.
Hypothesis Hi : ic !! i = Some dp.
Hypothesis Hdir : dir_ok sb (v_data v) dp.
Hypothesis Hheld : v_held v = ∅.
Hypothesis Huse : (size (in_use v) < 30)%nat.

(** What dirlookup returns, and the inode cache it leaves. *)
Definition looked_up (r : option (nat * Z)) (ic' : list inode) : Prop :=
  match dir_find (v_data v) dp name with
  | None => r = None /\ ic' = ic
  | Some k => let inum := de_inum (dirent_at (v_data v) dp k) in
      exists j ip, iget_slot ic 1 inum = Some j /\ ic !! j = Some ip /\ r = Some (j, DIRENT * Z.of_nat k) /\ ic' = <[j := igot 1 inum ip]> ic
  end.

Lemma wp_dirlookup (Q : option (nat * Z) -> kstate -> Prop) :
  (forall inum, dir_get (v_data v) dp name = Some inum -> is_Some (iget_slot ic 1 inum)) ->
  (forall r s' ic', looked_up r ic' -> fss s0 s' l ic' v -> Q r s') -> wp (dirlookup i name) Q s.
Proof.
  intros Hslot HQ. destruct Hdir as [Hinv Ht Hm H0]. unfold dirlookup. wp_steps. apply (fss_inode_at s0 s l ic v i dp); [done..|].
  rewrite Ht. cbn [Z.eqb negb]. change (T_DIR =? T_DIR) with true. cbn [negb]. wp_steps. rewrite dir_offs_0 by done.
  apply (wp_dirlookup_loop s0 me p start Henv Hlay l ic v i dp Hi Hdir Hheld Huse name (ndirents dp) 0); [done|done|].
  intros s1 Hs1. unfold looked_up, dir_get, dir_find, dirents in *. destruct (find_idx (entry_for name) _) as [k|]; cbn in *.
  - destruct (Hslot _ eq_refl) as [j Hj]. destruct (iget_slot_some _ _ _ _ Hj) as (ip & Hip & _). wp_steps. rewrite (fo_dev _ _ _ (fv_ok _ _ _ Hinv)).
    apply (fss_iget s0 me p Henv s1 l ic v 1 _ j ip); [done..|]. intros s2 Hs2. wp_steps. eapply HQ; [|exact Hs2]. eauto 10.
  - wp_steps. now apply (HQ None s1 ic).
Qed.
End lookup.

(** ** A directory after an entry is written *)

Lemma find_idx_map {A B} (f : A -> bool) (g : B -> bool) l l' : f <$> l = g <$> l' -> find_idx f l = find_idx g l'.
Proof.
  revert l'. induction l as [|x l IH]; intros [|y l'] E; try done. cbn in *. injection E as E1 E2. rewrite E1. now rewrite (IH l').
Qed.

Lemma find_idx_snoc {A} (f : A -> bool) l x : find_idx f (l ++ [x]) =
  match find_idx f l with Some k => Some k | None => if f x then Some (length l) else None end.
Proof. induction l as [|y l IH]; cbn; [now destruct (f x)|]. rewrite IH. destruct (f y), (find_idx f l), (f x); done. Qed.

(** The entries with the entry [k] replaced, or added at the end. *)
Definition put_entry (k : nat) (de : list Z) (es : list (list Z)) : list (list Z) :=
  if decide (k < length es)%nat then <[k := de]> es else es ++ [de].

Lemma put_entry_get name name' de es k : de_inum de <> 0 -> canon (de_name de) = canon name -> (k <= length es)%nat ->
  (forall e, es !! k = Some e -> de_inum e = 0) -> find_idx (entry_for name) es = None ->
  find_idx (entry_for name') (put_entry k de es) = if decide (canon name' = canon name) then Some k else find_idx (entry_for name') es.
Proof.
  intros Hn Hc Hk He Hno. assert (entry_for name' de = bool_decide (canon name' = canon name)) as Hde.
  { apply eq_true_iff_eq. rewrite entry_for_spec, bool_decide_eq_true, Hc. tauto. }
  assert (canon name' = canon name -> find_idx (entry_for name') es = None) as Hno'.
  { intros E. rewrite <- Hno. apply find_idx_map, list_fmap_ext. intros j x _. now apply entry_for_canon. }
  unfold put_entry. destruct (decide (k < length es)%nat) as [Hlt|Hge].
  - case_decide as E.
    + apply find_idx_Some. split.
      * exists de. split; [now apply list_lookup_insert_eq|]. rewrite Hde. now apply bool_decide_eq_true.
      * intros j y Hj Hy. rewrite list_lookup_insert_ne in Hy by lia. eapply find_idx_None; [now apply Hno'|now apply list_elem_of_lookup_2 in Hy].
    + apply find_idx_map. rewrite list_fmap_insert, Hde, (bool_decide_eq_false_2 _ E). apply list_insert_id.
      destruct (lookup_lt_is_Some_2 es k Hlt) as [e Hek]. rewrite list_lookup_fmap, Hek. cbn. unfold entry_for. now rewrite (He e Hek).
  - rewrite find_idx_snoc, Hde. case_decide as E.
    + rewrite Hno', bool_decide_eq_true_2 by done. f_equal. lia.
    + rewrite bool_decide_eq_false_2 by done. now destruct (find_idx (entry_for name') es).
Qed.

Section put.
Context (sb : superblock) (D : Z -> list Z) (dp : inode) (k : nat) (de : list Z) (D' : Z -> list Z) (dp' : inode).
Hypothesis Hdir : dir_ok sb D dp.
Hypothesis Hk : (k <= ndirents dp)%nat.
Hypothesis Hde : length de = 16%nat.
Hypothesis Hmax : DIRENT * Z.of_nat k + 16 <= MAXFILE * BSIZE.
Hypothesis Hw : written sb D dp (DIRENT * Z.of_nat k) de D' dp'.

Lemma put_size : i_size dp' = DIRENT * Z.of_nat (Nat.max (ndirents dp) (S k)).
Proof.
  rewrite (wn_size _ _ _ _ _ _ _ Hw), Hde. destruct Hdir as [_ _ Hm H0]. unfold ndirents, DIRENT in *. div_lia.
Qed.

Lemma put_ndirents : ndirents dp' = Nat.max (ndirents dp) (S k).
Proof. unfold ndirents at 1. rewrite put_size. unfold DIRENT. rewrite Z.mul_comm, Z.div_mul by lia. lia. Qed.

Lemma put_dirent m : DIRENT * Z.of_nat m + 16 <= MAXFILE * BSIZE -> dirent_at D' dp' m = if decide (m = k) then de else dirent_at D dp m.
Proof.
  intros Hm. unfold dirent_at, fbytes. unfold DIRENT in *. change (Z.to_nat 16) with 16%nat.
  assert (forall j, (j < 16)%nat -> fbyte D' dp' (16 * Z.of_nat m + Z.of_nat j) =
    if decide (m = k) then default 0 (de !! j) else fbyte D dp (16 * Z.of_nat m + Z.of_nat j)) as Hb.
  { intros j Hj. rewrite (wn_byte _ _ _ _ _ _ _ Hw) by lia. unfold DIRENT. rewrite Hde. destruct (decide (m = k)) as [->|Hne].
    - rewrite bool_decide_eq_true_2 by lia. do 2 f_equal. lia.
    - rewrite bool_decide_eq_false_2 by lia. done. }
  apply list_eq. intros j. rewrite list_lookup_fmap. destruct (decide (j < 16)%nat) as [Hj|Hj].
  - destruct (decide (m = k)) as [E|E]; rewrite ?list_lookup_fmap, !lookup_seq_lt by done; cbn; rewrite Hb by done.
    + destruct (lookup_lt_is_Some_2 de j ltac:(lia)) as [b ->]. done.
    + done.
  - destruct (decide (m = k)) as [E|E]; rewrite ?list_lookup_fmap, !lookup_seq_ge by lia; [|done]. symmetry. apply lookup_ge_None_2. lia.
Qed.

Lemma put_dirents : dirents D' dp' = put_entry k de (dirents D dp).
Proof.
  pose proof put_ndirents as Hn. destruct Hdir as [[_ [Hsz _] _ _ _ _] _ Hm H0].
  assert (forall m, (m < ndirents dp')%nat -> DIRENT * Z.of_nat m + 16 <= MAXFILE * BSIZE) as Hr.
  { intros m Hlt. rewrite Hn in Hlt. unfold ndirents, DIRENT in *. div_lia. }
  apply list_eq. intros m. destruct (decide (m < ndirents dp')%nat) as [Hlt|Hge].
  - rewrite lookup_dirents, put_dirent by auto. unfold put_entry. rewrite length_dirents. destruct (decide (k < ndirents dp)%nat).
    + destruct (decide (m = k)) as [->|Hne]; [rewrite list_lookup_insert_eq; [done|now rewrite length_dirents]|].
      rewrite list_lookup_insert_ne, lookup_dirents; [done|lia|done].
    + destruct (decide (m = k)) as [->|Hne].
      * rewrite lookup_app_r by (rewrite length_dirents; lia). rewrite length_dirents. now replace (k - ndirents dp)%nat with 0%nat by lia.
      * rewrite lookup_app_l, lookup_dirents by (rewrite ?length_dirents; lia). done.
  - rewrite lookup_ge_None_2 by (rewrite length_dirents; lia). symmetry. apply lookup_ge_None_2. unfold put_entry.
    rewrite length_dirents. case_decide; rewrite ?length_insert, ?length_app, length_dirents; cbn; lia.
Qed.

Lemma put_dir_ok : dir_ok sb D' dp'.
Proof.
  pose proof put_size as Hs. unfold DIRENT in *. split.
  - exact (wn_inv _ _ _ _ _ _ _ Hw).
  - rewrite (wn_rest _ _ _ _ _ _ _ Hw). exact (do_type _ _ _ Hdir).
  - rewrite Hs, Z.mul_comm. now apply Z.mod_mul.
  - lia.
Qed.
End put.

(** ** dirlink *)

(** The entry that dirlink writes. *)
Definition new_entry (name : list Z) (inum : Z) : list Z := le_bytes 2 inum ++ strncpy name (Z.to_nat DIRSIZ).

Lemma new_entry_spec name inum : 0 <= inum < 65536 -> length (new_entry name inum) = 16%nat /\
  de_inum (new_entry name inum) = inum /\ canon (de_name (new_entry name inum)) = canon name.
Proof.
  intros Hi. unfold new_entry. split; [rewrite length_app, length_le_bytes, strncpy_length; reflexivity|]. split.
  - unfold de_inum, rd16, slice. rewrite drop_0, take_app_length' by now rewrite length_le_bytes. rewrite le_val_le_bytes. now rewrite Z.mod_small.
  - unfold de_name, slice, canon. rewrite drop_app_length' by now rewrite length_le_bytes. change (Z.to_nat DIRSIZ) with 14%nat.
    rewrite (take_ge (strncpy name 14)) by now rewrite strncpy_length. symmetry. now apply strncmp_0, strncpy_strncmp_roundtrip.
Qed.

Lemma empty_slot_spec D dp : (empty_slot D dp <= ndirents dp)%nat /\ forall e, dirents D dp !! empty_slot D dp = Some e -> de_inum e = 0.
Proof.
  unfold empty_slot. destruct (find_idx _ (dirents D dp)) as [k|] eqn:E; cbn.
  - apply find_idx_lt in E as Hlt. rewrite length_dirents in Hlt. split; [lia|]. intros e He.
    apply find_idx_Some in E as [(x & Hx & H0) _]. assert (x = e) as -> by congruence. lia.
  - split; [done|]. intros e He. apply lookup_lt_Some in He. rewrite length_dirents in He. lia.
Qed.

(** The directory maps [name] to [inum] and the other names as before. *)
Definition dir_insert (D : Z -> list Z) (dp : inode) (name : list Z) (inum : Z) (D' : Z -> list Z) (dp' : inode) : Prop :=
  forall n, dir_get D' dp' n = if decide (canon n = canon name) then Some inum else dir_get D dp n.

Lemma written_dir_insert sb D dp name inum D' dp' : dir_ok sb D dp -> 0 < inum < 65536 -> dir_find D dp name = None ->
  i_size dp + 16 <= MAXFILE * BSIZE -> written sb D dp (DIRENT * Z.of_nat (empty_slot D dp)) (new_entry name inum) D' dp' ->
  dir_ok sb D' dp' /\ dir_insert D dp name inum D' dp'.
Proof.
  intros Hdir Hi Hno Hmax Hw. destruct (new_entry_spec name inum ltac:(lia)) as (N1 & N2 & N3). destruct (empty_slot_spec D dp) as [E1 E2].
  set (k := empty_slot D dp) in *. assert (DIRENT * Z.of_nat k + 16 <= MAXFILE * BSIZE) as Hb.
  { destruct Hdir as [_ _ _ H0]. unfold ndirents, DIRENT in *. div_lia. }
  split; [now apply (put_dir_ok sb D dp k (new_entry name inum))|]. intros n. unfold dir_get, dir_find in *.
  pose proof (put_dirents sb D dp k _ D' dp' Hdir E1 N1 Hb Hw) as Hes. rewrite Hes.
  rewrite (put_entry_get name n) by (done || lia || rewrite length_dirents; lia).
  case_decide as E; cbn.
  - rewrite (put_dirent sb D dp k _ D' dp' E1 N1 Hw k Hb), decide_True by done. now rewrite N2.
  - destruct (find_idx (entry_for n) (dirents D dp)) as [m|] eqn:Em; [|done]. cbn. apply find_idx_lt in Em as Hlt. rewrite length_dirents in Hlt.
    assert (DIRENT * Z.of_nat m + 16 <= MAXFILE * BSIZE) as Hm by (unfold ndirents, DIRENT in *; div_lia).
    rewrite (put_dirent sb D dp k _ D' dp' E1 N1 Hw m Hm). case_decide as Emk; [|done]. subst m. exfalso.
    apply find_idx_Some in Em as [(e & He & Hf) _]. apply entry_for_spec in Hf as [Hf _]. apply Hf. now apply E2.
Qed.

(** acquiresleep of a sleeplock that is taken. *)
Lemma wps_acquiresleep_locked i ip me p (Q : unit -> kstate -> Prop) (R : kstate -> Prop) s :
  k_cur s = Some me -> k_procs s !! me = Some p -> k_held s = [] -> k_icache s !! i = Some ip -> sl_locked (i_lock ip) <> 0 ->
  R (sleep_post me p (ChSleeplock (SLInode i)) (s <| k_held := [LSleep (SLInode i)] |>)) -> wps (acquiresleep (SLInode i)) Q R s.
Proof.
  intros Hc Hp Hh Hi Hlk HR. unfold acquiresleep. wps_steps. apply wp_acquire; [rewrite Hh; set_solver|]. wps_steps. unfold sl_get. wp_steps.
  apply (wp_inode_at i ip); [done|]. wp_steps. rewrite (proj2 (Z.eqb_neq _ _) Hlk). cbn [negb].
  eapply wps_switch; [apply (sleep_eq me p); cbn; now rewrite ?Hh|]. now rewrite Hh.
Qed.

(** The directory [dp], in the slot [i] of the inode cache, in the middle of a transaction that has logged
    the blocks [bl]. *)
Record in_dir (s0 : kstate) (me : nat) (p : proc) (start : Z) (s : kstate) (l : logst) (ic : list inode) (v : bview) (bl : list Z)
    (i : nat) (dp : inode) : Prop := {
  id_env : kenv s0 me p;
  id_layout : layout (k_sb s0) start;
  id_fss : fss s0 s l ic v;
  id_tx : txl start l v bl;
  id_len : (length bl <= 23)%nat;
  id_inode : ic !! i = Some dp;
  id_dir : dir_ok (k_sb s0) (v_data v) dp;
  id_held : v_held v = ∅;
  id_meta : meta_used (k_sb s0) (v_data v)
}.

Section link.
Context (s0 : kstate) (me : nat) (p : proc) (start : Z) (s : kstate) (l : logst) (ic : list inode) (v : bview) (bl : list Z) (i : nat) (dp : inode).
Hypothesis Hd : in_dir s0 me p start s l ic v bl i dp.

Lemma in_dir_use : (size (in_use v) < 30)%nat.
Proof.
  destruct Hd as [_ _ _ [_ Hdi Hn _] Hl _ _ Hh _]. unfold in_use. rewrite Hh, Hdi, dom_empty_L, union_empty_l_L.
  rewrite size_list_to_set by done. lia.
Qed.

(** The new entry is in the directory. *)
Record linked (name : list Z) (inum : Z) (s' : kstate) (l' : logst) (v' : bview) (bl' : list Z) (dp' : inode) : Prop := {
  lk_fss : fss s0 s' l' (<[i := dp']> ic) v';
  lk_tx : txl start l' v' bl';
  lk_held : v_held v' = ∅;
  lk_dir : dir_ok (k_sb s0) (v_data v') dp';
  lk_insert : dir_insert (v_data v) dp name inum (v_data v') dp';
  lk_frame : exists off, written (k_sb s0) (v_data v) dp off (new_entry name inum) (v_data v') dp'
}.

Lemma wp_dirlink_new name inum : 0 < inum < 65536 -> dir_get (v_data v) dp name = None ->
  i_size dp + 16 <= MAXFILE * BSIZE -> i_size dp + 16 <= capacity (k_sb s0) (v_data v) dp * BSIZE ->
  wp (dirlink i name inum) (fun r s' => r = 0 /\ exists l' v' bl' dp', linked name inum s' l' v' bl' dp') s.
Proof.
  intros Hin Hget Hmax Hcap. pose proof Hd as [Henv Hlay Hs Ht Hl Hi Hdir Hh Hm]. pose proof in_dir_use as Hu.
  assert (dir_find (v_data v) dp name = None) as Hno by (unfold dir_get in Hget; now destruct (dir_find _ _ _)).
  unfold dirlink. wp_steps. apply (wp_dirlookup s0 me p start Henv Hlay s l ic v i dp name Hs Hi Hdir Hh Hu); [now rewrite Hget|].
  intros r s1 ic1 Hr Hs1. unfold looked_up in Hr. rewrite Hno in Hr. destruct Hr as [-> ->]. wp_steps.
  apply (fss_inode_at s0 s1 l ic v i dp); [done..|]. wp_steps. rewrite dir_offs_0 by now destruct Hdir. change 0 with (DIRENT * Z.of_nat 0) at 2.
  apply (wp_dirlink_loop s0 me p start Henv Hlay l ic v i dp Hi Hdir Hh Hu (ndirents dp) 0); [done|done|]. intros s2 Hs2.
  fold (dirents (v_data v) dp). fold (empty_slot (v_data v) dp). cbn [plus Nat.add]. wp_steps.
  destruct (new_entry_spec name inum ltac:(lia)) as (N1 & _). destruct (empty_slot_spec (v_data v) dp) as [E1 _].
  destruct Hdir as [Hinv Hty Hmod H0] eqn:Edir. clear Edir. fold (new_entry name inum).
  assert (0 <= DIRENT * Z.of_nat (empty_slot (v_data v) dp) <= i_size dp) as Hoff by (unfold ndirents, DIRENT in *; div_lia).
  eapply (wp_writei s0 me p start Henv Hlay s2 l ic v bl i dp (new_entry name inum)); [done..|done|unfold DIRENT in *; lia|
    now rewrite N1|unfold DIRENT in *; lia|unfold nblocks, BSIZE, DIRENT in *; div_lia|].
  intros s3 l3 v3 dp3 bl3 Hs3 Ht3 Hh3 Hw _. change (DIRENT =? DIRENT) with true. cbn [negb]. wp_steps. split; [done|].
  destruct (written_dir_insert (k_sb s0) (v_data v) dp name inum (v_data v3) dp3) as [R1 R2]; [done..|].
  exists l3, v3, bl3, dp3. split; [done..|]. eauto.
Qed.

(** dirlookup finds the name in the slot [j]. *)
Definition found_at (name : list Z) (j : nat) (ip : inode) : Prop :=
  match dir_get (v_data v) dp name with
  | Some inum => iget_slot ic 1 inum = Some j /\ exists ip0, ic !! j = Some ip0 /\ ip = igot 1 inum ip0
  | None => False
  end.

Lemma wp_dirlookup_found name j ip (Q : option (nat * Z) -> kstate -> Prop) : found_at name j ip ->
  (forall k s', fss s0 s' l (<[j := ip]> ic) v -> Q (Some (j, k)) s') -> wp (dirlookup i name) Q s.
Proof.
  intros Hf HQ. pose proof Hd as [Henv Hlay Hs Ht Hl Hi Hdir Hh Hm]. unfold found_at in Hf. destruct (dir_get _ _ _) as [inum|] eqn:Eg; [|done].
  destruct Hf as (Hj & ip0 & Hip & ->).
  apply (wp_dirlookup s0 me p start Henv Hlay s l ic v i dp name Hs Hi Hdir Hh in_dir_use); [intros n E; rewrite Eg in E; injection E as <-; eauto|].
  intros r s1 ic1 Hr Hs1. unfold looked_up in Hr. unfold dir_get in Eg. destruct (dir_find _ _ _) as [k|]; [|done].
  cbn in Eg, Hr. injection Eg as Eg. rewrite Eg in Hr. destruct Hr as (j' & ip' & Hj' & Hip' & -> & ->).
  assert (j' = j) as -> by congruence. assert (ip' = ip0) as -> by congruence. now apply HQ.
Qed.

(** A reference that iget has just taken is never the last one of a loaded inode. *)
Lemma igot_stays inum ip0 :
  i_valid (igot 1 inum ip0) = 0 \/ i_nlink (igot 1 inum ip0) <> 0 \/ i_ref (igot 1 inum ip0) <> 1.
Proof.
  unfold igot. destruct (cached 1 inum ip0) eqn:E; cbn; [|now left]. right. right. unfold cached in E. lia.
Qed.

Lemma wp_dirlink_exists name inum j ip : found_at name j ip -> i_lock ip = mk_sleeplock 0 0 ->
  wp (dirlink i name inum) (fun r s' => r = -1 /\ fss s0 s' l (<[j := ip <| i_ref := i_ref ip - 1 |>]> ic) v) s.
Proof.
  intros Hf Hlk. unfold dirlink. wp_steps. apply (wp_dirlookup_found name j ip); [done|]. intros k s1 Hs1. wp_steps.
  unfold found_at in Hf. destruct (dir_get _ _ _) as [n|]; [|done]. destruct Hf as (Hj & ip0 & Hip & ->).
  assert (j < length ic)%nat as Hlt by now apply lookup_lt_Some in Hip.
  apply (fss_iput s0 me p (id_env _ _ _ _ _ _ _ _ _ _ _ Hd) s1 l (<[j := igot 1 n ip0]> ic) v j (igot 1 n ip0)); [done|now apply list_lookup_insert_eq|done|
    apply igot_stays|].
  intros s2 Hs2. wp_steps. split; [done|]. now rewrite list_insert_insert_eq in Hs2.
Qed.

(** The name is the directory itself, which the caller has locked. *)
Lemma wps_dirlink_self name inum dp' : found_at name i dp' -> sl_locked (i_lock dp') <> 0 ->
  wps (dirlink i name inum) (fun _ _ => False) (fun s' => exists ip p', k_cur s' = Some me /\
    k_procs s' !! me = Some p' /\ p_state p' = SLEEPING /\ p_chan p' = ChSleeplock (SLInode i) /\
    k_icache s' !! i = Some ip /\ i_lock ip = i_lock dp') s.
Proof.
  intros Hf Hlk. unfold dirlink. apply wps_bind_wp, (wp_dirlookup_found name i dp'); [done|]. intros k s1 Hs1.
  pose proof Hd as [Henv _ _ _ _ Hi _ _ _]. pose proof (fss_env s0 me p Henv s1 l _ v Hs1) as (Hc & Hp & _ & Hh).
  pose proof (fss_icache _ _ _ _ _ Hs1) as Hic. assert (i < length ic)%nat as Hlt by now apply lookup_lt_Some in Hi.
  assert (k_icache s1 !! i = Some dp') as Hx by (rewrite Hic; now apply list_lookup_insert_eq).
  apply wps_bind. unfold iput. apply wps_bind. apply (wps_acquiresleep_locked i dp' me p); [done..|].
  exists dp', (p <| p_chan := ChSleeplock (SLInode i) |> <| p_state := SLEEPING |>). repeat split; try done.
  apply list_lookup_insert_eq. now apply lookup_lt_Some in Hp.
Qed.
End link.

(** ** The operations on a directory *)

(** dirlookup on a directory returns the inode of the first live entry with the given name, with one
    reference more in the inode cache, and the offset of that entry; it returns 0 and changes nothing when
    the directory has no such entry. *)
Theorem dirlookup_correct s0 me p start s l ic v bl i dp name : in_dir s0 me p start s l ic v bl i dp ->
  (forall inum, dir_get (v_data v) dp name = Some inum -> is_Some (iget_slot ic 1 inum)) ->
  wp (dirlookup i name) (fun r s' => exists ic', fss s0 s' l ic' v /\
    match dir_get (v_data v) dp name with
    | None => r = None /\ ic' = ic
    | Some inum => exists j k ip ip', r = Some (j, DIRENT * Z.of_nat k) /\ dir_find (v_data v) dp name = Some k /\
        iget_slot ic 1 inum = Some j /\ ic !! j = Some ip /\ ic' = <[j := ip']> ic /\ i_dev ip' = 1 /\ i_inum ip' = inum /\ i_ref ip' = i_ref ip + 1
    end) s.
Proof.
  intros Hd Hslot. pose proof Hd as [Henv Hlay Hs Ht Hl Hi Hdir Hh Hm].
  apply (wp_dirlookup s0 me p start Henv Hlay s l ic v i dp name Hs Hi Hdir Hh (in_dir_use _ _ _ _ _ _ _ _ _ _ _ Hd) _ Hslot).
  intros r s' ic' Hr Hs'. exists ic'. split; [done|]. unfold looked_up in Hr. unfold dir_get. destruct (dir_find _ _ _) as [k|]; cbn; [|done].
  destruct Hr as (j & ip & Hj & Hip & -> & ->). exists j, k, ip, (igot 1 (de_inum (dirent_at (v_data v) dp k)) ip). repeat split; try done.
  all: destruct (iget_slot_some _ _ _ _ Hj) as (x & Hx & Hc); assert (x = ip) as -> by congruence.
  all: unfold igot; destruct (cached _ _ ip) eqn:E; cbn; unfold cached, recyclable in *; lia.
Qed.

(** C7: dirlink of a new name writes one entry: afterwards the directory maps that name to the inode number,
    every other name to what it was before, and is still a well-formed directory; the write stays inside the
    transaction and touches no block of another file. *)
Theorem dirlink_correct s0 me p start s l ic v bl i dp name inum : in_dir s0 me p start s l ic v bl i dp ->
  0 < inum < 65536 -> dir_get (v_data v) dp name = None ->
  i_size dp + DIRENT <= MAXFILE * BSIZE -> i_size dp + DIRENT <= capacity (k_sb s0) (v_data v) dp * BSIZE ->
  wp (dirlink i name inum) (fun r s' => r = 0 /\ exists l' v' bl' dp', linked s0 start ic v i dp name inum s' l' v' bl' dp') s.
Proof. intros Hd Hin Hget Hmax Hcap. now apply (wp_dirlink_new s0 me p start s l ic v bl i dp Hd). Qed.

(** dirlink of a name the directory already has fails with -1; the disk, the log and the directory are
    as before, and the reference that the lookup took is dropped again. *)
Theorem dirlink_existing s0 me p start s l ic v bl i dp name inum j ip : in_dir s0 me p start s l ic v bl i dp ->
  found_at ic v dp name j ip -> i_lock ip = mk_sleeplock 0 0 ->
  wp (dirlink i name inum) (fun r s' => r = -1 /\ fss s0 s' l (<[j := ip <| i_ref := i_ref ip - 1 |>]> ic) v) s.
Proof. intros Hd Hf Hlk. now apply (wp_dirlink_exists s0 me p start s l ic v bl i dp Hd). Qed.

(** C40: dirlink of a name that stands for the locked directory itself, as link("f", "d/.") asks for, never
    returns: iput goes to sleep on the sleeplock of the directory, which the sleeping process holds. *)
Theorem dirlink_dot_deadlock s0 me p start s l ic v bl i dp name inum dp' : in_dir s0 me p start s l ic v bl i dp ->
  found_at ic v dp name i dp' -> i_lock dp' = mk_sleeplock 1 (p_pid p) ->
  wps (dirlink i name inum) (fun _ _ => False) (fun s' => exists ip p', k_cur s' = Some me /\
    k_procs s' !! me = Some p' /\ p_state p' = SLEEPING /\ p_chan p' = ChSleeplock (SLInode i) /\
    k_icache s' !! i = Some ip /\ i_lock ip = mk_sleeplock 1 (p_pid p)) s.
Proof.
  intros Hd Hf Hlk. rewrite <- Hlk. apply (wps_dirlink_self s0 me p start s l ic v bl i dp Hd name inum dp'); [done|now rewrite Hlk].
Qed.

(** ** An example directory

    The directory of inode 1, with the entries "." and "d", locked by the running process; its only block is
    the block 35. *)

Definition ex_dir : inode := mk_inode 1 1 2 (mk_sleeplock 1 0) 1 T_DIR 0 0 1 32 (35 :: replicate 12 0).
Definition ex_entries : list Z := new_entry [46] 1 ++ new_entry [100] 3 ++ replicate 480 0.
Definition ex_dir_disk : gmap Z (list Z) :=
  {[ 1 := disk_block ex_fs_disk 1; 32 := splice (dinode_off 3) (encode_dinode ex_inode) (splice (dinode_off 1) (encode_dinode ex_dir) zero_block);
     34 := set_bit ex_map 35; 35 := ex_entries ]}.
Definition ex_dir_fs : kstate :=
  state_after binit
    ((one_proc_state zero_proc []) <| k_disk := ex_dir_disk |> <| k_sb := ex_sb |>
       <| k_icache := [ex_dir; ex_inode] |> <| k_log := mk_logst 2 30 1 0 1 0 (replicate 30 0) |>).

Lemma ex_dir_len bno : length (disk_block ex_dir_disk bno) = 512%nat.
Proof.
  unfold disk_block, ex_dir_disk. destruct (decide (bno = 1)) as [->|]; [now vm_compute|].
  destruct (decide (bno = 32)) as [->|]; [now vm_compute|].
  destruct (decide (bno = 34)) as [->|]; [now vm_compute|].
  destruct (decide (bno = 35)) as [->|]; [now vm_compute|].
  rewrite !lookup_insert_ne, lookup_singleton_ne by congruence. reflexivity.
Qed.

Lemma ex_dir_slot D bn : 0 <= bn -> slot D ex_dir bn = if bn =? 0 then 35 else 0.
Proof.
  intros H. unfold slot. destruct (Z.eqb_spec bn 0) as [->|Hne]; [done|]. destruct (bn <? NDIRECT); [|done].
  change (i_addrs ex_dir) with (35 :: replicate 12 0). replace (Z.to_nat bn) with (S (Z.to_nat (bn - 1))) by lia. cbn [lookup list_lookup].
  destruct (replicate 12 0 !! Z.to_nat (bn - 1)) eqn:E; [|done]. now apply lookup_replicate in E as [-> _].
Qed.

Lemma ex_dir_inv : dir_ok ex_sb (disk_block ex_dir_disk) ex_dir.
Proof.
  split; [|done..]. constructor.
  - constructor; try done.
    + intros bn [Hb _]. rewrite ex_dir_slot by done. destruct (bn =? 0); [|done]. intros _. split; [done|]. split; [now vm_compute|done].
    + intros a b [Ha _] [Hb _]. rewrite !ex_dir_slot by done. destruct (Z.eqb_spec a 0), (Z.eqb_spec b 0); lia.
  - split; [done|]. intros bn H1 H2. change (i_size ex_dir) with 32 in H2. unfold BSIZE in H2. rewrite ex_dir_slot by lia. now replace bn with 0 by lia.
  - now vm_compute.
  - constructor; try done. constructor; [done|]. now apply Forall_replicate.
  - done.
  - done.
Qed.

Lemma ex_dir_meta : meta_used ex_sb (disk_block ex_dir_disk).
Proof.
  assert (Forall (used ex_sb (disk_block ex_dir_disk)) (seqZ 0 35)) as H.
  { apply (bool_decide_unpack _). now vm_compute. }
  intros b Hb. rewrite list.Forall_forall in H. apply H, elem_of_seqZ. simpl in Hb. lia.
Qed.

(** A state with the example directory. *)
Definition ex_dir_in (s : kstate) : Prop :=
  k_sb s = ex_sb /\ kenv s 0 running_proc /\ binv s (v_init ex_dir_disk) /\
  k_icache s = [ex_dir; ex_inode] /\ k_log s = mk_logst 2 30 1 0 1 0 (replicate 30 0).

Lemma ex_dir_in_dir s : ex_dir_in s -> in_dir s 0 running_proc 2 s (k_log s) [ex_dir; ex_inode] (v_init ex_dir_disk) [] 0 ex_dir.
Proof.
  intros (E1 & E2 & E3 & E4 & E5). split; rewrite ?E1; try (exact ex_fs_layout || exact ex_dir_inv || exact ex_dir_meta || done).
  - split; [|done]. exists (k_bufs s), (k_procs s). split; [rewrite <- E4; now destruct s|apply woken_refl].
  - rewrite E5. split; [now repeat split|done|constructor|set_solver].
  - cbn. lia.
Qed.

Lemma ex_dir_fs_in : ex_dir_in ex_dir_fs.
Proof.
  unfold ex_dir_fs. apply (wp_state_after _ ex_dir_in). apply wp_binit; [apply (one_proc_fresh zero_proc)|apply ex_dir_len|].
  intros bs s' Hinv. split; [done|]. split; [now repeat split|]. split; [exact Hinv|done].
Qed.

Lemma ex_dir_get_d : dir_get (v_data (v_init ex_dir_disk)) ex_dir [100] = Some 3.
Proof. now vm_compute. Qed.

Lemma dirlookup_correct_witness : wp (dirlookup 0 [100]) (fun r _ => r = Some (1%nat, 16)) ex_dir_fs.
Proof.
  pose proof (ex_dir_in_dir _ ex_dir_fs_in) as Hd. pose proof ex_dir_get_d as Hg.
  eapply wp_mono; [apply (dirlookup_correct _ _ _ _ _ _ _ _ _ _ _ [100] Hd)|].
  - intros inum H. rewrite Hg in H. injection H as <-. now exists 1%nat.
  - cbn beta. rewrite Hg. intros r s' (ic' & _ & j & k & ip & ip' & -> & Hk & Hj & _).
    replace (dir_find _ _ _) with (Some 1%nat) in Hk by now vm_compute. injection Hk as <-. now injection Hj as <-.
Defined.

Lemma dirlink_correct_witness : wp (dirlink 0 [103] 3) (fun r _ => r = 0) ex_dir_fs.
Proof.
  pose proof (ex_dir_in_dir _ ex_dir_fs_in) as Hd. destruct ex_dir_fs_in as [Es _].
  eapply wp_mono; [apply (dirlink_correct _ _ _ _ _ _ _ _ _ _ _ [103] 3 Hd)|]; [lia|now vm_compute|done| |now intros r s' [-> _]].
  rewrite Es. replace (capacity _ _ _) with 64 by now vm_compute. done.
Defined.

Lemma dirlink_existing_witness : wp (dirlink 0 [100] 3) (fun r _ => r = -1) ex_dir_fs.
Proof.
  pose proof (ex_dir_in_dir _ ex_dir_fs_in) as Hd.
  eapply wp_mono; [apply (dirlink_existing _ _ _ _ _ _ _ _ _ _ _ [100] 3 1%nat (igot 1 3 ex_inode) Hd)|]; [|done|now intros r s' [-> _]].
  unfold found_at. rewrite ex_dir_get_d. split; [done|]. now exists ex_inode.
Defined.

Lemma dirlink_dot_deadlock_witness :
  wps (dirlink 0 [46] 3) (fun _ _ => False) (fun s' => exists p', k_procs s' !! 0%nat = Some p' /\ p_state p' = SLEEPING) ex_dir_fs.
Proof.
  pose proof (ex_dir_in_dir _ ex_dir_fs_in) as Hd.
  eapply wps_mono; [apply (dirlink_dot_deadlock _ _ _ _ _ _ _ _ _ _ _ [46] 3 (igot 1 1 ex_dir) Hd)|done|]; [|done|].
  - unfold found_at. replace (dir_get _ _ _) with (Some 1) by now vm_compute. split; [done|]. now exists ex_dir.
  - intros s' (ip & p' & _ & Hp & Hst & _). now exists p'.
Defined.
