(* ===== verification/Namei.v ===== *)
(** Paths: skipelem, namex, namei and nameiparent of fs.c.

    [path_elems] is the path cut at its slashes, [resolve] follows the names through the directories on the
    disk. namei returns the inode that [resolve] gives, with one reference more, and leaves every other
    reference of the inode cache as it was. *)

From stdpp Require Import base list gmap sets fin_sets strings numbers.
From Stdlib Require Import ZArith Lia.
From S2P Require Import Prelude Bytes CString Kstate Cons Sched Bio Bcache Log Commit Inode Fsblock Console.
From S2P Require Import Fsdata Fsfile Fsinode Fsop Filerw Directory.
Open Scope Z_scope.

(** ** The elements of a path *)

Fixpoint split_slash (path : list Z) : list (list Z) :=
  match path with
  | [] => [[]]
  | c :: path' =>
    if c =? 47 then [] :: split_slash path'
    else match split_slash path' with e :: es => (c :: e) :: es | [] => [[c]] end
  end.

Definition path_elems (path : list Z) : list (list Z) :=
  take (Z.to_nat DIRSIZ) <$> filter (fun e => e <> []) (split_slash path).

Lemma split_slash_cons c path : c <> 47 -> exists e es, split_slash path = e :: es /\ split_slash (c :: path) = (c :: e) :: es.
Proof.
  intros Hc. cbn. rewrite (proj2 (Z.eqb_neq c 47) Hc). assert (split_slash path <> []) as Hne.
  { clear. induction path as [|c path IH]; cbn; [done|]. destruct (c =? 47); [done|]. now destruct (split_slash path). }
  destruct (split_slash path) as [|e es]; [done|]. eauto.
Qed.

Lemma path_elems_slash path : path_elems (47 :: path) = path_elems path.
Proof. unfold path_elems. change (split_slash (47 :: path)) with ([] :: split_slash path). now rewrite filter_cons_False by tauto. Qed.

Lemma path_elems_skip path : path_elems (skip_slashes path) = path_elems path.
Proof. induction path as [|c path IH]; cbn [skip_slashes]; [done|]. destruct (Z.eqb_spec c 47) as [->|]; [now rewrite path_elems_slash|done]. Qed.

Lemma skip_slashes_head path : skip_slashes path = [] \/ exists c r, skip_slashes path = c :: r /\ c <> 47.
Proof. induction path as [|c path IH]; cbn; [now left|]. destruct (Z.eqb_spec c 47); [done|]. right. eauto. Qed.

Lemma skip_slashes_length path : (length (skip_slashes path) <= length path)%nat.
Proof. induction path as [|c path IH]; cbn; [done|]. destruct (c =? 47); cbn; lia. Qed.

Lemma take_elem_spec path e r : take_elem path = (e, r) -> path = e ++ r /\ (47 ∉ e) /\
  (r = [] /\ split_slash path = [e] \/ exists r', r = 47 :: r' /\ split_slash path = e :: split_slash r').
Proof.
  revert e r. induction path as [|c path IH]; intros e r; cbn [take_elem].
  { intros [= <- <-]. split; [done|]. split; [set_solver|]. now left. }
  destruct (Z.eqb_spec c 47) as [->|Hc].
  { intros [= <- <-]. split; [done|]. split; [set_solver|]. right. now exists path. }
  destruct (take_elem path) as [e' r'] eqn:E. intros [= <- <-]. destruct (IH e' r' eq_refl) as (-> & H1 & H2).
  split; [done|]. split; [now apply not_elem_of_cons|]. destruct (split_slash_cons c (e' ++ r') Hc) as (x & xs & E1 & ->).
  destruct H2 as [[-> H2]|(r & -> & H2)]; rewrite E1 in H2; injection H2 as -> ->; [now left|right; now exists r].
Qed.

Lemma path_elems_nil path : path_elems path = [] <-> skip_slashes path = [].
Proof.
  rewrite <- path_elems_skip. destruct (skip_slashes_head path) as [->|(c & r & -> & Hc)]; [done|].
  split; [|done]. destruct (split_slash_cons c r Hc) as (e & es & _ & H). unfold path_elems. rewrite H. now rewrite filter_cons_True.
Qed.

Lemma skipelem_None path : skipelem path = None <-> path_elems path = [].
Proof.
  rewrite path_elems_nil. unfold skipelem. destruct (skip_slashes path) as [|c r]; [done|]. destruct (take_elem (c :: r)). done.
Qed.

Lemma skipelem_Some path name rest : skipelem path = Some (name, rest) ->
  path_elems path = name :: path_elems rest /\ (length rest < length path)%nat /\ (rest = [] <-> path_elems rest = []) /\
  (0 < length name <= Z.to_nat DIRSIZ)%nat /\ (47 ∉ name).
Proof.
  unfold skipelem. pose proof (skip_slashes_length path) as Hl. rewrite <- (path_elems_skip path).
  destruct (skip_slashes_head path) as [->|(c & r & E & Hc)]; [done|]. rewrite E in *. destruct (take_elem (c :: r)) as [e t] eqn:Et.
  intros [= <- <-]. apply take_elem_spec in Et as (Ep & Hs & Hsp). destruct e as [|c' e].
  { exfalso. destruct Hsp as [[-> _]|(t' & -> & _)]; [done|]. injection Ep as -> _. done. }
  injection Ep as <- ->. pose proof (skip_slashes_length t) as Hl2. rewrite path_elems_nil. split; [|split; [|split; [|split]]].
  - rewrite path_elems_skip. unfold path_elems. destruct Hsp as [[-> ->]|(t' & -> & ->)]; rewrite filter_cons_True by done; done.
  - cbn in Hl. rewrite length_app in Hl. lia.
  - destruct (skip_slashes_head t) as [->|(c1 & r1 & -> & Hc1)]; [done|]. cbn. now rewrite (proj2 (Z.eqb_neq c1 47) Hc1).
  - rewrite length_take. change (Z.to_nat DIRSIZ) with 14%nat. cbn [length]. lia.
  - intros Hin. apply Hs. rewrite <- (take_drop (Z.to_nat DIRSIZ) (c :: e)). set_solver.
Qed.

(** A path made of names joined by slashes. *)
Definition join_slash (names : list (list Z)) : list Z := concat (cons 47 <$> names).

Lemma split_slash_app e r : 47 ∉ e -> split_slash (e ++ 47 :: r) = e :: split_slash r.
Proof.
  induction e as [|c e IH]; intros He; cbn; [done|]. apply not_elem_of_cons in He as [Hc He].
  rewrite (proj2 (Z.eqb_neq c 47)) by congruence. now rewrite IH.
Qed.

Lemma split_slash_one e : 47 ∉ e -> split_slash e = [e].
Proof.
  induction e as [|c e IH]; intros He; cbn; [done|]. apply not_elem_of_cons in He as [Hc He].
  rewrite (proj2 (Z.eqb_neq c 47)) by congruence. now rewrite IH.
Qed.

Definition is_name (name : list Z) : Prop := (0 < length name <= Z.to_nat DIRSIZ)%nat /\ (47 ∉ name).

Lemma path_elems_join names : Forall is_name names -> path_elems (join_slash names) = names.
Proof.
  induction 1 as [|n ns [Hl Hn] _ IH]; [done|]. unfold join_slash in *. cbn [fmap list_fmap concat app]. rewrite path_elems_slash.
  destruct ns as [|m ns].
  - cbn [fmap list_fmap concat]. rewrite app_nil_r. unfold path_elems. rewrite split_slash_one, filter_cons_True by (done || (destruct n; cbn in *; [lia|done])).
    cbn. f_equal. now apply take_ge.
  - unfold path_elems in *. cbn [fmap list_fmap concat app] in *. rewrite split_slash_app by done.
    change (split_slash (47 :: ?r)) with ([] :: split_slash r) in IH. rewrite filter_cons_False in IH by tauto.
    rewrite filter_cons_True by (destruct n; cbn in *; [lia|done]). rewrite fmap_cons, IH. f_equal. now apply take_ge.
Qed.

(** ** The directory tree on the disk *)

Lemma decode_valid d off ip : decode_dinode d off ((decode_dinode d off ip) <| i_valid := 1 |>) = (decode_dinode d off ip) <| i_valid := 1 |>.
Proof. unfold decode_dinode. destruct ip. reflexivity. Qed.

Section tree.
Context (sb : superblock) (D : Z -> list Z).

Definition disk_inode (n : Z) : inode :=
  decode_dinode (D (IBLOCK n sb)) (dinode_off n) (mk_inode 1 n 0 (mk_sleeplock 0 0) 0 0 0 0 0 0 []).

(** Inode [n] is allocated. *)
Definition alive (n : Z) : Prop := 0 < n < sb_ninodes sb /\ i_type (disk_inode n) <> 0.

(** The directories are well formed, they name allocated inodes only, and an allocated inode has a link. *)
Record tree_ok : Prop := {
  to_root : alive ROOTINO;
  to_dir : forall n, alive n -> i_type (disk_inode n) = T_DIR -> dir_ok sb D (disk_inode n);
  to_entry : forall n name m, alive n -> i_type (disk_inode n) = T_DIR -> dir_get D (disk_inode n) name = Some m -> alive m;
  to_link : forall n, alive n -> i_nlink (disk_inode n) <> 0
}.

(** Following the names from the inode [n]. *)
Fixpoint resolve (n : Z) (names : list (list Z)) : option Z :=
  match names with
  | [] => Some n
  | name :: names' =>
    if i_type (disk_inode n) =? T_DIR then m ← dir_get D (disk_inode n) name; resolve m names' else None
  end.

(** What namex does with the elements of the path; with [par] it stops at the directory of the last one. *)
Fixpoint walk (par : bool) (n : Z) (names : list (list Z)) : option (Z * list Z) :=
  match names with
  | [] => if par then None else Some (n, [])
  | name :: names' =>
    if i_type (disk_inode n) =? T_DIR then
      if par && bool_decide (names' = []) then Some (n, name)
      else m ← dir_get D (disk_inode n) name; walk par m names'
    else None
  end.

Lemma walk_resolve n names : fst <$> walk false n names = resolve n names.
Proof.
  revert n. induction names as [|x xs IH]; intros n; cbn; [done|]. destruct (_ =? T_DIR); [|done].
  destruct (dir_get D (disk_inode n) x); cbn; [apply IH|done].
Qed.

Lemma walk_parent n names name :
  walk true n (names ++ [name]) = (d ← resolve n names; if i_type (disk_inode d) =? T_DIR then Some (d, name) else None).
Proof.
  revert n. induction names as [|x xs IH]; intros n; cbn.
  - done.
  - destruct (_ =? T_DIR) eqn:E; [|done]. rewrite bool_decide_eq_false_2 by now destruct xs.
    destruct (dir_get D (disk_inode n) x); cbn; [apply IH|done].
Qed.

(** A loaded inode is the one on the disk, but for its reference count, lock and valid flag. *)
Definition in_memory (ip ip' : inode) : inode := ip' <| i_ref := i_ref ip |> <| i_lock := i_lock ip |> <| i_valid := i_valid ip |>.

Lemma synced_disk ip : i_dev ip = 1 -> synced sb D ip -> ip = in_memory ip (disk_inode (i_inum ip)).
Proof. intros Hd Hs. rewrite <- Hs at 1. destruct ip. cbn in *. now subst. Qed.

Lemma synced_memory ip ip' : synced sb D ip' -> ip = in_memory ip ip' -> synced sb D ip.
Proof.
  intros Hs ->. unfold synced in *. transitivity (in_memory ip (decode_dinode (D (IBLOCK (i_inum ip') sb)) (dinode_off (i_inum ip')) ip')).
  - now destruct ip, ip'.
  - rewrite Hs. now destruct ip.
Qed.

Lemma dir_get_memory ip ip' name : dir_get D (in_memory ip ip') name = dir_get D ip' name.
Proof. reflexivity. Qed.

Lemma dir_ok_memory ip ip' : dir_ok sb D ip' -> dir_ok sb D (in_memory ip ip').
Proof.
  intros [[[O1 O2 O3 O4 O5] Hho Hsy [F1 F2 F3 F4 F5 F6 F7] Hin Hty] H1 H2 H3]. constructor; try done. constructor; try done.
  now apply (synced_memory _ ip').
Qed.

(** ** The inode cache *)

(** The lock of a slot while [h] is the slot the process [pid] has locked. *)
Definition lock_of (pid : Z) (h : option nat) (k : nat) : sleeplock := if decide (h = Some k) then mk_sleeplock 1 pid else mk_sleeplock 0 0.

Record slot_ok (lk : sleeplock) (ip : inode) : Prop := {
  so_lock : i_lock ip = lk;
  so_ref : 0 <= i_ref ip;
  so_dev : 0 < i_ref ip -> i_dev ip = 1;
  so_alive : 0 < i_ref ip -> alive (i_inum ip);
  so_synced : 0 < i_ref ip -> i_valid ip <> 0 -> synced sb D ip
}.

Definition cache_ok (pid : Z) (h : option nat) (ic : list inode) : Prop := forall k ip, ic !! k = Some ip -> slot_ok (lock_of pid h k) ip.
End tree.

Definition refs (ic : list inode) : list Z := i_ref <$> ic.
Definition inums (ic : list inode) : list Z := i_inum <$> ic.

(** One reference more, or less, to the slot [i]. *)
Definition take_ref (i : nat) (rs : list Z) : list Z := alter (fun r => r + 1) i rs.
Definition drop_ref (i : nat) (rs : list Z) : list Z := alter (fun r => r - 1) i rs.

Lemma drop_take_ref i j rs : drop_ref i (take_ref j (take_ref i rs)) = take_ref j rs.
Proof.
  apply list_eq. intros k. unfold drop_ref, take_ref. destruct (decide (k = i)) as [->|Hi].
  - rewrite list_lookup_alter_eq. destruct (decide (j = i)) as [->|Hj].
    + rewrite !list_lookup_alter_eq. destruct (rs !! i) as [x|]; cbn; [f_equal; lia|done].
    + rewrite !(list_lookup_alter_ne _ _ j) by done. rewrite list_lookup_alter_eq. destruct (rs !! i) as [x|]; cbn; [f_equal; lia|done].
  - rewrite list_lookup_alter_ne by done. destruct (decide (j = k)) as [->|Hj].
    + rewrite !list_lookup_alter_eq, list_lookup_alter_ne by done. done.
    + now rewrite !list_lookup_alter_ne by done.
Qed.

Lemma drop_take_same i rs : drop_ref i (take_ref i rs) = rs.
Proof.
  apply list_eq. intros k. unfold drop_ref, take_ref. destruct (decide (k = i)) as [->|Hi].
  - rewrite !list_lookup_alter_eq. destruct (rs !! i) as [x|]; cbn; [f_equal; lia|done].
  - now rewrite !list_lookup_alter_ne by done.
Qed.

Lemma take_ref_ge j i rs r : rs !! i = Some r -> exists r', take_ref j rs !! i = Some r' /\ r <= r'.
Proof.
  intros H. unfold take_ref. destruct (decide (j = i)) as [->|Hne].
  - rewrite list_lookup_alter_eq, H. exists (r + 1). split; [done|lia].
  - rewrite list_lookup_alter_ne, H by done. now exists r.
Qed.

Lemma refs_insert ic i ip ip' (f : Z -> Z) : ic !! i = Some ip -> i_ref ip' = f (i_ref ip) -> refs (<[i := ip']> ic) = alter f i (refs ic).
Proof.
  intros Hi E. apply list_eq. intros k. unfold refs. rewrite list_lookup_fmap. destruct (decide (k = i)) as [->|Hk].
  - rewrite list_lookup_alter_eq, list_lookup_insert_eq, list_lookup_fmap, Hi by now apply lookup_lt_Some in Hi. cbn. now rewrite E.
  - now rewrite list_lookup_alter_ne, list_lookup_insert_ne, list_lookup_fmap by done.
Qed.

Lemma refs_insert_same ic i ip ip' : ic !! i = Some ip -> i_ref ip' = i_ref ip -> refs (<[i := ip']> ic) = refs ic.
Proof. intros Hi E. rewrite (refs_insert _ _ _ _ (fun x => x) Hi E). apply list_eq. intros k. destruct (decide (k = i)) as [->|Hk].
  - rewrite list_lookup_alter_eq. now destruct (refs ic !! i).
  - now rewrite list_lookup_alter_ne.
Qed.

Lemma inums_insert_same ic i ip ip' : ic !! i = Some ip -> i_inum ip' = i_inum ip -> inums (<[i := ip']> ic) = inums ic.
Proof. intros Hi E. unfold inums. rewrite list_fmap_insert, E. apply list_insert_id. now rewrite list_lookup_fmap, Hi. Qed.

Lemma cache_ok_insert sb D pid h h' ic i ip : cache_ok sb D pid h ic -> (forall k, k <> i -> lock_of pid h' k = lock_of pid h k) ->
  slot_ok sb D (lock_of pid h' i) ip -> cache_ok sb D pid h' (<[i := ip]> ic).
Proof.
  intros Hc Hl Hi k x Hk. destruct (decide (k = i)) as [->|Hne].
  - assert (i < length (<[i := ip]> ic))%nat as Hlt by now apply lookup_lt_Some in Hk. rewrite length_insert in Hlt.
    rewrite list_lookup_insert_eq in Hk by done. injection Hk as <-. done.
  - rewrite list_lookup_insert_ne in Hk by done. rewrite Hl by done. now apply Hc.
Qed.

Lemma lock_of_eq pid i : lock_of pid (Some i) i = mk_sleeplock 1 pid.
Proof. unfold lock_of. now rewrite decide_True. Qed.

Lemma lock_of_ne pid i k : k <> i -> lock_of pid (Some i) k = mk_sleeplock 0 0.
Proof. intros H. unfold lock_of. rewrite decide_False; [done|congruence]. Qed.

(** Two slots of the cache are free: namex holds a reference to one inode while it looks up the next. *)
Definition two_free (rs : list Z) : Prop := exists a b, a <> b /\ rs !! a = Some 0 /\ rs !! b = Some 0.

Lemma iget_slot_free ic dev n k ip : ic !! k = Some ip -> i_ref ip = 0 -> is_Some (iget_slot ic dev n).
Proof.
  intros Hk Hr. unfold iget_slot. destruct (find_idx (cached dev n) ic); [eauto|]. destruct (find_idx recyclable ic) eqn:E; [eauto|].
  apply list_elem_of_lookup_2 in Hk. pose proof (proj1 (find_idx_None _ _) E ip Hk) as H. unfold recyclable in H. lia.
Qed.

Lemma refs_lookup ic k r : refs ic !! k = Some r -> exists ip, ic !! k = Some ip /\ i_ref ip = r.
Proof. unfold refs. rewrite list_lookup_fmap. destruct (ic !! k) as [ip|]; cbn; [intros [= <-]; eauto|done]. Qed.

Lemma two_free_slot rs i ic dev n : two_free rs -> refs ic = take_ref i rs -> is_Some (iget_slot ic dev n).
Proof.
  intros (a & b & Hab & Ha & Hb) E. assert (exists k, refs ic !! k = Some 0) as [k Hk].
  { rewrite E. destruct (decide (i = a)) as [->|Hi]; [exists b|exists a]; unfold take_ref; now rewrite list_lookup_alter_ne. }
  apply refs_lookup in Hk as (ip & Hk & Hr). now apply iget_slot_free with k ip.
Qed.

Lemma slot_ok_got sb D lk n ip : slot_ok sb D lk ip -> alive sb D n -> cached 1 n ip = true \/ i_ref ip = 0 ->
  slot_ok sb D lk (igot 1 n ip) /\ i_inum (igot 1 n ip) = n /\ i_ref (igot 1 n ip) = i_ref ip + 1.
Proof.
  intros [S1 S2 S3 S4 S5] Ha Hc. unfold igot. destruct (cached 1 n ip) eqn:E.
  - unfold cached in E. apply andb_prop in E as [E Hn]. apply andb_prop in E as [Hr _]. apply Z.ltb_lt in Hr. apply Z.eqb_eq in Hn.
    split; [|done]. split; [done|cbn; lia|now intros _; apply S3|now intros _; apply S4|]. intros _ Hv. now apply (synced_memory _ _ _ ip (S5 Hr Hv)).
  - destruct Hc as [|Hr]; [done|]. split; [|split; [done|cbn; lia]]. now split.
Qed.

Section walk.
Context (s0 : kstate) (me : nat) (p : proc) (start : Z) (l : logst) (v : bview).
Hypothesis Henv : kenv s0 me p.
Abbreviation sb := (k_sb s0).
Abbreviation D := (v_data v).
Abbreviation pid := (p_pid p).
Hypothesis Hlay : layout sb start.
Hypothesis Hheld : v_held v = ∅.
Hypothesis Huse : (size (in_use v) < 30)%nat.
Hypothesis Htree : tree_ok sb D.

(** The inode in slot [i] after ilock has read it from the disk when it was not valid. *)
Definition locked_inode (ip : inode) : inode :=
  let ip1 := ip <| i_lock := mk_sleeplock 1 pid |> in
  if i_valid ip =? 0 then (decode_dinode (D (IBLOCK (i_inum ip) sb)) (dinode_off (i_inum ip)) ip1) <| i_valid := 1 |> else ip1.

Lemma fss_ilock_load s ic i ip (Q : unit -> kstate -> Prop) : fss s0 s l ic v -> ic !! i = Some ip ->
  slot_ok sb D (mk_sleeplock 0 0) ip -> 0 < i_ref ip ->
  (forall s', fss s0 s' l (<[i := locked_inode ip]> ic) v -> Q tt s') -> wp (ilock i) Q s.
Proof.
  intros Hs Hi [S1 S2 S3 S4 S5] Href HQ. specialize (S3 Href). destruct (S4 Href) as [Hn Hty]. unfold locked_inode in HQ.
  destruct (Z.eqb_spec (i_valid ip) 0) as [Hv|Hv]; [|apply (fss_ilock s0 me p Henv s l ic v i ip Hs Hi); [lia|now rewrite S1|done|done]].
  destruct (fss_ready s0 me p Henv s l ic v i ip Hs Hi) as [Hic Hr]. assert (i < length ic)%nat as Hlt by now apply lookup_lt_Some in Hi.
  unfold ilock. wp_steps. apply (wp_inode_at i ip); [done|]. apply wp_if_false; [lia|]. wp_steps.
  apply (wp_acquiresleep_inode i ip me p); [done..|now rewrite S1|]. rewrite (fss_icache _ _ _ _ _ Hs).
  set (ip1 := ip <| i_lock := mk_sleeplock 1 pid |>) in *. pose proof (fss_icache_set s0 s l ic (<[i := ip1]> ic) v Hs) as Hs1.
  assert (<[i := ip1]> ic !! i = Some ip1) as H1 by now apply list_lookup_insert_eq. generalize dependent (s <| k_icache := <[i := ip1]> ic |>).
  intros s1 Hs1. wp_steps. apply (fss_inode_at s0 s1 l (<[i := ip1]> ic) v i ip1); [done..|]. apply wp_when; [intros _|cbn; lia]. wp_steps.
  rewrite (fss_sb s0 _ _ _ _ Hs1). change (i_dev ip1) with (i_dev ip). change (i_inum ip1) with (i_inum ip). rewrite S3.
  destruct (iblock_range _ _ Hlay (i_inum ip) ltac:(lia)) as [_ Hb]. destruct (layout_bounds _ _ Hlay) as (B1 & B2 & B3 & _).
  set (b := IBLOCK (i_inum ip) sb) in *. assert (v_held v !! b = None) as Hhb by (rewrite Hheld; apply lookup_empty).
  apply (fss_bread s0 me p Henv s1 l (<[i := ip1]> ic) v Hs1); [unfold FSSIZE; lia|done|right; exact Huse|]. intros j s2 Hs2. wp_steps.
  eapply (fss_bdata s0 s2 _ _ _ Hs2); [apply lookup_insert_eq|]. change (v_data (v_hold b j pid v) b) with (D b). wp_steps.
  apply (fss_upd_inode s0 s2 l _ _ i ip1 _ _ Hs2 H1). intros s3 Hs3. rewrite list_insert_insert_eq in Hs3. wp_steps.
  apply (fss_brelse s0 me p Henv s3 _ _ _ Hs3 b j); [apply lookup_insert_eq|exact (fss_unmodified s0 s1 l (<[i := ip1]> ic) v b Hs1 Hhb)|].
  intros s4 Hs4. rewrite v_unlock_hold in Hs4 by done. wp_steps. set (ip2 := decode_dinode _ _ ip1) in *.
  eapply (fss_upd_inode s0 s4 l _ _ i ip2 _ _ Hs4); [now apply list_lookup_insert_eq|]. intros s5 Hs5. rewrite list_insert_insert_eq in Hs5.
  wp_steps. eapply (fss_inode_at s0 s5 l _ v i _ _ Hs5); [now apply list_lookup_insert_eq|].
  apply wp_when; [intros E; exfalso; apply Hty; cbn in E; apply Z.eqb_eq in E; exact E|]. intros _. now apply HQ.
Qed.

Abbreviation cok := (cache_ok sb D pid).

(** ilock of a slot that is in use. *)
Lemma wp_lock_slot s ic i ip (Q : unit -> kstate -> Prop) : fss s0 s l ic v -> cok None ic -> ic !! i = Some ip -> 0 < i_ref ip ->
  (forall s' ip', fss s0 s' l (<[i := ip']> ic) v -> cok (Some i) (<[i := ip']> ic) ->
     i_ref ip' = i_ref ip -> i_inum ip' = i_inum ip -> i_valid ip' <> 0 -> Q tt s') -> wp (ilock i) Q s.
Proof.
  intros Hs Hc Hi Href HQ. pose proof (Hc i ip Hi) as Hok. apply (fss_ilock_load s ic i ip Q Hs Hi Hok Href). intros s' Hs'.
  destruct Hok as [S1 S2 S3 S4 S5]. apply (HQ s' (locked_inode ip) Hs'); unfold locked_inode.
  - eapply cache_ok_insert; [exact Hc|intros k Hk; now rewrite lock_of_ne|]. rewrite lock_of_eq.
    destruct (Z.eqb_spec (i_valid ip) 0) as [E|E]; (split; [done|exact S2|exact S3|exact S4|]); [intros _ _; apply decode_valid|]. intros H1 H2. now apply (synced_memory _ _ _ ip (S5 H1 E)).
  - now destruct (i_valid ip =? 0).
  - now destruct (i_valid ip =? 0).
  - now destruct (Z.eqb_spec (i_valid ip) 0).
Qed.

Lemma wp_unlock_slot s ic i ip (Q : unit -> kstate -> Prop) : fss s0 s l ic v -> cok (Some i) ic -> ic !! i = Some ip -> 0 < i_ref ip ->
  (forall s', let ic' := <[i := ip <| i_lock := mk_sleeplock 0 0 |>]> ic in fss s0 s' l ic' v -> cok None ic' -> Q tt s') -> wp (iunlock i) Q s.
Proof.
  intros Hs Hc Hi Href HQ. pose proof (Hc i ip Hi) as [S1 S2 S3 S4 S5]. rewrite lock_of_eq in S1.
  apply (fss_iunlock s0 me p Henv s l ic v i ip Hs Hi); [lia|done|]. intros s' Hs'. apply (HQ s'); [done|].
  eapply cache_ok_insert; [exact Hc|intros k Hk; now rewrite lock_of_ne|]. split; try done. intros H1 H2. now apply (synced_memory _ _ _ ip (S5 H1 H2)).
Qed.

(** A loaded inode has a link. *)
Lemma slot_linked lk ip : slot_ok sb D lk ip -> 0 < i_ref ip -> i_valid ip = 0 \/ i_nlink ip <> 0 \/ i_ref ip <> 1.
Proof.
  intros [S1 S2 S3 S4 S5] Href. destruct (decide (i_valid ip = 0)) as [|Hv]; [now left|]. right. left.
  rewrite (synced_disk sb D ip) by auto. exact (to_link _ _ Htree _ (S4 Href)).
Qed.

Lemma wp_iput_slot s ic i ip (Q : unit -> kstate -> Prop) : fss s0 s l ic v -> cok None ic -> ic !! i = Some ip -> 0 < i_ref ip ->
  (forall s' ic', fss s0 s' l ic' v -> cok None ic' -> refs ic' = drop_ref i (refs ic) -> inums ic' = inums ic -> Q tt s') -> wp (iput i) Q s.
Proof.
  intros Hs Hc Hi Href HQ. pose proof (Hc i ip Hi) as Hok. pose proof (slot_linked _ _ Hok Href) as Hl. destruct Hok as [S1 S2 S3 S4 S5].
  apply (fss_iput s0 me p Henv s l ic v i ip); [done..|]. intros s' Hs'. eapply HQ; [exact Hs'| | |].
  - eapply cache_ok_insert; [exact Hc|done|]. split; try (cbn; auto with lia). intros H1 H2. cbn in H1, H2.
    now apply (synced_memory _ _ _ ip (S5 ltac:(lia) H2)).
  - now apply refs_insert with ip.
  - now apply inums_insert_same with ip.
Qed.

(** dirlookup in the locked directory in slot [i]. *)
Lemma wp_find_slot s ic i ip name (Q : option (nat * Z) -> kstate -> Prop) : fss s0 s l ic v -> cok (Some i) ic -> ic !! i = Some ip ->
  0 < i_ref ip -> i_valid ip <> 0 -> i_type (disk_inode sb D (i_inum ip)) = T_DIR -> (forall n, is_Some (iget_slot ic 1 n)) ->
  match dir_get D (disk_inode sb D (i_inum ip)) name with
  | None => forall s', fss s0 s' l ic v -> Q None s'
  | Some m => forall s' j ip' off, fss s0 s' l (<[j := ip']> ic) v -> cok (Some i) (<[j := ip']> ic) -> (j < length ic)%nat -> i_inum ip' = m ->
      refs (<[j := ip']> ic) = take_ref j (refs ic) -> Q (Some (j, off)) s'
  end -> wp (dirlookup i name) Q s.
Proof.
  intros Hs Hc Hi Href Hv Hty Hfree HQ. pose proof (Hc i ip Hi) as [S1 S2 S3 S4 S5].
  pose proof (synced_disk sb D ip (S3 Href) (S5 Href Hv)) as Eip. set (dk := disk_inode sb D (i_inum ip)) in *.
  assert (dir_ok sb D ip) as Hdir by (rewrite Eip; apply dir_ok_memory; exact (to_dir _ _ Htree _ (S4 Href) Hty)).
  assert (dir_get D ip name = dir_get D dk name) as Eg by (rewrite Eip; apply dir_get_memory).
  apply (wp_dirlookup s0 me p start Henv Hlay s l ic v i ip name Hs Hi Hdir Hheld Huse); [auto|].
  intros r s' ic' Hr Hs'. unfold looked_up in Hr. unfold dir_get in Eg at 1. destruct (dir_find D ip name) as [k|]; cbn in Eg.
  - assert (alive sb D (de_inum (dirent_at D ip k))) as Hal by exact (to_entry _ _ Htree _ name _ (S4 Href) Hty (eq_sym Eg)).
    rewrite <- Eg in HQ. destruct Hr as (j & x & Hj & Hx & -> & ->). destruct (iget_slot_some _ _ _ _ Hj) as (y & Hy & Hcy).
    assert (y = x) as -> by congruence. destruct (slot_ok_got _ _ _ _ _ (Hc j x Hx) Hal Hcy) as (G1 & G2 & G3).
    apply (HQ s' j (igot 1 (de_inum (dirent_at D ip k)) x)); [done| |now apply lookup_lt_Some in Hx|done|now apply refs_insert with x].
    eapply cache_ok_insert; [exact Hc|done|exact G1].
  - rewrite <- Eg in HQ. destruct Hr as [-> ->]. now apply HQ.
Qed.

Lemma wp_put_slot s ic i ip (Q : unit -> kstate -> Prop) : fss s0 s l ic v -> cok (Some i) ic -> ic !! i = Some ip -> 0 < i_ref ip ->
  (forall s' ic', fss s0 s' l ic' v -> cok None ic' -> refs ic' = drop_ref i (refs ic) -> inums ic' = inums ic -> Q tt s') -> wp (iunlockput i) Q s.
Proof.
  intros Hs Hc Hi Href HQ. unfold iunlockput. wp_steps. apply (wp_unlock_slot s ic i ip); [done..|]. intros s1 ic1 Hs1 Hc1.
  assert (i < length ic)%nat as Hlt by now apply lookup_lt_Some in Hi.
  apply (wp_iput_slot s1 ic1 i (ip <| i_lock := mk_sleeplock 0 0 |>)); [done|done|now apply list_lookup_insert_eq|done|].
  intros s2 ic2 Hs2 Hc2 R2 I2. apply (HQ s2 ic2 Hs2 Hc2).
  - rewrite R2. unfold ic1. now rewrite (refs_insert_same ic i ip).
  - rewrite I2. unfold ic1. now apply inums_insert_same with ip.
Qed.

(** The result of a walk from the inode [n], whose reference it consumes; [rs] are the other references. *)
Definition walked (par : bool) (n : Z) (names : list (list Z)) (rs : list Z) (r : option (nat * list Z)) (ic : list inode) : Prop :=
  cok None ic /\
  match walk sb D par n names with
  | None => r = None /\ refs ic = rs
  | Some (m, name) => exists j, r = Some (j, name) /\ inums ic !! j = Some m /\ refs ic = take_ref j rs
  end.

Lemma slot_held ic i n rs : Forall (fun r => 0 <= r) rs -> inums ic !! i = Some n -> refs ic = take_ref i rs ->
  exists ip, ic !! i = Some ip /\ i_inum ip = n /\ 0 < i_ref ip.
Proof.
  intros Hrs Hn Hr. unfold inums in Hn. rewrite list_lookup_fmap in Hn. destruct (ic !! i) as [ip|] eqn:E; [|done]. injection Hn as <-.
  exists ip. split; [done|]. split; [done|]. assert (refs ic !! i = Some (i_ref ip)) as H by (unfold refs; now rewrite list_lookup_fmap, E).
  rewrite Hr in H. unfold take_ref in H. rewrite list_lookup_alter_eq in H. destruct (rs !! i) as [r|] eqn:Er; [|done].
  injection H as <-. pose proof (Forall_lookup_1 _ _ _ _ Hrs Er) as H0. cbn in H0. lia.
Qed.

Lemma slot_type ip lk : slot_ok sb D lk ip -> 0 < i_ref ip -> i_valid ip <> 0 -> i_type ip = i_type (disk_inode sb D (i_inum ip)).
Proof. intros [S1 S2 S3 S4 S5] Href Hv. rewrite (synced_disk sb D ip) at 1 by auto. reflexivity. Qed.

(** One step of the loop: the body of namex for the element [name], [k] being the rest of the loop. *)
Lemma wp_namex_step rs (k : nat -> K (option (nat * list Z))) s ic i n name (last : bool) (Q : option (nat * list Z) -> kstate -> Prop) :
  Forall (fun r => 0 <= r) rs -> two_free rs -> fss s0 s l ic v -> cok None ic -> inums ic !! i = Some n -> refs ic = take_ref i rs ->
  (forall s' ic', fss s0 s' l ic' v -> cok None ic' ->
     if i_type (disk_inode sb D n) =? T_DIR then
       if last then inums ic' !! i = Some n -> refs ic' = take_ref i rs -> Q (Some (i, name)) s'
       else match dir_get D (disk_inode sb D n) name with
            | Some m => forall j, inums ic' !! j = Some m -> refs ic' = take_ref j rs -> wp (k j) Q s'
            | None => refs ic' = rs -> Q None s'
            end
     else refs ic' = rs -> Q None s') ->
  wp (ilock i ;; d ← inode_at i; if negb (i_type d =? T_DIR) then iunlockput i ;; ret None else if last then iunlock i ;; ret (Some (i, name)) else
      next ← dirlookup i name; match next with None => iunlockput i ;; ret None | Some (j, _) => iunlockput i ;; k j end) Q s.
Proof.
  intros Hrs Hfree Hs Hc Hn Hr HQ. destruct (slot_held ic i n rs Hrs Hn Hr) as (ip & Hi & Ein & Href). wp_steps.
  apply (wp_lock_slot s ic i ip); [done..|]. intros s1 ip1 Hs1 Hc1 R1 I1 V1. assert (i < length ic)%nat as Hlt by now apply lookup_lt_Some in Hi.
  assert (<[i := ip1]> ic !! i = Some ip1) as Hi1 by now apply list_lookup_insert_eq.
  pose proof (refs_insert_same ic i ip ip1 Hi R1) as Er. pose proof (inums_insert_same ic i ip ip1 Hi I1) as En.
  set (ic1 := <[i := ip1]> ic) in *. clearbody ic1. clear Hi Hs Hc Hlt. rewrite Hr in Er.
  assert (i_inum ip1 = n) as Ein1 by congruence. assert (0 < i_ref ip1) as Href1 by lia. clear ip R1 I1 Ein Href.
  pose proof (slot_type ip1 _ (Hc1 i ip1 Hi1) Href1 V1) as Ety. rewrite Ein1 in Ety. wp_steps. apply (fss_inode_at s0 s1 l ic1 v i ip1); [done..|].
  rewrite Ety. destruct (i_type (disk_inode sb D n) =? T_DIR) eqn:Et; cbn [negb].
  2: { wp_steps. apply (wp_put_slot s1 ic1 i ip1); [done..|]. intros s2 ic2 Hs2 Hc2 R2 _. wp_steps. apply (HQ s2 ic2 Hs2 Hc2).
       now rewrite R2, Er, drop_take_same. }
  destruct last.
  { wp_steps. apply (wp_unlock_slot s1 ic1 i ip1); [done..|]. intros s2 ic2 Hs2 Hc2. wp_steps. apply (HQ s2 ic2 Hs2 Hc2); unfold ic2.
    - now rewrite (inums_insert_same ic1 i ip1), En.
    - now rewrite (refs_insert_same ic1 i ip1), Er. }
  wp_steps. apply Z.eqb_eq in Et. apply (wp_find_slot s1 ic1 i ip1 name); [done..|now rewrite Ein1|intros m; now apply (two_free_slot rs i)|].
  rewrite Ein1. destruct (dir_get D (disk_inode sb D n) name) as [m|].
  - intros s2 j ip2 off Hs2 Hc2 Hj I2 R2. assert (inums (<[j := ip2]> ic1) !! j = Some m) as Hm
      by (unfold inums; rewrite list_lookup_fmap, list_lookup_insert_eq by done; cbn; now rewrite I2).
    set (ic2 := <[j := ip2]> ic1) in *.
    assert (exists ip3, ic2 !! i = Some ip3 /\ 0 < i_ref ip3) as (ip3 & Hi3 & Href3).
    { destruct (take_ref_ge j i (refs ic1) (i_ref ip1)) as (r & Hr2 & Hge); [unfold refs; now rewrite list_lookup_fmap, Hi1|].
      rewrite <- R2 in Hr2. apply refs_lookup in Hr2 as (x & Hx & <-). exists x. split; [done|lia]. }
    wp_steps. apply (wp_put_slot s2 ic2 i ip3); [done..|]. intros s3 ic3 Hs3 Hc3 R3 I3. apply (HQ s3 ic3 Hs3 Hc3).
    + now rewrite I3.
    + rewrite R3, R2, Er. apply drop_take_ref.
  - intros s2 Hs2. wp_steps. apply (wp_put_slot s2 ic1 i ip1); [done..|]. intros s3 ic3 Hs3 Hc3 R3 _. wp_steps. apply (HQ s3 ic3 Hs3 Hc3).
    now rewrite R3, Er, drop_take_same.
Qed.

Lemma wp_namex_loop rs : Forall (fun r => 0 <= r) rs -> two_free rs ->
  forall fuel s ic i n path par (Q : option (nat * list Z) -> kstate -> Prop), fss s0 s l ic v -> cok None ic ->
  inums ic !! i = Some n -> refs ic = take_ref i rs -> (length path <= fuel)%nat ->
  (forall r s' ic', fss s0 s' l ic' v -> walked par n (path_elems path) rs r ic' -> Q r s') -> wp (namex_loop fuel i path par) Q s.
Proof.
  intros Hrs Hfree. induction fuel as [|fuel IH]; intros s ic i n path par Q Hs Hc Hn Hr Hlen HQ; cbn [namex_loop];
    destruct (skipelem path) as [[name rest]|] eqn:Esk.
  1: { apply skipelem_Some in Esk as (_ & ? & _). lia. }
  1, 3: apply skipelem_None in Esk; rewrite Esk in HQ; unfold walked in HQ; cbn [walk] in HQ; destruct par; wp_steps;
    [destruct (slot_held ic i n rs Hrs Hn Hr) as (ip & Hi & _ & Href); apply (wp_iput_slot s ic i ip); [done..|]; intros s1 ic1 Hs1 Hc1 R1 _;
      wp_steps; apply (HQ None s1 ic1 Hs1); rewrite R1, Hr, drop_take_same; done
    |apply (HQ (Some (i, [])) s ic Hs); eauto].
  apply skipelem_Some in Esk as (Ep & Hl & Hrest & _). rewrite Ep in HQ. unfold walked in HQ. cbn [walk] in HQ.
  rewrite <- (bool_decide_ext (rest = []) (path_elems rest = []) Hrest) in HQ.
  apply (wp_namex_step rs _ s ic i n name _ Q Hrs Hfree Hs Hc Hn Hr). intros s' ic' Hs' Hc'.
  destruct (_ =? T_DIR); [|intros R; now apply (HQ None s' ic' Hs')].
  destruct (par && _); [intros I R; apply (HQ _ s' ic' Hs'); eauto|].
  destruct (dir_get D (disk_inode sb D n) name) as [m|]; [|intros R; now apply (HQ None s' ic' Hs')].
  intros j I R. apply (IH s' ic' j m rest par Q Hs' Hc' I R); [lia|]. intros r s'' ic'' Hs'' Hw. now apply (HQ r s'' ic'' Hs'').
Qed.

(** ** The start of the walk *)

Lemma wp_iget_slot s ic n (Q : nat -> kstate -> Prop) : fss s0 s l ic v -> cok None ic -> alive sb D n -> two_free (refs ic) ->
  (forall j s' ic', fss s0 s' l ic' v -> cok None ic' -> inums ic' !! j = Some n -> refs ic' = take_ref j (refs ic) -> Q j s') -> wp (iget 1 n) Q s.
Proof.
  intros Hs Hc Ha (a & _ & _ & Hfree & _) HQ. apply refs_lookup in Hfree as (y & Hy & Hy0). destruct (iget_slot_free ic 1 n a y Hy Hy0) as [j Hj].
  destruct (iget_slot_some _ _ _ _ Hj) as (x & Hx & Hcx). destruct (slot_ok_got _ _ _ _ _ (Hc j x Hx) Ha Hcx) as (G1 & G2 & G3).
  apply (fss_iget s0 me p Henv s l ic v 1 n j x); [done..|]. intros s' Hs'. apply (HQ j s' _ Hs').
  - eapply cache_ok_insert; [exact Hc|done|exact G1].
  - unfold inums. rewrite list_lookup_fmap, list_lookup_insert_eq by now apply lookup_lt_Some in Hx. cbn. now rewrite G2.
  - now apply refs_insert with x.
Qed.

Lemma wp_idup_slot s ic i ip (Q : nat -> kstate -> Prop) : fss s0 s l ic v -> cok None ic -> ic !! i = Some ip -> 0 < i_ref ip ->
  (forall s' ic', fss s0 s' l ic' v -> cok None ic' -> inums ic' = inums ic -> refs ic' = take_ref i (refs ic) -> Q i s') -> wp (idup i) Q s.
Proof.
  intros Hs Hc Hi Href HQ. pose proof (fss_held s0 me p Henv s l ic v Hs) as Hh. pose proof (fss_icache _ _ _ _ _ Hs) as Hic. pose proof (Hc i ip Hi) as [S1 S2 S3 S4 S5].
  unfold idup. wp_steps. apply wp_acquire; [rewrite Hh; set_solver|]. wp_steps. apply (wp_upd_inode i _ ip); [cbn; now rewrite Hic|]. wp_steps.
  eapply wp_release_head; [cbn; now rewrite Hh|]. wp_steps. cbn [k_icache setf set_k_held]. rewrite Hic, locked_icache by done.
  set (ip1 := ip <| i_ref := i_ref ip + 1 |>). apply (HQ _ (<[i := ip1]> ic) (fss_icache_set s0 s l ic _ v Hs)).
  - eapply cache_ok_insert; [exact Hc|done|]. split; [done|cbn; lia|now intros _; apply S3|now intros _; apply S4|].
    intros _ Hv. now apply (synced_memory _ _ _ ip (S5 Href Hv)).
  - now apply inums_insert_same with ip.
  - now apply refs_insert with ip.
Qed.

(** The inode a path starts from. *)
Definition path_start (ic : list inode) (path : list Z) (n : Z) : Prop :=
  if bool_decide (head path = Some 47) then n = ROOTINO
  else exists c ip, p_cwd p = Some c /\ ic !! c = Some ip /\ 0 < i_ref ip /\ i_inum ip = n.

Lemma wp_namex s ic path par n (Q : option (nat * list Z) -> kstate -> Prop) : fss s0 s l ic v -> cok None ic -> two_free (refs ic) ->
  path_start ic path n -> (forall r s' ic', fss s0 s' l ic' v -> walked par n (path_elems path) (refs ic) r ic' -> Q r s') -> wp (namex path par) Q s.
Proof.
  intros Hs Hc Hfree Hst HQ. assert (Forall (fun r => 0 <= r) (refs ic)) as Hrs.
  { unfold refs. apply Forall_fmap, Forall_lookup_2. intros k ip Hk. exact (so_ref _ _ _ _ (Hc k ip Hk)). }
  unfold namex, path_start in *. wp_steps. destruct (bool_decide (head path = Some 47)).
  - subst n. apply (wp_iget_slot s ic ROOTINO); [done|done|apply Htree|done|]. intros j s1 ic1 Hs1 Hc1 I1 R1.
    now apply (wp_namex_loop (refs ic) Hrs Hfree _ s1 ic1 j ROOTINO).
  - destruct Hst as (c & ip & Hcwd & Hip & Href & <-). pose proof (fss_env s0 me p Henv s l ic v Hs) as (Hcur & Hp & _ & _).
    wp_steps. apply (wp_curproc me); [done|]. wp_steps. apply (wp_proc_at me p); [done|]. wp_steps.
    apply (wp_idup_slot s ic c ip); [done..|]. intros s1 ic1 Hs1 Hc1 I1 R1.
    apply (wp_namex_loop (refs ic) Hrs Hfree _ s1 ic1 c (i_inum ip)); [done|done| |done|done|done]. rewrite I1. unfold inums. now rewrite list_lookup_fmap, Hip.
Qed.
Lemma wp_namei s ic path n (Q : option nat -> kstate -> Prop) : fss s0 s l ic v -> cok None ic -> two_free (refs ic) -> path_start ic path n ->
  (forall r s' ic', fss s0 s' l ic' v -> cok None ic' ->
     match resolve sb D n (path_elems path) with
     | Some m => exists j, r = Some j /\ inums ic' !! j = Some m /\ refs ic' = take_ref j (refs ic)
     | None => r = None /\ refs ic' = refs ic
     end -> Q r s') -> wp (namei path) Q s.
Proof.
  intros Hs Hc Hfree Hst HQ. unfold namei. wp_steps. apply (wp_namex s ic path false n); [done..|].
  intros r s' ic' Hs' [Hc' Hw]. wp_steps. apply (HQ _ s' ic' Hs' Hc'). rewrite <- walk_resolve.
  destruct (walk _ _ _ _ _) as [[m name]|]; cbn; [|now destruct Hw as [-> ?]]. destruct Hw as (j & -> & Hw). now exists j.
Qed.
End walk.

(** ** namei and nameiparent *)

Lemma exists_last_or_nil {A} (xs : list A) : xs = [] \/ exists ys y, xs = ys ++ [y].
Proof. destruct xs as [|x xs] using rev_ind; [now left|right; eauto]. Qed.

(** A process that walks the tree of the file system: the inode cache agrees with the disk, no inode is
    locked, two slots of the cache are free, and a buffer is left for every bread. *)
Record walker (s0 : kstate) (me : nat) (p : proc) (start : Z) (s : kstate) (l : logst) (ic : list inode) (v : bview) : Prop := {
  wk_env : kenv s0 me p;
  wk_layout : layout (k_sb s0) start;
  wk_fss : fss s0 s l ic v;
  wk_held : v_held v = ∅;
  wk_use : (size (in_use v) < 30)%nat;
  wk_tree : tree_ok (k_sb s0) (v_data v);
  wk_cache : cache_ok (k_sb s0) (v_data v) (p_pid p) None ic;
  wk_free : two_free (refs ic)
}.

(** skipelem takes the first element of a path: applied again and again it yields the parts between the
    slashes, empty parts left out; the name it copies has at least one and at most DIRSIZ bytes, so it fits the
    caller's buffer, and no slash; the rest of the path is shorter. *)
Theorem skipelem_correct path :
  match skipelem path with
  | None => path_elems path = []
  | Some (name, rest) => path_elems path = name :: path_elems rest /\ (length rest < length path)%nat /\
      (0 < length name <= Z.to_nat DIRSIZ)%nat /\ (47 ∉ name)
  end.
Proof.
  destruct (skipelem path) as [[name rest]|] eqn:E; [|now apply skipelem_None]. apply skipelem_Some in E. tauto.
Qed.

(** C6: namei returns the inode that the names of the path lead to through the directories on the disk, from
    the root or from the current directory, and takes exactly one reference to it; when a name is missing or
    is looked up in a file, it returns 0 and no reference is left behind. The disk is not changed. *)
Theorem namei_correct s0 me p start s l ic v path n : walker s0 me p start s l ic v -> path_start p ic path n ->
  wp (namei path) (fun r s' => exists ic', fss s0 s' l ic' v /\ cache_ok (k_sb s0) (v_data v) (p_pid p) None ic' /\
    match resolve (k_sb s0) (v_data v) n (path_elems path) with
    | Some m => exists j, r = Some j /\ inums ic' !! j = Some m /\ refs ic' = take_ref j (refs ic)
    | None => r = None /\ refs ic' = refs ic
    end) s.
Proof.
  intros [W1 W2 W3 W4 W5 W6 W7 W8] Hst. apply (wp_namei s0 me p start l v W1 W2 W4 W5 W6 s ic path n); [done..|].
  intros r s' ic' Hs' Hc' Hw. now exists ic'.
Qed.

(** nameiparent returns the directory that the names of the path before the last one lead to, with one
    reference, and the last name; it returns 0 and leaves no reference when there is no such directory, and
    when the path has no name at all. *)
Theorem nameiparent_correct s0 me p start s l ic v path n : walker s0 me p start s l ic v -> path_start p ic path n ->
  wp (nameiparent path) (fun r s' => exists ic', fss s0 s' l ic' v /\ cache_ok (k_sb s0) (v_data v) (p_pid p) None ic' /\
    ((exists names name d j, path_elems path = names ++ [name] /\ resolve (k_sb s0) (v_data v) n names = Some d /\
        i_type (disk_inode (k_sb s0) (v_data v) d) = T_DIR /\ r = Some (j, name) /\ inums ic' !! j = Some d /\ refs ic' = take_ref j (refs ic)) \/
     (r = None /\ refs ic' = refs ic /\ forall names name d, path_elems path = names ++ [name] -> resolve (k_sb s0) (v_data v) n names = Some d ->
        i_type (disk_inode (k_sb s0) (v_data v) d) <> T_DIR))) s.
Proof.
  intros [W1 W2 W3 W4 W5 W6 W7 W8] Hst. unfold nameiparent. apply (wp_namex s0 me p start l v W1 W2 W4 W5 W6 s ic path true n); [done..|].
  intros r s' ic' Hs' [Hc' Hw]. exists ic'. split; [done|]. split; [done|]. destruct (exists_last_or_nil (path_elems path)) as [E|(xs & x & E)]; rewrite E in *.
  - right. destruct Hw as [-> Hr]. split; [done|]. split; [done|]. intros names name d H. now destruct names.
  - rewrite walk_parent in Hw. destruct (resolve _ _ n xs) as [d|] eqn:Er; cbn [mbind option_bind] in Hw.
    + destruct (Z.eqb_spec (i_type (disk_inode (k_sb s0) (v_data v) d)) T_DIR) as [Et|Et].
      * left. destruct Hw as (j & -> & Hi & Hr). exists xs, x, d, j. eauto 10.
      * right. destruct Hw as [-> Hr]. split; [done|]. split; [done|]. intros names name d' [-> ->]%app_inj_tail H. congruence.
    + right. destruct Hw as [-> Hr]. split; [done|]. split; [done|]. intros names name d' [-> ->]%app_inj_tail H. congruence.
Qed.

(** ** An example tree

    The disk of the example directory, which is its root, with an empty inode cache. *)

Definition ex_slot : inode := mk_inode 0 0 0 (mk_sleeplock 0 0) 0 0 0 0 0 0 [].
Definition ex_tree_fs : kstate :=
  state_after binit
    ((one_proc_state zero_proc []) <| k_disk := ex_dir_disk |> <| k_sb := ex_sb |>
       <| k_icache := replicate 3 ex_slot |> <| k_log := mk_logst 2 30 1 0 1 0 (replicate 30 0) |>).

Abbreviation ex_D := (disk_block ex_dir_disk).

Lemma ex_alive n : alive ex_sb ex_D n -> n = 1 \/ n = 3.
Proof.
  intros [Hn Ht]. change (sb_ninodes ex_sb) with 8 in Hn.
  assert (Forall (fun k => i_type (disk_inode ex_sb ex_D k) <> 0 -> k = 1 \/ k = 3) (seqZ 1 7)) as H.
  { apply (bool_decide_unpack _). now vm_compute. }
  rewrite list.Forall_forall in H. apply (H n); [apply elem_of_seqZ; lia|done].
Qed.

Lemma ex_tree_ok : tree_ok ex_sb ex_D.
Proof.
  assert (disk_inode ex_sb ex_D 1 = in_memory ex_slot ex_dir) as E1 by now vm_compute.
  assert (disk_inode ex_sb ex_D 3 = in_memory ex_slot ex_inode) as E3 by now vm_compute.
  assert (alive ex_sb ex_D 1 /\ alive ex_sb ex_D 3) as [A1 A3].
  { unfold alive. rewrite E1, E3. change (sb_ninodes ex_sb) with 8. cbn. split; split; (lia || done). }
  split.
  - exact A1.
  - intros n [-> | ->]%ex_alive Ht; [|now rewrite E3 in Ht]. rewrite E1. apply dir_ok_memory, ex_dir_inv.
  - intros n name m [-> | ->]%ex_alive Ht; [|now rewrite E3 in Ht]. rewrite E1, dir_get_memory. intros [_ Hm]%dir_get_in.
    replace (de_inum <$> dirents ex_D ex_dir) with [1; 3] in Hm by now vm_compute.
    apply elem_of_cons in Hm as [-> |Hm]; [done|]. apply list_elem_of_singleton in Hm as ->. done.
  - intros n [-> | ->]%ex_alive; [now rewrite E1|now rewrite E3].
Qed.

Definition ex_tree_in (s : kstate) : Prop :=
  k_sb s = ex_sb /\ kenv s 0 running_proc /\ binv s (v_init ex_dir_disk) /\ k_icache s = replicate 3 ex_slot.

Lemma ex_walker s : ex_tree_in s -> walker s 0 running_proc 2 s (k_log s) (replicate 3 ex_slot) (v_init ex_dir_disk).
Proof.
  intros (E1 & E2 & E3 & E4). split; rewrite ?E1; try (exact E2 || exact ex_fs_layout || exact ex_tree_ok || done).
  - split; [|done]. exists (k_bufs s), (k_procs s). split; [rewrite <- E4; now destruct s|apply woken_refl].
  - apply Nat.ltb_lt. now vm_compute.
  - intros k ip [-> _]%lookup_replicate. split; done.
  - now exists 0%nat, 1%nat.
Qed.

Lemma ex_tree_fs_in : ex_tree_in ex_tree_fs.
Proof.
  unfold ex_tree_fs. apply (wp_state_after _ ex_tree_in). apply wp_binit; [apply (one_proc_fresh zero_proc)|apply ex_dir_len|].
  intros bs s' Hinv. split; [done|]. split; [now repeat split|]. split; [exact Hinv|done].
Qed.

(** The path "/d" leads to the inode 3. *)
Lemma namei_correct_witness : wp (namei [47; 100]) (fun r s' => exists j ic', r = Some j /\ inums ic' !! j = Some 3) ex_tree_fs.
Proof.
  pose proof ex_tree_fs_in as Hin. pose proof (ex_walker _ Hin) as Hw. destruct Hin as [Es _].
  eapply wp_mono; [apply (namei_correct _ _ _ _ _ _ _ _ [47; 100] 1 Hw); reflexivity|].
  cbn beta. intros r s' (ic' & _ & _ & H). rewrite Es in H.
  replace (resolve ex_sb _ 1 _) with (Some 3) in H by now vm_compute. destruct H as (j & -> & Hj & _). exists j, ic'. split; [reflexivity|exact Hj].
Defined.

(** The directory for the new name "/g" is the root. *)
Lemma nameiparent_correct_witness :
  wp (nameiparent [47; 103]) (fun r s' => exists j ic', r = Some (j, [103]) /\ inums ic' !! j = Some 1) ex_tree_fs.
Proof.
  pose proof ex_tree_fs_in as Hin. pose proof (ex_walker _ Hin) as Hw. destruct Hin as [Es _].
  eapply wp_mono; [apply (nameiparent_correct _ _ _ _ _ _ _ _ [47; 103] 1 Hw); reflexivity|].
  cbn beta. intros r s' (ic' & _ & _ & H). rewrite Es in H. change (path_elems [47; 103]) with ([] ++ [[103]]) in H. destruct H as [H|(_ & _ & H)].
  - destruct H as (names & name & d & j & [<- <-]%app_inj_tail & Hd & _ & -> & Hj & _). injection Hd as <-. exists j, ic'. split; [reflexivity|exact Hj].
  - exfalso. apply (H [] [103] 1); [done|done|now vm_compute].
Defined.
