(* ===== verification/Trunc.v ===== *)
(** Removing a file: itrunc and the part of iput of fs.c that frees an inode without links. *)

From stdpp Require Import base list gmap sets fin_sets strings numbers.
From Stdlib Require Import ZArith Lia.
From S2P Require Import Prelude Bytes CString Kstate Cons Sched Bio Bcache Log Commit Inode Fsblock Console.
From S2P Require Import Fsdata Fsfile Fsinode Fsop Filerw Directory.
Open Scope Z_scope.

(** ** Freeing blocks *)

Definition nonzero (xs : list Z) : list Z := filter (fun x => x <> 0) xs.

Section freed.
Context (sb : superblock).
Abbreviation bm := (sb_bmapstart sb).

(** The blocks [xs] are free in [D'] and nothing else differs from [D]. *)
Record freed (D : Z -> list Z) (xs : list Z) (D' : Z -> list Z) : Prop := {
  fr_same : forall k, k <> bm -> D' k = D k;
  fr_used : forall k, 0 <= k < FSSIZE -> (used sb D' k <-> used sb D k /\ k ∉ xs)
}.

Lemma freed_nil D : freed D [] D.
Proof. split; [done|]. intros k _. set_solver. Qed.

Lemma freed_app D xs D1 ys D2 : freed D xs D1 -> freed D1 ys D2 -> freed D (xs ++ ys) D2.
Proof.
  intros [A1 A2] [B1 B2]. split; [intros k Hk; now rewrite B1, A1|]. intros k Hk. rewrite B2, A2, elem_of_app by done. tauto.
Qed.

Lemma freed_one start D b : layout sb start -> length (D bm) = 512%nat -> data_block sb b -> freed D [b] (free_map sb D b).
Proof.
  intros Hl Hd Hb. split; [intros k Hk; unfold free_map; now rewrite dupd_ne|]. intros k Hk.
  rewrite (used_free sb start) by done. now rewrite list_elem_of_singleton.
Qed.

(** The blocks to free are blocks of the file that are in use. *)
Definition freeable (D : Z -> list Z) (xs : list Z) : Prop := NoDup xs /\ Forall (fun b => data_block sb b /\ used sb D b) xs.

Lemma freeable_freed start D xs ys D' : layout sb start -> freed D xs D' -> freeable D (xs ++ ys) -> freeable D' ys.
Proof.
  intros Hl [_ F2] [Hn Hf]. apply list.NoDup_app in Hn as (_ & Hx & Hn). apply Forall_app in Hf as [_ Hf]. split; [done|].
  rewrite list.Forall_forall in *. intros b Hb. destruct (Hf b Hb) as [Hd Hu]. split; [done|]. apply F2.
  - pose proof (lay_log _ _ Hl). pose proof (lay_ino _ _ Hl). pose proof (lay_map _ _ Hl). unfold data_block, LOGSIZE, MAXOPBLOCKS in *.
    assert (0 <= sb_ninodes sb / IPB) by (apply Z.div_pos; [lia|done]). lia.
  - split; [done|]. intros Hin. exact (Hx b Hin Hb).
Qed.
End freed.

(** The free map is the only block that freeing logs. *)
Definition map_logged (bm : Z) (bl bl' : list Z) : Prop := bl' = bl \/ bl' = bl_add bl bm.

Lemma bl_add_idem bl b : bl_add (bl_add bl b) b = bl_add bl b.
Proof. unfold bl_add at 1. rewrite decide_True; [done|]. apply elem_of_bl_add. now right. Qed.

Lemma map_logged_add bm bl bl' : map_logged bm bl bl' -> map_logged bm bl (bl_add bl' bm).
Proof. intros [-> | ->]; right; [done|apply bl_add_idem]. Qed.

Lemma map_logged_length bm bl bl' : map_logged bm bl bl' -> (length bl' <= length bl + 1)%nat.
Proof. intros [-> | ->]; [lia|]. unfold bl_add. case_decide; [lia|]. rewrite length_app. cbn. lia. Qed.

(** The inode with its first [k] block addresses set to 0. *)
Definition zeroed (k : nat) (ip : inode) : inode := ip <| i_addrs := replicate k 0 ++ drop k (i_addrs ip) |>.

Lemma zeroed_0 ip : zeroed 0 ip = ip.
Proof. now destruct ip. Qed.

Lemma zeroed_at k ip : (k <= length (i_addrs ip))%nat -> i_addrs (zeroed k ip) !! k = i_addrs ip !! k.
Proof. intros Hk. cbn. rewrite lookup_app_r, length_replicate, lookup_drop by (rewrite length_replicate; lia). f_equal. lia. Qed.

Lemma zeroed_S k ip a : i_addrs ip !! k = Some a -> <[k := 0]> (i_addrs (zeroed k ip)) = i_addrs (zeroed (S k) ip).
Proof.
  intros Ha. cbn [zeroed i_addrs setf set_i_addrs]. rewrite (drop_S _ _ _ Ha), insert_app_r_alt, length_replicate, Nat.sub_diag by (rewrite length_replicate; lia).
  cbn [list_insert insert]. rewrite replicate_S_end, <- app_assoc. done.
Qed.

Lemma zeroed_zero k ip : i_addrs ip !! k = Some 0 -> zeroed (S k) ip = zeroed k ip.
Proof.
  intros Ha. assert (i_addrs (zeroed (S k) ip) = i_addrs (zeroed k ip)) as E.
  { rewrite <- (zeroed_S k ip 0 Ha). apply list_insert_id. rewrite zeroed_at; [done|]. apply lookup_lt_Some in Ha. lia. }
  cbn [zeroed i_addrs setf set_i_addrs] in E. unfold zeroed. now rewrite E.
Qed.

(** The block numbers from the entry [j] on of an indirect block. *)
Definition ind_entries (d : list Z) (j m : nat) : list Z := (fun j => rd32 d (4 * j)) <$> seq j m.

Section trunc.
Context (s0 : kstate) (me : nat) (p : proc) (start : Z).
Hypothesis Henv : kenv s0 me p.
Abbreviation sb := (k_sb s0).
Abbreviation bm := (sb_bmapstart sb).
Hypothesis Hlay : layout sb start.
(** The transaction had logged [bl] before the blocks are freed, and locks the buffers [h]. *)
Context (bl : list Z) (h : gmap Z (nat * Z)) (md : gset Z).
Hypothesis Hroom : (size h + length bl < 28)%nat.
Hypothesis Hh : h !! bm = None.

(** The transaction while blocks are freed. *)
Record freeing (s : kstate) (l : logst) (ic : list inode) (v : bview) : Prop := {
  fg_fss : fss s0 s l ic v;
  fg_tx : exists bl', txl start l v bl' /\ map_logged bm bl bl';
  fg_held : v_held v = h;
  fg_mod : v_mod v = md
}.

Lemma wp_bfree_freed s l ic v b (Q : unit -> kstate -> Prop) : freeing s l ic v -> data_block sb b -> used sb (v_data v) b ->
  (forall s' l' v', freeing s' l' ic v' -> freed sb (v_data v) [b] (v_data v') -> Q tt s') -> wp (bfree 1 b) Q s.
Proof.
  intros [Hs (bl' & Ht & Hl) Hv Hm] Hb Hu HQ. pose proof (map_logged_length _ _ _ Hl) as Hlen.
  apply (wp_bfree s0 me p start Henv Hlay s l ic v bl' b); [done|done|now rewrite Hv|rewrite Hv; lia|done|done|]. intros s' l' v' Hs' Ht'.
  apply (HQ s' l' v'); [split; try done; exists (bl_add bl' bm); split; [done|now apply map_logged_add]|].
  apply (freed_one sb start); [done| |done]. apply (bi_len _ _ _ (fs_inv _ _ _ _ _ Hs)).
Qed.

(** The loop over the direct blocks, from the block [k] on. *)
Lemma wp_itrunc_direct i ip ic m : forall k s l v (Q : unit -> kstate -> Prop), length (i_addrs ip) = 13%nat -> (k + m = 12)%nat -> (i < length ic)%nat ->
  freeing s l (<[i := zeroed k ip]> ic) v -> freeable sb (v_data v) (nonzero (take m (drop k (i_addrs ip)))) ->
  (forall s' l' v', freeing s' l' (<[i := zeroed 12 ip]> ic) v' -> freed sb (v_data v) (nonzero (take m (drop k (i_addrs ip)))) (v_data v') -> Q tt s') ->
  wp (for_ (seq k m) (fun k => addr ← addr_at i (Z.of_nat k); when (negb (addr =? 0)) (bfree 1 addr ;; set_addr i (Z.of_nat k) 0))) Q s.
Proof.
  induction m as [|m IH]; intros k s l v Q Hlen Hkm Hi Hf Hfr HQ; cbn [seq for_].
  { wp_steps. replace 12%nat with k in HQ by lia. apply (HQ s l v Hf). cbn. apply freed_nil. }
  destruct (lookup_lt_is_Some_2 (i_addrs ip) k ltac:(lia)) as [a Ha]. rewrite (drop_S _ _ _ Ha) in Hfr, HQ. cbn [take] in Hfr, HQ.
  assert (<[i := zeroed k ip]> ic !! i = Some (zeroed k ip)) as Hat by now apply list_lookup_insert_eq.
  unfold addr_at. wp_steps. apply (fss_inode_at s0 s l _ v i _ _ (fg_fss _ _ _ _ Hf) Hat). wp_steps. rewrite Nat2Z.id, zeroed_at, Ha by lia. wp_steps.
  unfold nonzero in *. destruct (decide (a = 0)) as [->|Hne].
  - apply wp_when; [done|intros _]. rewrite filter_cons_False in Hfr, HQ by tauto. apply (IH (S k) s l v); [done|lia|done| |done|done].
    now rewrite zeroed_zero.
  - rewrite filter_cons_True in Hfr, HQ by done. destruct Hfr as [Hnd Hfa]. pose proof (list.Forall_cons_1 _ _ _ Hfa) as [[Hd Hu] _].
    apply wp_when; [intros _|lia]. wp_steps. apply (wp_bfree_freed s l _ v a _ Hf Hd Hu). intros s1 l1 v1 Hf1 Hr1. wp_steps.
    unfold set_addr. destruct Hf1 as [G1 G2 G3 G4]. apply (fss_upd_inode s0 s1 l1 _ v1 i _ _ _ G1 Hat). rewrite list_insert_insert_eq, Nat2Z.id. intros s2 Hs2.
    rewrite (zeroed_S k ip a Ha) in Hs2. apply (IH (S k) s2 l1 v1); [done|lia|done|now split| |].
    + apply (freeable_freed sb start (v_data v) [a]); [done|done|now split].
    + intros s3 l3 v3 Hf3 Hr3. apply (HQ s3 l3 v3 Hf3). exact (freed_app sb _ [a] _ _ _ Hr1 Hr3).
Qed.

(** The loop over the entries of the indirect block [a], which is in the locked buffer [bp]. *)
Lemma wp_itrunc_indirect bp a pid ic m : forall j s l v (Q : unit -> kstate -> Prop), h !! a = Some (bp, pid) -> a <> bm ->
  freeing s l ic v -> freeable sb (v_data v) (nonzero (ind_entries (v_data v a) j m)) ->
  (forall s' l' v', freeing s' l' ic v' -> freed sb (v_data v) (nonzero (ind_entries (v_data v a) j m)) (v_data v') -> Q tt s') ->
  wp (for_ (seq j m) (fun j => d ← bdata bp; when (negb (rd32 d (4 * j) =? 0)) (bfree 1 (rd32 d (4 * j))))) Q s.
Proof.
  induction m as [|m IH]; intros j s l v Q Ha Hne Hf Hfr HQ; cbn [seq for_].
  { wp_steps. apply (HQ s l v Hf), freed_nil. }
  unfold ind_entries in Hfr, HQ. cbn [seq fmap list_fmap] in Hfr, HQ. fold (ind_entries (v_data v a) (S j) m) in Hfr, HQ.
  wp_steps. apply (fss_bdata s0 s l ic v (fg_fss _ _ _ _ Hf) a bp pid); [now rewrite (fg_held _ _ _ _ Hf)|]. wp_steps.
  set (x := rd32 (v_data v a) (4 * j)) in *. unfold nonzero in *. destruct (decide (x = 0)) as [E|E].
  - rewrite filter_cons_False in Hfr, HQ by tauto. apply wp_when; [lia|intros _]. now apply (IH (S j) s l v).
  - rewrite filter_cons_True in Hfr, HQ by done. destruct Hfr as [Hnd Hfa]. pose proof (list.Forall_cons_1 _ _ _ Hfa) as [[Hd Hu] _].
    apply wp_when; [intros _|lia]. apply (wp_bfree_freed s l _ v x _ Hf Hd Hu). intros s1 l1 v1 Hf1 Hr1.
    assert (v_data v1 a = v_data v a) as Ea by now apply (fr_same _ _ _ _ Hr1). apply (IH (S j) s1 l1 v1); [done|done|done| |]; rewrite Ea.
    + apply (freeable_freed sb start (v_data v) [x]); [done|done|now split].
    + intros s3 l3 v3 Hf3 Hr3. apply (HQ s3 l3 v3 Hf3). exact (freed_app sb _ [x] _ _ _ Hr1 Hr3).
Qed.
End trunc.

(** ** itrunc *)

(** The blocks a file holds: its data blocks and its indirect block. *)
Definition direct_blocks (ip : inode) : list Z := nonzero (take 12 (i_addrs ip)).
Definition indirect_blocks (D : Z -> list Z) (ip : inode) : list Z := nonzero (ind_entries (D (ind ip)) 0 128) ++ [ind ip].
Definition file_blocks (D : Z -> list Z) (ip : inode) : list Z :=
  direct_blocks ip ++ if decide (ind ip = 0) then [] else indirect_blocks D ip.

Lemma nonzero_app xs ys : nonzero (xs ++ ys) = nonzero xs ++ nonzero ys.
Proof. apply list.filter_app. Qed.

(** The data blocks are the non-zero slots of the file. *)
Lemma slots_blocks D ip : length (i_addrs ip) = 13%nat ->
  slot D ip <$> (Z.of_nat <$> seq 0 140) = take 12 (i_addrs ip) ++ (if decide (ind ip = 0) then replicate 128 0 else ind_entries (D (ind ip)) 0 128).
Proof.
  intros Hl. apply list_eq. intros k. rewrite !list_lookup_fmap. destruct (decide (k < 140)%nat) as [Hk|Hk].
  - rewrite lookup_seq_lt by done. cbn [fmap option_fmap option_map plus]. unfold slot, NDIRECT. destruct (decide (k < 12)%nat) as [Hd|Hd].
    + rewrite (proj2 (Z.ltb_lt _ _)) by lia. rewrite lookup_app_l by (rewrite length_take; lia). rewrite lookup_take, Nat2Z.id.
      destruct (lookup_lt_is_Some_2 (i_addrs ip) k ltac:(lia)) as [a ->]. now rewrite decide_True.
    + rewrite (proj2 (Z.ltb_ge _ _)) by lia. rewrite lookup_app_r by (rewrite length_take; lia). rewrite length_take, Hl. change (12 `min` 13)%nat with 12%nat.
      destruct (decide (ind ip = 0)) as [E|E].
      * rewrite (proj2 (Z.eqb_eq _ _) E), lookup_replicate_2 by lia. done.
      * rewrite (proj2 (Z.eqb_neq _ _) E). unfold ind_entries. rewrite list_lookup_fmap, lookup_seq_lt by lia. cbn [fmap option_fmap option_map]. do 2 f_equal. unfold ind_off, NDIRECT. lia.
  - rewrite lookup_seq_ge by lia. cbn [fmap option_fmap option_map]. symmetry. apply lookup_ge_None_2. rewrite length_app, length_take. case_decide; unfold ind_entries; rewrite ?length_replicate, ?length_fmap, ?length_seq; lia.
Qed.

Lemma nonzero_zeros n : nonzero (replicate n 0) = [].
Proof. unfold nonzero. induction n as [|n IH]; [done|]. cbn [replicate]. now rewrite filter_cons_False by tauto. Qed.

Lemma file_blocks_slots D ip : length (i_addrs ip) = 13%nat ->
  file_blocks D ip = nonzero (slot D ip <$> (Z.of_nat <$> seq 0 140)) ++ (if decide (ind ip = 0) then [] else [ind ip]).
Proof.
  intros Hl. unfold file_blocks, direct_blocks, indirect_blocks. rewrite (slots_blocks D ip Hl), nonzero_app. destruct (decide (ind ip = 0)).
  - now rewrite nonzero_zeros, !app_nil_r.
  - now rewrite app_assoc.
Qed.

Lemma elem_of_slots D ip k : k ∈ nonzero (slot D ip <$> (Z.of_nat <$> seq 0 140)) <-> k <> 0 /\ exists bn, in_file bn /\ slot D ip bn = k.
Proof.
  unfold nonzero. rewrite list_elem_of_filter. f_equiv. rewrite list_elem_of_fmap. unfold in_file. change MAXFILE with 140. split.
  - intros (bn & -> & Hb). apply list_elem_of_fmap in Hb as (j & -> & Hj%elem_of_seq). exists (Z.of_nat j). split; [lia|done].
  - intros (bn & Hb & <-). exists bn. split; [done|]. apply list_elem_of_fmap. exists (Z.to_nat bn). split; [lia|]. apply elem_of_seq. lia.
Qed.

Lemma elem_of_file_blocks D ip k : length (i_addrs ip) = 13%nat -> k ∈ file_blocks D ip <-> owned D ip k.
Proof.
  intros Hl. rewrite file_blocks_slots, elem_of_app, elem_of_slots by done. unfold owned. destruct (decide (ind ip = 0)) as [E|E].
  - split; [intros [H|H%not_elem_of_nil]; [tauto|done]|]. intros [H1 [H2|H2]]; [congruence|now left].
  - rewrite list_elem_of_singleton. split; [intros [H| ->]; tauto|]. intros [H1 [H2|H2]]; [now right|now left].
Qed.

Lemma NoDup_nonzero (f : Z -> Z) ks : NoDup ks -> (forall a b, a ∈ ks -> b ∈ ks -> f a <> 0 -> f a = f b -> a = b) -> NoDup (nonzero (f <$> ks)).
Proof.
  unfold nonzero. induction 1 as [|k ks Hk Hn IH]; intros Hf; cbn [fmap list_fmap]; [constructor|].
  destruct (decide (f k = 0)) as [E|E]; [rewrite filter_cons_False by tauto; apply IH; intros; apply Hf; auto; now right|].
  rewrite filter_cons_True by done. constructor; [|apply IH; intros; apply Hf; auto; now right].
  intros [_ (j & Hj & Hin)%list_elem_of_fmap]%list_elem_of_filter. apply Hk. rewrite (Hf k j); [done|left|now right|done|done].
Qed.

(** The blocks of a file can be freed. *)
Lemma file_blocks_freeable sb D ip : file_ok sb D ip -> freeable sb D (file_blocks D ip).
Proof.
  intros [_ Hl Hi Hs Hj]. split.
  - rewrite file_blocks_slots by done. apply list.NoDup_app. split; [|split].
    + apply NoDup_nonzero; [apply NoDup_fmap_2; [apply _|apply NoDup_seq]|]. intros a b Ha Hb. apply Hj; unfold in_file; change MAXFILE with 140.
      all: [> apply list_elem_of_fmap in Ha as (x & -> & Hx%elem_of_seq) | apply list_elem_of_fmap in Hb as (x & -> & Hx%elem_of_seq)]; lia.
    + intros k [Hk (bn & Hb & <-)]%elem_of_slots. destruct (Hs bn Hb Hk) as (_ & _ & Hne). destruct (decide (ind ip = 0)); [apply not_elem_of_nil|].
      now rewrite list_elem_of_singleton.
    + destruct (decide (ind ip = 0)); [constructor|apply NoDup_singleton].
  - apply list.Forall_forall. intros k Hk. apply elem_of_file_blocks in Hk as [Hk [E|(bn & Hb & <-)]]; [| |done].
    + rewrite E in *. auto.
    + destruct (Hs bn Hb Hk) as (H1 & H2 & _). done.
Qed.

(** The inode of an empty file. *)
Definition emptied (ip : inode) : inode := ip <| i_size := 0 |> <| i_addrs := replicate 13 0 |>.

Lemma zeroed_13 ip : length (i_addrs ip) = 13%nat -> (zeroed 13 ip) <| i_size := 0 |> = emptied ip.
Proof. intros Hl. unfold zeroed, emptied. cbn [setf set_i_addrs i_addrs]. now rewrite drop_ge, app_nil_r by lia. Qed.

(** The file [ip] after itrunc: its blocks are free, the inode is an empty file on the disk as well, and the rest
    of the disk is as it was. *)
Record truncated (sb : superblock) (D : Z -> list Z) (ip : inode) (D' : Z -> list Z) : Prop := {
  tr_inv : file_inv sb D' (emptied ip);
  tr_meta : meta_used sb D';
  tr_used : forall k, 0 <= k < FSSIZE -> (used sb D' k <-> used sb D k /\ ~ owned D ip k);
  tr_frame : forall k, k <> sb_bmapstart sb -> k <> IBLOCK (i_inum ip) sb -> D' k = D k;
  tr_inodes : forall j, dinode_off j <> dinode_off (i_inum ip) ->
    slice (dinode_off j) 64 (D' (IBLOCK (i_inum ip) sb)) = slice (dinode_off j) 64 (D (IBLOCK (i_inum ip) sb))
}.

Section itrunc.
Context (s0 : kstate) (me : nat) (p : proc) (start : Z).
Hypothesis Henv : kenv s0 me p.
Abbreviation sb := (k_sb s0).
Abbreviation bm := (sb_bmapstart sb).
Hypothesis Hlay : layout sb start.
Context (bl : list Z).
Hypothesis Hroom : (length bl < 27)%nat.
Abbreviation freeing0 := (freeing s0 start bl ∅ ∅).

Lemma wp_itrunc_rest s l ic v i ip (Q : unit -> kstate -> Prop) : (i < length ic)%nat -> length (i_addrs ip) = 13%nat ->
  freeing0 s l (<[i := zeroed 12 ip]> ic) v -> ind ip <> 0 -> freeable sb (v_data v) (indirect_blocks (v_data v) ip) ->
  (forall s' l' v', freeing0 s' l' (<[i := zeroed 13 ip]> ic) v' -> freed sb (v_data v) (indirect_blocks (v_data v) ip) (v_data v') -> Q tt s') ->
  wp (bp ← bread 1 (ind ip);
      for_ (seq 0 128) (fun j => d ← bdata bp; when (negb (rd32 d (4 * j) =? 0)) (bfree 1 (rd32 d (4 * j)))) ;;
      brelse bp ;; addr ← addr_at i NDIRECT; bfree 1 addr ;; set_addr i NDIRECT 0) Q s.
Proof using Henv Hlay Hroom.
  intros Hi Hl [Hs (bl' & Ht & Hml) Hh Hm] Hne Hfr HQ. pose proof (map_logged_length _ _ _ Hml) as Hlen. set (a := ind ip) in *.
  destruct (layout_bounds _ _ Hlay) as (H1 & H2 & H3 & _). unfold indirect_blocks in Hfr, HQ. fold a in Hfr, HQ.
  assert (data_block sb a) as Hd by (destruct Hfr as [_ [_ [[Hd _] _]%list.Forall_cons_1]%Forall_app]; exact Hd). pose proof Hd as [Hd1 Hd2].
  assert (i_addrs ip !! 12%nat = Some a) as Ha by (destruct (lookup_lt_is_Some_2 (i_addrs ip) 12 ltac:(lia)) as [x E]; unfold a, ind; now rewrite E).
  assert (<[i := zeroed 12 ip]> ic !! i = Some (zeroed 12 ip)) as Hat by now apply list_lookup_insert_eq.
  pose proof (lay_map _ _ Hlay) as [H4 H5]. wp_steps. apply (fss_bread s0 me p Henv s l _ v Hs); [lia|rewrite Hh; apply lookup_empty| |].
  { apply (room_available start l v bl'); [done|]. unfold room. rewrite Hh, map_size_empty. lia. }
  intros bp s1 Hs1. wp_steps.
  apply (wp_itrunc_indirect s0 me p start Henv Hlay bl {[a := (bp, p_pid p)]} ∅) with (a := a) (pid := p_pid p) (l := l) (ic := <[i := zeroed 12 ip]> ic) (v := v_hold a bp (p_pid p) v).
  - rewrite map_size_singleton. lia.
  - apply lookup_singleton_ne. lia.
  - apply lookup_singleton_eq.
  - lia.
  - split; [done|exists bl'; split; [|done]; now destruct Ht|cbn; now rewrite Hh|done].
  - destruct Hfr as [[Hn _]%list.NoDup_app [Hf _]%Forall_app]. now split.
  - intros s2 l2 v2 [Hs2 (bl2 & Ht2 & Hml2) Hh2 Hm2] Hr2. cbn [v_data v_hold setf set_v_held] in Hr2. wp_steps.
    apply (fss_brelse s0 me p Henv s2 l2 _ v2 Hs2 a bp); [rewrite Hh2; apply lookup_singleton_eq|rewrite Hm2; set_solver|]. intros s3 Hs3. wp_steps.
    unfold addr_at. wp_steps. apply (fss_inode_at s0 s3 l2 _ _ i _ _ Hs3 Hat). wp_steps. change (Z.to_nat NDIRECT) with 12%nat. rewrite zeroed_at, Ha by lia. wp_steps.
    apply (wp_bfree_freed s0 me p start Henv Hlay bl ∅ ∅) with (l := l2) (ic := <[i := zeroed 12 ip]> ic) (v := v_unlock a v2); [rewrite map_size_empty; lia|apply lookup_empty| |done| |].
    + split; [done|exists bl2; split; [|done]; now destruct Ht2|cbn; rewrite Hh2; apply delete_singleton_eq|done].
    + cbn. apply (freeable_freed sb start (v_data v) (nonzero (ind_entries (v_data v a) 0 128)) [a] _ Hlay Hr2) in Hfr as [_ [[_ Hu] _]%list.Forall_cons_1]. exact Hu.
    + intros s4 l4 v4 [Hs4 Ht4 Hh4 Hm4] Hr4. cbn [v_data v_unlock setf set_v_held] in Hr4. unfold set_addr. apply (fss_upd_inode s0 s4 l4 _ v4 i _ _ _ Hs4 Hat).
      rewrite list_insert_insert_eq. intros s5 Hs5. change (Z.to_nat NDIRECT) with 12%nat in Hs5. rewrite (zeroed_S 12 ip a Ha) in Hs5.
      apply (HQ s5 l4 v4); [now split|]. exact (freed_app sb _ _ _ _ _ Hr2 Hr4).
Qed.
End itrunc.

Lemma emptied_slot D ip bn : in_file bn -> slot D (emptied ip) bn = 0.
Proof.
  intros Hb. unfold in_file in Hb. change MAXFILE with 140 in Hb. unfold slot, NDIRECT. change (ind (emptied ip)) with 0. cbn [Z.eqb]. destruct (Z.ltb_spec bn 12); [|done].
  cbn [emptied i_addrs setf set_i_addrs]. now rewrite lookup_replicate_2 by lia.
Qed.

Lemma emptied_fits ip : inode_fits ip -> inode_fits (emptied ip).
Proof. intros [? ? ? ? ? ? ?]. split; try done. cbn [emptied i_addrs setf set_i_addrs]. now apply Forall_replicate. Qed.

(** Freeing the blocks and writing the empty inode truncates the file. *)
Lemma truncated_put sb start D ip D1 : layout sb start -> (forall k, length (D1 k) = 512%nat) -> file_inv sb D ip -> meta_used sb D ->
  freed sb D (file_blocks D ip) D1 -> truncated sb D ip (put_inode sb D1 (emptied ip)).
Proof.
  intros Hlay Hlen [Hok Hho Hsy Hfi Hin Hty] Hmeta [F1 F2]. destruct (iblock_range _ _ Hlay _ Hin) as [_ Hr]. pose proof (fo_len _ _ _ Hok) as Hla.
  destruct (layout_bounds _ _ Hlay) as (H1 & H2 & H3 & _). pose proof (lay_map _ _ Hlay) as [H4 H5].
  set (b := IBLOCK (i_inum ip) sb) in *. assert (forall k, used sb (put_inode sb D1 (emptied ip)) k <-> used sb D1 k) as Hu.
  { intros k. unfold used, put_inode. fold b. rewrite dupd_ne; [done|]. change (i_inum (emptied ip)) with (i_inum ip). fold b. lia. }
  assert (forall k, owned D ip k -> data_block sb k) as Ho.
  { intros k Hk%elem_of_file_blocks; [|done]. pose proof (file_blocks_freeable sb D ip Hok) as [_ Hf]. rewrite list.Forall_forall in Hf. now destruct (Hf k Hk). }
  split.
  - split; [|split| | |done|done].
    + split; [apply Hok|done|done| |]; intros a; [intros Ha Hz|intros a' Ha _ Hz]; now rewrite emptied_slot in Hz.
    + done.
    + intros bn Hb Hz. change (i_size (emptied ip)) with 0 in Hz. unfold BSIZE in Hz. lia.
    + apply put_inode_synced; [done|now apply emptied_fits].
    + now apply emptied_fits.
  - intros k Hk. apply Hu, F2; [lia|]. split; [now apply Hmeta|]. intros [Hd _]%elem_of_file_blocks%Ho; [|done]. lia.
  - intros k Hk. now rewrite Hu, F2, elem_of_file_blocks by done.
  - intros k K1 K2. unfold put_inode. now rewrite dupd_ne, F1.
  - intros j Hj. fold b. rewrite <- (F1 b) by lia. now apply (put_inode_other sb D1 (emptied ip)).
Qed.

Section removal.
Context (s0 : kstate) (me : nat) (p : proc) (start : Z).
Hypothesis Henv : kenv s0 me p.
Abbreviation sb := (k_sb s0).
Abbreviation bm := (sb_bmapstart sb).
Hypothesis Hlay : layout sb start.

Lemma wp_itrunc s l ic v bl i ip (Q : unit -> kstate -> Prop) : fss s0 s l ic v -> txl start l v bl -> (length bl < 27)%nat -> ic !! i = Some ip ->
  file_inv sb (v_data v) ip -> meta_used sb (v_data v) -> v_held v = ∅ ->
  (forall s' l' v' bl', fss s0 s' l' (<[i := emptied ip]> ic) v' -> v_held v' = ∅ -> truncated sb (v_data v) ip (v_data v') ->
     txl start l' v' (bl_add bl' (IBLOCK (i_inum ip) sb)) -> map_logged bm bl bl' -> Q tt s') -> wp (itrunc i) Q s.
Proof using Henv Hlay.
  intros Hs Ht Hlen Hi Hinv Hmeta Hh HQ. pose proof Hinv as [Hok _ _ _ Hin _]. pose proof (fo_len _ _ _ Hok) as Hla. pose proof (lookup_lt_Some _ _ _ Hi) as Hil.
  assert (v_mod v = ∅) as Hm by (pose proof (bi_mod _ _ _ (fs_inv _ _ _ _ _ Hs)) as Hm; rewrite Hh in Hm; set_solver).
  assert (forall l' s' v', freeing s0 start bl ∅ ∅ s' l' (<[i := zeroed 13 ip]> ic) v' -> freed sb (v_data v) (file_blocks (v_data v) ip) (v_data v') ->
    wp (upd_inode i (fun ip => ip <| i_size := 0 |>) ;; iupdate i) Q s') as Hend.
  { clear s l Hs Ht. intros l s v1 [Hs (bl' & Ht & Hml) Hh1 _] Hf. pose proof (map_logged_length _ _ _ Hml). wp_steps.
    apply (fss_upd_inode s0 s l _ v1 i (zeroed 13 ip) _ _ Hs); [now apply list_lookup_insert_eq|]. rewrite list_insert_insert_eq, zeroed_13 by done. intros s1 Hs1. wp_steps.
    apply (wp_iupdate s0 me p start Henv Hlay s1 l (<[i := emptied ip]> ic) v1 bl' i (emptied ip)); [done|done|now apply list_lookup_insert_eq|apply Hok|done|done|done|lia|].
    intros s2 l2 v2 Hs2 Hh2 Hd2 Ht2. apply (HQ s2 l2 v2 bl'); [done|done| |done|done]. rewrite Hd2. apply (truncated_put sb start); try done.
    apply (bi_len _ _ _ (fs_inv _ _ _ _ _ Hs1)). }
  pose proof (file_blocks_freeable sb _ ip Hok) as Hfr. unfold itrunc. wp_steps. apply (fss_inode_at s0 s l ic v i ip _ Hs Hi). wp_steps.
  rewrite (fo_dev _ _ _ Hok). apply (wp_itrunc_direct s0 me p start Henv Hlay bl ∅ ∅) with (ip := ip) (ic := ic) (l := l) (v := v); [rewrite map_size_empty; lia|apply lookup_empty|done|done|done| | |].
  - rewrite zeroed_0, list_insert_id by done. split; [done|exists bl; split; [done|now left]|done|done].
  - destruct Hfr as [[Hn _]%list.NoDup_app [Hf _]%Forall_app]. now split.
  - intros s1 l1 v1 Hf1 Hr1. wp_steps. unfold addr_at. wp_steps.
    apply (fss_inode_at s0 s1 l1 _ v1 i (zeroed 12 ip) _ (fg_fss _ _ _ _ _ _ _ _ _ Hf1)); [now apply list_lookup_insert_eq|]. wp_steps. change (Z.to_nat NDIRECT) with 12%nat.
    destruct (lookup_lt_is_Some_2 (i_addrs ip) 12 ltac:(lia)) as [a Ha]. assert (ind ip = a) as Ea by (unfold ind; now rewrite Ha). rewrite zeroed_at, Ha by lia. wp_steps.
    change (nonzero _) with (direct_blocks ip) in Hr1. unfold file_blocks in Hfr, Hend. destruct (decide (ind ip = 0)) as [E|E].
    + apply wp_when; [lia|intros _]. rewrite app_nil_r in Hend. apply (Hend l1 s1 v1); [|done]. rewrite zeroed_zero; [done|congruence].
    + apply wp_when; [intros _|lia]. rewrite <- Ea. assert (v_data v1 (ind ip) = v_data v (ind ip)) as Ei.
      { apply (fr_same _ _ _ _ Hr1). destruct (fo_ind _ _ _ Hok E) as [[] _]. lia. }
      assert (indirect_blocks (v_data v1) ip = indirect_blocks (v_data v) ip) as Eb by (unfold indirect_blocks; now rewrite Ei).
      apply (wp_itrunc_rest s0 me p start Henv Hlay bl Hlen s1 l1 ic v1 i ip); [done|done|done|done| |].
      * rewrite Eb. exact (freeable_freed sb start _ _ _ _ Hlay Hr1 Hfr).
      * rewrite Eb. intros s2 l2 v2 Hf2 Hr2. apply (Hend l2 s2 v2 Hf2). exact (freed_app sb _ _ _ _ _ Hr1 Hr2).
Qed.

(** The inode after it was removed: no type, and for the cache no contents and no reference. *)
Definition removed_inode (ip : inode) : inode := (emptied ip) <| i_type := 0 |> <| i_valid := 0 |> <| i_ref := 0 |>.

(** The disk after the file [ip] was removed: its blocks are free, its inode is free, and the rest is as it was. *)
Record removed (D : Z -> list Z) (ip : inode) (D' : Z -> list Z) : Prop := {
  rm_used : forall k, 0 <= k < FSSIZE -> (used sb D' k <-> used sb D k /\ ~ owned D ip k);
  rm_inode : synced sb D' (removed_inode ip);
  rm_frame : forall k, k <> bm -> k <> IBLOCK (i_inum ip) sb -> D' k = D k;
  rm_inodes : forall j, dinode_off j <> dinode_off (i_inum ip) ->
    slice (dinode_off j) 64 (D' (IBLOCK (i_inum ip) sb)) = slice (dinode_off j) 64 (D (IBLOCK (i_inum ip) sb))
}.

(** The same inode but for the fields of the cache. *)
Lemma synced_cached D ip vl rf lk : synced sb D ip -> synced sb D (ip <| i_valid := vl |> <| i_ref := rf |> <| i_lock := lk |>).
Proof.
  unfold synced. intros H.
  transitivity ((decode_dinode (D (IBLOCK (i_inum ip) sb)) (dinode_off (i_inum ip)) ip) <| i_valid := vl |> <| i_ref := rf |> <| i_lock := lk |>);
    [reflexivity|now rewrite H].
Qed.

Lemma truncated_removed D ip lk D1 : layout sb start -> (forall k, length (D1 k) = 512%nat) -> inode_fits ip -> 0 <= i_inum ip < sb_ninodes sb ->
  truncated sb D (ip <| i_lock := lk |>) D1 -> removed D ip (put_inode sb D1 ((emptied (ip <| i_lock := lk |>)) <| i_type := 0 |>)).
Proof using.
  clear Hlay Henv. intros Hlay Hlen Hf Hin [T1 T2 T3 T4 T5]. destruct (iblock_range _ _ Hlay _ Hin) as [_ Hr]. cbn [i_inum setf set_i_lock] in *.
  set (ip2 := _ <| i_type := 0 |>). change (i_inum ip2) with (i_inum ip). assert (inode_fits ip2) as Hf2 by now destruct (emptied_fits _ Hf). split.
  - intros k Hk. rewrite <- T3 by done. unfold used, put_inode. change (i_inum ip2) with (i_inum ip). now rewrite dupd_ne by lia.
  - pose proof (put_inode_synced sb D1 ip2 Hlen Hf2) as Hs. apply (synced_cached _ _ 0 0 (i_lock ip)) in Hs. now destruct ip.
  - intros k K1 K2. unfold put_inode. change (i_inum ip2) with (i_inum ip). rewrite dupd_ne by done. now apply T4.
  - intros j Hj. rewrite <- T5 by done. now apply (put_inode_other sb D1 ip2).
Qed.

(** iput of the last reference to a file without links. *)
Lemma wp_iput_last s l ic v bl i ip (Q : unit -> kstate -> Prop) : fss s0 s l ic v -> txl start l v bl -> (length bl < 27)%nat -> ic !! i = Some ip ->
  i_lock ip = mk_sleeplock 0 0 -> i_valid ip <> 0 -> i_nlink ip = 0 -> i_ref ip = 1 ->
  file_inv sb (v_data v) ip -> meta_used sb (v_data v) -> v_held v = ∅ ->
  (forall s' l' v' bl', fss s0 s' l' (<[i := removed_inode ip]> ic) v' -> v_held v' = ∅ -> removed (v_data v) ip (v_data v') ->
     txl start l' v' (bl_add bl' (IBLOCK (i_inum ip) sb)) -> map_logged bm bl bl' -> Q tt s') -> wp (iput i) Q s.
Proof using Henv Hlay.
  intros Hs Ht Hlen Hi Hlk Hv Hnl Href Hinv Hmeta Hh HQ. pose proof (fss_icache _ _ _ _ _ Hs) as Hic. assert (i < length ic)%nat as Hlt by now apply lookup_lt_Some in Hi.
  assert (sl_ready (SLInode i) me p s) as Hr by (apply kenv_ready; now apply (fss_env s0 me p Henv s l ic v)).
  unfold iput. wp_steps. apply (wp_acquiresleep_inode i ip me p); [now rewrite Hic|done|now rewrite Hlk|].
  rewrite Hic. set (lk := mk_sleeplock 1 (p_pid p)). set (ip1 := ip <| i_lock := lk |>). pose proof (fss_icache_set s0 s l ic (<[i := ip1]> ic) v Hs) as Hs1.
  assert (forall x, <[i := x]> ic !! i = Some x) as Hx by (intros; now apply list_lookup_insert_eq).
  wp_steps. apply (fss_inode_at s0 _ l _ v i ip1 _ Hs1 (Hx _)). wp_steps. apply wp_when; [intros _|cbn; lia].
  set (s1 := s <| k_icache := _ |>) in *. clearbody s1. pose proof (fss_held s0 me p Henv _ _ _ _ Hs1) as Hh1. pose proof (fss_icache _ _ _ _ _ Hs1) as Hic1.
  wp_steps. apply wp_acquire; [rewrite Hh1; set_solver|]. wp_steps. apply (wp_inode_at i ip1); [cbn; now rewrite Hic1|]. wp_steps.
  eapply wp_release_head; [cbn; now rewrite Hh1|]. apply wp_when; [intros _|cbn; lia].
  match goal with |- wp _ _ ?y => replace y with s1 by (clear -Hh1; destruct s1; cbn in *; now subst) end. wp_steps.
  apply (wp_itrunc s1 l (<[i := ip1]> ic) v bl i ip1); [done|done|done|apply Hx|now apply file_inv_lock|done|done|].
  intros s2 l2 v2 bl2 Hs2 Hh2 Htr Ht2 Hml. rewrite list_insert_insert_eq in Hs2. wp_steps.
  apply (fss_upd_inode s0 s2 l2 _ v2 i (emptied ip1) _ _ Hs2 (Hx _)). rewrite list_insert_insert_eq. set (ip2 := (emptied ip1) <| i_type := 0 |>). intros s3 Hs3. wp_steps.
  apply (wp_iupdate s0 me p start Henv Hlay s3 l2 (<[i := ip2]> ic) v2 (bl_add bl2 (IBLOCK (i_inum ip) sb)) i ip2);
    [done|done|apply Hx|apply Hinv|done|apply Hinv|done| |].
  { pose proof (map_logged_length _ _ _ Hml). unfold bl_add. case_decide; [lia|]. rewrite length_app. cbn. lia. }
  intros s4 l4 v4 Hs4 Hh4 Hd4 Ht4. change (i_inum ip2) with (i_inum ip) in Ht4. rewrite bl_add_idem in Ht4. wp_steps.
  apply (fss_upd_inode s0 s4 l4 _ v4 i ip2 _ _ Hs4 (Hx _)). rewrite list_insert_insert_eq. set (ip3 := ip2 <| i_valid := 0 |>). intros s5 Hs5.
  pose proof (fss_icache _ _ _ _ _ Hs5) as Hic5. assert (sl_ready (SLInode i) me p s5) as Hr5 by (apply kenv_ready; exact (fss_env s0 me p Henv s5 l4 _ v4 Hs5)).
  wp_steps. apply (wp_releasesleep_inode i ip3 me p); [rewrite Hic5; apply Hx|done|]. rewrite Hic5, list_insert_insert_eq. set (ip4 := ip3 <| i_lock := _ |>).
  pose proof (fss_set_icache s0 s5 l4 _ v4 Hs5 (<[i := ip4]> ic) (wake (ChSleeplock (SLInode i)) <$> k_procs s5) (woken_wake _ _)) as Hs6.
  set (s6 := s5 <| k_icache := _ |> <| k_procs := _ |>) in *. clearbody s6. pose proof (fss_held s0 me p Henv _ _ _ _ Hs6) as Hh6. pose proof (fss_icache _ _ _ _ _ Hs6) as Hic6.
  wp_steps. apply wp_acquire; [rewrite Hh6; set_solver|]. wp_steps. apply (wp_upd_inode i _ ip4); [cbn; rewrite Hic6; apply Hx|]. wp_steps.
  eapply wp_release_head; [cbn; now rewrite Hh6|]. cbn [k_icache setf set_k_held]. rewrite Hic6, locked_icache, list_insert_insert_eq by done.
  replace (ip4 <| i_ref := i_ref ip4 - 1 |>) with (removed_inode ip) by (unfold removed_inode, ip4, ip3, ip2, ip1; clear -Hlk Href; destruct ip; cbn in *; now subst).
  apply (HQ _ l4 v4 bl2); [now apply (fss_icache_set s0 s6 l4 (<[i := ip4]> ic))|done| |done|done].
  rewrite Hd4. apply truncated_removed; [done|apply (bi_len _ _ _ (fs_inv _ _ _ _ _ Hs2))|apply Hinv|apply Hinv|done].
Qed.
End removal.

(** Slot [i] of the inode cache holds the last reference to a file that no directory names, in a transaction that
    has logged the blocks [bl]. *)
Record last_ref (s : kstate) (me : nat) (p : proc) (start : Z) (v : bview) (bl : list Z) (i : nat) (ip : inode) : Prop := {
  lr_env : kenv s me p;
  lr_layout : layout (k_sb s) start;
  lr_inv : binv s v;
  lr_tx : txl start (k_log s) v bl;
  lr_len : (length bl < 27)%nat;
  lr_inode : k_icache s !! i = Some ip;
  lr_lock : i_lock ip = mk_sleeplock 0 0;
  lr_valid : i_valid ip <> 0;
  lr_nlink : i_nlink ip = 0;
  lr_ref : i_ref ip = 1;
  lr_file : file_inv (k_sb s) (v_data v) ip;
  lr_meta : meta_used (k_sb s) (v_data v);
  lr_held : v_held v = ∅
}.

Lemma fss_refl s v : binv s v -> fss s s (k_log s) (k_icache s) v.
Proof. intros Hi. split; [|done]. exists (k_bufs s), (k_procs s). split; [now destruct s|apply woken_refl]. Qed.

(** C8: Removing a file. When the last reference to a file without links goes, iput (through itrunc, with its loops
    over the direct blocks and over the entries of the indirect block) returns and has freed exactly the blocks of
    the file: a block is in use afterwards if and only if it was and the file did not hold it. The inode is free on
    the disk and in the cache, no other inode and no other block but the free map has changed, and the transaction has
    logged at most the free map and the inode's block on top of what it had. *)
Theorem iput_removes_file s me p start v bl i ip : last_ref s me p start v bl i ip ->
  wp (iput i) (fun _ s' => exists l' v' bl', fss s s' l' (<[i := removed_inode ip]> (k_icache s)) v' /\ v_held v' = ∅ /\
    removed s (v_data v) ip (v_data v') /\ txl start l' v' bl' /\ (length bl' <= length bl + 2)%nat) s.
Proof.
  intros [H1 H2 H3 H4 H5 H6 H7 H8 H9 H10 H11 H12 H13].
  apply (wp_iput_last s me p start H1 H2 s (k_log s) (k_icache s) v bl i ip); [now apply fss_refl|done..|].
  intros s' l' v' bl' Hs' Hh' Hr Ht Hml. exists l', v', (bl_add bl' (IBLOCK (i_inum ip) (k_sb s))).
  pose proof (map_logged_length _ _ _ Hml). do 4 (split; [done|]). unfold bl_add. case_decide; [lia|]. rewrite length_app. cbn. lia.
Qed.

(** ** A witness: a file with a direct block, an indirect block and one block behind it *)

Definition ex_gone : inode := mk_inode 1 3 1 (mk_sleeplock 0 0) 1 T_FILE 0 0 0 512 (35 :: replicate 11 0 ++ [36]).
Definition ex_gone_disk : gmap Z (list Z) :=
  {[ 32 := splice (dinode_off 3) (encode_dinode ex_gone) zero_block; 34 := foldl set_bit zero_block (seq 0 38); 36 := wr32 zero_block 0 37 ]}.
Definition ex_gone_fs : kstate :=
  state_after binit
    ((one_proc_state zero_proc []) <| k_disk := ex_gone_disk |> <| k_sb := ex_sb |>
       <| k_icache := [ex_gone] |> <| k_log := mk_logst 2 30 1 0 1 0 (replicate 30 0) |>).

Lemma ex_gone_len bno : length (disk_block ex_gone_disk bno) = 512%nat.
Proof.
  unfold disk_block, ex_gone_disk. destruct (decide (bno = 32)) as [->|]; [now vm_compute|].
  destruct (decide (bno = 34)) as [->|]; [now vm_compute|]. destruct (decide (bno = 36)) as [->|]; [now vm_compute|].
  rewrite !lookup_insert_ne, lookup_singleton_ne by congruence. reflexivity.
Qed.

Lemma ex_gone_slot bn : in_file bn -> slot (disk_block ex_gone_disk) ex_gone bn = if bn =? 0 then 35 else if bn =? 12 then 37 else 0.
Proof.
  intros Hb. assert (Forall (fun bn => slot (disk_block ex_gone_disk) ex_gone bn = if bn =? 0 then 35 else if bn =? 12 then 37 else 0) (seqZ 0 140)) as H.
  { apply (bool_decide_unpack _). now vm_compute. }
  rewrite list.Forall_forall in H. apply H, elem_of_seqZ. unfold in_file in Hb. change MAXFILE with 140 in Hb. lia.
Qed.

Lemma ex_gone_inv : file_inv ex_sb (disk_block ex_gone_disk) ex_gone.
Proof.
  constructor.
  - constructor; try done.
    + intros bn Hb. rewrite ex_gone_slot by done. destruct (bn =? 0); [|destruct (bn =? 12); [|done]]; intros _; (split; [done|]; split; [now vm_compute|done]).
    + intros a b Ha Hb. rewrite !ex_gone_slot by done. destruct (Z.eqb_spec a 0), (Z.eqb_spec b 0), (Z.eqb_spec a 12), (Z.eqb_spec b 12); lia.
  - split; [done|]. intros bn H1 H2. change (i_size ex_gone) with 512 in H2. unfold BSIZE in H2. replace bn with 0 by lia. now vm_compute.
  - now vm_compute.
  - constructor; try done. repeat constructor; done.
  - done.
  - done.
Qed.

Lemma ex_gone_meta : meta_used ex_sb (disk_block ex_gone_disk).
Proof.
  assert (Forall (used ex_sb (disk_block ex_gone_disk)) (seqZ 0 35)) as H.
  { apply (bool_decide_unpack _). now vm_compute. }
  intros b Hb. rewrite list.Forall_forall in H. apply H, elem_of_seqZ. simpl in Hb. lia.
Qed.

Lemma ex_gone_last : last_ref ex_gone_fs 0 running_proc 2 (v_init ex_gone_disk) [] 0 ex_gone /\ k_sb ex_gone_fs = ex_sb.
Proof.
  unfold ex_gone_fs. apply (wp_state_after _ (fun s => last_ref s 0 running_proc 2 (v_init ex_gone_disk) [] 0 ex_gone /\ k_sb s = ex_sb)).
  apply wp_binit; [apply (one_proc_fresh zero_proc)|apply ex_gone_len|]. intros bs s' Hinv. split; [|done]. split;
    [now repeat split|exact ex_fs_layout|exact Hinv| |cbn; lia|reflexivity|reflexivity|discriminate|reflexivity|reflexivity|exact ex_gone_inv|exact ex_gone_meta|reflexivity].
  split; [now repeat split|reflexivity|constructor|set_solver].
Qed.

Lemma ex_gone_owned k : k ∈ [35; 36; 37] -> 0 <= k < FSSIZE /\ owned (disk_block ex_gone_disk) ex_gone k.
Proof.
  intros Hk. assert (k = 35 \/ k = 36 \/ k = 37) as [-> |[-> | ->]] by set_solver; (split; [done|]; split; [done|]).
  - right. exists 0. split; [done|]. now rewrite ex_gone_slot.
  - now left.
  - right. exists 12. split; [done|]. now rewrite ex_gone_slot.
Qed.

Lemma iput_removes_file_witness :
  wp (iput 0) (fun _ s' => exists l' ic' v', fss ex_gone_fs s' l' ic' v' /\ forall k, k ∈ [35; 36; 37] -> ~ used ex_sb (v_data v') k) ex_gone_fs.
Proof.
  destruct ex_gone_last as [Hl Es]. eapply wp_mono; [exact (iput_removes_file _ _ _ _ _ _ _ _ Hl)|].
  intros _ s' (l' & v' & bl' & Hs & _ & [Hu _ _ _] & _). rewrite Es in Hu. exists l', (<[0%nat := removed_inode ex_gone]> (k_icache ex_gone_fs)), v'. split; [exact Hs|].
  intros k [Hr Ho]%ex_gone_owned Hk. apply (Hu k Hr) in Hk as [_ Hk]. exact (Hk Ho).
Defined.
