(* ===== verification/Vm.v ===== *)
(** Page tables and user memory, vm.c (from walkpgdir on).

    A page directory or page table is a page of [k_mem]; a pde_t* or pte_t* is
    the kernel address of the entry. *)

From stdpp Require Import base list gmap strings numbers.
From Stdlib Require Import ZArith Lia.
From S2P Require Import Prelude Bytes Itoa Kstate Mmu Cons Kalloc Sched Inode Fsdata.
Open Scope Z_scope.

(** ** Bytes of kernel memory *)

Definition byte_of (w : Z) (k : Z) : Z := w / 256 ^ k mod 256.
Definition with_byte (w k b : Z) : Z := w + (b - byte_of w k) * 256 ^ k.

Definition load8 (a : Z) : K Z := w ← load32 (a - a mod 4); ret (byte_of w (a mod 4)).
Definition store8 (a b : Z) : K unit :=
  w ← load32 (a - a mod 4); store32 (a - a mod 4) (with_byte w (a mod 4) b).

Fixpoint load_bytes (a : Z) (n : nat) : K (list Z) :=
  match n with
  | O => ret []
  | S n' => b ← load8 a; bs ← load_bytes (a + 1) n'; ret (b :: bs)
  end.

Fixpoint store_bytes (a : Z) (bs : list Z) : K unit :=
  match bs with
  | [] => ret tt
  | b :: bs' => store8 a b ;; store_bytes (a + 1) bs'
  end.

(** memmove(dst, src, PGSIZE) between two pages. *)
Definition copy_page (dst src : Z) : K unit :=
  s ← get; pg ← of_opt "copy: no such page" (k_mem s !! src);
  modify (fun s => s <| k_mem := <[dst := pg]> (k_mem s) |>).

(** ** vm.c *)

Definition walkpgdir (pgdir va : Z) (alloc : bool) : K Z :=
  pde ← load32 (pgdir + 4 * PDX va);
  pgtab ← (if negb (Z.land pde PTE_P =? 0) then ret (P2V (PTE_ADDR pde)) else
           if negb alloc then ret 0 else
           pgtab ← kalloc;
           if pgtab =? 0 then ret 0 else
           fill_page pgtab 0 ;;
           store32 (pgdir + 4 * PDX va) (Z.lor (Z.lor (Z.lor (V2P pgtab) PTE_P) PTE_W) PTE_U) ;;
           ret pgtab);
  ret (if pgtab =? 0 then 0 else pgtab + 4 * PTX va).

(** The loop of mappages from page [a] to page [last]. *)
Fixpoint mappages_loop (fuel : nat) (pgdir a last pa perm : Z) : K Z :=
  match fuel with
  | O => nofuel
  | S fuel' =>
    pte ← walkpgdir pgdir a true;
    if pte =? 0 then ret (-1) else
    e ← load32 pte;
    if negb (Z.land e PTE_P =? 0) then panic "remap" else
    store32 pte (Z.lor (Z.lor pa perm) PTE_P) ;;
    if a =? last then ret 0 else
    mappages_loop fuel' pgdir (u32 (a + PGSIZE)) last (u32 (pa + PGSIZE)) perm
  end.

Definition mappages (pgdir va size pa perm : Z) : K Z :=
  let a := PGROUNDDOWN va in
  let last := PGROUNDDOWN (u32 (va + size - 1)) in
  mappages_loop (S (Z.to_nat (u32 (last - a) / PGSIZE))) pgdir a last pa perm.

(** The loop of deallocuvm from [a] on. *)
Fixpoint deallocuvm_loop (fuel : nat) (pgdir a oldsz : Z) : K unit :=
  if a <? oldsz then
    match fuel with
    | O => nofuel
    | S fuel' =>
      pte ← walkpgdir pgdir a false;
      if pte =? 0 then
        deallocuvm_loop fuel' pgdir (u32 (u32 (PGADDR (PDX a + 1) 0 0 - PGSIZE) + PGSIZE)) oldsz
      else
        e ← load32 pte;
        (if negb (Z.land e PTE_P =? 0) then
           let pa := PTE_ADDR e in
           if pa =? 0 then panic "kfree" else
           kfree (P2V pa) ;;
           store32 pte 0
         else ret tt) ;;
        deallocuvm_loop fuel' pgdir (u32 (a + PGSIZE)) oldsz
    end
  else ret tt.

Definition deallocuvm (pgdir oldsz newsz : Z) : K Z :=
  if oldsz <=? newsz then ret oldsz else
  let a := PGROUNDUP newsz in
  deallocuvm_loop (Z.to_nat ((oldsz - a + PGSIZE - 1) / PGSIZE)) pgdir a oldsz ;;
  ret newsz.

(** for(i = 0; i < NPDENTRIES; i++) if(pgdir[i] & PTE_P) kfree(...) *)
Definition freevm (pgdir : Z) : K unit :=
  if pgdir =? 0 then panic "freevm: no pgdir" else
  deallocuvm pgdir KERNBASE 0 ;;
  for_ (seq 0 (Z.to_nat NPDENTRIES)) (fun i =>
    e ← load32 (pgdir + 4 * Z.of_nat i);
    when (negb (Z.land e PTE_P =? 0)) (kfree (P2V (PTE_ADDR e)))) ;;
  kfree pgdir.

(** struct kmap kmap[]: virt, phys_start, phys_end, perm. *)
Definition kmap (sym : symbols) : list (Z * Z * Z * Z) :=
  [ (KERNBASE, 0, EXTMEM, PTE_W);
    (KERNLINK, V2P KERNLINK, V2P (sym_data sym), 0);
    (sym_data sym, V2P (sym_data sym), PHYSTOP, PTE_W);
    (DEVSPACE, DEVSPACE, 0, PTE_W) ].

Fixpoint setupkvm_loop (pgdir : Z) (ks : list (Z * Z * Z * Z)) : K Z :=
  match ks with
  | [] => ret pgdir
  | (virt, phys_start, phys_end, perm) :: ks' =>
    r ← mappages pgdir virt (u32 (phys_end - phys_start)) phys_start perm;
    if r <? 0 then freevm pgdir ;; ret 0 else setupkvm_loop pgdir ks'
  end.

Definition setupkvm : K Z :=
  pgdir ← kalloc;
  if pgdir =? 0 then ret 0 else
  fill_page pgdir 0 ;;
  if DEVSPACE <? P2V PHYSTOP then panic "PHYSTOP too high" else
  sym ← gets k_sym;
  setupkvm_loop pgdir (kmap sym).

Definition switchkvm : K unit := modify (fun s => s <| k_cr3 := V2P (k_kpgdir s) |>).

Definition kvmalloc : K unit :=
  pgdir ← setupkvm;
  modify (fun s => s <| k_kpgdir := pgdir |>) ;;
  switchkvm.

Definition switchuvm (i : nat) : K unit :=
  p ← proc_at i;
  if p_kstack p =? 0 then panic "switchuvm: no kstack" else
  if p_pgdir p =? 0 then panic "switchuvm: no pgdir" else
  modify (fun s => s <| k_esp0 := u32 (p_kstack p + KSTACKSIZE) |>) ;;
  modify (fun s => s <| k_cr3 := V2P (p_pgdir p) |>).

Definition inituvm (pgdir : Z) (init : list Z) : K unit :=
  if PGSIZE <=? Z.of_nat (length init) then panic "inituvm: more than a page" else
  mem ← kalloc;
  fill_page mem 0 ;;
  mappages pgdir 0 PGSIZE (V2P mem) (Z.lor PTE_W PTE_U) ;;
  store_bytes mem init.

Fixpoint loaduvm_loop (fuel : nat) (pgdir addr : Z) (ip : nat) (offset sz i : Z) : K Z :=
  if i <? sz then
    match fuel with
    | O => nofuel
    | S fuel' =>
      pte ← walkpgdir pgdir (u32 (addr + i)) false;
      if pte =? 0 then panic "loaduvm: address should exist" else
      e ← load32 pte;
      let pa := PTE_ADDR e in
      let n := if sz - i <? PGSIZE then sz - i else PGSIZE in
      '(r, bs) ← readi ip (u32 (offset + i)) n;
      store_bytes (P2V pa) bs ;;
      if negb (r =? n) then ret (-1) else
      loaduvm_loop fuel' pgdir addr ip offset sz (i + PGSIZE)
    end
  else ret 0.

Definition loaduvm (pgdir addr : Z) (ip : nat) (offset sz : Z) : K Z :=
  if negb (addr mod PGSIZE =? 0) then panic "loaduvm: addr must be page aligned" else
  loaduvm_loop (Z.to_nat ((sz + PGSIZE - 1) / PGSIZE)) pgdir addr ip offset sz 0.

Fixpoint allocuvm_loop (fuel : nat) (pgdir a oldsz newsz : Z) : K Z :=
  if a <? newsz then
    match fuel with
    | O => nofuel
    | S fuel' =>
      mem ← kalloc;
      if mem =? 0 then
        cprintf (str "allocuvm out of memory" ++ [10]) [] ;;
        deallocuvm pgdir newsz oldsz ;;
        ret 0
      else
      fill_page mem 0 ;;
      r ← mappages pgdir a PGSIZE (V2P mem) (Z.lor PTE_W PTE_U);
      if r <? 0 then
        cprintf (str "allocuvm out of memory (2)" ++ [10]) [] ;;
        deallocuvm pgdir newsz oldsz ;;
        kfree mem ;;
        ret 0
      else allocuvm_loop fuel' pgdir (u32 (a + PGSIZE)) oldsz newsz
    end
  else ret newsz.

Definition allocuvm (pgdir oldsz newsz : Z) : K Z :=
  if KERNBASE <=? newsz then ret 0 else
  if newsz <? oldsz then ret oldsz else
  let a := PGROUNDUP oldsz in
  allocuvm_loop (Z.to_nat ((newsz - a + PGSIZE - 1) / PGSIZE)) pgdir a oldsz newsz.

Definition clearpteu (pgdir uva : Z) : K unit :=
  pte ← walkpgdir pgdir uva false;
  if pte =? 0 then panic "clearpteu" else
  e ← load32 pte;
  store32 pte (Z.land e (not32 PTE_U)).

Fixpoint copyuvm_loop (fuel : nat) (pgdir d sz i : Z) : K Z :=
  if i <? sz then
    match fuel with
    | O => nofuel
    | S fuel' =>
      pte ← walkpgdir pgdir i false;
      if pte =? 0 then panic "copyuvm: pte should exist" else
      e ← load32 pte;
      if Z.land e PTE_P =? 0 then panic "copyuvm: page not present" else
      let pa := PTE_ADDR e in
      let flags := PTE_FLAGS e in
      mem ← kalloc;
      if mem =? 0 then freevm d ;; ret 0 else
      copy_page mem (P2V pa) ;;
      r ← mappages d i PGSIZE (V2P mem) flags;
      if r <? 0 then kfree mem ;; freevm d ;; ret 0 else
      copyuvm_loop fuel' pgdir d sz (i + PGSIZE)
    end
  else ret d.

Definition copyuvm (pgdir sz : Z) : K Z :=
  d ← setupkvm;
  if d =? 0 then ret 0 else
  copyuvm_loop (Z.to_nat ((sz + PGSIZE - 1) / PGSIZE)) pgdir d sz 0.

(** The C function reads *pte without a null check: a null pte is a fault. *)
Definition uva2ka (pgdir uva : Z) : K Z :=
  pte ← walkpgdir pgdir uva false;
  if pte =? 0 then fault "uva2ka: null pte" else
  e ← load32 pte;
  if Z.land e PTE_P =? 0 then ret 0 else
  if Z.land e PTE_U =? 0 then ret 0 else
  ret (P2V (PTE_ADDR e)).

Fixpoint copyout_loop (fuel : nat) (pgdir va : Z) (buf : list Z) (len : Z) : K Z :=
  if 0 <? len then
    match fuel with
    | O => nofuel
    | S fuel' =>
      let va0 := PGROUNDDOWN va in
      pa0 ← uva2ka pgdir va0;
      if pa0 =? 0 then ret (-1) else
      let n := Z.min (PGSIZE - (va - va0)) len in
      store_bytes (pa0 + (va - va0)) (take (Z.to_nat n) buf) ;;
      copyout_loop fuel' pgdir (u32 (va0 + PGSIZE)) (drop (Z.to_nat n) buf) (len - n)
    end
  else ret 0.

Definition copyout (pgdir va : Z) (p : list Z) (len : Z) : K Z :=
  copyout_loop (Z.to_nat len) pgdir va p len.
