(* ===== verification/Proc.v ===== *)
(** Processes and threads, proc.c: allocation, fork and clone, exit and
    thread_exit, wait and join, growproc, the stochastic scheduling policy and
    the scheduler. *)

From stdpp Require Import base list gmap strings numbers.
From Stdlib Require Import ZArith Lia.
From S2P Require Import Prelude Bytes CString Itoa Kstate Mmu Cons Kalloc Sched Bio Log Inode Fsdata.
From S2P Require Import Pipe File Vm.
Open Scope Z_scope.

(** ** User memory

    The kernel reads and writes user addresses through the page table of the
    current process: [translate] is what the MMU does for a kernel access. *)

Definition translate (pgdir va : Z) (write : bool) : K Z :=
  pde ← load32 (pgdir + 4 * PDX va);
  if Z.land pde PTE_P =? 0 then fault "page fault" else
  e ← load32 (P2V (PTE_ADDR pde) + 4 * PTX va);
  if (Z.land e PTE_P =? 0) || (write && (Z.land e PTE_W =? 0)) then fault "page fault" else
  ret (P2V (PTE_ADDR e) + va mod PGSIZE).

Definition uload8 (va : Z) : K Z :=
  me ← curproc; p ← proc_at me; a ← translate (p_pgdir p) va false; load8 a.
Definition uload32 (va : Z) : K Z :=
  b0 ← uload8 va; b1 ← uload8 (u32 (va + 1)); b2 ← uload8 (u32 (va + 2)); b3 ← uload8 (u32 (va + 3));
  ret (le_val [b0; b1; b2; b3]).
Definition ustore8 (va b : Z) : K unit :=
  me ← curproc; p ← proc_at me; a ← translate (p_pgdir p) va true; store8 a b.
Fixpoint ustore_bytes (va : Z) (bs : list Z) : K unit :=
  match bs with
  | [] => ret tt
  | b :: bs' => ustore8 va b ;; ustore_bytes (u32 (va + 1)) bs'
  end.
Definition ustore32 (va v : Z) : K unit := ustore_bytes va (le_bytes 4 v).

(** ** Allocation *)

(** What a trap frame on a fresh kernel stack holds: kfree filled the page
    with 1s. *)
Definition junk_tf : trapframe :=
  let w := 0x01010101 in let h := 0x0101 in
  mk_trapframe w w w w w w w w h h h h w w w h w w h.

(** sizeof(struct trapframe) and sizeof(struct context) *)
Definition sizeof_tf : Z := 76.
Definition sizeof_context : Z := 20.

Definition allocproc : K (option nat) :=
  acquire LPtable ;;
  ps ← gets k_procs;
  match find_idx (fun p => bool_decide (p_state p = UNUSED)) ps with
  | None => release LPtable ;; ret None
  | Some i =>
    pid ← gets k_nextpid;
    modify (fun s => s <| k_nextpid := s32 (pid + 1) |>) ;;
    upd_proc i (fun p => p <| p_state := EMBRYO |> <| p_pid := pid |>
                           <| p_isthread := 0 |> <| p_tgid := pid |> <| p_ustack := 0 |>
                           <| p_randstate := u32 pid |> <| p_randpct := 0 |>) ;;
    release LPtable ;;
    ks ← kalloc;
    upd_proc i (fun p => p <| p_kstack := ks |>) ;;
    if ks =? 0 then upd_proc i (fun p => p <| p_state := UNUSED |>) ;; ret None else
    sym ← gets k_sym;
    let sp := ks + KSTACKSIZE - sizeof_tf in
    upd_proc i (fun p => p <| p_tf := junk_tf |>) ;;
    store32 (sp - 4) (sym_trapret sym) ;;
    upd_proc i (fun p => p <| p_context := mk_context 0 0 0 0 (sym_forkret sym) |>) ;;
    ret (Some i)
  end.

(** safestrcpy(p->name, t, sizeof(p->name)) *)
Definition set_name (t : list Z) (p : proc) : proc :=
  p <| p_name := splice 0 (safestrcpy t 16) (p_name p) |>.

Definition userinit (initcode : list Z) : K unit :=
  o ← allocproc;
  i ← of_opt "userinit: no proc" o;
  modify (fun s => s <| k_initproc := Some i |>) ;;
  pgdir ← setupkvm;
  upd_proc i (fun p => p <| p_pgdir := pgdir |>) ;;
  if pgdir =? 0 then panic "userinit: out of memory?" else
  inituvm pgdir initcode ;;
  upd_proc i (fun p => p <| p_sz := PGSIZE |>) ;;
  upd_proc i (fun p => p <| p_tf :=
    mk_trapframe 0 0 0 0 0 0 0 0 0 0 35 35 0 0 0 27 0x200 PGSIZE 35 |>) ;;
  upd_proc i (set_name (str "initcode")) ;;
  cwd ← namei (str "/");
  upd_proc i (fun p => p <| p_cwd := cwd |>) ;;
  acquire LPtable ;;
  upd_proc i (fun p => p <| p_state := RUNNABLE |>) ;;
  release LPtable.

Definition growproc (n : Z) : K Z :=
  me ← curproc;
  p ← proc_at me;
  let sz := p_sz p in
  r ← (if 0 <? n then
         sz' ← allocuvm (p_pgdir p) sz (u32 (sz + n));
         ret (if sz' =? 0 then None else Some sz')
       else if n <? 0 then
         sz' ← deallocuvm (p_pgdir p) sz (u32 (sz + n));
         ret (if sz' =? 0 then None else Some sz')
       else ret (Some sz));
  match r with
  | None => ret (-1)
  | Some sz' =>
    upd_proc me (fun p => p <| p_sz := sz' |>) ;;
    switchuvm me ;;
    ret 0
  end.

(** for(i = 0; i < NOFILE; i++) if(curproc->ofile[i])
      np->ofile[i] = filedup(curproc->ofile[i]); *)
Definition dup_files (me np : nat) : K unit :=
  for_ (seq 0 (Z.to_nat NOFILE)) (fun fd =>
    p ← proc_at me;
    o ← of_opt "ofile" (p_ofile p !! fd);
    match o with
    | Some f => f' ← filedup f; upd_proc np (fun p => p <| p_ofile := <[fd := Some f']> (p_ofile p) |>)
    | None => ret tt
    end).

(** np->cwd = idup(curproc->cwd) *)
Definition dup_cwd (me np : nat) : K unit :=
  p ← proc_at me;
  cwd ← of_opt "cwd" (p_cwd p);
  c ← idup cwd;
  upd_proc np (fun p => p <| p_cwd := Some c |>).

Definition fork : K Z :=
  me ← curproc;
  o ← allocproc;
  match o with
  | None => ret (-1)
  | Some np =>
    cp ← proc_at me;
    pgdir ← copyuvm (p_pgdir cp) (p_sz cp);
    upd_proc np (fun p => p <| p_pgdir := pgdir |>) ;;
    if pgdir =? 0 then
      n ← proc_at np;
      kfree (p_kstack n) ;;
      upd_proc np (fun p => p <| p_kstack := 0 |> <| p_state := UNUSED |>) ;;
      ret (-1)
    else
    cp ← proc_at me;
    upd_proc np (fun p => p <| p_sz := p_sz cp |> <| p_parent := Some me |>
                            <| p_tgid := p_pid p |> <| p_randstate := p_randstate cp |>
                            <| p_randpct := p_randpct cp |>
                            <| p_tf := (p_tf cp) <| tf_eax := 0 |> |>) ;;
    dup_files me np ;;
    dup_cwd me np ;;
    upd_proc np (set_name (cstr (p_name cp))) ;;
    n ← proc_at np;
    acquire LPtable ;;
    upd_proc np (fun p => p <| p_state := RUNNABLE |>) ;;
    release LPtable ;;
    ret (p_pid n)
  end.

(** ** Threads *)

(** (uint)stack % PGSIZE || (uint)stack + PGSIZE > curproc->sz *)
Definition bad_stack (stack sz : Z) : bool :=
  negb (stack mod PGSIZE =? 0) || (sz <? u32 (stack + PGSIZE)).

Definition clone (fn arg stack : Z) : K Z :=
  me ← curproc;
  cp ← proc_at me;
  if bad_stack stack (p_sz cp) then ret (-1) else
  o ← allocproc;
  match o with
  | None => ret (-1)
  | Some np =>
    cp ← proc_at me;
    upd_proc np (fun p => p <| p_pgdir := p_pgdir cp |> <| p_sz := p_sz cp |>
                            <| p_parent := Some me |> <| p_isthread := 1 |>
                            <| p_tgid := p_tgid cp |> <| p_ustack := stack |>
                            <| p_randstate := Z.lxor (p_randstate cp) (u32 (p_pid p)) |>
                            <| p_randpct := p_randpct cp |>
                            <| p_tf := (p_tf cp) <| tf_eip := fn |> |>) ;;
    let sp := u32 (stack + PGSIZE) in
    let sp := u32 (sp - 4) in
    ustore32 sp arg ;;
    let sp := u32 (sp - 4) in
    ustore32 sp 0xffffffff ;;
    upd_proc np (fun p => p <| p_tf := (p_tf p) <| tf_esp := sp |> <| tf_eax := 0 |> |>) ;;
    dup_files me np ;;
    dup_cwd me np ;;
    upd_proc np (set_name (cstr (p_name cp))) ;;
    n ← proc_at np;
    acquire LPtable ;;
    upd_proc np (fun p => p <| p_state := RUNNABLE |>) ;;
    release LPtable ;;
    ret (p_pid n)
  end.

(** for(fd = 0; fd < NOFILE; fd++) if(curproc->ofile[fd]){
      fileclose(curproc->ofile[fd]); curproc->ofile[fd] = 0; } *)
Definition close_files (me : nat) : K unit :=
  for_ (seq 0 (Z.to_nat NOFILE)) (fun fd =>
    p ← proc_at me;
    o ← of_opt "ofile" (p_ofile p !! fd);
    match o with
    | Some f => fileclose f ;; upd_proc me (fun p => p <| p_ofile := <[fd := None]> (p_ofile p) |>)
    | None => ret tt
    end).

(** The channel a struct proc pointer denotes. *)
Definition chan_of (o : option nat) : chan := match o with Some i => ChProc i | None => ChNone end.

(** Pass abandoned children to init. *)
Definition reparent (me : nat) : K unit :=
  for_ (seq 0 (Z.to_nat NPROC)) (fun j =>
    q ← proc_at j;
    when (bool_decide (p_parent q = Some me))
      (init ← gets k_initproc;
       upd_proc j (fun p => p <| p_parent := init |>) ;;
       when (bool_decide (p_state q = ZOMBIE)) (wakeup1 (chan_of init)))).

Definition exit {A} : K A :=
  me ← curproc;
  init ← gets k_initproc;
  if bool_decide (Some me = init) then panic "init exiting" else
  close_files me ;;
  begin_op ;;
  p ← proc_at me;
  cwd ← of_opt "cwd" (p_cwd p);
  iput cwd ;;
  end_op ;;
  upd_proc me (fun p => p <| p_cwd := None |>) ;;
  acquire LPtable ;;
  p ← proc_at me;
  wakeup1 (chan_of (p_parent p)) ;;
  reparent me ;;
  upd_proc me (fun p => p <| p_state := ZOMBIE |>) ;;
  sched.

Definition thread_exit {A} : K A :=
  me ← curproc;
  p ← proc_at me;
  if p_isthread p =? 0 then exit else
  close_files me ;;
  begin_op ;;
  p ← proc_at me;
  match p_cwd p with Some cwd => iput cwd | None => ret tt end ;;
  end_op ;;
  upd_proc me (fun p => p <| p_cwd := None |>) ;;
  acquire LPtable ;;
  p ← proc_at me;
  wakeup1 (chan_of (p_parent p)) ;;
  upd_proc me (fun p => p <| p_state := ZOMBIE |>) ;;
  sched.

(** One pass of the loop of wait(); a woken parent runs it again. *)
Definition wait_scan : K Z :=
  me ← curproc;
  ps ← gets k_procs;
  match find_idx (fun p => bool_decide (p_parent p = Some me) && bool_decide (p_state p = ZOMBIE)) ps with
  | Some i =>
    p ← proc_at i;
    kfree (p_kstack p) ;;
    upd_proc i (fun p => p <| p_kstack := 0 |>) ;;
    freevm (p_pgdir p) ;;
    upd_proc i (fun p => p <| p_pid := 0 |> <| p_parent := None |>
                           <| p_name := <[0%nat := 0]> (p_name p) |> <| p_killed := 0 |>
                           <| p_state := UNUSED |>) ;;
    release LPtable ;;
    ret (p_pid p)
  | None =>
    cp ← proc_at me;
    if negb (existsb (fun p => bool_decide (p_parent p = Some me)) ps) || negb (p_killed cp =? 0)
    then release LPtable ;; ret (-1)
    else sleep (ChProc me) LPtable
  end.

Definition wait : K Z := acquire LPtable ;; wait_scan.

(** p->parent!=curproc || !p->isthread || (wanted > 0 && p->pid != wanted), negated *)
Definition joinable (me : nat) (wanted : Z) (p : proc) : bool :=
  bool_decide (p_parent p = Some me) && negb (p_isthread p =? 0) &&
  negb ((0 <? wanted) && negb (p_pid p =? wanted)).

(** One pass of the loop of join(). *)
Definition join_scan (wanted : Z) (stack : option Z) : K Z :=
  me ← curproc;
  ps ← gets k_procs;
  match find_idx (fun p => joinable me wanted p && bool_decide (p_state p = ZOMBIE)) ps with
  | Some i =>
    p ← proc_at i;
    match stack with Some a => ustore32 a (p_ustack p) | None => ret tt end ;;
    kfree (p_kstack p) ;;
    upd_proc i (fun p => p <| p_kstack := 0 |> <| p_pid := 0 |> <| p_parent := None |>
                           <| p_pgdir := 0 |> <| p_name := <[0%nat := 0]> (p_name p) |>
                           <| p_killed := 0 |> <| p_isthread := 0 |> <| p_ustack := 0 |>
                           <| p_state := UNUSED |>) ;;
    release LPtable ;;
    ret (p_pid p)
  | None =>
    cp ← proc_at me;
    if negb (existsb (joinable me wanted) ps) || negb (p_killed cp =? 0)
    then release LPtable ;; ret (-1)
    else sleep (ChProc me) LPtable
  end.

Definition join (wanted : Z) (stack : option Z) : K Z := acquire LPtable ;; join_scan wanted stack.

(** ** Stochastic scheduling *)

Definition random_config (seed pct : Z) : K unit :=
  me ← curproc;
  cp ← proc_at me;
  let pct := if pct <? 0 then 0 else pct in
  let pct := if 100 <? pct then 100 else pct in
  let seed := if seed =? 0 then 1 else seed in
  acquire LPtable ;;
  modify (fun s => s <| k_procs :=
    (fun p => if p_tgid p =? p_tgid cp
              then p <| p_randstate := Z.lxor seed (u32 (p_pid p)) |> <| p_randpct := pct |>
              else p) <$> k_procs s |>) ;;
  release LPtable.

(** x^=x<<13; x^=x>>17; x^=x<<5; on a uint *)
Definition xorshift (x : Z) : Z :=
  let x := Z.lxor x (u32 (Z.shiftl x 13)) in
  let x := Z.lxor x (Z.shiftr x 17) in
  Z.lxor x (u32 (Z.shiftl x 5)).

Definition random_should_yield : K bool :=
  me ← myproc;
  match me with
  | None => ret false
  | Some i =>
    p ← proc_at i;
    if p_randpct p <=? 0 then ret false else
    let x := xorshift (p_randstate p) in
    let x := if x =? 0 then 1 else x in
    upd_proc i (fun p => p <| p_randstate := x |>) ;;
    ret (s32 (x mod 100) <? p_randpct p)
  end.

(** ** The scheduler *)

(** scheduler(): the choice of process [i] in the scan of the table, up to
    the swtch() into it. *)
Definition scheduler_run (i : nat) : K unit :=
  modify (fun s => s <| k_cur := Some i |>) ;;
  switchuvm i ;;
  upd_proc i (fun p => p <| p_state := RUNNING |>).

(** ... and what follows the swtch() when the process gives the cpu back. *)
Definition scheduler_back : K unit :=
  switchkvm ;;
  modify (fun s => s <| k_cur := None |>).

(** A fork child's first scheduling switches here. *)
Definition forkret : K unit :=
  release LPtable ;;
  first ← gets k_first;
  when first
    (modify (fun s => s <| k_first := false |>) ;;
     iinit ROOTDEV ;;
     initlog ROOTDEV).
