(* ===== verification/Scheduler.v ===== *)
(** The scheduler of proc.c as a whole: its passes over the process table, each of which runs every process
    that is RUNNABLE when its turn comes.

    What a process does from the swtch() into it until its own call of sched() is the parameter [run]: it
    ends in [Switch], in the state of that call. [irq] is what the interrupts do that sti() lets in between
    two passes. *)

From stdpp Require Import base list gmap sets strings numbers.
From Stdlib Require Import ZArith Lia.
From S2P Require Import Prelude Bytes Kstate Mmu Sched Vm Proc.
Open Scope Z_scope.

Section scheduler.
Context (run : nat -> K unit) (irq : K unit).

(** swtch(&c->scheduler, p->context) returns when the process switches back. *)
Definition swtch (i : nat) : K unit := fun s =>
  match run i s with
  | Switch s' => Ok tt s'
  | Ok _ _ => Fault "a process returned to the scheduler"
  | Panic m => Panic m
  | Fault m => Fault m
  | OutOfFuel => OutOfFuel
  end.

(** The body of the inner loop; the result tells whether the process ran. *)
Definition scheduler_visit (i : nat) : K bool :=
  p ← proc_at i;
  if negb (bool_decide (p_state p = RUNNABLE)) then ret false else
  scheduler_run i ;;
  swtch i ;;
  scheduler_back ;;
  ret true.

(** The inner loop over the slots [js]; the result lists the processes that ran, in order. *)
Fixpoint scheduler_scan (js : list nat) : K (list nat) :=
  match js with
  | [] => ret []
  | i :: js' =>
    b ← scheduler_visit i;
    ran ← scheduler_scan js';
    ret (if (b : bool) then i :: ran else ran)
  end.

(** One turn of the outer loop. *)
Definition scheduler_pass : K (list nat) :=
  irq ;;
  acquire LPtable ;;
  ran ← scheduler_scan (seq 0 (Z.to_nat NPROC));
  release LPtable ;;
  ret ran.

Fixpoint scheduler_loop (n : nat) : K (list (list nat)) :=
  match n with
  | O => ret []
  | S n' => ran ← scheduler_pass; rest ← scheduler_loop n'; ret (ran :: rest)
  end.

(** The first [n] turns of scheduler(), which loops forever. *)
Definition scheduler (n : nat) : K (list (list nat)) :=
  modify (fun s => s <| k_cur := None |>) ;;
  scheduler_loop n.

(** ** The contract of a process *)

(** Every process that sleeps, can run or runs has a kernel stack and a page table, and none is running but [cur]. *)
Definition live (p : proc) : Prop := p_state p = SLEEPING \/ p_state p = RUNNABLE \/ p_state p = RUNNING.
Record table_ok (cur : option nat) (s : kstate) : Prop := {
  tk_len : length (k_procs s) = Z.to_nat NPROC;
  tk_ready : forall i p, k_procs s !! i = Some p -> live p -> p_kstack p <> 0 /\ p_pgdir p <> 0;
  tk_running : forall i p, k_procs s !! i = Some p -> p_state p = RUNNING -> cur = Some i
}.

(** The processes that are RUNNABLE in [s], but for [i], are RUNNABLE in [s']. *)
Definition still_runnable (i : option nat) (s s' : kstate) : Prop :=
  forall j p, Some j <> i -> k_procs s !! j = Some p -> p_state p = RUNNABLE ->
    exists p', k_procs s' !! j = Some p' /\ p_state p' = RUNNABLE.

(** The process the scheduler switched to comes back by sched(), with ptable.lock and no other lock held, on the only cpu: no process
    is RUNNING then. Until then it takes no other process out of the RUNNABLE state and leaves the table well formed. The
    interrupts between two passes keep the same. [kernel_turns] below shows it of turns made of the calls that
    change the states of processes. *)
Class Cooperative : Prop := {
  run_back : forall i s, k_held s = [LPtable] -> k_cur s = Some i -> table_ok (Some i) s ->
    (exists p, k_procs s !! i = Some p /\ p_state p = RUNNING) ->
    exists s', run i s = Switch s' /\ k_held s' = [LPtable] /\ table_ok None s' /\ still_runnable (Some i) s s';
  irq_back : forall s, k_held s = [] -> k_cur s = None -> table_ok None s ->
    exists s', irq s = Ok tt s' /\ k_held s' = [] /\ k_cur s' = None /\ table_ok None s' /\ still_runnable None s s'
}.

(** sched() itself sees to the first part of the contract: it panics unless ptable.lock is the only lock held
    and the state of the process has been changed. *)
Lemma sched_switch {A} s s' : sched (A := A) s = Switch s' ->
  s' = s /\ k_held s = [LPtable] /\ exists i p, k_cur s = Some i /\ k_procs s !! i = Some p /\ p_state p <> RUNNING.
Proof.
  unfold sched, curproc, myproc, gets, holding, proc_at, gets. unfold mbind, M_bind, bind, of_opt. destruct (k_cur s) as [i|]; cbn; [|done].
  case_bool_decide as Hin; cbn; [|done]. destruct (k_held s) as [|x [|y h]] eqn:Eh; cbn; try done.
  destruct (k_procs s !! i) as [p|] eqn:Ep; cbn; [|done]. case_bool_decide as Er; [done|]. intros [= <-].
  split; [done|]. apply list_elem_of_singleton in Hin as <-. split; [done|]. now exists i, p.
Qed.

Context `{!Cooperative}.

(** The scheduler has the processor. *)
Definition idle (held : list lockid) (s : kstate) : Prop := k_held s = held /\ k_cur s = None /\ table_ok None s.

Lemma still_refl i s : still_runnable i s s.
Proof. intros j p _ Hp Hr. eauto. Qed.

Lemma still_trans i j s s1 s2 : still_runnable i s s1 -> still_runnable j s1 s2 -> forall k p, Some k <> i -> Some k <> j ->
  k_procs s !! k = Some p -> p_state p = RUNNABLE -> exists p', k_procs s2 !! k = Some p' /\ p_state p' = RUNNABLE.
Proof. intros H1 H2 k p Hi Hj Hp Hr. destruct (H1 k p Hi Hp Hr) as (p1 & Hp1 & Hr1). eauto. Qed.

Lemma wp_swtch i (Q : unit -> kstate -> Prop) s s' : run i s = Switch s' -> Q tt s' -> wp (swtch i) Q s.
Proof. intros E HQ. unfold wp, swtch. now rewrite E. Qed.

Lemma wp_scheduler_visit i (Q : bool -> kstate -> Prop) s : idle [LPtable] s -> (i < Z.to_nat NPROC)%nat ->
  (forall b s', idle [LPtable] s' -> still_runnable (Some i) s s' ->
     (forall p, k_procs s !! i = Some p -> b = bool_decide (p_state p = RUNNABLE)) -> Q b s') -> wp (scheduler_visit i) Q s.
Proof.
  intros (Hh & Hc & Ht) Hi HQ. pose proof Ht as [Hl Hr Hn]. destruct (lookup_lt_is_Some_2 (k_procs s) i ltac:(lia)) as [p Hp].
  unfold scheduler_visit. wp_steps. apply (wp_proc_at i p); [done|]. case_bool_decide as Est; cbn [negb].
  2: { wp_steps. apply HQ; [done|apply still_refl|]. intros p' Hp'. rewrite bool_decide_eq_false_2; [done|congruence]. }
  destruct (Hr i p Hp (or_intror (or_introl Est))) as [Hk Hpg]. unfold scheduler_run, switchuvm. wp_steps. apply (wp_proc_at i p); [done|].
  rewrite (proj2 (Z.eqb_neq _ _) Hk), (proj2 (Z.eqb_neq _ _) Hpg). wp_steps. apply (wp_upd_proc i _ p); [done|]. wp_steps.
  match goal with |- wp _ _ ?y => set (s1 := y) end. set (p1 := p <| p_state := RUNNING |>).
  assert (k_procs s1 = <[i := p1]> (k_procs s)) as Ep by done.
  destruct (run_back i s1) as (s2 & E2 & Hh2 & Ht2 & Hs2); [done|done| | |].
  { split; rewrite Ep; [now rewrite length_insert| |].
    - intros j q [(<- & <- & _)|[Hne Hq]]%list_lookup_insert_Some Hlv; [done|]. now apply (Hr j q).
    - intros j q [(<- & <- & _)|[Hne Hq]]%list_lookup_insert_Some Hq2; [done|]. now specialize (Hn j q Hq Hq2). }
  { exists p1. split; [rewrite Ep; apply list_lookup_insert_eq; lia|done]. }
  apply (wp_swtch i _ s1 s2 E2). unfold scheduler_back, switchkvm. wp_steps. apply HQ.
  - split; [done|]. split; [done|]. destruct Ht2 as [T1 T2 T3]. now split.
  - intros j q Hj Hq Hq2. apply (Hs2 j q Hj); [|done]. rewrite Ep, list_lookup_insert_ne; [done|congruence].
  - intros p' Hp'. rewrite bool_decide_eq_true_2; [done|congruence].
Qed.

Lemma wp_scheduler_scan js : forall (Q : list nat -> kstate -> Prop) s, idle [LPtable] s -> Forall (fun i => (i < Z.to_nat NPROC)%nat) js -> NoDup js ->
  (forall ran s', idle [LPtable] s' -> sublist ran js ->
     (forall j p, j ∈ js -> k_procs s !! j = Some p -> p_state p = RUNNABLE -> j ∈ ran) ->
     (forall j p, j ∉ js -> k_procs s !! j = Some p -> p_state p = RUNNABLE -> exists p', k_procs s' !! j = Some p' /\ p_state p' = RUNNABLE) ->
     Q ran s') -> wp (scheduler_scan js) Q s.
Proof.
  induction js as [|i js IH]; intros Q s Hs Hlt Hnd HQ; cbn [scheduler_scan].
  { wp_steps. apply HQ; [done|constructor|intros j p Hj; now apply not_elem_of_nil in Hj|eauto]. }
  apply list.Forall_cons in Hlt as [Hi Hlt]. apply list.NoDup_cons in Hnd as [Hni Hnd]. wp_steps.
  apply wp_scheduler_visit; [done|done|]. intros b s1 Hs1 Hst Hb. wp_steps. apply (IH _ s1 Hs1 Hlt Hnd).
  intros ran s2 Hs2 Hsub Hran Hrest. wp_steps. apply HQ; [done|now destruct b; constructor| |].
  - intros j p [-> |Hj]%elem_of_cons Hp Hr; [rewrite (Hb p Hp), bool_decide_eq_true_2 by done; left|].
    destruct (Hst j p) as (p1 & Hp1 & Hr1); [intros [= ->]; done|done|done|]. pose proof (Hran j p1 Hj Hp1 Hr1). destruct b; [now right|done].
  - intros j p Hj Hp Hr. apply not_elem_of_cons in Hj as [Hji Hj]. destruct (Hst j p) as (p1 & Hp1 & Hr1); [congruence|done|done|]. eauto.
Qed.

(** What a pass does: it runs processes in the order of the table, each at most once, and every process that
    was RUNNABLE. *)
Definition fair_pass (s : kstate) (ran : list nat) (s' : kstate) : Prop :=
  idle [] s' /\ sublist ran (seq 0 (Z.to_nat NPROC)) /\ forall j p, k_procs s !! j = Some p -> p_state p = RUNNABLE -> j ∈ ran.

Lemma wp_scheduler_pass s : idle [] s -> wp scheduler_pass (fair_pass s) s.
Proof.
  intros (Hh & Hc & Ht). destruct (irq_back s Hh Hc Ht) as (s1 & E1 & Hh1 & Hc1 & Ht1 & Hst). unfold scheduler_pass. wp_steps.
  eapply wp_eq; [exact E1|]. wp_steps. apply wp_acquire; [rewrite Hh1; set_solver|]. wp_steps.
  apply wp_scheduler_scan; [split; [cbn; now rewrite Hh1|split; [done|destruct Ht1; now split]] | |apply NoDup_seq|].
  { apply list.Forall_forall. intros i Hi%elem_of_seq. lia. }
  intros ran s2 (Hh2 & Hc2 & Ht2) Hsub Hran _. wp_steps. eapply wp_release_head; [exact Hh2|]. wp_steps. split; [|split; [done|]].
  - split; [done|]. split; [done|]. destruct Ht2; now split.
  - intros j p Hp Hr. destruct (Hst j p ltac:(done) Hp Hr) as (p1 & Hp1 & Hr1). apply (Hran j p1); [|exact Hp1|done].
    apply elem_of_seq. rewrite <- (tk_len _ _ Ht). apply lookup_lt_Some in Hp. lia.
Qed.

Lemma wp_scheduler_loop n : forall s, idle [] s -> wp (scheduler_loop n) (fun rounds s' => idle [] s' /\ length rounds = n /\
  Forall (fun ran => sublist ran (seq 0 (Z.to_nat NPROC))) rounds) s.
Proof.
  induction n as [|n IH]; intros s Hs; cbn [scheduler_loop]; wp_steps; [done|]. eapply wp_mono; [now apply wp_scheduler_pass|].
  intros ran s1 (Hs1 & Hsub & _). wp_steps. eapply wp_mono; [now apply IH|]. intros rounds s2 (Hs2 & Hn & Hf). wp_steps.
  split; [done|]. split; [cbn; lia|now constructor].
Qed.

(** C12: the scheduler is fair to processes that are [Cooperative]: on one cpu, if every turn of a process ends in sched() with only
    ptable.lock held and takes no other process out of RUNNABLE, then the loop never panics; after any number of turns, the
    next pass over the table runs every process that is RUNNABLE at its start, in the order of the table and none of
    them twice. *)
Theorem scheduler_fair n s : k_held s = [] -> table_ok None s ->
  wp (scheduler n) (fun rounds s' => length rounds = n /\ Forall (fun ran => sublist ran (seq 0 (Z.to_nat NPROC))) rounds /\
    k_cur s' = None /\ wp scheduler_pass (fair_pass s') s') s.
Proof.
  intros Hh Ht. unfold scheduler. wp_steps. eapply wp_mono; [apply wp_scheduler_loop; split; [exact Hh|split; [done|now destruct Ht]]|].
  intros rounds s' (Hs' & Hn & Hf). split; [done|]. split; [done|]. split; [apply Hs'|now apply wp_scheduler_pass].
Qed.
End scheduler.

(** ** Turns made of kernel calls *)

(** The calls by which a process changes the states of others, and those by which it gives the processor up. *)
Inductive turn_op := Wakeup (c : chan) | Kill (pid : Z).
Inductive turn_end := Yield | Sleep (c : chan) (lk : lockid).

Definition turn_step (o : turn_op) : K unit := match o with Wakeup c => wakeup c | Kill pid => kill pid ;; ret tt end.
Definition turn_finish (e : turn_end) : K unit := match e with Yield => yield | Sleep c lk => acquire lk ;; sleep c lk end.

(** A turn: the return from swtch() gives up ptable.lock, then come the calls the process makes. *)
Definition turn (prog : nat -> kstate -> list turn_op * turn_end) (i : nat) : K unit :=
  release LPtable ;;
  s ← get;
  for_ (prog i s).1 turn_step ;;
  turn_finish (prog i s).2.
Definition irq_turn (wake_ups : kstate -> list chan) : K unit := s ← get; for_ (wake_ups s) wakeup.

(** A process at most woken. *)
Definition woken (p p' : proc) : Prop :=
  p_kstack p' = p_kstack p /\ p_pgdir p' = p_pgdir p /\ (p_state p' = p_state p \/ p_state p = SLEEPING /\ p_state p' = RUNNABLE).

Lemma woken_self p : woken p p.
Proof. unfold woken. auto. Qed.

Lemma wake_woken c p : woken p (wake c p).
Proof. unfold wake. case_bool_decide; [|apply woken_self]. cbn [andb]. case_bool_decide; [unfold woken; auto|apply woken_self]. Qed.

Lemma woken_all ps : Forall2 woken ps ps.
Proof. apply list.Forall_Forall2_diag, list.Forall_forall. intros p _. apply woken_self. Qed.

Lemma woken_again ps1 ps2 ps3 : Forall2 woken ps1 ps2 -> Forall2 woken ps2 ps3 -> Forall2 woken ps1 ps3.
Proof.
  intros H1. revert ps3. induction H1 as [|p1 p2 ps1 ps2 (A1 & A2 & A3) _ IH]; intros ps3 H2;
    inversion H2 as [|? p3 ? ps3' (B1 & B2 & B3) H2']; subst; constructor; [|now apply IH].
  split; [congruence|]. split; [congruence|].
  destruct A3 as [A3|[A3 A4]], B3 as [B3|[B3 B4]]; [left; congruence|right; split; congruence|right; split; congruence|congruence].
Qed.

Lemma table_woken cur s s' : Forall2 woken (k_procs s) (k_procs s') -> table_ok cur s -> table_ok cur s' /\ still_runnable None s s'.
Proof.
  intros Hw [Hl Hr Hn]. split; [split|].
  - now rewrite <- (list.Forall2_length _ _ _ Hw).
  - intros i p' Hp' Hlv. destruct (Forall2_lookup_r _ _ _ _ _ Hw Hp') as (p & Hp & E1 & E2 & E3). rewrite E1, E2. apply (Hr i p Hp).
    unfold live in *. destruct E3 as [E3|[E3 _]]; [now rewrite <- E3|now left].
  - intros i p' Hp' Hrun. destruct (Forall2_lookup_r _ _ _ _ _ Hw Hp') as (p & Hp & _ & _ & E3). apply (Hn i p Hp). destruct E3 as [E3|[_ E3]]; congruence.
  - intros j p _ Hp Hrun. destruct (Forall2_lookup_l _ _ _ _ _ Hw Hp) as (p' & Hp' & _ & _ & E3). exists p'. split; [done|]. destruct E3 as [E3|[E3 _]]; congruence.
Qed.

(** [i] has the processor and no lock, and others are at most woken since [s]. *)
Definition in_turn (i : option nat) (s s' : kstate) : Prop :=
  k_held s' = [] /\ k_cur s' = i /\ Forall2 woken (k_procs s) (k_procs s').

Lemma wp_turn_step i s s1 o : in_turn i s s1 -> wp (turn_step o) (fun _ s2 => in_turn i s s2) s1.
Proof.
  intros (Hh & Hc & Hw). assert (LPtable ∉ k_held s1) as Hn by (rewrite Hh; apply not_elem_of_nil). destruct o as [c|pid]; cbn [turn_step].
  - apply wp_wakeup; [done|]. split; [done|]. split; [done|]. cbn. eapply woken_again; [exact Hw|].
    apply Forall2_fmap_r, list.Forall_Forall2_diag, list.Forall_forall. intros p _. apply wake_woken.
  - wp_steps. pose proof (kill_spec pid s1 Hn) as Hk. destruct (find_idx _ _) as [j|].
    + destruct Hk as (p & p' & Hp & _ & Ek & E1 & E2). eapply wp_eq; [exact Ek|]. wp_steps. split; [done|]. split; [done|]. cbn.
      eapply woken_again; [exact Hw|]. rewrite <- (list_insert_id _ _ _ Hp) at 1. apply Forall2_insert; [apply woken_all|].
      rewrite E1. unfold woken. cbn. rewrite E2. case_bool_decide; auto.
    + destruct Hk as [Ek _]. eapply wp_eq; [exact Ek|]. wp_steps. done.
Qed.

Lemma wp_turn_steps i s ops : forall s1, in_turn i s s1 -> wp (for_ ops turn_step) (fun _ s2 => in_turn i s s2) s1.
Proof.
  induction ops as [|o ops IH]; intros s1 Hs1; cbn [for_]; wp_steps; [done|]. eapply wp_mono; [exact (wp_turn_step i s s1 o Hs1)|].
  intros [] s2 Hs2. now apply IH.
Qed.

Lemma wp_irq_steps s cs : forall s1, in_turn None s s1 -> wp (for_ cs wakeup) (fun _ s2 => in_turn None s s2) s1.
Proof.
  induction cs as [|c cs IH]; intros s1 Hs1; cbn [for_]; wp_steps; [done|]. eapply wp_mono; [exact (wp_turn_step None s s1 (Wakeup c) Hs1)|].
  intros [] s2 Hs2. now apply IH.
Qed.

(** The process [i], RUNNING, is put into the state of [p']. *)
Lemma table_stop i s s' p' : table_ok (Some i) s -> k_procs s' = <[i := p']> (k_procs s) -> p_state p' <> RUNNING ->
  (exists p, k_procs s !! i = Some p /\ p_state p = RUNNING /\ p_kstack p' = p_kstack p /\ p_pgdir p' = p_pgdir p) ->
  table_ok None s' /\ still_runnable (Some i) s s'.
Proof.
  intros [Hl Hr Hn] Ep Hs (p & Hp & Hrun & E1 & E2). split; [split; rewrite Ep|].
  - now rewrite length_insert.
  - intros j q [(<- & <- & _)|[Hne Hq]]%list_lookup_insert_Some Hj; [rewrite E1, E2; apply (Hr i p Hp); unfold live; auto|now apply (Hr j q)].
  - intros j q [(<- & <- & _)|[Hne Hq]]%list_lookup_insert_Some Hj; [done|]. specialize (Hn j q Hq Hj). congruence.
  - intros j q Hj Hq Hq2. exists q. split; [|done]. rewrite Ep, list_lookup_insert_ne; [done|congruence].
Qed.

(** yield and sleep end the turn with the process out of the RUNNING state. *)
Lemma turn_finish_eq i p s e : k_cur s = Some i -> k_procs s !! i = Some p -> k_held s = [] ->
  exists s' p', turn_finish e s = Switch s' /\ k_held s' = [LPtable] /\ k_procs s' = <[i := p']> (k_procs s) /\
    p_state p' <> RUNNING /\ p_kstack p' = p_kstack p /\ p_pgdir p' = p_pgdir p.
Proof.
  intros Hc Hp Hh. pose proof (lookup_lt_Some _ _ _ Hp) as Hlt.
  assert (exists p', p_state p' <> RUNNING /\ p_kstack p' = p_kstack p /\ p_pgdir p' = p_pgdir p /\
    wps (turn_finish e) (fun _ _ => False) (fun s' => k_held s' = [LPtable] /\ k_procs s' = <[i := p']> (k_procs s)) s) as (p' & E1 & E2 & E3 & Hw).
  { destruct e as [|c lk]; cbn [turn_finish].
    - exists (p <| p_state := RUNNABLE |>). split; [done|]. split; [done|]. split; [done|]. unfold yield. wps_steps.
      apply wp_acquire; [rewrite Hh; apply not_elem_of_nil|]. wps_steps. apply (wp_curproc i); [done|]. wps_steps.
      apply (wp_upd_proc i _ p); [done|]. unfold sched. apply wps_bind_wp, (wp_curproc i); [done|]. unfold holding. wps_steps.
      rewrite bool_decide_eq_true_2 by (cbn; set_solver). cbn [negb]. wps_steps. cbn. rewrite Hh. cbn. apply wps_bind_wp.
      eapply wp_proc_at; [cbn; now apply list_lookup_insert_eq|]. cbn. done.
    - exists (p <| p_chan := c |> <| p_state := SLEEPING |>). split; [done|]. split; [done|]. split; [done|]. apply wps_bind_wp.
      apply wp_acquire; [rewrite Hh; apply not_elem_of_nil|]. eapply wps_switch; [apply (sleep_eq i p); [done|done|cbn; now rewrite Hh]|]. done. }
  unfold wps in Hw. destruct (turn_finish e s) as [|s'| | |] eqn:E; try done. exists s', p'. now destruct Hw.
Qed.

Lemma release_only l s : k_held s = [l] -> release l s = Ok tt (s <| k_held := [] |>).
Proof.
  intros Hh. enough (wp (release l) (fun _ s' => s' = s <| k_held := [] |>) s) as Hw by now apply wp_ok in Hw as ([] & x & -> & ->).
  eapply wp_release_head; [exact Hh|reflexivity].
Qed.

Lemma kernel_turns prog wake_ups : Cooperative (turn prog) (irq_turn wake_ups).
Proof.
  split.
  - intros i s Hh Hc Ht (p & Hp & Hr). set (s0 := s <| k_held := [] |>).
    assert (in_turn (Some i) s s0) as Hs0 by (split; [done|]; split; [done|apply woken_all]).
    pose proof (wp_turn_steps (Some i) s (prog i s0).1 s0 Hs0) as Hw. apply wp_ok in Hw as ([] & s1 & E1 & Hh1 & Hc1 & Hw1).
    destruct (table_woken (Some i) s s1 Hw1 Ht) as [Ht1 Hst1]. destruct (Forall2_lookup_l _ _ _ _ _ Hw1 Hp) as (p1 & Hp1 & _ & _ & E3).
    destruct (turn_finish_eq i p1 s1 (prog i s0).2 Hc1 Hp1 Hh1) as (s2 & p2 & E2 & Hh2 & Ep2 & Hs2 & F1 & F2).
    destruct (table_stop i s1 s2 p2 Ht1 Ep2 Hs2) as [Ht2 Hst2]; [exists p1; split; [done|]; split; [destruct E3 as [E3|[E3 _]]; congruence|done]|].
    exists s2. split; [|split; [done|split; [done|]]].
    + unfold turn. erewrite bind_ok by exact (release_only _ _ Hh). erewrite bind_ok by reflexivity. erewrite bind_ok by exact E1. exact E2.
    + intros j q Hj Hq Hrun. destruct (Hst1 j q ltac:(done) Hq Hrun) as (q1 & Hq1 & Hr1). now apply (Hst2 j q1).
  - intros s Hh Hc Ht. assert (in_turn None s s) as Hs0 by (split; [done|]; split; [done|apply woken_all]).
    pose proof (wp_irq_steps s (wake_ups s) s Hs0) as Hw. apply wp_ok in Hw as ([] & s1 & E1 & Hh1 & Hc1 & Hw1).
    exists s1. split; [unfold irq_turn; erewrite bind_ok by reflexivity; exact E1|]. split; [done|]. split; [done|]. exact (table_woken None s s1 Hw1 Ht).
Qed.

(** ** An example: each process wakes those that wait for the clock, kills pid 3, and yields or sleeps until the next tick *)

Definition ex_prog (i : nat) (s : kstate) : list turn_op * turn_end :=
  ([Wakeup ChTicks; Kill 3], if Nat.even i then Yield else Sleep ChTicks LTicks).

Definition ex_table : kstate :=
  (one_proc_state zero_proc []) <| k_procs := replicate 2 (zero_proc <| p_state := RUNNABLE |> <| p_kstack := 4096 |> <| p_pgdir := 8192 |>) ++ replicate 62 zero_proc |>.

Lemma scheduler_fair_witness :
  wp (scheduler (turn ex_prog) (irq_turn (fun _ => [ChTicks])) 2) (fun rounds s' => length rounds = 2%nat /\ k_cur s' = None) ex_table.
Proof.
  pose proof (kernel_turns ex_prog (fun _ => [ChTicks])) as Hcoop.
  eapply wp_mono; [apply (scheduler_fair (turn ex_prog) (irq_turn (fun _ => [ChTicks])) 2 ex_table); [reflexivity|]|now intros rounds s' (Hn & _ & Hc & _)].
  split; [reflexivity| |]; intros i p; unfold ex_table; cbn [k_procs setf set_k_procs];
    (intros [Hi|[_ Hi]]%lookup_app_Some; apply lookup_replicate in Hi as [-> _]); cbn; try done. intros [H|[H|H]]; done.
Defined.
