(* ===== verification/Debug.v ===== *)
(** The debugging output of the kernel: getcallerpcs of spinlock.c and procdump of proc.c, which
    consoleintr runs on Control-P. *)

From stdpp Require Import base list gmap strings numbers.
From Stdlib Require Import ZArith Lia.
From S2P Require Import Prelude Bytes CString Itoa Kstate Mmu Cons Vm.
Open Scope Z_scope.

(** The first loop of getcallerpcs: follow the saved %ebp of the frames, at most [n] of them. *)
Fixpoint pcs_loop (n : nat) (ebp : Z) : K (list Z) :=
  match n with
  | O => ret []
  | S n' =>
    if (ebp =? 0) || (ebp <? KERNBASE) || (ebp =? 0xffffffff) then ret [] else
    pc ← load32 (ebp + 4);
    ebp' ← load32 ebp;
    pcs ← pcs_loop n' ebp';
    ret (pc :: pcs)
  end.

(** The second loop fills the rest of the ten entries with 0. *)
Definition getcallerpcs (v : Z) : K (list Z) :=
  pcs ← pcs_loop 10 (u32 (v - 8));
  ret (pcs ++ replicate (10 - length pcs) 0).

Definition state_name (st : procstate) : list Z :=
  match st with
  | UNUSED => str "unused" | EMBRYO => str "embryo" | SLEEPING => str "sleep "
  | RUNNABLE => str "runble" | RUNNING => str "run   " | ZOMBIE => str "zombie"
  end.

(** for(i=0; i<10 && pc[i] != 0; i++) cprintf(" %p", pc[i]); *)
Fixpoint print_pcs (pcs : list Z) : K unit :=
  match pcs with
  | [] => ret tt
  | pc :: pcs' => if pc =? 0 then ret tt else cprintf (str " %p") [AInt pc] ;; print_pcs pcs'
  end.

Definition dump_proc (p : proc) : K unit :=
  if bool_decide (p_state p = UNUSED) then ret tt else
  cprintf (str "%d %s %s") [AInt (p_pid p); AStr (Some (state_name (p_state p))); AStr (Some (cstr (p_name p)))] ;;
  (if bool_decide (p_state p = SLEEPING) then
     pcs ← getcallerpcs (u32 (cx_ebp (p_context p) + 8));
     print_pcs pcs
   else ret tt) ;;
  cprintf [10] [].

(** "No lock to avoid wedging a stuck machine further." *)
Definition procdump : K unit := ps ← gets k_procs; for_ ps dump_proc.

(** ** The call stack *)

(** Frames linked by the saved %ebp: [frames] are their return addresses. *)
Fixpoint stack_at (mem : gmap Z (list Z)) (ebp : Z) (frames : list Z) : Prop :=
  match frames with
  | [] => (ebp =? 0) || (ebp <? KERNBASE) || (ebp =? 0xffffffff) = true
  | pc :: frames' =>
    (ebp =? 0) || (ebp <? KERNBASE) || (ebp =? 0xffffffff) = false /\
    exists ebp' pg1 pg2, mem !! page_of (ebp + 4) = Some pg1 /\ pg1 !! word_of (ebp + 4) = Some pc /\
      mem !! page_of ebp = Some pg2 /\ pg2 !! word_of ebp = Some ebp' /\ stack_at mem ebp' frames'
  end.

Lemma wp_pcs_loop n : forall ebp frames s (Q : list Z -> kstate -> Prop), stack_at (k_mem s) ebp frames ->
  Q (take n frames) s -> wp (pcs_loop n ebp) Q s.
Proof.
  induction n as [|n IH]; intros ebp frames s Q Hs HQ; cbn [pcs_loop]; [wp_steps; exact HQ|]. destruct frames as [|pc frames].
  - simpl in Hs. rewrite Hs. wp_steps. exact HQ.
  - destruct Hs as (E & ebp' & pg1 & pg2 & A1 & A2 & A3 & A4 & Hs). rewrite E. wp_steps. apply (wp_load32 _ pg1 pc); [done|done|]. wp_steps.
    apply (wp_load32 _ pg2 ebp'); [done|done|]. wp_steps. eapply IH; [exact Hs|]. wp_steps. exact HQ.
Qed.

(** getcallerpcs(v) lists the return addresses of the frames of the caller, the innermost first, and
    pads them to ten with zeros. *)
Lemma getcallerpcs_spec v frames s : stack_at (k_mem s) (u32 (v - 8)) frames ->
  wp (getcallerpcs v) (fun pcs s' => s' = s /\ length pcs = 10%nat /\ pcs = take 10 (take 10 frames ++ replicate 10 0)) s.
Proof.
  intros Hs. unfold getcallerpcs. wp_steps. eapply wp_pcs_loop; [exact Hs|]. wp_steps. split; [done|].
  assert (length (take 10 frames) <= 10)%nat as Hl by apply firstn_le_length.
  split; [rewrite length_app, length_replicate; lia|].
  rewrite take_app_ge by done. f_equal. rewrite take_replicate. f_equal. lia.
Qed.
