(* ===== verification/Pagetable.v ===== *)
(** Page tables as maps: what walkpgdir and mappages of vm.c do to the entry of every virtual
    address, and what the MMU then translates. *)

From stdpp Require Import base list gmap strings numbers fin_maps.
From Stdlib Require Import ZArith Lia.
From S2P Require Import Prelude Bytes Kstate Mmu Kalloc Vm Proc.
Open Scope Z_scope.

(** ** Entries *)

Lemma land_page x f : x mod 4096 = 0 -> 0 <= f < 4096 -> Z.land x f = 0.
Proof.
  intros Hx Hf. apply Z.bits_inj'. intros n Hn. rewrite Z.land_spec, Z.bits_0. destruct (Z.ltb_spec n 12) as [H|H].
  - replace x with (x / 4096 * 2 ^ 12) by (change (2 ^ 12) with 4096; div_lia).
    now rewrite Z.mul_pow2_bits_low by lia.
  - replace (Z.testbit f n) with false; [now rewrite andb_false_r|]. symmetry. apply Z.testbit_false; [lia|].
    rewrite Z.div_small; [reflexivity|]. enough (2 ^ 12 <= 2 ^ n) by lia. apply Z.pow_le_mono_r; lia.
Qed.

Lemma lor_low x f : x mod 4096 = 0 -> 0 <= f < 4096 -> Z.lor x f = x + f.
Proof. intros Hx Hf. symmetry. apply Z.add_nocarry_lor. now apply land_page. Qed.

Lemma land_low x f m : x mod 4096 = 0 -> 0 <= f < 4096 -> 0 <= m < 4096 -> Z.land (x + f) m = Z.land f m.
Proof. intros Hx Hf Hm. now rewrite <- (lor_low x f), Z.land_lor_distr_l, (land_page x m), Z.lor_0_l. Qed.

Lemma lor_bound a b : 0 <= a < 4096 -> 0 <= b < 4096 -> 0 <= Z.lor a b < 4096.
Proof.
  intros Ha Hb. assert (0 <= Z.lor a b) as H by (apply Z.lor_nonneg; lia). split; [done|].
  change 4096 with (2 ^ 12) in *. apply Z.bounded_iff_bits_nonneg; [lia|done|]. intros k Hk. rewrite Z.lor_spec.
  rewrite (proj1 (Z.bounded_iff_bits_nonneg 12 a ltac:(lia) ltac:(lia)) ltac:(lia) k Hk).
  now rewrite (proj1 (Z.bounded_iff_bits_nonneg 12 b ltac:(lia) ltac:(lia)) ltac:(lia) k Hk).
Qed.

Lemma lor_1_odd a : Z.land (Z.lor a 1) 1 <> 0.
Proof. rewrite Z.land_lor_distr_l. intros [_ H]%Z.lor_eq_0_iff. discriminate. Qed.

Lemma PTE_ADDR_low x f : is_u32 x -> x mod 4096 = 0 -> 0 <= f < 4096 -> PTE_ADDR (x + f) = x.
Proof. intros H1 H2 H3. rewrite PTE_ADDR_spec; unfold is_u32 in *; div_lia. Qed.

Lemma PTE_FLAGS_low x f : x mod 4096 = 0 -> 0 <= f < 4096 -> PTE_FLAGS (x + f) = f.
Proof. intros H2 H3. rewrite PTE_FLAGS_spec. div_lia. Qed.

(** ** Page frames and tables *)

(** A page frame of the allocator, at a 32-bit address. *)
Definition pframe (e p : Z) : Prop := kpage e p /\ is_u32 p.

Lemma V2P_page p : p mod PGSIZE = 0 -> V2P p mod 4096 = 0.
Proof. unfold V2P, KERNBASE, PGSIZE, u32. intros H. div_lia. Qed.

Lemma is_u32_V2P p : is_u32 (V2P p).
Proof. unfold V2P, u32, is_u32. div_lia. Qed.

Definition tab_word (mem : gmap Z (list Z)) (t i : Z) : option Z := pg ← mem !! t; pg !! Z.to_nat i.

(** The directory at [pgdir], with the table of each index it has. *)
Record pgtab (e : Z) (mem : gmap Z (list Z)) (pgdir : Z) (T : gmap Z Z) : Prop := {
  pt_dir : pframe e pgdir;
  pt_dirpage : exists pd, mem !! pgdir = Some pd /\ length pd = 1024%nat;
  pt_some : forall i t, T !! i = Some t ->
    0 <= i < 1024 /\ pframe e t /\ t <> pgdir /\ tab_word mem pgdir i = Some (V2P t + 7) /\
    exists pg, mem !! t = Some pg /\ length pg = 1024%nat;
  pt_none : forall i, 0 <= i < 1024 -> T !! i = None -> exists w, tab_word mem pgdir i = Some w /\ Z.land w PTE_P = 0;
  pt_inj : forall i j t, T !! i = Some t -> T !! j = Some t -> i = j
}.

(** The entry of a virtual address. *)
Definition pte_at (mem : gmap Z (list Z)) (T : gmap Z Z) (va : Z) : Z :=
  match T !! PDX va with Some t => default 0 (tab_word mem t (PTX va)) | None => 0 end.

(** The page frames the tables take. *)
Definition tabs (T : gmap Z Z) : list Z := (map_to_list T).*2.

Lemma elem_tabs T t : t ∈ tabs T <-> exists i, T !! i = Some t.
Proof.
  unfold tabs. rewrite list_elem_of_fmap. split.
  - intros ([i t'] & -> & H%elem_of_map_to_list). eauto.
  - intros [i H]. exists (i, t). split; [done|]. now apply elem_of_map_to_list.
Qed.

Lemma tabs_insert T i t : T !! i = None -> tabs (<[i := t]> T) ≡ₚ t :: tabs T.
Proof. intros H. unfold tabs. now rewrite map_to_list_insert. Qed.

(** A directory and its tables, and the free pages [l]. *)
Record vm_ok (s : kstate) (pgdir : Z) (T : gmap Z Z) (l : list Z) : Prop := {
  vm_free : free_list s l;
  vm_idle : kmem_idle s;
  vm_u32 : forall p, p ∈ l -> is_u32 p;
  vm_tab : pgtab (sym_end (k_sym s)) (k_mem s) pgdir T;
  vm_dir : pgdir ∉ l;
  vm_tabs : forall t, t ∈ tabs T -> t ∉ l
}.

(** Only the page frames and the free list change. *)
Definition mem_frame (s s' : kstate) : Prop := exists m f, s' = s <| k_mem := m |> <| k_freelist := f |>.

Lemma mem_frame_refl s : mem_frame s s.
Proof. exists (k_mem s), (k_freelist s). now destruct s. Qed.

Lemma mem_frame_trans s1 s2 s3 : mem_frame s1 s2 -> mem_frame s2 s3 -> mem_frame s1 s3.
Proof. intros (m & f & ->) (m' & f' & ->). now exists m', f'. Qed.

Lemma mem_frame_fields s s' : mem_frame s s' ->
  k_sym s' = k_sym s /\ k_held s' = k_held s /\ k_uselock s' = k_uselock s /\
  k_cur s' = k_cur s /\ k_procs s' = k_procs s.
Proof. now intros (m & f & ->). Qed.

Lemma tab_word_page mem t i pg : mem !! t = Some pg -> tab_word mem t i = pg !! Z.to_nat i.
Proof. unfold tab_word. now intros ->. Qed.

Lemma tab_word_ne mem t q pg i : q <> t -> tab_word (<[q := pg]> mem) t i = tab_word mem t i.
Proof. intros H. unfold tab_word. now rewrite lookup_insert_ne. Qed.

Lemma tab_word_upd mem t i pg v j : mem !! t = Some pg -> 0 <= i < 1024 -> 0 <= j -> length pg = 1024%nat ->
  tab_word (<[t := <[Z.to_nat i := v]> pg]> mem) t j = if decide (i = j) then Some v else tab_word mem t j.
Proof.
  intros Hpg Hi Hj Hl. rewrite (tab_word_page _ _ _ _ (lookup_insert_eq mem t _)), (tab_word_page _ _ _ _ Hpg). case_decide as E.
  - subst. rewrite list_lookup_insert_eq; [done|]. lia.
  - rewrite list_lookup_insert_ne; [done|]. lia.
Qed.

(** The word at index [i] of the page [t]. *)
Lemma entry_addr t i : t mod PGSIZE = 0 -> 0 <= i < 1024 -> page_of (t + 4 * i) = t /\ word_of (t + 4 * i) = Z.to_nat i.
Proof. unfold page_of, word_of, PGSIZE. intros Ht Hi. split; [div_lia|]. f_equal. div_lia. Qed.

Lemma wp_load_entry t i w (Q : Z -> kstate -> Prop) s : t mod PGSIZE = 0 -> 0 <= i < 1024 ->
  tab_word (k_mem s) t i = Some w -> Q w s -> wp (load32 (t + 4 * i)) Q s.
Proof.
  intros Ht Hi Hw HQ. destruct (entry_addr t i Ht Hi) as [E1 E2]. unfold tab_word in Hw.
  destruct (k_mem s !! t) as [pg|] eqn:Hpg; [|discriminate]. apply (wp_load32 _ pg w); [now rewrite E1|now rewrite E2|done].
Qed.

Lemma wp_store_entry t i v pg (Q : unit -> kstate -> Prop) s : t mod PGSIZE = 0 -> 0 <= i < 1024 -> k_mem s !! t = Some pg ->
  Q tt (s <| k_mem := <[t := <[Z.to_nat i := v]> pg]> (k_mem s) |>) -> wp (store32 (t + 4 * i) v) Q s.
Proof.
  intros Ht Hi Hpg HQ. destruct (entry_addr t i Ht Hi) as [E1 E2]. apply (wp_store32 _ _ pg); [now rewrite E1|].
  now rewrite E1, E2.
Qed.

Lemma PDX_range va : 0 <= PDX va < 1024.
Proof. rewrite PDX_spec. div_lia. Qed.
Lemma PTX_range va : 0 <= PTX va < 1024.
Proof. rewrite PTX_spec. div_lia. Qed.
#[export] Hint Resolve PDX_range PTX_range : kwp.

Lemma pframe_mod e p : pframe e p -> p mod PGSIZE = 0.
Proof. now intros [[H _] _]. Qed.
Lemma pframe_pos e p : pframe e p -> 0 < p.
Proof. now intros [(_ & _ & H & _) _]. Qed.
Lemma pframe_P2V e p f : pframe e p -> 0 <= f < 4096 -> P2V (PTE_ADDR (V2P p + f)) = p.
Proof.
  intros [[Hm _] Hp] Hf. rewrite PTE_ADDR_low; [now apply P2V_V2P|apply is_u32_V2P|now apply V2P_page|done].
Qed.
#[export] Hint Resolve pframe_mod pframe_pos : kwp.

Lemma free_pframe s pgdir T l p : vm_ok s pgdir T l -> p ∈ l -> pframe (sym_end (k_sym s)) p.
Proof. intros Hv Hp. split; [now apply (free_list_kpage s l); [apply Hv|]|now apply (vm_u32 _ _ _ _ Hv)]. Qed.

Lemma wp_kalloc l (Q : Z -> kstate -> Prop) s : free_list s l -> kmem_idle s ->
  Q (default 0 (head l)) (kalloc_post l s) -> wp kalloc Q s.
Proof. intros Hf Hi HQ. exact (wp_eq _ _ _ _ _ (kalloc_eq s l Hf Hi) HQ). Qed.

Lemma set_mem_free s f m1 m2 :
  s <| k_freelist := f |> <| k_mem := m1 |> <| k_mem := m2 |> = s <| k_mem := m2 |> <| k_freelist := f |>.
Proof. now destruct s. Qed.

Section walk.
Context (s : kstate) (pgdir : Z) (T : gmap Z Z) (l : list Z).
Hypothesis Hv : vm_ok s pgdir T l.

Lemma wp_walk_some va alloc t (Q : Z -> kstate -> Prop) : T !! PDX va = Some t -> Q (t + 4 * PTX va) s ->
  wp (walkpgdir pgdir va alloc) Q s.
Proof.
  intros Ht HQ. destruct (pt_some _ _ _ _ (vm_tab _ _ _ _ Hv) _ _ Ht) as (Hi & Hf & _ & Hw & _).
  pose proof (pframe_pos _ _ Hf). pose proof (PTX_range va). unfold walkpgdir. wp_steps.
  apply (wp_load_entry _ _ (V2P t + 7)); [eapply pframe_mod, (pt_dir _ _ _ _ (vm_tab _ _ _ _ Hv))|done|done|].
  wp_steps. apply wp_if_true.
  { rewrite land_low; [reflexivity|eapply V2P_page, pframe_mod; eassumption|lia|unfold PTE_P; lia]. }
  wp_steps. rewrite (pframe_P2V _ _ 7 Hf) by lia. rewrite (proj2 (Z.eqb_neq t 0)) by lia. exact HQ.
Qed.

Lemma wp_walk_none va (Q : Z -> kstate -> Prop) : T !! PDX va = None -> Q 0 s -> wp (walkpgdir pgdir va false) Q s.
Proof.
  intros Ht HQ. destruct (pt_none _ _ _ _ (vm_tab _ _ _ _ Hv) _ (PDX_range va) Ht) as (w & Hw & Hp).
  unfold walkpgdir. wp_steps. apply (wp_load_entry _ _ w); [eapply pframe_mod, (pt_dir _ _ _ _ (vm_tab _ _ _ _ Hv))|apply PDX_range|done|].
  wp_steps. apply wp_if_false; [now rewrite Hp|]. now wp_steps.
Qed.

Lemma wp_walk_nomem va (Q : Z -> kstate -> Prop) : T !! PDX va = None -> l = [] -> Q 0 s -> wp (walkpgdir pgdir va true) Q s.
Proof.
  intros Ht Hl HQ. destruct (pt_none _ _ _ _ (vm_tab _ _ _ _ Hv) _ (PDX_range va) Ht) as (w & Hw & Hp).
  unfold walkpgdir. wp_steps. apply (wp_load_entry _ _ w); [eapply pframe_mod, (pt_dir _ _ _ _ (vm_tab _ _ _ _ Hv))|apply PDX_range|done|].
  wp_steps. apply wp_if_false; [now rewrite Hp|]. cbn [negb]. wp_steps.
  apply (wp_kalloc l); [apply Hv|apply Hv|]. rewrite Hl. simpl. now wp_steps.
Qed.

(** The state in which walkpgdir has added the table [t] for [va]. *)
Definition new_table (va t : Z) (pd : list Z) (l' : list Z) : kstate :=
  s <| k_mem := <[pgdir := <[Z.to_nat (PDX va) := V2P t + 7]> pd]> (<[t := replicate 1024 0]> (k_mem s)) |>
    <| k_freelist := default 0 (head l') |>.

Lemma wp_walk_new va t pd l' (Q : Z -> kstate -> Prop) : T !! PDX va = None -> l = t :: l' -> k_mem s !! pgdir = Some pd ->
  Q (t + 4 * PTX va) (new_table va t pd l') -> wp (walkpgdir pgdir va true) Q s.
Proof.
  intros Ht Hl Hpd HQ. destruct (pt_none _ _ _ _ (vm_tab _ _ _ _ Hv) _ (PDX_range va) Ht) as (w & Hw & Hp).
  assert (pframe (sym_end (k_sym s)) t) as Hf by (apply (free_pframe s pgdir T l); [done|rewrite Hl; left]).
  pose proof (pframe_pos _ _ Hf). assert (pgdir <> t) by (intros ->; apply (vm_dir _ _ _ _ Hv); rewrite Hl; left).
  pose proof (pframe_mod _ _ (pt_dir _ _ _ _ (vm_tab _ _ _ _ Hv))) as Hd.
  unfold walkpgdir. wp_steps. apply (wp_load_entry _ _ w); [done|apply PDX_range|done|].
  wp_steps. apply wp_if_false; [now rewrite Hp|]. cbn [negb]. wp_steps.
  apply (wp_kalloc l); [apply Hv|apply Hv|]. rewrite Hl. simpl default. apply wp_if_false; [lia|]. unfold fill_page. wp_steps.
  apply (wp_store_entry _ _ _ pd); [done|apply PDX_range|simpl; now rewrite lookup_insert_ne|]. wp_steps.
  rewrite <- !Z.lor_assoc, lor_low, (proj2 (Z.eqb_neq t 0)) by (done || lia || (eapply V2P_page, pframe_mod; eassumption)).
  unfold kalloc_post, new_table in *. rewrite set_mem_free. exact HQ.
Qed.
End walk.

(** What an operation on a page table may do: add tables, taken from the free pages. *)
Record vm_ext (pgdir : Z) (s : kstate) (T : gmap Z Z) (l : list Z) (s' : kstate) (T' : gmap Z Z) (l' : list Z) : Prop := {
  ve_ok : vm_ok s' pgdir T' l';
  ve_frame : mem_frame s s';
  ve_sub : T ⊆ T';
  ve_pages : l ++ tabs T ≡ₚ l' ++ tabs T';
  ve_keep : forall q, q <> pgdir -> q ∉ tabs T' -> k_mem s' !! q = k_mem s !! q
}.

Lemma vm_ext_refl pgdir s T l : vm_ok s pgdir T l -> vm_ext pgdir s T l s T l.
Proof. intros H. split; [done|apply mem_frame_refl|done|done|done]. Qed.

Lemma tabs_sub T T' t : T ⊆ T' -> t ∈ tabs T -> t ∈ tabs T'.
Proof. intros Hs. rewrite !elem_tabs. intros [i Hi]. exists i. eapply lookup_weaken; eassumption. Qed.

Lemma vm_ext_trans pgdir s T l s1 T1 l1 s2 T2 l2 :
  vm_ext pgdir s T l s1 T1 l1 -> vm_ext pgdir s1 T1 l1 s2 T2 l2 -> vm_ext pgdir s T l s2 T2 l2.
Proof.
  intros [A1 A2 A3 A4 A5] [B1 B2 B3 B4 B5]. split; [done|eapply mem_frame_trans; eassumption|by etrans|by etrans|].
  intros q Hq Ht. rewrite B5 by done. apply A5; [done|]. intros H. apply Ht. eapply tabs_sub; eassumption.
Qed.

Lemma kmem_idle_frame s s' : mem_frame s s' -> kmem_idle s -> kmem_idle s'.
Proof. now intros (m & f & ->). Qed.

Lemma chain_frame_all e mem mem' a l : (forall q, q ∈ l -> mem' !! q = mem !! q) -> chain e mem a l -> chain e mem' a l.
Proof.
  revert a. induction l as [|p l IH]; intros a Hm; simpl; [done|]. intros (-> & Hp & n & pg & Hl & Hlen & Hc).
  split; [done|]. split; [done|]. exists n, pg. rewrite Hm by (left). split; [done|]. split; [done|]. apply IH; [|done].
  intros q Hq. apply Hm. now right.
Qed.

(** Entries are words of tables: a store elsewhere keeps them. *)
Lemma pte_at_frame mem mem' T va : (forall t, t ∈ tabs T -> mem' !! t = mem !! t) -> pte_at mem' T va = pte_at mem T va.
Proof.
  intros H. unfold pte_at, tab_word. destruct (T !! PDX va) as [t|] eqn:E; [|done]. rewrite H; [done|]. apply elem_tabs. eauto.
Qed.

Section new_table.
Context (s : kstate) (pgdir : Z) (T : gmap Z Z) (va t : Z) (pd l' : list Z).
Hypothesis Hv : vm_ok s pgdir T (t :: l').
Hypothesis Ht : T !! PDX va = None.
Hypothesis Hpd : k_mem s !! pgdir = Some pd.

Lemma new_table_k_mem : k_mem (new_table s pgdir va t pd l') =
  <[pgdir := <[Z.to_nat (PDX va) := V2P t + 7]> pd]> (<[t := replicate 1024 0]> (k_mem s)).
Proof. reflexivity. Qed.

Lemma new_table_distinct : t <> pgdir /\ (t ∉ tabs T) /\ (t ∉ l') /\ (pgdir ∉ l') /\ (pgdir ∉ tabs T).
Proof.
  destruct Hv as [[_ Hn] _ _ Hp Hd Htab]. apply list.NoDup_cons in Hn as [Hn _]. apply not_elem_of_cons in Hd as [Hd1 Hd2].
  split; [done|]. split; [intros H; apply (Htab t H); left|]. split; [done|]. split; [done|].
  intros [i Hi]%elem_tabs. now destruct (pt_some _ _ _ _ Hp _ _ Hi) as (_ & _ & H & _).
Qed.

Lemma new_table_mem q : q <> pgdir -> q <> t -> k_mem (new_table s pgdir va t pd l') !! q = k_mem s !! q.
Proof. intros H1 H2. now rewrite new_table_k_mem, !lookup_insert_ne by done. Qed.

Lemma new_table_dir i : 0 <= i < 1024 -> tab_word (k_mem (new_table s pgdir va t pd l')) pgdir i =
  if decide (PDX va = i) then Some (V2P t + 7) else tab_word (k_mem s) pgdir i.
Proof.
  destruct new_table_distinct as (Hne & _). destruct (pt_dirpage _ _ _ _ (vm_tab _ _ _ _ Hv)) as (pd' & Hpd' & Hl). simplify_eq.
  intros Hi. rewrite new_table_k_mem, (tab_word_upd _ _ _ pd); [|now rewrite lookup_insert_ne|apply PDX_range|lia|done].
  case_decide; [done|]. now apply tab_word_ne.
Qed.

Lemma new_table_page : k_mem (new_table s pgdir va t pd l') !! t = Some (replicate 1024 0).
Proof. destruct new_table_distinct as (Hne & _). rewrite new_table_k_mem, lookup_insert_ne by done. apply lookup_insert_eq. Qed.

Lemma new_table_pgtab : pgtab (sym_end (k_sym s)) (k_mem (new_table s pgdir va t pd l')) pgdir (<[PDX va := t]> T).
Proof.
  destruct new_table_distinct as (Hne & Hnt & Hnl & Hdl & Hdt). pose proof (vm_tab _ _ _ _ Hv) as Hp.
  assert (pframe (sym_end (k_sym s)) t) as Hf by (apply (free_pframe s pgdir T (t :: l')); [done|left]).
  split.
  - apply Hp.
  - destruct (pt_dirpage _ _ _ _ Hp) as (pd' & Hpd' & Hl). simplify_eq. eexists. rewrite new_table_k_mem. split; [apply lookup_insert_eq|].
    now rewrite length_insert.
  - intros i t' [[<- <-]|[Hi Hti]]%lookup_insert_Some.
    + pose proof (PDX_range va). rewrite new_table_dir, decide_True, new_table_page by done. eauto 10 using length_replicate.
    + destruct (pt_some _ _ _ _ Hp _ _ Hti) as (H1 & H2 & H3 & H4 & H5).
      rewrite new_table_dir, decide_False, new_table_mem by (done || intros ->; apply Hnt, elem_tabs; eauto). eauto 10.
  - intros i Hi [Hti Hne']%lookup_insert_None. rewrite new_table_dir, decide_False by done. now apply Hp.
  - intros i j t' [[<- <-]|[Hi Hti]]%lookup_insert_Some [[<- E]|[Hj Htj]]%lookup_insert_Some; subst; try done.
    + destruct Hnt. apply elem_tabs. eauto.
    + destruct Hnt. apply elem_tabs. eauto.
    + exact (pt_inj _ _ _ _ Hp _ _ _ Hti Htj).
Qed.

Lemma new_table_ext : vm_ext pgdir s T (t :: l') (new_table s pgdir va t pd l') (<[PDX va := t]> T) l'.
Proof.
  destruct new_table_distinct as (Hne & Hnt & Hnl & Hdl & Hdt). split.
  - split.
    + destruct (vm_free _ _ _ _ Hv) as [Hc Hn]. apply list.NoDup_cons in Hn as [_ Hn]. split; [|done].
      destruct Hc as (_ & _ & n & pg & _ & _ & Hc). change (k_freelist (new_table s pgdir va t pd l')) with (default 0 (head l')).
      rewrite <- (chain_head _ _ _ _ Hc). eapply chain_frame_all; [|exact Hc].
      intros q Hq. apply new_table_mem; intros ->; done.
    + eapply kmem_idle_frame; [|apply Hv]. eexists _, _. reflexivity.
    + intros p Hp. apply (vm_u32 _ _ _ _ Hv). now right.
    + apply new_table_pgtab.
    + done.
    + intros q. rewrite tabs_insert by done. intros [->|Hq]%elem_of_cons; [done|]. intros H. apply (vm_tabs _ _ _ _ Hv q Hq). now right.
  - eexists _, _. reflexivity.
  - now apply insert_subseteq.
  - rewrite tabs_insert by done. simpl. apply Permutation_middle.
  - intros q Hq. rewrite tabs_insert by done. rewrite not_elem_of_cons. intros [H _]. now apply new_table_mem.
Qed.

Lemma new_table_pte va' : pte_at (k_mem (new_table s pgdir va t pd l')) (<[PDX va := t]> T) va' = pte_at (k_mem s) T va'.
Proof.
  destruct new_table_distinct as (Hne & Hnt & Hnl & Hdl & Hdt). unfold pte_at. destruct (decide (PDX va = PDX va')) as [E|E].
  - rewrite <- E, lookup_insert_eq, Ht. rewrite (tab_word_page _ _ _ _ new_table_page).
    rewrite lookup_replicate_2; [done|]. pose proof (PTX_range va'). lia.
  - rewrite lookup_insert_ne by done. destruct (T !! PDX va') as [q|] eqn:Eq; [|done].
    unfold tab_word. rewrite new_table_mem; [done| |]; intros ->; [apply Hdt|apply Hnt]; apply elem_tabs; eauto.
Qed.
End new_table.

(** walkpgdir(pgdir, va, 1): the entry of [va], in a table that it adds if it must and can; no entry
    changes. *)
Definition walked (pgdir va : Z) (s : kstate) (T : gmap Z Z) (l : list Z) (r : Z) (s' : kstate) : Prop :=
  (r = 0 /\ l = [] /\ s' = s) \/
  (exists T' l' t, T' !! PDX va = Some t /\ r = t + 4 * PTX va /\ vm_ext pgdir s T l s' T' l' /\
    forall va', pte_at (k_mem s') T' va' = pte_at (k_mem s) T va').

Lemma wp_walk_alloc pgdir va s T l : vm_ok s pgdir T l -> wp (walkpgdir pgdir va true) (walked pgdir va s T l) s.
Proof.
  intros Hv. destruct (T !! PDX va) as [t|] eqn:E.
  { apply (wp_walk_some s pgdir T l Hv va true t _ E). right. exists T, l, t. eauto using vm_ext_refl. }
  destruct l as [|t l']; [apply (wp_walk_nomem s pgdir T [] Hv); [done|done|left; done]|].
  destruct (pt_dirpage _ _ _ _ (vm_tab _ _ _ _ Hv)) as (pd & Hpd & _).
  apply (wp_walk_new s pgdir T (t :: l') Hv va t pd l'); [done|done|done|]. right. exists (<[PDX va := t]> T), l', t.
  rewrite lookup_insert_eq. split; [done|]. split; [done|]. split; [now apply new_table_ext|].
  intros va'. now apply new_table_pte.
Qed.

(** ** Entries change *)

(** A virtual address is its directory index, its table index and its offset. *)
Lemma same_page va va' : is_u32 va -> is_u32 va' -> PDX va = PDX va' -> PTX va = PTX va' -> va / 4096 = va' / 4096.
Proof. rewrite !PDX_spec, !PTX_spec. unfold is_u32. intros H1 H2 E1 E2. div_lia. Qed.

Lemma PDX_page va va' : va / 4096 = va' / 4096 -> PDX va = PDX va'.
Proof. rewrite !PDX_spec. intros E. change 4194304 with (4096 * 1024). now rewrite <- !Z.div_div, E by lia. Qed.
Lemma PTX_page va va' : va / 4096 = va' / 4096 -> PTX va = PTX va'.
Proof. rewrite !PTX_spec. now intros ->. Qed.

Section set_entry.
Context (s : kstate) (pgdir : Z) (T : gmap Z Z) (l : list Z) (va v t : Z) (pg : list Z).
Hypothesis Hv : vm_ok s pgdir T l.
Hypothesis Ht : T !! PDX va = Some t.
Hypothesis Hpg : k_mem s !! t = Some pg.

Let s' : kstate := s <| k_mem := <[t := <[Z.to_nat (PTX va) := v]> pg]> (k_mem s) |>.

Lemma set_entry_len : length pg = 1024%nat.
Proof. destruct (pt_some _ _ _ _ (vm_tab _ _ _ _ Hv) _ _ Ht) as (_ & _ & _ & _ & pg' & Hpg' & Hl). now simplify_eq. Qed.

Lemma set_entry_mem q : q <> t -> k_mem s' !! q = k_mem s !! q.
Proof. intros H. apply lookup_insert_ne. done. Qed.

Lemma set_entry_ext : vm_ext pgdir s T l s' T l.
Proof.
  pose proof set_entry_len as Hl. assert (t ∈ tabs T) as Hin by (apply elem_tabs; eauto).
  destruct (pt_some _ _ _ _ (vm_tab _ _ _ _ Hv) _ _ Ht) as (_ & _ & Hne & _).
  assert (mem_frame s s') as Hfr by (exists (k_mem s'), (k_freelist s); now destruct s).
  split; [|exact Hfr|done|done|].
  - split; [|eapply kmem_idle_frame; [exact Hfr|apply Hv]|apply Hv| |apply Hv|apply Hv].
    + destruct (vm_free _ _ _ _ Hv) as [Hc Hn]. split; [|done]. eapply chain_frame_all; [|exact Hc].
      intros q Hq. apply set_entry_mem. intros ->. now apply (vm_tabs _ _ _ _ Hv t).
    + pose proof (vm_tab _ _ _ _ Hv) as Hp. split; [apply Hp| | | |apply Hp].
      * rewrite set_entry_mem by done. apply Hp.
      * intros i t' Hi. destruct (pt_some _ _ _ _ Hp _ _ Hi) as (H1 & H2 & H3 & H4 & H5). split; [done|]. split; [done|].
        split; [done|]. split; [unfold tab_word in *; now rewrite set_entry_mem|]. destruct (decide (t' = t)) as [->|Hn].
        -- eexists. split; [apply lookup_insert_eq|]. now rewrite length_insert.
        -- now rewrite set_entry_mem.
      * intros i Hi Hn. unfold tab_word. rewrite set_entry_mem by done. now apply Hp.
  - intros q Hq Hnt. apply set_entry_mem. now intros ->.
Qed.

Lemma set_entry_pte va' : is_u32 va -> is_u32 va' ->
  pte_at (k_mem s') T va' = if decide (va / 4096 = va' / 4096) then v else pte_at (k_mem s) T va'.
Proof.
  intros Hu Hu'. pose proof set_entry_len as Hl. unfold pte_at. case_decide as E.
  - rewrite <- (PDX_page _ _ E), <- (PTX_page _ _ E), Ht. pose proof (PTX_range va). change (k_mem s') with (<[t := <[Z.to_nat (PTX va) := v]> pg]> (k_mem s)).
    rewrite (tab_word_upd _ _ _ pg), decide_True by (done || lia). done.
  - destruct (T !! PDX va') as [t'|] eqn:E'; [|done]. destruct (decide (t' = t)) as [->|Hn].
    + pose proof (pt_inj _ _ _ _ (vm_tab _ _ _ _ Hv) _ _ _ Ht E') as Ei. pose proof (PTX_range va). pose proof (PTX_range va').
      change (k_mem s') with (<[t := <[Z.to_nat (PTX va) := v]> pg]> (k_mem s)).
      rewrite (tab_word_upd _ _ _ pg), decide_False by (done || lia || (intros Et; apply E; now apply same_page)). done.
    + unfold tab_word. now rewrite set_entry_mem.
Qed.
End set_entry.

Lemma vm_entry s pgdir T l va t : vm_ok s pgdir T l -> T !! PDX va = Some t ->
  pframe (sym_end (k_sym s)) t /\ (exists pg, k_mem s !! t = Some pg) /\
  tab_word (k_mem s) t (PTX va) = Some (pte_at (k_mem s) T va).
Proof.
  intros Hv Ht. destruct (pt_some _ _ _ _ (vm_tab _ _ _ _ Hv) _ _ Ht) as (_ & Hf & _ & _ & pg & Hpg & Hl).
  split; [done|]. split; [eauto|]. unfold pte_at. rewrite Ht, (tab_word_page _ _ _ _ Hpg). pose proof (PTX_range va).
  destruct (lookup_lt_is_Some_2 pg (Z.to_nat (PTX va))) as [w ->]; [lia|done].
Qed.

(** ** mappages *)

(** mappages gives the [n] pages from [a] on the frames from [pa] on, or maps the first ones of them
    and runs out of pages for tables. *)
Definition mapped (pgdir a n pa perm : Z) (s : kstate) (T : gmap Z Z) (l : list Z) (r : Z) (s' : kstate) : Prop :=
  exists T' l' m, vm_ext pgdir s T l s' T' l' /\
    (forall va, is_u32 va -> pte_at (k_mem s') T' va =
       if decide (a <= va < a + 4096 * m) then Z.lor (Z.lor (pa + (va - a) / 4096 * 4096) perm) PTE_P else pte_at (k_mem s) T va) /\
    ((r = 0 /\ m = n) \/ (r = -1 /\ 0 <= m < n /\ l' = [])).

Lemma wp_map_step pgdir a pa perm (k : K Z) (Q : Z -> kstate -> Prop) s T l : vm_ok s pgdir T l ->
  is_u32 a -> a mod 4096 = 0 -> Z.land (pte_at (k_mem s) T a) PTE_P = 0 ->
  (l = [] -> Q (-1) s) ->
  (forall s' T' l', vm_ext pgdir s T l s' T' l' ->
    (forall va, is_u32 va -> pte_at (k_mem s') T' va =
      if decide (a <= va < a + 4096) then Z.lor (Z.lor pa perm) PTE_P else pte_at (k_mem s) T va) -> wp k Q s') ->
  wp (pte ← walkpgdir pgdir a true;
      if pte =? 0 then ret (-1) else
      e ← load32 pte;
      if negb (Z.land e PTE_P =? 0) then panic "remap" else
      store32 pte (Z.lor (Z.lor pa perm) PTE_P) ;; k) Q s.
Proof.
  intros Hv Hu Ha Hp Hno Hk. wp_steps. eapply wp_mono; [exact (wp_walk_alloc pgdir a s T l Hv)|].
  intros r s1 [(-> & Hl & ->)|(T1 & l1 & t & Ht & -> & He & Hpte)]; [wp_steps; now apply Hno|].
  destruct (vm_entry _ _ _ _ _ _ (ve_ok _ _ _ _ _ _ _ He) Ht) as (Hf & [pg Hpg] & Hw). pose proof (PTX_range a).
  pose proof (pframe_pos _ _ Hf). pose proof (pframe_mod _ _ Hf). apply wp_if_false; [lia|]. wp_steps.
  apply (wp_load_entry _ _ _ _ _ ltac:(done) ltac:(done) Hw). apply wp_if_false; [now rewrite Hpte, Hp|]. wp_steps.
  apply (wp_store_entry _ _ _ pg); [done|done|done|]. eapply Hk.
  - eapply vm_ext_trans; [exact He|]. eapply set_entry_ext; [apply He|done|done].
  - intros va Hva. rewrite (set_entry_pte s1 pgdir T1 l1 a _ t pg (ve_ok _ _ _ _ _ _ _ He) Ht Hpg va Hu Hva), Hpte.
    unfold is_u32 in *. repeat case_decide; try done; exfalso; div_lia.
Qed.

Lemma mappages_loop_S fuel pgdir a last pa perm :
  mappages_loop (S fuel) pgdir a last pa perm =
  (pte ← walkpgdir pgdir a true;
   if pte =? 0 then ret (-1) else
   e ← load32 pte;
   if negb (Z.land e PTE_P =? 0) then panic "remap" else
   store32 pte (Z.lor (Z.lor pa perm) PTE_P) ;;
   if a =? last then ret 0 else
   mappages_loop fuel pgdir (u32 (a + PGSIZE)) last (u32 (pa + PGSIZE)) perm).
Proof. reflexivity. Qed.

Lemma wp_mappages_loop pgdir perm n : forall a pa s T l, vm_ok s pgdir T l ->
  0 <= a -> a mod 4096 = 0 -> a + 4096 * Z.of_nat (S n) <= 4294967296 ->
  0 <= pa -> pa + 4096 * Z.of_nat n < 4294967296 ->
  (forall va, a <= va < a + 4096 * Z.of_nat (S n) -> Z.land (pte_at (k_mem s) T va) PTE_P = 0) ->
  wp (mappages_loop (S n) pgdir a (a + 4096 * Z.of_nat n) pa perm) (mapped pgdir a (Z.of_nat (S n)) pa perm s T l) s.
Proof.
  induction n as [|n IH]; intros a pa s T l Hv H0 Ha Hend Hpa Hpend Hfree; rewrite mappages_loop_S.
  all: apply wp_map_step with T l; [done|unfold is_u32; lia|done|apply Hfree; lia| |].
  all: try (intros ->; exists T, [], 0; split; [now apply vm_ext_refl|]; split;
       [intros va _; now rewrite decide_False by lia|right; split; [done|split; [lia|done]]]).
  all: intros s1 T1 l1 He Hpte.
  - apply wp_if_true; [lia|]. wp_steps. exists T1, l1, 1. split; [done|]. split; [|left; lia].
    intros va Hva. rewrite Hpte by done. repeat case_decide; try lia; try done. do 2 f_equal. div_lia.
  - apply wp_if_false; [lia|]. unfold PGSIZE. rewrite !u32_small by lia.
    replace (a + 4096 * Z.of_nat (S n)) with (a + 4096 + 4096 * Z.of_nat n) by lia.
    eapply wp_mono; [apply (IH (a + 4096) (pa + 4096) s1 T1 l1); try lia; [apply He|div_lia|]|].
    + intros va Hva. rewrite Hpte by (unfold is_u32; lia). rewrite decide_False by lia. apply Hfree. lia.
    + intros r s2 (T2 & l2 & m & He2 & Hpte2 & Hr). exists T2, l2, (m + 1). split; [eapply vm_ext_trans; eassumption|].
      split; [|intuition lia]. assert (0 <= m) by lia. intros va Hva. rewrite Hpte2, Hpte by done.
      repeat case_decide; try lia; try done; do 2 f_equal; div_lia.
Qed.

Lemma wp_mappages pgdir va size pa perm n s T l : vm_ok s pgdir T l ->
  0 <= va -> 0 < size -> va + size <= 4294967296 -> n = (va mod 4096 + size + 4095) / 4096 ->
  0 <= pa -> pa + 4096 * (n - 1) < 4294967296 ->
  (forall x, va - va mod 4096 <= x < va - va mod 4096 + 4096 * n -> Z.land (pte_at (k_mem s) T x) PTE_P = 0) ->
  wp (mappages pgdir va size pa perm) (mapped pgdir (va - va mod 4096) n pa perm s T l) s.
Proof.
  intros Hv H0 Hs Hend Hn Hpa Hpend Hfree. assert (1 <= n) by div_lia. unfold mappages.
  rewrite (u32_small (va + size - 1)), !PGROUNDDOWN_spec by (unfold is_u32; lia). unfold PGSIZE.
  replace (va + size - 1 - (va + size - 1) mod 4096) with (va - va mod 4096 + 4096 * Z.of_nat (Z.to_nat (n - 1))) by div_lia.
  replace (Z.to_nat (u32 _ / 4096)) with (Z.to_nat (n - 1)) by (rewrite u32_small by div_lia; div_lia).
  eapply wp_mono; [apply (wp_mappages_loop pgdir perm (Z.to_nat (n - 1)) (va - va mod 4096) pa s T l); [done|div_lia..|]|].
  - intros x Hx. apply Hfree. lia.
  - intros r s'. now replace (Z.of_nat (S (Z.to_nat (n - 1)))) with n by lia.
Qed.

(** ** What the MMU sees *)

(** The translation of [va] is what its entry says. *)
Definition mmu (e va : Z) (write : bool) : option Z :=
  if (Z.land e PTE_P =? 0) || (write && (Z.land e PTE_W =? 0)) then None else Some (P2V (PTE_ADDR e) + va mod PGSIZE).

Lemma load_entry_eq t i w s : t mod PGSIZE = 0 -> 0 <= i < 1024 -> tab_word (k_mem s) t i = Some w ->
  load32 (t + 4 * i) s = Ok w s.
Proof.
  intros Ht Hi Hw. assert (wp (load32 (t + 4 * i)) (fun r s' => r = w /\ s' = s) s) as H by now apply (wp_load_entry t i w).
  now apply wp_ok in H as (? & ? & ? & -> & ->).
Qed.

Lemma translate_eq s pgdir T l va write : vm_ok s pgdir T l ->
  translate pgdir va write s =
  match mmu (pte_at (k_mem s) T va) va write with Some a => Ok a s | None => Fault "page fault" end.
Proof.
  intros Hv. pose proof (pframe_mod _ _ (pt_dir _ _ _ _ (vm_tab _ _ _ _ Hv))) as Hd. unfold translate.
  destruct (T !! PDX va) as [t|] eqn:Et.
  - destruct (pt_some _ _ _ _ (vm_tab _ _ _ _ Hv) _ _ Et) as (_ & Hf & _ & Hw & _).
    erewrite bind_ok by exact (load_entry_eq _ _ _ _ Hd (PDX_range va) Hw).
    rewrite land_low; [|eapply V2P_page, pframe_mod; eassumption|lia|unfold PTE_P; lia]. change (Z.land 7 PTE_P =? 0) with false. cbv iota.
    rewrite (pframe_P2V _ _ 7 Hf) by lia.
    erewrite bind_ok by exact (load_entry_eq _ _ _ _ (pframe_mod _ _ Hf) (PTX_range va) (proj2 (proj2 (vm_entry _ _ _ _ _ _ Hv Et)))).
    unfold mmu. now destruct (_ || _).
  - destruct (pt_none _ _ _ _ (vm_tab _ _ _ _ Hv) _ (PDX_range va) Et) as (w & Hw & Hp).
    erewrite bind_ok by exact (load_entry_eq _ _ _ _ Hd (PDX_range va) Hw). rewrite Hp. unfold pte_at. now rewrite Et.
Qed.

(** C28: mappages maps. With nothing mapped on the pages of [va, va+size), mappages returns 0 or -1.
    If it returns 0, the MMU translates every address of those pages into the frames from [pa] on,
    for reading, and for writing if [perm] has PTE_W; if it returns -1, no page was left for a
    table. The translations of all other addresses stay, the tables it adds come from the free
    pages, and no other page frame changes. *)
Theorem mappages_correct pgdir va size pa perm s T l : vm_ok s pgdir T l ->
  0 <= va -> 0 < size -> va + size <= 4294967296 ->
  pa mod 4096 = 0 -> 0 <= pa -> pa + va mod 4096 + size <= 4294967296 -> 0 <= perm < 4096 ->
  (forall x, va / 4096 <= x / 4096 <= (va + size - 1) / 4096 -> Z.land (pte_at (k_mem s) T x) PTE_P = 0) ->
  wp (mappages pgdir va size pa perm) (fun r s' => exists T' l', vm_ext pgdir s T l s' T' l' /\
    (r = 0 \/ (r = -1 /\ l' = [])) /\
    (r = 0 -> forall x write, va / 4096 <= x / 4096 <= (va + size - 1) / 4096 -> (write = true -> Z.land perm PTE_W <> 0) ->
       translate pgdir x write s' = Ok (P2V (pa + (x / 4096 - va / 4096) * 4096) + x mod 4096) s') /\
    (forall x write a, is_u32 x -> ~ (va / 4096 <= x / 4096 <= (va + size - 1) / 4096) ->
       translate pgdir x write s' = Ok a s' <-> translate pgdir x write s = Ok a s)) s.
Proof.
  intros Hv H0 Hs Hend Hpm Hpa Hpend Hperm Hfree.
  eapply wp_mono; [apply (wp_mappages pgdir va size pa perm _ s T l Hv H0 Hs Hend eq_refl Hpa); [div_lia|intros x Hx; apply Hfree; div_lia]|].
  intros r s' (T' & l' & m & He & Hpte & Hr). exists T', l'. split; [done|]. split; [intuition|]. split.
  - intros -> x write Hx Hw. destruct Hr as [[_ ->]|Hr]; [|lia]. assert (is_u32 x) as Hu by (unfold is_u32; div_lia).
    rewrite (translate_eq s' pgdir T' l') by apply He. rewrite Hpte, decide_True by (done || div_lia).
    replace ((x - (va - va mod 4096)) / 4096) with (x / 4096 - va / 4096) by div_lia.
    set (q := pa + _). assert (q mod 4096 = 0) by (subst q; div_lia). assert (is_u32 q) by (subst q; unfold is_u32; div_lia).
    assert (0 <= Z.lor perm 1 < 4096) as Hl1 by (apply lor_bound; lia).
    unfold mmu. rewrite <- Z.lor_assoc. change PTE_P with 1. rewrite lor_low, !land_low, PTE_ADDR_low by (done || lia).
    rewrite (proj2 (Z.eqb_neq _ _)) by (apply lor_1_odd). rewrite orb_false_l.
    destruct write; [|done]. rewrite (proj2 (Z.eqb_neq _ _)); [done|]. rewrite Z.land_lor_distr_l. now rewrite Z.lor_0_r; apply Hw.
  - intros x write a Hu Hx. rewrite (translate_eq s' pgdir T' l'), (translate_eq s pgdir T l) by (done || apply He).
    rewrite Hpte, decide_False by (done || div_lia). destruct (mmu _ _ _); split; congruence.
Qed.

(** An empty directory at 0x80200000, and three free pages. *)
Definition ex_vm_free : list Z := [0x80201000; 0x80202000; 0x80203000].
Definition ex_vm : kstate :=
  (pages_state ex_vm_free) <| k_mem := <[0x80200000 := replicate 1024 0]> (link_pages ex_vm_free) |>.

Lemma ex_vm_free_list : free_list ex_vm ex_vm_free.
Proof.
  split; [|apply (bool_decide_unpack _); reflexivity]. apply (chain_frame_all _ (link_pages ex_vm_free)).
  { intros q Hq. apply lookup_insert_ne. intros <-. revert Hq. apply (bool_decide_unpack _). reflexivity. }
  simpl. repeat (split; [done|]; split; [now apply kpage_dec_ok|]; eexists _, _; split; [reflexivity|]; split; [reflexivity|]).
  reflexivity.
Qed.

Lemma ex_vm_ok : vm_ok ex_vm 0x80200000 ∅ ex_vm_free.
Proof.
  split; [apply ex_vm_free_list|left; reflexivity| | |apply (bool_decide_unpack _); reflexivity|].
  - intros p Hp. unfold is_u32. repeat (apply elem_of_cons in Hp as [->|Hp]; [lia|]). now apply not_elem_of_nil in Hp.
  - assert (k_mem ex_vm !! 0x80200000 = Some (replicate 1024 0)) as E by apply lookup_insert_eq. split.
    + split; [now apply kpage_dec_ok|unfold is_u32; lia].
    + exists (replicate 1024 0). split; [done|apply length_replicate].
    + intros i t. now rewrite lookup_empty.
    + intros i Hi _. exists 0. split; [|done]. rewrite (tab_word_page _ _ _ _ E). apply lookup_replicate_2. lia.
    + intros i j t. now rewrite lookup_empty.
  - intros t [i Hi]%elem_tabs. now rewrite lookup_empty in Hi.
Qed.

Lemma mappages_correct_witness :
  vm_ok ex_vm 0x80200000 ∅ ex_vm_free /\
  wp (mappages 0x80200000 0x1234 0x2000 0x300000 6) (fun r s' => r = 0 \/ r = -1) ex_vm.
Proof.
  split; [exact ex_vm_ok|]. eapply wp_mono.
  - apply (mappages_correct 0x80200000 0x1234 0x2000 0x300000 6 ex_vm ∅ ex_vm_free ex_vm_ok); try reflexivity; try (now vm_compute; intuition).
  - intros r s' (T' & l' & _ & Hr & _). intuition.
Defined.
