(* ===== verification/Uvm.v ===== *)
(** User address spaces: growing, shrinking, freeing and copying the memory of a process, vm.c's
    allocuvm, deallocuvm, freevm, setupkvm and copyuvm, over the page tables of Pagetable.v. *)

From stdpp Require Import base list gmap strings numbers fin_maps.
From Stdlib Require Import ZArith Lia.
From S2P Require Import Prelude Bytes Itoa Kstate Mmu Cons Kalloc Conline Vm Proc Pagetable.
Open Scope Z_scope.

(** ** Page frames outside the tables *)

Lemma pte_at_page mem T x y : x / 4096 = y / 4096 -> pte_at mem T x = pte_at mem T y.
Proof. intros E. unfold pte_at. now rewrite (PDX_page _ _ E), (PTX_page _ _ E). Qed.

Lemma vm_dir_tabs s pgdir T l : vm_ok s pgdir T l -> pgdir ∉ tabs T.
Proof. intros Hv [i Hi]%elem_tabs. now destruct (pt_some _ _ _ _ (vm_tab _ _ _ _ Hv) _ _ Hi) as (_ & _ & H & _). Qed.

(** The tables of [s] are those of [s'] if their pages are the same. *)
Lemma pgtab_frame e mem mem' pgdir T : (forall q, q = pgdir \/ q ∈ tabs T -> mem' !! q = mem !! q) ->
  pgtab e mem pgdir T -> pgtab e mem' pgdir T.
Proof.
  intros Hm Hp. split; [apply Hp| | | |apply Hp].
  - rewrite Hm by now left. apply Hp.
  - intros i t Hi. unfold tab_word. rewrite (Hm pgdir) by now left.
    rewrite (Hm t) by (right; apply elem_tabs; eauto). now apply Hp.
  - intros i Hi Hn. unfold tab_word. rewrite Hm by now left. now apply Hp.
Qed.

(** A state with the same tables and the free pages [l']. *)
Lemma vm_ok_other s s' pgdir T l l' : vm_ok s pgdir T l -> k_sym s' = k_sym s ->
  free_list s' l' -> kmem_idle s' -> (forall p, p ∈ l' -> is_u32 p) -> (pgdir ∉ l') -> (forall t, t ∈ tabs T -> t ∉ l') ->
  (forall q, q = pgdir \/ q ∈ tabs T -> k_mem s' !! q = k_mem s !! q) -> vm_ok s' pgdir T l'.
Proof.
  intros Hv Hsym Hf Hi Hu Hd Ht Hm. split; auto. rewrite Hsym. eapply pgtab_frame; [exact Hm|apply Hv].
Qed.

Lemma vm_ok_alloc s pgdir T u l : vm_ok s pgdir T (u :: l) -> vm_ok (kalloc_post (u :: l) s) pgdir T l.
Proof.
  intros Hv. apply (vm_ok_other s _ pgdir T (u :: l)); [done|done| |apply Hv| | | |done].
  - apply (free_list_kalloc s u l), Hv.
  - intros p Hp. apply (vm_u32 _ _ _ _ Hv). now right.
  - intros H. apply (vm_dir _ _ _ _ Hv). now right.
  - intros t Ht H. apply (vm_tabs _ _ _ _ Hv t Ht). now right.
Qed.

(** [u] is a page frame nobody else has. *)
Record loose (s : kstate) (pgdir : Z) (T : gmap Z Z) (l : list Z) (u : Z) : Prop := {
  lo_frame : pframe (sym_end (k_sym s)) u;
  lo_dir : u <> pgdir;
  lo_tabs : u ∉ tabs T;
  lo_free : u ∉ l
}.

Lemma loose_head s pgdir T u l : vm_ok s pgdir T (u :: l) -> loose s pgdir T l u.
Proof.
  intros Hv. split.
  - apply (free_pframe s pgdir T (u :: l)); [done|left].
  - intros ->. apply (vm_dir _ _ _ _ Hv). left.
  - intros H. apply (vm_tabs _ _ _ _ Hv u H). left.
  - destruct (vm_free _ _ _ _ Hv) as [_ Hn]. now apply list.NoDup_cons in Hn as [Hn _].
Qed.

Lemma free_list_mem s l m : free_list s l -> (forall q, q ∈ l -> m !! q = k_mem s !! q) -> free_list (s <| k_mem := m |>) l.
Proof. intros [Hc Hn] Hm. split; [|done]. eapply chain_frame_all; [exact Hm|exact Hc]. Qed.

Lemma vm_ok_write s pgdir T l u pg : vm_ok s pgdir T l -> loose s pgdir T l u ->
  vm_ok (s <| k_mem := <[u := pg]> (k_mem s) |>) pgdir T l.
Proof.
  intros Hv [_ Hd Ht Hl]. apply (vm_ok_other s _ pgdir T l); [done|done| |apply Hv|apply Hv|apply Hv|apply Hv|].
  - apply free_list_mem; [apply Hv|]. intros q Hq. apply lookup_insert_ne. now intros ->.
  - intros q Hq. apply lookup_insert_ne. intros ->. now destruct Hq.
Qed.

Lemma vm_ok_kfree s pgdir T l u : vm_ok s pgdir T l -> loose s pgdir T l u -> vm_ok (kfree_post u s) pgdir T (u :: l).
Proof.
  intros Hv [Hf Hd Ht Hl]. apply (vm_ok_other s _ pgdir T l); [done|done| |apply Hv| | | |].
  - apply free_list_kfree; [apply Hf|done|apply Hv].
  - intros p [->|Hp]%elem_of_cons; [apply Hf|now apply (vm_u32 _ _ _ _ Hv)].
  - intros [->|H]%elem_of_cons; [done|now apply (vm_dir _ _ _ _ Hv)].
  - intros t Hin [->|H]%elem_of_cons; [done|now apply (vm_tabs _ _ _ _ Hv t Hin)].
  - intros q Hq. apply lookup_insert_ne. intros ->. now destruct Hq.
Qed.

Lemma loose_ext s pgdir T l s' T' l' u : vm_ext pgdir s T l s' T' l' -> loose s pgdir T l u -> loose s' pgdir T' l' u.
Proof.
  intros He [Hf Hd Ht Hl]. assert (u ∉ l' ++ tabs T') as H.
  { rewrite <- (ve_pages _ _ _ _ _ _ _ He). rewrite elem_of_app. naive_solver. }
  rewrite elem_of_app in H. split; [|done|naive_solver|naive_solver].
  destruct (mem_frame_fields _ _ (ve_frame _ _ _ _ _ _ _ He)) as [-> _]. done.
Qed.

Lemma loose_keep s pgdir T l s' T' l' u : vm_ext pgdir s T l s' T' l' -> loose s pgdir T l u -> k_mem s' !! u = k_mem s !! u.
Proof. intros He Hl. apply He; [apply Hl|]. now apply (loose_ext _ _ _ _ _ _ _ _ He Hl). Qed.

(** ** Address spaces *)

(** The user pages of a directory: virtual page number to page frame and flags. *)
Definition upages (U : gmap Z (Z * Z)) : list Z := (map_to_list U).*2.*1.

Lemma elem_upages U u : u ∈ upages U <-> exists n fl, U !! n = Some (u, fl).
Proof.
  unfold upages. rewrite list_elem_of_fmap. split.
  - intros ([u' fl] & -> & H). apply list_elem_of_fmap in H as ([n p] & E & H%elem_of_map_to_list). simpl in *. subst. eauto.
  - intros (n & fl & H). exists (u, fl). split; [done|]. apply list_elem_of_fmap. exists (n, (u, fl)). split; [done|].
    now apply elem_of_map_to_list.
Qed.

Lemma upages_insert U n p : U !! n = None -> upages (<[n := p]> U) ≡ₚ p.1 :: upages U.
Proof. intros H. unfold upages. now rewrite map_to_list_insert. Qed.

Lemma upages_delete U n p : U !! n = Some p -> upages U ≡ₚ p.1 :: upages (delete n U).
Proof. intros H. rewrite <- upages_insert by apply lookup_delete_eq. now rewrite insert_delete_id. Qed.

Definition NUPAGES : Z := 524288.

Record uvm (s : kstate) (pgdir : Z) (T : gmap Z Z) (U : gmap Z (Z * Z)) (l : list Z) : Prop := {
  uv_vm : vm_ok s pgdir T l;
  uv_end : KERNBASE < sym_end (k_sym s);
  uv_some : forall n u fl, U !! n = Some (u, fl) ->
    0 <= n < NUPAGES /\ loose s pgdir T l u /\ 0 <= fl < 4096 /\ Z.land fl PTE_P <> 0 /\
    pte_at (k_mem s) T (n * 4096) = V2P u + fl /\ exists pg, k_mem s !! u = Some pg /\ length pg = 1024%nat;
  uv_none : forall n, 0 <= n < NUPAGES -> U !! n = None -> Z.land (pte_at (k_mem s) T (n * 4096)) PTE_P = 0;
  uv_inj : forall n m u f1 f2, U !! n = Some (u, f1) -> U !! m = Some (u, f2) -> n = m
}.

(** Console output and page frames may change, nothing else. *)
Definition vframe (s s' : kstate) : Prop :=
  exists m f o crt pos, s' = screen (s <| k_mem := m |> <| k_freelist := f |>) o crt pos /\
    (crt_ok (k_crt s) (k_crtpos s) -> crt_ok crt pos).

Lemma vframe_refl s : vframe s s.
Proof. exists (k_mem s), (k_freelist s), (k_conout s), (k_crt s), (k_crtpos s). now destruct s. Qed.

Lemma vframe_trans s1 s2 s3 : vframe s1 s2 -> vframe s2 s3 -> vframe s1 s3.
Proof.
  intros (m & f & o & c & p & -> & H) (m' & f' & o' & c' & p' & -> & H'). exists m', f', o', c', p'. split; [reflexivity|].
  intros Hc. now apply H', H.
Qed.

Lemma vframe_mem s s' : mem_frame s s' -> vframe s s'.
Proof. intros (m & f & ->). exists m, f, (k_conout s), (k_crt s), (k_crtpos s). now destruct s. Qed.

Lemma vframe_fields s s' : vframe s s' ->
  k_sym s' = k_sym s /\ k_held s' = k_held s /\ k_uselock s' = k_uselock s /\ k_devsw s' = k_devsw s /\
  (crt_ok (k_crt s) (k_crtpos s) -> crt_ok (k_crt s') (k_crtpos s')).
Proof. now intros (m & f & o & c & p & -> & H). Qed.

(** The entries of the kernel's addresses are the same. *)
Definition same_kernel (s : kstate) (T : gmap Z Z) (s' : kstate) (T' : gmap Z Z) : Prop :=
  forall va, is_u32 va -> KERNBASE <= va -> pte_at (k_mem s') T' va = pte_at (k_mem s) T va.

(** What an operation on an address space does to the page frames: none is lost, and the frames that
    are neither free nor part of the address space, and those of the user pages that stay, keep
    their contents; and the kernel's part of the map stays. *)
Record uv_step (pgdir : Z) (s : kstate) T U (l : list Z) (s' : kstate) T' U' (l' : list Z) : Prop := {
  us_uvm : uvm s' pgdir T' U' l';
  us_frame : vframe s s';
  us_sub : T ⊆ T';
  us_pages : l ++ tabs T ++ upages U ≡ₚ l' ++ tabs T' ++ upages U';
  us_out : forall q, q <> pgdir -> (q ∉ l ++ tabs T ++ upages U) -> k_mem s' !! q = k_mem s !! q;
  us_keep : forall n p, U !! n = Some p -> U' !! n = Some p -> k_mem s' !! p.1 = k_mem s !! p.1;
  us_kernel : same_kernel s T s' T'
}.

Lemma uv_step_refl pgdir s T U l : uvm s pgdir T U l -> uv_step pgdir s T U l s T U l.
Proof. intros H. split; [done|apply vframe_refl|done|done|done|done|done]. Qed.

Lemma uv_step_trans pgdir s T U l s1 T1 U1 l1 s2 T2 U2 l2 :
  uv_step pgdir s T U l s1 T1 U1 l1 -> uv_step pgdir s1 T1 U1 l1 s2 T2 U2 l2 ->
  (forall n p, U !! n = Some p -> U2 !! n = Some p -> U1 !! n = Some p) ->
  uv_step pgdir s T U l s2 T2 U2 l2.
Proof.
  intros [A1 A2 A3 A4 A5 A6 A7] [B1 B2 B3 B4 B5 B6 B7] Hm.
  split; [done|eapply vframe_trans; eassumption|by etrans|by etrans| | |].
  - intros q Hq Hout. rewrite B5; [now apply A5|done|]. now rewrite <- A4.
  - intros n p Hp Hp2. pose proof (Hm n p Hp Hp2) as Hp1. rewrite (B6 n p Hp1 Hp2). now apply (A6 n p).
  - intros va Hu Hk. rewrite B7 by done. now apply A7.
Qed.

(** A table operation that keeps the entries of the user pages. *)
Lemma uvm_tables s pgdir T U l s' T' l' : uvm s pgdir T U l -> vm_ext pgdir s T l s' T' l' ->
  (forall n, 0 <= n < NUPAGES -> pte_at (k_mem s') T' (n * 4096) = pte_at (k_mem s) T (n * 4096)) ->
  uvm s' pgdir T' U l'.
Proof.
  intros [H1 H2 H3 H4 H5] He Hp. destruct (mem_frame_fields _ _ (ve_frame _ _ _ _ _ _ _ He)) as [Hsym _].
  split; [apply He|now rewrite Hsym| | |done].
  - intros n u fl Hn. destruct (H3 n u fl Hn) as (A1 & A2 & A3 & A4 & A5 & A6). split; [done|].
    split; [now apply (loose_ext _ _ _ _ _ _ _ _ He)|]. rewrite Hp, (loose_keep _ _ _ _ _ _ _ _ He A2) by done. eauto.
  - intros n Hn Hu. rewrite Hp by done. eauto.
Qed.

(** A state with the same tables and user pages, and the free pages [l']. *)
Lemma uvm_other s s' pgdir T U l l' : uvm s pgdir T U l -> vm_ok s' pgdir T l' -> k_sym s' = k_sym s ->
  (forall q, q ∈ tabs T ++ upages U -> k_mem s' !! q = k_mem s !! q) -> (forall u, u ∈ upages U -> u ∉ l') ->
  uvm s' pgdir T U l'.
Proof.
  intros [H1 H2 H3 H4 H5] Hv Hsym Hm Hl.
  assert (forall x, pte_at (k_mem s') T x = pte_at (k_mem s) T x) as Hp.
  { intros x. apply pte_at_frame. intros t Ht. apply Hm, elem_of_app. now left. }
  split; [done|now rewrite Hsym| | |done].
  - intros n u fl Hn. destruct (H3 n u fl Hn) as (A1 & A2 & A3 & A4 & A5 & A6).
    assert (u ∈ upages U) as Hu by (apply elem_upages; eauto). split; [done|].
    split; [destruct A2; split; [now rewrite Hsym|done|done|now apply Hl]|].
    rewrite Hp, Hm by (apply elem_of_app; now right). auto.
  - intros n Hn Hu. rewrite Hp. eauto.
Qed.

Lemma uvm_out s pgdir T U u l : uvm s pgdir T U (u :: l) -> u ∉ upages U.
Proof.
  intros Hv (n & fl & Hn)%elem_upages. destruct (uv_some _ _ _ _ _ Hv _ _ _ Hn) as (_ & [_ _ _ H] & _). apply H. left.
Qed.

Lemma uvm_alloc s pgdir T U u l : uvm s pgdir T U (u :: l) -> uvm (kalloc_post (u :: l) s) pgdir T U l.
Proof.
  intros Hv. apply (uvm_other s _ pgdir T U (u :: l)); [done|apply vm_ok_alloc, Hv|done|done|].
  intros v (n & fl & Hn)%elem_upages Hl. destruct (uv_some _ _ _ _ _ Hv _ _ _ Hn) as (_ & [_ _ _ H] & _). apply H. now right.
Qed.

Lemma uvm_write s pgdir T U l u pg : uvm s pgdir T U l -> loose s pgdir T l u -> u ∉ upages U ->
  uvm (s <| k_mem := <[u := pg]> (k_mem s) |>) pgdir T U l.
Proof.
  intros Hv Hl Hu. apply (uvm_other s _ pgdir T U l); [done|apply vm_ok_write; [apply Hv|done]|done| |].
  - intros q Hq. apply lookup_insert_ne. intros ->. apply elem_of_app in Hq as [Hq|Hq]; [now destruct Hl|done].
  - intros v (n & fl & Hn)%elem_upages. now destruct (uv_some _ _ _ _ _ Hv _ _ _ Hn) as (_ & [_ _ _ H] & _).
Qed.

Lemma uvm_kfree s pgdir T U l u : uvm s pgdir T U l -> loose s pgdir T l u -> u ∉ upages U ->
  uvm (kfree_post u s) pgdir T U (u :: l).
Proof.
  intros Hv Hl Hu. apply (uvm_other s _ pgdir T U l); [done|apply vm_ok_kfree; [apply Hv|done]|done| |].
  - intros q Hq. apply lookup_insert_ne. intros ->. apply elem_of_app in Hq as [Hq|Hq]; [now destruct Hl|done].
  - intros v Hv' [->|Hin]%elem_of_cons; [done|]. apply elem_upages in Hv' as (n & fl & Hn).
    now destruct (uv_some _ _ _ _ _ Hv _ _ _ Hn) as (_ & [_ _ _ H] & _).
Qed.

Lemma uvm_insert s pgdir T U l n u fl s' T' l' : uvm s pgdir T U l -> U !! n = None -> 0 <= n < NUPAGES ->
  loose s pgdir T l u -> (u ∉ upages U) -> (exists pg, k_mem s !! u = Some pg /\ length pg = 1024%nat) ->
  0 <= fl < 4096 -> Z.land fl PTE_P <> 0 -> vm_ext pgdir s T l s' T' l' ->
  (forall m, 0 <= m < NUPAGES -> pte_at (k_mem s') T' (m * 4096) = if decide (m = n) then V2P u + fl else pte_at (k_mem s) T (m * 4096)) ->
  uvm s' pgdir T' (<[n := (u, fl)]> U) l'.
Proof.
  intros [H1 H2 H3 H4 H5] Hn Hr Hl Hu Hpg Hf1 Hf2 He Hp. destruct (mem_frame_fields _ _ (ve_frame _ _ _ _ _ _ _ He)) as [Hsym _].
  split; [apply He|now rewrite Hsym| | |].
  - intros m v f [[<- [= <- <-]]|[Hne Hm]]%lookup_insert_Some.
    + split; [done|]. split; [now apply (loose_ext _ _ _ _ _ _ _ _ He)|].
      rewrite Hp, decide_True, (loose_keep _ _ _ _ _ _ _ _ He Hl) by done. auto.
    + destruct (H3 m v f Hm) as (A1 & A2 & A3 & A4 & A5 & A6). split; [done|].
      split; [now apply (loose_ext _ _ _ _ _ _ _ _ He)|]. rewrite Hp, decide_False, (loose_keep _ _ _ _ _ _ _ _ He A2) by done. auto.
  - intros m Hm [Hum Hne]%lookup_insert_None. rewrite Hp, decide_False by done. eauto.
  - intros a b v f1 f2 [[Ea Fa]|[Ha1 Ha2]]%lookup_insert_Some [[Eb Fb]|[Hb1 Hb2]]%lookup_insert_Some; simplify_eq; try done.
    + destruct Hu. apply elem_upages. eauto.
    + destruct Hu. apply elem_upages. eauto.
    + eauto.
Qed.

Lemma kfree_pte s pgdir T l u x : loose s pgdir T l u -> pte_at (k_mem (kfree_post u s)) T x = pte_at (k_mem s) T x.
Proof. intros Hl. apply pte_at_frame. intros t Ht. apply lookup_insert_ne. intros ->. now destruct Hl. Qed.

(** kfree of the user page [n] and the clearing of its entry. *)
Lemma uvm_delete s pgdir T U l n u fl s' T' l' : uvm s pgdir T U l -> U !! n = Some (u, fl) ->
  vm_ext pgdir (kfree_post u s) T (u :: l) s' T' l' ->
  (forall m, 0 <= m < NUPAGES -> pte_at (k_mem s') T' (m * 4096) =
     if decide (m = n) then 0 else pte_at (k_mem (kfree_post u s)) T (m * 4096)) ->
  uvm s' pgdir T' (delete n U) l'.
Proof.
  intros Hv Hn He Hp. pose proof (uv_some _ _ _ _ _ Hv _ _ _ Hn) as (Hr & Hl & _).
  destruct Hv as [H1 H2 H3 H4 H5]. destruct (mem_frame_fields _ _ (ve_frame _ _ _ _ _ _ _ He)) as [Hsym _].
  assert (forall x, pte_at (k_mem (kfree_post u s)) T x = pte_at (k_mem s) T x) as Hp0 by (intros x; now apply (kfree_pte s pgdir T l)).
  split; [apply He|now rewrite Hsym| | |].
  - intros m v f [Hne Hm]%lookup_delete_Some. destruct (H3 m v f Hm) as (A1 & A2 & A3 & A4 & A5 & A6).
    assert (v <> u) as Huv by (intros ->; apply Hne; eauto).
    assert (loose (kfree_post u s) pgdir T (u :: l) v) as Hlv.
    { destruct A2. split; [done|done|done|]. now apply not_elem_of_cons. }
    split; [done|]. split; [now apply (loose_ext _ _ _ _ _ _ _ _ He)|].
    rewrite Hp, decide_False, Hp0, (loose_keep _ _ _ _ _ _ _ _ He Hlv) by done. split; [done|]. split; [done|]. split; [done|].
    destruct A6 as (pg & E & Hlen). exists pg. split; [|done]. change (k_mem (kfree_post u s)) with (<[u := k_freelist s :: replicate 1023 0x01010101]> (k_mem s)).
    now rewrite lookup_insert_ne.
  - intros m Hm Hum. rewrite Hp by done. case_decide; [done|]. rewrite Hp0. apply H4; [done|]. now rewrite lookup_delete_ne in Hum.
  - intros a b v f1 f2 [_ Ha]%lookup_delete_Some [_ Hb]%lookup_delete_Some. eauto.
Qed.

(** ** deallocuvm *)

(** The user pages outside [a, b). *)
Definition cut (a b : Z) (U : gmap Z (Z * Z)) : gmap Z (Z * Z) := filter (fun p => ~ (a <= p.1 * 4096 < b)) U.

Lemma cut_lookup a b U n : cut a b U !! n = if decide (a <= n * 4096 < b) then None else U !! n.
Proof.
  unfold cut. case_decide as E.
  - apply map_lookup_filter_None. right. intros x _ H. now apply H.
  - destruct (U !! n) as [p|] eqn:Hn; [now apply map_lookup_filter_Some|]. apply map_lookup_filter_None. now left.
Qed.

Lemma cut_empty a b U : b <= a -> cut a b U = U.
Proof. intros H. apply map_eq. intros n. rewrite cut_lookup, decide_False by lia. done. Qed.

Lemma cut_delete a b n U : a = n * 4096 -> a < b -> cut (a + 4096) b (delete n U) = cut a b U.
Proof.
  intros -> Hb. apply map_eq. intros m. rewrite !cut_lookup. destruct (decide (n = m)) as [->|Hne].
  - rewrite lookup_delete_eq, (decide_True (P := m * 4096 <= m * 4096 < b)) by lia. now case_decide.
  - rewrite lookup_delete_ne by done. repeat case_decide; try done; lia.
Qed.

(** Skipping pages that are not there. *)
Lemma cut_skip a a' b U : a <= a' -> (forall n, a <= n * 4096 < a' -> n * 4096 < b -> U !! n = None) -> cut a' b U = cut a b U.
Proof.
  intros Ha Hn. apply map_eq. intros m. rewrite !cut_lookup. repeat case_decide; try done; try lia. symmetry. symmetry. apply Hn; lia.
Qed.

Lemma V2P_nonzero s u : KERNBASE < sym_end (k_sym s) -> pframe (sym_end (k_sym s)) u -> V2P u <> 0.
Proof. intros He [(_ & H & _) Hu]. unfold V2P, KERNBASE, is_u32 in *. word_lia. Qed.

(** One page of the loop of deallocuvm. *)
Lemma wp_dealloc_page pgdir T U s l n t (k : K unit) (Q : unit -> kstate -> Prop) : uvm s pgdir T U l -> 0 <= n < NUPAGES ->
  T !! PDX (n * 4096) = Some t ->
  (forall s' l', uv_step pgdir s T U l s' T (delete n U) l' -> wp k Q s') ->
  wp (e ← load32 (t + 4 * PTX (n * 4096));
      (if negb (Z.land e PTE_P =? 0) then
         let pa := PTE_ADDR e in
         if pa =? 0 then panic "kfree" else
         kfree (P2V pa) ;;
         store32 (t + 4 * PTX (n * 4096)) 0
       else ret tt) ;; k) Q s.
Proof.
  intros Hv Hn Ht Hk. destruct (vm_entry _ _ _ _ _ _ (uv_vm _ _ _ _ _ Hv) Ht) as (Hf & [pg Hpg] & Hw). pose proof (PTX_range (n * 4096)) as Hx.
  pose proof (pframe_mod _ _ Hf) as Hm. wp_steps. apply (wp_load_entry _ _ _ _ _ Hm Hx Hw). wp_steps.
  destruct (U !! n) as [[u fl]|] eqn:Hu.
  - destruct (uv_some _ _ _ _ _ Hv _ _ _ Hu) as (_ & Hl & Hfl & Hfp & Hp & pgu & Hpgu & _).
    pose proof (lo_frame _ _ _ _ _ Hl) as Hfu. pose proof (V2P_page u (pframe_mod _ _ Hfu)) as Hvm.
    rewrite Hp, land_low by (done || unfold PTE_P; lia). apply wp_if_true; [lia|]. cbv zeta.
    rewrite PTE_ADDR_low by (done || apply is_u32_V2P). apply wp_if_false.
    { apply Z.eqb_neq, (V2P_nonzero s); [apply Hv|done]. }
    rewrite P2V_V2P by apply Hfu. wp_steps. eapply wp_eq; [apply kfree_eq; [apply Hfu|apply Hv]|].
    assert (t <> u) as Htu by (intros ->; apply (lo_tabs _ _ _ _ _ Hl), elem_tabs; eauto).
    assert (k_mem (kfree_post u s) !! t = Some pg) as Hpg'.
    { rewrite <- Hpg. apply lookup_insert_ne. done. }
    pose proof (vm_ok_kfree s pgdir T l u (uv_vm _ _ _ _ _ Hv) Hl) as Hv1.
    apply (wp_store_entry _ _ _ pg); [done|done|done|].
    pose proof (set_entry_ext _ _ _ _ (n * 4096) 0 t pg Hv1 Ht Hpg') as He.
    apply (Hk _ (u :: l)). split.
    + eapply uvm_delete; [exact Hv|exact Hu|exact He|]. intros m Hr. unfold NUPAGES in *.
      rewrite (set_entry_pte _ _ _ _ (n * 4096) 0 t pg Hv1 Ht Hpg') by (unfold is_u32; lia).
      rewrite !Z.div_mul by lia. repeat case_decide; try done; exfalso; lia.
    + eapply vframe_trans; [|apply vframe_mem, He]. apply vframe_mem. eexists _, _. reflexivity.
    + done.
    + rewrite (upages_delete U n (u, fl)) by done. simpl. solve_Permutation.
    + intros q Hq Hout. rewrite !not_elem_of_app in Hout. destruct Hout as (Hq1 & Hq2 & Hq3).
      rewrite (ve_keep _ _ _ _ _ _ _ He q Hq Hq2). apply lookup_insert_ne. intros ->. apply Hq3, elem_upages. eauto.
    + intros m p Hmp [Hne _]%lookup_delete_Some. destruct p as [v fv].
      destruct (uv_some _ _ _ _ _ Hv _ _ _ Hmp) as (_ & Hlv & _). cbn [fst].
      rewrite (ve_keep _ _ _ _ _ _ _ He v) by apply Hlv. apply lookup_insert_ne. intros ->. apply Hne. exact (uv_inj _ _ _ _ _ Hv _ _ _ _ _ Hu Hmp).
    + intros va Hva Hkb. unfold KERNBASE, NUPAGES in *. rewrite (set_entry_pte _ _ _ _ (n * 4096) 0 t pg Hv1 Ht Hpg') by (unfold is_u32 in *; lia).
      rewrite decide_False by div_lia. now apply (kfree_pte s pgdir T l).
  - rewrite (uv_none _ _ _ _ _ Hv n Hn Hu). wp_steps. apply (Hk s l). rewrite delete_id by done. now apply uv_step_refl.
Qed.

Lemma deallocuvm_loop_S fuel pgdir a oldsz : a < oldsz ->
  deallocuvm_loop (S fuel) pgdir a oldsz =
  (pte ← walkpgdir pgdir a false;
   if pte =? 0 then deallocuvm_loop fuel pgdir (u32 (u32 (PGADDR (PDX a + 1) 0 0 - PGSIZE) + PGSIZE)) oldsz
   else
     e ← load32 pte;
     (if negb (Z.land e PTE_P =? 0) then
        let pa := PTE_ADDR e in
        if pa =? 0 then panic "kfree" else
        kfree (P2V pa) ;;
        store32 pte 0
      else ret tt) ;;
     deallocuvm_loop fuel pgdir (u32 (a + PGSIZE)) oldsz).
Proof. intros H. cbn [deallocuvm_loop]. now rewrite (proj2 (Z.ltb_lt _ _) H). Qed.

Lemma deallocuvm_loop_done fuel pgdir a oldsz : oldsz <= a -> deallocuvm_loop fuel pgdir a oldsz = ret tt.
Proof. intros H. destruct fuel; cbn [deallocuvm_loop]; now rewrite (proj2 (Z.ltb_ge _ _) H). Qed.

(** The first address of the next table. *)
Lemma next_table a : 0 <= a < KERNBASE -> u32 (u32 (PGADDR (PDX a + 1) 0 0 - PGSIZE) + PGSIZE) = (a / 4194304 + 1) * 4194304.
Proof.
  intros Ha. unfold PGADDR, PDXSHIFT, PTXSHIFT, PGSIZE, KERNBASE in *. rewrite !Z.lor_0_r, Z.shiftl_mul_pow2, PDX_spec by lia.
  change (2 ^ 22) with 4194304. unfold u32. div_lia.
Qed.

Lemma no_table s pgdir T U l a n : uvm s pgdir T U l -> T !! PDX a = None -> a / 4194304 = n * 4096 / 4194304 -> U !! n = None.
Proof.
  intros Hv Ht E. destruct (U !! n) as [[u fl]|] eqn:Hn; [|done]. destruct (uv_some _ _ _ _ _ Hv _ _ _ Hn) as (_ & Hl & Hf & Hfp & Hp & _).
  exfalso. unfold pte_at in Hp. rewrite PDX_spec, <- E, <- PDX_spec, Ht in Hp.
  pose proof (is_u32_V2P u) as [H0 _]. assert (fl = 0) by lia. now subst.
Qed.

Lemma wp_deallocuvm_loop pgdir T oldsz fuel : oldsz <= KERNBASE -> forall a s U l, uvm s pgdir T U l ->
  0 <= a -> a mod 4096 = 0 -> (oldsz - a + 4095) / 4096 <= Z.of_nat fuel ->
  wp (deallocuvm_loop fuel pgdir a oldsz) (fun _ s' => exists l', uv_step pgdir s T U l s' T (cut a oldsz U) l') s.
Proof.
  intros Hold. unfold KERNBASE in *. induction fuel as [|fuel IH]; intros a s U l Hv H0 Ha Hfuel;
    (destruct (Z.le_gt_cases oldsz a) as [Hge|Hlt];
     [rewrite deallocuvm_loop_done, cut_empty by done; wp_steps; exists l; now apply uv_step_refl|]); [exfalso; div_lia|].
  rewrite deallocuvm_loop_S by done. destruct (T !! PDX a) as [t|] eqn:Ht.
  - assert (a = a / 4096 * 4096) as Ea by div_lia. revert Ea. generalize (a / 4096). intros m ->.
    wp_steps. apply (wp_walk_some s pgdir T l (uv_vm _ _ _ _ _ Hv) (m * 4096) false t _ Ht).
    destruct (vm_entry _ _ _ _ _ _ (uv_vm _ _ _ _ _ Hv) Ht) as (Hf & _). pose proof (pframe_pos _ _ Hf). pose proof (PTX_range (m * 4096)).
    apply wp_if_false; [lia|]. eapply wp_dealloc_page; [exact Hv|unfold NUPAGES; lia|exact Ht|].
    intros s1 l1 Hs1. unfold PGSIZE. rewrite u32_small by lia.
    eapply wp_mono; [apply IH; [apply Hs1|lia|div_lia|div_lia]|]. intros _ s2 [l2 Hs2]. exists l2.
    rewrite cut_delete in Hs2 by (done || lia). eapply uv_step_trans; [exact Hs1|exact Hs2|].
    intros n p Hp. rewrite cut_lookup. case_decide; [done|]. intros _. rewrite lookup_delete_ne; [done|]. intros <-. lia.
  - wp_steps. apply (wp_walk_none s pgdir T l (uv_vm _ _ _ _ _ Hv) a _ Ht). apply wp_if_true; [done|].
    rewrite next_table by (unfold KERNBASE; lia). eapply wp_mono; [apply IH; [exact Hv|div_lia..]|].
    intros _ s1 [l1 Hs1]. exists l1. rewrite <- (cut_skip a ((a / 4194304 + 1) * 4194304)); [done|div_lia|].
    intros n Hn _. apply (no_table s pgdir T U l a); [done|done|]. div_lia.
Qed.

Lemma wp_deallocuvm s pgdir T U l oldsz newsz : uvm s pgdir T U l -> 0 <= newsz -> oldsz <= KERNBASE ->
  wp (deallocuvm pgdir oldsz newsz) (fun r s' => r = Z.min oldsz newsz /\
    exists l', uv_step pgdir s T U l s' T (cut ((newsz + 4095) / 4096 * 4096) oldsz U) l') s.
Proof.
  intros Hv H0 Hold. unfold deallocuvm. apply wp_if; intros Hc; wp_steps.
  - split; [lia|]. exists l. rewrite cut_empty by div_lia. now apply uv_step_refl.
  - rewrite PGROUNDUP_spec by (unfold PGSIZE, KERNBASE in *; lia). unfold PGSIZE. replace (newsz + 4096 - 1) with (newsz + 4095) by lia.
    eapply wp_mono; [apply wp_deallocuvm_loop; [done|exact Hv|div_lia|div_lia|div_lia]|].
    intros x s' Hs'. wp_steps. split; [lia|done].
Qed.

(** ** Taking a page *)

(** The page [u] has been taken from the free pages and belongs to nobody yet. *)
Record uv_take (pgdir : Z) (s : kstate) T U (l : list Z) (u : Z) (s' : kstate) T' (l' : list Z) : Prop := {
  ut_uvm : uvm s' pgdir T' U l';
  ut_loose : loose s' pgdir T' l' u;
  ut_out : u ∉ upages U;
  ut_page : exists pg, k_mem s' !! u = Some pg /\ length pg = 1024%nat;
  ut_frame : vframe s s';
  ut_sub : T ⊆ T';
  ut_pages : l ++ tabs T ≡ₚ u :: l' ++ tabs T';
  ut_keep : forall q, q <> pgdir -> (q ∉ l ++ tabs T) -> k_mem s' !! q = k_mem s !! q;
  ut_kernel : same_kernel s T s' T'
}.

(** kalloc, and writing the page. *)
Lemma take_intro pgdir s T U u l pg : uvm s pgdir T U (u :: l) -> length pg = 1024%nat ->
  let s1 := (kalloc_post (u :: l) s) <| k_mem := <[u := pg]> (k_mem (kalloc_post (u :: l) s)) |> in
  uv_take pgdir s T U (u :: l) u s1 T l.
Proof.
  intros Hv Hpg s1. pose proof (loose_head s pgdir T u l (uv_vm _ _ _ _ _ Hv)) as Hl.
  pose proof (uvm_out _ _ _ _ _ _ Hv) as Hu. split.
  - apply uvm_write; [now apply uvm_alloc|now destruct Hl|done].
  - now destruct Hl.
  - done.
  - exists pg. split; [apply lookup_insert_eq|done].
  - apply vframe_mem. exists (<[u := pg]> (k_mem s)), (default 0 (head l)). now destruct s.
  - done.
  - done.
  - intros q _ Hq. apply lookup_insert_ne. intros ->. apply Hq. apply elem_of_app. left. left.
  - intros va _ _. apply pte_at_frame. intros t Ht. apply lookup_insert_ne. intros ->. now apply (lo_tabs _ _ _ _ _ Hl).
Qed.

Lemma take_ext pgdir s T U l u s1 T1 l1 s2 T2 l2 : uv_take pgdir s T U l u s1 T1 l1 -> vm_ext pgdir s1 T1 l1 s2 T2 l2 ->
  (forall n, 0 <= n < NUPAGES -> pte_at (k_mem s2) T2 (n * 4096) = pte_at (k_mem s1) T1 (n * 4096)) -> same_kernel s1 T1 s2 T2 ->
  uv_take pgdir s T U l u s2 T2 l2.
Proof.
  intros [A1 A2 A3 A4 A5 A6 A7 A8 A9] He Hp Hkn. split.
  - now apply (uvm_tables s1 pgdir T1 U l1).
  - now apply (loose_ext _ _ _ _ _ _ _ _ He).
  - done.
  - now rewrite (loose_keep _ _ _ _ _ _ _ _ He).
  - eapply vframe_trans; [exact A5|apply vframe_mem, He].
  - etrans; [exact A6|apply He].
  - rewrite A7. constructor. apply He.
  - intros q Hq Hout. rewrite (ve_keep _ _ _ _ _ _ _ He); [now apply A8|done|]. intros H. apply Hout. rewrite A7. right.
    rewrite (ve_pages _ _ _ _ _ _ _ He). apply elem_of_app. now right.
  - intros va Hu Hk. rewrite Hkn by done. now apply A9.
Qed.

(** The page becomes the user page [n]. *)
Lemma take_map pgdir s T U l u s1 T1 l1 s2 T2 l2 n fl : uv_take pgdir s T U l u s1 T1 l1 -> vm_ext pgdir s1 T1 l1 s2 T2 l2 ->
  U !! n = None -> 0 <= n < NUPAGES -> 0 <= fl < 4096 -> Z.land fl PTE_P <> 0 ->
  (forall m, 0 <= m < NUPAGES -> pte_at (k_mem s2) T2 (m * 4096) =
     if decide (m = n) then V2P u + fl else pte_at (k_mem s1) T1 (m * 4096)) -> same_kernel s1 T1 s2 T2 ->
  uv_step pgdir s T U l s2 T2 (<[n := (u, fl)]> U) l2 /\ k_mem s2 !! u = k_mem s1 !! u.
Proof.
  intros [A1 A2 A3 A4 A5 A6 A7 A8 A9] He Hn Hr Hf1 Hf2 Hp Hkn.
  pose proof (uvm_insert s1 pgdir T1 U l1 n u fl s2 T2 l2 A1 Hn Hr A2 A3 A4 Hf1 Hf2 He Hp) as Hv.
  assert (l ++ tabs T ≡ₚ u :: l2 ++ tabs T2) as Hpg by (rewrite A7, (ve_pages _ _ _ _ _ _ _ He); done).
  split; [|now apply (loose_keep _ _ _ _ _ _ _ _ He)]. split; [done| |etrans; [exact A6|apply He]| | | |].
  - eapply vframe_trans; [exact A5|apply vframe_mem, He].
  - rewrite upages_insert, (app_assoc l), (app_assoc l2), Hpg by done. cbn [fst]. solve_Permutation.
  - intros q Hq Hout. rewrite app_assoc, not_elem_of_app in Hout. destruct Hout as [Hout _].
    rewrite (ve_keep _ _ _ _ _ _ _ He); [now apply A8|done|]. intros H. apply Hout. rewrite Hpg. right. apply elem_of_app. now right.
  - intros m [v fv] Hm _. cbn [fst]. destruct (uv_some _ _ _ _ _ A1 _ _ _ Hm) as (_ & Hlv & _).
    rewrite (loose_keep _ _ _ _ _ _ _ _ He Hlv). apply A8; [apply Hlv|]. rewrite A7.
    rewrite not_elem_of_cons, not_elem_of_app. split; [|split; apply Hlv]. intros ->. apply A3, elem_upages. eauto.
  - intros va Hu Hk. rewrite Hkn by done. now apply A9.
Qed.

(** The page is freed again. *)
Lemma take_free pgdir s T U l u s1 T1 l1 s2 T2 U2 l2 : uv_take pgdir s T U l u s1 T1 l1 ->
  uv_step pgdir s1 T1 U l1 s2 T2 U2 l2 -> uv_step pgdir s T U l (kfree_post u s2) T2 U2 (u :: l2) /\ loose s2 pgdir T2 l2 u.
Proof.
  intros [A1 A2 A3 A4 A5 A6 A7 A8 A9] [B1 B2 B3 B4 B5 B6 B7].
  assert (u ∉ l2 ++ tabs T2 ++ upages U2) as Hu.
  { rewrite <- B4. rewrite !not_elem_of_app. split; [apply A2|]. split; [apply A2|done]. }
  rewrite !not_elem_of_app in Hu. destruct Hu as (Hu1 & Hu2 & Hu3).
  assert (loose s2 pgdir T2 l2 u) as Hl.
  { split; [|apply A2|done|done]. destruct (vframe_fields _ _ B2) as [-> _]. apply A2. }
  split; [|done]. split.
  - now apply uvm_kfree.
  - eapply vframe_trans; [exact A5|]. eapply vframe_trans; [exact B2|]. apply vframe_mem. eexists _, _. reflexivity.
  - by etrans.
  - rewrite app_assoc, A7. simpl. constructor. rewrite <- app_assoc. exact B4.
  - intros q Hq Hout. rewrite app_assoc, not_elem_of_app in Hout. destruct Hout as [Hout Hqu].
    assert (q ∉ u :: l1 ++ tabs T1) as Hq1 by now rewrite <- A7. apply not_elem_of_cons in Hq1 as [Hne Hq1].
    transitivity (k_mem s2 !! q); [now apply lookup_insert_ne|]. rewrite B5; [now apply A8|done|].
    rewrite app_assoc, not_elem_of_app. done.
  - intros n [v fv] Hn Hn2. cbn [fst]. destruct (uv_some _ _ _ _ _ A1 _ _ _ Hn) as (_ & Hlv & _).
    assert (v <> u) by (intros ->; apply A3, elem_upages; eauto).
    transitivity (k_mem s2 !! v); [now apply lookup_insert_ne|]. rewrite (B6 n (v, fv) Hn Hn2 : k_mem s2 !! v = _). apply A8; [apply Hlv|].
    rewrite A7, not_elem_of_cons, not_elem_of_app. split; [done|split; apply Hlv].
  - intros va Hva Hk. rewrite (kfree_pte s2 pgdir T2 l2) by done. rewrite B7 by done. now apply A9.
Qed.

(** ** Messages *)

Lemma wp_for_consputc cs : forall (Q : unit -> kstate -> Prop) s, crt_ok (k_crt s) (k_crtpos s) ->
  (forall o crt pos, crt_ok crt pos -> Q tt (screen s o crt pos)) -> wp (for_ cs consputc) Q s.
Proof.
  induction cs as [|c cs IH]; intros Q s Hc HQ; simpl; wp_steps.
  - rewrite <- (screen_same s). now apply HQ.
  - apply wp_consputc; [done|]. intros o crt pos Hok. apply IH; [done|]. intros o' crt' pos' Hok'. exact (HQ o' crt' pos' Hok').
Qed.

Lemma cprintf_loop_plain fmt args : 37 ∉ fmt -> forall (Q : unit -> kstate -> Prop) s, crt_ok (k_crt s) (k_crtpos s) ->
  (forall o crt pos, crt_ok crt pos -> Q tt (screen s o crt pos)) -> wp (cprintf_loop fmt args) Q s.
Proof.
  induction fmt as [|c fmt IH]; intros H37 Q s Hc HQ; cbn [cprintf_loop].
  - wp_steps. rewrite <- (screen_same s). now apply HQ.
  - apply not_elem_of_cons in H37 as [Hne H37]. apply wp_if_true; [lia|]. wp_steps.
    apply wp_consputc; [done|]. intros o crt pos Hok. apply IH; [done|done|]. intros o' crt' pos' Hok'. exact (HQ o' crt' pos' Hok').
Qed.

(** The console can print: the screen is sound, and the lock is free if it is used. *)
Definition can_print (s : kstate) : Prop := crt_ok (k_crt s) (k_crtpos s) /\ (k_devsw s = true -> LCons ∉ k_held s).

Lemma can_print_frame s s' : vframe s s' -> can_print s -> can_print s'.
Proof.
  intros Hf [H1 H2]. destruct (vframe_fields _ _ Hf) as (_ & Hh & _ & Hd & Hc). split; [auto|]. rewrite Hh, Hd. done.
Qed.

Lemma wp_cprintf_plain fmt (Q : unit -> kstate -> Prop) s : 37 ∉ fmt -> can_print s ->
  (forall o crt pos, crt_ok crt pos -> Q tt (screen s o crt pos)) -> wp (cprintf fmt []) Q s.
Proof.
  intros H37 [Hc Hl] HQ. unfold cprintf. wp_steps. destruct (k_devsw s) eqn:Hd; wp_steps.
  - apply wp_acquire; [auto|]. wp_steps. apply cprintf_loop_plain; [done|done|]. intros o crt pos Hok.
    eapply wp_release_head; [reflexivity|].
    replace ((screen (s <| k_held := LCons :: k_held s |>) o crt pos) <| k_held := k_held s |>) with (screen s o crt pos) by now destruct s.
    now apply HQ.
  - cbn [when]. wp_steps. apply cprintf_loop_plain; [done|done|]. intros o crt pos Hok. cbn [when]. wp_steps. now apply HQ.
Qed.

Lemma uv_step_screen pgdir s T U l o crt pos : uvm s pgdir T U l -> (crt_ok (k_crt s) (k_crtpos s) -> crt_ok crt pos) ->
  uv_step pgdir s T U l (screen s o crt pos) T U l.
Proof.
  intros Hv Hc. split; [|exists (k_mem s), (k_freelist s), o, crt, pos; split; [now destruct s|done]|done|done|done|done|done].
  apply (uvm_other s _ pgdir T U l); [done| |done|done|].
  - apply (vm_ok_other s _ pgdir T l); [apply Hv|done|apply Hv|apply Hv|apply Hv|apply Hv|apply Hv|done].
  - intros u (n & fl & Hn)%elem_upages. now destruct (uv_some _ _ _ _ _ Hv _ _ _ Hn) as (_ & [_ _ _ H] & _).
Qed.

(** ** allocuvm *)

Lemma wp_map_taken pgdir s T U l u s1 T1 l1 n fl (Q : Z -> kstate -> Prop) : uv_take pgdir s T U l u s1 T1 l1 ->
  U !! n = None -> 0 <= n < NUPAGES -> 0 <= fl < 4096 ->
  (forall s2 T2, uv_take pgdir s T U l u s2 T2 [] -> Q (-1) s2) ->
  (forall s2 T2 l2, uv_step pgdir s T U l s2 T2 (<[n := (u, Z.lor fl PTE_P)]> U) l2 -> k_mem s2 !! u = k_mem s1 !! u -> Q 0 s2) ->
  wp (mappages pgdir (n * 4096) PGSIZE (V2P u) fl) Q s1.
Proof.
  intros Ht Hn Hr Hfl Hfail Hok. unfold NUPAGES in *. pose proof (is_u32_V2P u) as Hu. unfold is_u32 in Hu.
  pose proof (V2P_page u (pframe_mod _ _ (lo_frame _ _ _ _ _ (ut_loose _ _ _ _ _ _ _ _ _ Ht)))) as Hum.
  assert (n * 4096 - (n * 4096) mod 4096 = n * 4096) as En by div_lia.
  eapply wp_mono; [eapply (wp_mappages pgdir (n * 4096) PGSIZE (V2P u) fl 1 s1 T1 l1)|].
  - apply Ht.
  - lia.
  - unfold PGSIZE; lia.
  - unfold PGSIZE; lia.
  - unfold PGSIZE. div_lia.
  - lia.
  - lia.
  - intros x Hx. rewrite En in Hx. rewrite (pte_at_page _ _ x (n * 4096)) by div_lia.
    apply (uv_none _ _ _ _ _ (ut_uvm _ _ _ _ _ _ _ _ _ Ht)); done.
  - intros r s2 (T2 & l2 & m & He & Hpte & Hr2). rewrite En in Hpte. destruct Hr2 as [[-> ->]|(-> & Hm & ->)].
    + edestruct (take_map pgdir s T U l u s1 T1 l1 s2 T2 l2 n (Z.lor fl PTE_P)) as [Hs Hk]; [exact Ht|exact He|done|done|now apply lor_bound|apply lor_1_odd| | |].
      * intros k Hk. rewrite Hpte by (unfold is_u32; unfold NUPAGES in *; lia). repeat case_decide; try done; try (exfalso; lia).
        subst. rewrite Z.sub_diag, Z.div_0_l, Z.mul_0_l, Z.add_0_r by lia. rewrite <- Z.lor_assoc. apply lor_low; [done|now apply lor_bound].
      * intros va Hva Hk. unfold KERNBASE in Hk. rewrite Hpte, decide_False by (done || lia). done.
      * eapply Hok; eassumption.
    + apply (Hfail s2 T2). eapply take_ext; [exact Ht|exact He| |].
      * intros k Hk. rewrite Hpte by (unfold is_u32; unfold NUPAGES in *; lia). now rewrite decide_False by lia.
      * intros va Hva Hk. unfold KERNBASE in Hk. rewrite Hpte, decide_False by (done || lia). done.
Qed.

(** The user pages from [n] up to [newsz] are new, zero, and accessible to the user. *)
Definition grown (n newsz : Z) (U : gmap Z (Z * Z)) (s' : kstate) (U' : gmap Z (Z * Z)) : Prop :=
  forall m, if decide (n <= m /\ m * 4096 < newsz)
            then exists u, U' !! m = Some (u, 7) /\ k_mem s' !! u = Some (replicate 1024 0)
            else U' !! m = U !! m.

Lemma wp_allocuvm_fail pgdir s T U l oldsz newsz (k : K Z) (Q : Z -> kstate -> Prop) msg : uvm s pgdir T U l ->
  0 <= oldsz -> newsz <= KERNBASE -> can_print s -> 37 ∉ msg ->
  (forall s' l', uv_step pgdir s T U l s' T (cut ((oldsz + 4095) / 4096 * 4096) newsz U) l' -> wp k Q s') ->
  wp (cprintf msg [] ;; deallocuvm pgdir newsz oldsz ;; k) Q s.
Proof.
  intros Hv H0 Hn Hp Hm Hk. wp_steps. apply wp_cprintf_plain; [done|done|]. intros o crt pos Hc. wp_steps.
  pose proof (uv_step_screen pgdir s T U l o crt pos Hv (fun _ => Hc)) as Hs1.
  eapply wp_mono; [apply (wp_deallocuvm (screen s o crt pos) pgdir T U l newsz oldsz); [apply Hs1|done|done]|].
  intros r s2 (_ & l2 & Hs2). apply (Hk s2 l2). eapply uv_step_trans; [exact Hs1|exact Hs2|]. done.
Qed.

Lemma allocuvm_loop_S fuel pgdir a oldsz newsz : a < newsz ->
  allocuvm_loop (S fuel) pgdir a oldsz newsz =
  (mem ← kalloc;
   if mem =? 0 then
     cprintf (str "allocuvm out of memory" ++ [10]) [] ;;
     deallocuvm pgdir newsz oldsz ;;
     ret 0
   else
   fill_page mem 0 ;;
   r ← mappages pgdir a PGSIZE (V2P mem) (Z.lor PTE_W PTE_U);
   if r <? 0 then
     cprintf (str "allocuvm out of memory (2)" ++ [10]) [] ;;
     deallocuvm pgdir newsz oldsz ;;
     kfree mem ;;
     ret 0
   else allocuvm_loop fuel pgdir (u32 (a + PGSIZE)) oldsz newsz).
Proof. intros H. cbn [allocuvm_loop]. now rewrite (proj2 (Z.ltb_lt _ _) H). Qed.

Lemma allocuvm_loop_done fuel pgdir a oldsz newsz : newsz <= a -> allocuvm_loop fuel pgdir a oldsz newsz = ret newsz.
Proof. intros H. destruct fuel; cbn [allocuvm_loop]; now rewrite (proj2 (Z.ltb_ge _ _) H). Qed.

(** ** How many pages are enough *)

Lemma map_keys_bound {A} (m : gmap Z A) n : 0 <= n -> (forall k x, m !! k = Some x -> 0 <= k < n) -> Z.of_nat (length (map_to_list m)) <= n.
Proof.
  intros Hn Hk. rewrite length_map_to_list, <- size_dom. assert (dom m ⊆ list_to_set (C := gset Z) (seqZ 0 n)) as Hs.
  { intros k [x Hx]%elem_of_dom. apply elem_of_list_to_set, elem_of_seqZ. apply Hk in Hx. lia. }
  apply subseteq_size in Hs. rewrite size_list_to_set, length_seqZ in Hs by apply NoDup_seqZ. lia.
Qed.

Lemma tabs_length s pgdir T l : vm_ok s pgdir T l -> Z.of_nat (length (tabs T)) <= 1024.
Proof.
  intros Hv. unfold tabs. rewrite length_fmap. apply map_keys_bound; [done|]. intros k t Ht.
  now destruct (pt_some _ _ _ _ (vm_tab _ _ _ _ Hv) _ _ Ht) as (H & _).
Qed.

Lemma upages_length s pgdir T U l n : uvm s pgdir T U l -> 0 <= n -> (forall m, n <= m -> U !! m = None) -> Z.of_nat (length (upages U)) <= n.
Proof.
  intros Hv Hn Hno. unfold upages. rewrite !length_fmap. apply map_keys_bound; [done|]. intros k [u fl] Hk.
  destruct (uv_some _ _ _ _ _ Hv _ _ _ Hk) as (H & _). destruct (Z.lt_ge_cases k n) as [|Hge]; [lia|]. now rewrite Hno in Hk.
Qed.

(** The frames there are cannot hold 1024 tables and the pages of [sz] bytes. *)
Definition scarce (sz : Z) (T : gmap Z Z) (U : gmap Z (Z * Z)) (l : list Z) : Prop :=
  Z.of_nat (length (l ++ tabs T ++ upages U)) <= 1024 + (sz + 4095) / 4096.

Lemma scarce_empty s pgdir T U n sz : uvm s pgdir T U [] -> 0 <= n -> (forall m, n <= m -> U !! m = None) -> n * 4096 < sz -> scarce sz T U [].
Proof.
  intros Hv Hn Hno Hsz. unfold scarce. cbn [app]. rewrite length_app. pose proof (upages_length _ _ _ _ _ _ Hv Hn Hno).
  pose proof (tabs_length _ _ _ _ (uv_vm _ _ _ _ _ Hv)). div_lia.
Qed.

Lemma scarce_take pgdir s T U l u s2 T2 n sz : uv_take pgdir s T U l u s2 T2 [] -> 0 <= n -> (forall m, n <= m -> U !! m = None) -> n * 4096 < sz ->
  scarce sz T U l.
Proof.
  intros Ht Hn Hno Hsz. pose proof (ut_uvm _ _ _ _ _ _ _ _ _ Ht) as Hv. pose proof (upages_length _ _ _ _ _ _ Hv Hn Hno).
  pose proof (tabs_length _ _ _ _ (uv_vm _ _ _ _ _ Hv)). unfold scarce. rewrite app_assoc, (ut_pages _ _ _ _ _ _ _ _ _ Ht). cbn [app length].
  rewrite length_app. div_lia.
Qed.

Lemma scarce_step pgdir s T U l s' T' U' l' sz : uv_step pgdir s T U l s' T' U' l' -> scarce sz T' U' l' -> scarce sz T U l.
Proof. intros Hs. unfold scarce. now rewrite (us_pages _ _ _ _ _ _ _ _ _ Hs). Qed.

(** What allocuvm does when it has grown the memory up to page [n]. *)
Definition alloc_post (pgdir n oldsz newsz : Z) (s : kstate) T U l (r : Z) (s' : kstate) : Prop :=
  exists T' U' l', uv_step pgdir s T U l s' T' U' l' /\
    ((r = newsz /\ grown n newsz U s' U') \/ (r = 0 /\ U' = cut ((oldsz + 4095) / 4096 * 4096) newsz U /\ scarce newsz T U l)).

Lemma alloc_post_step pgdir n oldsz newsz s T U l u s1 T1 l1 r s' : 0 <= oldsz ->
  (oldsz + 4095) / 4096 <= n -> n * 4096 < newsz -> U !! n = None ->
  uv_step pgdir s T U l s1 T1 (<[n := (u, 7)]> U) l1 -> k_mem s1 !! u = Some (replicate 1024 0) ->
  alloc_post pgdir (n + 1) oldsz newsz s1 T1 (<[n := (u, 7)]> U) l1 r s' -> alloc_post pgdir n oldsz newsz s T U l r s'.
Proof.
  intros H0 Hold Hn Hu Hs1 Hz (T2 & U2 & l2 & Hs2 & Hr).
  assert (forall m p, U !! m = Some p -> <[n := (u, 7)]> U !! m = Some p) as Hmono.
  { intros m p Hm. rewrite lookup_insert_ne; [done|]. intros ->. congruence. }
  exists T2, U2, l2. split; [eapply uv_step_trans; [exact Hs1|exact Hs2|]; intros m p Hm _; now apply Hmono|].
  destruct Hr as [[-> Hg]|(-> & -> & Hsc)]; [left; split; [done|]|right; split; [done|]; split; [|now apply (scarce_step _ _ _ _ _ _ _ _ _ _ Hs1)]].
  - intros m. specialize (Hg m) as Hgm. destruct (decide (m = n)) as [->|Hne].
    + rewrite decide_False in Hgm by lia. rewrite decide_True by lia. rewrite lookup_insert_eq in Hgm. exists u. split; [done|].
      rewrite <- Hz. apply (us_keep _ _ _ _ _ _ _ _ _ Hs2 n (u, 7)); [apply lookup_insert_eq|done].
    + rewrite lookup_insert_ne in Hgm by done. repeat case_decide; try done; lia.
  - apply map_eq. intros m. rewrite !cut_lookup. case_decide as E; [done|]. rewrite lookup_insert_ne; [done|]. intros ->. lia.
Qed.

Lemma wp_allocuvm_loop pgdir oldsz newsz fuel : 0 <= oldsz -> newsz <= KERNBASE -> forall n s T U l, uvm s pgdir T U l ->
  (oldsz + 4095) / 4096 <= n -> (forall m, n <= m -> U !! m = None) -> can_print s ->
  (newsz - n * 4096 + 4095) / 4096 <= Z.of_nat fuel ->
  wp (allocuvm_loop fuel pgdir (n * 4096) oldsz newsz) (alloc_post pgdir n oldsz newsz s T U l) s.
Proof.
  intros H0 Hnew. unfold KERNBASE in *. induction fuel as [|fuel IH]; intros n s T U l Hv Hold Hfree Hpr Hfuel;
    (destruct (Z.le_gt_cases newsz (n * 4096)) as [Hge|Hlt];
     [rewrite allocuvm_loop_done by done; wp_steps; exists T, U, l; split; [now apply uv_step_refl|]; left; split; [done|];
      intros m; rewrite decide_False by lia; done|]); [exfalso; div_lia|].
  rewrite allocuvm_loop_S by done. assert (0 <= n) by div_lia. assert (U !! n = None) as HUn by (apply Hfree; lia).
  wp_steps. apply (wp_kalloc l); [apply Hv|apply Hv|]. destruct l as [|u l0]; cbn [head default].
  - apply wp_if_true; [done|]. cbn [kalloc_post]. apply (wp_allocuvm_fail pgdir s T U []); [done|done|done|done|now apply (bool_decide_unpack _)|].
    intros s' l' Hs'. wp_steps. eexists T, _, l'. split; [exact Hs'|]. right. split; [done|]. split; [done|]. now apply (scarce_empty s pgdir T U n).
  - pose proof (pframe_pos _ _ (free_pframe s pgdir T (u :: l0) u (uv_vm _ _ _ _ _ Hv) ltac:(left))) as Hpos.
    apply wp_if_false; [simpl; lia|]. unfold fill_page. wp_steps. change (id u) with u in *.
    pose proof (take_intro pgdir s T U u l0 (replicate 1024 0) Hv (length_replicate _ _)) as Ht. cbv zeta in Ht.
    eapply wp_map_taken; [exact Ht|done|unfold NUPAGES; lia|done| |].
    + intros s2 T2 Ht2. apply wp_if_true; [done|].
      apply (wp_allocuvm_fail pgdir s2 T2 U []); [apply Ht2|done|done|eapply can_print_frame; [apply Ht2|done]|now apply (bool_decide_unpack _)|].
      intros s3 l3 Hs3. destruct (take_free _ _ _ _ _ _ _ _ _ _ _ _ _ Ht2 Hs3) as [Hs4 Hl]. wp_steps.
      eapply wp_eq; [apply kfree_eq; [apply Hl|apply Hs3]|]. wp_steps. eexists T2, _, (u :: l3). split; [exact Hs4|]. right.
      split; [done|]. split; [done|]. now apply (scarce_take pgdir s T U (u :: l0) u s2 T2 n).
    + intros s2 T2 l2 Hs2 Hu. apply wp_if_false; [done|]. unfold PGSIZE. rewrite u32_small by lia.
      replace (n * 4096 + 4096) with ((n + 1) * 4096) by lia.
      eapply wp_mono; [apply IH|]. 1: apply Hs2. 1: lia. 2: eapply can_print_frame; [apply Hs2|done]. 2: div_lia.
      * intros m Hm. rewrite lookup_insert_ne by lia. apply Hfree. lia.
      * intros r s3. apply (alloc_post_step pgdir n oldsz newsz s T U (u :: l0) u s2 T2 l2); [done|done|done|done|exact Hs2|].
        rewrite Hu. apply lookup_insert_eq.
Qed.

(** The user pages are those of a process of size [sz]. *)
Definition covers (U : gmap Z (Z * Z)) (sz : Z) : Prop := forall n, is_Some (U !! n) <-> 0 <= n /\ n * 4096 < sz.

Lemma covers_none U sz n : covers U sz -> sz <= n * 4096 -> U !! n = None.
Proof. intros Hc Hn. apply eq_None_not_Some. intros H. apply Hc in H. lia. Qed.

Lemma covers_cut U oldsz newsz : covers U oldsz -> cut ((oldsz + 4095) / 4096 * 4096) newsz U = U.
Proof.
  intros Hc. apply map_eq. intros n. rewrite cut_lookup. case_decide as E; [|done].
  symmetry. apply (covers_none _ _ _ Hc). div_lia.
Qed.

Lemma covers_grown U oldsz newsz s' U' : 0 <= oldsz <= newsz -> covers U oldsz ->
  grown ((oldsz + 4095) / 4096) newsz U s' U' ->
  covers U' newsz /\ U ⊆ U' /\
  forall n u fl, U !! n = None -> U' !! n = Some (u, fl) -> fl = 7 /\ k_mem s' !! u = Some (replicate 1024 0).
Proof.
  intros Hle Hc Hg. split; [|split].
  - intros n. specialize (Hg n). case_decide as E.
    + destruct Hg as (u & -> & _). split; [div_lia|eauto].
    + rewrite Hg, (Hc n). div_lia.
  - apply map_subseteq_spec. intros n p Hn. specialize (Hg n). rewrite decide_False in Hg; [congruence|].
    assert (0 <= n /\ n * 4096 < oldsz) by (apply Hc; eauto). div_lia.
  - intros n u fl Hn Hn'. specialize (Hg n). case_decide as E; [|congruence]. destruct Hg as (u' & E1 & E2).
    rewrite Hn' in E1. now injection E1 as -> ->.
Qed.

(** The outcome of allocuvm from [oldsz] to [newsz]. *)
Definition allocated (pgdir oldsz newsz : Z) (s : kstate) T U l (r : Z) (s' : kstate) : Prop :=
  exists T' U' l', uv_step pgdir s T U l s' T' U' l' /\
    ((r = newsz /\ covers U' newsz /\ U ⊆ U' /\
      forall n u fl, U !! n = None -> U' !! n = Some (u, fl) -> fl = 7 /\ k_mem s' !! u = Some (replicate 1024 0)) \/
     (r = 0 /\ U' = U /\ scarce newsz T U l)).

Lemma wp_allocuvm s pgdir T U l oldsz newsz : uvm s pgdir T U l -> covers U oldsz ->
  0 <= oldsz <= newsz -> newsz < KERNBASE -> can_print s -> wp (allocuvm pgdir oldsz newsz) (allocated pgdir oldsz newsz s T U l) s.
Proof.
  intros Hv Hc Hle Hnew Hp. unfold allocuvm. apply wp_if_false; [lia|]. apply wp_if_false; [lia|]. cbv zeta. unfold KERNBASE in Hnew.
  rewrite PGROUNDUP_spec by (unfold PGSIZE; lia). unfold PGSIZE. replace (oldsz + 4096 - 1) with (oldsz + 4095) by lia.
  eapply wp_mono; [eapply (wp_allocuvm_loop pgdir oldsz newsz); [lia|unfold KERNBASE; lia|exact Hv|lia| |done|div_lia]|].
  - intros m Hm. apply (covers_none _ _ _ Hc). div_lia.
  - intros r s' (T' & U' & l' & Hs & Hr). exists T', U', l'. split; [done|]. destruct Hr as [[-> Hg]|(-> & -> & Hsc)].
    + left. split; [done|]. now apply (covers_grown U oldsz).
    + right. split; [done|]. split; [now apply covers_cut|done].
Qed.

(** C19: growing a process. allocuvm from [oldsz] to [newsz] returns [newsz], and the process then
    has the pages of [newsz] bytes: the old ones with what they held, and new ones that are zero and
    open to the user; or it returns 0, and the process has the pages it had. Either way no page
    frame is lost or shared: the free pages, the tables and the user pages are the same frames as
    before, and no other frame changes. It fails only when there are not enough frames for the pages of
    [newsz] bytes and for 1024 tables. *)
Theorem allocuvm_correct s pgdir T U l oldsz newsz : uvm s pgdir T U l -> covers U oldsz ->
  0 <= oldsz <= newsz -> newsz < KERNBASE -> can_print s ->
  wp (allocuvm pgdir oldsz newsz) (fun r s' => exists T' U' l', uv_step pgdir s T U l s' T' U' l' /\
    ((r = newsz /\ covers U' newsz /\ U ⊆ U' /\
      forall n u fl, U !! n = None -> U' !! n = Some (u, fl) -> fl = 7 /\ k_mem s' !! u = Some (replicate 1024 0)) \/
     (r = 0 /\ U' = U /\ Z.of_nat (length (l ++ tabs T ++ upages U)) <= 1024 + (newsz + 4095) / 4096))) s.
Proof. exact (wp_allocuvm s pgdir T U l oldsz newsz). Qed.

Lemma ex_uvm : uvm ex_vm 0x80200000 ∅ ∅ ex_vm_free.
Proof.
  split; [exact ex_vm_ok|reflexivity| | |].
  - intros n u fl. now rewrite lookup_empty.
  - intros n _ _. unfold pte_at. now rewrite lookup_empty.
  - intros n m u f1 f2. now rewrite lookup_empty.
Qed.

Lemma allocuvm_correct_witness :
  wp (allocuvm 0x80200000 0 5000) (fun r s' => r = 5000 \/ r = 0) ex_vm.
Proof.
  eapply wp_mono.
  - apply (allocuvm_correct ex_vm 0x80200000 ∅ ∅ ex_vm_free 0 5000); [exact ex_uvm| |lia|reflexivity|].
    + intros n. rewrite lookup_empty. split; [now intros [? ?]|lia].
    + split; [split; [apply length_replicate|done]|done].
  - intros r s' (T' & U' & l' & _ & Hr). intuition.
Defined.
