(* ===== verification/Copyuvm.v ===== *)
(** Making and unmaking address spaces: freevm, setupkvm and copyuvm of vm.c. The memory that fork
    gives a child is a copy of its parent's, in page frames of its own. *)

From stdpp Require Import base list gmap strings numbers fin_maps.
From Stdlib Require Import ZArith Lia.
From S2P Require Import Prelude Bytes Kstate Mmu Kalloc Conline Vm Pagetable Uvm.
Open Scope Z_scope.

(** ** An address space in the making *)

(** The address space [d] has been made of the free pages [l] of [s]. *)
Record born (d : Z) (s : kstate) (l : list Z) (s' : kstate) T U (l' : list Z) : Prop := {
  bo_uvm : uvm s' d T U l';
  bo_frame : vframe s s';
  bo_pages : l ≡ₚ d :: l' ++ tabs T ++ upages U;
  bo_out : forall q, (q ∉ l) -> k_mem s' !! q = k_mem s !! q
}.

(** All its pages have been freed again. *)
Record unborn (s : kstate) (l : list Z) (s' : kstate) : Prop := {
  un_free : exists l', free_list s' l' /\ l' ≡ₚ l;
  un_frame : vframe s s';
  un_out : forall q, (q ∉ l) -> k_mem s' !! q = k_mem s !! q
}.

Lemma born_step d s l s1 T1 U1 l1 s2 T2 U2 l2 : born d s l s1 T1 U1 l1 -> uv_step d s1 T1 U1 l1 s2 T2 U2 l2 ->
  born d s l s2 T2 U2 l2.
Proof.
  intros [A1 A2 A3 A4] [B1 B2 B3 B4 B5 B6]. split; [done|eapply vframe_trans; eassumption| |].
  - rewrite A3. constructor. exact B4.
  - intros q Hq. rewrite A3, not_elem_of_cons in Hq. rewrite B5 by apply Hq. apply A4. rewrite A3, not_elem_of_cons. done.
Qed.

Lemma born_tables d s l s1 T1 U1 l1 s2 T2 l2 : born d s l s1 T1 U1 l1 -> vm_ext d s1 T1 l1 s2 T2 l2 ->
  (forall n, 0 <= n < NUPAGES -> pte_at (k_mem s2) T2 (n * 4096) = pte_at (k_mem s1) T1 (n * 4096)) ->
  born d s l s2 T2 U1 l2.
Proof.
  intros [A1 A2 A3 A4] He Hp. split.
  - now apply (uvm_tables s1 d T1 U1 l1).
  - eapply vframe_trans; [exact A2|apply vframe_mem, He].
  - rewrite A3. constructor. rewrite !app_assoc. now rewrite (ve_pages _ _ _ _ _ _ _ He).
  - intros q Hq. rewrite (ve_keep _ _ _ _ _ _ _ He); [now apply A4| |].
    + intros ->. apply Hq. rewrite A3. left.
    + intros H. apply Hq. rewrite A3. right. rewrite app_assoc, (ve_pages _ _ _ _ _ _ _ He), !elem_of_app. auto.
Qed.

(** The first page: a directory that is all zero. *)
Lemma born_intro s d l : free_list s (d :: l) -> kmem_idle s -> (forall p, p ∈ d :: l -> is_u32 p) -> KERNBASE < sym_end (k_sym s) ->
  let s1 := (kalloc_post (d :: l) s) <| k_mem := <[d := replicate 1024 0]> (k_mem (kalloc_post (d :: l) s)) |> in
  born d s (d :: l) s1 ∅ ∅ l.
Proof.
  intros Hf Hi Hu He s1. assert (tabs ∅ = []) as Et by reflexivity.
  assert (d ∉ l) as Hd by (destruct Hf as [_ Hn]; now apply list.NoDup_cons in Hn as [Hn _]).
  assert (k_mem s1 !! d = Some (replicate 1024 0)) as Hpd by apply lookup_insert_eq. split.
  - split; [|done| | |].
    + split.
      * apply free_list_mem; [now apply free_list_kalloc|]. intros q Hq. apply lookup_insert_ne. now intros ->.
      * done.
      * intros p Hp. apply Hu. now right.
      * split.
        -- split; [apply (free_list_kpage s (d :: l)); [done|left]|apply Hu; left].
        -- exists (replicate 1024 0). split; [done|apply length_replicate].
        -- intros i t. now rewrite lookup_empty.
        -- intros i Hr _. exists 0. split; [|done]. rewrite (tab_word_page _ _ _ _ Hpd). apply lookup_replicate_2. lia.
        -- intros i j t. now rewrite lookup_empty.
      * done.
      * rewrite Et. intros t H. now apply not_elem_of_nil in H.
    + intros n u fl. now rewrite lookup_empty.
    + intros n _ _. unfold pte_at. now rewrite lookup_empty.
    + intros n m u f1 f2. now rewrite lookup_empty.
  - apply vframe_mem. exists (<[d := replicate 1024 0]> (k_mem s)), (default 0 (head l)). now destruct s.
  - rewrite Et. change (upages ∅) with (@nil Z). now rewrite !app_nil_r.
  - intros q Hq. apply lookup_insert_ne. intros ->. apply Hq. left.
Qed.

(** ** freevm *)

(** The entries of the directory from index [i] on, whose tables are not free yet. *)
Definition dir_from (e : Z) (d : Z) (pd : list Z) (T : gmap Z Z) (l : list Z) (i : nat) : Prop :=
  forall k, (i <= k < 1024)%nat -> exists w, pd !! k = Some w /\
    match T !! Z.of_nat k with
    | Some t => w = V2P t + 7 /\ pframe e t /\ t <> d /\ t ∉ l
    | None => Z.land w PTE_P = 0
    end.

Definition tabs_from (i : nat) (T : gmap Z Z) : gmap Z Z := filter (fun p => Z.of_nat i <= p.1) T.

Lemma tabs_from_lookup i T k : tabs_from i T !! k = if decide (Z.of_nat i <= k) then T !! k else None.
Proof.
  unfold tabs_from. case_decide as E.
  - destruct (T !! k) as [t|] eqn:Ht; [now apply map_lookup_filter_Some|]. apply map_lookup_filter_None. now left.
  - apply map_lookup_filter_None. right. intros x _. done.
Qed.

Lemma tabs_from_some i T t : T !! Z.of_nat i = Some t -> tabs (tabs_from i T) ≡ₚ t :: tabs (tabs_from (S i) T).
Proof.
  intros Ht. rewrite <- (tabs_insert _ (Z.of_nat i)).
  - f_equiv. apply map_eq. intros k. rewrite lookup_insert, !tabs_from_lookup. repeat case_decide; try done; try lia; congruence.
  - rewrite tabs_from_lookup, decide_False by lia. done.
Qed.

Lemma tabs_from_none i T : T !! Z.of_nat i = None -> tabs_from i T = tabs_from (S i) T.
Proof.
  intros Ht. apply map_eq. intros k. rewrite !tabs_from_lookup. repeat case_decide; try done; try lia.
  now replace k with (Z.of_nat i) by lia.
Qed.

Lemma wp_free_tables d pd T : d mod PGSIZE = 0 -> (forall k t, T !! k = Some t -> 0 <= k < 1024) ->
  (forall i j t, T !! i = Some t -> T !! j = Some t -> i = j) -> length pd = 1024%nat ->
  forall n i s l, (i + n = 1024)%nat -> free_list s l -> kmem_idle s -> k_mem s !! d = Some pd -> (d ∉ l) ->
  dir_from (sym_end (k_sym s)) d pd T l i ->
  wp (for_ (seq i n) (fun i => e ← load32 (d + 4 * Z.of_nat i); when (negb (Z.land e PTE_P =? 0)) (kfree (P2V (PTE_ADDR e)))))
     (fun _ s' => exists l', free_list s' l' /\ l' ≡ₚ tabs (tabs_from i T) ++ l /\ mem_frame s s' /\
        forall q, (q ∉ tabs (tabs_from i T)) -> k_mem s' !! q = k_mem s !! q) s.
Proof.
  intros Hd Hr Hinj Hlen. induction n as [|n IH]; intros i s l Hin Hf Hi Hpd Hdl Hdir; simpl.
  - wp_steps. exists l. split; [done|]. assert (tabs_from i T = ∅) as ->.
    { apply map_eq. intros k. rewrite tabs_from_lookup, lookup_empty. case_decide; [|done].
      destruct (T !! k) as [t|] eqn:Ht; [|done]. apply Hr in Ht. lia. }
    split; [done|]. split; [apply mem_frame_refl|done].
  - destruct (Hdir i ltac:(lia)) as (w & Hw & Hwt). wp_steps.
    apply (wp_load_entry d (Z.of_nat i) w); [done|lia|rewrite (tab_word_page _ _ _ _ Hpd), Nat2Z.id; done|].
    destruct (T !! Z.of_nat i) as [t|] eqn:Ht.
    + destruct Hwt as (-> & Hft & Htd & Htl). pose proof (V2P_page t (pframe_mod _ _ Hft)) as Hvm.
      rewrite land_low by (done || unfold PTE_P; lia). change (negb (Z.land 7 PTE_P =? 0)) with true. cbn [when].
      rewrite (pframe_P2V _ _ 7 Hft) by lia. eapply wp_eq; [apply kfree_eq; [apply Hft|done]|].
      eapply wp_mono; [apply (IH (S i) (kfree_post t s) (t :: l)); [lia|now apply free_list_kfree; [apply Hft|..]|done| | |]|].
      * transitivity (k_mem s !! d); [now apply lookup_insert_ne|done].
      * rewrite not_elem_of_cons. auto.
      * intros k Hk. destruct (Hdir k ltac:(lia)) as (w' & Hw' & Hwt'). exists w'. split; [done|].
        destruct (T !! Z.of_nat k) as [t'|] eqn:Ht'; [|done]. destruct Hwt' as (A1 & A2 & A3 & A4).
        split; [done|]. split; [done|]. split; [done|]. apply not_elem_of_cons. split; [|done]. intros ->. pose proof (Hinj _ _ _ Ht Ht'). lia.
      * intros _ s' (l' & B1 & B2 & B3 & B4). exists l'. split; [done|]. rewrite (tabs_from_some i T t Ht). split; [|split].
        -- rewrite B2. simpl. symmetry. apply Permutation_middle.
        -- eapply mem_frame_trans; [|exact B3]. eexists _, _. reflexivity.
        -- intros q. rewrite (tabs_from_some i T t Ht), not_elem_of_cons. intros [Hq Hq']. rewrite B4 by done. now apply lookup_insert_ne.
    + rewrite Hwt. cbn [when negb Z.eqb]. wp_steps. rewrite (tabs_from_none i T Ht).
      apply IH; [lia|done|done|done|done|]. intros k Hk. apply Hdir. lia.
Qed.

Lemma dir_from_0 s d T l pd : vm_ok s d T l -> k_mem s !! d = Some pd -> dir_from (sym_end (k_sym s)) d pd T l 0.
Proof.
  intros Hv Hpd k Hk. pose proof (vm_tab _ _ _ _ Hv) as Hp. destruct (T !! Z.of_nat k) as [t|] eqn:Ht.
  - destruct (pt_some _ _ _ _ Hp _ _ Ht) as (_ & A1 & A2 & A3 & _). rewrite (tab_word_page _ _ _ _ Hpd), Nat2Z.id in A3.
    exists (V2P t + 7). split; [done|]. split; [done|]. split; [done|]. split; [done|]. apply (vm_tabs _ _ _ _ Hv), elem_tabs. eauto.
  - destruct (pt_none _ _ _ _ Hp (Z.of_nat k) ltac:(lia) Ht) as (w & Hw & Hz). rewrite (tab_word_page _ _ _ _ Hpd), Nat2Z.id in Hw. eauto.
Qed.

Lemma tabs_from_0 s d T l : vm_ok s d T l -> tabs_from 0 T = T.
Proof.
  intros Hv. apply map_eq. intros k. rewrite tabs_from_lookup. case_decide; [done|].
  destruct (T !! k) as [t|] eqn:Ht; [|done]. destruct (pt_some _ _ _ _ (vm_tab _ _ _ _ Hv) _ _ Ht) as ([? _] & _). lia.
Qed.

Lemma cut_all s d T U l : uvm s d T U l -> cut 0 KERNBASE U = ∅.
Proof.
  intros Hv. apply map_eq. intros n. rewrite cut_lookup, lookup_empty. case_decide; [done|].
  destruct (U !! n) as [[u fl]|] eqn:Hn; [|done]. destruct (uv_some _ _ _ _ _ Hv _ _ _ Hn) as (Hr & _). unfold NUPAGES, KERNBASE in *. lia.
Qed.

Lemma wp_freevm d s l s1 T1 U1 l1 : born d s l s1 T1 U1 l1 -> wp (freevm d) (fun _ s' => unborn s l s') s1.
Proof.
  intros Hb. pose proof (bo_uvm _ _ _ _ _ _ _ Hb) as Hv. pose proof (pt_dir _ _ _ _ (vm_tab _ _ _ _ (uv_vm _ _ _ _ _ Hv))) as Hfd.
  unfold freevm. apply wp_if_false; [pose proof (pframe_pos _ _ Hfd); lia|]. wp_steps.
  eapply wp_mono; [apply (wp_deallocuvm s1 d T1 U1 l1 KERNBASE 0 Hv); lia|].
  intros r s2 (_ & l2 & Hs2). change ((0 + 4095) / 4096 * 4096) with 0 in Hs2. rewrite (cut_all _ _ _ _ _ Hv) in Hs2.
  pose proof (born_step _ _ _ _ _ _ _ _ _ _ _ Hb Hs2) as Hb2. pose proof (us_uvm _ _ _ _ _ _ _ _ _ Hs2) as [Hv2 _ _ _ _].
  destruct (pt_dirpage _ _ _ _ (vm_tab _ _ _ _ Hv2)) as (pd & Hpd & Hlen). wp_steps.
  pose proof (pt_dir _ _ _ _ (vm_tab _ _ _ _ Hv2)) as Hfd2.
  eapply wp_mono; [apply (wp_free_tables d pd T1) with (l := l2); [apply Hfd2| | |done|done|apply Hv2|apply Hv2|done|apply Hv2|now apply dir_from_0]|].
  { intros k t Ht. now destruct (pt_some _ _ _ _ (vm_tab _ _ _ _ Hv2) _ _ Ht) as (H & _). }
  { apply (vm_tab _ _ _ _ Hv2). }
  rewrite (tabs_from_0 _ _ _ _ Hv2). intros x s3 (l3 & B1 & B2 & B3 & B4).
  destruct (mem_frame_fields _ _ B3) as (Hsym & _). destruct Hb2 as [C1 C2 C3 C4]. change (upages ∅) with (@nil Z) in C3. rewrite app_nil_r in C3.
  assert (d ∉ l3) as Hdl.
  { rewrite B2, not_elem_of_app. split; [apply (vm_dir_tabs _ _ _ _ Hv2)|apply Hv2]. }
  eapply wp_eq; [apply kfree_eq; [rewrite Hsym; apply Hfd2|eapply kmem_idle_frame; [exact B3|apply Hv2]]|]. split.
  - exists (d :: l3). split; [apply free_list_kfree; [rewrite Hsym; apply Hfd2|done|done]|]. rewrite C3, B2. constructor. apply Permutation_app_comm.
  - eapply vframe_trans; [exact C2|]. eapply vframe_trans; [apply vframe_mem, B3|]. apply vframe_mem. eexists _, _. reflexivity.
  - intros q Hq. rewrite <- (C4 q Hq). rewrite C3, not_elem_of_cons, not_elem_of_app in Hq. destruct Hq as (Hq1 & Hq2 & Hq3).
    transitivity (k_mem s3 !! q); [now apply lookup_insert_ne|]. now apply B4.
Qed.

(** ** setupkvm *)

(** Ranges of whole pages, above [lo], in order. *)
Fixpoint kmap_ok (lo : Z) (ks : list (Z * Z * Z * Z)) : Prop :=
  match ks with
  | [] => True
  | (virt, ps, pe, perm) :: ks' =>
    let size := u32 (pe - ps) in
    lo <= virt /\ virt mod 4096 = 0 /\ 0 < size /\ size mod 4096 = 0 /\ virt + size <= 4294967296 /\
    0 <= ps /\ ps + size <= 4294967296 /\ kmap_ok (virt + size) ks'
  end.

(** The entry the ranges give an address. *)
Fixpoint kmap_pte (ks : list (Z * Z * Z * Z)) (va : Z) : Z :=
  match ks with
  | [] => 0
  | (virt, ps, pe, perm) :: ks' =>
    if decide (virt <= va < virt + u32 (pe - ps))
    then Z.lor (Z.lor (ps + (va - virt) / 4096 * 4096) perm) PTE_P else kmap_pte ks' va
  end.

Lemma kmap_pte_below ks : forall lo va, kmap_ok lo ks -> va < lo -> kmap_pte ks va = 0.
Proof.
  induction ks as [|[[[virt ps] pe] perm] ks IH]; intros lo va; simpl; [done|]. intros (A1 & A2 & A3 & A4 & A5 & A6 & A7 & A8) Hva.
  rewrite decide_False by lia. apply (IH _ _ A8). lia.
Qed.

Lemma wp_setupkvm_loop d s l ks : forall lo s1 T1 l1, born d s l s1 T1 ∅ l1 -> kmap_ok lo ks -> KERNBASE <= lo ->
  (forall va, is_u32 va -> lo <= va -> pte_at (k_mem s1) T1 va = 0) ->
  wp (setupkvm_loop d ks) (fun r s' => (r = 0 /\ unborn s l s' /\ Z.of_nat (length l) <= 1025) \/
    (r = d /\ exists T' l', born d s l s' T' ∅ l' /\
      forall va, is_u32 va -> pte_at (k_mem s') T' va = if decide (lo <= va) then kmap_pte ks va else pte_at (k_mem s1) T1 va)) s1.
Proof.
  induction ks as [|[[[virt ps] pe] perm] ks IH]; intros lo s1 T1 l1 Hb Hk Hlo Hz; cbn [setupkvm_loop].
  - wp_steps. right. split; [done|]. exists T1, l1. split; [done|]. intros va Hva. case_decide; [|done]. now apply Hz.
  - destruct Hk as (A1 & A2 & A3 & A4 & A5 & A6 & A7 & A8). set (size := u32 (pe - ps)) in *. unfold KERNBASE in Hlo. wp_steps.
    assert (virt - virt mod 4096 = virt) as Ev by lia.
    eapply wp_mono; [apply (wp_mappages d virt size ps perm (size / 4096) s1 T1 l1); [apply Hb|lia|lia|lia|div_lia|lia|div_lia|]|].
    { rewrite Ev. intros x Hx. rewrite Hz; [done|unfold is_u32; div_lia|lia]. }
    rewrite Ev. intros r s2 (T2 & l2 & m & He & Hpte & Hr).
    assert (born d s l s2 T2 ∅ l2) as Hb2.
    { eapply born_tables; [exact Hb|exact He|]. intros n Hn. unfold NUPAGES in Hn. rewrite Hpte by (unfold is_u32; lia). rewrite decide_False by lia. done. }
    destruct Hr as [[-> ->]|(-> & _ & ->)].
    + apply wp_if_false; [done|]. eapply wp_mono; [apply (IH (virt + size) s2 T2 l2 Hb2 A8)|].
      * unfold KERNBASE. lia.
      * intros va Hva Hv. rewrite Hpte by done. rewrite decide_False by div_lia. apply Hz; [done|lia].
      * intros r s3 [H|(-> & T3 & l3 & Hb3 & Hp3)]; [now left|]. right. split; [done|]. exists T3, l3. split; [done|].
        intros va Hva. rewrite Hp3, Hpte by done. cbn [kmap_pte]. fold size.
        replace (4096 * (size / 4096)) with size by div_lia. repeat case_decide; try done; try lia.
        rewrite Hz by (done || lia). symmetry. apply (kmap_pte_below ks (virt + size)); [done|lia].
    + apply wp_if_true; [done|]. wp_steps. eapply wp_mono; [apply (wp_freevm d s l _ _ _ _ Hb2)|]. intros x s3 Hs3. wp_steps. left. split; [done|]. split; [done|].
      rewrite (bo_pages _ _ _ _ _ _ _ Hb2). change (upages ∅) with (@nil Z). rewrite app_nil_r. cbn [app length].
      pose proof (tabs_length _ _ _ _ (uv_vm _ _ _ _ _ (bo_uvm _ _ _ _ _ _ _ Hb2))). lia.
Qed.

(** What kernel.ld promises of the symbols [data] and [end]. *)
Definition link_ok (sym : symbols) : Prop :=
  sym_data sym mod 4096 = 0 /\ KERNLINK < sym_data sym < KERNBASE + PHYSTOP /\ KERNBASE < sym_end sym.

Lemma kmap_kernel_ok sym : link_ok sym -> kmap_ok KERNBASE (kmap sym).
Proof.
  intros (H1 & H2 & _). unfold kmap, KERNLINK, KERNBASE, EXTMEM, PHYSTOP, DEVSPACE in *. simpl.
  assert (V2P (sym_data sym) = sym_data sym - 2147483648) as -> by (unfold V2P, KERNBASE, u32; div_lia).
  unfold V2P, KERNBASE, u32. repeat split; div_lia.
Qed.

(** The free pages a state has for making address spaces. *)
Record free_pages (s : kstate) (l : list Z) : Prop := {
  fp_list : free_list s l;
  fp_idle : kmem_idle s;
  fp_u32 : forall p, p ∈ l -> is_u32 p
}.

(** A kernel address space: the kernel's map, and no user page. *)
Definition kernel_map (s' : kstate) (T' : gmap Z Z) : Prop :=
  forall va, is_u32 va -> KERNBASE <= va -> pte_at (k_mem s') T' va = kmap_pte (kmap (k_sym s')) va.

Lemma born_sym d s l s' T U l' : born d s l s' T U l' -> k_sym s' = k_sym s.
Proof. intros Hb. now destruct (vframe_fields _ _ (bo_frame _ _ _ _ _ _ _ Hb)) as [-> _]. Qed.

Lemma unborn_refl s l : free_list s l -> unborn s l s.
Proof. intros Hf. split; [eauto|apply vframe_refl|done]. Qed.

Lemma wp_setupkvm s l : free_pages s l -> link_ok (k_sym s) ->
  wp setupkvm (fun d s' => (d = 0 /\ unborn s l s' /\ Z.of_nat (length l) <= 1025) \/ (d <> 0 /\ exists T' l', born d s l s' T' ∅ l' /\ kernel_map s' T')) s.
Proof.
  intros [Hf Hi Hu] Hlk. unfold setupkvm. wp_steps. apply (wp_kalloc l); [done|done|]. destruct l as [|d l]; cbn [head default].
  - wp_steps. left. split; [done|]. split; [now apply unborn_refl|done].
  - change (id d) with d. assert (0 < d) as Hpos by now destruct (free_list_kpage s (d :: l) d Hf ltac:(left)) as (_ & _ & H & _).
    apply wp_if_false; [lia|]. unfold fill_page. wp_steps. apply wp_if_false; [done|]. wp_steps.
    pose proof (born_intro s d l Hf Hi Hu (proj2 (proj2 Hlk))) as Hb. cbv zeta in Hb.
    eapply wp_mono; [apply (wp_setupkvm_loop d s (d :: l) (kmap (k_sym s)) KERNBASE _ ∅ l Hb); [now apply kmap_kernel_ok|done|]|].
    + intros va _ _. unfold pte_at. now rewrite lookup_empty.
    + intros r s' [H|(-> & T' & l' & Hb' & Hp)]; [now left|]. right. split; [lia|]. exists T', l'. split; [done|].
      intros va Hva Hk. rewrite (born_sym _ _ _ _ _ _ _ Hb'), Hp by done. now rewrite decide_True.
Qed.

(** ** copyuvm *)

Lemma lor_odd fl : Z.land fl PTE_P <> 0 -> Z.lor fl PTE_P = fl.
Proof.
  unfold PTE_P. intros H. apply Z.bits_inj'. intros k Hk. rewrite Z.lor_spec. destruct (decide (k = 0)) as [->|Hne].
  - destruct (Z.testbit fl 0) eqn:E; [done|]. exfalso. apply H. change 1 with (Z.ones 1). rewrite Z.land_ones by lia.
    rewrite Z.bit0_odd in E. rewrite Zmod_odd. now rewrite E.
  - replace (Z.testbit 1 k) with false; [apply orb_false_r|]. symmetry. change 1 with (Z.ones 1). apply Z.ones_spec_high. lia.
Qed.

(** The parent's address space beside the child's. *)
Lemma uvm_beside s pgdir T U l s' l' : uvm s pgdir T U l -> vframe s s' -> free_list s' l' ->
  (forall q, (q ∉ l) -> k_mem s' !! q = k_mem s !! q) -> (forall q, q ∈ l' -> q ∈ l) -> uvm s' pgdir T U l'.
Proof.
  intros Hv Hfr Hf Hout Hsub. destruct (vframe_fields _ _ Hfr) as (Hsym & Hh & Hu & _ & _). pose proof (uv_vm _ _ _ _ _ Hv) as Hvm.
  apply (uvm_other s s' pgdir T U l l'); [done| |done| |].
  - apply (vm_ok_other s s' pgdir T l l'); [done|done|done| | | | |].
    + unfold kmem_idle. rewrite Hh, Hu. apply Hvm.
    + intros p Hp. now apply Hvm, Hsub.
    + intros H. now apply (vm_dir _ _ _ _ Hvm), Hsub.
    + intros t Ht H. now apply (vm_tabs _ _ _ _ Hvm t Ht), Hsub.
    + intros q [->|Hq]; apply Hout; [apply Hvm|now apply (vm_tabs _ _ _ _ Hvm)].
  - intros q [Hq|Hq]%elem_of_app; apply Hout; [now apply (vm_tabs _ _ _ _ Hvm)|].
    apply elem_upages in Hq as (n & fl & Hn). now destruct (uv_some _ _ _ _ _ Hv _ _ _ Hn) as (_ & [_ _ _ H] & _).
  - intros u (n & fl & Hn)%elem_upages H. destruct (uv_some _ _ _ _ _ Hv _ _ _ Hn) as (_ & [_ _ _ Hl] & _). now apply Hl, Hsub.
Qed.

Lemma copyuvm_loop_S fuel pgdir d sz i : i < sz ->
  copyuvm_loop (S fuel) pgdir d sz i =
  (pte ← walkpgdir pgdir i false;
   if pte =? 0 then panic "copyuvm: pte should exist" else
   e ← load32 pte;
   if Z.land e PTE_P =? 0 then panic "copyuvm: page not present" else
   let pa := PTE_ADDR e in
   let flags := PTE_FLAGS e in
   mem ← kalloc;
   if mem =? 0 then freevm d ;; ret 0 else
   copy_page mem (P2V pa) ;;
   r ← mappages d i PGSIZE (V2P mem) flags;
   if r <? 0 then kfree mem ;; freevm d ;; ret 0 else
   copyuvm_loop fuel pgdir d sz (i + PGSIZE)).
Proof. intros H. cbn [copyuvm_loop]. now rewrite (proj2 (Z.ltb_lt _ _) H). Qed.

Section copyuvm.
Context (s : kstate) (pgdir : Z) (T : gmap Z Z) (U : gmap Z (Z * Z)) (l : list Z).
Hypothesis Hv : uvm s pgdir T U l.

(** The parent is as it was, and the child has copies of its pages below [n]. *)
Definition copied (n : Z) (s' : kstate) (U2 : gmap Z (Z * Z)) : Prop :=
  forall m, match U2 !! m with
            | Some (u2, fl) => m < n /\ exists u, U !! m = Some (u, fl) /\ k_mem s' !! u2 = k_mem s !! u
            | None => n <= m \/ U !! m = None
            end.

Lemma born_parent d s1 T1 U1 l1 : born d s l s1 T1 U1 l1 -> uvm s1 pgdir T U l1.
Proof.
  intros Hb. apply (uvm_beside s pgdir T U l); [done|apply Hb|apply Hb|apply Hb|].
  intros q Hq. rewrite (bo_pages _ _ _ _ _ _ _ Hb). right. apply elem_of_app. now left.
Qed.

Lemma unborn_parent s' : unborn s l s' -> exists l', l' ≡ₚ l /\ uvm s' pgdir T U l'.
Proof.
  intros [(l' & Hf & Hp) Hfr Hout]. exists l'. split; [done|]. apply (uvm_beside s pgdir T U l); [done|done|done|done|].
  intros q Hq. now rewrite <- Hp.
Qed.

Lemma copied_step d n u u2 fl s1 T1 U1 l1 s2 T2 l2 : U !! n = Some (u, fl) -> copied n s1 U1 ->
  uv_step d s1 T1 U1 l1 s2 T2 (<[n := (u2, fl)]> U1) l2 -> k_mem s2 !! u2 = k_mem s !! u -> copied (n + 1) s2 (<[n := (u2, fl)]> U1).
Proof.
  intros Hn Hc Hs Hu m. specialize (Hc m). destruct (decide (n = m)) as [<-|Hne].
  - rewrite lookup_insert_eq. split; [lia|]. eauto.
  - rewrite lookup_insert_ne by done. destruct (U1 !! m) as [[v f]|] eqn:Em.
    + destruct Hc as (Hlt & w & Hw & Hmem). split; [lia|]. exists w. split; [done|]. rewrite <- Hmem.
      apply (us_keep _ _ _ _ _ _ _ _ _ Hs m (v, f)); [done|]. now rewrite lookup_insert_ne.
    + destruct Hc; [left; lia|now right].
Qed.

Definition copy_post (sz : Z) (r : Z) (s' : kstate) : Prop :=
  (r = 0 /\ unborn s l s') \/
  (r <> 0 /\ exists T' U' l', born r s l s' T' U' l' /\ copied ((sz + 4095) / 4096) s' U' /\ kernel_map s' T').

Lemma wp_copy_fail d s1 T1 U1 l1 sz : born d s l s1 T1 U1 l1 -> wp (freevm d ;; ret 0) (copy_post sz) s1.
Proof. intros Hb. wp_steps. eapply wp_mono; [apply (wp_freevm d s l _ _ _ _ Hb)|]. intros x s2 Hs2. wp_steps. now left. Qed.

Lemma kernel_map_step d s1 T1 U1 l1 s2 T2 U2 l2 : uv_step d s1 T1 U1 l1 s2 T2 U2 l2 -> kernel_map s1 T1 -> kernel_map s2 T2.
Proof.
  intros Hs Hk va Hu Hb. rewrite (us_kernel _ _ _ _ _ _ _ _ _ Hs) by done. destruct (vframe_fields _ _ (us_frame _ _ _ _ _ _ _ _ _ Hs)) as [-> _].
  now apply Hk.
Qed.

Lemma user_table n u fl : U !! n = Some (u, fl) -> exists t, T !! PDX (n * 4096) = Some t.
Proof.
  intros Hn. destruct (T !! PDX (n * 4096)) as [t|] eqn:Ht; [eauto|].
  rewrite (no_table s pgdir T U l (n * 4096) n Hv Ht eq_refl) in Hn. discriminate Hn.
Qed.

Context (sz : Z).
Hypothesis Hc : covers U sz.
Hypothesis Hsz : sz <= KERNBASE.

Lemma wp_copyuvm_loop d fuel : d <> 0 -> forall n s1 T1 U1 l1, born d s l s1 T1 U1 l1 -> copied n s1 U1 -> kernel_map s1 T1 ->
  0 <= n <= (sz + 4095) / 4096 -> (sz - n * 4096 + 4095) / 4096 <= Z.of_nat fuel ->
  wp (copyuvm_loop fuel pgdir d sz (n * 4096)) (copy_post sz) s1.
Proof.
  intros Hd. unfold KERNBASE in Hsz. induction fuel as [|fuel IH]; intros n s1 T1 U1 l1 Hb Hcp Hk Hn Hfuel;
    (destruct (Z.le_gt_cases sz (n * 4096)) as [Hge|Hlt];
     [cbn [copyuvm_loop]; rewrite (proj2 (Z.ltb_ge _ _) Hge); wp_steps; right; split; [done|]; exists T1, U1, l1;
      replace ((sz + 4095) / 4096) with n by div_lia; done|]); [exfalso; div_lia|].
  rewrite copyuvm_loop_S by done. destruct (proj2 (Hc n) ltac:(lia)) as [[u fl] Hu]. destruct (user_table n u fl Hu) as [t Ht].
  pose proof (born_parent d s1 T1 U1 l1 Hb) as Hp. pose proof (uv_vm _ _ _ _ _ Hp) as Hpv.
  destruct (uv_some _ _ _ _ _ Hp _ _ _ Hu) as (Hr & Hlu & Hfl & Hodd & Hpte & pg & Hpg & Hlen).
  destruct (vm_entry _ _ _ _ _ _ Hpv Ht) as (Hft & _ & Hw). pose proof (PTX_range (n * 4096)) as Hx. pose proof (pframe_pos _ _ Hft).
  pose proof (V2P_page u (pframe_mod _ _ (lo_frame _ _ _ _ _ Hlu))) as Hum. pose proof (uv_vm _ _ _ _ _ (bo_uvm _ _ _ _ _ _ _ Hb)) as Hcv.
  wp_steps. apply (wp_walk_some s1 pgdir T l1 Hpv _ false t _ Ht). apply wp_if_false; [lia|]. wp_steps.
  apply (wp_load_entry _ _ _ _ _ (pframe_mod _ _ Hft) Hx Hw). rewrite Hpte. apply wp_if_false; [rewrite land_low by (done || unfold PTE_P; lia); lia|].
  cbv zeta. rewrite PTE_FLAGS_low, (pframe_P2V _ _ fl (lo_frame _ _ _ _ _ Hlu)) by done. wp_steps.
  apply (wp_kalloc l1); [apply Hcv|apply Hcv|]. destruct l1 as [|u2 l0]; cbn [head default].
  - apply wp_if_true; [done|]. now apply (wp_copy_fail d s1 T1 U1 []).
  - change (id u2) with u2 in *. pose proof (pframe_pos _ _ (free_pframe s1 d T1 (u2 :: l0) u2 Hcv ltac:(left))).
    apply wp_if_false; [lia|]. unfold copy_page. wp_steps.
    pose proof (take_intro d s1 T1 U1 u2 l0 pg (bo_uvm _ _ _ _ _ _ _ Hb) Hlen) as Htk. cbv zeta in Htk.
    assert (U1 !! n = None) as HU1.
    { specialize (Hcp n). destruct (U1 !! n) as [[? ?]|]; [lia|done]. }
    eapply wp_map_taken; [exact Htk|done|done|done| |].
    + intros s2 T2 Htk2. apply wp_if_true; [done|]. wp_steps.
      destruct (take_free _ _ _ _ _ _ _ _ _ _ _ _ _ Htk2 (uv_step_refl _ _ _ _ _ (ut_uvm _ _ _ _ _ _ _ _ _ Htk2))) as [Hs3 Hl3].
      eapply wp_eq; [apply kfree_eq; [apply Hl3|apply Htk2]|]. eapply wp_copy_fail, born_step; [exact Hb|exact Hs3].
    + rewrite lor_odd by done. intros s2 T2 l2 Hs2 Hmem. apply wp_if_false; [done|]. unfold PGSIZE.
      replace (n * 4096 + 4096) with ((n + 1) * 4096) by lia.
      apply (IH (n + 1) s2 T2 (<[n := (u2, fl)]> U1) l2); [eapply born_step; eassumption| |eapply kernel_map_step; eassumption|div_lia|div_lia].
      eapply (copied_step d n u u2 fl s1 T1 U1); [done|done|exact Hs2|]. rewrite Hmem. transitivity (Some pg); [apply lookup_insert_eq|].
      rewrite <- Hpg. apply Hb. now destruct (uv_some _ _ _ _ _ Hv _ _ _ Hu) as (_ & [_ _ _ Hnl] & _).
Qed.
End copyuvm.

(** copyuvm makes a copy out of free pages, or gives all of them back. *)
Lemma wp_copyuvm s pgdir T U l sz : uvm s pgdir T U l -> covers U sz -> 0 <= sz <= KERNBASE -> link_ok (k_sym s) ->
  wp (copyuvm pgdir sz) (copy_post s U l sz) s.
Proof.
  intros Hv Hc Hsz Hlk. unfold copyuvm. wp_steps. pose proof (uv_vm _ _ _ _ _ Hv) as Hvm.
  eapply wp_mono; [apply (wp_setupkvm s l); [split; apply Hvm|done]|].
  intros d s1 [[-> Hu]|(Hd & T1 & l1 & Hb & Hk)]; [wp_steps; now left|].
  apply wp_if_false; [lia|]. change 0 with (0 * 4096).
  assert (copied s U 0 s1 ∅) as Hc0.
  { intros m. rewrite lookup_empty. destruct (Z.le_gt_cases 0 m); [now left|]. right. apply eq_None_not_Some. intros H'. apply Hc in H'. lia. }
  apply (wp_copyuvm_loop s pgdir T U l Hv sz) with (T1 := T1) (U1 := ∅) (l1 := l1); try done; unfold PGSIZE; try lia; try div_lia.
Qed.

(** The copy has the pages of the parent, each in a frame of its own. *)
Definition copy_of (s : kstate) (U : gmap Z (Z * Z)) (s' : kstate) (U' : gmap Z (Z * Z)) : Prop :=
  (forall n, is_Some (U' !! n) <-> is_Some (U !! n)) /\
  (forall n u fl, U !! n = Some (u, fl) -> exists u', U' !! n = Some (u', fl) /\ u' <> u /\ k_mem s' !! u' = k_mem s !! u).

Lemma copied_copy_of s pgdir T U l sz d s' T' U' l' : uvm s pgdir T U l -> covers U sz -> born d s l s' T' U' l' ->
  copied s U ((sz + 4095) / 4096) s' U' -> copy_of s U s' U'.
Proof.
  intros Hv Hc Hb Hcp.
  assert (forall n u fl, U !! n = Some (u, fl) -> exists u', U' !! n = Some (u', fl) /\ u' <> u /\ k_mem s' !! u' = k_mem s !! u) as Hall.
  { intros n u fl Hn. specialize (Hcp n). assert (0 <= n /\ n * 4096 < sz) as Hn0 by (apply Hc; eauto).
    destruct (U' !! n) as [[u' fl']|] eqn:En; [|destruct Hcp as [Hcp|Hcp]; [div_lia|congruence]].
    destruct Hcp as (_ & v & Hv' & Hm). rewrite Hn in Hv'. injection Hv' as <- <-. exists u'. split; [done|]. split; [|done].
    intros ->. destruct (uv_some _ _ _ _ _ Hv _ _ _ Hn) as (_ & [_ _ _ Hl] & _). apply Hl. rewrite (bo_pages _ _ _ _ _ _ _ Hb).
    right. rewrite !elem_of_app. right. right. apply elem_upages. eauto. }
  split; [|done]. intros n. split.
  - intros [[u' fl] Hn]. specialize (Hcp n). rewrite Hn in Hcp. destruct Hcp as (_ & v & Hv' & _). eauto.
  - intros [[u fl] Hn]. destruct (Hall n u fl Hn) as (u' & Hn' & _). eauto.
Qed.

(** C17: fork copies the memory of the parent. copyuvm returns 0, and then the free pages are those
    there were; or it returns a directory [d] made of free pages, with the kernel's map and, for each
    page of the parent and for nothing else, a page of its own with the same flags and the same
    contents. Either way the parent's address space is the same and so are its pages: the two share
    no page frame, and no frame is lost. *)
Theorem copyuvm_correct s pgdir T U l sz : uvm s pgdir T U l -> covers U sz -> 0 <= sz <= KERNBASE -> link_ok (k_sym s) ->
  wp (copyuvm pgdir sz) (fun d s' => (forall n u fl, U !! n = Some (u, fl) -> k_mem s' !! u = k_mem s !! u) /\
    ((d = 0 /\ exists l', l' ≡ₚ l /\ uvm s' pgdir T U l') \/
     (d <> 0 /\ exists T' U' l', uvm s' pgdir T U l' /\ uvm s' d T' U' l' /\ kernel_map s' T' /\
        l ≡ₚ d :: l' ++ tabs T' ++ upages U' /\
        copy_of s U s' U'))) s.
Proof.
  intros Hv Hc Hsz Hlk.
  assert (forall s', (forall q, (q ∉ l) -> k_mem s' !! q = k_mem s !! q) -> forall n u fl, U !! n = Some (u, fl) -> k_mem s' !! u = k_mem s !! u) as Hkeep.
  { intros s' H n u fl Hn. apply H. now destruct (uv_some _ _ _ _ _ Hv _ _ _ Hn) as (_ & [_ _ _ Hl] & _). }
  eapply wp_mono; [now apply (wp_copyuvm s pgdir T U l)|]. intros d s' [[-> Hu]|(Hd & T' & U' & l' & Hb & Hcp & Hk)].
  - split; [apply Hkeep, Hu|]. left. split; [done|]. now apply (unborn_parent s pgdir T U l Hv).
  - split; [apply Hkeep, Hb|]. right. split; [done|]. exists T', U', l'. split; [now apply (born_parent s pgdir T U l Hv d s' T' U' l')|].
    split; [apply Hb|]. split; [done|]. split; [apply Hb|]. now apply (copied_copy_of s pgdir T U l sz d s' T' U' l').
Qed.

(** A process of one page, its directory at 0x80204000, and three free pages. *)
Definition ex_parent : kstate :=
  ex_vm <| k_mem := <[0x80204000 := 0x205007 :: replicate 1023 0]> (<[0x80205000 := 0x206007 :: replicate 1023 0]>
              (<[0x80206000 := replicate 1024 42]> (link_pages ex_vm_free))) |>.
Definition ex_parent_T : gmap Z Z := {[ 0 := 0x80205000 ]}.
Definition ex_parent_U : gmap Z (Z * Z) := {[ 0 := (0x80206000, 7) ]}.

Lemma ex_parent_mem q : q ∈ ex_vm_free -> k_mem ex_parent !! q = link_pages ex_vm_free !! q.
Proof. intros Hq. repeat (apply elem_of_cons in Hq as [->|Hq]; [reflexivity|]). now apply not_elem_of_nil in Hq. Qed.

Lemma ex_pframe p : (p mod PGSIZE =? 0) && (0x80110000 <=? p) && (0 <? p) && (V2P p <? PHYSTOP) && (p <? 4294967296) = true -> pframe 0x80110000 p.
Proof. intros [H1 H2]%andb_prop. split; [now apply kpage_dec_ok|]. apply kpage_dec_ok in H1 as (_ & _ & H & _). unfold is_u32. lia. Qed.

Lemma ex_parent_free : free_list ex_parent ex_vm_free.
Proof.
  split; [|apply (bool_decide_unpack _); reflexivity]. apply (chain_frame_all _ (link_pages ex_vm_free)); [exact ex_parent_mem|].
  simpl. repeat (split; [done|]; split; [now apply kpage_dec_ok|]; eexists _, _; split; [reflexivity|]; split; [reflexivity|]).
  reflexivity.
Qed.

Lemma ex_parent_vm : vm_ok ex_parent 0x80204000 ex_parent_T ex_vm_free.
Proof.
  unfold ex_parent_T. split; [exact ex_parent_free|left; reflexivity|apply ex_vm_ok| |apply (bool_decide_unpack _); reflexivity|].
  - split.
    + now apply ex_pframe.
    + eexists. split; reflexivity.
    + intros i t [<- <-]%lookup_singleton_Some. split; [lia|]. split; [now apply ex_pframe|]. split; [done|]. split; [reflexivity|].
      eexists. split; reflexivity.
    + intros i Hi Hn. exists 0. split; [|done]. apply lookup_singleton_None in Hn.
      rewrite (tab_word_page _ _ _ (0x205007 :: replicate 1023 0)) by reflexivity.
      rewrite lookup_cons_ne_0 by lia. apply lookup_replicate_2. lia.
    + intros i j t [<- <-]%lookup_singleton_Some [<- _]%lookup_singleton_Some. done.
  - intros t [i [<- <-]%lookup_singleton_Some]%elem_tabs. apply (bool_decide_unpack _). reflexivity.
Qed.

Lemma ex_parent_uvm : uvm ex_parent 0x80204000 ex_parent_T ex_parent_U ex_vm_free.
Proof.
  pose proof ex_parent_vm as Hv. unfold ex_parent_T, ex_parent_U in *. split; [exact Hv|reflexivity| | |].
  - intros n u fl [<- [= <- <-]]%lookup_singleton_Some. split; [unfold NUPAGES; lia|]. split.
    { split; [now apply ex_pframe|done| |apply (bool_decide_unpack _); reflexivity].
      intros [i [_ E]%lookup_singleton_Some]%elem_tabs. discriminate E. }
    split; [lia|]. split; [done|]. split; [reflexivity|]. eexists. split; reflexivity.
  - intros n Hn Hu. apply lookup_singleton_None in Hu. unfold pte_at, NUPAGES in *. destruct (_ !! PDX (n * 4096)) as [t|] eqn:Et; [|done].
    apply lookup_singleton_Some in Et as [Ei <-]. rewrite (tab_word_page _ _ _ (0x206007 :: replicate 1023 0)) by reflexivity.
    rewrite PDX_spec in Ei. pose proof (PTX_range (n * 4096)). assert (PTX (n * 4096) <> 0) by (rewrite PTX_spec; div_lia).
    rewrite lookup_cons_ne_0, lookup_replicate_2 by lia. done.
  - intros n m u f1 f2 [<- _]%lookup_singleton_Some [<- _]%lookup_singleton_Some. done.
Qed.

Lemma copyuvm_correct_witness :
  uvm ex_parent 0x80204000 ex_parent_T ex_parent_U ex_vm_free /\
  wp (copyuvm 0x80204000 4096) (fun d s' => k_mem s' !! 0x80206000 = Some (replicate 1024 42)) ex_parent.
Proof.
  split; [exact ex_parent_uvm|]. eapply wp_mono.
  - apply (copyuvm_correct ex_parent 0x80204000 ex_parent_T ex_parent_U ex_vm_free 4096); [exact ex_parent_uvm| |done|].
    + intros n. destruct (decide (n = 0)) as [->|Hne].
      * split; [lia|]. intros _. exists (0x80206000, 7). reflexivity.
      * unfold ex_parent_U. rewrite lookup_singleton_ne by done. split; [now intros [? ?]|lia].
    + repeat split; reflexivity.
  - intros d s' [H _]. rewrite (H 0 0x80206000 7 eq_refl). reflexivity.
Defined.
