(* ===== verification/Threads.v ===== *)
(** Threads: clone, join and wait of proc.c on the address space that the threads of a process share,
    and the random scheduling policy. *)

From stdpp Require Import base list gmap strings numbers fin_maps.
From Stdlib Require Import ZArith Lia.
From S2P Require Import Prelude Bytes CString Kstate Mmu Kalloc Sched Inode File Conline Vm Proc Pagetable Uvm Copyuvm.
Open Scope Z_scope.

(** ** Address spaces and the rest of the state *)

(** An address space depends on the page frames and the allocator only. *)
Lemma uvm_same s s' pgdir T U l : uvm s pgdir T U l -> k_mem s' = k_mem s -> k_freelist s' = k_freelist s ->
  k_sym s' = k_sym s -> kmem_idle s' -> uvm s' pgdir T U l.
Proof.
  intros Hv Hm Hf Hs Hi. pose proof (uv_vm _ _ _ _ _ Hv) as Hvm. apply (uvm_other s _ pgdir T U l); [done| |done| |].
  - apply (vm_ok_other s _ pgdir T l); [done|done| |done|apply Hvm..|].
    + destruct (vm_free _ _ _ _ Hvm) as [Hc Hn]. split; [|done]. now rewrite Hm, Hf, Hs.
    + intros q _. now rewrite Hm.
  - intros q _. now rewrite Hm.
  - intros u (n & fl & Hn)%elem_upages. now destruct (uv_some _ _ _ _ _ Hv _ _ _ Hn) as (_ & [_ _ _ H] & _).
Qed.

(** A user page may be written. *)
Lemma uvm_store s pgdir T U l n u fl pg : uvm s pgdir T U l -> U !! n = Some (u, fl) -> length pg = 1024%nat ->
  uvm (s <| k_mem := <[u := pg]> (k_mem s) |>) pgdir T U l.
Proof.
  intros Hv Hn Hl. pose proof Hv as [H1 H2 H3 H4 H5]. destruct (H3 n u fl Hn) as (_ & Hlo & _).
  assert (forall x, pte_at (<[u := pg]> (k_mem s)) T x = pte_at (k_mem s) T x) as Hp.
  { intros x. apply pte_at_frame. intros t Ht. apply lookup_insert_ne. intros ->. now destruct Hlo. }
  split; [now apply vm_ok_write|done| |intros m Hm Hu; cbn; rewrite Hp; eauto|done].
  intros m v f Hm. destruct (H3 m v f Hm) as (A1 & A2 & A3 & A4 & A5 & A6). split; [done|]. split; [now destruct A2|].
  split; [done|]. split; [done|]. cbn. rewrite Hp. split; [done|]. destruct (decide (u = v)) as [->|Hne].
  - exists pg. now rewrite lookup_insert_eq.
  - now rewrite lookup_insert_ne.
Qed.

(** ** Stores to user memory *)

Definition word4 (a b c d : Z) : Z := a + 256 * b + 65536 * c + 16777216 * d.

Lemma word4_split w : is_u32 w -> exists a b c d, w = word4 a b c d /\ is_u8 a /\ is_u8 b /\ is_u8 c /\ is_u8 d.
Proof.
  intros Hw. exists (w mod 256), (w / 256 mod 256), (w / 65536 mod 256), (w / 16777216 mod 256).
  unfold word4, is_u32, is_u8 in *. div_lia.
Qed.

Lemma le_bytes_word4 a b c d : is_u8 a -> is_u8 b -> is_u8 c -> is_u8 d -> le_bytes 4 (word4 a b c d) = [a; b; c; d].
Proof. unfold word4, is_u8. intros. cbn [le_bytes]. repeat f_equal; div_lia. Qed.

Lemma with_byte_word4 a b c d x : is_u8 a -> is_u8 b -> is_u8 c -> is_u8 d ->
  with_byte (word4 a b c d) 0 x = word4 x b c d /\ with_byte (word4 a b c d) 1 x = word4 a x c d /\
  with_byte (word4 a b c d) 2 x = word4 a b x d /\ with_byte (word4 a b c d) 3 x = word4 a b c x.
Proof.
  unfold with_byte, byte_of, word4, is_u8. intros.
  change (256 ^ 0) with 1. change (256 ^ 1) with 256. change (256 ^ 2) with 65536. change (256 ^ 3) with 16777216.
  assert ((a + 256 * b + 65536 * c + 16777216 * d) / 1 mod 256 = a) as -> by div_lia.
  assert ((a + 256 * b + 65536 * c + 16777216 * d) / 256 mod 256 = b) as -> by div_lia.
  assert ((a + 256 * b + 65536 * c + 16777216 * d) / 65536 mod 256 = c) as -> by div_lia.
  assert ((a + 256 * b + 65536 * c + 16777216 * d) / 16777216 mod 256 = d) as -> by div_lia. lia.
Qed.

(** The running process [me] with its address space. *)
Record running_in (s : kstate) (me : nat) (cp : proc) T U (l : list Z) : Prop := {
  ri_cur : k_cur s = Some me;
  ri_proc : k_procs s !! me = Some cp;
  ri_uvm : uvm s (p_pgdir cp) T U l
}.

(** The page [n] is the process's to write, and its words are [pg]. *)
Record writable (s : kstate) (U : gmap Z (Z * Z)) (n u : Z) (pg : list Z) : Prop := {
  wr_page : exists fl, U !! n = Some (u, fl) /\ Z.land fl PTE_W <> 0;
  wr_mem : k_mem s !! u = Some pg;
  wr_words : Forall is_u32 pg
}.

Definition set_page (u : Z) (pg : list Z) (s : kstate) : kstate := s <| k_mem := <[u := pg]> (k_mem s) |>.

Lemma running_set_page s me cp T U l n u pg pg' : running_in s me cp T U l -> writable s U n u pg ->
  length pg' = 1024%nat -> running_in (set_page u pg' s) me cp T U l.
Proof. intros [H1 H2 H3] [(fl & Hn & _) _ _] Hl. split; [done|done|]. now apply (uvm_store s _ T U l n u fl). Qed.

Lemma writable_len s me cp T U l n u pg : running_in s me cp T U l -> writable s U n u pg -> length pg = 1024%nat.
Proof.
  intros [_ _ H] [(fl & Hn & _) Hm _]. destruct (uv_some _ _ _ _ _ H _ _ _ Hn) as (_ & _ & _ & _ & _ & pg' & Hm' & Hl). congruence.
Qed.

Lemma user_translate s me cp T U l va u pg : running_in s me cp T U l -> writable s U (va / 4096) u pg -> 
  translate (p_pgdir cp) va true s = Ok (u + va mod 4096) s.
Proof.
  intros [_ _ H] [(fl & Hn & Hw) _ _]. destruct (uv_some _ _ _ _ _ H _ _ _ Hn) as (Hr & Hlo & Hf & Hp & Hpte & _).
  rewrite (translate_eq s _ T l) by apply H. rewrite (pte_at_page _ _ va (va / 4096 * 4096)) by div_lia. rewrite Hpte.
  pose proof (lo_frame _ _ _ _ _ Hlo) as Hfr. pose proof (V2P_page u (pframe_mod _ _ Hfr)) as Hm.
  unfold mmu. rewrite !land_low by (done || unfold PTE_P, PTE_W; lia). rewrite (pframe_P2V _ _ fl Hfr) by done.
  rewrite (proj2 (Z.eqb_neq _ _) Hp), (proj2 (Z.eqb_neq _ _) Hw). done.
Qed.

(** One byte of the word [k] of the page. *)
Lemma wp_ustore8 s me cp T U l va u pg w b (Q : unit -> kstate -> Prop) : running_in s me cp T U l ->
  writable s U (va / 4096) u pg -> pg !! Z.to_nat (va mod 4096 / 4) = Some w ->
  Q tt (set_page u (<[Z.to_nat (va mod 4096 / 4) := with_byte w (va mod 4) b]> pg) s) -> wp (ustore8 va b) Q s.
Proof.
  intros Hr Hw Hk HQ. pose proof Hr as [Hc Hp Hv]. destruct (wr_page _ _ _ _ _ Hw) as (fl & Hn & _).
  destruct (uv_some _ _ _ _ _ Hv _ _ _ Hn) as (_ & Hlo & _). pose proof (pframe_mod _ _ (lo_frame _ _ _ _ _ Hlo)) as Hu. unfold PGSIZE in Hu.
  unfold ustore8. wp_steps. apply (wp_curproc me); [done|]. wp_steps. apply (wp_proc_at me cp); [done|]. wp_steps.
  eapply wp_eq; [now apply (user_translate s me cp T U l va u pg)|]. unfold store8.
  assert (page_of (u + va mod 4096 - (u + va mod 4096) mod 4) = u) as Epage by (unfold page_of; div_lia).
  assert (word_of (u + va mod 4096 - (u + va mod 4096) mod 4) = Z.to_nat (va mod 4096 / 4)) as Eword by (unfold word_of; f_equal; div_lia).
  assert ((u + va mod 4096) mod 4 = va mod 4) as Ebyte by div_lia.
  wp_steps. eapply wp_load32; [rewrite Epage; apply Hw|rewrite Eword; exact Hk|].
  eapply wp_store32; [rewrite Epage; apply Hw|]. rewrite Epage, Eword, Ebyte. exact HQ.
Qed.

(** A store of one word. *)
Lemma wp_ustore32 s me cp T U l va u pg v (Q : unit -> kstate -> Prop) : running_in s me cp T U l ->
  writable s U (va / 4096) u pg -> va mod 4 = 0 -> 0 <= va -> va < KERNBASE -> is_u32 v ->
  Q tt (set_page u (<[Z.to_nat (va mod 4096 / 4) := v]> pg) s) -> wp (ustore32 va v) Q s.
Proof.
  intros Hr Hw Ha H0 Hk Hv HQ. pose proof (writable_len _ _ _ _ _ _ _ _ _ Hr Hw) as Hlen. unfold KERNBASE in Hk.
  set (k := Z.to_nat (va mod 4096 / 4)) in *. assert (k < 1024)%nat as Hk' by (unfold k; div_lia).
  destruct (lookup_lt_is_Some_2 pg k ltac:(lia)) as [w Hkw].
  assert (is_u32 w) as Hw32 by (eapply list.Forall_lookup_1; [apply Hw|exact Hkw]).
  destruct (word4_split w Hw32) as (a & b & c & d & -> & Ba & Bb & Bc & Bd).
  destruct (word4_split v Hv) as (a' & b' & c' & d' & -> & Ba' & Bb' & Bc' & Bd').
  unfold ustore32. rewrite le_bytes_word4 by done. cbn [ustore_bytes].
  assert (forall j, 0 <= j < 4 -> (va + j) / 4096 = va / 4096 /\ (va + j) mod 4096 / 4 = va mod 4096 / 4 /\ (va + j) mod 4 = j) as Hj by (intros j Hj; div_lia).
  assert (forall x, is_u32 x -> writable (set_page u (<[k := x]> pg) s) U (va / 4096) u (<[k := x]> pg)) as Hws.
  { intros x Hx. destruct Hw as [Hw1 Hw2 Hw3]. split; [done|apply lookup_insert_eq|now apply list.Forall_insert]. }
  assert (forall x j y (Q' : unit -> kstate -> Prop), 0 <= j < 4 -> is_u32 x ->
    Q' tt (set_page u (<[k := with_byte x j y]> pg) s) -> wp (ustore8 (va + j) y) Q' (set_page u (<[k := x]> pg) s)) as Hst.
  { intros x j y Q' Hj' Hx HQ'. destruct (Hj j Hj') as (E1 & E2 & E3).
    eapply (wp_ustore8 _ me cp T U l (va + j) u (<[k := x]> pg) x); [apply (running_set_page s me cp T U l (va / 4096) u pg); [done|done|now rewrite length_insert]|rewrite E1; now apply Hws|
      rewrite E2; apply list_lookup_insert_eq; lia|].
    rewrite E2, E3. fold k. unfold set_page in *. cbn. rewrite insert_insert_eq, list_insert_insert_eq. exact HQ'. }
  destruct (with_byte_word4 a b c d a' Ba Bb Bc Bd) as (E0 & _). destruct (with_byte_word4 a' b c d b' Ba' Bb Bc Bd) as (_ & E1 & _).
  destruct (with_byte_word4 a' b' c d c' Ba' Bb' Bc Bd) as (_ & _ & E2 & _). destruct (with_byte_word4 a' b' c' d d' Ba' Bb' Bc' Bd) as (_ & _ & _ & E3).
  assert (set_page u (<[k := word4 a b c d]> pg) s = s) as Es.
  { unfold set_page. rewrite list_insert_id by done. rewrite insert_id by apply Hw. now destruct s. }
  rewrite <- Es. assert (forall j, 0 <= j < 4 -> u32 (va + j) = va + j) as Hu by (intros j Hj'; apply u32_small; unfold is_u32; lia).
  rewrite (Hu 1) by lia. replace (va + 1 + 1) with (va + 2) by lia. rewrite (Hu 2) by lia. replace (va + 2 + 1) with (va + 3) by lia.
  rewrite (Hu 3) by lia. replace va with (va + 0) at 1 by lia.
  assert (forall a b c d, is_u8 a -> is_u8 b -> is_u8 c -> is_u8 d -> is_u32 (word4 a b c d)) as H4 by (unfold word4, is_u32, is_u8; lia).
  wp_steps. apply Hst; [lia|auto|]. rewrite E0. wp_steps. apply Hst; [lia|auto|]. rewrite E1.
  wp_steps. apply Hst; [lia|auto|]. rewrite E2. wp_steps. apply Hst; [lia|auto|]. rewrite E3. wp_steps. exact HQ.
Qed.

(** ** Sharing the open files *)

(** The file [f] with a reference more for each time the table [ofs] has it. *)
Definition dup_ref (ofs : list (option nat)) (f : nat) (x : file) : file :=
  x <| f_ref := f_ref x + Z.of_nat (length (List.filter (fun o => bool_decide (o = Some f)) ofs)) |>.

Lemma dup_ref_none ofs : imap (dup_ref (None :: ofs)) = imap (dup_ref ofs).
Proof. done. Qed.

Lemma dup_ref_nil (fs : list file) : imap (dup_ref []) fs = fs.
Proof.
  apply list_eq. intros i. rewrite list_lookup_imap. destruct (fs !! i) as [x|]; [|done]. cbn. f_equal. unfold dup_ref. cbn.
  rewrite Z.add_0_r. now destruct x.
Qed.

Lemma dup_ref_some f ofs (fs : list file) x : fs !! f = Some x ->
  imap (dup_ref (Some f :: ofs)) fs = imap (dup_ref ofs) (<[f := x <| f_ref := f_ref x + 1 |>]> fs).
Proof.
  intros Hf. apply list_eq. intros i. rewrite !list_lookup_imap. unfold dup_ref. cbn [List.filter].
  destruct (decide (i = f)) as [->|Hne].
  - rewrite Hf, list_lookup_insert_eq by now apply lookup_lt_Some in Hf. cbn. rewrite bool_decide_eq_true_2 by done.
    cbn [length]. apply f_equal. destruct x as [x1 r x2 x3 x4 x5 x6]. cbn. replace (r + 1 + _) with (r + Z.of_nat (S (length (List.filter (fun o => bool_decide (o = Some f)) ofs)))) by lia. done.
  - rewrite list_lookup_insert_ne by done. rewrite bool_decide_eq_false_2 by congruence. done.
Qed.

(** The files of [ofs] are open. *)
Definition files_open (s : kstate) (ofs : list (option nat)) : Prop :=
  forall f, Some f ∈ ofs -> exists x, k_files s !! f = Some x /\ 1 <= f_ref x.

Definition dup_post (np : nat) (c : proc) (all todo : list (option nat)) (s : kstate) : kstate :=
  s <| k_files := imap (dup_ref todo) (k_files s) |> <| k_procs := <[np := c <| p_ofile := all |>]> (k_procs s) |>.

Lemma wp_filedup f x s (Q : nat -> kstate -> Prop) : LFtable ∉ k_held s -> k_files s !! f = Some x -> 1 <= f_ref x ->
  Q f (s <| k_files := <[f := x <| f_ref := f_ref x + 1 |>]> (k_files s) |>) -> wp (filedup f) Q s.
Proof.
  intros Hl Hf Hr HQ. unfold filedup. wp_steps. apply wp_acquire; [done|]. wp_steps. apply (wp_file_at f x); [done|].
  apply wp_if_false; [lia|]. wp_steps. apply (wp_upd_file f _ x); [done|]. wp_steps.
  eapply wp_release_head; [reflexivity|]. wp_steps. now destruct s.
Qed.

Lemma wp_dup_loop me np cp all n : forall i s c (Q : unit -> kstate -> Prop), (i + n = 16)%nat -> length all = 16%nat -> me <> np ->
  k_procs s !! me = Some cp -> p_ofile cp = all -> k_procs s !! np = Some c -> p_ofile c = take i all ++ replicate n None ->
  LFtable ∉ k_held s -> files_open s (drop i all) -> Q tt (dup_post np c all (drop i all) s) ->
  wp (for_ (seq i n) (fun fd =>
    p ← proc_at me; o ← of_opt "ofile" (p_ofile p !! fd);
    match o with
    | Some f => f' ← filedup f; upd_proc np (fun p => p <| p_ofile := <[fd := Some f']> (p_ofile p) |>)
    | None => ret tt
    end)) Q s.
Proof.
  induction n as [|n IH]; intros i s c Q Hin Hlen Hne Hme Hof Hnp Hc Hl Hopen HQ; cbn [seq for_].
  - wp_steps. rewrite app_nil_r, take_ge in Hc by lia. unfold dup_post in HQ. rewrite drop_ge, dup_ref_nil in HQ by lia.
    replace s with (s <| k_files := k_files s |> <| k_procs := <[np := c <| p_ofile := all |>]> (k_procs s) |>); [done|].
    rewrite list_insert_id; [now destruct s|]. rewrite Hnp. f_equal. destruct c. cbn in *. now subst.
  - destruct (lookup_lt_is_Some_2 all i ltac:(lia)) as [o Ho]. pose proof (drop_S all o i Ho) as Ed.
    wp_steps. apply (wp_proc_at me cp); [done|]. wp_steps. eapply wp_of_opt; [rewrite Hof; exact Ho|].
    destruct o as [f|].
    + destruct (Hopen f ltac:(rewrite Ed; left)) as (x & Hx & Hr). wp_steps. apply (wp_filedup f x); [done|done|done|].
      apply (wp_upd_proc np _ c); [done|]. assert (np < length (k_procs s))%nat as Hlt by now apply lookup_lt_Some in Hnp.
      eapply IH; [lia|done|done|cbn; now rewrite list_lookup_insert_ne|done|cbn; now apply list_lookup_insert_eq| |done| |].
      * cbn. rewrite Hc, (take_S_r all i (Some f)) by done. rewrite insert_app_r_alt by (rewrite length_take; lia).
        rewrite length_take, Nat.min_l, Nat.sub_diag by lia. cbn. now rewrite <- app_assoc.
      * intros g Hg. destruct (Hopen g ltac:(rewrite Ed; now right)) as (y & Hy & Hry). cbn.
        destruct (decide (g = f)) as [->|Hgf]; [|exists y; now rewrite list_lookup_insert_ne].
        eexists. rewrite list_lookup_insert_eq by now apply lookup_lt_Some in Hx. split; [done|]. cbn. lia.
      * unfold dup_post in *. rewrite Ed, (dup_ref_some f _ _ x Hx) in HQ. cbn. rewrite list_insert_insert_eq. exact HQ.
    + wp_steps. eapply (IH (S i) s c); [lia|done|done|done|done|done| |done| |].
      * rewrite Hc, (take_S_r all i None) by done. now rewrite <- app_assoc.
      * intros g Hg. apply Hopen. rewrite Ed. now right.
      * unfold dup_post in *. now rewrite Ed, dup_ref_none in HQ.
Qed.

Lemma wp_dup_cwd me np cp c i ip s (Q : unit -> kstate -> Prop) : k_procs s !! me = Some cp -> p_cwd cp = Some i ->
  k_icache s !! i = Some ip -> k_procs s !! np = Some c -> LIcache ∉ k_held s ->
  Q tt (s <| k_icache := <[i := ip <| i_ref := i_ref ip + 1 |>]> (k_icache s) |>
          <| k_procs := <[np := c <| p_cwd := Some i |>]> (k_procs s) |>) -> wp (dup_cwd me np) Q s.
Proof.
  intros Hme Hcwd Hip Hnp Hl HQ. unfold dup_cwd, idup. wp_steps. apply (wp_proc_at me cp); [done|]. wp_steps.
  apply wp_acquire; [done|]. wp_steps. apply (wp_upd_inode i _ ip); [done|]. wp_steps.
  eapply wp_release_head; [reflexivity|]. wp_steps. apply (wp_upd_proc np _ c); [done|]. destruct s. exact HQ.
Qed.

(** ** allocproc *)

Definition unused (p : proc) : bool := bool_decide (p_state p = UNUSED).

(** A slot of the table taken for the process [pid] with the kernel stack [ks]. *)
Definition embryo (s : kstate) (ks : Z) (p : proc) : proc :=
  let pid := k_nextpid s in
  p <| p_state := EMBRYO |> <| p_pid := pid |> <| p_isthread := 0 |> <| p_tgid := pid |> <| p_ustack := 0 |>
    <| p_randstate := u32 pid |> <| p_randpct := 0 |> <| p_kstack := ks |> <| p_tf := junk_tf |>
    <| p_context := mk_context 0 0 0 0 (sym_forkret (k_sym s)) |>.

(** The new kernel stack: swtch returns to forkret, and forkret to trapret. *)
Definition new_stack (s : kstate) (kpg : list Z) : list Z := <[1004%nat := sym_trapret (k_sym s)]> kpg.

Definition alloc_post (i : nat) (p : proc) (ks : Z) (l : list Z) (kpg : list Z) (s : kstate) : kstate :=
  (set_page ks (new_stack s kpg) (kalloc_post (ks :: l) s))
    <| k_nextpid := s32 (k_nextpid s + 1) |> <| k_procs := <[i := embryo s ks p]> (k_procs s) |>.

Definition alloc_failed (i : nat) (p : proc) (s : kstate) : kstate :=
  s <| k_nextpid := s32 (k_nextpid s + 1) |> <| k_procs := <[i := p]> (k_procs s) |>.

Lemma wp_allocproc s l (Q : option nat -> kstate -> Prop) : free_list s l -> kmem_idle s -> LPtable ∉ k_held s ->
  (find_idx unused (k_procs s) = None -> Q None s) ->
  (forall i p p', find_idx unused (k_procs s) = Some i -> k_procs s !! i = Some p -> l = [] ->
     p_state p' = UNUSED -> p_ofile p' = p_ofile p -> Q None (alloc_failed i p' s)) ->
  (forall i p ks l' kpg, find_idx unused (k_procs s) = Some i -> k_procs s !! i = Some p -> l = ks :: l' ->
     k_mem s !! ks = Some kpg -> length kpg = 1024%nat -> Q (Some i) (alloc_post i p ks l' kpg s)) ->
  wp allocproc Q s.
Proof.
  intros Hf Hi Hl Hnone Hfail Hok. unfold allocproc. wp_steps. apply wp_acquire; [done|]. wp_steps. cbn [k_procs setf set_k_held].
  change (fun p => bool_decide (p_state p = UNUSED)) with unused. destruct (find_idx unused (k_procs s)) as [i|] eqn:Ei.
  2:{ wp_steps. eapply wp_release_head; [reflexivity|]. wp_steps. replace (_ <| k_held := _ |>) with s; [now apply Hnone|now destruct s]. }
  apply find_idx_Some in Ei as Ei'. destruct Ei' as [(p & Hp & _) _].
  assert (i < length (k_procs s))%nat as Hlt by now apply lookup_lt_Some in Hp.
  wp_steps. apply (wp_upd_proc i _ p); [done|]. wp_steps. eapply wp_release_head; [reflexivity|]. wp_steps.
  set (p1 := p <| p_state := EMBRYO |> <| p_pid := _ |> <| p_isthread := _ |> <| p_tgid := _ |> <| p_ustack := _ |> <| p_randstate := _ |> <| p_randpct := _ |>).
  match goal with |- wp kalloc _ ?x => set (s1 := x) end.
  assert (s1 = s <| k_nextpid := s32 (k_nextpid s + 1) |> <| k_procs := <[i := p1]> (k_procs s) |>) as E1 by now destruct s.
  clearbody s1. subst s1. eapply wp_eq; [apply (kalloc_eq _ l); done|]. destruct l as [|ks l'].
  - cbn. wp_steps. eapply wp_upd_proc; [cbn; now apply list_lookup_insert_eq|]. wp_steps. cbn [Z.eqb]. wp_steps.
    eapply wp_upd_proc; [cbn; apply list_lookup_insert_eq; now rewrite length_insert|]. wp_steps.
    cbn. rewrite !list_insert_insert_eq. eapply (Hfail i p); done.
  - pose proof (free_list_kpage _ _ ks Hf ltac:(left)) as (Hm & _ & Hpos & _). destruct Hf as [(_ & _ & n & pg & Hmem & Hpg & _) _].
    cbn. wp_steps. eapply wp_upd_proc; [cbn; now apply list_lookup_insert_eq|]. apply wp_if_false; [lia|]. wp_steps.
    eapply wp_upd_proc; [cbn; apply list_lookup_insert_eq; now rewrite length_insert|]. wp_steps.
    unfold PGSIZE in Hm.
    assert (page_of (ks + KSTACKSIZE - sizeof_tf - 4) = ks) as Epg by (unfold page_of, KSTACKSIZE, sizeof_tf; div_lia).
    assert (word_of (ks + KSTACKSIZE - sizeof_tf - 4) = 1004%nat) as Ewd.
    { unfold word_of, KSTACKSIZE, sizeof_tf. replace ((ks + 4096 - 76 - 4) mod 4096) with 4016 by div_lia. done. }
    eapply wp_store32; [rewrite Epg; exact Hmem|]. rewrite Epg, Ewd. wp_steps.
    eapply wp_upd_proc; [cbn; apply list_lookup_insert_eq; now rewrite !length_insert|]. wp_steps. cbn. rewrite !list_insert_insert_eq.
    refine (eq_ind _ _ (Hok i p ks l' (n :: pg) eq_refl Hp eq_refl Hmem ltac:(cbn; lia)) _ _).
    unfold alloc_post, set_page, new_stack, embryo. now destruct s, p.
Qed.

(** ** clone *)

(** The process [me] in a system call: it holds no spinlock, its open files and its working directory
    are there, and free slots of the process table have no files. *)
Record caller (s : kstate) (me : nat) (cp : proc) T U (l : list Z) : Prop := {
  ca_run : running_in s me cp T U l;
  ca_state : p_state cp = RUNNING;
  ca_held : k_held s = [];
  ca_table : length (p_ofile cp) = 16%nat;
  ca_files : files_open s (p_ofile cp);
  ca_cwd : exists i ip, p_cwd cp = Some i /\ k_icache s !! i = Some ip;
  ca_free : forall i p, k_procs s !! i = Some p -> p_state p = UNUSED -> p_ofile p = replicate 16 None
}.

(** The thread [t] that [cp] has started on [stack]. *)
Record thread_of (s : kstate) (me : nat) (cp : proc) (fn stack ks : Z) (t : proc) : Prop := {
  th_state : p_state t = RUNNABLE;
  th_pid : p_pid t = k_nextpid s;
  th_parent : p_parent t = Some me;
  th_space : p_pgdir t = p_pgdir cp /\ p_sz t = p_sz cp;
  th_group : p_isthread t = 1 /\ p_tgid t = p_tgid cp;
  th_ustack : p_ustack t = stack;
  th_tf : p_tf t = (p_tf cp) <| tf_eip := fn |> <| tf_esp := stack + 4088 |> <| tf_eax := 0 |>;
  th_kernel : p_kstack t = ks /\ p_context t = mk_context 0 0 0 0 (sym_forkret (k_sym s));
  th_files : p_ofile t = p_ofile cp /\ p_cwd t = p_cwd cp
}.

(** The stack of a new thread: the argument of its function, and below it a return address. *)
Definition thread_stack (arg : Z) (pg : list Z) : list Z := <[1022%nat := 0xffffffff]> (<[1023%nat := arg]> pg).

(** One more reference to the working directory. *)
Definition cwd_shared (cp : proc) (s s' : kstate) : Prop := exists i ip, p_cwd cp = Some i /\ k_icache s !! i = Some ip /\
  k_icache s' = <[i := ip <| i_ref := i_ref ip + 1 |>]> (k_icache s).

(** There was no slot or no page. *)
Record clone_failed (s : kstate) (l : list Z) (s' : kstate) : Prop := {
  cf_why : find_idx unused (k_procs s) = None \/ l = [];
  cf_mem : k_mem s' = k_mem s;
  cf_files : k_files s' = k_files s /\ k_icache s' = k_icache s;
  cf_procs : forall j p, k_procs s !! j = Some p -> p_state p <> UNUSED -> k_procs s' !! j = Some p
}.

Record clone_done (s : kstate) (me : nat) (cp : proc) (fn arg stack : Z) T U (l : list Z) (u : Z) (pg : list Z) (r : Z) (s' : kstate)
    (np : nat) (t : proc) (ks : Z) (l' : list Z) : Prop := {
  cd_pid : r = k_nextpid s;
  cd_slot : find_idx unused (k_procs s) = Some np;
  cd_procs : k_procs s' = <[np := t]> (k_procs s);
  cd_thread : thread_of s me cp fn stack ks t;
  cd_pages : l = ks :: l';
  cd_run : running_in s' me cp T U l';
  cd_stack : k_mem s' !! u = Some (thread_stack arg pg);
  cd_kstack : exists kpg, k_mem s !! ks = Some kpg /\ k_mem s' !! ks = Some (new_stack s kpg);
  cd_mem : forall q, q <> u -> q <> ks -> k_mem s' !! q = k_mem s !! q;
  cd_files : k_files s' = imap (dup_ref (p_ofile cp)) (k_files s);
  cd_cwd : cwd_shared cp s s';
  cd_held : k_held s' = []
}.

(** A state in which the page [ks] is a new kernel stack and the slot [np] is [x]. *)
Definition with_slot (np : nat) (x : proc) (ks : Z) (l : list Z) (kpg : list Z) (s : kstate) : kstate :=
  (set_page ks kpg (kalloc_post (ks :: l) s)) <| k_nextpid := s32 (k_nextpid s + 1) |> <| k_procs := <[np := x]> (k_procs s) |>.

Lemma running_with_slot s me cp T U l np x ks kpg : running_in s me cp T U (ks :: l) -> me <> np ->
  running_in (with_slot np x ks l kpg s) me cp T U l.
Proof.
  intros [H1 H2 H3] Hne. split; [done|cbn; now rewrite list_lookup_insert_ne|].
  pose proof (loose_head s _ T ks l (uv_vm _ _ _ _ _ H3)) as Hlo.
  apply (uvm_same (set_page ks kpg (kalloc_post (ks :: l) s))); [|done|done|done|apply (vm_idle _ _ _ _ (uv_vm _ _ _ _ _ H3))].
  apply uvm_write; [now apply uvm_alloc|now destruct Hlo|now apply (uvm_out s (p_pgdir cp) T U ks l)].
Qed.

Lemma writable_out s me cp T U l n u pg p : running_in s me cp T U l -> writable s U n u pg -> p ∈ l -> p <> u.
Proof.
  intros [_ _ H] [(fl & Hn & _) _ _] Hp ->. now destruct (uv_some _ _ _ _ _ H _ _ _ Hn) as (_ & [_ _ _ Hl] & _).
Qed.

Lemma writable_with_slot s me cp T U l np x ks kpg n u pg : running_in s me cp T U (ks :: l) -> writable s U n u pg ->
  writable (with_slot np x ks l kpg s) U n u pg.
Proof.
  intros Hr Hw. pose proof (writable_out _ _ _ _ _ _ _ _ _ ks Hr Hw ltac:(left)) as Hne. destruct Hw as [W1 W2 W3].
  split; [done| |done]. cbn. now rewrite lookup_insert_ne.
Qed.

(** What fork and clone do last: the child shares the files of its parent, and may run. *)
Definition start_child (me np : nat) (cp : proc) : K Z :=
  dup_files me np ;;
  dup_cwd me np ;;
  upd_proc np (set_name (cstr (p_name cp))) ;;
  n ← proc_at np;
  acquire LPtable ;;
  upd_proc np (fun p => p <| p_state := RUNNABLE |>) ;;
  release LPtable ;;
  ret (p_pid n).

Definition child (cp x : proc) : proc :=
  (set_name (cstr (p_name cp)) (x <| p_ofile := p_ofile cp |> <| p_cwd := p_cwd cp |>)) <| p_state := RUNNABLE |>.

Definition start_post (np : nat) (cp x : proc) (i : nat) (ip : inode) (s : kstate) : kstate :=
  s <| k_files := imap (dup_ref (p_ofile cp)) (k_files s) |> <| k_icache := <[i := ip <| i_ref := i_ref ip + 1 |>]> (k_icache s) |>
    <| k_procs := <[np := child cp x]> (k_procs s) |>.

Lemma wp_start_child s me np cp x i ip (Q : Z -> kstate -> Prop) : me <> np -> k_procs s !! me = Some cp -> k_procs s !! np = Some x ->
  k_held s = [] -> length (p_ofile cp) = 16%nat -> p_ofile x = replicate 16 None -> files_open s (p_ofile cp) ->
  p_cwd cp = Some i -> k_icache s !! i = Some ip -> Q (p_pid x) (start_post np cp x i ip s) -> wp (start_child me np cp) Q s.
Proof.
  intros Hne Hme Hnp Hh Hlen Hx Hopen Hcwd Hip HQ. assert (np < length (k_procs s))%nat as Hlt by now apply lookup_lt_Some in Hnp.
  unfold start_child. apply wp_bind. unfold dup_files. change (Z.to_nat NOFILE) with 16%nat.
  apply (wp_dup_loop me np cp (p_ofile cp) 16 0 s x); [done..|rewrite Hh; set_solver|done|]. rewrite drop_0. unfold dup_post.
  wp_steps. eapply (wp_dup_cwd me np cp _ i ip); [cbn; now rewrite list_lookup_insert_ne|done|done|cbn; now apply list_lookup_insert_eq|cbn; rewrite Hh; set_solver|].
  wp_steps. eapply wp_upd_proc; [cbn; apply list_lookup_insert_eq; now rewrite length_insert|].
  wp_steps. eapply wp_proc_at; [cbn; apply list_lookup_insert_eq; now rewrite !length_insert|].
  wp_steps. apply wp_acquire; [cbn; rewrite Hh; set_solver|]. wp_steps.
  eapply wp_upd_proc; [cbn; apply list_lookup_insert_eq; now rewrite !length_insert|].
  wp_steps. eapply wp_release_head; [reflexivity|]. wp_steps. cbn. rewrite !list_insert_insert_eq.
  unfold start_post, child, set_name in HQ. rewrite Hcwd in HQ. now destruct s.
Qed.

(** The slot of the new thread, before it gets its files. *)
Definition thread_slot (s : kstate) (me : nat) (cp : proc) (fn stack ks : Z) (p : proc) : proc :=
  (embryo s ks p) <| p_pgdir := p_pgdir cp |> <| p_sz := p_sz cp |> <| p_parent := Some me |> <| p_isthread := 1 |>
    <| p_tgid := p_tgid cp |> <| p_ustack := stack |> <| p_randstate := Z.lxor (p_randstate cp) (u32 (k_nextpid s)) |>
    <| p_randpct := p_randpct cp |> <| p_tf := (p_tf cp) <| tf_eip := fn |> <| tf_esp := stack + 4088 |> <| tf_eax := 0 |> |>.

Section clone.
Context (s : kstate) (me : nat) (cp : proc) (T : gmap Z Z) (U : gmap Z (Z * Z)) (l : list Z).
Context (fn arg stack u : Z) (pg : list Z).
Hypothesis Hca : caller s me cp T U l.
Hypothesis Hstack : stack mod 4096 = 0 /\ 0 <= stack /\ stack + 4096 <= p_sz cp /\ p_sz cp <= KERNBASE.
Hypothesis Hw : writable s U (stack / 4096) u pg.
Hypothesis Harg : is_u32 arg.

(** The two words of the stack. *)
Lemma wp_clone_stack s1 l1 (k : K Z) (Q : Z -> kstate -> Prop) : running_in s1 me cp T U l1 -> writable s1 U (stack / 4096) u pg ->
  wp k Q (set_page u (thread_stack arg pg) s1) ->
  wp (ustore32 (stack + 4092) arg ;; ustore32 (stack + 4088) 0xffffffff ;; k) Q s1.
Proof.
  intros Hr Hw1 HQ. pose proof (writable_len _ _ _ _ _ _ _ _ _ Hr Hw1) as Hlen. destruct Hstack as (S1 & S2 & S3 & S4). unfold KERNBASE in *.
  assert ((stack + 4092) / 4096 = stack / 4096) as E1 by div_lia. assert ((stack + 4088) / 4096 = stack / 4096) as E2 by div_lia.
  assert ((stack + 4092) mod 4096 = 4092) as E3 by div_lia. assert ((stack + 4088) mod 4096 = 4088) as E4 by div_lia.
  apply wp_bind. apply (wp_ustore32 s1 me cp T U l1 _ u pg); [done|now rewrite E1|div_lia|lia|unfold KERNBASE; lia|done|].
  rewrite E3. change (Z.to_nat (4092 / 4)) with 1023%nat.
  apply wp_bind. apply (wp_ustore32 _ me cp T U l1 _ u (<[1023%nat := arg]> pg)); [|rewrite E2|div_lia|lia|unfold KERNBASE; lia|unfold is_u32; lia|].
  - apply (running_set_page s1 me cp T U l1 (stack / 4096) u pg); [done|done|now rewrite length_insert].
  - destruct Hw1 as [W1 W2 W3]. split; [done|apply lookup_insert_eq|now apply list.Forall_insert].
  - rewrite E4. change (Z.to_nat (4088 / 4)) with 1022%nat. unfold set_page, thread_stack in *. cbn. rewrite insert_insert_eq. exact HQ.
Qed.

(** The state before the thread gets its files. *)
Definition clone_mid (np : nat) (p : proc) (ks : Z) (l' kpg : list Z) : kstate :=
  set_page u (thread_stack arg pg) (with_slot np (thread_slot s me cp fn stack ks p) ks l' (new_stack s kpg) s).

Lemma clone_mid_run np p ks l' kpg : me <> np -> l = ks :: l' -> running_in (clone_mid np p ks l' kpg) me cp T U l'.
Proof.
  intros Hne El. pose proof (ca_run _ _ _ _ _ _ Hca) as Hr. rewrite El in Hr.
  apply (running_set_page _ me cp T U l' (stack / 4096) u pg); [now apply running_with_slot|eapply writable_with_slot; eassumption|].
  unfold thread_stack. rewrite !length_insert. now apply (writable_len s me cp T U (ks :: l') (stack / 4096) u).
Qed.

Lemma clone_done_intro np p ks l' kpg i ip : find_idx unused (k_procs s) = Some np -> me <> np -> l = ks :: l' ->
  k_mem s !! ks = Some kpg -> p_cwd cp = Some i -> k_icache s !! i = Some ip ->
  let x := thread_slot s me cp fn stack ks p in
  clone_done s me cp fn arg stack T U l u pg (k_nextpid s) (start_post np cp x i ip (clone_mid np p ks l' kpg)) np (child cp x) ks l'.
Proof.
  intros Hslot Hne El Hk Hcwd Hip x. pose proof (ca_run _ _ _ _ _ _ Hca) as Hr.
  assert (ks <> u) as Hku by (eapply (writable_out s me cp T U l); [done|exact Hw|rewrite El; left]).
  pose proof (clone_mid_run np p ks l' kpg Hne El) as [R1 R2 R3]. split; try done.
  - cbn. now rewrite list_insert_insert_eq.
  - split; [done|cbn; rewrite list_insert_insert_eq; rewrite list_lookup_insert_ne by done; apply (ri_proc _ _ _ _ _ _ Hr)|].
    apply (uvm_same (clone_mid np p ks l' kpg)); [done..|]. apply (vm_idle _ _ _ _ (uv_vm _ _ _ _ _ R3)).
  - apply lookup_insert_eq.
  - exists kpg. split; [done|]. cbn. rewrite lookup_insert_ne by done. apply lookup_insert_eq.
  - intros q Hq1 Hq2. cbn. now rewrite !lookup_insert_ne.
  - cbn. exists i, ip. done.
  - apply (ca_held _ _ _ _ _ _ Hca).
Qed.

Lemma unused_slot np : find_idx unused (k_procs s) = Some np -> exists p, k_procs s !! np = Some p /\ p_ofile p = replicate 16 None /\ me <> np.
Proof.
  intros [(p & Hp & Hu) _]%find_idx_Some. apply bool_decide_eq_true in Hu. exists p. split; [done|].
  split; [now apply (ca_free _ _ _ _ _ _ Hca np)|]. intros ->. pose proof (ri_proc _ _ _ _ _ _ (ca_run _ _ _ _ _ _ Hca)).
  pose proof (ca_state _ _ _ _ _ _ Hca). congruence.
Qed.

Lemma wp_clone : wp (clone fn arg stack) (fun r s' => (r = -1 /\ clone_failed s l s') \/
  exists np t ks l', clone_done s me cp fn arg stack T U l u pg r s' np t ks l') s.
Proof.
  pose proof Hca as [Hrun Hst Hheld Hlen Hopen (i & ip & Hcwd & Hip) Hfree]. pose proof Hrun as [Hcur Hme Huvm].
  pose proof (uv_vm _ _ _ _ _ Huvm) as Hvm. pose proof Hstack as (S1 & S2 & S3 & S4). unfold KERNBASE in *.
  assert (u32 (stack + PGSIZE) = stack + 4096) as E1 by (apply u32_small; unfold is_u32; lia).
  assert (u32 (stack + 4096 - 4) = stack + 4092) as E2 by (rewrite u32_small; unfold is_u32; lia).
  assert (u32 (stack + 4092 - 4) = stack + 4088) as E3 by (rewrite u32_small; unfold is_u32; lia).
  unfold clone. apply wp_bind, (wp_curproc me); [done|]. apply wp_bind, (wp_proc_at me cp); [done|].
  apply wp_if_false; [unfold bad_stack; rewrite E1; unfold PGSIZE; rewrite S1; cbn; lia|]. apply wp_bind.
  apply (wp_allocproc s l); [apply Hvm|apply Hvm|rewrite Hheld; set_solver| | |].
  - intros Hn. wp_steps. left. split; [done|]. split; auto.
  - intros np p p' Hs Hp El Hst' _. wp_steps. left. split; [done|]. split; [now right|done|done|].
    intros j q Hq Hqs. cbn. rewrite list_lookup_insert_ne; [done|]. intros ->. apply Hqs.
    apply find_idx_Some in Hs as [(p0 & Hp0 & Hu0) _]. apply bool_decide_eq_true in Hu0. congruence.
  - intros np p ks l' kpg Hs Hp El Hk _. destruct (unused_slot np Hs) as (p0 & Hp0 & Hpf & Hne). assert (p0 = p) as -> by congruence. clear Hp0.
    assert (np < length (k_procs s))%nat as Hlt by now apply lookup_lt_Some in Hp. pose proof El as El'. rewrite El in Hrun.
    apply wp_bind, (wp_proc_at me cp); [cbn; now rewrite list_lookup_insert_ne|].
    apply wp_bind. eapply wp_upd_proc; [cbn; now apply list_lookup_insert_eq|]. cbv zeta. rewrite E1, E2, E3.
    unfold alloc_post at 1. cbn [k_procs setf set_k_procs set_k_nextpid]. rewrite list_insert_insert_eq.
    match goal with |- wp _ _ (_ <| k_procs := <[np := ?y]> _ |>) => set (x := y) end.
    change (_ <| k_procs := _ |>) with (with_slot np x ks l' (new_stack s kpg) s).
    eapply wp_clone_stack; [now apply running_with_slot|eapply writable_with_slot; eassumption|].
    apply wp_bind. eapply wp_upd_proc; [cbn; now apply list_lookup_insert_eq|].
    match goal with |- wp _ _ ?y => replace y with (clone_mid np p ks l' kpg)
      by (unfold clone_mid, with_slot, set_page; cbn [k_procs k_mem k_nextpid setf set_k_procs set_k_mem set_k_nextpid]; now rewrite list_insert_insert_eq) end.
    apply (wp_start_child (clone_mid np p ks l' kpg) me np cp (thread_slot s me cp fn stack ks p) i ip);
      [done|apply (clone_mid_run np p ks l' kpg Hne El')|now apply list_lookup_insert_eq|done..|].
    right. do 4 eexists. exact (clone_done_intro np p ks l' kpg i ip Hs Hne El' Hk Hcwd Hip).
Qed.
End clone.

(** ** join *)

Definition dead (me : nat) (wanted : Z) (p : proc) : bool := joinable me wanted p && bool_decide (p_state p = ZOMBIE).

(** The slot of a thread that has been joined. *)
Definition reaped (t : proc) : proc :=
  t <| p_kstack := 0 |> <| p_pid := 0 |> <| p_parent := None |> <| p_pgdir := 0 |> <| p_name := <[0%nat := 0]> (p_name t) |>
    <| p_killed := 0 |> <| p_isthread := 0 |> <| p_ustack := 0 |> <| p_state := UNUSED |>.

(** The memory [m] has the word [v] stored at the user address [a], if there is one. *)
Definition stored (s : kstate) (U : gmap Z (Z * Z)) (a : option Z) (v : Z) (m : gmap Z (list Z)) : Prop :=
  match a with
  | None => m = k_mem s
  | Some a => exists u pg, writable s U (a / 4096) u pg /\ m = <[u := <[Z.to_nat (a mod 4096 / 4) := v]> pg]> (k_mem s)
  end.

Definition storable (s : kstate) (U : gmap Z (Z * Z)) (a : option Z) : Prop :=
  forall x, a = Some x -> x mod 4 = 0 /\ 0 <= x < KERNBASE /\ exists u pg, writable s U (x / 4096) u pg.

(** The kernel stack [ks] is a page of its own. *)
Definition own_stack (s : kstate) (pgdir : Z) T U (l : list Z) (ks : Z) : Prop := loose s pgdir T l ks /\ ks ∉ upages U.

Lemma wp_store_opt s me cp T U l a v (Q : unit -> kstate -> Prop) : running_in s me cp T U l -> storable s U a -> is_u32 v ->
  (forall m, stored s U a v m -> running_in (s <| k_mem := m |>) me cp T U l -> Q tt (s <| k_mem := m |>)) ->
  wp (match a with Some x => ustore32 x v | None => ret tt end) Q s.
Proof.
  intros Hr Hs Hv HQ. destruct a as [x|].
  - destruct (Hs x eq_refl) as (H1 & [H2 H3] & u & pg & Hw). apply (wp_ustore32 s me cp T U l x u pg); [done..|].
    apply HQ; [now exists u, pg|]. apply (running_set_page s me cp T U l (x / 4096) u pg); [done|done|].
    rewrite length_insert. now apply (writable_len s me cp T U l (x / 4096) u).
  - wp_steps. assert (s <| k_mem := k_mem s |> = s) as E by now destruct s. rewrite <- E. apply HQ; [done|now rewrite E].
Qed.

Lemma running_held s me cp T U l h : running_in s me cp T U l -> LKmem ∉ h -> running_in (s <| k_held := h |>) me cp T U l.
Proof. intros [H1 H2 H3] Hh. split; [done|done|]. apply (uvm_same s); [done..|now right]. Qed.

(** A dead thread's kernel stack is freed; the address space it shared stays. *)
Lemma running_reaped s me cp T U l ks i x : running_in s me cp T U l -> own_stack s (p_pgdir cp) T U l ks -> me <> i ->
  running_in ((kfree_post ks s) <| k_procs := <[i := x]> (k_procs s) |>) me cp T U (ks :: l).
Proof.
  intros [H1 H2 H3] [Hlo Hu] Hne. split; [done|cbn; now rewrite list_lookup_insert_ne|].
  apply (uvm_same (kfree_post ks s)); [now apply uvm_kfree|done..|apply (vm_idle _ _ _ _ (uv_vm _ _ _ _ _ H3))].
Qed.

(** Taking ptable.lock and giving it back. *)
Lemma held_id s h h' : k_held s = h' -> s <| k_held := h |> <| k_held := h' |> = s.
Proof. destruct s. cbn. now intros ->. Qed.

Lemma held_back s m : k_held s = [] -> s <| k_held := [LPtable] |> <| k_mem := m |> <| k_held := [] |> = s <| k_mem := m |>.
Proof. destruct s. cbn. now intros ->. Qed.

Lemma held_back_kfree s m ks ps : k_held s = [] ->
  (kfree_post ks (s <| k_held := [LPtable] |> <| k_mem := m |>)) <| k_procs := ps |> <| k_held := [] |> =
  (kfree_post ks (s <| k_mem := m |>)) <| k_procs := ps |>.
Proof. destruct s. cbn. now intros ->. Qed.

Section join.
Context (s : kstate) (me : nat) (cp : proc) (T : gmap Z Z) (U : gmap Z (Z * Z)) (l : list Z).
Context (wanted : Z) (stack : option Z).

(** What join relies on: the caller runs, the place for the stack's address is its own, and a thread that
    has exited left a kernel stack. *)
Record joiner : Prop := {
  jo_run : running_in s me cp T U l;
  jo_state : p_state cp = RUNNING;
  jo_held : k_held s = [];
  jo_store : storable s U stack;
  jo_dead : forall i t, k_procs s !! i = Some t -> dead me wanted t = true -> own_stack s (p_pgdir cp) T U l (p_kstack t) /\ is_u32 (p_ustack t)
}.

(** The first dead thread, and what join makes of it. *)
Definition join_done (i : nat) (r : Z) (s' : kstate) : Prop :=
  exists t m, k_procs s !! i = Some t /\ r = p_pid t /\ stored s U stack (p_ustack t) m /\
    s' = (kfree_post (p_kstack t) (s <| k_mem := m |>)) <| k_procs := <[i := reaped t]> (k_procs s) |> /\ running_in s' me cp T U (p_kstack t :: l).

(** join when there is a dead thread. *)
Lemma wp_join_dead i t (Q : Z -> kstate -> Prop) : joiner -> k_procs s !! i = Some t -> dead me wanted t = true ->
  (forall s', join_done i (p_pid t) s' -> Q (p_pid t) s') ->
  wp (p ← proc_at i;
      match stack with Some a => ustore32 a (p_ustack p) | None => ret tt end ;;
      kfree (p_kstack p) ;;
      upd_proc i reaped ;;
      release LPtable ;;
      ret (p_pid p)) Q (s <| k_held := [LPtable] |>).
Proof.
  intros [Hrun Hst Hheld Hsto Hdead] Ht Hd HQ. destruct (Hdead i t Ht Hd) as [[Hlo Hu] Hus].
  assert (me <> i) as Hne.
  { intros ->. rewrite (ri_proc _ _ _ _ _ _ Hrun) in Ht. injection Ht as ->. unfold dead in Hd. rewrite Hst in Hd. now rewrite andb_false_r in Hd. }
  wp_steps. apply (wp_proc_at i t); [done|]. wp_steps.
  apply (wp_store_opt _ me cp T U l); [apply running_held; [done|set_solver]| |done|].
  { intros x Hx. destruct (Hsto x Hx) as (A1 & A2 & u & pg & [W1 W2 W3]). split; [done|]. split; [done|]. now exists u, pg. }
  intros m Hm Hrm. wp_steps. eapply wp_eq; [apply kfree_eq; [apply Hlo|right; set_solver]|]. wp_steps.
  apply (wp_upd_proc i _ t); [done|]. wp_steps. eapply wp_release_head; [reflexivity|]. wp_steps. apply HQ.
  assert (running_in (s <| k_mem := m |>) me cp T U l) as Hr0.
  { apply (running_held _ _ _ _ _ _ []) in Hrm; [|set_solver]. now rewrite held_back in Hrm. }
  exists t, m. split; [done|]. split; [done|]. split.
  { destruct stack as [a|]; [|done]. destruct Hm as (u & pg & [W1 W2 W3] & E). exists u, pg. now split. }
  cbn [k_procs setf set_k_held set_k_mem kfree_post set_k_freelist]. rewrite held_back_kfree by done. split; [done|].
  refine (running_reaped (s <| k_mem := m |>) me cp T U l (p_kstack t) i (reaped t) Hr0 _ Hne). split; [|done]. destruct Hlo. now split.
Qed.
Lemma wps_join : joiner -> wps (join wanted stack)
  (fun r s' => match find_idx (dead me wanted) (k_procs s) with
    | Some i => join_done i r s'
    | None => r = -1 /\ s' = s /\ ((forall p, p ∈ k_procs s -> joinable me wanted p = false) \/ p_killed cp <> 0)
    end)
  (fun s' => find_idx (dead me wanted) (k_procs s) = None /\ p_killed cp = 0 /\
    (exists p, p ∈ k_procs s /\ joinable me wanted p = true) /\ s' = sleep_post me cp (ChProc me) s) s.
Proof.
  intros [Hrun Hst Hheld Hsto Hdead]. pose proof Hrun as [Hcur Hme Huvm]. unfold join, join_scan.
  apply wps_bind_wp, wp_acquire; [rewrite Hheld; set_solver|]. apply wps_bind_wp, (wp_curproc me); [done|]. wps_steps.
  rewrite Hheld.
  cbn [k_procs setf set_k_held]. change (fun p => joinable me wanted p && bool_decide (p_state p = ZOMBIE)) with (dead me wanted).
  destruct (find_idx (dead me wanted) (k_procs s)) as [i|] eqn:Ei.
  - apply find_idx_Some in Ei as [(t & Ht & Hd) _]. apply wps_wp, (wp_join_dead i t); [now split|done|done|done].
  - apply wps_bind_wp, (wp_proc_at me cp); [done|]. destruct (existsb (joinable me wanted) (k_procs s)) eqn:Ex; cbn [negb orb].
    + apply existsb_exists in Ex as (p & Hp%list_elem_of_In & Hj). destruct (Z.eqb_spec (p_killed cp) 0) as [Hk|Hk]; cbn [negb].
      * eapply wps_switch; [apply (sleep_eq me cp); done|]. split; [done|]. split; [done|]. split; [now exists p|]. now destruct s.
      * apply wps_wp. wp_steps. eapply wp_release_head; [reflexivity|]. wp_steps. split; [done|]. split; [now apply held_id|now right].
    + apply wps_wp. wp_steps. eapply wp_release_head; [reflexivity|]. wp_steps. split; [done|]. split; [now apply held_id|].
      left. intros p Hp. apply not_true_iff_false. intros Hj. apply not_true_iff_false in Ex. apply Ex, existsb_exists. exists p. split; [now apply list_elem_of_In|done].
Qed.
End join.

(** ** fork *)

(** The process [t] that fork makes of [cp], with the page directory [d]. *)
Record child_of (s : kstate) (me : nat) (cp : proc) (d ks : Z) (t : proc) : Prop := {
  ch_state : p_state t = RUNNABLE;
  ch_pid : p_pid t = k_nextpid s;
  ch_parent : p_parent t = Some me;
  ch_space : p_pgdir t = d /\ p_sz t = p_sz cp;
  ch_group : p_isthread t = 0 /\ p_tgid t = k_nextpid s;
  ch_tf : p_tf t = (p_tf cp) <| tf_eax := 0 |>;
  ch_kernel : p_kstack t = ks /\ p_context t = mk_context 0 0 0 0 (sym_forkret (k_sym s));
  ch_files : p_ofile t = p_ofile cp /\ p_cwd t = p_cwd cp
}.

(** The slot of the child before it gets its files. *)
Definition fork_slot (s : kstate) (me : nat) (cp : proc) (d ks : Z) (p : proc) : proc :=
  (embryo s ks p) <| p_pgdir := d |> <| p_sz := p_sz cp |> <| p_parent := Some me |> <| p_tgid := k_nextpid s |>
    <| p_randstate := p_randstate cp |> <| p_randpct := p_randpct cp |> <| p_tf := (p_tf cp) <| tf_eax := 0 |> |>.

(** fork has failed: the free pages are those there were, and nobody else noticed. *)
Record fork_failed (s : kstate) (me : nat) (cp : proc) T U (l : list Z) (s' : kstate) : Prop := {
  ff_pages : exists l', l' ≡ₚ l /\ running_in s' me cp T U l';
  ff_mem : forall q, (q ∉ l) -> k_mem s' !! q = k_mem s !! q;
  ff_files : k_files s' = k_files s /\ k_icache s' = k_icache s;
  ff_procs : forall j p, k_procs s !! j = Some p -> p_state p <> UNUSED -> k_procs s' !! j = Some p
}.

Record fork_done (s : kstate) (me : nat) (cp : proc) T U (l : list Z) (r : Z) (s' : kstate) (np : nat) (t : proc) (d ks : Z) T' U' (l' : list Z) : Prop := {
  fd_pid : r = k_nextpid s;
  fd_slot : find_idx unused (k_procs s) = Some np;
  fd_procs : k_procs s' = <[np := t]> (k_procs s);
  fd_child : child_of s me cp d ks t;
  fd_run : running_in s' me cp T U l';
  fd_space : uvm s' d T' U' l' /\ kernel_map s' T' /\ copy_of s U s' U';
  fd_pages : l ≡ₚ ks :: d :: l' ++ tabs T' ++ upages U';
  fd_mem : forall q, (q ∉ l) -> k_mem s' !! q = k_mem s !! q;
  fd_files : k_files s' = imap (dup_ref (p_ofile cp)) (k_files s);
  fd_cwd : cwd_shared cp s s'
}.

(** What address-space operations leave alone. *)
Lemma vframe_tables s s' : vframe s s' -> k_procs s' = k_procs s /\ k_files s' = k_files s /\ k_icache s' = k_icache s /\
  k_cur s' = k_cur s /\ k_held s' = k_held s /\ k_sym s' = k_sym s /\ k_uselock s' = k_uselock s.
Proof. now intros (m & f & o & c & p & -> & _). Qed.

Section fork.
Context (s : kstate) (me : nat) (cp : proc) (T : gmap Z Z) (U : gmap Z (Z * Z)) (l : list Z).
Hypothesis Hca : caller s me cp T U l.
Hypothesis Hsz : 0 <= p_sz cp <= KERNBASE.
Hypothesis Hcov : covers U (p_sz cp).
Hypothesis Hlk : link_ok (k_sym s).

Lemma user_mem_slot np x ks l' kpg n u fl : l = ks :: l' -> U !! n = Some (u, fl) -> k_mem (with_slot np x ks l' kpg s) !! u = k_mem s !! u.
Proof.
  intros El Hn. cbn. apply lookup_insert_ne. intros ->. pose proof (ri_uvm _ _ _ _ _ _ (ca_run _ _ _ _ _ _ Hca)) as Hv.
  destruct (uv_some _ _ _ _ _ Hv _ _ _ Hn) as (_ & [_ _ _ Hl] & _). apply Hl. rewrite El. left.
Qed.

Lemma slot_mem_out np x ks l' kpg q : l = ks :: l' -> (q ∉ l) -> k_mem (with_slot np x ks l' kpg s) !! q = k_mem s !! q.
Proof. intros -> Hq. cbn. apply lookup_insert_ne. intros ->. apply Hq. left. Qed.

(** The page of the kernel stack while the rest of the free pages [l2] is in use. *)
Lemma kstack_own np x ks l' kpg s2 l2 : l = ks :: l' -> vframe (with_slot np x ks l' kpg s) s2 -> l2 ≡ₚ l' -> own_stack s2 (p_pgdir cp) T U l2 ks.
Proof.
  intros El Hfr Hp. pose proof (ri_uvm _ _ _ _ _ _ (ca_run _ _ _ _ _ _ Hca)) as Hv. rewrite El in Hv.
  destruct (loose_head _ _ _ _ _ (uv_vm _ _ _ _ _ Hv)) as [L1 L2 L3 L4]. destruct (vframe_tables _ _ Hfr) as (_ & _ & _ & _ & _ & Hsym & _).
  split; [split; [now rewrite Hsym|done|done|now rewrite Hp]|]. now apply (uvm_out s (p_pgdir cp) T U ks l').
Qed.

(** Running out of memory in copyuvm: the kernel stack goes back too. *)
Lemma fork_failed_intro np x x' ks l' kpg s2 : l = ks :: l' -> me <> np -> find_idx unused (k_procs s) = Some np ->
  unborn (with_slot np x ks l' kpg s) l' s2 ->
  fork_failed s me cp T U l ((kfree_post ks s2) <| k_procs := <[np := x']> (k_procs s) |>).
Proof.
  intros El Hne Hs [(l2 & Hf2 & Hp2) Hfr Hout]. pose proof (ca_run _ _ _ _ _ _ Hca) as Hrun. rewrite El in Hrun.
  destruct (vframe_tables _ _ Hfr) as (P1 & P2 & P3 & P4 & P5 & P6 & P7).
  pose proof (running_with_slot s me cp T U l' np x ks kpg Hrun Hne) as [R1 R2 R3].
  assert (uvm s2 (p_pgdir cp) T U l2) as Hv2.
  { apply (uvm_beside _ _ _ _ _ _ _ R3 Hfr Hf2 Hout). intros q Hq. now rewrite <- Hp2. }
  destruct (kstack_own np x ks l' kpg s2 l2 El Hfr Hp2) as [Hlo Hu]. split.
  - exists (ks :: l2). split; [now rewrite El, Hp2|]. split; [cbn; now rewrite P4|cbn; rewrite list_lookup_insert_ne by done; apply Hrun|].
    apply (uvm_same (kfree_post ks s2)); [now apply uvm_kfree|done..|apply (vm_idle _ _ _ _ (uv_vm _ _ _ _ _ Hv2))].
  - intros q Hq. cbn. rewrite El, not_elem_of_cons in Hq. rewrite lookup_insert_ne by naive_solver. rewrite Hout by apply Hq.
    apply (slot_mem_out np x ks l' kpg q El). rewrite El, not_elem_of_cons. done.
  - cbn. now rewrite P2, P3.
  - intros j p Hp Hpu. cbn. rewrite list_lookup_insert_ne; [done|]. intros ->. apply find_idx_Some in Hs as [(p0 & Hp0 & Hu0) _].
    apply bool_decide_eq_true in Hu0. congruence.
Qed.

Lemma fork_done_intro np p ks l' kpg s2 d T' U' l2 i ip : l = ks :: l' -> me <> np -> find_idx unused (k_procs s) = Some np ->
  born d (with_slot np (embryo s ks p) ks l' kpg s) l' s2 T' U' l2 -> copied (with_slot np (embryo s ks p) ks l' kpg s) U ((p_sz cp + 4095) / 4096) s2 U' ->
  kernel_map s2 T' -> p_cwd cp = Some i -> k_icache s !! i = Some ip ->
  let x := fork_slot s me cp d ks p in
  fork_done s me cp T U l (k_nextpid s) (start_post np cp x i ip (s2 <| k_procs := <[np := x]> (k_procs s) |>)) np (child cp x) d ks T' U' l2.
Proof.
  intros El Hne Hs Hb Hcp Hk Hcwd Hip x. pose proof (ca_run _ _ _ _ _ _ Hca) as Hrun. rewrite El in Hrun.
  pose proof Hb as [B1 Hfr B3 B4]. destruct (vframe_tables _ _ Hfr) as (P1 & P2 & P3 & P4 & P5 & P6 & P7).
  pose proof (running_with_slot s me cp T U l' np (embryo s ks p) ks kpg Hrun Hne) as [R1 R2 R3].
  pose proof (born_parent _ _ _ _ _ R3 _ _ _ _ _ Hb) as Hv2.
  pose proof (copied_copy_of _ _ _ _ _ _ _ _ _ _ _ R3 Hcov Hb Hcp) as [C1 C2]. split; try done.
  - cbn. now rewrite list_insert_insert_eq.
  - split; [cbn; now rewrite P4|cbn; rewrite list_insert_insert_eq, list_lookup_insert_ne by done; apply Hrun|].
    apply (uvm_same s2); [done..|apply (vm_idle _ _ _ _ (uv_vm _ _ _ _ _ Hv2))].
  - split; [apply (uvm_same s2); [done..|apply (vm_idle _ _ _ _ (uv_vm _ _ _ _ _ Hv2))]|]. split; [exact Hk|]. split; [exact C1|].
    intros n u fl Hn. destruct (C2 n u fl Hn) as (u' & H1 & H2 & H3). exists u'. split; [done|]. split; [done|].
    rewrite <- (user_mem_slot np (embryo s ks p) ks l' kpg n u fl El Hn). exact H3.
  - now rewrite El, B3.
  - intros q Hq. transitivity (k_mem s2 !! q); [done|]. rewrite B4; [now apply slot_mem_out|]. rewrite El, not_elem_of_cons in Hq. apply Hq.
  - cbn. now rewrite P2.
  - exists i, ip. cbn. now rewrite P3.
Qed.

(** fork once it has its slot. *)
Lemma wp_fork_rest np p ks l' kpg s2 d (Q : Z -> kstate -> Prop) : l = ks :: l' -> me <> np -> find_idx unused (k_procs s) = Some np ->
  k_procs s !! np = Some p -> p_ofile p = replicate 16 None -> copy_post (with_slot np (embryo s ks p) ks l' kpg s) U l' (p_sz cp) d s2 ->
  (forall s', fork_failed s me cp T U l s' -> Q (-1) s') ->
  (forall r s' t T' U' l2, fork_done s me cp T U l r s' np t d ks T' U' l2 -> Q r s') ->
  wp (upd_proc np (fun p => p <| p_pgdir := d |>) ;;
      if d =? 0 then
        n ← proc_at np;
        kfree (p_kstack n) ;;
        upd_proc np (fun p => p <| p_kstack := 0 |> <| p_state := UNUSED |>) ;;
        ret (-1)
      else
        cp ← proc_at me;
        upd_proc np (fun p => p <| p_sz := p_sz cp |> <| p_parent := Some me |>
                                <| p_tgid := p_pid p |> <| p_randstate := p_randstate cp |>
                                <| p_randpct := p_randpct cp |>
                                <| p_tf := (p_tf cp) <| tf_eax := 0 |> |>) ;;
        start_child me np cp) Q s2.
Proof.
  intros El Hne Hs Hp Hpf Hcopy Hfail Hok. pose proof Hca as [Hrun Hst Hheld Hlen Hopen (i & ip & Hcwd & Hip) Hfree]. pose proof Hrun as [Hcur Hme Huvm].
  assert (np < length (k_procs s))%nat as Hlt by now apply lookup_lt_Some in Hp.
  assert (vframe (with_slot np (embryo s ks p) ks l' kpg s) s2) as Hfr by (destruct Hcopy as [[_ H]|(_ & T' & U' & l2 & H & _)]; apply H).
  destruct (vframe_tables _ _ Hfr) as (P1 & P2 & P3 & P4 & P5 & P6 & P7). cbn in P1, P2, P3, P4, P5, P6, P7.
  wp_steps. eapply wp_upd_proc; [rewrite P1; now apply list_lookup_insert_eq|]. rewrite P1, list_insert_insert_eq.
  destruct Hcopy as [[-> Hun]|(Hd & T' & U' & l2 & Hb & Hcp & Hk)].
  - change (0 =? 0) with true. cbv iota. wp_steps. eapply wp_proc_at; [cbn; now apply list_lookup_insert_eq|]. wp_steps.
    change (p_kstack _) with ks. pose proof Hun as [(l2 & _ & Hp2) _ _]. destruct (kstack_own np _ ks l' kpg s2 l2 El Hfr Hp2) as [Hlo _].
    eapply wp_eq; [apply kfree_eq; [apply Hlo|right; cbn; rewrite P5, Hheld; set_solver]|]. wp_steps.
    eapply wp_upd_proc; [cbn; now apply list_lookup_insert_eq|]. wp_steps. apply Hfail.
    match goal with |- fork_failed _ _ _ _ _ _ (_ <| k_procs := <[np := ?y]> _ |>) =>
      pose proof (fork_failed_intro np (embryo s ks p) y ks l' kpg s2 El Hne Hs Hun) as Hff end.
    cbn [k_procs kfree_post setf set_k_procs set_k_mem set_k_freelist]. rewrite list_insert_insert_eq. exact Hff.
  - rewrite (proj2 (Z.eqb_neq d 0)) by done. wp_steps. apply (wp_proc_at me cp); [cbn; now rewrite list_lookup_insert_ne|]. wp_steps.
    eapply wp_upd_proc; [cbn; now apply list_lookup_insert_eq|]. cbn [k_procs setf set_k_procs]. rewrite list_insert_insert_eq.
    match goal with |- wp _ _ ?y => replace y with (s2 <| k_procs := <[np := fork_slot s me cp d ks p]> (k_procs s) |>) by now destruct s2 end.
    apply (wp_start_child _ me np cp (fork_slot s me cp d ks p) i ip);
      [done|cbn; now rewrite list_lookup_insert_ne|cbn; now apply list_lookup_insert_eq|cbn; now rewrite P5|done|done| |done|cbn; now rewrite P3|].
    + intros f Hf. cbn. rewrite P2. now apply Hopen.
    + eapply Hok. now apply (fork_done_intro np p ks l' kpg s2 d T' U' l2 i ip).
Qed.

Lemma wp_fork : wp fork (fun r s' => (r = -1 /\ fork_failed s me cp T U l s') \/
  exists np t d ks T' U' l', fork_done s me cp T U l r s' np t d ks T' U' l') s.
Proof.
  pose proof Hca as [Hrun Hst Hheld Hlen Hopen _ Hfree]. pose proof Hrun as [Hcur Hme Huvm]. pose proof (uv_vm _ _ _ _ _ Huvm) as Hvm.
  unfold fork. apply wp_bind, (wp_curproc me); [done|]. apply wp_bind, (wp_allocproc s l); [apply Hvm|apply Hvm|rewrite Hheld; set_solver| | |].
  - intros _. wp_steps. left. split; [done|]. split; [now exists l|done|done|done].
  - intros np p p' Hs Hp El Hst' _. wp_steps. left. split; [done|]. destruct (unused_slot s me cp T U l Hca np Hs) as (_ & _ & _ & Hne).
    split; [|done|done|].
    + exists l. split; [done|]. split; [done|cbn; now rewrite list_lookup_insert_ne|]. apply (uvm_same s); [done..|apply Hvm].
    + intros j q Hq Hqs. cbn. rewrite list_lookup_insert_ne; [done|]. intros ->. apply Hqs.
      apply find_idx_Some in Hs as [(p0 & Hp0 & Hu0) _]. apply bool_decide_eq_true in Hu0. congruence.
  - intros np p ks l' kpg Hs Hp El Hk _. destruct (unused_slot s me cp T U l Hca np Hs) as (p0 & Hp0 & Hpf & Hne).
    assert (p0 = p) as -> by congruence. pose proof Hrun as Hrun'. rewrite El in Hrun'.
    apply wp_bind, (wp_proc_at me cp); [cbn; now rewrite list_lookup_insert_ne|]. apply wp_bind.
    change (alloc_post np p ks l' kpg s) with (with_slot np (embryo s ks p) ks l' (new_stack s kpg) s).
    eapply wp_mono; [eapply (wp_copyuvm _ _ T U l'); [apply (running_with_slot s me cp T U l' np (embryo s ks p) ks (new_stack s kpg) Hrun' Hne)|done|done|done]|].
    intros d s2 Hcopy. apply (wp_fork_rest np p ks l' (new_stack s kpg)); [done..|now left|]. intros. right. eauto 10.
Qed.
End fork.

(** ** wait *)

Definition dead_child (me : nat) (p : proc) : bool := bool_decide (p_parent p = Some me) && bool_decide (p_state p = ZOMBIE).

(** An address space is made of the pages it has. *)
Lemma born_self s d T U l : uvm s d T U l -> born d s (d :: l ++ tabs T ++ upages U) s T U l.
Proof. intros Hv. split; [done|apply vframe_refl|done|done]. Qed.

(** What wait leaves of the caller's own address space when the child it reaps shares it. *)
Record space_lost (s : kstate) (me : nat) (cp : proc) (U : gmap Z (Z * Z)) (s' : kstate) : Prop := {
  sl_caller : k_procs s' !! me = Some cp;
  sl_free : exists l', free_list s' l' /\ p_pgdir cp ∈ l' /\ forall n u fl, U !! n = Some (u, fl) -> u ∈ l'
}.

Lemma wp_wait_thread s me cp T U l i t : running_in s me cp T U l -> k_held s = [] -> p_state cp = RUNNING ->
  find_idx (dead_child me) (k_procs s) = Some i -> k_procs s !! i = Some t -> p_pgdir t = p_pgdir cp ->
  own_stack s (p_pgdir cp) T U l (p_kstack t) ->
  wp wait (fun r s' => r = p_pid t /\ space_lost s me cp U s') s.
Proof.
  intros Hrun Hheld Hst Hi Ht Hpg [Hlo Hu]. pose proof Hrun as [Hcur Hme Huvm].
  assert (me <> i) as Hne.
  { apply find_idx_Some in Hi as [(t0 & Ht0 & Hd) _]. intros ->. rewrite Hme in Ht0. injection Ht0 as <-. unfold dead_child in Hd.
    rewrite Hst in Hd. now rewrite andb_false_r in Hd. }
  assert (i < length (k_procs s))%nat as Hlt by now apply lookup_lt_Some in Ht.
  unfold wait, wait_scan. wp_steps. apply wp_acquire; [rewrite Hheld; set_solver|]. rewrite Hheld. wp_steps. apply (wp_curproc me); [done|]. wp_steps.
  cbn [k_procs setf set_k_held]. change (fun p => bool_decide (p_parent p = Some me) && bool_decide (p_state p = ZOMBIE)) with (dead_child me).
  rewrite Hi. wp_steps. apply (wp_proc_at i t); [done|]. wp_steps.
  eapply wp_eq; [apply kfree_eq; [apply Hlo|right; set_solver]|]. wp_steps. apply (wp_upd_proc i _ t); [done|]. wp_steps. rewrite Hpg.
  pose proof (running_reaped _ me cp T U l (p_kstack t) i (t <| p_kstack := 0 |>) (running_held s me cp T U l [LPtable] Hrun ltac:(set_solver))
    ltac:(split; [now destruct Hlo|done]) Hne) as [_ _ Hv2].
  eapply wp_mono; [apply (wp_freevm _ _ _ _ _ _ _ (born_self _ _ _ _ _ Hv2))|].
  intros _ s2 [(l2 & Hf2 & Hp2) Hfr _]. destruct (vframe_fields _ _ Hfr) as (_ & Hh2 & _). destruct (vframe_tables _ _ Hfr) as [Hps _].
  clear Hfr Hv2. cbn in Hh2, Hps. wp_steps. eapply wp_upd_proc; [rewrite Hps; now apply list_lookup_insert_eq|]. wp_steps.
  eapply wp_release_head; [exact Hh2|]. wp_steps. split; [done|]. split.
  - cbn. rewrite Hps. now rewrite !list_lookup_insert_ne.
  - exists l2. split; [exact Hf2|]. split; [rewrite Hp2; left|]. intros n u fl Hn. rewrite Hp2. right. rewrite !elem_of_app. right. right.
    apply elem_upages. eauto.
Qed.


(** ** The random policy *)

Lemma lxor_shiftl_zero x k : is_u32 x -> k = 13 \/ k = 5 -> Z.lxor x (u32 (Z.shiftl x k)) = 0 -> x = 0.
Proof.
  intros Hx Hk H. apply Z.lxor_eq in H. rewrite Z.shiftl_mul_pow2 in H by lia. unfold is_u32, u32 in *.
  destruct Hk as [-> | ->]; [change (2 ^ 13) with 8192 in H|change (2 ^ 5) with 32 in H]; div_lia.
Qed.

Lemma lxor_u32 x y : is_u32 x -> is_u32 y -> is_u32 (Z.lxor x y).
Proof.
  unfold is_u32. intros Hx Hy. assert (0 <= Z.lxor x y) as H0 by (apply Z.lxor_nonneg; lia). split; [done|].
  destruct (Z.eq_dec (Z.lxor x y) 0) as [->|Hn]; [lia|]. change 4294967296 with (2 ^ 32). apply Z.log2_lt_pow2; [lia|].
  eapply Z.le_lt_trans; [apply Z.log2_lxor; lia|]. apply Z.max_lub_lt.
  - destruct (Z.eq_dec x 0) as [->|]; [reflexivity|]. apply Z.log2_lt_pow2; lia.
  - destruct (Z.eq_dec y 0) as [->|]; [reflexivity|]. apply Z.log2_lt_pow2; lia.
Qed.

(** The generator does not reach its fixed point 0. *)
Lemma xorshift_nonzero x : is_u32 x -> x <> 0 -> is_u32 (xorshift x) /\ xorshift x <> 0.
Proof.
  intros Hx Hn. unfold xorshift. assert (forall y, is_u32 (u32 y)) as Hu by (intros y; unfold is_u32, u32; div_lia).
  set (a := Z.lxor x _). assert (is_u32 a) as Ha by (apply lxor_u32; [done|apply Hu]).
  assert (a <> 0) as Ha0 by (intros E; apply Hn, (lxor_shiftl_zero x 13); auto).
  assert (0 <= Z.shiftr a 17 < a) as Hs by (rewrite Z.shiftr_div_pow2 by lia; change (2 ^ 17) with 131072; unfold is_u32 in Ha; div_lia).
  set (b := Z.lxor a _). assert (is_u32 b) as Hb by (apply lxor_u32; [done|unfold is_u32 in *; lia]).
  assert (b <> 0) as Hb0 by (intros E%Z.lxor_eq; lia).
  split; [apply lxor_u32; [done|apply Hu]|]. intros E. apply Hb0, (lxor_shiftl_zero b 5); auto.
Qed.

(** From a state that is not 0 the generator steps by xorshift, the substitute 1 for a state 0 is never
    needed, and the process yields when the new state modulo 100 is below its percentage. *)
Lemma random_should_yield_step s i p : k_cur s = Some i -> k_procs s !! i = Some p -> is_u32 (p_randstate p) -> p_randstate p <> 0 ->
  0 < p_randpct p -> let x := xorshift (p_randstate p) in
  random_should_yield s = Ok (x mod 100 <? p_randpct p) (s <| k_procs := <[i := p <| p_randstate := x |>]> (k_procs s) |>) /\ is_u32 x /\ x <> 0.
Proof.
  intros Hc Hp Hu Hn Hpct x. destruct (xorshift_nonzero _ Hu Hn) as [Hx Hx0]. split; [|done].
  assert (wp random_should_yield (fun b s' => b = (x mod 100 <? p_randpct p) /\ s' = s <| k_procs := <[i := p <| p_randstate := x |>]> (k_procs s) |>) s) as H.
  { unfold random_should_yield, myproc. wp_steps. apply (wp_proc_at i p); [done|]. apply wp_if_false; [lia|].
    fold x. rewrite (proj2 (Z.eqb_neq x 0)) by done. wp_steps. apply (wp_upd_proc i _ p); [done|]. wp_steps. split; [|done].
    f_equal. unfold s32. assert (0 <= x mod 100 < 100) by (apply Z.mod_pos_bound; lia). rewrite Z.mod_small by lia.
    now rewrite (proj2 (Z.ltb_lt _ _)) by lia. }
  now apply wp_ok in H as (b & s' & -> & -> & ->).
Qed.

(** ** The theorems *)

(** clone checks the stack with a sum that wraps: the last page of the address space passes for any size
    of the process. *)
Lemma clone_stack_wraps sz : 0 <= sz -> bad_stack 0xfffff000 sz = false.
Proof. intros H. unfold bad_stack. change (u32 (0xfffff000 + PGSIZE)) with 0. apply orb_false_iff. split; [done|lia]. Qed.

(** C9: clone starts a thread. Called with a page of the process as the stack, it fails, when there is no
    free slot or no free page, with memory, files and the other processes as they were; or it returns the
    pid of a new thread of the caller's group. The thread shares the caller's page table, open files and
    working directory, counted once more each; it will enter user mode at [fn] with the argument and a
    return address on top of its stack; and the caller's memory is otherwise the same. A stack that is
    not page-aligned or ends above the process's memory is refused, the last page of the address space
    excepted. *)
Theorem clone_correct s me cp T U l fn arg stack u pg : caller s me cp T U l -> is_u32 arg -> p_sz cp <= KERNBASE ->
  stack mod 4096 = 0 -> 0 <= stack -> stack + 4096 <= p_sz cp -> writable s U (stack / 4096) u pg ->
  wp (clone fn arg stack) (fun r s' => (r = -1 /\ clone_failed s l s') \/
    exists np t ks l', clone_done s me cp fn arg stack T U l u pg r s' np t ks l') s /\
  forall stack', 0 <= stack' < 0xfffff000 -> stack' mod 4096 <> 0 \/ p_sz cp < stack' + 4096 -> clone fn arg stack' s = Ok (-1) s.
Proof.
  intros Hca Harg Hsz S1 S2 S3 Hw. split; [now apply wp_clone|]. intros stack' Hs Hbad. pose proof (ca_run _ _ _ _ _ _ Hca) as [Hcur Hme _].
  assert (wp (clone fn arg stack') (fun r s' => r = -1 /\ s' = s) s) as H.
  { unfold clone. wp_steps. apply (wp_curproc me); [done|]. wp_steps. apply (wp_proc_at me cp); [done|]. apply wp_if_true; [|done].
    unfold bad_stack. unfold PGSIZE. rewrite u32_small by (unfold is_u32; lia). destruct (Z.eqb_spec (stack' mod 4096) 0); cbn; lia. }
  now apply wp_ok in H as (r & s' & -> & -> & ->).
Qed.

(** C10: fork copies a process. It fails, when there is no free slot or too little memory, with every page
    it took given back; or it returns the pid of a new process with a copy of the caller's memory in
    frames of its own, the kernel's map, the caller's registers but 0 as the result, and its open
    files and working directory, counted once more each. No page frame is lost. *)
Theorem fork_correct s me cp T U l : caller s me cp T U l -> 0 <= p_sz cp <= KERNBASE -> covers U (p_sz cp) -> link_ok (k_sym s) ->
  wp fork (fun r s' => (r = -1 /\ fork_failed s me cp T U l s') \/
    exists np t d ks T' U' l', fork_done s me cp T U l r s' np t d ks T' U' l') s.
Proof. exact (wp_fork s me cp T U l). Qed.

(** C11: join reaps a thread. If a thread of the caller that is waited for has exited, join returns its pid,
    stores the address of its stack where asked, frees its slot and its kernel stack, and leaves the
    address space, which the thread shared, as it was. If there is no such thread, or the caller was
    killed, it returns -1 with nothing changed; otherwise it sleeps until a thread exits. *)
Theorem join_correct s me cp T U l wanted stack : joiner s me cp T U l wanted stack -> wps (join wanted stack)
  (fun r s' => match find_idx (dead me wanted) (k_procs s) with
    | Some i => join_done s me cp T U l stack i r s'
    | None => r = -1 /\ s' = s /\ ((forall p, p ∈ k_procs s -> joinable me wanted p = false) \/ p_killed cp <> 0)
    end)
  (fun s' => find_idx (dead me wanted) (k_procs s) = None /\ p_killed cp = 0 /\
    (exists p, p ∈ k_procs s /\ joinable me wanted p = true) /\ s' = sleep_post me cp (ChProc me) s) s.
Proof. exact (wps_join s me cp T U l wanted stack). Qed.

(** C37: wait destroys the caller's address space when the child it reaps is a thread: it returns the
    thread's pid, and the page directory and all the pages of the caller, which still runs on them, are
    on the free list. *)
Theorem wait_frees_shared_space s me cp T U l i t : running_in s me cp T U l -> k_held s = [] -> p_state cp = RUNNING ->
  find_idx (dead_child me) (k_procs s) = Some i -> k_procs s !! i = Some t -> p_isthread t = 1 -> p_pgdir t = p_pgdir cp ->
  own_stack s (p_pgdir cp) T U l (p_kstack t) -> wp wait (fun r s' => r = p_pid t /\ space_lost s me cp U s') s.
Proof. intros. now apply (wp_wait_thread s me cp T U l i t). Qed.

(** ** Examples *)

(** The process of Copyuvm.v, with one page and one open file. *)
Definition ex_cp : proc :=
  zero_proc <| p_state := RUNNING |> <| p_pid := 3 |> <| p_pgdir := 0x80204000 |> <| p_sz := 4096 |> <| p_cwd := Some 0%nat |>
    <| p_ofile := Some 0%nat :: replicate 15 None |>.
Definition ex_thread : proc :=
  zero_proc <| p_state := ZOMBIE |> <| p_pid := 4 |> <| p_pgdir := 0x80204000 |> <| p_sz := 4096 |> <| p_parent := Some 0%nat |>
    <| p_isthread := 1 |> <| p_kstack := 0x80207000 |> <| p_ustack := 0 |>.
Definition ex_procs (ps : list proc) : kstate :=
  ex_parent <| k_cur := Some 0%nat |> <| k_procs := ps |> <| k_files := [zero_file <| f_ref := 1 |>] |>.

Lemma ex_running ps : ps !! 0%nat = Some ex_cp -> running_in (ex_procs ps) 0 ex_cp ex_parent_T ex_parent_U ex_vm_free.
Proof. intros H. split; [done|done|]. apply (uvm_same ex_parent); [exact ex_parent_uvm|done..|now left]. Qed.

Lemma ex_writable ps : writable (ex_procs ps) ex_parent_U 0 0x80206000 (replicate 1024 42).
Proof. split; [now exists 7|reflexivity|]. apply list.Forall_replicate. unfold is_u32. lia. Qed.

Lemma ex_own_stack ps : own_stack (ex_procs ps) 0x80204000 ex_parent_T ex_parent_U ex_vm_free 0x80207000.
Proof.
  unfold ex_parent_T, ex_parent_U. split; [split|]; [now apply ex_pframe|done| |apply (bool_decide_unpack _); reflexivity|].
  - intros [i [_ E]%lookup_singleton_Some]%elem_tabs. discriminate E.
  - intros (n & fl & [_ E]%lookup_singleton_Some)%elem_upages. discriminate E.
Qed.

Lemma ex_caller : caller (ex_procs [ex_cp; zero_proc]) 0 ex_cp ex_parent_T ex_parent_U ex_vm_free.
Proof.
  split; [now apply ex_running|done|done|done| |now eexists _, _|].
  - intros f [[= ->]|H]%elem_of_cons; [now eexists|]. apply elem_of_replicate in H. now destruct H.
  - intros [|[|i]] p [= <-] Hp; done.
Qed.

Lemma clone_correct_witness :
  wp (clone 0x100 7 0) (fun r s' => (r = -1 /\ clone_failed (ex_procs [ex_cp; zero_proc]) ex_vm_free s') \/
    exists np t ks l', clone_done (ex_procs [ex_cp; zero_proc]) 0 ex_cp 0x100 7 0 ex_parent_T ex_parent_U ex_vm_free 0x80206000 (replicate 1024 42) r s' np t ks l')
    (ex_procs [ex_cp; zero_proc]).
Proof.
  refine (proj1 (clone_correct (ex_procs [ex_cp; zero_proc]) 0 ex_cp ex_parent_T ex_parent_U ex_vm_free 0x100 7 0 0x80206000 (replicate 1024 42)
    ex_caller _ _ _ _ _ (ex_writable _))); try done.
Defined.

Lemma ex_covers : covers ex_parent_U 4096.
Proof.
  intros n. destruct (decide (n = 0)) as [->|Hne].
  - split; [lia|]. intros _. exists (0x80206000, 7). reflexivity.
  - unfold ex_parent_U. rewrite lookup_singleton_ne by done. split; [now intros [? ?]|lia].
Qed.

Lemma fork_correct_witness : wp fork (fun r s' => (r = -1 /\ fork_failed (ex_procs [ex_cp; zero_proc]) 0 ex_cp ex_parent_T ex_parent_U ex_vm_free s') \/
    exists np t d ks T' U' l', fork_done (ex_procs [ex_cp; zero_proc]) 0 ex_cp ex_parent_T ex_parent_U ex_vm_free r s' np t d ks T' U' l')
    (ex_procs [ex_cp; zero_proc]).
Proof.
  apply (fork_correct (ex_procs [ex_cp; zero_proc]) 0 ex_cp ex_parent_T ex_parent_U ex_vm_free ex_caller); [done|exact ex_covers|repeat split; reflexivity].
Defined.

Lemma ex_joiner : joiner (ex_procs [ex_cp; ex_thread]) 0 ex_cp ex_parent_T ex_parent_U ex_vm_free 4 (Some 100).
Proof.
  split; [now apply ex_running|done|done| |].
  - intros x [= <-]. split; [done|]. split; [done|]. exists 0x80206000, (replicate 1024 42). exact (ex_writable _).
  - intros [|[|i]] t [= <-] Hd; [discriminate Hd|]. split; [exact (ex_own_stack _)|done].
Qed.

Lemma join_correct_witness : wps (join 4 (Some 100)) (fun r s' => r = 4 /\ join_done (ex_procs [ex_cp; ex_thread]) 0 ex_cp
    ex_parent_T ex_parent_U ex_vm_free (Some 100) 1 r s') (fun _ => False) (ex_procs [ex_cp; ex_thread]).
Proof.
  eapply wps_mono; [exact (join_correct (ex_procs [ex_cp; ex_thread]) 0 ex_cp ex_parent_T ex_parent_U ex_vm_free 4 (Some 100) ex_joiner)| |].
  - intros r s' H. change (join_done (ex_procs [ex_cp; ex_thread]) 0 ex_cp ex_parent_T ex_parent_U ex_vm_free (Some 100) 1 r s') in H.
    split; [|done]. now destruct H as (t & m & [= <-] & -> & _).
  - intros s' [H _]. discriminate H.
Defined.

Lemma wait_frees_shared_space_witness : wp wait (fun r s' => r = 4 /\ space_lost (ex_procs [ex_cp; ex_thread]) 0 ex_cp ex_parent_U s') (ex_procs [ex_cp; ex_thread]).
Proof.
  exact (wait_frees_shared_space (ex_procs [ex_cp; ex_thread]) 0 ex_cp ex_parent_T ex_parent_U ex_vm_free 1 ex_thread
    (ex_running [ex_cp; ex_thread] eq_refl) eq_refl eq_refl eq_refl eq_refl eq_refl eq_refl (ex_own_stack _)).
Defined.
