(* ===== verification/Growproc.v ===== *)
(** growproc of proc.c: a process changes its size. The size is a field of each thread and the page table is not: when
    one thread of a process has grown, growproc panics in the next. *)

From stdpp Require Import base list gmap strings numbers fin_maps.
From Stdlib Require Import ZArith Lia.
From S2P Require Import Prelude Bytes CString Kstate Mmu Kalloc Sched Inode File Conline Vm Proc Pagetable Uvm Copyuvm Threads.
Open Scope Z_scope.

(** ** A process that calls growproc *)

Record grower (s : kstate) (me : nat) (p : proc) T U (l : list Z) : Prop := {
  gr_run : running_in s me p T U l;
  gr_kstack : p_kstack p <> 0;
  gr_size : 0 < p_sz p < KERNBASE;
  gr_covers : covers U (p_sz p);
  gr_print : can_print s
}.

(** The end of growproc: the new size, and switchuvm to the same page table. *)
Definition reload (me : nat) (p : proc) (sz : Z) (s : kstate) : kstate :=
  s <| k_procs := <[me := p <| p_sz := sz |>]> (k_procs s) |>
    <| k_esp0 := u32 (p_kstack p + KSTACKSIZE) |> <| k_cr3 := V2P (p_pgdir p) |>.

Lemma uvm_dir_pos s pgdir T U l : uvm s pgdir T U l -> 0 < pgdir.
Proof. intros Hv. exact (pframe_pos _ _ (pt_dir _ _ _ _ (vm_tab _ _ _ _ (uv_vm _ _ _ _ _ Hv)))). Qed.

Lemma covers_shrunk U sz newsz : 0 <= newsz <= sz -> covers U sz -> covers (cut ((newsz + 4095) / 4096 * 4096) sz U) newsz.
Proof.
  intros Hle Hc n. rewrite cut_lookup. case_decide as E.
  - split; [now intros [? ?]|]. div_lia.
  - rewrite (Hc n). div_lia.
Qed.

(** ** growproc *)

(** The process has the pages of [sz] bytes in [s1]; the frames are the same, and the pages it keeps hold what they held. *)
Record resized (s : kstate) (p : proc) T U (l : list Z) (sz : Z) (s1 : kstate) T' U' (l' : list Z) : Prop := {
  rz_step : uv_step (p_pgdir p) s T U l s1 T' U' l';
  rz_covers : covers U' sz;
  rz_keep : forall n x, 0 <= n -> n * 4096 < Z.min sz (p_sz p) -> U !! n = Some x -> U' !! n = Some x;
  rz_new : forall n u fl, U !! n = None -> U' !! n = Some (u, fl) -> fl = 7 /\ k_mem s1 !! u = Some (replicate 1024 0)
}.

Definition growproc_post (s : kstate) (me : nat) (p : proc) T U (l : list Z) (n r : Z) (s' : kstate) : Prop :=
  let sz := p_sz p in
  if KERNBASE <=? sz + n then r = -1 /\ s' = s
  else if sz + n <? 0 then r = 0 /\ s' = reload me p sz s
  else exists s1 T' U' l',
    (r = 0 /\ sz + n <> 0 /\ resized s p T U l (sz + n) s1 T' U' l' /\ s' = reload me p (sz + n) s1) \/
    (r = -1 /\ sz + n = 0 /\ resized s p T U l 0 s1 T' U' l' /\ s' = s1) \/
    (r = -1 /\ 0 < n /\ resized s p T U l sz s1 T' U' l' /\ s' = s1 /\ scarce (sz + n) T U l).

Section growproc.
Context (s : kstate) (me : nat) (p : proc) (T : gmap Z Z) (U : gmap Z (Z * Z)) (l : list Z).
Hypothesis Hg : grower s me p T U l.

Lemma wp_reload s1 T' U' l' sz (Q : Z -> kstate -> Prop) : uv_step (p_pgdir p) s T U l s1 T' U' l' -> Q 0 (reload me p sz s1) ->
  wp (upd_proc me (fun p => p <| p_sz := sz |>)) (fun _ s2 => wp (switchuvm me ;; ret 0) Q s2) s1.
Proof.
  intros Hs HQ. pose proof (ri_proc _ _ _ _ _ _ (gr_run _ _ _ _ _ _ Hg)) as Hp. pose proof (gr_kstack _ _ _ _ _ _ Hg) as Hk.
  pose proof (uvm_dir_pos _ _ _ _ _ (us_uvm _ _ _ _ _ _ _ _ _ Hs)) as Hd.
  destruct (vframe_tables _ _ (us_frame _ _ _ _ _ _ _ _ _ Hs)) as (P2 & _). wp_steps.
  apply (wp_upd_proc me _ p); [now rewrite P2|]. unfold switchuvm. wp_steps.
  eapply wp_proc_at; [apply list_lookup_insert_eq; rewrite P2; now apply lookup_lt_Some in Hp|].
  apply wp_if_false; [apply Z.eqb_neq, Hk|]. apply wp_if_false; [cbn; lia|]. wp_steps. exact HQ.
Qed.

Lemma resized_refl : resized s p T U l (p_sz p) s T U l.
Proof.
  pose proof Hg as [[_ _ Hv] _ _ Hc _]. split; [now apply uv_step_refl|done|done|]. intros n u fl H1 H2. congruence.
Qed.

Lemma growproc_grow n : 0 < n < 2147483648 -> wp (growproc n) (growproc_post s me p T U l n) s.
Proof.
  intros Hn. pose proof Hg as [[Hcur Hp Hv] Hk Hsz Hc Hpr]. unfold KERNBASE in Hsz.
  unfold growproc, growproc_post. wp_steps. apply (wp_curproc me); [done|]. wp_steps. apply (wp_proc_at me p); [done|]. cbv zeta.
  rewrite (proj2 (Z.ltb_lt 0 n)), u32_small by lia. destruct (Z.leb_spec KERNBASE (p_sz p + n)) as [Hbig|Hfit].
  { unfold allocuvm. wp_steps. apply wp_if_true; [lia|]. now wp_steps. }
  rewrite (proj2 (Z.ltb_ge (p_sz p + n) 0)) by lia. wp_steps.
  eapply wp_mono; [apply (wp_allocuvm s (p_pgdir p) T U l (p_sz p) (p_sz p + n)); [done|done|lia|done|done]|].
  intros r s1 (T' & U' & l' & Hs & [(-> & C1 & C2 & C3)|(-> & -> & Hsc)]).
  - rewrite (proj2 (Z.eqb_neq _ 0)) by lia. wp_steps. apply (wp_reload s1 T' U' l'); [done|]. exists s1, T', U', l'. left.
    split; [done|]. split; [lia|]. split; [|done]. split; [done..| |done]. intros m x _ _ Hm. exact (lookup_weaken _ _ _ _ Hm C2).
  - wp_steps. exists s1, T', U, l'. right. right. split; [done|]. split; [lia|]. split; [|done].
    split; [done..|]. intros m u fl H1 H2. congruence.
Qed.

Lemma resized_cut s1 l' n : n < 0 -> 0 <= p_sz p + n ->
  uv_step (p_pgdir p) s T U l s1 T (cut ((p_sz p + n + 4095) / 4096 * 4096) (p_sz p) U) l' ->
  resized s p T U l (p_sz p + n) s1 T (cut ((p_sz p + n + 4095) / 4096 * 4096) (p_sz p) U) l'.
Proof.
  intros Hn Hz Hs. split; [done|apply covers_shrunk; [lia|apply Hg]| |].
  - intros m x Hm Hlt Hx. rewrite cut_lookup, decide_False by div_lia. done.
  - intros m u fl H1 H2. rewrite cut_lookup in H2. case_decide; congruence.
Qed.

Lemma growproc_shrink n : -2147483648 <= n < 0 -> wp (growproc n) (growproc_post s me p T U l n) s.
Proof.
  intros Hn. pose proof Hg as [[Hcur Hp Hv] Hk Hsz Hc Hpr]. unfold KERNBASE in Hsz. pose proof (uv_step_refl _ _ _ _ _ Hv) as Hr0.
  unfold growproc, growproc_post. wp_steps. apply (wp_curproc me); [done|]. wp_steps. apply (wp_proc_at me p); [done|]. cbv zeta.
  rewrite (proj2 (Z.ltb_ge 0 n)), (proj2 (Z.ltb_lt n 0)), (proj2 (Z.leb_gt KERNBASE (p_sz p + n))) by (unfold KERNBASE; lia).
  destruct (Z.ltb_spec (p_sz p + n) 0) as [Hw|Hw].
  - assert (u32 (p_sz p + n) = p_sz p + n + 4294967296) as Eu by (symmetry; apply (Z.mod_unique_pos _ _ (-1)); lia).
    unfold deallocuvm. wp_steps. apply wp_if_true; [lia|]. wp_steps. rewrite (proj2 (Z.eqb_neq _ 0)) by lia. wp_steps.
    now apply (wp_reload s T U l).
  - rewrite u32_small by lia. wp_steps. eapply wp_mono; [apply (wp_deallocuvm s (p_pgdir p) T U l); [done|lia|unfold KERNBASE; lia]|].
    intros r s1 (-> & l' & Hs). rewrite Z.min_r by lia. pose proof (resized_cut s1 l' n ltac:(lia) Hw Hs) as Hz.
    destruct (Z.eqb_spec (p_sz p + n) 0) as [E|E]; wp_steps.
    + eexists s1, T, _, l'. right. left. split; [done|]. split; [done|]. rewrite E in Hz. split; [exact Hz|done].
    + apply (wp_reload s1 T (cut ((p_sz p + n + 4095) / 4096 * 4096) (p_sz p) U) l'); [done|]. eexists s1, T, _, l'. left. split; [done|]. split; [done|]. split; [exact Hz|done].
Qed.

Lemma growproc_same : wp (growproc 0) (growproc_post s me p T U l 0) s.
Proof.
  pose proof Hg as [[Hcur Hp Hv] Hk Hsz Hc Hpr]. unfold growproc, growproc_post. wp_steps. apply (wp_curproc me); [done|]. wp_steps.
  apply (wp_proc_at me p); [done|]. cbv zeta. rewrite Z.add_0_r, (proj2 (Z.leb_gt KERNBASE _)), (proj2 (Z.ltb_ge (p_sz p) 0)) by lia.
  wp_steps. apply wp_bind, (wp_reload s T U l); [now apply uv_step_refl|]. exists s, T, U, l. left. split; [done|]. split; [lia|].
  split; [exact resized_refl|done].
Qed.
End growproc.

(** C18: growproc with any int [n]. The process gets size + n bytes when that is positive and below the kernel: pages it gains
    are zero, pages it keeps hold what they held, pages it loses are free again. It fails, with size and pages as they were, at the kernel's
    part of the address space or when there are too few frames. If size + n is negative the 32-bit sum wraps, and growproc returns 0
    and changes nothing; if it is 0, growproc frees every page and yet returns -1 and leaves the old size. *)
Theorem growproc_correct s me p T U l n : grower s me p T U l -> -2147483648 <= n < 2147483648 ->
  wp (growproc n) (growproc_post s me p T U l n) s.
Proof.
  intros Hg Hn. destruct (Z.lt_total n 0) as [H|[->|H]]; [apply growproc_shrink|apply growproc_same|apply growproc_grow]; (done || lia).
Qed.

Lemma ex_grower ps : ps !! 0%nat = Some (ex_cp <| p_kstack := 0x80209000 |>) ->
  grower (ex_procs ps) 0 (ex_cp <| p_kstack := 0x80209000 |>) ex_parent_T ex_parent_U ex_vm_free.
Proof.
  intros Hp. split; [|done|done|exact ex_covers|split; [split; [apply length_replicate|done]|done]].
  split; [done|done|]. apply (uvm_same ex_parent); [exact ex_parent_uvm|done..|now left].
Qed.

Lemma growproc_correct_witness :
  wp (growproc 4096) (growproc_post (ex_procs [ex_cp <| p_kstack := 0x80209000 |>]) 0 (ex_cp <| p_kstack := 0x80209000 |>)
    ex_parent_T ex_parent_U ex_vm_free 4096) (ex_procs [ex_cp <| p_kstack := 0x80209000 |>]).
Proof. apply growproc_correct; [now apply ex_grower|lia]. Defined.

(** ** The size of a thread *)

(** A panic after steps that return. *)
Lemma panic_after {A B} (m : K A) (k : A -> K B) msg s : wp m (fun a s' => k a s' = Panic msg) s -> (m ≫= k) s = Panic msg.
Proof. unfold wp, mbind, M_bind, bind. now destruct (m s). Qed.

(** mappages on a user page that is mapped. *)
Lemma mappages_remap s pgdir T U l n pa perm : uvm s pgdir T U l -> is_Some (U !! n) ->
  mappages pgdir (n * 4096) PGSIZE pa perm s = Panic "remap".
Proof.
  intros Hv [[u fl] Hn]. destruct (uv_some _ _ _ _ _ Hv _ _ _ Hn) as (Hr & Hl & Hfl & Hfp & Hpte & _). unfold NUPAGES in Hr.
  unfold mappages. rewrite (u32_small (n * 4096 + PGSIZE - 1)), !PGROUNDDOWN_spec by (unfold is_u32, PGSIZE; lia). unfold PGSIZE.
  replace (n * 4096 - (n * 4096) mod 4096) with (n * 4096) by div_lia.
  rewrite mappages_loop_S. assert (exists t, T !! PDX (n * 4096) = Some t) as [t Ht].
  { destruct (T !! PDX (n * 4096)) as [t|] eqn:E; [now exists t|]. unfold pte_at in Hpte. rewrite E in Hpte. exfalso.
    pose proof (is_u32_V2P u) as Hu. unfold is_u32 in Hu. assert (fl = 0) as -> by lia. now rewrite Z.land_0_l in Hfp. }
  destruct (vm_entry _ _ _ _ _ _ (uv_vm _ _ _ _ _ Hv) Ht) as (Hf & _ & Hw). pose proof (PTX_range (n * 4096)). pose proof (pframe_pos _ _ Hf).
  apply panic_after, (wp_walk_some s pgdir T l (uv_vm _ _ _ _ _ Hv) (n * 4096) true t _ Ht).
  rewrite (proj2 (Z.eqb_neq _ 0)) by lia. apply panic_after, (wp_load_entry _ _ _ _ _ (pframe_mod _ _ Hf) (PTX_range _) Hw).
  rewrite Hpte, land_low; [|apply V2P_page, (pframe_mod _ _ (lo_frame _ _ _ _ _ Hl))|done|unfold PTE_P; lia].
  now rewrite (proj2 (Z.eqb_neq _ 0)).
Qed.

(** allocuvm from [oldsz] when the page behind it is mapped. *)
Lemma allocuvm_remap s pgdir T U u l oldsz newsz : uvm s pgdir T U (u :: l) -> 0 <= oldsz -> newsz < KERNBASE ->
  (oldsz + 4095) / 4096 * 4096 < newsz -> is_Some (U !! ((oldsz + 4095) / 4096)) -> allocuvm pgdir oldsz newsz s = Panic "remap".
Proof.
  intros Hv H0 Hnew Hlt Hn. unfold allocuvm. rewrite (proj2 (Z.leb_gt _ _) Hnew). unfold KERNBASE in Hnew.
  rewrite (proj2 (Z.ltb_ge newsz oldsz)) by div_lia. cbv zeta. rewrite PGROUNDUP_spec by (unfold PGSIZE; div_lia). unfold PGSIZE.
  replace (oldsz + 4096 - 1) with (oldsz + 4095) by lia. revert Hlt Hn. generalize ((oldsz + 4095) / 4096). intros n Hlt Hn.
  destruct (Z.to_nat _) as [|fuel] eqn:Ef; [exfalso; div_lia|]. rewrite allocuvm_loop_S by done.
  apply panic_after, (wp_kalloc (u :: l)); [apply Hv|apply Hv|]. cbn [head default].
  pose proof (pframe_pos _ _ (free_pframe s pgdir T (u :: l) u (uv_vm _ _ _ _ _ Hv) ltac:(left))) as Hpos.
  change (id u) with u. rewrite (proj2 (Z.eqb_neq u 0)) by lia. apply panic_after. unfold fill_page. wp_steps.
  pose proof (take_intro pgdir s T U u l (replicate 1024 0) Hv (length_replicate _ _)) as Ht. cbv zeta in Ht.
  unfold mbind at 1, M_bind, bind. change 4096 with PGSIZE at 2.
  erewrite mappages_remap; [done|exact (ut_uvm _ _ _ _ _ _ _ _ _ Ht)|done].
Qed.

(** Thread [j] grows when thread [i] has grown before and [j] has kept the old size. *)
Lemma growproc_remap s i j p q T U l n : running_in s j q T U l -> k_procs s !! i = Some p -> p_pgdir p = p_pgdir q ->
  covers U (p_sz p) -> 0 <= p_sz q -> (p_sz q + 4095) / 4096 * 4096 < p_sz p -> (p_sz q + 4095) / 4096 * 4096 < p_sz q + n < KERNBASE ->
  l <> [] -> growproc n s = Panic "remap".
Proof.
  intros [Hcur Hq Hv] Hp Epg Hc H0 Hgrown Hn Hl. destruct l as [|u l]; [done|]. unfold KERNBASE in Hn. unfold growproc.
  apply panic_after, (wp_curproc j); [done|]. apply panic_after, (wp_proc_at j q); [done|]. cbv zeta.
  rewrite (proj2 (Z.ltb_lt 0 n)), u32_small by div_lia. unfold mbind, M_bind, bind.
  erewrite allocuvm_remap; [done|exact Hv|done|unfold KERNBASE; lia|lia|]. apply Hc. div_lia.
Qed.

(** C36: the size belongs to each thread and the page table to all of them. Let two threads of a process have the same size and
    the memory hold enough frames. When the first grows by a page or more, growproc succeeds; when the second then grows, growproc
    panics with "remap", since it maps the pages the first has got. *)
Theorem growproc_thread_panics s i j p q T U l n m : grower s i p T U l -> k_procs s !! j = Some q -> i <> j ->
  p_pgdir q = p_pgdir p -> p_sz q = p_sz p ->
  (p_sz p + 4095) / 4096 * 4096 < p_sz p + n < KERNBASE -> (p_sz p + 4095) / 4096 * 4096 < p_sz p + m < KERNBASE ->
  ~ scarce (p_sz p + n) T U l ->
  wp (growproc n) (fun r s1 => r = 0 /\ growproc m (s1 <| k_cur := Some j |>) = Panic "remap") s.
Proof.
  intros Hg Hq Hij Epg Esz Hn Hm Hsc. pose proof Hg as [[Hcur Hp Hv] Hk Hsz Hc Hpr]. unfold KERNBASE in *. assert (0 < n) by div_lia.
  eapply wp_mono; [apply growproc_grow; [exact Hg|lia]|]. unfold growproc_post. cbv zeta.
  rewrite (proj2 (Z.leb_gt KERNBASE _)), (proj2 (Z.ltb_ge (p_sz p + n) 0)) by (unfold KERNBASE; lia).
  intros r s' (s1 & T' & U' & l' & [(-> & _ & Hr & ->)|[(_ & E & _)|(_ & _ & _ & _ & Hx)]]); [|exfalso; lia|done]. split; [done|].
  pose proof Hr as [Hs Hc' _ _]. destruct (vframe_tables _ _ (us_frame _ _ _ _ _ _ _ _ _ Hs)) as (P & _).
  apply (growproc_remap _ i j (p <| p_sz := p_sz p + n |>) q T' U' l'); cbn [p_sz p_pgdir setf set_p_sz].
  - split; [done|cbn; rewrite list_lookup_insert_ne by done; now rewrite P|]. rewrite Epg.
    apply (uvm_same s1); [apply Hs|done..|apply (vm_idle _ _ _ _ (uv_vm _ _ _ _ _ (us_uvm _ _ _ _ _ _ _ _ _ Hs)))].
  - cbn. apply list_lookup_insert_eq. rewrite P. now apply lookup_lt_Some in Hp.
  - done.
  - done.
  - lia.
  - rewrite Esz. lia.
  - rewrite Esz. unfold KERNBASE. lia.
  - intros ->. apply Hsc. apply (scarce_step _ _ _ _ _ _ _ _ _ _ Hs).
    pose proof (us_uvm _ _ _ _ _ _ _ _ _ Hs) as Hv1. pose proof (tabs_length _ _ _ _ (uv_vm _ _ _ _ _ Hv1)) as Ht.
    assert (Z.of_nat (length (upages U')) <= (p_sz p + n + 4095) / 4096) as Hu.
    { apply (upages_length _ _ _ _ _ _ Hv1); [div_lia|]. intros k Hk'. apply (covers_none _ _ _ Hc'). div_lia. }
    unfold scarce. cbn [app]. rewrite length_app. lia.
Qed.

(** The process of Copyuvm.v with [n] more pages free. *)
Definition ex_page (k : nat) : Z := 0x80300000 + 4096 * Z.of_nat k.
Fixpoint ex_pages (n : nat) : list Z := match n with O => ex_vm_free | S n => ex_page n :: ex_pages n end.
Fixpoint ex_roomy (n : nat) : kstate := match n with O => ex_parent | S n => kfree_post (ex_page n) (ex_roomy n) end.

Lemma ex_pages_elem n q : q ∈ ex_pages n -> q < 0x80300000 + 4096 * Z.of_nat n.
Proof.
  induction n as [|n IH]; cbn [ex_pages].
  - intros H. repeat (apply elem_of_cons in H as [->|H]; [lia|]). now apply not_elem_of_nil in H.
  - intros [->|H]%elem_of_cons; [unfold ex_page; lia|]. apply IH in H. lia.
Qed.

Lemma ex_roomy_uvm n : (n <= 2000)%nat -> uvm (ex_roomy n) 0x80204000 ex_parent_T ex_parent_U (ex_pages n) /\ mem_frame ex_parent (ex_roomy n).
Proof.
  induction n as [|n IH]; intros Hn; cbn [ex_pages ex_roomy]; [split; [exact ex_parent_uvm|apply mem_frame_refl]|].
  destruct IH as [Hv Hs]; [lia|]. split; [|eapply mem_frame_trans; [exact Hs|]; eexists _, _; reflexivity].
  assert (k_sym (ex_roomy n) = k_sym ex_parent) as Hy by (destruct Hs as (? & ? & ->); done).
  unfold ex_parent_T, ex_parent_U in *.
  apply uvm_kfree; [done| |].
  - split; [|unfold ex_page; lia| |].
    + rewrite Hy. split; [|unfold is_u32, ex_page; lia]. unfold kpage, ex_page, V2P, u32, KERNBASE, PHYSTOP, PGSIZE. change (sym_end (k_sym ex_parent)) with 0x80110000. div_lia.
    + intros [i [_ E]%lookup_singleton_Some]%elem_tabs. unfold ex_page in E. lia.
    + intros H%ex_pages_elem. unfold ex_page in H. lia.
  - intros (m & fl & [_ [= E _]]%lookup_singleton_Some)%elem_upages. unfold ex_page in E. lia.
Qed.

Definition ex_grown_thread : proc := ex_cp <| p_kstack := 0x80209000 |>.
Definition ex_two_threads (n : nat) : kstate :=
  (ex_roomy n) <| k_cur := Some 0%nat |> <| k_procs := [ex_grown_thread; ex_thread <| p_state := RUNNABLE |>] |>.

Lemma ex_two_threads_grower n : (n <= 2000)%nat -> grower (ex_two_threads n) 0 ex_grown_thread ex_parent_T ex_parent_U (ex_pages n).
Proof.
  intros Hn. destruct (ex_roomy_uvm n Hn) as [Hv (m & f & E)]. unfold ex_two_threads. split; [|done|done|exact ex_covers|].
  - split; [done|done|]. apply (uvm_same (ex_roomy n)); [exact Hv|done..|]. rewrite E. now left.
  - rewrite E. split; [split; [apply length_replicate|done]|done].
Qed.

Lemma ex_pages_length n : length (ex_pages n) = (n + 3)%nat.
Proof. induction n as [|n IH]; cbn [ex_pages length]; [done|]. now rewrite IH. Qed.

Lemma growproc_thread_panics_witness :
  wp (growproc 4096) (fun r s1 => r = 0 /\ growproc 4096 (s1 <| k_cur := Some 1%nat |>) = Panic "remap") (ex_two_threads 1100).
Proof.
  apply (growproc_thread_panics (ex_two_threads 1100) 0 1 ex_grown_thread (ex_thread <| p_state := RUNNABLE |>) ex_parent_T ex_parent_U (ex_pages 1100));
    [apply ex_two_threads_grower; lia|reflexivity|discriminate|reflexivity|reflexivity|split; reflexivity|split; reflexivity|].
  unfold scarce. rewrite length_app, ex_pages_length. change ((p_sz ex_grown_thread + 4096 + 4095) / 4096) with 2. lia.
Defined.
