(* ===== verification/Uload.v ===== *)
(** The contents of an address space in the making, byte by byte: allocuvm, clearpteu and copyout of vm.c on
    the memory that exec builds. *)

From stdpp Require Import base list gmap strings numbers fin_maps.
From Stdlib Require Import ZArith Lia.
From S2P Require Import Prelude Bytes CString Kstate Mmu Kalloc Conline Vm Proc Pagetable Uvm Copyuvm Threads.
Open Scope Z_scope.

(** ** Bytes of user memory *)

(** The byte at the user address [va]; an address that is not mapped counts as 0. *)
Definition ubyte (m : gmap Z (list Z)) (U : gmap Z (Z * Z)) (va : Z) : Z :=
  match U !! (va / 4096) with
  | Some (u, _) => byte_of (default 0 (tab_word m u (va mod 4096 / 4))) (va mod 4)
  | None => 0
  end.

(** [f] with the bytes [bs] from [a] on. *)
Definition overlay (f : Z -> Z) (a : Z) (bs : list Z) (va : Z) : Z :=
  if decide (a <= va < a + Z.of_nat (length bs)) then default 0 (bs !! Z.to_nat (va - a)) else f va.

Lemma overlay_nil f a va : overlay f a [] va = f va.
Proof. unfold overlay. rewrite decide_False; [done|]. cbn. lia. Qed.

Lemma overlay_ext f g a bs va : (forall x, f x = g x) -> overlay f a bs va = overlay g a bs va.
Proof. intros H. unfold overlay. now rewrite H. Qed.

Lemma overlay_app f a bs cs va : overlay (overlay f a bs) (a + Z.of_nat (length bs)) cs va = overlay f a (bs ++ cs) va.
Proof.
  unfold overlay. rewrite length_app. repeat case_decide; try lia; try done.
  - rewrite lookup_app_r by lia. do 2 f_equal. lia.
  - now rewrite lookup_app_l by lia.
Qed.

Lemma overlay_cons f a b bs va : overlay (overlay f a [b]) (a + 1) bs va = overlay f a (b :: bs) va.
Proof. exact (overlay_app f a [b] bs va). Qed.

(** The pages hold words of 32 bits. *)
Definition words_ok (m : gmap Z (list Z)) (U : gmap Z (Z * Z)) : Prop :=
  forall n u fl, U !! n = Some (u, fl) -> exists pg, m !! u = Some pg /\ length pg = 1024%nat /\ Forall is_u32 pg.

Lemma byte_of_with_byte w k j b : is_u32 w -> is_u8 b -> 0 <= k < 4 -> 0 <= j < 4 ->
  is_u32 (with_byte w k b) /\ byte_of (with_byte w k b) j = if decide (j = k) then b else byte_of w j.
Proof.
  intros Hw Hb Hk Hj. destruct (word4_split w Hw) as (x0 & x1 & x2 & x3 & -> & B0 & B1 & B2 & B3).
  destruct (with_byte_word4 x0 x1 x2 x3 b B0 B1 B2 B3) as (E0 & E1 & E2 & E3).
  assert (forall a c d e, is_u8 a -> is_u8 c -> is_u8 d -> is_u8 e -> is_u32 (word4 a c d e) /\
    byte_of (word4 a c d e) 0 = a /\ byte_of (word4 a c d e) 1 = c /\ byte_of (word4 a c d e) 2 = d /\ byte_of (word4 a c d e) 3 = e) as H4.
  { intros a c d e. unfold byte_of, word4, is_u8, is_u32. change (256 ^ 0) with 1. change (256 ^ 1) with 256. change (256 ^ 2) with 65536. change (256 ^ 3) with 16777216.
    intros. repeat split; try lia; div_lia. }
  destruct (H4 x0 x1 x2 x3 B0 B1 B2 B3) as (_ & C0 & C1 & C2 & C3).
  assert (k = 0 \/ k = 1 \/ k = 2 \/ k = 3) as [-> |[-> |[-> | ->]]] by lia; rewrite ?E0, ?E1, ?E2, ?E3;
    (edestruct H4 as (W & W0 & W1 & W2 & W3); [..|split; [exact W|]]; [done..|]);
    assert (j = 0 \/ j = 1 \/ j = 2 \/ j = 3) as [-> |[-> |[-> | ->]]] by lia; rewrite ?W0, ?W1, ?W2, ?W3, ?C0, ?C1, ?C2, ?C3; done.
Qed.

(** One byte of the page [u], which is the page [n] of the address space. *)
Section byte.
Context (m : gmap Z (list Z)) (U : gmap Z (Z * Z)) (n u fl : Z) (pg : list Z) (off b w : Z).
Hypothesis Hw : words_ok m U.
Hypothesis Hinj : forall k f, U !! k = Some (u, f) -> k = n.
Hypothesis Hn : U !! n = Some (u, fl).
Hypothesis Hpg : m !! u = Some pg.
Hypothesis Hoff : 0 <= off < 4096.
Hypothesis Hb : is_u8 b.
Hypothesis Hk : pg !! Z.to_nat (off / 4) = Some w.
Abbreviation m' := (<[u := <[Z.to_nat (off / 4) := with_byte w (off mod 4) b]> pg]> m).

Lemma byte_page : length pg = 1024%nat /\ Forall is_u32 pg /\ is_u32 w.
Proof. destruct (Hw n u fl Hn) as (pg' & E & Hl & Hf). rewrite Hpg in E. injection E as <-. split; [done|]. split; [done|]. exact (list.Forall_lookup_1 _ _ _ _ Hf Hk). Qed.

Lemma byte_words : words_ok m' U.
Proof.
  destruct byte_page as (Hl & Hf & Hw32). intros k v f Hv. destruct (decide (v = u)) as [->|Hne].
  - eexists. split; [apply lookup_insert_eq|]. rewrite length_insert. split; [done|]. apply list.Forall_insert; [done|].
    destruct (byte_of_with_byte w (off mod 4) 0 b Hw32 Hb) as [H _]; [div_lia|lia|done].
  - rewrite lookup_insert_ne by congruence. exact (Hw k v f Hv).
Qed.

Lemma byte_ubyte va : ubyte m' U va = overlay (ubyte m U) (n * 4096 + off) [b] va.
Proof.
  destruct byte_page as (Hl & Hf & Hw32). unfold overlay, ubyte. cbn [length]. destruct (U !! (va / 4096)) as [[v f]|] eqn:Ev.
  2: { rewrite decide_False; [done|]. intros H. replace (va / 4096) with n in Ev by div_lia. congruence. }
  destruct (decide (v = u)) as [->|Hne].
  - pose proof (Hinj _ _ Ev) as En. rewrite (tab_word_page _ _ _ _ (lookup_insert_eq _ _ _)), (tab_word_page _ _ _ _ Hpg).
    destruct (decide (va mod 4096 / 4 = off / 4)) as [Ek|Ek].
    + rewrite Ek, list_lookup_insert_eq, Hk by (apply lookup_lt_Some in Hk; lia). cbn [from_option id].
      destruct (byte_of_with_byte w (off mod 4) (va mod 4) b Hw32 Hb) as [_ ->]; [div_lia|div_lia|].
      repeat case_decide; try done; try (exfalso; div_lia). replace (va - _) with 0 by div_lia. done.
    + rewrite list_lookup_insert_ne by (intros E; apply Ek; div_lia). rewrite decide_False; [done|]. intros H. apply Ek. do 2 f_equal. div_lia.
  - unfold tab_word. rewrite lookup_insert_ne by congruence. rewrite decide_False; [done|]. intros H. replace (va / 4096) with n in Ev by div_lia. congruence.
Qed.
End byte.

(** ** An address space with its contents *)

(** The flags of the user pages: all are open to the user but the guard page [g], which keeps user code out. *)
Definition flags_ok (g : option Z) (U : gmap Z (Z * Z)) : Prop :=
  forall n u fl, U !! n = Some (u, fl) -> fl = if decide (g = Some n) then 3 else 7.

(** The address space [d], made of the free pages [l] of [b], has [sz] bytes, and [f] gives what they hold. *)
Record space (b : kstate) (l : list Z) (d sz : Z) (g : option Z) (f : Z -> Z) (s : kstate) T U (l' : list Z) : Prop := {
  sp_born : born d b l s T U l';
  sp_kernel : kernel_map s T;
  sp_covers : covers U sz;
  sp_flags : flags_ok g U;
  sp_words : words_ok (k_mem s) U;
  sp_byte : forall va, ubyte (k_mem s) U va = f va
}.

Definition has_space (b : kstate) (l : list Z) (d sz : Z) (g : option Z) (f : Z -> Z) (s : kstate) : Prop :=
  exists T U l', space b l d sz g f s T U l'.

Lemma space_ext b l d sz g f f' s T U l' : space b l d sz g f s T U l' -> (forall va, f va = f' va) -> space b l d sz g f' s T U l'.
Proof. intros [H1 H2 H3 H4 H5 H6] Hf. split; try done. intros va. now rewrite <- Hf. Qed.

Lemma has_space_ext b l d sz g f f' s : has_space b l d sz g f s -> (forall va, f va = f' va) -> has_space b l d sz g f' s.
Proof. intros (T & U & l' & H) Hf. exists T, U, l'. now apply (space_ext _ _ _ _ _ f). Qed.

Lemma mem_frame_set_page u pg s : mem_frame s (set_page u pg s).
Proof. exists (<[u := pg]> (k_mem s)), (k_freelist s). now destruct s. Qed.

(** A new page of a user page. *)
Lemma born_set_page b l d s T U l' n u fl pg : born d b l s T U l' -> U !! n = Some (u, fl) -> length pg = 1024%nat ->
  born d b l (set_page u pg s) T U l'.
Proof.
  intros [H1 H2 H3 H4] Hn Hl. split; [now apply (uvm_store s d T U l' n u fl)| |done|].
  - eapply vframe_trans; [exact H2|]. apply vframe_mem, mem_frame_set_page.
  - intros q Hq. rewrite <- H4 by done. apply lookup_insert_ne. intros ->. apply Hq. rewrite H3. right. rewrite !elem_of_app. right. right.
    apply elem_upages. eauto.
Qed.

Lemma kernel_map_set_page b l d s T U l' n u fl pg : born d b l s T U l' -> U !! n = Some (u, fl) -> kernel_map s T -> kernel_map (set_page u pg s) T.
Proof.
  intros Hb Hn Hk va Hva Hge. change (k_sym (set_page u pg s)) with (k_sym s). rewrite <- Hk by done. apply pte_at_frame. intros t Ht.
  apply lookup_insert_ne. intros ->. now destruct (uv_some _ _ _ _ _ (bo_uvm _ _ _ _ _ _ _ Hb) _ _ _ Hn) as (_ & [_ _ Hno _] & _).
Qed.

Section space.
Context (b : kstate) (l : list Z) (d : Z).

Lemma wp_store_byte sz g f s T U l' n u fl off x (Q : unit -> kstate -> Prop) : space b l d sz g f s T U l' -> U !! n = Some (u, fl) ->
  0 <= off < 4096 -> is_u8 x -> (forall s', mem_frame s s' -> space b l d sz g (overlay f (n * 4096 + off) [x]) s' T U l' -> Q tt s') ->
  wp (store8 (u + off) x) Q s.
Proof.
  intros [H1 H2 H3 H4 H5 H6] Hn Hoff Hx HQ. pose proof (bo_uvm _ _ _ _ _ _ _ H1) as Hv. destruct (uv_some _ _ _ _ _ Hv _ _ _ Hn) as (_ & Hlo & _).
  pose proof (pframe_mod _ _ (lo_frame _ _ _ _ _ Hlo)) as Hm. unfold PGSIZE in Hm. destruct (H5 n u fl Hn) as (pg & Hpg & Hlen & _).
  destruct (lookup_lt_is_Some_2 pg (Z.to_nat (off / 4)) ltac:(div_lia)) as [w Hw].
  assert (page_of (u + off - (u + off) mod 4) = u) as Ep by (unfold page_of; div_lia).
  assert (word_of (u + off - (u + off) mod 4) = Z.to_nat (off / 4)) as Ew by (unfold word_of; f_equal; div_lia).
  assert ((u + off) mod 4 = off mod 4) as Eb by div_lia.
  unfold store8. wp_steps. eapply wp_load32; [rewrite Ep; exact Hpg|rewrite Ew; exact Hw|]. eapply wp_store32; [rewrite Ep; exact Hpg|].
  rewrite Ep, Ew, Eb. fold (set_page u (<[Z.to_nat (off / 4) := with_byte w (off mod 4) x]> pg) s).
  assert (forall k fl', U !! k = Some (u, fl') -> k = n) as Hinj by (intros k fl' Hk; exact (uv_inj _ _ _ _ _ Hv _ _ _ _ _ Hk Hn)).
  apply HQ; [apply mem_frame_set_page|]. split; try done.
  - eapply born_set_page; [done|done|now rewrite length_insert].
  - now apply (kernel_map_set_page b l d s T U l' n u fl).
  - now apply (byte_words (k_mem s) U n u fl pg off x w).
  - intros va. cbn [k_mem set_page setf set_k_mem]. rewrite (byte_ubyte (k_mem s) U n u fl pg off x w) by done. now apply overlay_ext.
Qed.

(** Stores within the page [n]. *)
Lemma wp_store_page sz g T U l' n u fl bs : U !! n = Some (u, fl) -> forall off f s (Q : unit -> kstate -> Prop), space b l d sz g f s T U l' ->
  0 <= off -> off + Z.of_nat (length bs) <= 4096 -> Forall is_u8 bs ->
  (forall s', mem_frame s s' -> space b l d sz g (overlay f (n * 4096 + off) bs) s' T U l' -> Q tt s') -> wp (store_bytes (u + off) bs) Q s.
Proof.
  intros Hn. induction bs as [|x bs IH]; intros off f s Q Hs H0 Hlen Hb HQ; cbn [store_bytes length] in *.
  - wp_steps. apply (HQ s); [apply mem_frame_refl|]. apply (space_ext _ _ _ _ _ f); [done|]. intros va. now rewrite overlay_nil.
  - apply list.Forall_cons in Hb as [Hx Hb]. wp_steps. apply (wp_store_byte sz g f s T U l' n u fl off x); [done|done|lia|done|]. intros s1 F1 Hs1.
    wp_steps. rewrite <- Z.add_assoc. eapply (IH (off + 1)); [exact Hs1|lia|lia|done|]. intros s2 F2 Hs2. apply (HQ s2); [eapply mem_frame_trans; eassumption|].
    eapply space_ext; [exact Hs2|]. intros va. rewrite Z.add_assoc. apply overlay_cons.
Qed.

(** allocuvm: the new bytes are 0, so the contents are the same. *)
Lemma wp_space_alloc sz f s newsz : has_space b l d sz None f s -> can_print s -> 0 <= sz -> 0 <= newsz ->
  wp (allocuvm d sz newsz) (fun r s' => vframe s s' /\
    if KERNBASE <=? newsz then r = 0 /\ has_space b l d sz None f s' else
    r = Z.max sz newsz /\ has_space b l d (Z.max sz newsz) None f s' \/
    r = 0 /\ has_space b l d sz None f s' /\ Z.of_nat (length l) <= 1025 + (newsz + 4095) / 4096) s.
Proof.
  intros (T & U & l' & Hs) Hp Hsz Hnew. destruct (Z.leb_spec KERNBASE newsz) as [Hge|Hlt].
  { unfold allocuvm. apply wp_if_true; [lia|]. wp_steps. split; [apply vframe_refl|]. split; [done|]. now exists T, U, l'. }
  destruct (Z.ltb_spec newsz sz) as [Hl|Hl].
  { unfold allocuvm. apply wp_if_false; [lia|]. apply wp_if_true; [lia|]. wp_steps. split; [apply vframe_refl|]. left. rewrite Z.max_l by lia. split; [done|]. now exists T, U, l'. }
  pose proof Hs as [H1 H2 H3 H4 H5 H6]. eapply wp_mono; [apply (wp_allocuvm s d T U l' sz newsz); [apply H1|done|lia|done|done]|].
  intros r s' (T' & U' & l2 & Hst & Hr). split; [apply Hst|]. rewrite Z.max_r by lia. pose proof (born_step _ _ _ _ _ _ _ _ _ _ _ H1 Hst) as Hb.
  pose proof (kernel_map_step _ _ _ _ _ _ _ _ _ Hst H2) as Hk.
  assert (forall n u fl, U !! n = Some (u, fl) -> U' !! n = Some (u, fl) -> k_mem s' !! u = k_mem s !! u) as Hkeep
    by (intros n u fl; exact (us_keep _ _ _ _ _ _ _ _ _ Hst n (u, fl))).
  destruct Hr as [(-> & C1 & C2 & C3)|(-> & -> & Hsc)].
  - left. split; [done|]. exists T', U', l2. rewrite map_subseteq_spec in C2. split; [done|done|done| | |].
    + intros n u fl Hn. destruct (U !! n) as [[u0 f0]|] eqn:E; [|destruct (C3 _ _ _ E Hn) as [-> _]; now rewrite decide_False].
      rewrite (C2 _ _ E) in Hn. injection Hn as <- <-. exact (H4 n u0 f0 E).
    + intros n u fl Hn. destruct (U !! n) as [[u0 f0]|] eqn:E.
      * pose proof (C2 _ _ E) as E'. rewrite E' in Hn. injection Hn as <- <-. rewrite (Hkeep n _ _ E E'). exact (H5 n u0 f0 E).
      * destruct (C3 _ _ _ E Hn) as [_ Hz]. eexists. split; [exact Hz|]. split; [apply length_replicate|now apply Forall_replicate].
    + intros va. rewrite <- H6. unfold ubyte. destruct (U !! (va / 4096)) as [[u0 f0]|] eqn:E.
      * pose proof (C2 _ _ E) as E'. rewrite E'. unfold tab_word. now rewrite (Hkeep _ _ _ E E').
      * destruct (U' !! (va / 4096)) as [[u1 f1]|] eqn:E'; [|done]. destruct (C3 _ _ _ E E') as [_ Hz]. rewrite (tab_word_page _ _ _ _ Hz).
        rewrite lookup_replicate_2 by div_lia. unfold byte_of. cbn [from_option id]. now rewrite Zdiv_0_l.
  - right. split; [done|]. split.
    + exists T', U, l2. split; [done|done|done|done| |].
      * intros n u fl Hn. rewrite (Hkeep n _ _ Hn Hn). exact (H5 n u fl Hn).
      * intros va. rewrite <- H6. unfold ubyte. destruct (U !! (va / 4096)) as [[u0 f0]|] eqn:E; [|done]. unfold tab_word. now rewrite (Hkeep _ _ _ E E).
    + rewrite (bo_pages _ _ _ _ _ _ _ H1). unfold scarce in Hsc. cbn [length]. lia.
Qed.

(** ** Looking up a user address *)

Lemma wp_user_pte {A} s T U l' va u fl (e : K A) (k : Z -> K A) (Q : A -> kstate -> Prop) : uvm s d T U l' -> U !! (va / 4096) = Some (u, fl) ->
  wp (k (V2P u + fl)) Q s -> wp (pte ← walkpgdir d va false; if pte =? 0 then e else w ← load32 pte; k w) Q s.
Proof.
  intros Hv Hn Hk. pose proof (uv_vm _ _ _ _ _ Hv) as Hvm. destruct (uv_some _ _ _ _ _ Hv _ _ _ Hn) as (_ & _ & _ & _ & Hpte & _).
  assert (T !! PDX va = T !! PDX (va / 4096 * 4096)) as Et by (f_equal; apply PDX_page; div_lia).
  destruct (user_table s d T U l' Hv _ u fl Hn) as [t Ht]. rewrite <- Et in Ht. destruct (vm_entry _ _ _ _ _ _ Hvm Ht) as (Hft & _ & Hw).
  pose proof (PTX_range va) as Hx. pose proof (pframe_pos _ _ Hft). wp_steps. apply (wp_walk_some s d T l' Hvm _ false t _ Ht). apply wp_if_false; [lia|]. wp_steps.
  apply (wp_load_entry _ _ _ _ _ (pframe_mod _ _ Hft) Hx Hw). rewrite (pte_at_page _ _ va (va / 4096 * 4096)) by div_lia. now rewrite Hpte.
Qed.

Lemma clear_user x : x mod 4096 = 0 -> is_u32 x -> Z.land (x + 7) (not32 PTE_U) = x + 3.
Proof.
  intros Hx Hu. change (not32 PTE_U) with (Z.lor 0xfffff000 0xffb). rewrite Z.land_lor_distr_r, (land_low x 7 0xffb) by (done || lia).
  change (Z.land (x + 7) 0xfffff000) with (PTE_ADDR (x + 7)). rewrite PTE_ADDR_low by (done || lia). change (Z.land 7 0xffb) with 3. apply lor_low; [done|lia].
Qed.

(** The entry of the page [n] has lost the flag of the user. *)
Lemma cleared sz f s T U l' n u s' : space b l d sz None f s T U l' -> U !! n = Some (u, 7) -> vm_ext d s T l' s' T l' ->
  (forall va, is_u32 va -> pte_at (k_mem s') T va = if decide (n = va / 4096) then V2P u + 3 else pte_at (k_mem s) T va) ->
  (forall q, q ∉ tabs T -> k_mem s' !! q = k_mem s !! q) -> space b l d sz (Some n) f s' T (<[n := (u, 3)]> U) l'.
Proof.
  intros [H1 H2 H3 H4 H5 H6] Hn He Hp Hm. pose proof (bo_uvm _ _ _ _ _ _ _ H1) as Hv. destruct (mem_frame_fields _ _ (ve_frame _ _ _ _ _ _ _ He)) as (Esym & _).
  assert (forall k, 0 <= k < NUPAGES -> is_u32 (k * 4096)) as Hk32 by (unfold NUPAGES, is_u32; lia).
  assert (forall k v fl, U !! k = Some (v, fl) -> k_mem s' !! v = k_mem s !! v) as Hpage.
  { intros k v fl Hk. apply Hm. now destruct (uv_some _ _ _ _ _ Hv _ _ _ Hk) as (_ & [_ _ Hno _] & _). }
  destruct (uv_some _ _ _ _ _ Hv _ _ _ Hn) as (Hr & _). unfold NUPAGES in Hr.
  assert (forall k v fl, <[n := (u, 3)]> U !! k = Some (v, fl) -> exists fl0, U !! k = Some (v, fl0) /\ (k = n /\ fl = 3 \/ k <> n /\ fl = fl0)) as Hold.
  { intros k v fl. destruct (decide (k = n)) as [->|Hne]; [rewrite lookup_insert_eq|rewrite lookup_insert_ne by done; eauto 10]. intros [= <- <-]. eauto 10. }
  split.
  - destruct H1 as [_ A2 A3 A4]. split.
    + split; [apply He|rewrite Esym; apply Hv| | |].
      * intros k v fl (fl0 & Hk & Hfl)%Hold. destruct (uv_some _ _ _ _ _ Hv _ _ _ Hk) as (B1 & B2 & B3 & B4 & B5 & B6). rewrite (Hpage k v fl0 Hk), Hp by auto.
        rewrite Z.div_mul by done. split; [done|]. split; [destruct B2; split; [now rewrite Esym|done|done|done]|]. destruct Hfl as [[-> ->]|[Hne ->]].
        -- rewrite Hk in Hn. injection Hn as -> ->. rewrite decide_True by done. split; [lia|]. split; [done|]. split; [done|exact B6].
        -- rewrite decide_False by done. auto.
      * intros k Hk Hno. rewrite lookup_insert_None in Hno. rewrite Hp by auto. rewrite Z.div_mul by done. rewrite decide_False by tauto. now apply Hv.
      * intros k1 k2 v f1 f2 (g1 & K1 & _)%Hold (g2 & K2 & _)%Hold. exact (uv_inj _ _ _ _ _ Hv _ _ _ _ _ K1 K2).
    + eapply vframe_trans; [exact A2|apply vframe_mem, He].
    + rewrite A3. assert (upages (<[n := (u, 3)]> U) ≡ₚ upages U) as ->; [|done].
      rewrite <- insert_delete_eq, (upages_insert (delete n U) n (u, 3)) by apply lookup_delete_eq. now rewrite (upages_delete U n _ Hn).
    + intros q Hq. rewrite <- A4 by done. apply Hm. intros Ht. apply Hq. rewrite A3. right. rewrite !elem_of_app. auto.
  - intros va Hva Hge. rewrite Hp by done. rewrite decide_False by (unfold KERNBASE in Hge; div_lia). rewrite Esym. now apply H2.
  - intros k. rewrite <- (H3 k). destruct (decide (k = n)) as [->|]; [|now rewrite lookup_insert_ne]. rewrite lookup_insert_eq, Hn. split; eauto.
  - intros k v fl (fl0 & Hk & [[-> ->]|[Hne ->]])%Hold; [now rewrite decide_True|]. rewrite decide_False by congruence. exact (H4 k v fl0 Hk).
  - intros k v fl (fl0 & Hk & _)%Hold. rewrite (Hpage k v fl0 Hk). exact (H5 k v fl0 Hk).
  - intros va. rewrite <- H6. unfold ubyte. destruct (decide (va / 4096 = n)) as [->|Hne]; [rewrite lookup_insert_eq, Hn|rewrite lookup_insert_ne by done].
    + unfold tab_word. now rewrite (Hpage n u 7 Hn).
    + destruct (U !! (va / 4096)) as [[v fl]|] eqn:E; [|done]. unfold tab_word. now rewrite (Hpage _ _ _ E).
Qed.

(** clearpteu of the page [n]. *)
Lemma wp_space_clear sz f s n (Q : unit -> kstate -> Prop) : has_space b l d sz None f s -> 0 <= n -> n * 4096 < sz ->
  (forall s', mem_frame s s' -> has_space b l d sz (Some n) f s' -> Q tt s') -> wp (clearpteu d (n * 4096)) Q s.
Proof.
  intros (T & U & l' & Hs) H0 Hlt HQ. pose proof Hs as [H1 H2 H3 H4 H5 H6]. pose proof (bo_uvm _ _ _ _ _ _ _ H1) as Hv. pose proof (uv_vm _ _ _ _ _ Hv) as Hvm.
  destruct (proj2 (H3 n) ltac:(lia)) as [[u fl] Hn]. pose proof (H4 n u fl Hn) as Efl. rewrite decide_False in Efl by done. subst fl.
  destruct (uv_some _ _ _ _ _ Hv _ _ _ Hn) as (Hr & Hlo & _ & _ & Hpte & _). unfold NUPAGES in Hr. pose proof (V2P_page u (pframe_mod _ _ (lo_frame _ _ _ _ _ Hlo))) as Hum.
  destruct (user_table s d T U l' Hv n u 7 Hn) as [t Ht]. destruct (vm_entry _ _ _ _ _ _ Hvm Ht) as (Hft & (pg & Hpg) & Hw).
  pose proof (PTX_range (n * 4096)) as Hx. pose proof (pframe_pos _ _ Hft). unfold clearpteu. wp_steps. apply (wp_walk_some s d T l' Hvm _ false t _ Ht).
  apply wp_if_false; [lia|]. wp_steps. apply (wp_load_entry _ _ _ _ _ (pframe_mod _ _ Hft) Hx Hw). rewrite Hpte. wp_steps.
  replace (Z.land (V2P u + 7) (not32 PTE_U)) with (V2P u + 3) by (symmetry; apply clear_user; [done|apply is_u32_V2P]).
  apply (wp_store_entry _ _ _ pg); [now apply pframe_mod in Hft|done|done|].
  pose proof (set_entry_ext s d T l' (n * 4096) (V2P u + 3) t pg Hvm Ht Hpg) as He. cbv zeta in He.
  pose proof (set_entry_pte s d T l' (n * 4096) (V2P u + 3) t pg Hvm Ht Hpg) as Hp. cbv zeta in Hp.
  fold (set_page t (<[Z.to_nat (PTX (n * 4096)) := V2P u + 3]> pg) s) in *. set (s' := set_page t _ s) in *.
  apply (HQ s'); [apply mem_frame_set_page|]. exists T, (<[n := (u, 3)]> U), l'. apply (cleared sz f s T U l' n u s'); [done|done|done| |].
  - intros va Hva. rewrite Hp by (unfold is_u32 in *; lia). rewrite Z.div_mul by lia. reflexivity.
  - intros q Hq. apply lookup_insert_ne. intros ->. apply Hq, elem_tabs. eauto.
Qed.

(** ** copyout *)

Lemma wp_uva2ka_user s T U l' va u fl (Q : Z -> kstate -> Prop) : uvm s d T U l' -> U !! (va / 4096) = Some (u, fl) ->
  Q (if Z.land fl PTE_U =? 0 then 0 else u) s -> wp (uva2ka d va) Q s.
Proof.
  intros Hv Hn HQ. destruct (uv_some _ _ _ _ _ Hv _ _ _ Hn) as (_ & Hlo & Hfl & Hodd & _).
  pose proof (V2P_page u (pframe_mod _ _ (lo_frame _ _ _ _ _ Hlo))) as Hum. unfold uva2ka.
  apply (wp_user_pte s T U l' va u fl); [done|done|]. rewrite !land_low by (done || unfold PTE_P, PTE_U; lia). apply wp_if_false; [lia|].
  rewrite (pframe_P2V _ _ fl (lo_frame _ _ _ _ _ Hlo)) by done. destruct (_ =? 0); now wp_steps.
Qed.

(** The [len] bytes from [va] on reach into the page [g]. *)
Definition hits (g va len : Z) : Prop := 0 < len /\ va < (g + 1) * 4096 /\ g * 4096 < va + len.

#[local] Instance hits_dec g va len : Decision (hits g va len).
Proof. unfold hits. apply _. Defined.

Definition copied_out (sz g : Z) (f : Z -> Z) (va : Z) (buf : list Z) (s : kstate) (r : Z) (s' : kstate) : Prop :=
  mem_frame s s' /\
  if decide (hits g va (Z.of_nat (length buf))) then r = -1 /\ exists f', has_space b l d sz (Some g) f' s'
  else r = 0 /\ has_space b l d sz (Some g) (overlay f va buf) s'.

Lemma wp_copyout_loop sz g fuel : sz <= KERNBASE -> sz mod 4096 = 0 -> forall va buf f s, has_space b l d sz (Some g) f s ->
  0 <= va -> va + Z.of_nat (length buf) <= sz -> (length buf <= fuel)%nat -> Forall is_u8 buf ->
  wp (copyout_loop fuel d va buf (Z.of_nat (length buf))) (copied_out sz g f va buf s) s.
Proof.
  intros Hsz Hmod. unfold KERNBASE in Hsz. induction fuel as [|fuel IH]; intros va buf f s Hs H0 Hend Hfuel Hb; cbn [copyout_loop];
    (destruct (Z.ltb_spec 0 (Z.of_nat (length buf))) as [Hpos|Hpos];
     [|destruct buf; [|cbn in Hpos; lia]; wp_steps; split; [apply mem_frame_refl|]; rewrite decide_False by (unfold hits; cbn; lia); split; [done|];
       apply (has_space_ext _ _ _ _ _ f); [done|]; intros x; now rewrite overlay_nil]); [lia|].
  destruct Hs as (T & U & l' & Hs). pose proof Hs as [H1 H2 H3 H4 H5 H6]. rewrite PGROUNDDOWN_spec by (unfold is_u32; lia). unfold PGSIZE.
  set (n := va / 4096). replace (va - va mod 4096) with (n * 4096) by (unfold n; div_lia). destruct (proj2 (H3 n) ltac:(unfold n; div_lia)) as [[u fl] Hn].
  pose proof (H4 n u fl Hn) as Efl. pose proof (bo_uvm _ _ _ _ _ _ _ H1) as Hv. destruct (uv_some _ _ _ _ _ Hv _ _ _ Hn) as (_ & Hlo & _).
  pose proof (pframe_pos _ _ (lo_frame _ _ _ _ _ Hlo)). assert (n * 4096 / 4096 = n) as En by now apply Z.div_mul.
  wp_steps. apply (wp_uva2ka_user s T U l' (n * 4096) u fl); [done|now rewrite En|]. case_decide as Hg; subst fl.
  { wp_steps. injection Hg as ->. split; [apply mem_frame_refl|]. rewrite decide_True by (unfold hits, n; div_lia). split; [done|]. exists f. now exists T, U, l'. }
  change (Z.land 7 PTE_U =? 0) with false. cbv iota. apply wp_if_false; [lia|]. set (k := Z.min _ _). wp_steps.
  assert (0 < k <= Z.of_nat (length buf)) as Hk by (unfold k, n; div_lia). assert (Z.of_nat (length (take (Z.to_nat k) buf)) = k) as Elk by (rewrite length_take; lia).
  apply (wp_store_page sz (Some g) T U l' n u 7 (take (Z.to_nat k) buf) Hn) with (f := f); [done|unfold n; div_lia|rewrite Elk; unfold k, n; div_lia|now apply Forall_take|].
  intros s1 F1 Hs1. replace (n * 4096 + (va - n * 4096)) with va in Hs1 by lia. wp_steps.
  replace (Z.of_nat (length buf) - k) with (Z.of_nat (length (drop (Z.to_nat k) buf))) by (rewrite length_drop; lia).
  assert (u32 (n * 4096 + 4096) = n * 4096 + 4096) as -> by (apply u32_small; unfold n; div_lia).
  eapply wp_mono; [apply (IH _ _ (overlay f va (take (Z.to_nat k) buf)) s1); [now exists T, U, l'|unfold n; div_lia| |rewrite length_drop; lia|now apply Forall_drop]|].
  { rewrite length_drop. unfold k, n. div_lia. }
  intros r s2 [F2 Hr]. split; [eapply mem_frame_trans; eassumption|]. rewrite length_drop in Hr.
  assert (n <> g) as Hng by (intros ->; now apply Hg). destruct (decide (hits g va (Z.of_nat (length buf)))) as [Hh|Hh].
  - rewrite decide_True in Hr; [done|]. unfold hits, k, n in *. div_lia.
  - rewrite decide_False in Hr by (unfold hits, k, n in *; div_lia). destruct Hr as [-> Hr]. split; [done|]. apply (has_space_ext _ _ _ _ _ _ _ _ Hr). intros x.
    destruct (decide (k = Z.of_nat (length buf))) as [E|E].
    + rewrite drop_ge, overlay_nil by lia. now rewrite take_ge by lia.
    + replace (n * 4096 + 4096) with (va + Z.of_nat (length (take (Z.to_nat k) buf))) by (rewrite Elk; unfold k, n in *; div_lia). now rewrite overlay_app, take_drop.
Qed.

(** The kernel's own pages are closed to the user. *)
Lemma device_pte sym va : link_ok sym -> DEVSPACE <= va < 4294967296 -> va mod 4096 = 0 -> kmap_pte (kmap sym) va = va + 3.
Proof.
  intros (H1 & H2 & _) Hva Hm. unfold kmap, KERNLINK, KERNBASE, EXTMEM, PHYSTOP, DEVSPACE in *. cbn [kmap_pte].
  assert (V2P (sym_data sym) = sym_data sym - 2147483648) as -> by (unfold V2P, KERNBASE, u32; div_lia).
  unfold V2P, KERNBASE, u32. rewrite !(decide_False (P := _ <= va < _)) by div_lia. rewrite decide_True by div_lia.
  replace (4261412864 + (va - 4261412864) / 4096 * 4096) with va by div_lia. rewrite <- Z.lor_assoc. apply (lor_low va 3); [done|lia].
Qed.

Lemma wp_copyout_high sz g f s va buf : has_space b l d sz g f s -> link_ok (k_sym s) -> DEVSPACE <= va < 4294967296 -> buf <> [] ->
  wp (copyout d va buf (Z.of_nat (length buf))) (fun r s' => r = -1 /\ s' = s) s.
Proof.
  intros (T & U & l' & [H1 H2 _ _ _ _]) Hlk Hva Hbuf. pose proof (uv_vm _ _ _ _ _ (bo_uvm _ _ _ _ _ _ _ H1)) as Hvm. unfold copyout.
  destruct buf as [|x buf]; [done|]. rewrite Nat2Z.id. cbn [length copyout_loop]. rewrite (proj2 (Z.ltb_lt _ _)) by lia.
  rewrite PGROUNDDOWN_spec by (unfold is_u32, DEVSPACE in *; lia). unfold PGSIZE. set (va0 := va - va mod 4096).
  assert (DEVSPACE <= va0 < 4294967296 /\ va0 mod 4096 = 0) as [Hr Hm] by (unfold va0, DEVSPACE in *; div_lia).
  assert (pte_at (k_mem s) T va0 = va0 + 3) as Hp.
  { rewrite H2 by (unfold is_u32, KERNBASE, DEVSPACE in *; lia). now apply device_pte. }
  destruct (T !! PDX va0) as [t|] eqn:Ht; [|exfalso; unfold pte_at in Hp; rewrite Ht in Hp; unfold DEVSPACE in *; lia].
  destruct (vm_entry _ _ _ _ _ _ Hvm Ht) as (Hft & _ & Hw). pose proof (PTX_range va0) as Hx. pose proof (pframe_pos _ _ Hft).
  unfold uva2ka. wp_steps. apply (wp_walk_some s d T l' Hvm _ false t _ Ht). apply wp_if_false; [lia|]. wp_steps.
  apply (wp_load_entry _ _ _ _ _ (pframe_mod _ _ Hft) Hx Hw). rewrite Hp, !land_low by (done || unfold PTE_P, PTE_U; lia).
  apply wp_if_false; [done|]. apply wp_if_true; [done|]. wp_steps. split; reflexivity.
Qed.
End space.
