(* ===== verification/Pthread.v ===== *)
(** The thread library, pthread.c: creation of threads over malloc and clone, and the wrappers of
    the synchronization system calls.

    pthread_create runs on the heap of Umalloc.v, beside the state of the system. The system calls are parameters; what
    pthread_create owes to clone is the kernel's own check of the stack (Proc.v), and what clone does to the stack of the new
    thread is what Threads.v proves of it. *)

From stdpp Require Import base list sets strings numbers.
From Stdlib Require Import ZArith Lia.
From S2P Require Import Prelude Kstate Mmu Ports Proc Umalloc.
Open Scope Z_scope.

Definition PTHREAD_STACK : Z := 4096.

(** ((uint)raw + PTHREAD_STACK - 1) & ~(PTHREAD_STACK - 1) *)
Definition stack_in (raw : Z) : Z := Z.land (u32 (raw + PTHREAD_STACK - 1)) (not32 (PTHREAD_STACK - 1)).

Section pthread.
Context (base lo : Z) (sbrk : Z -> M heap Z) (fuel : nat).
Context {W : Type} (trampoline_addr : Z) (clone : Z -> Z -> Z -> M (heap * W) Z).

(** struct startinfo is two words, like a Header. *)
Definition store_startinfo (si fn arg : Z) : M heap unit := set_ptr base lo si fn ;; set_size base lo si arg.

(** The result and, on success, *t. *)
Definition pthread_create (fn arg : Z) : M (heap * W) (Z * option Z) :=
  raw ← lift (malloc base lo sbrk fuel (PTHREAD_STACK * 2));
  if raw =? 0 then ret (-1, None) else
  let stack := stack_in raw in
  si ← lift (malloc base lo sbrk fuel 8);
  if si =? 0 then lift (free base lo fuel raw) ;; ret (-1, None) else
  lift (store_startinfo si fn arg) ;;
  pid ← clone trampoline_addr si stack;
  if pid <? 0 then lift (free base lo fuel si) ;; lift (free base lo fuel raw) ;; ret (-1, None) else
  ret (0, Some pid).

(** What the new thread runs: fn(arg), then thread_exit. *)
Definition trampoline (call : Z -> Z -> M heap unit) (thread_exit : M heap unit) (x : Z) : M heap unit :=
  si ← hdr_at base lo x;
  call (h_ptr si) (h_size si) ;;
  thread_exit.
End pthread.

(** ** The wrappers *)

Section wrappers.
Context {S : Type}.

Definition pthread_join (join : Z -> M S (Z * Z)) (wanted : Z) : M S Z :=
  '(pid, _) ← join wanted;
  ret (if pid =? wanted then 0 else -1).

Definition pthread_exit (thread_exit : M S unit) : M S unit := thread_exit.

(** *m and the result. *)
Definition pthread_mutex_init (lock_create : M S Z) : M S (Z * Z) :=
  m ← lock_create;
  ret (m, if m <? 0 then -1 else 0).
Definition pthread_mutex_lock (lock_acquire : Z -> M S Z) (m : Z) : M S Z := lock_acquire m.
Definition pthread_mutex_unlock (lock_release : Z -> M S Z) (m : Z) : M S Z := lock_release m.

Definition sem_init (sem_create : Z -> M S Z) (value : Z) : M S (Z * Z) :=
  x ← sem_create value;
  ret (x, if x <? 0 then -1 else 0).
Definition sem_wait_u (sem_wait : Z -> M S Z) (x : Z) : M S Z := sem_wait x.
Definition sem_post_u (sem_post : Z -> M S Z) (x : Z) : M S Z := sem_post x.

Definition stochastic_schedule (randconfig : Z -> Z -> M S Z) (seed percent : Z) : M S unit :=
  randconfig seed percent ;; ret tt.
End wrappers.

(** ** pthread_create *)

(** A stack of one page fits a block of twice the size, wherever the block is. *)
Lemma stack_in_spec raw : 0 <= raw < 2147483648 ->
  stack_in raw mod PGSIZE = 0 /\ raw <= stack_in raw /\ stack_in raw + PGSIZE <= raw + PTHREAD_STACK * 2.
Proof.
  intros H. change (stack_in raw) with (PGROUNDUP raw). rewrite PGROUNDUP_spec by (unfold PGSIZE; lia).
  unfold PGSIZE, PTHREAD_STACK. div_lia.
Qed.

Section create.
Context (base lo : Z) (Hbase : 0 < base /\ base + HSIZE <= lo).

(** The owner of a block may write to it. *)
Lemma payload_write s fl al b n x h : heap_ok base lo s fl al -> (b, n) ∈ al -> b < x < b + HSIZE * n ->
  heap_ok base lo (s <| hp_mem := hupd (hp_mem s) x h |>) fl al.
Proof.
  intros [H1 H2 H3 H4 H5 H6 H7] Hb Hx.
  assert (forall y, y ∈ fl ++ al -> y.1 <> x) as Hne.
  { intros y Hy Ey. rewrite list.Forall_forall in H3. pose proof (H3 y Hy) as (_ & _ & Hy2 & _).
    destruct (H3 (b, n)) as (_ & _ & Hn & _); [set_solver|]. simpl in Hn.
    assert (y <> (b, n)) as Hyb by (intros ->; simpl in Ey; lia).
    assert ((b, n) ∈ fl ++ al) as Hb' by set_solver.
    destruct (list_elem_of_split (fl ++ al) y Hy) as (l1 & l2 & E). specialize (H5 x). rewrite E, cnt_app, cnt_cons in H5.
    replace (covers x y) with true in H5 by (unfold covers, HSIZE in *; lia).
    rewrite E, elem_of_app, elem_of_cons in Hb'. assert (covers x (b, n) = true) as Hc by (unfold covers, HSIZE in *; simpl; lia).
    destruct Hb' as [Hin|[Heq|Hin]]; [|now destruct Hyb|]; apply (cnt_elem x) in Hin; [lia|done|lia|done]. }
  assert (lo <= b) as Hlo by (rewrite list.Forall_forall in H3; apply (H3 (b, n)); set_solver).
  constructor; auto.
  - simpl hp_mem. apply seg_frame; [|done]. simpl. rewrite not_elem_of_cons. split; [unfold HSIZE in *; lia|].
    intros ([c k] & Ec & Hin)%list_elem_of_fmap. apply (Hne (c, k)); [set_solver|done].
  - simpl hp_mem. rewrite list.Forall_forall in *. intros y Hy. unfold hupd.
    destruct (Z.eqb_spec y.1 x) as [E|_]; [|auto]. now destruct (Hne y ltac:(set_solver)).
Qed.

Context (sbrk : Z -> M heap Z).
Hypothesis Hsbrk : forall n s, 0 < n ->
  wp (sbrk n) (fun r s' => r = -1 /\ s' = s \/
    r = hp_brk s /\ s' = s <| hp_brk := hp_brk s + n |> /\ hp_brk s + n < 2147483648) s.

(** clone, called with a stack its check accepts, fails without an effect or starts a thread at [fn] on this stack, with the
    argument on top of it and a return address below; nothing else of the heap changes. *)
Context {W : Type} (threads_of : W -> list (Z * Z * Z)).     (* pid, where it starts, its stack *)
Context (tramp : Z) (clone : Z -> Z -> Z -> M (heap * W) Z).
Hypothesis Hclone : forall fn arg stack s w, bad_stack stack (hp_brk s) = false ->
  wp (clone fn arg stack) (fun r '(s', w') =>
    r < 0 /\ s' = s /\ threads_of w' = threads_of w \/
    0 <= r /\ s' = s <| hp_mem := hupd (hp_mem s) (stack + 4088) (mk_hdr 0xffffffff arg) |> /\
      threads_of w' = (r, fn, stack) :: threads_of w) (s, w).

(** The blocks of a new thread: its stack, a page inside the block at [a] with the address of the start information as the
    argument, and the start information in the block at [b], with which the trampoline calls [fn] with [arg]. *)
Definition thread_blocks (fn arg : Z) (s : heap) (a b : Z) : Prop :=
  let stack := stack_in (a + HSIZE) in
  bad_stack stack (hp_brk s) = false /\ a + HSIZE <= stack /\ stack + PGSIZE <= a + HSIZE * 1025 /\
  hp_mem s (stack + 4088) = mk_hdr 0xffffffff (b + HSIZE) /\
  forall call thread_exit, trampoline base lo call thread_exit (b + HSIZE) s = (call fn arg ;; thread_exit) s.

Lemma stack_accepted s fl al a : heap_ok base lo s fl ((a, 1025) :: al) ->
  bad_stack (stack_in (a + HSIZE)) (hp_brk s) = false /\ a + HSIZE <= stack_in (a + HSIZE) /\
  stack_in (a + HSIZE) + PGSIZE <= a + HSIZE * 1025.
Proof.
  intros Hok. pose proof (ho_blocks _ _ _ _ _ Hok) as Hb. rewrite list.Forall_forall in Hb.
  destruct (Hb (a, 1025)) as (B1 & _ & _ & B4); [set_solver|]. destruct (ho_brk _ _ _ _ _ Hok) as [[_ B] _]. simpl in *.
  destruct (stack_in_spec (a + HSIZE)) as (S1 & S2 & S3); [unfold HSIZE in *; lia|]. unfold PTHREAD_STACK, PGSIZE, HSIZE in *.
  split; [|lia]. unfold bad_stack, PGSIZE. rewrite S1. simpl. rewrite u32_small by lia. lia.
Qed.

Lemma info_accessible s fl al b : heap_ok base lo s fl al -> (b, 2) ∈ al -> accessible base lo (b + HSIZE) (hp_brk s) = true.
Proof.
  intros Hok Hb. pose proof (ho_blocks _ _ _ _ _ Hok) as Hbl. rewrite list.Forall_forall in Hbl.
  destruct (Hbl (b, 2)) as (B1 & B2 & _ & B4); [set_solver|]. simpl in *.
  unfold accessible. replace ((b + HSIZE) mod HSIZE) with 0 by (unfold HSIZE in *; div_lia). unfold HSIZE in *. lia.
Qed.

Lemma hdr_at_ok s x h : accessible base lo x (hp_brk s) = true -> hp_mem s x = h -> hdr_at base lo x s = Ok h s.
Proof. intros Ha <-. unfold hdr_at. erewrite bind_ok by reflexivity. now rewrite Ha. Qed.

Lemma trampoline_calls call thread_exit s x fn arg : accessible base lo x (hp_brk s) = true -> hp_mem s x = mk_hdr fn arg ->
  trampoline base lo call thread_exit x s = (call fn arg ;; thread_exit) s.
Proof. intros Ha Hx. unfold trampoline. now rewrite (bind_ok _ _ _ _ _ (hdr_at_ok s x _ Ha Hx)). Qed.

(** The start information is in place. *)
Lemma wp_store_startinfo s fl al b fn arg (Q : unit -> heap -> Prop) :
  heap_ok base lo s fl al -> (b, 2) ∈ al ->
  (forall s', heap_ok base lo s' fl al -> hp_brk s' = hp_brk s -> hp_mem s' (b + HSIZE) = mk_hdr fn arg -> Q tt s') ->
  wp (store_startinfo base lo (b + HSIZE) fn arg) Q s.
Proof.
  intros Hok Hb HQ. pose proof (info_accessible s fl al b Hok Hb) as Ha.
  unfold store_startinfo. wp_steps. apply wp_set_ptr; [done|]. apply wp_set_size; [done|]. apply HQ.
  - eapply payload_write; [eapply payload_write; [done|exact Hb|]|exact Hb|]; unfold HSIZE; lia.
  - done.
  - simpl. unfold hupd. now rewrite !Z.eqb_refl.
Qed.

Lemma conserved_freed s l fl fl' al bp n s1 s' : conserved s l s1 (fl ++ (bp, n) :: al) -> hp_brk s' = hp_brk s1 ->
  freed bp n fl fl' -> conserved s l s' (fl' ++ al).
Proof.
  intros [H1 H2] Hb [H3 _ _]. split; [lia|]. intros x. rewrite Hb, <- H2, !cnt_app, H3, !cnt_cons. lia.
Qed.

Lemma conserved_brk s l s1 l1 s' : conserved s l s1 l1 -> hp_brk s' = hp_brk s1 -> conserved s l s' l1.
Proof. unfold conserved. now intros H ->. Qed.

(** What pthread_create promises. *)
Definition create_post (s : heap) (w : W) (fl al : list (Z * Z)) (fn arg : Z) (r : Z * option Z) '((s', w') : heap * W) : Prop :=
  (r = (-1, None) /\ threads_of w' = threads_of w /\ exists fl', heap_ok base lo s' fl' al /\ conserved s (fl ++ al) s' (fl' ++ al)) \/
  (exists pid fl' a b, r = (0, Some pid) /\ threads_of w' = (pid, tramp, stack_in (a + HSIZE)) :: threads_of w /\
     heap_ok base lo s' fl' ((b, 2) :: (a, 1025) :: al) /\
     conserved s (fl ++ al) s' (fl' ++ (b, 2) :: (a, 1025) :: al) /\ thread_blocks fn arg s' a b).

Section after_raw.
Context (s s1 : heap) (w : W) (fl fl1 al : list (Z * Z)) (a fn arg : Z) (fuel : nat).
Hypothesis Hok1 : heap_ok base lo s1 fl1 ((a, 1025) :: al).
Hypothesis Hc1 : conserved s (fl ++ al) s1 (fl1 ++ (a, 1025) :: al).
Hypothesis Hfuel : (2 * length fl1 + 6 <= fuel)%nat.

(** Both blocks are given back. *)
Lemma wp_create_fail s2 w2 fl2 b : heap_ok base lo s2 fl2 ((b, 2) :: (a, 1025) :: al) -> conserved s (fl ++ al) s2 (fl2 ++ (b, 2) :: (a, 1025) :: al) ->
  (length fl2 + 2 <= fuel)%nat -> threads_of w2 = threads_of w ->
  wp (lift (free base lo fuel (b + HSIZE)) ;; lift (free base lo fuel (a + HSIZE)) ;; ret (-1, None)) (create_post s w fl al fn arg) (s2, w2).
Proof.
  intros Hok2 Hc Hf2 Hw. wp_steps. apply wp_lift, (wp_free base lo Hbase s2 fl2 ((a, 1025) :: al) b 2); [done|lia|]. intros s3 fl3 H3 Hb3 Hfr. wp_steps.
  apply wp_lift, (wp_free base lo Hbase s3 fl3 al a 1025); [done|pose proof (fr_len _ _ _ _ Hfr); lia|]. intros s4 fl4 H4 Hb4 Hfr4. wp_steps.
  left. split; [done|]. split; [done|]. exists fl4. split; [done|].
  eapply conserved_freed; [eapply (conserved_freed s (fl ++ al) fl2 fl3 ((a, 1025) :: al) b 2); [exact Hc|exact Hb3|done]|exact Hb4|done].
Qed.

(** The start information lies outside of the stack. *)
Lemma info_apart s2 fl2 b : heap_ok base lo s2 fl2 ((b, 2) :: (a, 1025) :: al) -> b + HSIZE < a \/ a + HSIZE * 1025 <= b.
Proof.
  intros Hok2. destruct (disjoint_order [(b, 2)] [(a, 1025)] (b, 2) (a, 1025)) as [Ho|Ho]; [|set_solver|set_solver|simpl; lia|simpl; lia| |].
  - intros z. pose proof (ho_disjoint _ _ _ _ _ Hok2 z) as Hd. rewrite cnt_app, !cnt_cons in Hd. rewrite cnt_app, !cnt_cons. change (cnt z []) with 0%nat. lia.
  - left. simpl in Ho. unfold HSIZE in *. lia.
  - right. exact Ho.
Qed.

(** The two blocks are there: clone, and the return of both when it fails. *)
Lemma wp_create_clone s2 fl2 b : heap_ok base lo s2 fl2 ((b, 2) :: (a, 1025) :: al) -> conserved s1 (fl1 ++ (a, 1025) :: al) s2 (fl2 ++ (b, 2) :: (a, 1025) :: al) ->
  (length fl2 + 2 <= fuel)%nat -> hp_mem s2 (b + HSIZE) = mk_hdr fn arg ->
  wp (pid ← clone tramp (b + HSIZE) (stack_in (a + HSIZE));
      if pid <? 0 then lift (free base lo fuel (b + HSIZE)) ;; lift (free base lo fuel (a + HSIZE)) ;; ret (-1, None)
      else ret (0, Some pid)) (create_post s w fl al fn arg) (s2, w).
Proof.
  intros Hok2 Hc2 Hf2 Hm. pose proof (conserved_trans _ _ _ _ _ _ Hc1 Hc2) as Hc.
  assert (heap_ok base lo s2 fl2 ((a, 1025) :: (b, 2) :: al)) as Hswap.
  { destruct Hok2 as [H1 H2 H3 H4 H5 H6 H7]. constructor; auto.
    - rewrite list.Forall_forall in *. intros x Hx. apply H3. set_solver.
    - rewrite list.Forall_forall in *. intros x Hx. apply H4. set_solver.
    - intros x. specialize (H5 x). rewrite !cnt_app, !cnt_cons in *. lia. }
  destruct (stack_accepted s2 fl2 ((b, 2) :: al) a Hswap) as (B1 & B2 & B3). wp_steps.
  eapply wp_mono; [exact (Hclone tramp (b + HSIZE) _ s2 w B1)|]. intros pid [s3 w3] [(Hr & -> & Hw)|(Hr & -> & Hw)].
  { apply wp_if_true; [lia|]. now apply (wp_create_fail s2 w3 fl2 b). }
  apply wp_if_false; [lia|]. wp_steps. right. exists pid, fl2, a, b. split; [done|]. split; [done|]. unfold PGSIZE in *. split.
  { apply (payload_write s2 fl2 _ a 1025); [done|set_solver|unfold HSIZE in *; lia]. }
  split; [done|]. split; [done|]. split; [done|]. split; [unfold PGSIZE; lia|]. cbn [hp_mem setf set_hp_mem]. unfold hupd.
  split; [now rewrite Z.eqb_refl|]. intros call texit. apply trampoline_calls; [apply (info_accessible s2 fl2 _ b Hok2); set_solver|].
  cbn [hp_mem setf set_hp_mem]. unfold hupd. pose proof (info_apart s2 fl2 b Hok2). rewrite (proj2 (Z.eqb_neq _ _)) by (unfold HSIZE in *; lia).
  exact Hm.
Qed.

Lemma wp_create_rest :
  wp (si ← lift (malloc base lo sbrk fuel 8);
      if si =? 0 then lift (free base lo fuel (a + HSIZE)) ;; ret (-1, None) else
      lift (store_startinfo base lo si fn arg) ;;
      pid ← clone tramp si (stack_in (a + HSIZE));
      if pid <? 0 then lift (free base lo fuel si) ;; lift (free base lo fuel (a + HSIZE)) ;; ret (-1, None)
      else ret (0, Some pid)) (create_post s w fl al fn arg) (s1, w).
Proof.
  wp_steps. apply wp_lift. eapply wp_mono; [apply (wp_malloc base lo Hbase sbrk Hsbrk s1 fl1 ((a, 1025) :: al) 8 fuel); [by left|lia|done]|].
  intros si s2 [(fl2 & Hl2 & [(-> & Hok2 & Hc2)|(b & -> & Hok2 & Hc2)]) _].
  - apply wp_if_true; [done|]. wp_steps. apply wp_lift, (wp_free base lo Hbase s2 fl2 al a 1025); [done|lia|]. intros s3 fl3 H3 Hb3 Hfr.
    wp_steps. left. split; [done|]. split; [done|]. exists fl3. split; [done|].
    eapply conserved_freed; [exact (conserved_trans _ _ _ _ _ _ Hc1 Hc2)|exact Hb3|done].
  - change (nunits_of 8) with 2 in *. pose proof (ho_blocks _ _ _ _ _ Hok2) as Hbl. rewrite list.Forall_forall in Hbl.
    destruct (Hbl (b, 2)) as (B1 & _); [set_solver|]. simpl in B1. apply wp_if_false; [unfold HSIZE in *; lia|]. wp_steps.
    apply wp_lift, (wp_store_startinfo s2 fl2 ((b, 2) :: (a, 1025) :: al)); [done|set_solver|]. intros s3 H3 Hb3 Hm.
    eapply wp_create_clone; [exact H3|exact (conserved_brk _ _ _ _ _ Hc2 Hb3)|lia|exact Hm].
Qed.
End after_raw.

(** C33: pthread_create either fails with -1 and all the memory it took given back, or returns 0 with the identifier of a new
    thread and two new blocks. The thread starts at the trampoline, on a page inside the first block that the kernel's check accepts and
    with the second block as its argument; there the trampoline finds the function and the argument, which it calls. The heap
    stays well formed, and nothing else of it changes. *)
Theorem pthread_create_correct s w fl al fuel fn arg :
  heap_rep base lo s fl al -> (2 * length fl + 8 <= fuel)%nat ->
  wp (pthread_create base lo sbrk fuel tramp clone fn arg) (create_post s w fl al fn arg) (s, w).
Proof.
  intros Hrep Hf. unfold pthread_create. wp_steps. apply wp_lift.
  eapply wp_mono; [apply (wp_malloc base lo Hbase sbrk Hsbrk s fl al (PTHREAD_STACK * 2) fuel); [done|unfold PTHREAD_STACK; lia|lia]|].
  intros raw s1 [(fl1 & Hl1 & [(-> & Hok1 & Hc1)|(a & -> & Hok1 & Hc1)]) _].
  - apply wp_if_true; [done|]. wp_steps. left. eauto.
  - change (nunits_of (PTHREAD_STACK * 2)) with 1025 in *. pose proof (ho_blocks _ _ _ _ _ Hok1) as Hbl.
    rewrite list.Forall_forall in Hbl. destruct (Hbl (a, 1025)) as (B1 & _); [set_solver|]. simpl in B1.
    apply wp_if_false; [unfold HSIZE in *; lia|]. cbv zeta. apply (wp_create_rest s s1 w fl fl1 al a fn arg fuel Hok1 Hc1). lia.
Qed.
End create.

(** A kernel that starts every thread it is asked for and counts their identifiers. *)
Definition ex_clone (fn arg stack : Z) : M (heap * list (Z * Z * Z)) Z := fun '(s, w) =>
  let pid := Z.of_nat (length w) in
  if bad_stack stack (hp_brk s) then Ok (-1) (s, w)
  else Ok pid (s <| hp_mem := hupd (hp_mem s) (stack + 4088) (mk_hdr 0xffffffff arg) |>, (pid, fn, stack) :: w).

Lemma ex_clone_spec fn arg stack s w : bad_stack stack (hp_brk s) = false ->
  wp (ex_clone fn arg stack) (fun r '(s', w') =>
    r < 0 /\ s' = s /\ w' = w \/
    0 <= r /\ s' = s <| hp_mem := hupd (hp_mem s) (stack + 4088) (mk_hdr 0xffffffff arg) |> /\ w' = (r, fn, stack) :: w) (s, w).
Proof. intros E. unfold wp, ex_clone. rewrite E. right. split; [lia|done]. Qed.

Lemma pthread_create_correct_witness :
  wp (pthread_create 0x1000 0x2000 ex_sbrk 8 0x100 ex_clone 0x200 5)
    (create_post 0x1000 0x2000 (fun w => w) 0x100 ex_heap [] [] [] 0x200 5) (ex_heap, []).
Proof.
  apply (pthread_create_correct 0x1000 0x2000 ltac:(unfold HSIZE; lia) ex_sbrk ex_sbrk_spec (fun w => w) 0x100 ex_clone
           ex_clone_spec ex_heap [] [] [] 8);
    [right; split; [split; [done|split; [simpl; lia|done]]|done]|simpl; lia].
Defined.
