(* ===== verification/Args.v ===== *)
(** System call arguments: fetchint, fetchstr, argint, argptr and argstr of
    syscall.c.

    *ip and *pp are results: [None] is the C result -1. A string argument is
    the list of its bytes. *)

From stdpp Require Import base list gmap strings numbers.
From Stdlib Require Import ZArith Lia.
From S2P Require Import Prelude Bytes Kstate Mmu Sched Proc.
Open Scope Z_scope.

Definition fetchint (addr : Z) : K (option Z) :=
  me ← curproc;
  p ← proc_at me;
  if (p_sz p <=? addr) || (p_sz p <? u32 (addr + 4)) then ret None else
  v ← uload32 addr;
  ret (Some (s32 v)).

(** for(s = *pp; s < ep; s++) if( *s == 0) return s - *pp; *)
Fixpoint fetchstr_loop (n : nat) (s : Z) : K (option (list Z)) :=
  match n with
  | O => ret None
  | S n' =>
    c ← uload8 s;
    if c =? 0 then ret (Some []) else
    r ← fetchstr_loop n' (s + 1);
    ret ((fun l => c :: l) <$> r)
  end.

Definition fetchstr (addr : Z) : K (option (list Z)) :=
  me ← curproc;
  p ← proc_at me;
  if p_sz p <=? addr then ret None else fetchstr_loop (Z.to_nat (p_sz p - addr)) addr.

Definition argint (n : Z) : K (option Z) :=
  me ← curproc;
  p ← proc_at me;
  fetchint (u32 (tf_esp (p_tf p) + 4 + 4 * n)).

(** The checks of argptr on the pointer [i] and [size]. *)
Definition bad_ptr (i size sz : Z) : bool :=
  (size <? 0) || (sz <=? u32 i) || (sz <? u32 (u32 i + size)).

Definition argptr (n size : Z) : K (option Z) :=
  me ← curproc;
  o ← argint n;
  match o with
  | None => ret None
  | Some i =>
    p ← proc_at me;
    ret (if bad_ptr i size (p_sz p) then None else Some (u32 i))
  end.

Definition argstr (n : Z) : K (option (list Z)) :=
  o ← argint n;
  match o with
  | None => ret None
  | Some addr => fetchstr (u32 addr)
  end.
