(* ===== verification/Argsafe.v ===== *)
(** System call arguments are safe: whatever a process puts on its stack, the argument functions of
    syscall.c return without a fault, and what they accept lies in the memory of the process. *)

From stdpp Require Import base list gmap strings numbers.
From Stdlib Require Import ZArith Lia.
From S2P Require Import Prelude Bytes Kstate Mmu Sched Vm Proc Args.
Open Scope Z_scope.

(** The user memory of the running process: address [va] below its size holds the byte [f va]. *)
Record user_mem (s : kstate) (me : nat) (p : proc) (f : Z -> Z) : Prop := {
  um_cur : k_cur s = Some me;
  um_proc : k_procs s !! me = Some p;
  um_size : 0 <= p_sz p <= KERNBASE;
  um_byte : forall va, 0 <= va < p_sz p -> 0 <= f va < 256;
  um_load : forall va, 0 <= va < p_sz p ->
    wp (a ← translate (p_pgdir p) va false; load8 a) (fun b s' => b = f va /\ s' = s) s
}.

Section args.
Context (s : kstate) (me : nat) (p : proc) (f : Z -> Z).
Hypothesis Hm : user_mem s me p f.

Lemma wp_uload8 va (Q : Z -> kstate -> Prop) : 0 <= va < p_sz p -> Q (f va) s -> wp (uload8 va) Q s.
Proof.
  intros Hva HQ. unfold uload8. wp_steps. apply (wp_curproc me); [apply Hm|]. wp_steps. apply (wp_proc_at me p); [apply Hm|].
  eapply wp_mono; [exact (um_load _ _ _ _ Hm va Hva)|]. now intros b s' [-> ->].
Qed.

(** The word at [va] of the user memory. *)
Definition uword (va : Z) : Z := le_val [f va; f (va + 1); f (va + 2); f (va + 3)].

Lemma wp_uload32 va (Q : Z -> kstate -> Prop) : 0 <= va -> va + 4 <= p_sz p -> Q (uword va) s -> wp (uload32 va) Q s.
Proof.
  intros H0 H4 HQ. pose proof (um_size _ _ _ _ Hm) as Hsz. unfold KERNBASE in Hsz. unfold uload32.
  rewrite !u32_small by lia. wp_steps. apply wp_uload8; [lia|]. wp_steps. apply wp_uload8; [lia|].
  wp_steps. apply wp_uload8; [lia|]. wp_steps. apply wp_uload8; [lia|]. wp_steps. exact HQ.
Qed.

(** The addresses fetchint refuses. *)
Definition bad_word (addr : Z) : bool := (p_sz p <=? addr) || (p_sz p <? u32 (addr + 4)).

Lemma wp_fetchint addr (Q : option Z -> kstate -> Prop) : is_u32 addr ->
  Q (if bad_word addr then None else Some (s32 (uword addr))) s -> wp (fetchint addr) Q s.
Proof.
  intros Ha HQ. pose proof (um_size _ _ _ _ Hm) as Hsz. unfold KERNBASE, is_u32 in *. unfold fetchint. wp_steps.
  apply (wp_curproc me); [apply Hm|]. wp_steps. apply (wp_proc_at me p); [apply Hm|]. fold (bad_word addr).
  apply wp_if; intros E; rewrite E in HQ; [now wp_steps|]. unfold bad_word in E. rewrite u32_small in E by lia. wp_steps.
  apply wp_uload32; [lia|lia|]. wp_steps. exact HQ.
Qed.

Definition arg_addr (n : Z) : Z := u32 (tf_esp (p_tf p) + 4 + 4 * n).
Definition arg_word (n : Z) : option Z := if bad_word (arg_addr n) then None else Some (s32 (uword (arg_addr n))).

Lemma wp_argint n (Q : option Z -> kstate -> Prop) : Q (arg_word n) s -> wp (argint n) Q s.
Proof.
  intros HQ. unfold argint. wp_steps. apply (wp_curproc me); [apply Hm|]. wp_steps. apply (wp_proc_at me p); [apply Hm|].
  apply wp_fetchint; [|exact HQ]. unfold is_u32, u32. div_lia.
Qed.

(** The string at [addr], if a NUL ends it below the size. *)
Fixpoint ustring (n : nat) (addr : Z) : option (list Z) :=
  match n with
  | O => None
  | S n => if f addr =? 0 then Some [] else cons (f addr) <$> ustring n (addr + 1)
  end.

Lemma wp_fetchstr_loop n : forall addr (Q : option (list Z) -> kstate -> Prop), 0 <= addr -> addr + Z.of_nat n <= p_sz p ->
  Q (ustring n addr) s -> wp (fetchstr_loop n addr) Q s.
Proof.
  induction n as [|n IH]; intros addr Q H0 Hn HQ; simpl in *; wp_steps; [exact HQ|]. apply wp_uload8; [lia|].
  apply wp_if; intros E; rewrite E in HQ; wp_steps; [exact HQ|]. apply IH; [lia|lia|]. wp_steps. exact HQ.
Qed.

Lemma ustring_spec n : forall addr l, ustring n addr = Some l ->
  (length l < n)%nat /\ f (addr + Z.of_nat (length l)) = 0 /\ (0 ∉ l) /\ forall k x, l !! k = Some x -> x = f (addr + Z.of_nat k).
Proof.
  induction n as [|n IH]; intros addr l; simpl; [discriminate|]. destruct (Z.eqb_spec (f addr) 0) as [E|E].
  - intros [= <-]. rewrite Z.add_0_r. split; [simpl; lia|]. split; [done|]. split; [apply not_elem_of_nil|].
    intros k x. now rewrite lookup_nil.
  - destruct (ustring n (addr + 1)) as [l'|] eqn:El; [|discriminate]. intros [= <-]. apply IH in El as (H1 & H2 & H3 & H4).
    simpl length. split; [lia|]. split; [now replace (addr + Z.of_nat (S (length l'))) with (addr + 1 + Z.of_nat (length l')) by lia|].
    split; [apply not_elem_of_cons; auto|]. intros [|k] x; simpl; [intros [= <-]; now rewrite Z.add_0_r|].
    intros Hk. apply H4 in Hk. now replace (addr + Z.of_nat (S k)) with (addr + 1 + Z.of_nat k) by lia.
Qed.

(** C27: the arguments of a system call are checked. Whatever the process's stack pointer and the
    words on its stack are, argint, argptr and argstr return without a fault and without changing
    the kernel. A pointer that argptr accepts for [size] bytes has all of them in the memory of the
    process; a string that argstr accepts lies there with the NUL that ends it, and is what the
    memory holds. *)
Theorem syscall_args_safe n size : size < 2147483648 ->
  wp (argint n) (fun r s' => r = arg_word n /\ s' = s) s /\
  wp (argptr n size) (fun r s' => s' = s /\
    forall a, r = Some a -> 0 <= a < p_sz p /\ 0 <= size /\ a + size <= p_sz p) s /\
  wp (argstr n) (fun r s' => s' = s /\
    forall l, r = Some l -> exists a, 0 <= a /\ a + Z.of_nat (length l) < p_sz p /\
      f (a + Z.of_nat (length l)) = 0 /\ (0 ∉ l) /\ forall k x, l !! k = Some x -> x = f (a + Z.of_nat k)) s.
Proof.
  intros Hsize. pose proof (um_size _ _ _ _ Hm) as Hsz. unfold KERNBASE in Hsz. split; [|split].
  - now apply wp_argint.
  - unfold argptr. wp_steps. apply (wp_curproc me); [apply Hm|]. wp_steps. apply wp_argint. destruct (arg_word n) as [i|]; wp_steps.
    + apply (wp_proc_at me p); [apply Hm|]. wp_steps. split; [done|]. intros a. unfold bad_ptr.
      assert (0 <= u32 i < 4294967296) as Hi by (unfold u32; div_lia). destruct (_ || _) eqn:E; [discriminate|].
      intros [= <-]. apply orb_false_iff in E as [E1 E3]. apply orb_false_iff in E1 as [E1 E2]. rewrite u32_small in E3 by lia. lia.
    + done.
  - unfold argstr. wp_steps. apply wp_argint. destruct (arg_word n) as [i|]; wp_steps; [|done]. unfold fetchstr. wp_steps.
    apply (wp_curproc me); [apply Hm|]. wp_steps. apply (wp_proc_at me p); [apply Hm|].
    assert (0 <= u32 i < 4294967296) as Hi by (unfold u32; div_lia). apply wp_if; intros E; wp_steps; [done|].
    apply wp_fetchstr_loop; [lia|lia|]. split; [done|]. intros l (H1 & H2)%ustring_spec. exists (u32 i). split; [lia|]. split; [lia|done].
Qed.
End args.

(** A process of one page, whose words are all 100: so is its first argument, and at address 100
    there is the string of the one character 100. *)
Definition ex_arg_proc : proc :=
  zero_proc <| p_state := RUNNING |> <| p_pid := 5 |> <| p_sz := 4096 |> <| p_pgdir := 0x80400000 |>.
Definition ex_arg_pages : gmap Z (list Z) :=
  {[ 0x80400000 := replicate 1024 0x401007; 0x80401000 := replicate 1024 0x402007; 0x80402000 := replicate 1024 100 ]}.
Definition ex_arg_state : kstate :=
  (boot_state (mk_symbols 0x80120000 0x80110000 0x80103000 0x80104000) ∅)
    <| k_cur := Some 0%nat |> <| k_procs := [ex_arg_proc] |> <| k_mem := ex_arg_pages |>.

(** Any state with these pages. *)
Lemma ex_arg_mem_at s p : k_cur s = Some 0%nat -> k_procs s !! 0%nat = Some p -> p_sz p = 4096 -> p_pgdir p = 0x80400000 ->
  k_mem s = ex_arg_pages -> user_mem s 0 p (fun va => byte_of 100 (va mod 4)).
Proof.
  intros Hc Hp Hsz Hpg Hmem. split; [done|done|rewrite Hsz; done| |].
  { intros va _. unfold byte_of. apply Z.mod_pos_bound. lia. }
  intros va Hva. rewrite Hsz in Hva. unfold translate, load8. rewrite PDX_spec, PTX_spec, Hpg.
  replace (va / 4194304 mod 1024) with 0 by div_lia. replace (va / 4096 mod 1024) with 0 by div_lia. wp_steps.
  eapply (wp_load32 _ (replicate 1024 0x401007)); [rewrite Hmem; reflexivity|reflexivity|]. apply wp_if_false; [reflexivity|]. wp_steps.
  eapply (wp_load32 _ (replicate 1024 0x402007)); [rewrite Hmem; reflexivity|reflexivity|]. apply wp_if_false; [reflexivity|]. wp_steps.
  change (P2V (PTE_ADDR 0x402007)) with 0x80402000. unfold PGSIZE.
  eapply (wp_load32 _ (replicate 1024 100)).
  - replace (page_of _) with 0x80402000 by (unfold page_of; div_lia). rewrite Hmem. reflexivity.
  - apply lookup_replicate_2. unfold word_of. apply Nat2Z.inj_lt. rewrite Z2Nat.id by div_lia. div_lia.
  - wp_steps. split; [|done]. f_equal. div_lia.
Qed.

Lemma ex_arg_mem : user_mem ex_arg_state 0 ex_arg_proc (fun va => byte_of 100 (va mod 4)).
Proof. now apply ex_arg_mem_at. Qed.

Lemma syscall_args_safe_witness :
  user_mem ex_arg_state 0 ex_arg_proc (fun va => byte_of 100 (va mod 4)) /\
  wp (argptr 0 40) (fun r s' => s' = ex_arg_state /\
    forall a, r = Some a -> 0 <= a < 4096 /\ 0 <= 40 /\ a + 40 <= 4096) ex_arg_state.
Proof.
  split; [exact ex_arg_mem|].
  exact (proj1 (proj2 (syscall_args_safe _ _ _ _ ex_arg_mem 0 40 eq_refl))).
Defined.
