(* ===== verification/Ksync.v ===== *)
(** Kernel synchronization objects, ksync.c.

    The object table and its allocator are complete in the source. The bodies
    of ksem_create, ksem_wait and ksem_post are empty: such a call has no
    return value, which is a [Fault] once the caller uses it. *)

From stdpp Require Import base list gmap strings numbers.
From Stdlib Require Import ZArith Lia.
From S2P Require Import Prelude Kstate.
Open Scope Z_scope.

Definition NKSYNC : Z := 64.

Definition ensureinit : K unit :=
  i ← gets k_oinit;
  when (negb i) (modify (fun s => s <| k_oinit := true |>)).

Definition create (kind value : Z) : K Z :=
  ensureinit ;;
  acquire LKsync ;;
  objs ← gets k_objs;
  match find_idx (fun o => o_used o =? 0) objs with
  | Some i =>
    modify (fun s => s <| k_objs := <[i := mk_kobj 1 kind value 0]> objs |>) ;;
    release LKsync ;;
    ret (Z.of_nat i)
  | None => release LKsync ;; ret (-1)
  end.

Definition no_return_value : K Z := fault "control reaches the end of a non-void function".
Definition ksem_create (value : Z) : K Z := no_return_value.
Definition ksem_wait (id : Z) : K Z := no_return_value.
Definition ksem_post (id : Z) : K Z := no_return_value.
