(* ===== verification/Sysproc.v ===== *)
(** The process system calls, sysproc.c. *)

From stdpp Require Import base list gmap strings numbers.
From Stdlib Require Import ZArith Lia.
From S2P Require Import Prelude Bytes Kstate Mmu Sched Proc Args Ksync.
Open Scope Z_scope.

Definition sys_fork : K Z := fork.
Definition sys_exit : K Z := exit.
Definition sys_wait : K Z := wait.

Definition sys_kill : K Z :=
  o ← argint 0;
  match o with None => ret (-1) | Some pid => kill pid end.

Definition sys_getpid : K Z := mypid.

Definition sys_sbrk : K Z :=
  o ← argint 0;
  match o with
  | None => ret (-1)
  | Some n =>
    me ← curproc;
    p ← proc_at me;
    r ← growproc n;
    if r <? 0 then ret (-1) else ret (s32 (p_sz p))
  end.

(** One pass of the loop of sys_sleep. *)
Definition sys_sleep_from (ticks0 n : Z) : K Z :=
  t ← gets k_ticks;
  if u32 (t - ticks0) <? u32 n then
    me ← curproc; p ← proc_at me;
    if negb (p_killed p =? 0) then release LTicks ;; ret (-1) else sleep ChTicks LTicks
  else release LTicks ;; ret 0.

Definition sys_sleep : K Z :=
  o ← argint 0;
  match o with
  | None => ret (-1)
  | Some n =>
    acquire LTicks ;;
    ticks0 ← gets k_ticks;
    sys_sleep_from ticks0 n
  end.

Definition sys_uptime : K Z :=
  acquire LTicks ;;
  xticks ← gets k_ticks;
  release LTicks ;;
  ret (s32 xticks).

Definition sys_clone : K Z :=
  f ← argint 0;
  match f with None => ret (-1) | Some f =>
  a ← argint 1;
  match a with None => ret (-1) | Some a =>
  st ← argint 2;
  match st with None => ret (-1) | Some st => clone (u32 f) (u32 a) (u32 st) end end end.

Definition sys_join : K Z :=
  w ← argint 0;
  match w with None => ret (-1) | Some wanted =>
  p ← argptr 1 4;
  match p with None => ret (-1) | Some p => join wanted (if p =? 0 then None else Some p) end end.

Definition sys_thread_exit : K Z := thread_exit.

Definition sys_randconfig : K Z :=
  s ← argint 0;
  match s with None => ret (-1) | Some seed =>
  p ← argint 1;
  match p with None => ret (-1) | Some pct => random_config (u32 seed) pct ;; ret 0 end end.

Definition sys_yield : K Z := yield.

(** klock_create, klock_acquire and klock_release are declared in defs.h and
    defined in no file of the repository: they are arguments. *)
Definition sys_lock_create (klock_create : K Z) : K Z := klock_create.
Definition sys_lock_acquire (klock_acquire : Z -> K Z) : K Z :=
  o ← argint 0;
  match o with None => ret (-1) | Some id => klock_acquire id end.
Definition sys_lock_release (klock_release : Z -> K Z) : K Z :=
  o ← argint 0;
  match o with None => ret (-1) | Some id => klock_release id end.

Definition sys_sem_create : K Z :=
  o ← argint 0;
  match o with None => ret (-1) | Some v => ksem_create v end.
Definition sys_sem_wait : K Z :=
  o ← argint 0;
  match o with None => ret (-1) | Some id => ksem_wait id end.
Definition sys_sem_post : K Z :=
  o ← argint 0;
  match o with None => ret (-1) | Some id => ksem_post id end.
