(* ===== verification/Exec.v ===== *)
(** exec, exec.c, with the ELF structures of elf.h. *)

From stdpp Require Import base list gmap strings numbers.
From Stdlib Require Import ZArith Lia.
From S2P Require Import Prelude Bytes CString Itoa Kstate Mmu Cons Kalloc Sched Bio Log Inode Fsdata.
From S2P Require Import Vm Proc.
Open Scope Z_scope.

(** elf.h *)
Definition ELF_MAGIC : Z := 0x464C457F.
Definition ELF_PROG_LOAD : Z := 1.
Definition sizeof_elfhdr : Z := 52.
Definition sizeof_proghdr : Z := 32.

(** The fields of struct elfhdr and struct proghdr that exec reads. *)
Definition elf_magic (e : list Z) : Z := rd32 e 0.
Definition elf_entry (e : list Z) : Z := rd32 e 24.
Definition elf_phoff (e : list Z) : Z := rd32 e 28.
Definition elf_phnum (e : list Z) : Z := rd16 e 44.
Definition ph_type (p : list Z) : Z := rd32 p 0.
Definition ph_off (p : list Z) : Z := rd32 p 4.
Definition ph_vaddr (p : list Z) : Z := rd32 p 8.
Definition ph_filesz (p : list Z) : Z := rd32 p 16.
Definition ph_memsz (p : list Z) : Z := rd32 p 20.

(** Load program into memory: [n] headers are left, the next at [off]; the
    result is the size of the image, [None] is goto bad. *)
Fixpoint load_segments (n : nat) (ip : nat) (pgdir off sz : Z) : K (option Z) :=
  match n with
  | O => ret (Some sz)
  | S n' =>
    '(r, ph) ← readi ip (u32 off) sizeof_proghdr;
    if negb (r =? sizeof_proghdr) then ret None else
    if negb (ph_type ph =? ELF_PROG_LOAD) then
      load_segments n' ip pgdir (s32 (off + sizeof_proghdr)) sz else
    if ph_memsz ph <? ph_filesz ph then ret None else
    if u32 (ph_vaddr ph + ph_memsz ph) <? ph_vaddr ph then ret None else
    sz' ← allocuvm pgdir sz (u32 (ph_vaddr ph + ph_memsz ph));
    if sz' =? 0 then ret None else
    if negb (ph_vaddr ph mod PGSIZE =? 0) then ret None else
    l ← loaduvm pgdir (ph_vaddr ph) ip (ph_off ph) (ph_filesz ph);
    if l <? 0 then ret None else
    load_segments n' ip pgdir (s32 (off + sizeof_proghdr)) sz'
  end.

(** Push the argument strings: the addresses of those pushed (ustack[3..])
    and the stack pointer; [argc] strings have been pushed before. *)
Fixpoint push_args (pgdir : Z) (argv : list (list Z)) (argc sp : Z) (ustack : list Z) :
    K (option (Z * list Z)) :=
  match argv with
  | [] => ret (Some (sp, ustack))
  | a :: argv' =>
    if MAXARG <=? argc then ret None else
    let len := Z.of_nat (length a) + 1 in
    let sp := Z.land (u32 (sp - len)) (not32 3) in
    r ← copyout pgdir sp (a ++ [0]) len;
    if r <? 0 then ret None else
    push_args pgdir argv' (argc + 1) sp (ustack ++ [sp])
  end.

(** The name after the last slash. *)
Fixpoint last_elem (path last : list Z) : list Z :=
  match path with
  | [] => last
  | c :: path' => if c =? 47 then last_elem path' path' else last_elem path' last
  end.

(** The code at label bad. *)
Definition exec_bad (pgdir : Z) (ip : option nat) : K Z :=
  (if pgdir =? 0 then ret tt else freevm pgdir) ;;
  match ip with Some i => iunlockput i ;; end_op | None => ret tt end ;;
  ret (-1).

(** exec after the program has been loaded: the stack, the arguments and the
    commitment to the new image. *)
Definition exec_commit (path : list Z) (argv : list (list Z)) (pgdir sz entry : Z) : K Z :=
  me ← curproc;
  let sz := PGROUNDUP sz in
  sz ← allocuvm pgdir sz (u32 (sz + 2 * PGSIZE));
  if sz =? 0 then exec_bad pgdir None else
  clearpteu pgdir (u32 (sz - 2 * PGSIZE)) ;;
  o ← push_args pgdir argv 0 sz [];
  match o with
  | None => exec_bad pgdir None
  | Some (sp, addrs) =>
    let argc := Z.of_nat (length argv) in
    let ustack := [0xffffffff; argc; u32 (sp - (argc + 1) * 4)] ++ addrs ++ [0] in
    let sp := u32 (sp - (3 + argc + 1) * 4) in
    r ← copyout pgdir sp (concat (le_bytes 4 <$> ustack)) ((3 + argc + 1) * 4);
    if r <? 0 then exec_bad pgdir None else
    upd_proc me (set_name (last_elem path path)) ;;
    p ← proc_at me;
    upd_proc me (fun p => p <| p_pgdir := pgdir |> <| p_sz := sz |>
                            <| p_tf := (p_tf p) <| tf_eip := entry |> <| tf_esp := sp |> |>) ;;
    switchuvm me ;;
    freevm (p_pgdir p) ;;
    ret 0
  end.

Definition exec (path : list Z) (argv : list (list Z)) : K Z :=
  begin_op ;;
  o ← namei path;
  match o with
  | None =>
    end_op ;;
    cprintf (str "exec: fail" ++ [10]) [] ;;
    ret (-1)
  | Some ip =>
    ilock ip ;;
    '(r, elf) ← readi ip 0 sizeof_elfhdr;
    if negb (r =? sizeof_elfhdr) then exec_bad 0 (Some ip) else
    if negb (elf_magic elf =? ELF_MAGIC) then exec_bad 0 (Some ip) else
    pgdir ← setupkvm;
    if pgdir =? 0 then exec_bad 0 (Some ip) else
    o ← load_segments (Z.to_nat (elf_phnum elf)) ip pgdir (s32 (elf_phoff elf)) 0;
    match o with
    | None => exec_bad pgdir (Some ip)
    | Some sz =>
      iunlockput ip ;;
      end_op ;;
      exec_commit path argv pgdir sz (elf_entry elf)
    end
  end.
