(* ===== verification/Sysfile.v ===== *)
(** The file system calls, sysfile.c. *)

From stdpp Require Import base list gmap strings numbers.
From Stdlib Require Import ZArith Lia.
From S2P Require Import Prelude Bytes CString Itoa Kstate Mmu Sched Bio Log Inode Fsdata.
From S2P Require Import Pipe File Vm Proc Args Exec.
Open Scope Z_scope.

(** The descriptor and the struct file; [None] is -1. *)
Definition argfd (n : Z) : K (option (nat * nat)) :=
  o ← argint n;
  match o with
  | None => ret None
  | Some fd =>
    if (fd <? 0) || (NOFILE <=? fd) then ret None else
    me ← curproc;
    p ← proc_at me;
    f ← of_opt "ofile" (p_ofile p !! Z.to_nat fd);
    ret ((fun f => (Z.to_nat fd, f)) <$> f)
  end.

Definition fdalloc (f : nat) : K Z :=
  me ← curproc;
  p ← proc_at me;
  match find_idx (fun o => bool_decide (o = None)) (p_ofile p) with
  | Some fd =>
    upd_proc me (fun p => p <| p_ofile := <[fd := Some f]> (p_ofile p) |>) ;;
    ret (Z.of_nat fd)
  | None => ret (-1)
  end.

Definition sys_dup : K Z :=
  o ← argfd 0;
  match o with
  | None => ret (-1)
  | Some (_, f) =>
    fd ← fdalloc f;
    if fd <? 0 then ret (-1) else filedup f ;; ret fd
  end.

Definition sys_read : K Z :=
  o ← argfd 0;
  match o with None => ret (-1) | Some (_, f) =>
  n ← argint 2;
  match n with None => ret (-1) | Some n =>
  p ← argptr 1 n;
  match p with None => ret (-1) | Some p =>
    '(r, bs) ← fileread f n;
    ustore_bytes p bs ;;
    ret r
  end end end.

(** The bytes at a user address. *)
Fixpoint uload_bytes (va : Z) (n : nat) : K (list Z) :=
  match n with
  | O => ret []
  | S n' => b ← uload8 va; bs ← uload_bytes (u32 (va + 1)) n'; ret (b :: bs)
  end.

Definition sys_write : K Z :=
  o ← argfd 0;
  match o with None => ret (-1) | Some (_, f) =>
  n ← argint 2;
  match n with None => ret (-1) | Some n =>
  p ← argptr 1 n;
  match p with None => ret (-1) | Some p =>
    bs ← uload_bytes p (Z.to_nat n);
    filewrite f bs n
  end end end.

Definition sys_close : K Z :=
  o ← argfd 0;
  match o with
  | None => ret (-1)
  | Some (fd, f) =>
    me ← curproc;
    upd_proc me (fun p => p <| p_ofile := <[fd := None]> (p_ofile p) |>) ;;
    fileclose f ;;
    ret 0
  end.

(** stati's stores to a struct stat at user address [p]: type at 0, dev at 4, ino at 8,
    nlink at 12, size at 16; the compiler's padding is not written. *)
Definition store_stat (p : Z) (st : stat) : K unit :=
  ustore32 (u32 (p + 4)) (st_dev st) ;;
  ustore32 (u32 (p + 8)) (st_ino st) ;;
  ustore_bytes p (le_bytes 2 (st_type st)) ;;
  ustore_bytes (u32 (p + 12)) (le_bytes 2 (st_nlink st)) ;;
  ustore32 (u32 (p + 16)) (st_size st).

Definition sys_fstat : K Z :=
  o ← argfd 0;
  match o with None => ret (-1) | Some (_, f) =>
  p ← argptr 1 20;
  match p with None => ret (-1) | Some p =>
    '(r, st) ← filestat f;
    match st with Some st => store_stat p st | None => ret tt end ;;
    ret r
  end end.

(** The code at label bad of sys_link. *)
Definition link_bad (ip : nat) : K Z :=
  ilock ip ;;
  upd_inode ip (fun x => x <| i_nlink := s16 (i_nlink x - 1) |>) ;;
  iupdate ip ;;
  iunlockput ip ;;
  end_op ;;
  ret (-1).

Definition sys_link : K Z :=
  old ← argstr 0;
  match old with None => ret (-1) | Some old =>
  new ← argstr 1;
  match new with None => ret (-1) | Some new =>
  begin_op ;;
  o ← namei old;
  match o with
  | None => end_op ;; ret (-1)
  | Some ip =>
    ilock ip ;;
    x ← inode_at ip;
    if i_type x =? T_DIR then iunlockput ip ;; end_op ;; ret (-1) else
    upd_inode ip (fun x => x <| i_nlink := s16 (i_nlink x + 1) |>) ;;
    iupdate ip ;;
    iunlock ip ;;
    o ← nameiparent new;
    match o with
    | None => link_bad ip
    | Some (dp, name) =>
      ilock dp ;;
      d ← inode_at dp;
      x ← inode_at ip;
      r ← (if negb (i_dev d =? i_dev x) then ret (-1) else dirlink dp name (i_inum x));
      if r <? 0 then iunlockput dp ;; link_bad ip else
      iunlockput dp ;;
      iput ip ;;
      end_op ;;
      ret 0
    end
  end end end.

Fixpoint isdirempty_loop (offs : list Z) (dp : nat) : K bool :=
  match offs with
  | [] => ret true
  | off :: offs' =>
    '(r, de) ← readi dp off DIRENT;
    if negb (r =? DIRENT) then panic "isdirempty: readi" else
    if negb (de_inum de =? 0) then ret false else isdirempty_loop offs' dp
  end.

Definition isdirempty (dp : nat) : K bool :=
  d ← inode_at dp; isdirempty_loop (dir_offs (2 * DIRENT) (i_size d)) dp.

(** The code at label bad of sys_unlink. *)
Definition unlink_bad (dp : nat) : K Z := iunlockput dp ;; end_op ;; ret (-1).

Definition sys_unlink : K Z :=
  path ← argstr 0;
  match path with None => ret (-1) | Some path =>
  begin_op ;;
  o ← nameiparent path;
  match o with
  | None => end_op ;; ret (-1)
  | Some (dp, name) =>
    ilock dp ;;
    if (namecmp name (str ".") =? 0) || (namecmp name (str "..") =? 0) then unlink_bad dp else
    o ← dirlookup dp name;
    match o with
    | None => unlink_bad dp
    | Some (ip, off) =>
      ilock ip ;;
      x ← inode_at ip;
      if i_nlink x <? 1 then panic "unlink: nlink < 1" else
      e ← (if i_type x =? T_DIR then isdirempty ip else ret true);
      if negb e then iunlockput ip ;; unlink_bad dp else
      w ← writei dp (replicate (Z.to_nat DIRENT) 0) off DIRENT;
      if negb (w =? DIRENT) then panic "unlink: writei" else
      when (i_type x =? T_DIR)
        (upd_inode dp (fun d => d <| i_nlink := s16 (i_nlink d - 1) |>) ;; iupdate dp) ;;
      iunlockput dp ;;
      upd_inode ip (fun x => x <| i_nlink := s16 (i_nlink x - 1) |>) ;;
      iupdate ip ;;
      iunlockput ip ;;
      end_op ;;
      ret 0
    end
  end end.

(** On success the inode is returned locked. *)
Definition create (path : list Z) (type major minor : Z) : K (option nat) :=
  o ← nameiparent path;
  match o with
  | None => ret None
  | Some (dp, name) =>
    ilock dp ;;
    o ← dirlookup dp name;
    match o with
    | Some (ip, _) =>
      iunlockput dp ;;
      ilock ip ;;
      x ← inode_at ip;
      if (type =? T_FILE) && (i_type x =? T_FILE) then ret (Some ip) else
      iunlockput ip ;;
      ret None
    | None =>
      d ← inode_at dp;
      ip ← ialloc (i_dev d) type;
      ilock ip ;;
      upd_inode ip (fun x => x <| i_major := s16 major |> <| i_minor := s16 minor |>
                               <| i_nlink := 1 |>) ;;
      iupdate ip ;;
      when (type =? T_DIR)
        (upd_inode dp (fun d => d <| i_nlink := s16 (i_nlink d + 1) |>) ;;
         iupdate dp ;;
         x ← inode_at ip;
         r ← dirlink ip (str ".") (i_inum x);
         if r <? 0 then panic "create dots" else
         d ← inode_at dp;
         r ← dirlink ip (str "..") (i_inum d);
         if r <? 0 then panic "create dots" else ret tt) ;;
      x ← inode_at ip;
      r ← dirlink dp name (i_inum x);
      if r <? 0 then panic "create: dirlink" else
      iunlockput dp ;;
      ret (Some ip)
    end
  end.

(** The inode sys_open opens, locked; [None] once end_op has been called. *)
Definition open_inode (path : list Z) (omode : Z) : K (option nat) :=
  if negb (Z.land omode O_CREATE =? 0) then
    o ← create path T_FILE 0 0;
    match o with None => end_op ;; ret None | Some ip => ret (Some ip) end
  else
    o ← namei path;
    match o with
    | None => end_op ;; ret None
    | Some ip =>
      ilock ip ;;
      x ← inode_at ip;
      if (i_type x =? T_DIR) && negb (omode =? O_RDONLY)
      then iunlockput ip ;; end_op ;; ret None
      else ret (Some ip)
    end.

Definition sys_open : K Z :=
  path ← argstr 0;
  match path with None => ret (-1) | Some path =>
  om ← argint 1;
  match om with None => ret (-1) | Some omode =>
  begin_op ;;
  o ← open_inode path omode;
  match o with
  | None => ret (-1)
  | Some ip =>
    f ← filealloc;
    fd ← match f with Some f => fdalloc f | None => ret (-1) end;
    match f with
    | Some f =>
      if fd <? 0 then fileclose f ;; iunlockput ip ;; end_op ;; ret (-1) else
      iunlock ip ;;
      end_op ;;
      upd_file f (fun x => x <| f_type := FD_INODE |> <| f_ip := Some ip |> <| f_off := 0 |>
        <| f_readable := if Z.land omode O_WRONLY =? 0 then 1 else 0 |>
        <| f_writable := if (Z.land omode O_WRONLY =? 0) && (Z.land omode O_RDWR =? 0) then 0 else 1 |>) ;;
      ret fd
    | None => iunlockput ip ;; end_op ;; ret (-1)
    end
  end end end.

Definition sys_mkdir : K Z :=
  begin_op ;;
  path ← argstr 0;
  o ← match path with Some path => create path T_DIR 0 0 | None => ret None end;
  match o with
  | None => end_op ;; ret (-1)
  | Some ip => iunlockput ip ;; end_op ;; ret 0
  end.

Definition sys_mknod : K Z :=
  begin_op ;;
  path ← argstr 0;
  o ← match path with
      | None => ret None
      | Some path =>
        major ← argint 1;
        match major with
        | None => ret None
        | Some major =>
          minor ← argint 2;
          match minor with
          | None => ret None
          | Some minor => create path T_DEV (s16 major) (s16 minor)
          end
        end
      end;
  match o with
  | None => end_op ;; ret (-1)
  | Some ip => iunlockput ip ;; end_op ;; ret 0
  end.

Definition sys_chdir : K Z :=
  me ← curproc;
  begin_op ;;
  path ← argstr 0;
  o ← match path with Some path => namei path | None => ret None end;
  match o with
  | None => end_op ;; ret (-1)
  | Some ip =>
    ilock ip ;;
    x ← inode_at ip;
    if negb (i_type x =? T_DIR) then iunlockput ip ;; end_op ;; ret (-1) else
    iunlock ip ;;
    p ← proc_at me;
    cwd ← of_opt "cwd" (p_cwd p);
    iput cwd ;;
    end_op ;;
    upd_proc me (fun p => p <| p_cwd := Some ip |>) ;;
    ret 0
  end.

(** for(i=0;; i++): [n] entries of argv[MAXARG] are left. *)
Fixpoint exec_args (n : nat) (uargv i : Z) : K (option (list (list Z))) :=
  match n with
  | O => ret None
  | S n' =>
    u ← fetchint (u32 (uargv + 4 * i));
    match u with
    | None => ret None
    | Some uarg =>
      if uarg =? 0 then ret (Some []) else
      a ← fetchstr (u32 uarg);
      match a with
      | None => ret None
      | Some a => rest ← exec_args n' uargv (i + 1); ret ((fun l => a :: l) <$> rest)
      end
    end
  end.

Definition sys_exec : K Z :=
  path ← argstr 0;
  match path with None => ret (-1) | Some path =>
  u ← argint 1;
  match u with None => ret (-1) | Some uargv =>
  argv ← exec_args (Z.to_nat MAXARG) (u32 uargv) 0;
  match argv with None => ret (-1) | Some argv => exec path argv end end end.

(** fd0 and fd1 of sys_pipe, -1 when there is no free descriptor. *)
Definition sys_pipe : K Z :=
  p ← argptr 0 8;
  match p with None => ret (-1) | Some p =>
  o ← pipealloc;
  match o with
  | None => ret (-1)
  | Some (rf, wf) =>
    fd0 ← fdalloc rf;
    fd1 ← (if fd0 <? 0 then ret (-1) else fdalloc wf);
    if (fd0 <? 0) || (fd1 <? 0) then
      me ← curproc;
      when (0 <=? fd0)
        (upd_proc me (fun p => p <| p_ofile := <[Z.to_nat fd0 := None]> (p_ofile p) |>)) ;;
      fileclose rf ;;
      fileclose wf ;;
      ret (-1)
    else
    ustore32 p fd0 ;;
    ustore32 (u32 (p + 4)) fd1 ;;
    ret 0
  end end.
