(* ===== verification/Open.v ===== *)
(** The open system call on an existing file, from the path in the memory of the process to the new
    descriptor: the arguments, path lookup, inode cache, file table and log together. *)

From stdpp Require Import base list gmap sets fin_sets strings numbers.
From Stdlib Require Import ZArith Lia.
From S2P Require Import Prelude Bytes CString Kstate Mmu Cons Sched Bio Bcache Log Commit Inode Fsblock Console.
From S2P Require Import Fsdata Fsfile Fsinode File Fsop Filerw Directory Namei Vm Proc Args Argsafe Sysfile.
Open Scope Z_scope.

(** ** Steps that leave the file system alone *)

(** The string argument [n]. *)
Definition arg_string (p : proc) (f : Z -> Z) (n : Z) : option (list Z) :=
  a ← arg_word p f n; if p_sz p <=? u32 a then None else ustring f (Z.to_nat (p_sz p - u32 a)) (u32 a).

Lemma wp_argstr s me p f n (Q : option (list Z) -> kstate -> Prop) : user_mem s me p f -> Q (arg_string p f n) s -> wp (argstr n) Q s.
Proof.
  intros Hm HQ. unfold argstr, arg_string in *. wp_steps. apply (wp_argint s me p f Hm). destruct (arg_word p f n) as [a|]; cbn in HQ; wp_steps; [|done].
  unfold fetchstr. wp_steps. apply (wp_curproc me); [apply Hm|]. wp_steps. apply (wp_proc_at me p); [apply Hm|].
  assert (0 <= u32 a < 4294967296) as Ha by (unfold u32; div_lia). apply wp_if; intros E; rewrite E in HQ; [now wp_steps|].
  apply (wp_fetchstr_loop s me p f Hm); [lia|lia|done].
Qed.

Section steps.
Context (s0 : kstate) (me : nat) (p : proc) (s : kstate) (l : logst) (ic : list inode) (v : bview).
Hypothesis Henv : kenv s0 me p.
Hypothesis Hs : fss s0 s l ic v.

(** end_op of a transaction that has logged nothing. *)
Lemma wp_end_op_empty start (Q : unit -> kstate -> Prop) : log_open l start [] ->
  (forall s', let l' := l <| l_outstanding := 0 |> in fss (s0 <| k_log := l' |>) s' l' ic v -> Q tt s') -> wp end_op Q s.
Proof.
  intros ((L1 & L2 & L3 & _) & L4 & L5 & L6 & L7) HQ. cbn in L3. pose proof (fss_env s0 me p Henv s l ic v Hs) as (_ & _ & _ & Hh).
  assert (k_log s = l) as El by (destruct Hs as [(bs & ps & -> & _) _]; done). unfold end_op, upd_log. wp_steps.
  apply wp_acquire; [rewrite Hh; set_solver|]. wp_steps. cbn [k_log setf set_k_log set_k_held l_committing l_outstanding set_l_outstanding]. rewrite El, L6, L5.
  change (negb (0 =? 0)) with false. change (1 - 1 =? 0) with true. cbn beta iota. wp_steps. eapply wp_release_head; [cbn; now rewrite Hh|].
  apply wp_when; [intros _|done]. unfold commit. wp_steps. cbn [k_log lh_n setf set_k_log set_k_held set_l_committing set_l_outstanding].
  rewrite L3. apply wp_when; [done|intros _]. wp_steps. apply wp_acquire; [cbn; set_solver|]. wp_steps. apply wp_wakeup; [cbn; set_solver|]. wp_steps.
  eapply wp_release_head; [reflexivity|]. apply HQ. destruct Hs as [(bs & ps & -> & Hw) Hinv]. split; [|exact Hinv].
  exists bs, (wake ChLog <$> ps). split; [|eapply woken_trans; [exact Hw|apply woken_wake]]. clear -Hh L6. destruct s0, l. cbn in *. now subst.
Qed.

Definition free_file (x : file) : bool := f_ref x =? 0.

Lemma wp_filealloc (Q : option nat -> kstate -> Prop) :
  match find_idx free_file (k_files s0) with
  | None => Q None s
  | Some i => forall x s', k_files s0 !! i = Some x -> let fs := <[i := x <| f_ref := 1 |>]> (k_files s0) in fss (s0 <| k_files := fs |>) s' l ic v -> Q (Some i) s'
  end -> wp filealloc Q s.
Proof.
  intros HQ. pose proof (fss_env s0 me p Henv s l ic v Hs) as (_ & _ & _ & Hh). pose proof (fss_files_eq _ _ _ _ _ Hs) as Hf.
  unfold filealloc. wp_steps. apply wp_acquire; [rewrite Hh; set_solver|]. wp_steps. cbn [k_files setf set_k_held]. rewrite Hf.
  change (fun f => f_ref f =? 0) with free_file. destruct (find_idx free_file (k_files s0)) as [i|] eqn:E.
  - apply find_idx_Some in E as [(x & Hx & _) _]. wp_steps. apply (wp_upd_file i _ x); [cbn; now rewrite Hf|]. wp_steps.
    eapply wp_release_head; [cbn; now rewrite Hh|]. wp_steps. apply (HQ x); [done|]. pose proof (fss_files s0 s l ic v (<[i := x <| f_ref := 1 |>]> (k_files s0)) Hs) as H.
    match goal with |- fss _ ?y _ _ _ => replace y with (s <| k_files := <[i := x <| f_ref := 1 |>]> (k_files s0) |>); [exact H|] end.
    rewrite <- Hf. clear -Hh. destruct s. cbn in *. now subst.
  - wp_steps. eapply wp_release_head; [cbn; now rewrite Hh|]. wp_steps.
    match goal with |- Q None ?y => replace y with s; [done|] end. clear -Hh. destruct s. cbn in *. now subst.
Qed.

Lemma woken_insert ps ps' i x : woken ps ps' -> woken (<[i := x]> ps) (<[i := x]> ps').
Proof. intros H. apply Forall2_insert; [exact H|now left]. Qed.

(** A change of the running process itself. *)
Lemma fss_me p' : p_state p' = RUNNING ->
  let s0' := s0 <| k_procs := <[me := p']> (k_procs s0) |> in
  kenv s0' me p' /\ fss s0' (s <| k_procs := <[me := p']> (k_procs s) |>) l ic v.
Proof.
  intros Hr. pose proof Henv as (Hc & Hp & _ & Hh). split.
  - split; [done|]. split; [|done]. cbn. apply list_lookup_insert_eq. now apply lookup_lt_Some in Hp.
  - destruct Hs as [(bs & ps & -> & Hw) Hinv]. split; [|exact Hinv]. exists bs, (<[me := p']> ps). split; [done|]. now apply woken_insert.
Qed.

Definition free_fd (o : option nat) : bool := bool_decide (o = None).
Definition with_fd (fd f : nat) (q : proc) : proc := q <| p_ofile := <[fd := Some f]> (p_ofile q) |>.

Lemma wp_fdalloc f (Q : Z -> kstate -> Prop) :
  match find_idx free_fd (p_ofile p) with
  | None => Q (-1) s
  | Some fd => forall s', let s0' := s0 <| k_procs := <[me := with_fd fd f p]> (k_procs s0) |> in
      kenv s0' me (with_fd fd f p) -> fss s0' s' l ic v -> Q (Z.of_nat fd) s'
  end -> wp (fdalloc f) Q s.
Proof.
  intros HQ. pose proof (fss_env s0 me p Henv s l ic v Hs) as (Hc & Hp & Hr & _). unfold fdalloc. wp_steps.
  apply (wp_curproc me); [done|]. wp_steps. apply (wp_proc_at me p); [done|]. change (fun o => bool_decide (o = None)) with free_fd.
  destruct (find_idx free_fd (p_ofile p)) as [fd|]; wp_steps; [|done]. apply (wp_upd_proc me _ p); [done|]. wp_steps.
  destruct (fss_me (with_fd fd f p) Hr) as [H1 H2]. now apply HQ.
Qed.

(** fileclose of a file that filealloc has just returned. *)
Lemma wp_fileclose_fresh i x (Q : unit -> kstate -> Prop) : k_files s0 !! i = Some x -> f_ref x = 1 -> f_type x = FD_NONE ->
  (forall s', fss (s0 <| k_files := <[i := x <| f_ref := 0 |>]> (k_files s0) |>) s' l ic v -> Q tt s') -> wp (fileclose i) Q s.
Proof.
  intros Hx Hr Ht HQ. pose proof (fss_env s0 me p Henv s l ic v Hs) as (_ & _ & _ & Hh). pose proof (fss_files_eq _ _ _ _ _ Hs) as Hf.
  assert (i < length (k_files s0))%nat as Hlt by now apply lookup_lt_Some in Hx. unfold fileclose. wp_steps.
  apply wp_acquire; [rewrite Hh; set_solver|]. wp_steps. apply (wp_file_at i x); [cbn; now rewrite Hf|]. rewrite Hr. apply wp_if_false; [done|]. wp_steps.
  apply (wp_upd_file i _ x); [cbn; now rewrite Hf|]. wp_steps. eapply wp_file_at; [cbn; rewrite Hf; now apply list_lookup_insert_eq|]. cbn [f_ref setf set_f_ref].
  rewrite Hr. apply wp_if_false; [done|]. wp_steps. eapply wp_upd_file; [cbn; rewrite Hf; now apply list_lookup_insert_eq|]. wp_steps.
  eapply wp_release_head; [cbn; now rewrite Hh|]. cbn [f_type setf set_f_ref]. rewrite Ht. wp_steps. apply HQ.
  pose proof (fss_files s0 s l ic v (<[i := x <| f_ref := 0 |>]> (k_files s0)) Hs) as H.
  match goal with |- fss _ ?y _ _ _ => replace y with (s <| k_files := <[i := x <| f_ref := 0 |>]> (k_files s0) |>); [exact H|] end.
  cbn [k_files setf set_k_held set_k_files]. rewrite Hf, list_insert_insert_eq. clear -Hh Ht. destruct s, x. cbn in *. now subst.
Qed.
End steps.

(** ** sys_open *)

(** A process that calls open(path, omode), without O_CREATE, while no one else uses the file system; [f] is
    its memory and [n] the inode the path starts from. *)
Record opener (s : kstate) (me : nat) (p : proc) (v : bview) (start : Z) (f : Z -> Z) (path : list Z) (omode n : Z) : Prop := {
  on_idle : fs_idle s me p v start;
  on_layout : layout (k_sb s) start;
  on_tree : tree_ok (k_sb s) (v_data v);
  on_cache : cache_ok (k_sb s) (v_data v) (p_pid p) None (k_icache s);
  on_free : two_free (refs (k_icache s));
  on_files : forall i x, k_files s !! i = Some x -> f_ref x = 0 -> f_type x = FD_NONE;
  on_mem : user_mem s me p f;
  on_path : arg_string p f 0 = Some path;
  on_mode : arg_word p f 1 = Some omode;
  on_nocreate : Z.land omode O_CREATE = 0;
  on_start : path_start p (k_icache s) path n
}.

(** The inode that is opened, and the slot of the file table and the descriptor it gets. *)
Definition open_target (s : kstate) (p : proc) (D : Z -> list Z) (path : list Z) (omode n : Z) : option (Z * nat * nat) :=
  m ← resolve (k_sb s) D n (path_elems path);
  if (i_type (disk_inode (k_sb s) D m) =? T_DIR) && negb (omode =? O_RDONLY) then None else
  fl ← find_idx free_file (k_files s);
  fd ← find_idx free_fd (p_ofile p);
  Some (m, fl, fd).

(** The open file. *)
Definition open_file (ip : nat) (omode : Z) (x : file) : file :=
  x <| f_ref := 1 |> <| f_type := FD_INODE |> <| f_ip := Some ip |> <| f_off := 0 |>
    <| f_readable := if Z.land omode O_WRONLY =? 0 then 1 else 0 |>
    <| f_writable := if (Z.land omode O_WRONLY =? 0) && (Z.land omode O_RDWR =? 0) then 0 else 1 |>.

Section open.
Context (s : kstate) (me : nat) (p : proc) (v : bview) (start : Z) (f : Z -> Z) (path : list Z) (omode n : Z).
Hypothesis Ho : opener s me p v start f path omode n.
Abbreviation b := (begun s).
Abbreviation lb := (k_log (begun s)).
Abbreviation cok := (cache_ok (k_sb s) (v_data v) (p_pid p)).
Abbreviation rs := (refs (k_icache s)).

Lemma begun_end fs ps q s1 ic (Q : unit -> kstate -> Prop) : let b' := b <| k_files := fs |> <| k_procs := ps |> in
  kenv b' me q -> fss b' s1 lb ic v ->
  (forall s', fss (s <| k_files := fs |> <| k_procs := ps |>) s' (k_log s) ic v -> Q tt s') -> wp end_op Q s1.
Proof.
  intros b' He Hs HQ. pose proof (on_idle _ _ _ _ _ _ _ _ _ Ho) as Hi. pose proof (fi_log _ _ _ _ _ Hi) as (_ & _ & _ & Hz & _).
  apply (wp_end_op_empty b' me q s1 lb ic v He Hs start); [exact (tl_open _ _ _ _ (begun_txl s me p v start Hi))|].
  intros s' l' Hs'. apply HQ. assert (l' = k_log s) as El by (unfold l', begun; cbn; destruct (k_log s); cbn in *; now subst).
  rewrite El in Hs'. replace (s <| k_files := fs |> <| k_procs := ps |>) with (b' <| k_log := k_log s |>); [exact Hs'|]. unfold b', begun. now destruct s.
Qed.

(** The ways open fails: -1, and no reference is left. *)
Definition open_failed (r : Z) (s' : kstate) : Prop := r = -1 /\ exists ic, cok None ic /\ refs ic = rs /\ fss s s' (k_log s) ic v.

Lemma begun_same : b <| k_files := k_files s |> <| k_procs := k_procs s |> = b /\ s <| k_files := k_files s |> <| k_procs := k_procs s |> = s.
Proof. unfold begun. now destruct s. Qed.

Lemma open_fail s1 ic (Q : unit -> kstate -> Prop) : fss b s1 lb ic v -> cok None ic -> refs ic = rs ->
  (forall s', open_failed (-1) s' -> Q tt s') -> wp end_op Q s1.
Proof.
  intros Hs Hc Hr HQ. pose proof (begun_env s me p v start (on_idle _ _ _ _ _ _ _ _ _ Ho)) as He. destruct begun_same as [E1 E2].
  apply (begun_end (k_files s) (k_procs s) p s1 ic); [now rewrite E1|now rewrite E1|]. rewrite E2. intros s' Hs'. apply HQ. split; [done|]. now exists ic.
Qed.

(** A new descriptor [fd] for the slot [fl] of the file table, which refers to the inode [m]. *)
Definition open_succeeded (m : Z) (fl fd : nat) (r : Z) (s' : kstate) : Prop :=
  r = Z.of_nat fd /\ exists j x ic, k_files s !! fl = Some x /\ cok None ic /\ inums ic !! j = Some m /\ refs ic = take_ref j rs /\
    fss (s <| k_files := <[fl := open_file j omode x]> (k_files s) |> <| k_procs := <[me := with_fd fd fl p]> (k_procs s) |>) s' (k_log s) ic v.

(** The inode is found and locked. *)
Section found.
Context (s1 : kstate) (ic : list inode) (j : nat) (ip : inode).
Hypothesis Hs1 : fss b s1 lb ic v.
Hypothesis Hc1 : cok (Some j) ic.
Hypothesis Hj : ic !! j = Some ip.
Hypothesis Href : 0 < i_ref ip.
Hypothesis Hrefs : refs ic = take_ref j rs.

(** Giving the inode up. *)
Lemma open_abandon {A} (k : K A) s2 (Q : A -> kstate -> Prop) : fss b s2 lb ic v -> (forall s', open_failed (-1) s' -> wp k Q s') ->
  wp (iunlockput j) (fun _ => wp (end_op ;; k) Q) s2.
Proof.
  intros Hs2 HQ. destruct Ho as [Hid Hlay Htr _ _ _ _ _ _ _ _].
  apply (wp_put_slot b me p lb v (begun_env s me p v start Hid) (quiet_in_use _ _ (fi_quiet _ _ _ _ _ Hid)) Htr s2 ic j ip); [done..|].
  intros s3 ic3 Hs3 Hc3 R3 _. wp_steps. apply (open_fail s3 ic3); [done|done|now rewrite R3, Hrefs, drop_take_same|done].
Qed.

Lemma open_close fl x s2 : k_files s !! fl = Some x -> f_ref x = 0 ->
  let x1 := x <| f_ref := 1 |> in let fs := <[fl := x1]> (k_files s) in
  fss (b <| k_files := fs |>) s2 lb ic v -> wp (fileclose fl ;; iunlockput j ;; end_op ;; ret (-1)) open_failed s2.
Proof.
  intros Hx Hr x1 fs Hs2. pose proof Ho as [Hid Hlay Htr _ _ Hfiles _ _ _ _ _]. assert (fl < length (k_files s))%nat as Hlt by now apply lookup_lt_Some in Hx.
  wp_steps. apply (wp_fileclose_fresh (b <| k_files := fs |>) me p s2 lb ic v) with (x := x1); [exact (begun_env s me p v start Hid)|done|now apply list_lookup_insert_eq|done|exact (Hfiles fl x Hx Hr)|].
  intros s3 Hs3. change (k_files (b <| k_files := fs |>)) with fs in Hs3. unfold fs in Hs3. rewrite list_insert_insert_eq in Hs3.
  replace (x1 <| f_ref := 0 |>) with x in Hs3 by (unfold x1; destruct x; cbn in *; now subst). rewrite (list_insert_id (k_files s) fl x Hx) in Hs3.
  replace (b <| k_files := <[fl := x1]> (k_files s) |> <| k_files := k_files s |>) with b in Hs3 by (unfold begun; now destruct s).
  wp_steps. apply open_abandon; [done|]. intros s4 H4. now wp_steps.
Qed.

(** filealloc, fdalloc and the rest of sys_open. *)
Lemma wp_open_rest m : inums ic !! j = Some m ->
  wp (f ← filealloc;
      fd ← match f with Some f => fdalloc f | None => ret (-1) end;
      match f with
      | Some f =>
        if fd <? 0 then fileclose f ;; iunlockput j ;; end_op ;; ret (-1) else
        iunlock j ;;
        end_op ;;
        upd_file f (fun x => x <| f_type := FD_INODE |> <| f_ip := Some j |> <| f_off := 0 |>
          <| f_readable := if Z.land omode O_WRONLY =? 0 then 1 else 0 |>
          <| f_writable := if (Z.land omode O_WRONLY =? 0) && (Z.land omode O_RDWR =? 0) then 0 else 1 |>) ;;
        ret fd
      | None => iunlockput j ;; end_op ;; ret (-1)
      end)
    (match find_idx free_file (k_files s), find_idx free_fd (p_ofile p) with
     | Some fl, Some fd => open_succeeded m fl fd
     | _, _ => open_failed
     end) s1.
Proof.
  intros Hm. pose proof Ho as [Hid Hlay Htr _ _ Hfiles _ _ _ _ _]. pose proof (begun_env s me p v start Hid) as He. wp_steps.
  apply (wp_filealloc b me p s1 lb ic v He Hs1). change (k_files b) with (k_files s). destruct (find_idx free_file (k_files s)) as [fl|] eqn:Ef.
  2: { wp_steps. apply open_abandon; [done|]. intros s2 H2. now wp_steps. }
  apply find_idx_Some in Ef as [(x0 & Hx0 & Hfree) _]. apply Z.eqb_eq in Hfree. intros x s2 Hx fs Hs2. assert (x = x0) as -> by congruence. wp_steps.
  set (b1 := b <| k_files := fs |>) in *. apply (wp_fdalloc b1 me p s2 lb ic v He Hs2). destruct (find_idx free_fd (p_ofile p)) as [fd|].
  2: { apply wp_if_true; [done|]. now apply (open_close fl x0). }
  intros s3 b2 He2 Hs3. apply wp_if_false; [lia|]. wp_steps.
  apply (wp_unlock_slot b2 me (with_fd fd fl p) lb v He2 (quiet_in_use _ _ (fi_quiet _ _ _ _ _ Hid)) s3 ic j ip); [done..|].
  intros s4 ic4 Hs4 Hc4. wp_steps. apply (begun_end fs (<[me := with_fd fd fl p]> (k_procs s)) (with_fd fd fl p) s4 ic4); [done|done|].
  intros s5 Hs5. assert (fl < length (k_files s))%nat as Hlt by now apply lookup_lt_Some in Hx. assert (k_files s5 = fs) as Hf5 by now rewrite (fss_files_eq _ _ _ _ _ Hs5).
  wp_steps. apply (wp_upd_file fl _ (x0 <| f_ref := 1 |>)); [rewrite Hf5; now apply list_lookup_insert_eq|]. wp_steps. split; [done|].
  exists j, x0, ic4. split; [done|]. split; [exact Hc4|]. split; [unfold ic4; now rewrite (inums_insert_same ic j ip)|].
  split; [unfold ic4; now rewrite (refs_insert_same ic j ip)|]. rewrite Hf5. unfold fs. rewrite list_insert_insert_eq. apply (fss_files _ _ _ _ _ (<[fl := open_file j omode x0]> (k_files s))) in Hs5.
  exact Hs5.
Qed.
End found.

Lemma refs_nonneg : Forall (fun r => 0 <= r) rs.
Proof.
  unfold refs. apply Forall_fmap, Forall_lookup_2. intros k x Hk. exact (so_ref _ _ _ _ (on_cache _ _ _ _ _ _ _ _ _ Ho k x Hk)).
Qed.

(** C5: the open system call on a path without O_CREATE. It returns a descriptor exactly when the path leads to
    an inode, which is not a directory opened for writing, and a file and a descriptor are free. The lowest
    descriptor then refers to a file at offset 0 with the access the mode asks for, and the inode the path
    leads to has one reference more; otherwise it returns -1 and every reference, file and descriptor is as
    before. Neither case changes the disk. *)
Theorem sys_open_correct : wp sys_open (fun r s' =>
    match open_target s p (v_data v) path omode n with
    | Some (m, fl, fd) => open_succeeded m fl fd r s'
    | None => open_failed r s'
    end) s.
Proof.
  pose proof Ho as [Hid Hlay Htr Hc Hfree Hfiles Hm Hpath Hmode Hno Hst]. pose proof (begun_env s me p v start Hid) as He.
  pose proof (quiet_in_use _ _ (fi_quiet _ _ _ _ _ Hid)) as Hu. destruct (fi_quiet _ _ _ _ _ Hid) as (Hh & _).
  unfold sys_open. wp_steps. apply (wp_argstr s me p f 0 _ Hm). rewrite Hpath. wp_steps. apply (wp_argint s me p f Hm). rewrite Hmode. wp_steps.
  apply (wp_begin_op s start); [apply He|apply Hid|]. fold (begun s). unfold open_inode, open_target. rewrite Hno. cbn [negb Z.eqb]. wp_steps.
  apply (wp_namei b me p start lb v He Hlay Hh Hu Htr b (k_icache s) path n); [exact (begun_fss s me p v start Hid)|done..|].
  intros r s1 ic1 Hs1 Hc1 Hr. change (k_sb b) with (k_sb s) in *. destruct (resolve _ _ n _) as [m|]; cbn [mbind option_bind].
  2: { destruct Hr as [-> Hr]. wp_steps. apply (open_fail s1 ic1); [done..|]. intros s2 H2. now wp_steps. }
  destruct Hr as (j & -> & Hj & R1). destruct (slot_held v Hu ic1 j m rs refs_nonneg Hj R1) as (ip & Hip & Em & Href). wp_steps.
  apply (wp_lock_slot b me p start lb v He Hlay Hh Hu s1 ic1 j ip); [done..|]. intros s2 ip2 Hs2 Hc2 E1 E2 E3. rewrite <- E1 in Href.
  assert (<[j := ip2]> ic1 !! j = Some ip2) as Hip2 by (apply list_lookup_insert_eq; now apply lookup_lt_Some in Hip).
  pose proof (refs_insert_same ic1 j ip ip2 Hip E1) as R2. pose proof (inums_insert_same ic1 j ip ip2 Hip E2) as I2. rewrite R1 in R2. rewrite <- I2 in Hj.
  pose proof (slot_type b v ip2 _ (Hc2 j ip2 Hip2) Href E3) as Ety. rewrite E2, Em in Ety. change (k_sb b) with (k_sb s) in Ety.
  wp_steps. apply (fss_inode_at b s2 lb _ v j ip2 _ Hs2 Hip2). rewrite Ety. destruct (_ && _).
  { wp_steps. apply (open_abandon (<[j := ip2]> ic1) j ip2 Hc2 Hip2 Href R2); [done|]. intros s3 H3. now wp_steps. }
  wp_steps. pose proof (wp_open_rest s2 (<[j := ip2]> ic1) j ip2 Hs2 Hc2 Hip2 Href R2 m Hj) as H. apply wp_bind_inv in H.
  destruct (find_idx free_file _) as [fl|]; [|exact H]. cbn [mbind option_bind]. destruct (find_idx free_fd _) as [fd|]; exact H.
Qed.
End open.

(** ** An example

    A process of one page whose words are all 100: it calls open("d", 100), its current directory being the
    root of the example tree. *)

Definition ex_opener : proc := zero_proc <| p_sz := 4096 |> <| p_pgdir := 0x80400000 |> <| p_cwd := Some 0%nat |> <| p_ofile := replicate 16 None |>.
Definition ex_root_slot : inode := mk_inode 1 1 1 (mk_sleeplock 0 0) 0 0 0 0 0 0 [].
Definition ex_open_fs : kstate :=
  state_after binit
    ((one_proc_state ex_opener []) <| k_disk := ex_dir_disk |> <| k_sb := ex_sb |> <| k_mem := ex_arg_pages |>
       <| k_icache := [ex_root_slot; ex_slot; ex_slot] |> <| k_files := [mk_file FD_NONE 0 0 0 0 None 0] |>
       <| k_log := mk_logst 2 30 0 0 1 0 (replicate 30 0) |>).

Lemma ex_opener_ok : opener ex_open_fs 0 (ex_opener <| p_state := RUNNING |>) (v_init ex_dir_disk) 2 (fun va => byte_of 100 (va mod 4)) [100] 100 1 /\
  k_sb ex_open_fs = ex_sb /\ k_files ex_open_fs = [mk_file FD_NONE 0 0 0 0 None 0].
Proof.
  unfold ex_open_fs. apply (wp_state_after _ (fun s => opener s 0 (ex_opener <| p_state := RUNNING |>) (v_init ex_dir_disk) 2 (fun va => byte_of 100 (va mod 4)) [100] 100 1 /\
    k_sb s = ex_sb /\ k_files s = [mk_file FD_NONE 0 0 0 0 None 0])).
  apply wp_binit; [apply (one_proc_fresh ex_opener)|apply ex_dir_len|]. intros bs s' Hinv. split; [|done]. constructor.
  - constructor; try done; try exact Hinv; try (now repeat split).
  - exact ex_fs_layout.
  - exact ex_tree_ok.
  - intros [|[|[|k]]] ip; cbn; intros [= <-]; split; done.
  - now exists 1%nat, 2%nat.
  - intros [|i] x; cbn; [|done]. now intros [= <-].
  - now apply ex_arg_mem_at.
  - reflexivity.
  - reflexivity.
  - reflexivity.
  - exists 0%nat, ex_root_slot. done.
Qed.

Lemma sys_open_correct_witness : wp sys_open (fun r _ => r = 0) ex_open_fs.
Proof.
  destruct ex_opener_ok as (Hop & Es & Ef). eapply wp_mono; [exact (sys_open_correct _ _ _ _ _ _ _ _ _ Hop)|].
  cbn beta. unfold open_target. rewrite Es, Ef. replace (resolve ex_sb _ 1 _) with (Some 3) by now vm_compute. cbn [mbind option_bind].
  replace (i_type (disk_inode ex_sb (v_data (v_init ex_dir_disk)) 3)) with T_FILE by now vm_compute. cbn. now intros r s' [-> _].
Defined.
