(* ===== verification/Execload.v ===== *)
(** Loading a program: loaduvm of vm.c and the loop over the program headers of exec.c. The file system and the
    address space in the making change side by side. *)

From stdpp Require Import base list gmap sets fin_sets strings numbers.
From Stdlib Require Import ZArith Lia.
From S2P Require Import Prelude Bytes CString Kstate Mmu Kalloc Cons Sched Bio Bcache Log Commit Inode Fsblock Console Conline.
From S2P Require Import Fsdata Fsfile Fsinode Fsop Filerw Directory Namei Vm Proc Pagetable Uvm Copyuvm Threads Uload Exec Open.
Open Scope Z_scope.

(** ** The file system and the page frames *)

(** [b] with the page frames and the screen of [s], and with the file system's variables of [s]. *)
Definition with_vm (s b : kstate) : kstate :=
  screen (b <| k_mem := k_mem s |> <| k_freelist := k_freelist s |>) (k_conout s) (k_crt s) (k_crtpos s).
Definition with_fs (s b : kstate) : kstate :=
  b <| k_bufs := k_bufs s |> <| k_procs := k_procs s |> <| k_log := k_log s |> <| k_icache := k_icache s |>.

Section sides.
Context (b : kstate) (l : logst) (v : bview).

Lemma fss_base s ic : fss b s l ic v -> with_vm s b = b /\ with_fs s b = s.
Proof. intros [(bs & ps & -> & _) _]. unfold with_vm, with_fs, screen. now destruct b. Qed.

(** A step of the file system keeps the page frames. *)
Lemma with_vm_fss s s' ic : fss (with_vm s b) s' l ic v -> with_vm s' b = with_vm s b.
Proof. intros [(bs & ps & -> & _) _]. now destruct b. Qed.

(** A step on the page frames keeps the file system. *)
Lemma with_fs_vframe s s' : vframe s s' -> with_fs s' b = with_fs s b.
Proof. now intros (m & f & o & c & q & -> & _). Qed.

Lemma fss_vframe s s' ic : fss (with_vm s b) s l ic v -> vframe (with_fs s b) s' -> fss (with_vm s' b) s' l ic v.
Proof.
  intros [(bs & ps & E & Hw) Hinv] (m & f & o & c & q & -> & _). split.
  - exists bs, ps. split; [|exact Hw]. rewrite E. now destruct b.
  - unfold binv in *. cbn. rewrite E in *. exact Hinv.
Qed.

Lemma kenv_with_vm s me p : kenv b me p -> kenv (with_vm s b) me p.
Proof. done. Qed.

(** The frame of an address space in the making, after a step of the file system. *)
Lemma vframe_fs s s' ic ic' : fss (with_vm s b) s l ic v -> fss (with_vm s b) s' l ic' v -> vframe (with_fs s b) s -> vframe (with_fs s' b) s'.
Proof.
  intros [(bs & ps & E & _) _] [(bs' & ps' & E' & _) _] Hf. destruct (vframe_fields _ _ Hf) as (_ & _ & _ & _ & Hc).
  exists (k_mem s), (k_freelist s), (k_conout s), (k_crt s), (k_crtpos s). split; [rewrite E'; now destruct b|exact Hc].
Qed.
End sides.

(** An address space and its contents depend on the page frames only. *)
Lemma space_rebase b l d sz g f s T U l' b2 s2 : space b l d sz g f s T U l' -> k_mem s2 = k_mem s -> k_freelist s2 = k_freelist s ->
  k_sym s2 = k_sym s -> kmem_idle s2 -> k_mem b2 = k_mem b -> vframe b2 s2 -> space b2 l d sz g f s2 T U l'.
Proof.
  intros [[A1 A2 A3 A4] H2 H3 H4 H5 H6] Em Ef Es Hi Eb Hfr. split; try done.
  - split; [now apply (uvm_same s)|done|done|]. intros q Hq. rewrite Em, Eb. now apply A4.
  - intros va Hva Hge. rewrite Em, Es. now apply H2.
  - now rewrite Em.
  - now rewrite Em.
Qed.

(** ** Loading *)

Section load.
Context (b : kstate) (me : nat) (p : proc) (start : Z) (lb : logst) (v : bview) (l : list Z) (d : Z).
Abbreviation sb := (k_sb b).
Abbreviation D := (v_data v).
Hypothesis Henv : kenv b me p.
Hypothesis Hlay : layout sb start.
Hypothesis Hheld : v_held v = ∅.
Hypothesis Huse : (size (in_use v) < 30)%nat.
Hypothesis Hbytes : forall k, Forall is_u8 (D k).
Context (i : nat) (ip : inode) (ic : list inode).
Hypothesis Hip : ic !! i = Some ip.
Hypothesis Hfile : file_inv sb D ip.

(** The file [ip] is locked, and the address space [d] of [sz] bytes holds [f]. *)
Record loading (sz : Z) (f : Z -> Z) (s : kstate) : Prop := {
  ld_fss : fss (with_vm s b) s lb ic v;
  ld_space : has_space (with_fs s b) l d sz None f s
}.

Lemma loading_frame sz f s : loading sz f s -> vframe (with_fs s b) s.
Proof. intros [_ (T & U & l' & Hs)]. apply Hs. Qed.

Lemma loading_idle s : fss (with_vm s b) s lb ic v -> kmem_idle s.
Proof. intros [(bs & ps & -> & _) _]. right. destruct Henv as (_ & _ & _ & Hh). cbn. rewrite Hh. apply not_elem_of_nil. Qed.

Lemma space_fs sz f s s' T U l' : fss (with_vm s b) s lb ic v -> fss (with_vm s b) s' lb ic v ->
  space (with_fs s b) l d sz None f s T U l' -> space (with_fs s' b) l d sz None f s' T U l'.
Proof.
  intros Hs Hs' Hsp. assert (vframe (with_fs s b) s) as Hfr by apply Hsp. pose proof (with_vm_fss b lb v s s' ic Hs') as Ev.
  pose proof (loading_idle s') as Hi. rewrite Ev in Hi. specialize (Hi Hs').
  apply (space_rebase (with_fs s b) l d sz None f s T U l'); try done; [| | |exact (vframe_fs b lb v s s' ic ic Hs Hs' Hfr)];
    destruct Hs' as [(bs' & ps' & -> & _) _], Hs as [(bs & ps & E & _) _]; rewrite E; reflexivity.
Qed.

Lemma loading_fs sz f s s' : loading sz f s -> fss (with_vm s b) s' lb ic v -> loading sz f s'.
Proof.
  intros [Hs (T & U & l' & Hsp)] Hs'. split; [now rewrite (with_vm_fss b lb v s s' ic Hs')|]. exists T, U, l'. now apply (space_fs sz f s).
Qed.

Lemma loading_vm sz f s s' sz' f' : loading sz f s -> vframe s s' -> has_space (with_fs s b) l d sz' None f' s' -> loading sz' f' s'.
Proof.
  intros Hl Hv Hsp. pose proof (loading_frame _ _ _ Hl) as Hfr. destruct Hl as [Hs _]. split.
  - apply (fss_vframe b lb v s); [done|]. eapply vframe_trans; eassumption.
  - now rewrite (with_fs_vframe b s s' Hv).
Qed.

Lemma loading_ext sz f f' s : loading sz f s -> (forall va, f va = f' va) -> loading sz f' s.
Proof. intros [H1 H2] Hf. split; [done|]. now apply (has_space_ext _ _ _ _ _ f). Qed.

Lemma fbytes_u8 off n : Forall is_u8 (fbytes D ip off n).
Proof.
  unfold fbytes. apply Forall_fmap, Forall_forall. intros k _. cbn. unfold fbyte, fblk. destruct (slot D ip _ =? 0).
  - unfold zero_block. destruct (replicate _ _ !! _) as [x|] eqn:E; [|done]. now apply lookup_replicate in E as [-> _].
  - destruct (D _ !! _) as [x|] eqn:E; [|done]. exact (list.Forall_lookup_1 _ _ _ _ (Hbytes _) E).
Qed.

Lemma length_fbytes off n : 0 <= n -> Z.of_nat (length (fbytes D ip off n)) = n.
Proof. intros Hn. unfold fbytes. rewrite length_fmap, length_seq. lia. Qed.

(** readi of the file while the program is loaded. *)
Lemma wp_load_readi sz f s T U l' off n (Q : Z * list Z -> kstate -> Prop) : fss (with_vm s b) s lb ic v ->
  space (with_fs s b) l d sz None f s T U l' -> is_u32 off -> is_u32 n ->
  (forall s', fss (with_vm s' b) s' lb ic v -> space (with_fs s' b) l d sz None f s' T U l' -> Q (readi_result D ip off n) s') -> wp (readi i off n) Q s.
Proof.
  intros Hs Hsp Ho Hn HQ. destruct Hfile as [F1 F2 _ _ _ F6].
  apply (wp_readi (with_vm s b) me p start (kenv_with_vm b s me p Henv) Hlay i s lb ic v ip); [done..|].
  intros s' Hs'. apply HQ; [now rewrite (with_vm_fss b lb v s s' ic Hs')|now apply (space_fs sz f s)].
Qed.

(** The file has the [n] bytes from [off] on. *)
Definition in_file_bytes (off n : Z) : Prop := n = 0 \/ off + n <= i_size ip.

#[local] Instance in_file_bytes_dec off n : Decision (in_file_bytes off n).
Proof. unfold in_file_bytes. apply _. Defined.

Definition loaded (sz : Z) (f : Z -> Z) (va off n : Z) (r : Z) (s' : kstate) : Prop :=
  if decide (in_file_bytes off n) then r = 0 /\ loading sz (overlay f va (fbytes D ip off n)) s'
  else r = -1 /\ exists f', loading sz f' s'.

Lemma wp_loaduvm_loop sz va off n fuel : va mod 4096 = 0 -> 0 <= va -> va + n <= sz -> sz < KERNBASE -> is_u32 off -> forall k f s, loading sz f s ->
  0 <= k <= (n + 4095) / 4096 * 4096 -> k mod 4096 = 0 -> k = 0 \/ off + Z.min k n <= i_size ip -> (n - k + 4095) / 4096 <= Z.of_nat fuel ->
  wp (loaduvm_loop fuel d va i off n k) (loaded sz f (va + Z.min k n) (off + Z.min k n) (n - Z.min k n)) s.
Proof.
  intros Hva H0 Hend Hsz Ho. unfold KERNBASE in Hsz. assert (i_size ip <= 71680) as Hmax by apply (fv_holes _ _ _ Hfile).
  induction fuel as [|fuel IH]; intros k f s Hl Hk Hkm Hin Hfuel; cbn [loaduvm_loop];
    (destruct (Z.ltb_spec k n) as [Hlt|Hge];
     [|wp_steps; unfold loaded; rewrite Z.min_r, Z.sub_diag, decide_True by (lia || now left); split; [done|]; apply (loading_ext _ f); [done|]; intros x; now rewrite overlay_nil]);
    [exfalso; div_lia|].
  rewrite Z.min_l in Hin |- * by lia. assert (u32 (va + k) = va + k) as -> by (apply u32_small; lia). set (m := if n - k <? PGSIZE then n - k else PGSIZE).
  assert (0 < m <= 4096 /\ m <= n - k /\ (m = n - k \/ m = 4096)) as Hm by (unfold m, PGSIZE; destruct (Z.ltb_spec (n - k) 4096); lia).
  pose proof Hl as [Hs (T & U & l' & Hsp)]. pose proof (bo_uvm _ _ _ _ _ _ _ (sp_born _ _ _ _ _ _ _ _ _ _ Hsp)) as Hv.
  destruct (proj2 (sp_covers _ _ _ _ _ _ _ _ _ _ Hsp ((va + k) / 4096)) ltac:(div_lia)) as [[u fl] Hn]. destruct (uv_some _ _ _ _ _ Hv _ _ _ Hn) as (_ & Hlo & Hfl & _).
  apply (wp_user_pte d s T U l' (va + k) u fl); [done|done|]. cbv zeta. fold m. wp_steps.
  rewrite (pframe_P2V _ _ fl (lo_frame _ _ _ _ _ Hlo)) by done.
  apply (wp_load_readi sz f s T U l'); [done|done|unfold is_u32, u32; div_lia|unfold is_u32; lia|]. intros s1 Hs1 Hsp1.
  assert (u32 (off + k) = off + k) as Eoff by (apply u32_small; unfold is_u32 in *; lia). rewrite Eoff. unfold readi_result.
  assert (forall bs, Z.of_nat (length bs) <= m -> Forall is_u8 bs -> forall Q, (forall s2, loading sz (overlay f (va + k) bs) s2 -> Q tt s2) -> wp (store_bytes u bs) Q s1) as Hst.
  { intros bs Hbs Hb8 Q HQ. rewrite <- (Z.add_0_r u). apply (wp_store_page (with_fs s1 b) l d sz None T U l' ((va + k) / 4096) u fl bs Hn) with (f := f); [exact Hsp1|lia|lia|done|].
    intros s2 F2 Hsp2. apply HQ. apply (loading_vm sz f s1); [split; [done|now exists T, U, l']|now apply vframe_mem|].
    exists T, U, l'. replace (va + k) with ((va + k) / 4096 * 4096 + 0) by div_lia. exact Hsp2. }
  destruct ((off + k <=? i_size ip) && (off + k + m <? 4294967296)) eqn:Ec; wp_steps.
  2: { apply Hst; [cbn; lia|constructor|]. intros s2 Hl2. wp_steps. apply wp_if_true; [lia|]. wp_steps. unfold loaded, in_file_bytes. rewrite decide_False by lia. eauto. }
  apply Hst; [rewrite length_fbytes by lia; lia|apply fbytes_u8|]. intros s2 Hl2. wp_steps.
  destruct (decide (off + k + m <= i_size ip)) as [Hok|Hbad].
  2: { apply wp_if_true; [lia|]. wp_steps. unfold loaded, in_file_bytes. rewrite decide_False by lia. eauto. }
  rewrite Z.min_l in Hl2 |- * by lia. apply wp_if_false; [lia|]. unfold PGSIZE.
  eapply wp_mono; [apply (IH (k + 4096) _ s2 Hl2); [div_lia|div_lia|right; lia|div_lia]|].
  intros r s3 Hr. replace (Z.min (k + 4096) n) with (k + m) in Hr by lia. unfold loaded in *.
  replace (off + (k + m)) with (off + k + m) in Hr by lia. replace (va + (k + m)) with (va + k + m) in Hr by lia.
  destruct (decide (in_file_bytes (off + k) (n - k))) as [Hi|Hi]; unfold in_file_bytes in Hi.
  - rewrite decide_True in Hr by (unfold in_file_bytes; lia). destruct Hr as [-> Hr]. split; [done|]. apply (loading_ext _ _ _ _ Hr). intros x.
    rewrite (fbytes_app D ip (off + k) m (n - k)) by lia. rewrite <- overlay_app, length_fbytes by lia.
    now replace (n - k - m) with (n - (k + m)) by lia.
  - rewrite decide_False in Hr by (unfold in_file_bytes; lia). exact Hr.
Qed.

Lemma wp_loaduvm sz f s va off n : loading sz f s -> va mod 4096 = 0 -> 0 <= va -> 0 <= n -> va + n <= sz -> sz < KERNBASE -> is_u32 off ->
  wp (loaduvm d va i off n) (loaded sz f va off n) s.
Proof.
  intros Hl Hva H0 Hn Hend Hsz Ho. unfold loaduvm. apply wp_if_false; [unfold PGSIZE; lia|].
  pose proof (wp_loaduvm_loop sz va off n (Z.to_nat ((n + PGSIZE - 1) / PGSIZE)) Hva H0 Hend Hsz Ho 0 f s Hl) as H.
  rewrite Z.min_l, !Z.add_0_r, Z.sub_0_r in H by lia. apply H; [unfold PGSIZE; div_lia|done|now left|unfold PGSIZE; div_lia].
Qed.

(** ** The program headers *)

(** A segment that exec accepts when the program so far has [sz] bytes. *)
Definition good_segment (sz : Z) (ph : list Z) : bool :=
  (ph_filesz ph <=? ph_memsz ph) && (ph_vaddr ph + ph_memsz ph <? KERNBASE) && (ph_vaddr ph mod PGSIZE =? 0) &&
  (0 <? Z.max sz (ph_vaddr ph + ph_memsz ph)) && bool_decide (in_file_bytes (ph_off ph) (ph_filesz ph)).

(** The size and the contents of the memory once the [n] headers from [off] on are loaded: each segment lies
    over what was there before. *)
Fixpoint program (n : nat) (off sz : Z) (f : Z -> Z) : option (Z * (Z -> Z)) :=
  match n with
  | O => Some (sz, f)
  | S n' =>
    let '(r, ph) := readi_result D ip (u32 off) sizeof_proghdr in
    let next := s32 (off + sizeof_proghdr) in
    if negb (r =? sizeof_proghdr) then None else
    if negb (ph_type ph =? ELF_PROG_LOAD) then program n' next sz f else
    if good_segment sz ph
    then program n' next (Z.max sz (ph_vaddr ph + ph_memsz ph)) (overlay f (ph_vaddr ph) (fbytes D ip (ph_off ph) (ph_filesz ph)))
    else None
  end.

Lemma program_size n : forall off sz f sz' f', program n off sz f = Some (sz', f') -> sz <= sz'.
Proof using.
  clear Henv Hlay Hheld Huse Hbytes Hip Hfile. induction n as [|n IH]; intros off sz f sz' f'; cbn [program]; [intros [= -> ->]; lia|]. destruct (readi_result _ _ _ _) as [r ph].
  destruct (negb (r =? _)); [done|]. destruct (negb _); [apply IH|]. destruct (good_segment sz ph); [|done]. intros H%IH. lia.
Qed.

Lemma program_bound n : forall off sz f sz' f', program n off sz f = Some (sz', f') -> sz < KERNBASE -> sz' < KERNBASE.
Proof using.
  clear Henv Hlay Hheld Huse Hbytes Hip Hfile. induction n as [|n IH]; intros off sz f sz' f'; cbn [program]; [intros [= -> ->]; done|]. destruct (readi_result _ _ _ _) as [r ph].
  destruct (negb (r =? _)); [done|]. destruct (negb _); [apply IH|]. destruct (good_segment sz ph) eqn:E; [|done]. unfold good_segment in E. intros H Hs. apply IH in H; [done|lia].
Qed.

Definition short (sz : Z) : Prop := Z.of_nat (length l) <= 1025 + (sz + 4095) / 4096.

Definition segments_loaded (o : option (Z * (Z -> Z))) (r : option Z) (s' : kstate) : Prop :=
  (exists sz f, o = Some (sz, f) /\ r = Some sz /\ loading sz f s') \/
  (r = None /\ (exists sz f, loading sz f s') /\ forall sz f, o = Some (sz, f) -> short sz).

Hypothesis Hprint : can_print b.

Lemma loading_print sz f s : loading sz f s -> can_print s.
Proof. intros Hl. apply (can_print_frame (with_fs s b)); [exact (loading_frame _ _ _ Hl)|exact Hprint]. Qed.

Lemma header_bound ph off : length ph = 32%nat -> Forall is_u8 ph -> (off + 4 <= 32)%nat -> 0 <= rd32 ph off < 4294967296.
Proof. intros Hl Hb Ho. apply rd32_bound; [exact Hb|lia]. Qed.

(** One segment: [k] is the rest of the loop. *)
Lemma wp_load_segment sz f s ph (k : Z -> K (option Z)) (Q : option Z -> kstate -> Prop) : loading sz f s -> 0 <= sz < KERNBASE ->
  length ph = 32%nat -> Forall is_u8 ph ->
  (forall s' sz' f', loading sz' f' s' -> (good_segment sz ph = true -> short (Z.max sz (ph_vaddr ph + ph_memsz ph))) -> Q None s') ->
  (forall s', good_segment sz ph = true -> loading (Z.max sz (ph_vaddr ph + ph_memsz ph)) (overlay f (ph_vaddr ph) (fbytes D ip (ph_off ph) (ph_filesz ph))) s' ->
     wp (k (Z.max sz (ph_vaddr ph + ph_memsz ph))) Q s') ->
  wp (if ph_memsz ph <? ph_filesz ph then ret None else
      if u32 (ph_vaddr ph + ph_memsz ph) <? ph_vaddr ph then ret None else
      sz' ← allocuvm d sz (u32 (ph_vaddr ph + ph_memsz ph));
      if sz' =? 0 then ret None else
      if negb (ph_vaddr ph mod PGSIZE =? 0) then ret None else
      r ← loaduvm d (ph_vaddr ph) i (ph_off ph) (ph_filesz ph);
      if r <? 0 then ret None else k sz') Q s.
Proof.
  intros Hl Hsz Hlen Hb Hfail Hok. pose proof (header_bound ph 4 Hlen Hb ltac:(lia)) as B1. pose proof (header_bound ph 8 Hlen Hb ltac:(lia)) as B2.
  pose proof (header_bound ph 16 Hlen Hb ltac:(lia)) as B3. pose proof (header_bound ph 20 Hlen Hb ltac:(lia)) as B4. fold (ph_off ph) (ph_vaddr ph) (ph_filesz ph) (ph_memsz ph) in *.
  set (va := ph_vaddr ph) in *. set (fs := ph_filesz ph) in *. set (ms := ph_memsz ph) in *. set (off := ph_off ph) in *.
  assert (good_segment sz ph = (fs <=? ms) && (va + ms <? KERNBASE) && (va mod PGSIZE =? 0) && (0 <? Z.max sz (va + ms)) && bool_decide (in_file_bytes off fs)) as Eg by reflexivity.
  assert (forall s' sz' f', loading sz' f' s' -> good_segment sz ph = false -> Q None s') as Hno by (intros s' sz' f' H1 H2; apply (Hfail s' sz' f' H1); congruence).
  apply wp_if; [intros E; wp_steps; apply (Hno s sz f Hl); rewrite Eg; lia|intros E1].
  apply wp_if; [intros E; wp_steps; apply (Hno s sz f Hl); rewrite Eg; unfold u32, KERNBASE in *; div_lia|intros E2].
  assert (u32 (va + ms) = va + ms) as -> by (unfold u32 in *; div_lia). wp_steps.
  eapply wp_mono; [apply (wp_space_alloc (with_fs s b) l d sz f s (va + ms)); [apply Hl|exact (loading_print _ _ _ Hl)|lia|lia]|].
  intros r s1 [Hfr Hr]. unfold KERNBASE in *. destruct (Z.leb_spec 2147483648 (va + ms)) as [Hge|Hlt].
  { destruct Hr as [-> Hr]. wp_steps. apply (Hno s1 sz f); [now apply (loading_vm sz f s)|]. rewrite Eg. lia. }
  destruct Hr as [[-> Hr]|(-> & Hr & Hsh)].
  2: { wp_steps. apply (Hfail s1 sz f); [now apply (loading_vm sz f s)|]. intros _. unfold short. div_lia. }
  apply (loading_vm sz f s s1 _ _ Hl Hfr) in Hr. apply wp_if; [intros E; wp_steps; apply (Hno s1 _ _ Hr); rewrite Eg; lia|intros E3].
  apply wp_if; [intros E; wp_steps; apply (Hno s1 _ _ Hr); rewrite Eg; unfold PGSIZE in *; lia|intros E4]. wp_steps.
  eapply wp_mono; [apply (wp_loaduvm _ f s1 va off fs Hr); unfold PGSIZE, KERNBASE, is_u32 in *; lia|]. unfold loaded. intros r s2 Hr2.
  case_decide as Hin; destruct Hr2 as [-> Hr2].
  - apply wp_if_false; [done|]. apply Hok; [|done]. rewrite Eg, bool_decide_eq_true_2 by done. unfold PGSIZE in *. lia.
  - apply wp_if_true; [done|]. wp_steps. destruct Hr2 as [f' Hr2]. apply (Hno s2 _ _ Hr2). rewrite Eg, bool_decide_eq_false_2 by done. lia.
Qed.

Lemma wp_load_segments n : forall off sz f s, loading sz f s -> 0 <= sz < KERNBASE ->
  wp (load_segments n i d off sz) (segments_loaded (program n off sz f)) s.
Proof.
  induction n as [|n IH]; intros off sz f s Hl Hsz; cbn [load_segments program]; [wp_steps; left; eauto|].
  destruct Hl as [Hs (T & U & l' & Hsp)]. wp_steps. apply (wp_load_readi sz f s T U l'); [done|done|unfold is_u32, u32; div_lia|done|].
  intros s1 Hs1 Hsp1. assert (loading sz f s1) as Hl1 by (split; [done|now exists T, U, l']).
  destruct (readi_result D ip (u32 off) sizeof_proghdr) as [r ph] eqn:Er. wp_steps. apply wp_if; [intros E; wp_steps; rewrite E; right; split; [done|]; split; [eauto|done]|intros E; rewrite E].
  assert (length ph = 32%nat /\ Forall is_u8 ph) as [Hlen Hb].
  { unfold readi_result in Er. destruct (_ && _); [|injection Er as <- <-; unfold sizeof_proghdr in E; lia]. injection Er as <- <-. split; [|apply fbytes_u8].
    apply Nat2Z.inj. rewrite length_fbytes; unfold sizeof_proghdr in *; lia. }
  apply wp_if; [intros E2; rewrite E2; now apply IH|intros E2; rewrite E2]. apply (wp_load_segment sz f s1 ph); [done|done|done|done| |].
  - intros s2 sz2 f2 Hl2 Hsh. right. split; [done|]. split; [eauto|]. intros sz3 f3 Hp. destruct (good_segment sz ph); [|done]. apply program_size in Hp.
    specialize (Hsh eq_refl). unfold short in *. div_lia.
  - intros s2 Hg Hl2. rewrite Hg. apply IH; [done|]. unfold good_segment in Hg. lia.
Qed.
End load.

(** What exec reads of an inode is on the disk. *)
Lemma program_memory v x y n : forall off sz f, program v (in_memory x y) n off sz f = program v y n off sz f.
Proof.
  induction n as [|n IH]; intros off sz f; cbn [program]; [done|].
  change (readi_result (v_data v) (in_memory x y) (u32 off) sizeof_proghdr) with (readi_result (v_data v) y (u32 off) sizeof_proghdr).
  destruct (readi_result _ _ _ _) as [r ph]. destruct (negb (r =? _)); [done|]. destruct (negb _); [apply IH|].
  change (good_segment (in_memory x y) sz ph) with (good_segment y sz ph). destruct (good_segment y sz ph); [|done]. apply IH.
Qed.

Lemma file_inv_memory sb D x y : file_inv sb D y -> file_inv sb D (in_memory x y).
Proof.
  intros [[O1 O2 O3 O4 O5] Hho Hsy [F1 F2 F3 F4 F5 F6 F7] Hin Hty]. constructor; try done. now apply (synced_memory _ _ _ y).
Qed.
