(* ===== verification/Execok.v ===== *)
(** exec, exec.c: the program that the file holds, its stack with the arguments, and the change of the process to
    its new address space. *)

From stdpp Require Import base list gmap sets fin_sets strings numbers.
From Stdlib Require Import ZArith Lia.
From S2P Require Import Prelude Bytes CString Itoa Kstate Mmu Kalloc Cons Sched Bio Bcache Log Commit Inode Fsblock Console Conline.
From S2P Require Import Fsdata Fsfile Fsinode Fsop Filerw Directory Namei Vm Proc Pagetable Uvm Copyuvm Threads Uload Exec Open Execload.
Open Scope Z_scope.

(** ** The stack of a new program *)

(** The arguments go to the stack one below the other, each with its NUL and at a multiple of 4, down to [lo]. *)
Fixpoint push (lo : Z) (argv : list (list Z)) (sp : Z) (f : Z -> Z) (addrs : list Z) : option (Z * list Z * (Z -> Z)) :=
  match argv with
  | [] => Some (sp, addrs, f)
  | a :: argv' =>
    let sp' := (sp - (Z.of_nat (length a) + 1)) / 4 * 4 in
    if sp' <? lo then None else push lo argv' sp' (overlay f sp' (a ++ [0])) (addrs ++ [sp'])
  end.

(** The words below the arguments: a return address, argc, argv and the pointers. *)
Definition frame_words (argc sp : Z) (addrs : list Z) : list Z := [0xffffffff; argc; sp - (argc + 1) * 4] ++ addrs ++ [0].
Definition frame_bytes (argc sp : Z) (addrs : list Z) : list Z := concat (le_bytes 4 <$> frame_words argc sp addrs).

(** The size of a program of [sz] bytes with its guard page and its stack. *)
Definition stack_top (sz : Z) : Z := (sz + 4095) / 4096 * 4096 + 8192.

Definition exec_stack (sz : Z) (f : Z -> Z) (argv : list (list Z)) : option (Z * Z * (Z -> Z)) :=
  let top := stack_top sz in
  let argc := Z.of_nat (length argv) in
  if (KERNBASE <=? top) || (MAXARG <? argc) then None else
  match push (top - 4096) argv top f [] with
  | None => None
  | Some (sp, addrs, f1) =>
    let sp' := sp - (3 + argc + 1) * 4 in
    if sp' <? top - 4096 then None else Some (top, sp', overlay f1 sp' (frame_bytes argc sp addrs))
  end.

Lemma push_addrs lo argv : forall sp f addrs sp' addrs' f', push lo argv sp f addrs = Some (sp', addrs', f') ->
  lo <= sp -> sp mod 4 = 0 -> lo <= sp' <= sp /\ sp' mod 4 = 0 /\ length addrs' = (length addrs + length argv)%nat.
Proof.
  induction argv as [|a argv IH]; intros sp f addrs sp' addrs' f'; cbn [push].
  - intros [= <- <- <-]. cbn. lia.
  - destruct (Z.ltb_spec ((sp - (Z.of_nat (length a) + 1)) / 4 * 4) lo) as [|Hge]; [done|]. intros H Hlo Hm. apply IH in H as (H1 & H2 & H3); [|done|div_lia].
    rewrite length_app in H3. cbn in *. split; [div_lia|]. lia.
Qed.

Lemma length_frame argc sp addrs : Z.of_nat (length addrs) = argc -> Z.of_nat (length (frame_bytes argc sp addrs)) = (3 + argc + 1) * 4.
Proof.
  intros H. unfold frame_bytes. assert (forall ws, length (concat (le_bytes 4 <$> ws)) = (4 * length ws)%nat) as ->.
  { induction ws as [|w ws IH]; [done|]. cbn [fmap list_fmap concat]. rewrite length_app, length_le_bytes, IH. cbn. lia. }
  unfold frame_words. rewrite !length_app. cbn [length]. lia.
Qed.

Lemma frame_u8 argc sp addrs : Forall is_u8 (frame_bytes argc sp addrs).
Proof. unfold frame_bytes. apply Forall_concat, Forall_fmap, Forall_true. intros w. exact (bytes_ok_le_bytes 4 w). Qed.

Lemma align4 x : is_u32 x -> Z.land x (not32 3) = x / 4 * 4.
Proof.
  intros Hx. pose proof (land_not_ones x 2 ltac:(lia) Hx) as H. change (4294967295 - Z.ones 2) with (not32 3) in H. change (2 ^ 2) with 4 in H. rewrite H. div_lia.
Qed.

(** ** Building the stack *)

Section stack.
Context (c : kstate) (l : list Z) (d : Z).
Context (top : Z).
Hypothesis Htop : 8192 <= top < KERNBASE /\ top mod 4096 = 0.
Abbreviation lo := (top - 4096).
Abbreviation g := (top / 4096 - 2).
Abbreviation stacked f := (has_space c l d top (Some g) f).

(** An argument of a user program: a string below the size of the device space. *)
Definition arg_ok (a : list Z) : Prop := Forall is_u8 a /\ Z.of_nat (length a) + 1 <= 0x2000000.

Lemma wp_push_arg f s a sp : stacked f s -> link_ok (k_sym s) -> arg_ok a -> lo <= sp <= top ->
  let len := Z.of_nat (length a) + 1 in let sp' := (sp - len) / 4 * 4 in
  wp (copyout d (Z.land (u32 (sp - len)) (not32 3)) (a ++ [0]) len) (fun r s' => mem_frame s s' /\
    if sp' <? lo then r = -1 /\ exists f', stacked f' s'
    else r = 0 /\ Z.land (u32 (sp - len)) (not32 3) = sp' /\ stacked (overlay f sp' (a ++ [0])) s') s.
Proof.
  intros Hs Hlk [Hb Ha] Hsp. destruct Htop as [Ht Hm]. unfold KERNBASE in Ht. cbv zeta. rewrite align4 by (unfold is_u32, u32; div_lia).
  assert (Z.of_nat (length a) + 1 = Z.of_nat (length (a ++ [0]))) as El by (rewrite length_app; cbn; lia). rewrite El in *.
  set (len := Z.of_nat (length (a ++ [0]))) in *. set (sp' := (sp - len) / 4 * 4). assert (0 < len) by lia. assert (Forall is_u8 (a ++ [0])) as Hb' by (apply Forall_app; split; [done|now constructor]).
  destruct (Z.ltb_spec (sp - len) 0) as [Hneg|Hpos].
  - assert (u32 (sp - len) = sp - len + 4294967296) as -> by (unfold u32; div_lia).
    eapply wp_mono; [apply (wp_copyout_high c l d top (Some g) f s); [done|done|unfold DEVSPACE; div_lia|now destruct a]|].
    intros r s' [-> ->]. split; [apply mem_frame_refl|]. destruct (Z.ltb_spec sp' lo) as [|Hc]; [eauto|]. unfold sp' in Hc. div_lia.
  - assert (u32 (sp - len) = sp - len) as -> by (apply u32_small; lia). fold sp'. unfold copyout. replace (Z.to_nat len) with (length (a ++ [0])) by (unfold len; lia).
    eapply wp_mono; [apply (wp_copyout_loop c l d top g) with (f := f); [unfold KERNBASE; lia|done|done|unfold sp'; div_lia|unfold sp'; div_lia|lia|done]|].
    intros r s' [Hfr Hr]. split; [done|]. destruct (Z.ltb_spec sp' lo) as [Hlt|Hge].
    + rewrite decide_True in Hr; [done|]. unfold hits, sp' in *. div_lia.
    + rewrite decide_False in Hr; [|unfold hits, sp' in *; div_lia]. destruct Hr as [-> Hr]. done.
Qed.

Lemma mem_frame_link s s' : mem_frame s s' -> link_ok (k_sym s) -> link_ok (k_sym s').
Proof. intros (m & q & ->) H. exact H. Qed.

Definition pushed (o : option (Z * list Z * (Z -> Z))) (s : kstate) (r : option (Z * list Z)) (s' : kstate) : Prop :=
  mem_frame s s' /\
  match o with
  | None => r = None /\ exists f', stacked f' s'
  | Some (sp, addrs, f) => r = Some (sp, addrs) /\ stacked f s'
  end.

Lemma wp_push_args argv : Forall arg_ok argv -> forall argc sp addrs f s, stacked f s -> link_ok (k_sym s) -> lo <= sp <= top -> 0 <= argc <= MAXARG ->
  wp (push_args d argv argc sp addrs)
    (pushed (if MAXARG <? argc + Z.of_nat (length argv) then None else push lo argv sp f addrs) s) s.
Proof.
  induction 1 as [|a argv Ha _ IH]; intros argc sp addrs f s Hs Hlk Hsp Hargc; cbn [push_args push length].
  { wp_steps. rewrite (proj2 (Z.ltb_ge _ _)) by lia. split; [apply mem_frame_refl|done]. }
  apply wp_if; intros E.
  { wp_steps. rewrite (proj2 (Z.ltb_lt _ _)) by lia. split; [apply mem_frame_refl|eauto]. }
  wp_steps. pose proof (wp_push_arg f s a sp Hs Hlk Ha Hsp) as H. cbv zeta in H. set (len := Z.of_nat (length a) + 1) in *. set (sp' := (sp - len) / 4 * 4) in *.
  eapply wp_mono; [exact H|]. intros r s1 [F1 Hr]. destruct (Z.ltb_spec sp' lo) as [Hlt|Hge].
  - destruct Hr as [-> Hr]. apply wp_if_true; [done|]. wp_steps. split; [done|]. now destruct (MAXARG <? _).
  - destruct Hr as (-> & -> & Hr). apply wp_if_false; [done|].
    eapply wp_mono; [apply (IH (argc + 1) sp' (addrs ++ [sp']) _ s1 Hr); [exact (mem_frame_link s s1 F1 Hlk)|unfold sp', len in *; div_lia|lia]|].
    intros o s2 [F2 Ho]. split; [eapply mem_frame_trans; eassumption|]. replace (argc + Z.of_nat (S (length argv))) with (argc + 1 + Z.of_nat (length argv)) by lia. exact Ho.
Qed.

(** The words below the arguments. *)
Lemma wp_push_frame f s sp argc addrs : stacked f s -> lo <= sp <= top -> Z.of_nat (length addrs) = argc -> argc <= MAXARG ->
  let sp' := sp - (3 + argc + 1) * 4 in
  wp (copyout d sp' (frame_bytes argc sp addrs) ((3 + argc + 1) * 4)) (fun r s' => mem_frame s s' /\
    if sp' <? lo then r = -1 /\ exists f', stacked f' s' else r = 0 /\ stacked (overlay f sp' (frame_bytes argc sp addrs)) s') s.
Proof.
  intros Hs Hsp Hl Hargc sp'. destruct Htop as [Ht Hm]. unfold KERNBASE, MAXARG in *. pose proof (length_frame argc sp addrs Hl) as El. unfold copyout. rewrite <- El, Nat2Z.id.
  eapply wp_mono; [apply (wp_copyout_loop c l d top g) with (f := f); [unfold KERNBASE; lia|done|done|unfold sp'; lia|unfold sp'; lia|lia|apply frame_u8]|].
  intros r s' [Hfr Hr]. split; [done|]. destruct (Z.ltb_spec sp' lo) as [Hlt|Hge].
  - rewrite decide_True in Hr; [done|]. unfold hits, sp' in *. div_lia.
  - rewrite decide_False in Hr; [done|]. unfold hits, sp' in *. div_lia.
Qed.
End stack.

(** ** exec *)

(** The memory that exec gives the process for the file [ip]: its size, the stack pointer, the entry point and the bytes. *)
Definition exec_image (v : bview) (ip : inode) (argv : list (list Z)) : option (Z * Z * Z * (Z -> Z)) :=
  let '(r, elf) := readi_result (v_data v) ip 0 sizeof_elfhdr in
  if negb (r =? sizeof_elfhdr) then None else
  if negb (elf_magic elf =? ELF_MAGIC) then None else
  match program v ip (Z.to_nat (elf_phnum elf)) (s32 (elf_phoff elf)) 0 (fun _ => 0) with
  | None => None
  | Some (sz, f) =>
    match exec_stack sz f argv with
    | None => None
    | Some (top, sp, f') => Some (top, sp, elf_entry elf, f')
    end
  end.

Lemma image_size v ip argv top sp entry f : exec_image v ip argv = Some (top, sp, entry, f) -> 0 <= top + 4095.
Proof.
  unfold exec_image. destruct (readi_result _ _ _ _) as [r elf]. destruct (negb _); [done|]. destruct (negb _); [done|].
  destruct (program v ip _ _ _ _) as [[sz g]|] eqn:Ep; [|done]. apply program_size in Ep. unfold exec_stack. destruct (_ || _); [done|].
  destruct (push _ _ _ _ _) as [[[? ?] ?]|]; [|done]. destruct (_ <? _); [done|]. intros [= <- _ _ _]. unfold stack_top. div_lia.
Qed.

Lemma image_memory v x y argv : exec_image v (in_memory x y) argv = exec_image v y argv.
Proof.
  unfold exec_image. change (readi_result (v_data v) (in_memory x y) 0 sizeof_elfhdr) with (readi_result (v_data v) y 0 sizeof_elfhdr).
  destruct (readi_result _ _ _ _) as [r elf]. now rewrite program_memory.
Qed.

(** A process with the address space [T0], [U0] that calls exec while no one else uses the file system; [l] are the
    free pages and [n] is the inode the path starts from. *)
Record execer (s : kstate) (me : nat) (p : proc) (v : bview) (start : Z) (path : list Z) (argv : list (list Z)) (n : Z)
    (T0 : gmap Z Z) (U0 : gmap Z (Z * Z)) (l : list Z) : Prop := {
  ex_idle : fs_idle s me p v start;
  ex_layout : layout (k_sb s) start;
  ex_tree : tree_ok (k_sb s) (v_data v);
  ex_cache : cache_ok (k_sb s) (v_data v) (p_pid p) None (k_icache s);
  ex_free : two_free (refs (k_icache s));
  ex_start : path_start p (k_icache s) path n;
  ex_bytes : forall k, Forall is_u8 (v_data v k);
  ex_file : forall m, resolve (k_sb s) (v_data v) n (path_elems path) = Some m -> file_inv (k_sb s) (v_data v) (disk_inode (k_sb s) (v_data v) m);
  ex_space : uvm s (p_pgdir p) T0 U0 l;
  ex_link : link_ok (k_sym s);
  ex_print : can_print s;
  ex_kstack : p_kstack p <> 0;
  ex_args : Forall arg_ok argv
}.

(** *** Freeing the old address space beside the new one *)

Section beside.
Context (c : kstate) (pgdir : Z) (T0 : gmap Z Z) (U0 : gmap Z (Z * Z)) (l : list Z).
Hypothesis Hold : uvm c pgdir T0 U0 l.
Context (d sz : Z) (g : option Z) (f : Z -> Z) (s4 : kstate) (T : gmap Z Z) (U : gmap Z (Z * Z)) (l4 : list Z).
Hypothesis Hnew : space c l d sz g f s4 T U l4.
Abbreviation freed_pages := (pgdir :: l4 ++ tabs T0 ++ upages U0).

Lemma old_not_free q : q = pgdir \/ q ∈ tabs T0 \/ q ∈ upages U0 -> q ∉ l.
Proof.
  pose proof (uv_vm _ _ _ _ _ Hold) as Hv. intros [->|[Hq|(n & fl & Hn)%elem_upages]]; [apply Hv|now apply (vm_tabs _ _ _ _ Hv)|].
  now destruct (uv_some _ _ _ _ _ Hold _ _ _ Hn) as (_ & [_ _ _ H] & _).
Qed.

Lemma new_not_freed q : q = d \/ q ∈ tabs T \/ q ∈ upages U -> q ∉ freed_pages.
Proof.
  intros Hq. pose proof (bo_pages _ _ _ _ _ _ _ (sp_born _ _ _ _ _ _ _ _ _ _ Hnew)) as Hp.
  assert (q ∈ l) as Hin by (rewrite Hp; rewrite elem_of_cons, !elem_of_app; tauto).
  destruct (vm_free _ _ _ _ (uv_vm _ _ _ _ _ Hold)) as [_ Hnd]. rewrite Hp in Hnd. apply list.NoDup_cons in Hnd as [Hd Hnd]. apply list.NoDup_app in Hnd as (_ & Hx & _).
  rewrite elem_of_cons, !elem_of_app. intros H. destruct (decide (q ∈ l4)) as [H4|H4].
  - destruct Hq as [->|Hq]; [apply Hd; rewrite elem_of_app; now left|]. apply (Hx q H4). now rewrite elem_of_app.
  - apply (old_not_free q); [tauto|done].
Qed.

Lemma freed_u32 q : q ∈ freed_pages -> is_u32 q.
Proof.
  pose proof (uv_vm _ _ _ _ _ Hold) as Hv. rewrite elem_of_cons, !elem_of_app. intros [->|[H|[(k & Hk)%elem_tabs|(k & fl & Hk)%elem_upages]]].
  - apply (pt_dir _ _ _ _ (vm_tab _ _ _ _ Hv)).
  - exact (vm_u32 _ _ _ _ (uv_vm _ _ _ _ _ (bo_uvm _ _ _ _ _ _ _ (sp_born _ _ _ _ _ _ _ _ _ _ Hnew))) q H).
  - now destruct (pt_some _ _ _ _ (vm_tab _ _ _ _ Hv) _ _ Hk) as (_ & [_ H] & _).
  - now destruct (uv_some _ _ _ _ _ Hold _ _ _ Hk) as (_ & [[_ H] _ _ _] & _).
Qed.

Context (s5 s6 : kstate).
Hypothesis Hmem : k_mem s5 = k_mem s4.
Hypothesis Hsym : k_sym s5 = k_sym s4.
Hypothesis Hheld : k_held s6 = [].
Hypothesis Hun : unborn s5 freed_pages s6.

Lemma beside_mem q : q = d \/ q ∈ tabs T \/ q ∈ upages U -> k_mem s6 !! q = k_mem s4 !! q.
Proof. intros Hq. rewrite <- Hmem. apply (un_out _ _ _ Hun). now apply new_not_freed. Qed.

Lemma beside_uvm : exists l6, l6 ≡ₚ freed_pages /\ uvm s6 d T U l6.
Proof.
  destruct (un_free _ _ _ Hun) as (l6 & Hf & Hp). exists l6. split; [done|]. pose proof (bo_uvm _ _ _ _ _ _ _ (sp_born _ _ _ _ _ _ _ _ _ _ Hnew)) as Hv.
  assert (k_sym s6 = k_sym s4) as Es by (destruct (vframe_fields _ _ (un_frame _ _ _ Hun)) as [-> _]; exact Hsym).
  apply (uvm_other s4 s6 d T U l4 l6); [done| |done| |].
  - apply (vm_ok_other s4 s6 d T l4 l6); [apply Hv|done|done| | | | |].
    + right. rewrite Hheld. apply not_elem_of_nil.
    + intros q Hq. apply freed_u32. now rewrite <- Hp.
    + rewrite Hp. apply new_not_freed. now left.
    + intros t Ht. rewrite Hp. apply new_not_freed. auto.
    + intros q Hq. apply beside_mem. tauto.
  - intros q Hq. apply beside_mem. rewrite elem_of_app in Hq. tauto.
  - intros u Hu. rewrite Hp. apply new_not_freed. auto.
Qed.

Lemma beside_kernel : kernel_map s6 T.
Proof.
  intros va Hva Hge. destruct (vframe_fields _ _ (un_frame _ _ _ Hun)) as [-> _]. rewrite Hsym, <- (sp_kernel _ _ _ _ _ _ _ _ _ _ Hnew) by done.
  apply pte_at_frame. intros t Ht. apply beside_mem. auto.
Qed.

Lemma beside_byte va : ubyte (k_mem s6) U va = f va.
Proof.
  rewrite <- (sp_byte _ _ _ _ _ _ _ _ _ _ Hnew). unfold ubyte. destruct (U !! (va / 4096)) as [[u fl]|] eqn:E; [|done].
  unfold tab_word. rewrite beside_mem; [done|]. right. right. apply elem_upages. eauto.
Qed.

Lemma swap_pages (x y : Z) (l1 A B : list Z) : x :: (y :: l1 ++ A) ++ B ≡ₚ y :: (x :: l1 ++ B) ++ A.
Proof. cbn [app]. rewrite (Permutation_swap x y). do 2 constructor. rewrite <- !app_assoc. apply Permutation_app_head, Permutation_app_comm. Qed.

Lemma beside_pages l6 : l6 ≡ₚ freed_pages -> pgdir :: l ++ tabs T0 ++ upages U0 ≡ₚ d :: l6 ++ tabs T ++ upages U.
Proof. intros ->. rewrite (bo_pages _ _ _ _ _ _ _ (sp_born _ _ _ _ _ _ _ _ _ _ Hnew)). apply swap_pages. Qed.

Lemma beside_out q : (q ∉ pgdir :: l ++ tabs T0 ++ upages U0) -> k_mem s6 !! q = k_mem c !! q.
Proof.
  rewrite not_elem_of_cons, !not_elem_of_app. intros (H1 & H2 & H3 & H4). pose proof (sp_born _ _ _ _ _ _ _ _ _ _ Hnew) as Hb.
  rewrite <- (bo_out _ _ _ _ _ _ _ Hb q H2), <- Hmem. apply (un_out _ _ _ Hun). rewrite not_elem_of_cons, !not_elem_of_app. repeat split; try done.
  intros H. apply H2. rewrite (bo_pages _ _ _ _ _ _ _ Hb). rewrite elem_of_cons, !elem_of_app. auto.
Qed.
End beside.

Section exec.
Context (s : kstate) (me : nat) (p : proc) (v : bview) (start : Z) (path : list Z) (argv : list (list Z)) (n : Z).
Context (T0 : gmap Z Z) (U0 : gmap Z (Z * Z)) (l : list Z).
Hypothesis He : execer s me p v start path argv n T0 U0 l.
Abbreviation b := (begun s).
Abbreviation lb := (k_log (begun s)).
Abbreviation cok := (cache_ok (k_sb s) (v_data v) (p_pid p)).
Abbreviation rs := (refs (k_icache s)).

(** The process keeps its address space, and the free pages are the same. *)
Definition restored (s' : kstate) : Prop :=
  exists l', uvm s' (p_pgdir p) T0 U0 l' /\ l' ≡ₚ l /\ forall q, (q ∉ l) -> k_mem s' !! q = k_mem s !! q.

(** The ways exec fails: -1, and nothing is lost. *)
Definition exec_failed (r : Z) (s' : kstate) : Prop :=
  r = -1 /\ restored s' /\ exists ic, cok None ic /\ refs ic = rs /\ fss (with_vm s' s) s' (k_log s) ic v.

Definition new_proc (d top sp entry : Z) : proc :=
  (set_name (last_elem path path) p) <| p_pgdir := d |> <| p_sz := top |> <| p_tf := (p_tf p) <| tf_eip := entry |> <| tf_esp := sp |> |>.

(** The process has become the program: [d] is its new address space, of [top] bytes that [f] describes, with a guard
    page below the stack; the old one is free, and no page frame is lost. *)
Definition exec_done (top sp entry : Z) (f : Z -> Z) (r : Z) (s' : kstate) : Prop :=
  r = 0 /\ exists ic d T U l',
    cok None ic /\ refs ic = rs /\
    fss ((with_vm s' s) <| k_procs := <[me := new_proc d top sp entry]> (k_procs s) |>
           <| k_esp0 := u32 (p_kstack p + KSTACKSIZE) |> <| k_cr3 := V2P d |>) s' (k_log s) ic v /\
    uvm s' d T U l' /\ kernel_map s' T /\ covers U top /\ flags_ok (Some (top / 4096 - 2)) U /\
    (forall va, ubyte (k_mem s') U va = f va) /\
    p_pgdir p :: l ++ tabs T0 ++ upages U0 ≡ₚ d :: l' ++ tabs T ++ upages U /\
    forall q, (q ∉ p_pgdir p :: l ++ tabs T0 ++ upages U0) -> k_mem s' !! q = k_mem s !! q.

(** The state's frames are those of [s]. *)
Lemma held_nil : k_held s = [].
Proof. exact (proj2 (proj2 (proj2 (begun_env s me p v start (ex_idle _ _ _ _ _ _ _ _ _ _ _ He))))). Qed.

Lemma restored_same s1 s2 : restored s1 -> k_mem s2 = k_mem s1 -> k_freelist s2 = k_freelist s1 -> k_sym s2 = k_sym s1 -> k_held s2 = [] -> restored s2.
Proof.
  intros (l' & Hv & Hp & Ho) Em Ef Es Hh. exists l'. rewrite Em. split; [|done]. apply (uvm_same s1); [done..|]. right. rewrite Hh. apply not_elem_of_nil.
Qed.

Lemma base_uvm c : k_mem c = k_mem s -> k_freelist c = k_freelist s -> k_sym c = k_sym s -> k_held c = [] -> uvm c (p_pgdir p) T0 U0 l.
Proof. intros E1 E2 E3 E4. apply (uvm_same s); [apply He|done..|]. right. rewrite E4. apply not_elem_of_nil. Qed.

Lemma restored_unborn c s' : k_mem c = k_mem s -> k_freelist c = k_freelist s -> k_sym c = k_sym s -> k_held c = [] -> unborn c l s' -> restored s'.
Proof.
  intros E1 E2 E3 E4 Hu. destruct (unborn_parent c (p_pgdir p) T0 U0 l (base_uvm c E1 E2 E3 E4) s' Hu) as (l' & Hp & Hv). exists l'. split; [done|]. split; [done|].
  intros q Hq. rewrite <- E1. now apply Hu.
Qed.

(** *** Giving the file up *)

Lemma wp_exec_end {A} (k : K A) s0 s1 ic (Q : A -> kstate -> Prop) : fss (with_vm s0 b) s1 lb ic v ->
  (forall s2, fss (with_vm s0 s) s2 (k_log s) ic v -> wp k Q s2) -> wp (end_op ;; k) Q s1.
Proof.
  intros Hs HQ. pose proof (ex_idle _ _ _ _ _ _ _ _ _ _ _ He) as Hid. pose proof (fi_log _ _ _ _ _ Hid) as (_ & _ & _ & Hz & _). wp_steps.
  apply (wp_end_op_empty (with_vm s0 b) me p s1 lb ic v (begun_env s me p v start Hid) Hs start); [exact (tl_open _ _ _ _ (begun_txl s me p v start Hid))|].
  intros s2 l' Hs2. apply HQ. assert (l' = k_log s) as El by (unfold l', begun; cbn; destruct (k_log s); cbn in *; now subst).
  rewrite El in Hs2. replace (with_vm s0 s) with ((with_vm s0 b) <| k_log := k_log s |>); [exact Hs2|]. unfold begun. now destruct s.
Qed.

Lemma wp_exec_put {A} (k : K A) s1 ic j ip (Q : A -> kstate -> Prop) : fss (with_vm s1 b) s1 lb ic v -> cok (Some j) ic -> ic !! j = Some ip -> 0 < i_ref ip ->
  refs ic = take_ref j rs -> (forall s2 ic2, fss (with_vm s1 s) s2 (k_log s) ic2 v -> cok None ic2 -> refs ic2 = rs -> wp k Q s2) ->
  wp (iunlockput j ;; end_op ;; k) Q s1.
Proof.
  intros Hs Hc Hj Href Hrs HQ. destruct He as [Hid Hlay Htr _ _ _ _ _ _ _ _ _ _]. apply wp_bind.
  apply (wp_put_slot (with_vm s1 b) me p lb v (begun_env s me p v start Hid) (quiet_in_use _ _ (fi_quiet _ _ _ _ _ Hid)) Htr s1 ic j ip); [done..|].
  intros s2 ic2 Hs2 Hc2 R2 _. apply (wp_exec_end k s1 s2 ic2 Q Hs2). intros s3 Hs3. apply (HQ s3 ic2); [done|exact Hc2|]. now rewrite R2, Hrs, drop_take_same.
Qed.

(** The variables of the file system have no part in the page frames. *)
Lemma fss_frames s0 s1 lg ic : fss (with_vm s0 s) s1 lg ic v -> k_mem s1 = k_mem s0 /\ k_freelist s1 = k_freelist s0 /\ k_sym s1 = k_sym s /\ k_held s1 = [].
Proof. intros [(bs & ps & -> & _) _]. repeat split; try reflexivity. exact held_nil. Qed.

Lemma exec_fail_end s1 s2 ic : restored s1 -> fss (with_vm s1 s) s2 (k_log s) ic v -> k_sym s1 = k_sym s -> cok None ic -> refs ic = rs -> exec_failed (-1) s2.
Proof.
  intros Hr Hs Hsym Hc Hrs. destruct (fss_frames s1 s2 _ ic Hs) as (E1 & E2 & E3 & E4). split; [done|].
  split; [apply (restored_same s1); [done..|now rewrite E3|done]|]. exists ic. split; [done|]. split; [done|]. now rewrite (with_vm_fss s _ v s1 s2 ic Hs).
Qed.

(** goto bad with the file locked. *)
Lemma wp_exec_bad_file s1 ic j ip : restored s1 -> fss (with_vm s1 b) s1 lb ic v -> cok (Some j) ic -> ic !! j = Some ip -> 0 < i_ref ip ->
  refs ic = take_ref j rs -> wp (iunlockput j ;; end_op ;; ret (-1)) exec_failed s1.
Proof.
  intros Hr Hs Hc Hj Href Hrs. apply (wp_exec_put (ret (-1)) s1 ic j ip); [done..|]. intros s2 ic2 Hs2 Hc2 R2. wp_steps.
  apply (exec_fail_end s1 s2 ic2); try done. destruct Hs as [(bs & ps & -> & _) _]. reflexivity.
Qed.

Lemma wp_exec_bad_space d s0 s1 ic j ip sz f : fss (with_vm s1 b) s1 lb ic v -> cok (Some j) ic -> ic !! j = Some ip -> 0 < i_ref ip ->
  refs ic = take_ref j rs -> s0 = with_fs s1 b -> has_space s0 l d sz None f s1 -> d <> 0 -> wp (exec_bad d (Some j)) exec_failed s1.
Proof.
  intros Hs Hc Hj Href Hrs -> (T & U & l' & Hsp) Hd. unfold exec_bad. wp_steps. apply wp_if_false; [lia|].
  eapply wp_mono; [apply (wp_freevm d (with_fs s1 b) l s1 T U l'), Hsp|]. intros x s2 Hu. 
  enough (wp (iunlockput j ;; end_op ;; ret (-1)) exec_failed s2) as H.
  { wp_steps. apply wp_bind_inv in H. eapply wp_mono; [exact H|]. intros y s3 H3. exact (wp_bind_inv _ _ _ _ H3). }
  apply (wp_exec_bad_file s2 ic j ip); [apply (restored_unborn (with_fs s1 b)); try done; exact held_nil|exact (fss_vframe b lb v s1 s2 ic Hs (un_frame _ _ _ Hu))|done..].
Qed.

(** *** After the program is loaded *)

Section commit.
Context (s3 : kstate) (ic : list inode) (d sz entry : Z) (f : Z -> Z).
Hypothesis Hs3 : fss (with_vm s3 s) s3 (k_log s) ic v.
Hypothesis Hc3 : cok None ic.
Hypothesis Hrs : refs ic = rs.
Hypothesis Hsp : has_space (with_fs s3 s) l d sz None f s3.
Hypothesis Hd : d <> 0.
Hypothesis Hsz : 0 <= sz < KERNBASE.
Abbreviation c := (with_fs s3 s).

Lemma wp_commit_bad s4 sz4 g4 f4 : has_space c l d sz4 g4 f4 s4 -> wp (exec_bad d None) exec_failed s4.
Proof.
  intros (T & U & l' & H4). unfold exec_bad. wp_steps. apply wp_if_false; [lia|]. eapply wp_mono; [apply (wp_freevm d c l s4 T U l'), H4|]. intros x s5 Hu. wp_steps.
  split; [done|]. split; [apply (restored_unborn c); try done; exact held_nil|]. exists ic. split; [done|]. split; [done|].
  exact (fss_vframe s (k_log s) v s3 s5 ic Hs3 (un_frame _ _ _ Hu)).
Qed.

Lemma committed s4 s5 s6 ic4 d4 top sp : fss (with_vm s4 s) s4 (k_log s) ic4 v -> (me < length (k_procs s4))%nat ->
  s5 = s4 <| k_procs := <[me := new_proc d4 top sp entry]> (k_procs s4) |> <| k_esp0 := u32 (p_kstack p + KSTACKSIZE) |> <| k_cr3 := V2P d4 |> -> vframe s5 s6 ->
  fss ((with_vm s6 s) <| k_procs := <[me := new_proc d4 top sp entry]> (k_procs s) |>
         <| k_esp0 := u32 (p_kstack p + KSTACKSIZE) |> <| k_cr3 := V2P d4 |>) s6 (k_log s) ic4 v.
Proof using.
  clear. intros [(bs & ps & E & Hw) Hinv] Hlt -> (m & q & o & crt & pos & -> & _). split.
  - exists bs, (<[me := new_proc d4 top sp entry]> ps). split; [rewrite E; now destruct s|]. apply woken_insert. exact Hw.
  - exact Hinv.
Qed.

(** The commitment to the new program. *)
Lemma wp_commit_done top sp f4 s4 : has_space c l d top (Some (top / 4096 - 2)) f4 s4 ->
  wp (upd_proc me (set_name (last_elem path path)) ;;
      p ← proc_at me;
      upd_proc me (fun p => p <| p_pgdir := d |> <| p_sz := top |> <| p_tf := (p_tf p) <| tf_eip := entry |> <| tf_esp := sp |> |>) ;;
      switchuvm me ;; freevm (p_pgdir p) ;; ret 0) (exec_done top sp entry f4) s4.
Proof.
  intros (T & U & l4 & H4). pose proof (sp_born _ _ _ _ _ _ _ _ _ _ H4) as Hb. pose proof (bo_frame _ _ _ _ _ _ _ Hb) as Hfr.
  pose proof (fss_vframe s (k_log s) v s3 s4 ic Hs3 Hfr) as Hs4. pose proof (begun_env s me p v start (ex_idle _ _ _ _ _ _ _ _ _ _ _ He)) as Henv.
  destruct (fss_env (with_vm s4 s) me p Henv s4 _ ic v Hs4) as (_ & Hp & _). assert (me < length (k_procs s4))%nat as Hlt by now apply lookup_lt_Some in Hp.
  wp_steps. apply (wp_upd_proc me _ p _ _ Hp). wp_steps. eapply wp_proc_at; [now apply list_lookup_insert_eq|]. wp_steps.
  eapply wp_upd_proc; [now apply list_lookup_insert_eq|]. cbn [k_procs setf set_k_procs]. rewrite list_insert_insert_eq. unfold switchuvm. wp_steps.
  eapply wp_proc_at; [now apply list_lookup_insert_eq|]. apply wp_if_false; [cbn; pose proof (ex_kstack _ _ _ _ _ _ _ _ _ _ _ He); lia|]. apply wp_if_false; [cbn; lia|]. wp_steps.
  set (s5 := _ <| k_cr3 := _ |>). change (p_pgdir (set_name (last_elem path path) p)) with (p_pgdir p).
  assert (uvm c (p_pgdir p) T0 U0 l) as Hold by (apply base_uvm; try done; exact held_nil).
  assert (uvm s5 (p_pgdir p) T0 U0 l4) as H5.
  { apply (uvm_same s4); try done; [exact (born_parent c _ _ _ _ Hold _ _ _ _ _ Hb)|]. right. destruct Hs4 as [(bs & ps & E & _) _]. cbn. rewrite E. cbn. rewrite held_nil. apply not_elem_of_nil. }
  eapply wp_mono; [apply (wp_freevm (p_pgdir p) s5 (p_pgdir p :: l4 ++ tabs T0 ++ upages U0) s5 T0 U0 l4); split; [done|apply vframe_refl|done|done]|].
  intros x s6 Hu. wp_steps. assert (k_held s6 = []) as Hh6.
  { destruct (vframe_fields _ _ (un_frame _ _ _ Hu)) as (_ & -> & _). destruct Hs4 as [(bs & ps & E & _) _]. unfold s5. rewrite E. exact held_nil. }
  destruct (beside_uvm c (p_pgdir p) T0 U0 l Hold d top _ f4 s4 T U l4 H4 s5 s6 eq_refl eq_refl Hh6 Hu) as (l6 & Hl6 & Hv6).
  split; [done|]. exists ic, d, T, U, l6. split; [done|]. split; [done|]. split; [|split; [done|split; [|split; [|split; [|split; [|split]]]]]].
  - exact (committed s4 s5 s6 ic d top sp Hs4 Hlt eq_refl (un_frame _ _ _ Hu)).
  - exact (beside_kernel c (p_pgdir p) T0 U0 l Hold d top _ f4 s4 T U l4 H4 s5 s6 eq_refl eq_refl Hu).
  - apply H4.
  - apply H4.
  - exact (beside_byte c (p_pgdir p) T0 U0 l Hold d top _ f4 s4 T U l4 H4 s5 s6 eq_refl Hu).
  - exact (beside_pages c (p_pgdir p) T0 U0 l d top _ f4 s4 T U l4 H4 l6 Hl6).
  - exact (beside_out c (p_pgdir p) T0 U0 l d top _ f4 s4 T U l4 H4 s5 s6 eq_refl Hu).
Qed.

Definition commit_post (o : option (Z * Z * (Z -> Z))) (r : Z) (s' : kstate) : Prop :=
  match o with
  | None => exec_failed r s'
  | Some (top, sp, f') => exec_done top sp entry f' r s' \/ exec_failed r s' /\ short l top
  end.

Lemma commit_post_failed o r s' : exec_failed r s' -> (forall top sp f', o = Some (top, sp, f') -> short l top) -> commit_post o r s'.
Proof. intros Hf Hs. destruct o as [[[top sp] f']|]; [|done]. right. split; [done|]. now apply (Hs top sp f'). Qed.

(** The stack and the commitment, once the memory of the stack is there. *)
Lemma wp_commit_stack s4 : let top := stack_top sz in has_space c l d top (Some (top / 4096 - 2)) f s4 -> link_ok (k_sym s4) -> top < KERNBASE ->
  wp (o ← push_args d argv 0 top [];
      match o with
      | None => exec_bad d None
      | Some (sp, addrs) =>
        let argc := Z.of_nat (length argv) in
        let ustack := [0xffffffff; argc; u32 (sp - (argc + 1) * 4)] ++ addrs ++ [0] in
        let sp := u32 (sp - (3 + argc + 1) * 4) in
        r ← copyout d sp (concat (le_bytes 4 <$> ustack)) ((3 + argc + 1) * 4);
        if r <? 0 then exec_bad d None else
        upd_proc me (set_name (last_elem path path)) ;;
        p ← proc_at me;
        upd_proc me (fun p => p <| p_pgdir := d |> <| p_sz := top |> <| p_tf := (p_tf p) <| tf_eip := entry |> <| tf_esp := sp |> |>) ;;
        switchuvm me ;; freevm (p_pgdir p) ;; ret 0
      end) (commit_post (exec_stack sz f argv)) s4.
Proof.
  intros top H4 Hlk Hlt. assert (8192 <= top < KERNBASE /\ top mod 4096 = 0) as Htop by (unfold top, stack_top in *; div_lia). unfold KERNBASE in Hlt.
  wp_steps. eapply wp_mono; [apply (wp_push_args c l d top Htop argv (ex_args _ _ _ _ _ _ _ _ _ _ _ He) 0 top [] f s4 H4 Hlk); [lia|unfold MAXARG; lia]|].
  intros o s5 [F5 Ho]. unfold exec_stack. fold top. rewrite (proj2 (Z.leb_gt KERNBASE top)) by (unfold KERNBASE; lia). rewrite orb_false_l. rewrite Z.add_0_l in Ho.
  destruct (Z.ltb_spec MAXARG (Z.of_nat (length argv))) as [Hmany|Hfew].
  { destruct Ho as [-> (f5 & H5)]. now apply (wp_commit_bad s5 top (Some (top / 4096 - 2)) f5). }
  destruct (push (top - 4096) argv top f []) as [[[sp addrs] f5]|] eqn:Ep.
  2: { destruct Ho as [-> (f5 & H5)]. now apply (wp_commit_bad s5 top (Some (top / 4096 - 2)) f5). }
  destruct Ho as [-> H5]. destruct (push_addrs _ _ _ _ _ _ _ _ Ep) as (P1 & P2 & P3); [lia|div_lia|]. cbn [length] in P3.
  set (argc := Z.of_nat (length argv)) in *. cbv zeta. unfold MAXARG in *. rewrite !u32_small by (unfold is_u32; lia).
  fold (frame_words argc sp addrs). fold (frame_bytes argc sp addrs). wp_steps.
  eapply wp_mono; [apply (wp_push_frame c l d top Htop f5 s5 sp argc addrs H5); unfold MAXARG; lia|]. intros r s6 [F6 Hr].
  destruct (_ <? top - 4096).
  - destruct Hr as [-> (f6 & H6)]. apply wp_if_true; [done|]. now apply (wp_commit_bad s6 top (Some (top / 4096 - 2)) f6).
  - destruct Hr as [-> H6]. apply wp_if_false; [done|]. pose proof (wp_commit_done top (sp - (3 + argc + 1) * 4) _ s6 H6) as H.
    eapply wp_mono; [exact H|]. intros r s7 H7. now left.
Qed.

Lemma wp_exec_commit : wp (exec_commit path argv d sz entry) (commit_post (exec_stack sz f argv)) s3.
Proof.
  pose proof (begun_env s me p v start (ex_idle _ _ _ _ _ _ _ _ _ _ _ He)) as Henv. destruct (fss_env (with_vm s3 s) me p Henv s3 _ ic v Hs3) as (Hcur & _).
  unfold KERNBASE in Hsz. unfold exec_commit. wp_steps. apply (wp_curproc me); [done|]. cbv zeta. rewrite PGROUNDUP_spec by (unfold PGSIZE; lia).
  replace (sz + PGSIZE - 1) with (sz + 4095) by (unfold PGSIZE; lia). change ((sz + 4095) / PGSIZE * PGSIZE) with ((sz + 4095) / 4096 * 4096).
  set (sz1 := (sz + 4095) / 4096 * 4096). assert (sz1 + 2 * PGSIZE = stack_top sz) as Etop by reflexivity.
  set (top := stack_top sz) in *. assert (u32 (sz1 + 2 * PGSIZE) = top) as -> by (rewrite Etop; apply u32_small; unfold top, stack_top; div_lia).
  assert (has_space c l d sz1 None f s3) as Hsp1.
  { destruct Hsp as (T & U & l' & [B1 B2 B3 B4 B5 B6]). exists T, U, l'. split; try done. intros k. rewrite (B3 k). unfold sz1. div_lia. }
  assert (can_print s3) as Hpr.
  { destruct Hsp as (T & U & l' & Hx). apply (can_print_frame c); [apply Hx|]. exact (ex_print _ _ _ _ _ _ _ _ _ _ _ He). }
  wp_steps. eapply wp_mono; [apply (wp_space_alloc c l d sz1 f s3 top Hsp1 Hpr); unfold sz1, top, stack_top; div_lia|]. intros r s4 [Hfr Hr].
  destruct (Z.leb_spec KERNBASE top) as [Hge|Hlt].
  { destruct Hr as [-> Hr]. apply wp_if_true; [done|]. eapply wp_mono; [now apply (wp_commit_bad s4 sz1 None f)|]. intros r s5 H5.
    apply commit_post_failed; [done|]. unfold exec_stack. fold top. rewrite (proj2 (Z.leb_le _ _) Hge). done. }
  rewrite Z.max_r in Hr by (unfold sz1, top, stack_top; div_lia). destruct Hr as [[-> Hr]|(-> & Hr & Hsh)].
  2: { apply wp_if_true; [done|]. eapply wp_mono; [now apply (wp_commit_bad s4 sz1 None f)|]. intros r s5 H5. apply commit_post_failed; [done|]. unfold exec_stack. fold top.
       intros top' sp' f'. destruct (_ || _); [done|]. destruct (push _ _ _ _ _) as [[[? ?] ?]|]; [|done]. destruct (_ <? _); [done|]. intros [= <- _ _]. exact Hsh. }
  apply wp_if_false; [unfold top, stack_top; div_lia|]. assert (u32 (top - 2 * PGSIZE) = (top / 4096 - 2) * 4096) as ->.
  { rewrite u32_small; unfold top, stack_top, PGSIZE, KERNBASE, is_u32 in *; div_lia. }
  wp_steps. apply (wp_space_clear c l d top f s4); [done|unfold top, stack_top; div_lia|unfold top, stack_top; div_lia|]. intros s5 F5 H5.
  apply (wp_commit_stack s5); [exact H5| |done]. apply (mem_frame_link s4 s5 F5). destruct (vframe_fields _ _ Hfr) as [-> _].
  replace (k_sym s3) with (k_sym s) by (destruct Hs3 as [(bs & ps & -> & _) _]; reflexivity). exact (ex_link _ _ _ _ _ _ _ _ _ _ _ He).
Qed.
End commit.

(** *** The file is found and locked *)

Section found.
Context (ic : list inode) (j : nat) (ip : inode).
Hypothesis Hc : cok (Some j) ic.
Hypothesis Hj : ic !! j = Some ip.
Hypothesis Href : 0 < i_ref ip.
Hypothesis Hrefs : refs ic = take_ref j rs.
Hypothesis Hfile : file_inv (k_sb s) (v_data v) ip.

Definition image_post (o : option (Z * Z * Z * (Z -> Z))) (r : Z) (s' : kstate) : Prop :=
  match o with
  | None => exec_failed r s'
  | Some (top, sp, entry, f) => exec_done top sp entry f r s' \/ exec_failed r s' /\ short l top
  end.

Lemma image_post_failed o r s' : exec_failed r s' -> (forall top sp entry f, o = Some (top, sp, entry, f) -> short l top) -> image_post o r s'.
Proof. intros Hf Hs. destruct o as [[[[top sp] entry] f]|]; [|done]. right. split; [done|]. now apply (Hs top sp entry f). Qed.

Lemma base_restored s1 ic1 : fss b s1 lb ic1 v -> restored s1.
Proof.
  intros [(bs & ps & -> & _) _]. exists l. split; [|done]. apply base_uvm; try done. exact held_nil.
Qed.

(** A new address space is empty. *)
Lemma loading_start d s3 s4 T l' : fss b s3 lb ic v -> born d s3 l s4 T ∅ l' -> kernel_map s4 T -> loading b lb v l d ic 0 (fun _ => 0) s4.
Proof.
  intros Hs3 Hb Hk. destruct (fss_base b lb v s3 ic Hs3) as [E1 E2]. pose proof (bo_frame _ _ _ _ _ _ _ Hb) as Hfr. rewrite <- E1 in Hs3. split.
  - apply (fss_vframe b lb v s3); [done|now rewrite E2].
  - rewrite (with_fs_vframe b s3 s4 Hfr), E2. exists T, ∅, l'. split; [done|done| | | |].
    + intros k. rewrite lookup_empty. split; [now intros [? ?]|lia].
    + intros k u fl. now rewrite lookup_empty.
    + intros k u fl. now rewrite lookup_empty.
    + intros va. unfold ubyte. now rewrite lookup_empty.
Qed.

(** The space once the file is given up. *)
Lemma loading_end d sz f s5 s6 ic6 : loading b lb v l d ic sz f s5 -> fss (with_vm s5 s) s6 (k_log s) ic6 v ->
  fss (with_vm s6 s) s6 (k_log s) ic6 v /\ has_space (with_fs s6 s) l d sz None f s6.
Proof.
  intros [H5 (T & U & l' & Hsp)] H6. destruct (fss_frames s5 s6 _ ic6 H6) as (E1 & E2 & E3 & E4). pose proof (with_vm_fss s _ v s5 s6 ic6 H6) as Ev.
  split; [now rewrite Ev|]. exists T, U, l'. assert (vframe (with_fs s5 b) s5) as Hfr by apply Hsp. destruct (vframe_fields _ _ Hfr) as (Es & _ & _ & _ & Hcrt).
  apply (space_rebase (with_fs s5 b) l d sz None f s5 T U l'); [done|done|done|now rewrite E3, Es|right; rewrite E4; apply not_elem_of_nil|done|].
  exists (k_mem s5), (k_freelist s5), (k_conout s5), (k_crt s5), (k_crtpos s5). split; [|exact Hcrt]. destruct H6 as [(bs & ps & -> & _) _]. now destruct s.
Qed.

(** The program headers and the rest, in a new address space. *)
Lemma wp_exec_load d s4 elf : loading b lb v l d ic 0 (fun _ => 0) s4 -> d <> 0 ->
  readi_result (v_data v) ip 0 sizeof_elfhdr = (sizeof_elfhdr, elf) -> elf_magic elf = ELF_MAGIC ->
  wp (o ← load_segments (Z.to_nat (elf_phnum elf)) j d (s32 (elf_phoff elf)) 0;
      match o with
      | None => exec_bad d (Some j)
      | Some sz => iunlockput j ;; end_op ;; exec_commit path argv d sz (elf_entry elf)
      end) (image_post (exec_image v ip argv)) s4.
Proof.
  intros H4 Hd Eelf Emag. pose proof He as [Hid Hlay _ _ _ _ Hby _ _ _ Hpr _ _]. destruct (fi_quiet _ _ _ _ _ Hid) as (Hh & _).
  pose proof (begun_env s me p v start Hid) as Henv. wp_steps.
  eapply wp_mono; [apply (wp_load_segments b me p start lb v l d Henv Hlay Hh (quiet_in_use _ _ (fi_quiet _ _ _ _ _ Hid)) Hby j ip ic Hj Hfile Hpr _ _ 0 _ s4 H4); unfold KERNBASE; lia|].
  intros r s5 Hr. unfold exec_image. rewrite Eelf, Emag. rewrite (proj2 (negb_false_iff _) (Z.eqb_refl sizeof_elfhdr)), (proj2 (negb_false_iff _) (Z.eqb_refl ELF_MAGIC)).
  destruct Hr as [(sz & f & Ep & -> & H5)|(-> & (sz & f & H5) & Hsh)].
  - rewrite Ep. pose proof (program_size v ip _ _ _ _ _ _ Ep) as Hlo. pose proof (program_bound v ip _ _ _ _ _ _ Ep ltac:(unfold KERNBASE; lia)) as Hhi.
    apply (wp_exec_put (exec_commit path argv d sz (elf_entry elf)) s5 ic j ip); [apply H5|done..|]. intros s6 ic6 H6 Hc6 R6.
    destruct (loading_end d sz f s5 s6 ic6 H5 H6) as [H6' Hsp6]. eapply wp_mono; [apply (wp_exec_commit s6 ic6 d sz (elf_entry elf) f); try done; lia|].
    intros r s7 H7. destruct (exec_stack sz f argv) as [[[top sp] f']|]; exact H7.
  - eapply wp_mono; [apply (wp_exec_bad_space d (with_fs s5 b) s5 ic j ip sz f); try done; apply H5|]. intros r s6 H6. apply image_post_failed; [done|].
    intros top sp entry f'. destruct (program v ip _ _ _ _) as [[sz2 f2]|] eqn:Ep; [|done]. specialize (Hsh sz2 f2 eq_refl).
    destruct (exec_stack sz2 f2 argv) as [[[top2 sp2] f3]|] eqn:Es; [|done]. intros [= -> _ _ _]. unfold exec_stack in Es.
    destruct (_ || _); [done|]. destruct (push _ _ _ _ _) as [[[? ?] ?]|]; [|done]. destruct (_ <? _); [done|]. injection Es as <- _ _. unfold short, stack_top in *. div_lia.
Qed.

Lemma wp_exec_file s2 : fss b s2 lb ic v ->
  wp ('(r, elf) ← readi j 0 sizeof_elfhdr;
      if negb (r =? sizeof_elfhdr) then exec_bad 0 (Some j) else
      if negb (elf_magic elf =? ELF_MAGIC) then exec_bad 0 (Some j) else
      pgdir ← setupkvm;
      if pgdir =? 0 then exec_bad 0 (Some j) else
      o ← load_segments (Z.to_nat (elf_phnum elf)) j pgdir (s32 (elf_phoff elf)) 0;
      match o with
      | None => exec_bad pgdir (Some j)
      | Some sz => iunlockput j ;; end_op ;; exec_commit path argv pgdir sz (elf_entry elf)
      end) (image_post (exec_image v ip argv)) s2.
Proof.
  intros H2. pose proof He as [Hid Hlay _ _ _ _ _ _ Hsp Hlk _ _ _]. destruct (fi_quiet _ _ _ _ _ Hid) as (Hh & _). pose proof (begun_env s me p v start Hid) as Henv.
  assert (forall s1, restored s1 -> fss (with_vm s1 b) s1 lb ic v -> wp (exec_bad 0 (Some j)) exec_failed s1) as Hbad.
  { intros s1 Hr Hs1. pose proof (wp_exec_bad_file s1 ic j ip Hr Hs1 Hc Hj Href Hrefs) as H. unfold exec_bad. wp_steps. apply wp_if_true; [done|]. wp_steps. apply wp_bind_inv in H.
    eapply wp_mono; [exact H|]. intros x s3 H3. exact (wp_bind_inv _ _ _ _ H3). }
  destruct Hfile as [F1 F2 _ _ _ F6]. wp_steps.
  apply (wp_readi b me p start Henv Hlay j s2 lb ic v ip); [done|done|done|done|done|done|exact (quiet_in_use _ _ (fi_quiet _ _ _ _ _ Hid))|done|done|].
  intros s3 H3. pose proof (base_restored s3 ic H3) as Hr3. destruct (fss_base b lb v s3 ic H3) as [E1 E2]. assert (fss (with_vm s3 b) s3 lb ic v) as H3' by now rewrite E1.
  destruct (readi_result (v_data v) ip 0 sizeof_elfhdr) as [r elf] eqn:Er. wp_steps.
  apply wp_if; [intros E; eapply wp_mono; [now apply Hbad|]; intros x s4 H4; unfold exec_image; rewrite Er, E; exact H4|intros E].
  apply wp_if; [intros Em; eapply wp_mono; [now apply Hbad|]; intros x s4 H4; unfold exec_image; rewrite Er, E, Em; exact H4|intros Em]. wp_steps.
  assert (r = sizeof_elfhdr) as -> by lia. assert (elf_magic elf = ELF_MAGIC) as Emag by lia.
  assert (free_pages s3 l /\ k_sym s3 = k_sym s /\ k_mem s3 = k_mem s /\ k_freelist s3 = k_freelist s /\ k_held s3 = []) as (Hfp & Esym & Emem & Efl & Eh).
  { destruct H3 as [(bs & ps & -> & _) _]. pose proof (uv_vm _ _ _ _ _ Hsp) as Hv. split; [split; apply Hv|]. repeat split; try reflexivity. exact held_nil. }
  eapply wp_mono; [apply (wp_setupkvm s3 l Hfp); now rewrite Esym|]. intros d s4 [(-> & Hu & Hsh)|(Hd & T & l' & Hb & Hk)].
  - apply wp_if_true; [done|]. assert (fss (with_vm s4 b) s4 lb ic v) as H4.
    { apply (fss_vframe b lb v s3); [done|]. rewrite E2. apply Hu. }
    eapply wp_mono; [apply Hbad; [now apply (restored_unborn s3)|done]|]. intros x s5 H5. apply image_post_failed; [done|]. intros top sp entry f Hi.
    unfold short. assert (0 <= (top + 4095) / 4096) by (apply Z.div_pos; [|done]; apply (image_size _ _ _ _ _ _ _ Hi)). lia.
  - apply wp_if_false; [lia|]. exact (wp_exec_load d s4 elf (loading_start d s3 s4 T l' H3 Hb Hk) Hd Er Emag).
Qed.
End found.

Lemma exec_refs_nonneg : Forall (fun r => 0 <= r) rs.
Proof. unfold refs. apply Forall_fmap, Forall_lookup_2. intros k x Hk. exact (so_ref _ _ _ _ (ex_cache _ _ _ _ _ _ _ _ _ _ _ He k x Hk)). Qed.

(** The path leads nowhere. *)
Lemma wp_exec_nofile s1 ic : fss b s1 lb ic v -> cok None ic -> refs ic = rs ->
  wp (end_op ;; cprintf (str "exec: fail" ++ [10]) [] ;; ret (-1)) exec_failed s1.
Proof.
  intros Hs Hc Hr. assert (with_vm s b = b) as Eb by (unfold with_vm, screen, begun; now destruct s). rewrite <- Eb in Hs.
  apply (wp_exec_end _ s s1 ic _ Hs). intros s2 Hs2. assert (with_vm s s = s) as Es by (unfold with_vm, screen; now destruct s).
  destruct (fss_frames s s2 _ ic Hs2) as (E1 & E2 & E3 & E4). rewrite Es in Hs2. destruct (fss_base s (k_log s) v s2 ic Hs2) as [E5 E6].
  assert (can_print s2) as Hpr by (destruct Hs2 as [(bs & ps & -> & _) _]; exact (ex_print _ _ _ _ _ _ _ _ _ _ _ He)).
  wp_steps. apply wp_cprintf_plain; [now apply (bool_decide_unpack _)|done|]. intros o crt pos Hcrt. wp_steps. split; [done|]. split.
  - apply (restored_same s2); try done. exists l. rewrite E1. split; [|done]. now apply base_uvm.
  - exists ic. split; [done|]. split; [done|]. apply (fss_vframe s (k_log s) v s2); [now rewrite E5|]. rewrite E6.
    exists (k_mem s2), (k_freelist s2), o, crt, pos. split; [now destruct s2|done].
Qed.

(** What exec does: the program of the file the path leads to, or -1. *)
Definition exec_post (r : Z) (s' : kstate) : Prop :=
  match resolve (k_sb s) (v_data v) n (path_elems path) with
  | None => exec_failed r s'
  | Some m => image_post (exec_image v (disk_inode (k_sb s) (v_data v) m) argv) r s'
  end.

Lemma wp_exec : wp (exec path argv) exec_post s.
Proof.
  pose proof He as [Hid Hlay Htr Hc Hfree Hst _ Hfile _ _ _ _ _]. pose proof (begun_env s me p v start Hid) as Henv.
  pose proof (quiet_in_use _ _ (fi_quiet _ _ _ _ _ Hid)) as Hu. destruct (fi_quiet _ _ _ _ _ Hid) as (Hh & _). unfold exec, exec_post.
  wp_steps. apply (wp_begin_op s start); [apply Henv|apply Hid|]. fold (begun s). wp_steps.
  apply (wp_namei b me p start lb v Henv Hlay Hh Hu Htr b (k_icache s) path n); [exact (begun_fss s me p v start Hid)|done..|].
  intros r s1 ic1 Hs1 Hc1 Hr. change (k_sb b) with (k_sb s) in *. destruct (resolve _ _ n _) as [m|].
  2: { destruct Hr as [-> Hr]. now apply (wp_exec_nofile s1 ic1). }
  destruct Hr as (j & -> & Hj & R1). destruct (slot_held v Hu ic1 j m rs exec_refs_nonneg Hj R1) as (ip & Hip & Em & Href). wp_steps.
  apply (wp_lock_slot b me p start lb v Henv Hlay Hh Hu s1 ic1 j ip); [done..|]. intros s2 ip2 Hs2 Hc2 E1 E2 E3. rewrite <- E1 in Href.
  assert (<[j := ip2]> ic1 !! j = Some ip2) as Hip2 by (apply list_lookup_insert_eq; now apply lookup_lt_Some in Hip).
  pose proof (refs_insert_same ic1 j ip ip2 Hip E1) as R2. rewrite R1 in R2. change (k_sb b) with (k_sb s) in *.
  pose proof (Hc2 j ip2 Hip2) as [_ _ S3 _ S5]. pose proof (synced_disk (k_sb s) (v_data v) ip2 (S3 Href) (S5 Href E3)) as Eip. rewrite E2, Em in Eip.
  assert (file_inv (k_sb s) (v_data v) ip2) as Hf2 by (rewrite Eip; apply file_inv_memory; now apply Hfile).
  rewrite <- (image_memory v ip2), <- Eip. pose proof (wp_exec_file (<[j := ip2]> ic1) j ip2 Hc2 Hip2 Href R2 Hf2 s2 Hs2) as H. exact H.
Qed.
End exec.

(** C4: exec. When the path leads to an executable whose program, guard page, stack and arguments fit the user's part of
    the address space, exec returns 0 and the process is that program: in a new address space of page frames of its own, with the
    kernel's map, the segments of the file one over the other, zeros around them, and at the top the stack with the arguments and
    their frame above a page that user code cannot touch; the registers start it, and the old address space is free again. Or it
    returns -1, which for such an executable happens only if no more than 1025 pages and those of the program are free. It returns -1
    whenever there is no such executable. When it returns -1 the process has the address space it had, with what it held, and the same pages are free. No page frame is lost either way, the inode's reference is dropped, and the disk is
    not changed. The arguments are shorter than 32 MB each ([arg_ok]). *)
Theorem exec_correct s me p v start path argv n T0 U0 l : execer s me p v start path argv n T0 U0 l ->
  wp (exec path argv) (fun r s' =>
    match resolve (k_sb s) (v_data v) n (path_elems path) with
    | None => exec_failed s p v T0 U0 l r s'
    | Some m =>
      match exec_image v (disk_inode (k_sb s) (v_data v) m) argv with
      | None => exec_failed s p v T0 U0 l r s'
      | Some (top, sp, entry, f) =>
        exec_done s me p v path T0 U0 l top sp entry f r s' \/
        exec_failed s p v T0 U0 l r s' /\ Z.of_nat (length l) <= 1025 + (top + 4095) / 4096
      end
    end) s.
Proof. exact (wp_exec s me p v start path argv n T0 U0 l). Qed.

(** ** An example

    The disk of the example directory, with the name "d" for a program of one page: four bytes at address 0. *)

Definition ex_elf : list Z :=
  foldl (fun b '(k, x) => wr32 b k x) zero_block
    [(0%nat, ELF_MAGIC); (28%nat, 52); (44%nat, 1); (52%nat, ELF_PROG_LOAD); (56%nat, 84); (68%nat, 4); (72%nat, 4096); (84%nat, 0x90909090)].
Definition ex_prog : inode := mk_inode 1 3 0 (mk_sleeplock 0 0) 0 T_FILE 0 0 1 88 (36 :: replicate 12 0).
Definition ex_exec_disk : gmap Z (list Z) :=
  {[ 1 := disk_block ex_fs_disk 1; 32 := splice (dinode_off 3) (encode_dinode ex_prog) (splice (dinode_off 1) (encode_dinode ex_dir) zero_block);
     34 := foldl set_bit zero_block (seq 0 37); 35 := ex_entries; 36 := ex_elf ]}.
Abbreviation ex_ED := (disk_block ex_exec_disk).

Lemma ex_exec_block bno : length (ex_ED bno) = 512%nat /\ Forall is_u8 (ex_ED bno).
Proof.
  assert (Forall (fun k => bool_decide (length (ex_ED k) = 512%nat) && forallb (fun x => (0 <=? x) && (x <? 256)) (ex_ED k) = true) [1; 32; 34; 35; 36; 0]) as H
    by (repeat constructor; now vm_compute).
  assert (ex_ED bno = ex_ED 0 \/ bno ∈ [1; 32; 34; 35; 36]) as Hb.
  { unfold disk_block, ex_exec_disk. destruct (decide (bno ∈ [1; 32; 34; 35; 36])) as [|Hn]; [now right|left].
    rewrite !not_elem_of_cons in Hn. rewrite !lookup_insert_ne, lookup_singleton_ne by (intros E; subst; tauto). reflexivity. }
  assert (forall k, k ∈ [1; 32; 34; 35; 36; 0] -> length (ex_ED k) = 512%nat /\ Forall is_u8 (ex_ED k)) as Hk.
  { intros k Hk. rewrite list.Forall_forall in H. apply H in Hk as [H1 H2]%andb_prop. split; [now apply bool_decide_eq_true in H1|].
    rewrite forallb_forall in H2. apply list.Forall_forall. intros x Hx. apply list_elem_of_In in Hx. specialize (H2 x Hx). unfold is_u8. lia. }
  destruct Hb as [->|Hb]; apply Hk; set_solver.
Qed.

(** A file of one block. *)
Lemma one_block_slot D ip a bn : i_addrs ip = a :: replicate 12 0 -> 0 <= bn -> slot D ip bn = if bn =? 0 then a else 0.
Proof.
  intros Ha H. unfold slot, ind. rewrite Ha. destruct (Z.eqb_spec bn 0) as [->|Hne]; [done|]. destruct (bn <? NDIRECT); [|done].
  replace (Z.to_nat bn) with (S (Z.to_nat (bn - 1))) by lia. cbn [lookup list_lookup].
  destruct (replicate 12 0 !! Z.to_nat (bn - 1)) eqn:E; [|done]. now apply lookup_replicate in E as [-> _].
Qed.

Lemma one_block_inv sb D ip a : i_addrs ip = a :: replicate 12 0 -> a <> 0 -> is_u32 a -> data_block sb a -> used sb D a -> i_dev ip = 1 -> 0 <= i_size ip <= 512 ->
  synced sb D ip -> is_s16 (i_type ip) -> is_s16 (i_major ip) -> is_s16 (i_minor ip) -> is_s16 (i_nlink ip) -> 0 <= i_inum ip < sb_ninodes sb -> i_type ip <> T_DEV ->
  file_inv sb D ip.
Proof.
  intros Ha Hne H32 Hd Hu Hdev Hsz Hsy H1 H2 H3 H4 Hin Hty. assert (ind ip = 0) as Ei by (unfold ind; now rewrite Ha). constructor; try done.
  - constructor; [done|now rewrite Ha|now rewrite Ei| |].
    + intros bn [Hb _]. rewrite (one_block_slot D ip a) by done. destruct (bn =? 0); [|done]. intros _. split; [done|]. split; [done|congruence].
    + intros x y [Hx _] [Hy _]. rewrite !(one_block_slot D ip a) by done. destruct (Z.eqb_spec x 0), (Z.eqb_spec y 0); lia.
  - split; [change (MAXFILE * BSIZE) with 71680; lia|]. intros bn B1 B2. unfold BSIZE in B2. rewrite (one_block_slot D ip a) by done. now replace bn with 0 by lia.
  - constructor; try done; [unfold is_u32; lia|now rewrite Ha|]. rewrite Ha. constructor; [done|]. now apply Forall_replicate.
Qed.

Lemma ex_exec_inodes : disk_inode ex_sb ex_ED 1 = in_memory ex_slot ex_dir /\ disk_inode ex_sb ex_ED 3 = in_memory ex_slot ex_prog.
Proof. split; now vm_compute. Qed.

Lemma ex_exec_dir : dir_ok ex_sb ex_ED ex_dir.
Proof. split; [|done..]. apply (one_block_inv _ _ _ 35); (done || now vm_compute). Qed.

Lemma ex_exec_prog : file_inv ex_sb ex_ED ex_prog.
Proof. apply (one_block_inv _ _ _ 36); (done || now vm_compute). Qed.

Lemma ex_exec_alive n : alive ex_sb ex_ED n -> n = 1 \/ n = 3.
Proof.
  intros [Hn Ht]. change (sb_ninodes ex_sb) with 8 in Hn.
  assert (Forall (fun k => i_type (disk_inode ex_sb ex_ED k) <> 0 -> k = 1 \/ k = 3) (seqZ 1 7)) as H.
  { apply (bool_decide_unpack _). now vm_compute. }
  rewrite list.Forall_forall in H. apply (H n); [apply elem_of_seqZ; lia|done].
Qed.

Lemma ex_exec_tree : tree_ok ex_sb ex_ED.
Proof.
  destruct ex_exec_inodes as [E1 E3]. assert (alive ex_sb ex_ED 1 /\ alive ex_sb ex_ED 3) as [A1 A3].
  { unfold alive. rewrite E1, E3. change (sb_ninodes ex_sb) with 8. cbn. split; split; (lia || done). }
  split.
  - exact A1.
  - intros n [-> | ->]%ex_exec_alive Ht; [|now rewrite E3 in Ht]. rewrite E1. apply dir_ok_memory, ex_exec_dir.
  - intros n name m [-> | ->]%ex_exec_alive Ht; [|now rewrite E3 in Ht]. rewrite E1, dir_get_memory. intros [_ Hm]%dir_get_in.
    replace (de_inum <$> dirents ex_ED ex_dir) with [1; 3] in Hm by now vm_compute.
    apply elem_of_cons in Hm as [-> |Hm]; [done|]. apply list_elem_of_singleton in Hm as ->. done.
  - intros n [-> | ->]%ex_exec_alive; [now rewrite E1|now rewrite E3].
Qed.

Lemma ex_exec_resolve : resolve ex_sb ex_ED 1 (path_elems [100]) = Some 3.
Proof. now vm_compute. Qed.

Definition ex_execer : proc := zero_proc <| p_sz := 4096 |> <| p_pgdir := 0x80204000 |> <| p_kstack := 0x80400000 |> <| p_cwd := Some 0%nat |>.
Definition ex_exec_fs : kstate :=
  state_after binit
    ((one_proc_state ex_execer []) <| k_disk := ex_exec_disk |> <| k_sb := ex_sb |> <| k_mem := k_mem ex_parent |> <| k_freelist := k_freelist ex_parent |>
       <| k_icache := [ex_root_slot; ex_slot; ex_slot] |> <| k_log := mk_logst 2 30 0 0 1 0 (replicate 30 0) |>).

(** The process runs "d" with its name as the only argument. *)
Definition ex_exec_ok (s : kstate) : Prop :=
  k_sb s = ex_sb /\ execer s 0 (ex_execer <| p_state := RUNNING |>) (v_init ex_exec_disk) 2 [100] [[100]] 1 ex_parent_T ex_parent_U ex_vm_free.

Lemma ex_exec_fs_ok : ex_exec_ok ex_exec_fs.
Proof.
  unfold ex_exec_fs. apply (wp_state_after _ ex_exec_ok). apply wp_binit; [apply (one_proc_fresh ex_execer)|intros bno; apply ex_exec_block|].
  intros bs s' Hinv. split; [reflexivity|]. constructor.
  - constructor; try done; try exact Hinv; try (now repeat split).
  - exact ex_fs_layout.
  - exact ex_exec_tree.
  - intros [|[|[|k]]] ip; cbn; intros [= <-]; split; done.
  - now exists 1%nat, 2%nat.
  - exists 0%nat, ex_root_slot. repeat split; reflexivity.
  - intros k. apply ex_exec_block.
  - intros m Hm. change (k_sb s') with ex_sb in *. change (v_data (v_init ex_exec_disk)) with ex_ED in *. rewrite ex_exec_resolve in Hm. injection Hm as <-.
    rewrite (proj2 ex_exec_inodes). apply file_inv_memory, ex_exec_prog.
  - apply (uvm_same ex_parent); [exact ex_parent_uvm|reflexivity|reflexivity|reflexivity|]. left. reflexivity.
  - repeat split; reflexivity.
  - split; [split; [apply length_replicate|done]|done].
  - discriminate.
  - constructor; [|constructor]. split; [repeat constructor; unfold is_u8; lia|cbn; lia].
Qed.

Lemma ex_exec_image : match exec_image (v_init ex_exec_disk) (disk_inode ex_sb ex_ED 3) [[100]] with
  | Some (top, _, entry, f) => top = 12288 /\ entry = 0 /\ f 3 = 0x90 /\ f 4 = 0
  | None => False
  end.
Proof. now vm_compute. Qed.

Lemma exec_correct_witness : wp (exec [100] [[100]]) (fun r s' =>
  r = 0 /\ (exists U, covers U 12288 /\ ubyte (k_mem s') U 3 = 0x90 /\ ubyte (k_mem s') U 4 = 0) \/ r = -1) ex_exec_fs.
Proof.
  destruct ex_exec_fs_ok as [Es Hx]. eapply wp_mono; [exact (exec_correct _ _ _ _ _ _ _ _ _ _ _ Hx)|]. cbn beta. intros r s'. rewrite Es.
  change (v_data (v_init ex_exec_disk)) with ex_ED. rewrite ex_exec_resolve. pose proof ex_exec_image as Hi.
  destruct (exec_image _ _ _) as [[[[top sp] entry] f]|]; [|destruct Hi]. destruct Hi as (-> & -> & F3 & F4). intros [H|[[-> _] _]]; [|right; reflexivity].
  destruct H as (-> & ic & d & T & U & l' & _ & _ & _ & _ & _ & Hc & _ & Hb & _). left. split; [reflexivity|]. exists U. rewrite !Hb. split; [exact Hc|split; [exact F3|exact F4]].
Defined.
