(* ===== verification/Syscall.v ===== *)
(** The system call dispatcher, syscall.c, and the trap handler, trap.c. *)

From stdpp Require Import base list gmap strings numbers.
From Stdlib Require Import ZArith Lia.
From S2P Require Import Prelude CString Bytes Itoa Kstate Mmu Cons Sched Console Proc Args Ksync.
From S2P Require Import Sysproc Sysfile.
Open Scope Z_scope.

(** syscall.h *)
Inductive sysno :=
| SYS_fork | SYS_exit | SYS_wait | SYS_pipe | SYS_read | SYS_kill | SYS_exec | SYS_fstat
| SYS_chdir | SYS_dup | SYS_getpid | SYS_sbrk | SYS_sleep | SYS_uptime | SYS_open | SYS_write
| SYS_mknod | SYS_unlink | SYS_link | SYS_mkdir | SYS_close | SYS_clone | SYS_join
| SYS_thread_exit | SYS_randconfig | SYS_yield | SYS_lock_create | SYS_lock_acquire
| SYS_lock_release | SYS_sem_create | SYS_sem_wait | SYS_sem_post.
#[global] Instance sysno_eq_dec : EqDecision sysno.
Proof. solve_decision. Defined.

(** The numbers 1, 2, ... in the order of syscall.h. *)
Definition sysnos : list sysno :=
  [ SYS_fork; SYS_exit; SYS_wait; SYS_pipe; SYS_read; SYS_kill; SYS_exec; SYS_fstat;
    SYS_chdir; SYS_dup; SYS_getpid; SYS_sbrk; SYS_sleep; SYS_uptime; SYS_open; SYS_write;
    SYS_mknod; SYS_unlink; SYS_link; SYS_mkdir; SYS_close; SYS_clone; SYS_join;
    SYS_thread_exit; SYS_randconfig; SYS_yield; SYS_lock_create; SYS_lock_acquire;
    SYS_lock_release; SYS_sem_create; SYS_sem_wait; SYS_sem_post ].

(** num > 0 && num < NELEM(syscalls) && syscalls[num] *)
Definition sysno_of (num : Z) : option sysno :=
  if (0 <? num) && (num <? 33) then sysnos !! Z.to_nat (num - 1) else None.

(** The operations that are not in the repository. *)
Record klocks := mk_klocks {
  klock_create : K Z;
  klock_acquire : Z -> K Z;
  klock_release : Z -> K Z
}.

(** syscalls[num]() *)
Definition syscalls (kl : klocks) (n : sysno) : K Z :=
  match n with
  | SYS_fork => sys_fork | SYS_exit => sys_exit | SYS_wait => sys_wait
  | SYS_pipe => sys_pipe | SYS_read => sys_read | SYS_kill => sys_kill
  | SYS_exec => sys_exec | SYS_fstat => sys_fstat | SYS_chdir => sys_chdir
  | SYS_dup => sys_dup | SYS_getpid => sys_getpid | SYS_sbrk => sys_sbrk
  | SYS_sleep => sys_sleep | SYS_uptime => sys_uptime | SYS_open => sys_open
  | SYS_write => sys_write | SYS_mknod => sys_mknod | SYS_unlink => sys_unlink
  | SYS_link => sys_link | SYS_mkdir => sys_mkdir | SYS_close => sys_close
  | SYS_clone => sys_clone | SYS_join => sys_join | SYS_thread_exit => sys_thread_exit
  | SYS_randconfig => sys_randconfig | SYS_yield => sys_yield
  | SYS_lock_create => sys_lock_create (klock_create kl)
  | SYS_lock_acquire => sys_lock_acquire (klock_acquire kl)
  | SYS_lock_release => sys_lock_release (klock_release kl)
  | SYS_sem_create => sys_sem_create | SYS_sem_wait => sys_sem_wait
  | SYS_sem_post => sys_sem_post
  end.

(** num != SYS_write && num != SYS_yield && num != SYS_exit && num != SYS_thread_exit *)
Definition may_yield (n : sysno) : bool :=
  negb (bool_decide (n = SYS_write) || bool_decide (n = SYS_yield) ||
        bool_decide (n = SYS_exit) || bool_decide (n = SYS_thread_exit)).

Definition syscall (kl : klocks) : K unit :=
  me ← curproc;
  p ← proc_at me;
  let num := s32 (tf_eax (p_tf p)) in
  match sysno_of num with
  | Some n =>
    r ← syscalls kl n;
    upd_proc me (fun p => p <| p_tf := (p_tf p) <| tf_eax := u32 r |> |>) ;;
    if may_yield n then y ← random_should_yield; when y yield else ret tt
  | None =>
    cprintf (str "%d %s: unknown sys call %d" ++ [10])
      [AInt (p_pid p); AStr (Some (cstr (p_name p))); AInt num] ;;
    upd_proc me (fun p => p <| p_tf := (p_tf p) <| tf_eax := u32 (-1) |> |>)
  end.
