(* ===== verification/Trap.v ===== *)
(** The trap handler, trap.c. The trap frame, the number of the CPU, the fault address in
    %cr2 and the characters the keyboard and serial drivers deliver are arguments. *)

From stdpp Require Import base list gmap strings numbers.
From Stdlib Require Import ZArith Lia.
From S2P Require Import Prelude CString Bytes Itoa Kstate Mmu Cons Sched Console Proc Debug Syscall.
Open Scope Z_scope.

(** traps.h *)
Definition T_SYSCALL : Z := 64.
Definition T_IRQ0 : Z := 32.
Definition IRQ_TIMER : Z := 0.
Definition IRQ_KBD : Z := 1.
Definition IRQ_COM1 : Z := 4.
Definition IRQ_IDE : Z := 14.
Definition IRQ_SPURIOUS : Z := 31.

(** if(myproc() && myproc()->killed && (tf->cs&3) == DPL_USER) exit(); *)
Definition exit_if_killed (tf : trapframe) : K unit :=
  c ← myproc;
  match c with
  | None => ret tt
  | Some me =>
    p ← proc_at me;
    if negb (p_killed p =? 0) && (Z.land (tf_cs tf) 3 =? DPL_USER) then exit else ret tt
  end.

Definition timer_tick (cpu : Z) : K unit :=
  when (cpu =? 0)
    (acquire LTicks ;;
     modify (fun s => s <| k_ticks := u32 (k_ticks s + 1) |>) ;;
     wakeup ChTicks ;;
     release LTicks).

(** The default case: a fault in the kernel panics, one in user space kills the process. *)
Definition unexpected_trap (cpu cr2 : Z) (tf : trapframe) : K unit :=
  c ← myproc;
  match c with
  | Some me =>
    if Z.land (tf_cs tf) 3 =? 0 then
      cprintf (str "unexpected trap %d from cpu %d eip %x (cr2=0x%x)" ++ [10])
        [AInt (tf_trapno tf); AInt cpu; AInt (tf_eip tf); AInt cr2] ;;
      panic "trap"
    else
      p ← proc_at me;
      cprintf (str "pid %d %s: trap %d err %d on cpu %d eip 0x%x addr 0x%x--kill proc" ++ [10])
        [AInt (p_pid p); AStr (Some (cstr (p_name p))); AInt (tf_trapno tf); AInt (tf_err tf);
         AInt cpu; AInt (tf_eip tf); AInt cr2] ;;
      upd_proc me (fun p => p <| p_killed := 1 |>)
  | None =>
    cprintf (str "unexpected trap %d from cpu %d eip %x (cr2=0x%x)" ++ [10])
      [AInt (tf_trapno tf); AInt cpu; AInt (tf_eip tf); AInt cr2] ;;
    panic "trap"
  end.

Section trap.
(** lapiceoi() of lapic.c, which tells the interrupt controller that the interrupt has been handled; Apic.v has it on the
    controller's registers. *)
Context (lapiceoi : K unit).

(** The switch over tf->trapno. [input] is what getc returns before -1 in kbdintr or
    uartintr; ideintr is the no-op of the memory disk. *)
Definition trap_dispatch (cpu cr2 : Z) (input : list Z) (tf : trapframe) : K unit :=
  let t := tf_trapno tf in
  if t =? T_IRQ0 + IRQ_TIMER then timer_tick cpu ;; lapiceoi
  else if t =? T_IRQ0 + IRQ_IDE then lapiceoi
  else if t =? T_IRQ0 + IRQ_IDE + 1 then ret tt
  else if (t =? T_IRQ0 + IRQ_KBD) || (t =? T_IRQ0 + IRQ_COM1) then
    dump ← consoleintr input; when dump procdump ;; lapiceoi
  else if (t =? T_IRQ0 + 7) || (t =? T_IRQ0 + IRQ_SPURIOUS) then
    cprintf (str "cpu%d: spurious interrupt at %x:%x" ++ [10])
      [AInt cpu; AInt (tf_cs tf); AInt (tf_eip tf)] ;;
    lapiceoi
  else unexpected_trap cpu cr2 tf.

(** The system call path after syscall() returned. *)
Definition trap_syscall_return : K unit :=
  me ← curproc;
  p ← proc_at me;
  if negb (p_killed p =? 0) then exit else ret tt.

Definition trap (kl : klocks) (cpu cr2 : Z) (input : list Z) (tf : trapframe) : K unit :=
  if tf_trapno tf =? T_SYSCALL then
    me ← curproc;
    p ← proc_at me;
    if negb (p_killed p =? 0) then exit else
    upd_proc me (fun p => p <| p_tf := tf |>) ;;
    syscall kl ;;
    trap_syscall_return
  else
    trap_dispatch cpu cr2 input tf ;;
    exit_if_killed tf ;;
    c ← myproc;
    match c with
    | Some me =>
      p ← proc_at me;
      when (bool_decide (p_state p = RUNNING) && (tf_trapno tf =? T_IRQ0 + IRQ_TIMER)) yield
    | None => ret tt
    end ;;
    exit_if_killed tf.
End trap.
