(* ===== verification/Apic.v ===== *)
(** The interrupt controllers: ioapic.c, picirq.c and lapic.c, and the real-time clock that lapic.c
    reads. *)

From stdpp Require Import base list gmap strings numbers.
From Stdlib Require Import ZArith Lia.
From S2P Require Import Prelude Bytes Itoa Kstate Cons Mmu Ports Trap.
Open Scope Z_scope.

(** ** The drivers' variables *)

(** [ag_lapic] is 0 until mpinit sets it; [ag_wrv] is the warm reset vector at 40:67;
    [ag_uart] is [uart] of uart.c. *)
Record apicg := mk_apicg {
  ag_k : kstate;
  ag_lapic : Z;
  ag_ioapic : Z;
  ag_ioapicid : Z;
  ag_wrv : Z * Z;
  ag_uart : Z
}.
Definition eta_apicg (r : apicg) : apicg := mk_apicg (ag_k r) (ag_lapic r) (ag_ioapic r) (ag_ioapicid r) (ag_wrv r) (ag_uart r).
#[global] Instance set_ag_k : Setter ag_k := ltac:(mk_setter eta_apicg ag_k).
#[global] Instance set_ag_lapic : Setter ag_lapic := ltac:(mk_setter eta_apicg ag_lapic).
#[global] Instance set_ag_ioapic : Setter ag_ioapic := ltac:(mk_setter eta_apicg ag_ioapic).
#[global] Instance set_ag_ioapicid : Setter ag_ioapicid := ltac:(mk_setter eta_apicg ag_ioapicid).
#[global] Instance set_ag_wrv : Setter ag_wrv := ltac:(mk_setter eta_apicg ag_wrv).
#[global] Instance set_ag_uart : Setter ag_uart := ltac:(mk_setter eta_apicg ag_uart).

Definition akern {A} (m : K A) : M apicg A := fun g =>
  match m (ag_k g) with
  | Ok a s => Ok a (g <| ag_k := s |>)
  | Switch s => Switch (g <| ag_k := s |>)
  | Panic msg => Panic msg
  | Fault msg => Fault msg
  | OutOfFuel => OutOfFuel
  end.

(** ioapic.c *)
Definition IOAPIC : Z := 0xFEC00000.
Definition REG_ID : Z := 0x00.
Definition REG_VER : Z := 0x01.
Definition REG_TABLE : Z := 0x10.
Definition INT_DISABLED : Z := 0x00010000.
Definition INT_LEVEL : Z := 0x00008000.
Definition INT_ACTIVELOW : Z := 0x00002000.
Definition INT_LOGICAL : Z := 0x00000800.

(** picirq.c *)
Definition IO_PIC1 : Z := 0x20.
Definition IO_PIC2 : Z := 0xA0.

(** lapic.c: register indices *)
Definition ID : Z := 0x0020 / 4.
Definition VER : Z := 0x0030 / 4.
Definition TPR : Z := 0x0080 / 4.
Definition EOI : Z := 0x00B0 / 4.
Definition SVR : Z := 0x00F0 / 4.
Definition ENABLE : Z := 0x00000100.
Definition ESR : Z := 0x0280 / 4.
Definition ICRLO : Z := 0x0300 / 4.
Definition INIT : Z := 0x00000500.
Definition STARTUP : Z := 0x00000600.
Definition DELIVS : Z := 0x00001000.
Definition ASSERT : Z := 0x00004000.
Definition LEVEL : Z := 0x00008000.
Definition BCAST : Z := 0x00080000.
Definition ICRHI : Z := 0x0310 / 4.
Definition TIMER : Z := 0x0320 / 4.
Definition X1 : Z := 0x0000000B.
Definition PERIODIC : Z := 0x00020000.
Definition PCINT : Z := 0x0340 / 4.
Definition LINT0 : Z := 0x0350 / 4.
Definition LINT1 : Z := 0x0360 / 4.
Definition ERROR : Z := 0x0370 / 4.
Definition MASKED : Z := 0x00010000.
Definition TICR : Z := 0x0380 / 4.
Definition TDCR : Z := 0x03E0 / 4.
Definition IRQ_ERROR : Z := 19.

Definition CMOS_PORT : Z := 0x70.
Definition CMOS_RETURN : Z := 0x71.
Definition CMOS_STATA : Z := 0x0a.
Definition CMOS_STATB : Z := 0x0b.
Definition CMOS_UIP : Z := 0x80.
Definition SECS : Z := 0x00.
Definition MINS : Z := 0x02.
Definition HOURS : Z := 0x04.
Definition DAY : Z := 0x07.
Definition MONTH : Z := 0x08.
Definition YEAR : Z := 0x09.

Section apic.
Context {D : Type} `{Ports D} `{Mmio D}.
Abbreviation A := (M (apicg * D)).

(** *** ioapic.c *)

Definition ioapicread (reg : Z) : A Z :=
  io ← lift (gets ag_ioapic); mstore io reg ;; mload (io + 16).

Definition ioapicwrite (reg data : Z) : A unit :=
  io ← lift (gets ag_ioapic); mstore io reg ;; mstore (io + 16) data.

Definition ioapicinit : A unit :=
  lift (modify (fun g => g <| ag_ioapic := IOAPIC |>)) ;;
  v ← ioapicread REG_VER;
  let maxintr := Z.land (Z.shiftr v 16) 0xFF in
  i ← ioapicread REG_ID;
  let id := Z.shiftr i 24 in
  ioapicid ← lift (gets ag_ioapicid);
  when (negb (id =? ioapicid))
    (lift (akern (cprintf (str "ioapicinit: id isn't equal to ioapicid; not a MP" ++ [10]) []))) ;;
  for_ (seq 0 (S (Z.to_nat maxintr))) (fun i =>
    ioapicwrite (REG_TABLE + 2 * Z.of_nat i) (Z.lor INT_DISABLED (T_IRQ0 + Z.of_nat i)) ;;
    ioapicwrite (REG_TABLE + 2 * Z.of_nat i + 1) 0).

Definition ioapicenable (irq cpunum : Z) : A unit :=
  ioapicwrite (REG_TABLE + 2 * irq) (T_IRQ0 + irq) ;;
  ioapicwrite (REG_TABLE + 2 * irq + 1) (Z.shiftl cpunum 24).

(** *** picirq.c *)

Definition picinit : A unit := outb (IO_PIC1 + 1) 0xFF ;; outb (IO_PIC2 + 1) 0xFF.

(** *** lapic.c *)

Definition lapicw (index value : Z) : A unit :=
  lapic ← lift (gets ag_lapic);
  mstore (lapic + 4 * index) value ;;
  mload (lapic + 4 * ID) ;;
  ret tt.

(** while(lapic[ICRLO] & DELIVS) ; *)
Fixpoint lapic_wait (fuel : nat) : A unit :=
  match fuel with
  | O => nofuel
  | S fuel' =>
    lapic ← lift (gets ag_lapic);
    v ← mload (lapic + 4 * ICRLO);
    if negb (Z.land v DELIVS =? 0) then lapic_wait fuel' else ret tt
  end.

Definition lapicinit (fuel : nat) : A unit :=
  lapic ← lift (gets ag_lapic);
  if lapic =? 0 then ret tt else
  lapicw SVR (Z.lor ENABLE (T_IRQ0 + IRQ_SPURIOUS)) ;;
  lapicw TDCR X1 ;;
  lapicw TIMER (Z.lor PERIODIC (T_IRQ0 + IRQ_TIMER)) ;;
  lapicw TICR 10000000 ;;
  lapicw LINT0 MASKED ;;
  lapicw LINT1 MASKED ;;
  v ← mload (lapic + 4 * VER);
  when (4 <=? Z.land (Z.shiftr v 16) 0xFF) (lapicw PCINT MASKED) ;;
  lapicw ERROR (T_IRQ0 + IRQ_ERROR) ;;
  lapicw ESR 0 ;;
  lapicw ESR 0 ;;
  lapicw EOI 0 ;;
  lapicw ICRHI 0 ;;
  lapicw ICRLO (Z.lor (Z.lor BCAST INIT) LEVEL) ;;
  lapic_wait fuel ;;
  lapicw TPR 0.

Definition lapicid : A Z :=
  lapic ← lift (gets ag_lapic);
  if lapic =? 0 then ret 0 else
  v ← mload (lapic + 4 * ID);
  ret (Z.shiftr v 24).

Definition lapiceoi : A unit :=
  lapic ← lift (gets ag_lapic);
  when (negb (lapic =? 0)) (lapicw EOI 0).

(** microdelay has an empty body. *)
Definition microdelay (us : Z) : A unit := ret tt.

Definition lapicstartap (apicid addr : Z) : A unit :=
  outb CMOS_PORT 0xF ;;
  outb (CMOS_PORT + 1) 0x0A ;;
  lift (modify (fun g => g <| ag_wrv := (0, u16 (Z.shiftr addr 4)) |>)) ;;
  lapicw ICRHI (Z.shiftl apicid 24) ;;
  lapicw ICRLO (Z.lor (Z.lor INIT LEVEL) ASSERT) ;;
  microdelay 200 ;;
  lapicw ICRLO (Z.lor INIT LEVEL) ;;
  microdelay 100 ;;
  for_ (seq 0 2) (fun _ =>
    lapicw ICRHI (Z.shiftl apicid 24) ;;
    lapicw ICRLO (Z.lor STARTUP (Z.shiftr addr 12)) ;;
    microdelay 200).

(** date.h *)
Record rtcdate := mk_rtcdate { rd_second : Z; rd_minute : Z; rd_hour : Z; rd_day : Z; rd_month : Z; rd_year : Z }.
#[global] Instance rtcdate_eq_dec : EqDecision rtcdate.
Proof. solve_decision. Defined.

Definition cmos_read (reg : Z) : A Z :=
  outb CMOS_PORT reg ;;
  microdelay 200 ;;
  inb CMOS_RETURN.

Definition fill_rtcdate : A rtcdate :=
  second ← cmos_read SECS;
  minute ← cmos_read MINS;
  hour ← cmos_read HOURS;
  day ← cmos_read DAY;
  month ← cmos_read MONTH;
  year ← cmos_read YEAR;
  ret (mk_rtcdate second minute hour day month year).

(** The loop of cmostime: read until two reads agree. *)
Fixpoint cmos_stable (fuel : nat) : A rtcdate :=
  match fuel with
  | O => nofuel
  | S fuel' =>
    t1 ← fill_rtcdate;
    a ← cmos_read CMOS_STATA;
    if negb (Z.land a CMOS_UIP =? 0) then cmos_stable fuel' else
    t2 ← fill_rtcdate;
    if bool_decide (t1 = t2) then ret t1 else cmos_stable fuel'
  end.

(** #define CONV(x) *)
Definition CONV (x : Z) : Z := Z.shiftr x 4 * 10 + Z.land x 0xf.

Definition cmostime (fuel : nat) : A rtcdate :=
  sb ← cmos_read CMOS_STATB;
  let bcd := Z.land sb (Z.shiftl 1 2) =? 0 in
  t ← cmos_stable fuel;
  let t1 := if bcd then mk_rtcdate (CONV (rd_second t)) (CONV (rd_minute t)) (CONV (rd_hour t))
                                   (CONV (rd_day t)) (CONV (rd_month t)) (CONV (rd_year t)) else t in
  ret (mk_rtcdate (rd_second t1) (rd_minute t1) (rd_hour t1) (rd_day t1) (rd_month t1) (u32 (rd_year t1 + 2000))).
End apic.
