(* ===== verification/Clock.v ===== *)
(** The date that cmostime of lapic.c reads is the date of one moment: the loop that reads the
    real-time clock until two reads agree never returns a date put together from two. *)

From stdpp Require Import base list gmap strings numbers.
From Stdlib Require Import ZArith Lia.
From S2P Require Import Prelude Bytes Kstate Ports Apic.
Open Scope Z_scope.

(** How the clock shows a number below 100. *)
Definition rtc_enc (binary : bool) (x : Z) : Z := if binary then x else x / 10 * 16 + x mod 10.

Definition rtc_reg (r : Z) : Prop := r ∈ [SECS; MINS; HOURS; DAY; MONTH; YEAR].

(** What the real-time clock promises. The registers change once in each period of [rtc_period], at the end of an update that
    lasts [rtc_update]; what they show during the update is not specified. The bit UIP of status register A is set from
    [rtc_warning] before the update on. Each access takes some time, at most [rtc_step]: the warning is longer than six accesses, and
    two rounds of the loop fit between two updates. The hours are counted to 24. *)
Class Rtc (D : Type) `{Ports D} := {
  rtc_time : D -> Z;
  rtc_sel : D -> Z;
  rtc_binary : D -> bool;
  rtc_field : Z -> Z -> Z;                   (* register, number of the period *)
  rtc_period : Z;
  rtc_update : Z;
  rtc_warning : Z;
  rtc_step : Z;
  law_times : 1 <= rtc_step /\ 0 <= rtc_update /\ 6 * rtc_step <= rtc_warning /\
    rtc_warning + rtc_update + 26 * rtc_step <= rtc_period;
  law_range : forall r t, 0 <= rtc_field r t < 100;
  law_select : forall r d, let d' := port_out CMOS_PORT r d in
    rtc_time d' = rtc_time d /\ rtc_sel d' = r /\ rtc_binary d' = rtc_binary d;
  law_shown : forall d v d', port_in CMOS_RETURN d = (v, d') ->
    rtc_binary d' = rtc_binary d /\
    rtc_time d + 1 <= rtc_time d' <= rtc_time d + rtc_step /\
    (rtc_reg (rtc_sel d) -> rtc_time d mod rtc_period < rtc_period - rtc_update ->
       v = rtc_enc (rtc_binary d) (rtc_field (rtc_sel d) (rtc_time d / rtc_period))) /\
    (rtc_sel d = CMOS_STATA -> (Z.land v CMOS_UIP =? 0) = (rtc_time d mod rtc_period <? rtc_period - rtc_update - rtc_warning)) /\
    (rtc_sel d = CMOS_STATB -> (Z.land v 4 =? 0) = negb (rtc_binary d))
}.

Section clock.
Context {D : Type} `{Ports D} `{Mmio D} `{HR : !Rtc D}.

(** The period the clock is in, and how far. *)
Definition rtc_now (d : D) : Z := rtc_time d / rtc_period.
Definition rtc_phase (d : D) : Z := rtc_time d mod rtc_period.

(** What the clock shows in the period [t]. *)
Definition shown (b : bool) (t : Z) : rtcdate :=
  let f r := rtc_enc b (rtc_field r t) in mk_rtcdate (f SECS) (f MINS) (f HOURS) (f DAY) (f MONTH) (f YEAR).

(** [n] accesses lead from [d] to [d']. *)
Record passed (n : Z) (d d' : D) : Prop := {
  ps_binary : rtc_binary d' = rtc_binary d;
  ps_time : rtc_time d + n <= rtc_time d' <= rtc_time d + n * rtc_step
}.

Lemma passed_trans n m d1 d2 d3 : passed n d1 d2 -> passed m d2 d3 -> passed (n + m) d1 d3.
Proof. intros [A1 A2] [B1 B2]. split; [congruence|lia]. Qed.

Lemma passed_refl d : passed 0 d d.
Proof. split; [done|lia]. Qed.

Lemma rtc_period_pos : 0 < rtc_period.
Proof. pose proof law_times. lia. Qed.

Lemma rtc_split d : rtc_time d = rtc_period * rtc_now d + rtc_phase d /\ 0 <= rtc_phase d < rtc_period.
Proof.
  pose proof rtc_period_pos as Hpos. split; [apply Z.div_mod; lia|now apply Z.mod_pos_bound].
Qed.

(** Within a period time passes in its phase only. *)
Lemma same_period n d d' : 0 <= n -> passed n d d' -> rtc_phase d + n * rtc_step < rtc_period ->
  rtc_now d' = rtc_now d /\ rtc_phase d <= rtc_phase d' <= rtc_phase d + n * rtc_step.
Proof.
  intros Hn [_ Ht] Hp. destruct (rtc_split d) as [E Hb]. destruct (rtc_split d') as [E' Hb'].
  assert (rtc_now d' = rtc_now d) as E1.
  { symmetry. apply (Z.div_unique_pos _ _ _ (rtc_time d' - rtc_period * rtc_now d)); lia. }
  split; [done|]. rewrite E1 in E'. lia.
Qed.

Lemma now_mono d d' : rtc_time d <= rtc_time d' -> rtc_now d <= rtc_now d'.
Proof. intros Ht. apply Z.div_le_mono; [apply rtc_period_pos|done]. Qed.

Lemma wp_cmos_read reg g d (Q : Z -> apicg * D -> Prop) : 0 <= reg < 256 ->
  (forall v d', passed 1 d d' ->
     (rtc_reg reg -> rtc_phase d < rtc_period - rtc_update -> v = rtc_enc (rtc_binary d) (rtc_field reg (rtc_now d))) ->
     (reg = CMOS_STATA -> (Z.land v CMOS_UIP =? 0) = (rtc_phase d <? rtc_period - rtc_update - rtc_warning)) ->
     (reg = CMOS_STATB -> (Z.land v 4 =? 0) = negb (rtc_binary d)) -> Q v (g, d')) ->
  wp (cmos_read reg) Q (g, d).
Proof.
  intros Hr HQ. unfold cmos_read, microdelay. wp_steps. apply wp_outb. wp_steps.
  replace (u8 reg) with reg by (unfold u8; rewrite Z.mod_small; lia).
  destruct (law_select reg d) as (S1 & S2 & S3). destruct (port_in CMOS_RETURN (port_out CMOS_PORT reg d)) as [v d'] eqn:E.
  apply (wp_inb _ _ _ _ _ _ E). destruct (law_shown _ _ _ E) as (L1 & L2 & L3 & L4 & L5). rewrite S1, S2, S3 in *.
  apply HQ; auto. split; [done|lia].
Qed.

(** The register [r], read after [n] accesses from [d] on, of which none was in an update. *)
Lemma read_exact n d d1 r v : 0 <= n -> rtc_reg r -> passed n d d1 -> rtc_phase d + n * rtc_step < rtc_period - rtc_update ->
  (rtc_reg r -> rtc_phase d1 < rtc_period - rtc_update -> v = rtc_enc (rtc_binary d1) (rtc_field r (rtc_now d1))) ->
  v = rtc_enc (rtc_binary d) (rtc_field r (rtc_now d)).
Proof.
  intros Hn Hr Hp Hq Hv. pose proof law_times as (_ & Hu & _). destruct (same_period n d d1 Hn Hp) as [E1 E2]; [lia|].
  rewrite <- (ps_binary _ _ _ Hp), <- E1. apply Hv; [done|lia].
Qed.

(** The six registers, read one after the other. *)
Lemma wp_fill_rtcdate g d (Q : rtcdate -> apicg * D -> Prop) :
  (forall t d', passed 6 d d' -> (rtc_phase d + 5 * rtc_step < rtc_period - rtc_update -> t = shown (rtc_binary d) (rtc_now d)) -> Q t (g, d')) ->
  wp fill_rtcdate Q (g, d).
Proof.
  intros HQ. pose proof law_times as (Hst & _). unfold fill_rtcdate. wp_steps. apply wp_cmos_read; [by compute|]. intros v1 d1 P1 V1 _ _. wp_steps.
  apply wp_cmos_read; [by compute|]. intros v2 d2 P2 V2 _ _. wp_steps. apply wp_cmos_read; [by compute|]. intros v3 d3 P3 V3 _ _. wp_steps.
  apply wp_cmos_read; [by compute|]. intros v4 d4 P4 V4 _ _. wp_steps. apply wp_cmos_read; [by compute|]. intros v5 d5 P5 V5 _ _. wp_steps.
  apply wp_cmos_read; [by compute|]. intros v6 d6 P6 V6 _ _. wp_steps.
  pose proof (passed_trans _ _ _ _ _ P1 P2) as P12. pose proof (passed_trans _ _ _ _ _ P12 P3) as P13.
  pose proof (passed_trans _ _ _ _ _ P13 P4) as P14. pose proof (passed_trans _ _ _ _ _ P14 P5) as P15.
  apply HQ; [exact (passed_trans _ _ _ _ _ P15 P6)|]. intros Hq. unfold shown. cbv zeta.
  rewrite (read_exact 0 d d SECS v1), (read_exact 1 d d1 MINS v2), (read_exact 2 d d2 HOURS v3), (read_exact 3 d d3 DAY v4),
    (read_exact 4 d d4 MONTH v5), (read_exact 5 d d5 YEAR v6); first done.
  all: eassumption || lia || apply passed_refl || (unfold rtc_reg; set_solver).
Qed.

(** How long the loop may go on: not at all when a round fits before the warning, else up to the end of the period. *)
Definition rounds (d : D) : Z :=
  if rtc_phase d + 13 * rtc_step <? rtc_period - rtc_update - rtc_warning then 0 else rtc_period - rtc_phase d.

Lemma rounds_less n d d' : 7 <= n <= 13 -> passed n d d' -> rounds d <> 0 -> rounds d' < rounds d.
Proof.
  intros Hn Hp. pose proof law_times as (H1 & H2 & H3 & H4). destruct (rtc_split d) as [E Hb]. destruct (rtc_split d') as [E' Hb'].
  assert (rtc_phase d < rtc_phase d' \/ rtc_phase d' < 13 * rtc_step) as Hd.
  { pose proof (ps_time _ _ _ Hp). assert (n * rtc_step <= 13 * rtc_step) by nia. assert (rtc_now d <= rtc_now d') by (apply now_mono; lia).
    destruct (decide (rtc_now d' = rtc_now d)) as [Ek|Ek]; [left; rewrite Ek in E'; lia|right]. nia. }
  unfold rounds. destruct (Z.ltb_spec (rtc_phase d + 13 * rtc_step) (rtc_period - rtc_update - rtc_warning)) as [Hlt|Hge]; [done|]. intros _.
  destruct (Z.ltb_spec (rtc_phase d' + 13 * rtc_step) (rtc_period - rtc_update - rtc_warning)) as [Hlt'|Hge']; lia.
Qed.

Lemma rounds_bound d : rounds d <= rtc_warning + rtc_update + 13 * rtc_step.
Proof. pose proof law_times. unfold rounds. destruct (Z.ltb_spec (rtc_phase d + 13 * rtc_step) (rtc_period - rtc_update - rtc_warning)); lia. Qed.

Lemma wp_cmos_stable fuel : forall g d (Q : rtcdate -> apicg * D -> Prop), rounds d < Z.of_nat fuel ->
  (forall t d', rtc_now d <= t <= rtc_now d' -> Q (shown (rtc_binary d) t) (g, d')) ->
  wp (cmos_stable fuel) Q (g, d).
Proof.
  induction fuel as [|fuel IH]; intros g d Q Hf HQ.
  { exfalso. unfold rounds in Hf. destruct (rtc_split d) as [_ Hb]. destruct (_ <? _); lia. }
  pose proof law_times as (H1 & H2 & H3 & H4). cbn [cmos_stable]. wp_steps.
  assert (forall n d', 7 <= n <= 13 -> passed n d d' -> rounds d <> 0 -> wp (cmos_stable fuel) Q (g, d')) as Hagain.
  { intros n d' Hn Hp Hr. apply IH; [pose proof (rounds_less n d d' Hn Hp Hr); lia|]. intros t d2 Ht. rewrite (ps_binary _ _ _ Hp).
    apply HQ. pose proof (now_mono d d'). pose proof (ps_time _ _ _ Hp). lia. }
  apply wp_fill_rtcdate. intros t1 d1 P1 T1. wp_steps. apply wp_cmos_read; [by compute|]. intros a d2 P2 _ U2 _. specialize (U2 eq_refl).
  pose proof (passed_trans _ _ _ _ _ P1 P2) as P12. apply wp_if; intros Ha.
  { apply (Hagain 7 _ ltac:(lia) P12). unfold rounds. intros Hr. rewrite U2 in Ha. 
    destruct (Z.ltb_spec (rtc_phase d + 13 * rtc_step) (rtc_period - rtc_update - rtc_warning)) as [Hq|Hq].
    - destruct (same_period 6 d d1) as [_ Hp1]; [lia|done|lia|]. lia.
    - destruct (rtc_split d) as [_ Hb]. lia. }
  apply negb_false_iff in Ha. rewrite U2 in Ha. apply Z.ltb_lt in Ha. destruct (same_period 1 d1 d2) as [N2 F2]; [lia|done|lia|].
  wp_steps. apply wp_fill_rtcdate. intros t2 d3 P3 T3. pose proof (passed_trans _ _ _ _ _ P12 P3) as P13. specialize (T3 ltac:(lia)).
  case_bool_decide as E; wp_steps.
  - rewrite E, T3, (ps_binary _ _ _ P12). apply HQ. pose proof (ps_time _ _ _ P12). pose proof (ps_time _ _ _ P3). split; apply now_mono; lia.
  - apply (Hagain 13 _ ltac:(lia) P13). unfold rounds. intros Hr. apply E. rewrite T3, (ps_binary _ _ _ P12).
    destruct (Z.ltb_spec (rtc_phase d + 13 * rtc_step) (rtc_period - rtc_update - rtc_warning)) as [Hq|Hq].
    + rewrite T1 by lia. f_equal. destruct (same_period 7 d d2 ltac:(lia) P12); [lia|done].
    + destruct (rtc_split d) as [_ Hb]. lia.
Qed.

Lemma CONV_bcd x : 0 <= x < 100 -> CONV (rtc_enc false x) = x.
Proof.
  intros Hx. unfold CONV, rtc_enc. rewrite Z.shiftr_div_pow2 by lia. change 0xf with (Z.ones 4). rewrite Z.land_ones by lia.
  change (2 ^ 4) with 16. div_lia.
Qed.

(** The date of the period [t]. *)
Definition date_at (t : Z) : rtcdate :=
  mk_rtcdate (rtc_field SECS t) (rtc_field MINS t) (rtc_field HOURS t) (rtc_field DAY t) (rtc_field MONTH t) (rtc_field YEAR t + 2000).

(** C34: cmostime returns, and the date it returns is the one of a single moment during the call, in plain numbers whether the clock
    counts in binary or in BCD. The clock may change at any point of the reads, and its registers show anything during an
    update; the accesses are fast enough for [law_times], and the loop makes at most
    [rtc_warning + rtc_update + 13 * rtc_step] more rounds than one. *)
Theorem cmostime_one_moment g d fuel : rtc_warning + rtc_update + 13 * rtc_step < Z.of_nat fuel ->
  wp (cmostime fuel) (fun r gd => gd.1 = g /\ exists t, rtc_now d <= t <= rtc_now gd.2 /\ r = date_at t) (g, d).
Proof.
  intros Hf. unfold cmostime. wp_steps. apply wp_cmos_read; [by compute|]. intros sb d1 P1 _ _ B1. change (Z.shiftl 1 2) with 4. rewrite B1 by done.
  wp_steps. pose proof (now_mono d d1). pose proof (ps_time _ _ _ P1). apply wp_cmos_stable; [pose proof (rounds_bound d1); lia|]. intros t d2 Ht. wp_steps.
  cbn [fst snd]. split; [done|]. exists t. split; [lia|]. rewrite (ps_binary _ _ _ P1). unfold date_at, shown.
  assert (forall r, u32 (rtc_field r t + 2000) = rtc_field r t + 2000) as Hy.
  { intros r. pose proof (law_range r t). apply u32_small. lia. }
  destruct (rtc_binary d); cbn [negb rd_second rd_minute rd_hour rd_day rd_month rd_year].
  - cbn [rtc_enc]. now rewrite Hy.
  - rewrite !CONV_bcd by apply law_range. now rewrite Hy.
Qed.
End clock.

(** A clock whose seconds have 40 accesses: 6 of warning, then 8 of update, in which its registers show garbage. *)
Record simclock := mk_simclock { sc_time : Z; sc_sel : Z; sc_binary : bool }.

Definition sim_field (r t : Z) : Z :=
  if r =? SECS then t mod 60 else if r =? MINS then t / 60 mod 60 else if r =? HOURS then t / 3600 mod 24
  else if r =? DAY then 1 + t / 86400 mod 28 else if r =? MONTH then 7 else 24.

#[global] Instance simclock_ports : Ports simclock := {
  port_in p d := (if sc_sel d =? CMOS_STATA then (if sc_time d mod 40 <? 26 then 0 else CMOS_UIP)
                  else if sc_sel d =? CMOS_STATB then (if sc_binary d then 4 else 0)
                  else if sc_time d mod 40 <? 32 then rtc_enc (sc_binary d) (sim_field (sc_sel d) (sc_time d / 40))
                  else 0xff,
                  mk_simclock (sc_time d + 1) (sc_sel d) (sc_binary d));
  port_out p v d := if p =? CMOS_PORT then mk_simclock (sc_time d) v (sc_binary d) else d;
  port_insl p n d := ([], d);
  port_outsl p bs d := d
}.
#[global] Instance simclock_mmio : Mmio simclock := { mmio_load a d := (0, d); mmio_store a v d := d }.

#[global] Instance simclock_rtc : Rtc simclock.
Proof.
  refine {| rtc_time := sc_time; rtc_sel := sc_sel; rtc_binary := sc_binary; rtc_field := sim_field;
            rtc_period := 40; rtc_update := 8; rtc_warning := 6; rtc_step := 1 |}.
  - lia.
  - intros r t. unfold sim_field. repeat (destruct (_ =? _); [div_lia|]). lia.
  - intros r d. done.
  - intros d v d' [= <- <-]. split; [done|]. split; [simpl; lia|]. split.
    { intros Hr Hp. rewrite (proj2 (Z.ltb_lt (sc_time d mod 40) 32)) by lia. unfold rtc_reg in Hr.
      repeat (apply elem_of_cons in Hr as [->|Hr]; [reflexivity|]). now apply not_elem_of_nil in Hr. }
    split; [intros ->; change (40 - 8 - 6) with 26; change (CMOS_STATA =? CMOS_STATA) with true; cbv iota; now destruct (sc_time d mod 40 <? 26)|]. intros ->. simpl. now destruct (sc_binary d).
Defined.

Definition ex_clock_vars : apicg := mk_apicg (boot_state (mk_symbols 0 0 0 0) ∅) 0 0 0 (0, 0) 0.
Definition ex_clock : simclock := mk_simclock (59 * 40 + 30) 0 false.

Lemma cmostime_one_moment_witness :
  wp (cmostime 30) (fun r gd => gd.1 = ex_clock_vars /\ exists t, rtc_now ex_clock <= t <= rtc_now gd.2 /\ r = date_at t) (ex_clock_vars, ex_clock).
Proof. apply (cmostime_one_moment ex_clock_vars ex_clock 30). reflexivity. Defined.
