(* ===== verification/Uart.v ===== *)
(** The serial port, uart.c. The rest of the development takes consputc's uartputc to append to the
    output; here is the driver itself, over the registers of the 8250. *)

From stdpp Require Import base list gmap strings numbers.
From Stdlib Require Import ZArith Lia.
From S2P Require Import Prelude Bytes Itoa Kstate Cons Console Conline Debug Ports Trap Apic.
Open Scope Z_scope.

Definition COM1 : Z := 0x3f8.

Section uart.
Context {D : Type} `{Ports D} `{Mmio D}.
Abbreviation A := (M (apicg * D)).

(** for(i = 0; i < 128 && !(inb(COM1+5) & 0x20); i++) microdelay(10); *)
Fixpoint uart_ready (n : nat) : A unit :=
  match n with
  | O => ret tt
  | S n' =>
    st ← inb (COM1 + 5);
    if negb (Z.land st 0x20 =? 0) then ret tt else microdelay 10 ;; uart_ready n'
  end.

Definition uartputc (c : Z) : A unit :=
  uart ← lift (gets ag_uart);
  if uart =? 0 then ret tt else
  uart_ready 128 ;;
  outb (COM1 + 0) c.

Definition uartinit : A unit :=
  outb (COM1 + 2) 0 ;;
  outb (COM1 + 3) 0x80 ;;
  outb (COM1 + 0) (115200 / 9600) ;;
  outb (COM1 + 1) 0 ;;
  outb (COM1 + 3) 0x03 ;;
  outb (COM1 + 4) 0 ;;
  outb (COM1 + 1) 0x01 ;;
  st ← inb (COM1 + 5);
  if st =? 0xFF then ret tt else
  lift (modify (fun g => g <| ag_uart := 1 |>)) ;;
  inb (COM1 + 2) ;;
  inb (COM1 + 0) ;;
  ioapicenable IRQ_COM1 0 ;;
  for_ (str "xv6..." ++ [10]) uartputc.

Definition uartgetc : A Z :=
  uart ← lift (gets ag_uart);
  if uart =? 0 then ret (-1) else
  st ← inb (COM1 + 5);
  if Z.land st 0x01 =? 0 then ret (-1) else
  inb (COM1 + 0).

(** consoleintr(uartgetc): the loop over the characters that are there. *)
Fixpoint uart_input (fuel : nat) (doprocdump : bool) : A bool :=
  match fuel with
  | O => nofuel
  | S fuel' =>
    c ← uartgetc;
    if c <? 0 then ret doprocdump else
    d ← lift (akern (consoleintr_char c));
    uart_input fuel' (doprocdump || d)
  end.

Definition uartintr (fuel : nat) : A unit :=
  lift (akern (acquire LCons)) ;;
  dump ← uart_input fuel false;
  lift (akern (release LCons)) ;;
  when dump (lift (akern procdump)).
End uart.

(** ** The 8250 *)

(** What the UART promises: the line status shows in bit 5 that the transmitter is free, after
    finitely many looks, and in bit 0 that a byte has arrived; the data port takes the byte to send
    and gives the byte received. *)
Class Serial (D : Type) `{Ports D} := {
  sent : D -> list Z;                  (* what has gone down the line *)
  arrived : D -> list Z;               (* what waits to be read *)
  looks : D -> nat;                    (* how often the transmitter still looks busy *)
  law_line : forall d v d', port_in (COM1 + 5) d = (v, d') ->
    sent d' = sent d /\ arrived d' = arrived d /\ (Z.land v 0x01 =? 0) = bool_decide (arrived d = []) /\
    match looks d with
    | O => Z.land v 0x20 <> 0 /\ looks d' = O
    | S n => Z.land v 0x20 = 0 /\ looks d' = n
    end;
  law_send : forall c d, looks d = O -> sent (port_out COM1 c d) = sent d ++ [c] /\ arrived (port_out COM1 c d) = arrived d;
  law_receive : forall d c rest v d', arrived d = c :: rest -> port_in COM1 d = (v, d') -> v = c /\ arrived d' = rest /\ sent d' = sent d
}.

Section serial.
Context {D : Type} `{Ports D} `{Mmio D} `{HS : !Serial D}.

Lemma wp_uart_ready n : forall g d (Q : unit -> apicg * D -> Prop), (looks d < n)%nat ->
  (forall d', sent d' = sent d -> arrived d' = arrived d -> looks d' = O -> Q tt (g, d')) -> wp (uart_ready n) Q (g, d).
Proof.
  induction n as [|n IH]; intros g d Q Hn HQ; [lia|]. cbn [uart_ready]. wp_steps.
  destruct (port_in (COM1 + 5) d) as [v d'] eqn:E. apply (wp_inb _ _ _ _ _ _ E). destruct (law_line _ _ _ E) as (L1 & L2 & _ & L4).
  destruct (looks d) as [|k] eqn:Ek.
  - destruct L4 as [L4 L5]. apply wp_if_true; [lia|]. wp_steps. now apply HQ.
  - destruct L4 as [-> L5]. change (negb (0 =? 0)) with false. cbv iota. unfold microdelay. wp_steps. apply IH; [lia|].
    intros d2 A1 A2 A3. apply HQ; congruence.
Qed.

(** uartputc sends the byte, provided the transmitter frees up within 128 looks. *)
Lemma uartputc_sends c g d : ag_uart g <> 0 -> (looks d < 128)%nat ->
  wp (uartputc c) (fun _ gd => gd.1 = g /\ sent gd.2 = sent d ++ [u8 c] /\ arrived gd.2 = arrived d) (g, d).
Proof.
  intros Hu Hl. unfold uartputc. wp_steps. apply wp_lift. wp_steps. apply wp_if_false; [lia|]. wp_steps.
  apply wp_uart_ready; [done|]. intros d' A1 A2 A3. apply wp_outb. cbn [fst snd]. change (COM1 + 0) with COM1.
  destruct (law_send (u8 c) d' A3) as [-> ->]. now rewrite A1, A2.
Qed.

(** uartgetc gives the next byte that has arrived, or -1. *)
Lemma uartgetc_next g d : ag_uart g <> 0 ->
  wp uartgetc (fun c gd => gd.1 = g /\ sent gd.2 = sent d /\
    match arrived d with [] => c = -1 /\ arrived gd.2 = [] | x :: rest => c = x /\ arrived gd.2 = rest end) (g, d).
Proof.
  intros Hu. unfold uartgetc. wp_steps. apply wp_lift. wp_steps. apply wp_if_false; [lia|]. wp_steps.
  destruct (port_in (COM1 + 5) d) as [v d'] eqn:E. apply (wp_inb _ _ _ _ _ _ E). destruct (law_line _ _ _ E) as (L1 & L2 & L3 & _).
  destruct (arrived d) as [|x rest] eqn:Ea.
  - rewrite L3. cbn. now rewrite L2.
  - rewrite L3. cbn [bool_decide]. rewrite bool_decide_eq_false_2 by done. change (COM1 + 0) with COM1.
    destruct (port_in COM1 d') as [v2 d2] eqn:E2. apply (wp_inb _ _ _ _ _ _ E2).
    destruct (law_receive d' x rest v2 d2 L2 E2) as (-> & A2 & A3). cbn [fst snd].
    split; [done|]. split; [congruence|done].
Qed.

Lemma wp_akern {A} (m : K A) (Q : A -> apicg -> Prop) g : wp m (fun a s => Q a (g <| ag_k := s |>)) (ag_k g) -> wp (akern m) Q g.
Proof. unfold wp, akern. now destruct (m (ag_k g)). Qed.

Lemma wp_uart_input cs : forall fuel dump g d l, ag_uart g <> 0 -> arrived d = cs -> (forall c, c ∈ cs -> 0 <= c) -> (length cs < fuel)%nat ->
  con_ok (ag_k g) l -> (LPtable ∉ k_held (ag_k g)) ->
  wp (uart_input fuel dump) (fun r gd => r = (dump || bool_decide (C_ 80 ∈ cs)) /\ arrived gd.2 = [] /\ sent gd.2 = sent d /\
    exists s', gd.1 = g <| ag_k := s' |> /\ con_ok s' (fold_left ln_key cs l) /\ con_frame (ag_k g) s') (g, d).
Proof.
  induction cs as [|c cs IH]; intros [|fuel] dump g d l Hu Ha Hpos Hf Hok Hh; simpl in Hf; try lia; cbn [uart_input]; wp_steps;
    (eapply wp_mono; [now apply (uartgetc_next g d)|]); intros x [g1 d1] (Eg & Es & Ex); cbn [fst snd] in *; subst g1; rewrite Ha in Ex.
  - destruct Ex as [-> Ex]. wp_steps. cbn [fst snd]. rewrite orb_false_r. split; [done|]. split; [done|]. split; [done|].
    exists (ag_k g). split; [now destruct g|]. split; [exact Hok|apply con_frame_refl].
  - destruct Ex as [-> Ex]. apply wp_if_false; [specialize (Hpos c ltac:(left)); lia|]. wp_steps. apply wp_lift, wp_akern.
    eapply wp_mono; [apply (wp_consoleintr_char c l _ Hok Hh)|]. intros b s1 (-> & Hok1 & F1).
    eapply wp_mono; [apply (IH fuel (dump || (c =? C_ 80)) (g <| ag_k := s1 |>) d1 (ln_key l c)); [done|done|intros y Hy; apply Hpos; now right|lia|done|]|].
    + cbn [ag_k]. simpl. now rewrite (con_frame_held _ _ F1).
    + intros r [g2 d2] (-> & A1 & A2 & s2 & -> & Hok2 & F2). cbn [fst snd] in *. split; [|split; [done|split; [congruence|]]].
      * rewrite <- orb_assoc. f_equal. destruct (Z.eqb_spec c (C_ 80)) as [->|Hne].
        -- rewrite (bool_decide_eq_true_2 (C_ 80 ∈ C_ 80 :: cs)); [done|left].
        -- rewrite orb_false_l. apply bool_decide_ext. rewrite elem_of_cons. naive_solver.
      * exists s2. split; [now destruct g|]. split; [exact Hok2|]. exact (con_frame_trans _ _ _ F1 F2).
Qed.

(** What arrives on the serial port reaches the console. uartintr takes every byte that waits in
    the UART, none of them Control-P, and passes it through the line discipline, in order, holding the console's lock, and
    leaves the UART's receiver empty. (What it echoes is the console's output log, k_conout, which
    stands for the bytes given to uartputc.) *)
Theorem uartintr_feeds_console g d l fuel : ag_uart g <> 0 -> (forall c, c ∈ arrived d -> 0 <= c) -> (C_ 80 ∉ arrived d) ->
  (length (arrived d) < fuel)%nat -> con_ok (ag_k g) l -> k_held (ag_k g) = [] ->
  wp (uartintr fuel) (fun _ gd => arrived gd.2 = [] /\
    exists s', gd.1 = g <| ag_k := s' |> /\ con_ok s' (fold_left ln_key (arrived d) l) /\ con_frame (ag_k g) s') (g, d).
Proof.
  intros Hu Hpos H80 Hf Hok Hh. unfold uartintr. wp_steps. apply wp_lift, wp_akern, wp_acquire; [rewrite Hh; apply not_elem_of_nil|]. wp_steps.
  eapply wp_mono; [apply (wp_uart_input (arrived d) fuel false _ d l); [done|done|done|done|exact Hok|simpl; rewrite Hh; set_solver]|].
  intros r [g1 d1] (-> & A1 & A2 & s1 & Eg & Hok1 & F1). cbn [fst snd] in *. subst g1. wp_steps. apply wp_lift, wp_akern.
  pose proof (con_frame_held _ _ F1) as Hh1. eapply (wp_release_head LCons (k_held (ag_k g))); [exact Hh1|].
  rewrite bool_decide_eq_false_2 by done. cbn [orb when]. wp_steps. cbn [fst snd]. split; [done|].
  exists (s1 <| k_held := k_held (ag_k g) |>). split; [now destruct g|]. split; [exact Hok1|]. exact (con_frame_held_update _ _ _ F1).
Qed.
End serial.

(** A serial line whose transmitter is always free. *)
Record simline := mk_simline { sl_sent : list Z; sl_arrived : list Z }.

#[global] Instance simline_ports : Ports simline := {
  port_in p d := if p =? COM1 then match sl_arrived d with [] => (0, d) | c :: rest => (c, mk_simline (sl_sent d) rest) end
                 else (match sl_arrived d with [] => 0x20 | _ => 0x21 end, d);
  port_out p v d := if p =? COM1 then mk_simline (sl_sent d ++ [v]) (sl_arrived d) else d;
  port_insl p n d := ([], d);
  port_outsl p bs d := d
}.
#[global] Instance simline_mmio : Mmio simline := { mmio_load a d := (0, d); mmio_store a v d := d }.

#[global] Instance simline_serial : Serial simline.
Proof.
  refine {| sent := sl_sent; arrived := sl_arrived; looks _ := 0%nat |}.
  - intros d v d' [= <- <-]. split; [done|]. split; [done|]. now destruct (sl_arrived d).
  - intros c d _. done.
  - intros d c rest v d' Ha E. simpl in E. rewrite Ha in E. now injection E as <- <-.
Defined.

Definition ex_serial_vars : apicg := mk_apicg ex_con 0 0 0 (0, 0) 1.
Definition ex_serial : simline := mk_simline [] (str "ls" ++ [13]).

Lemma uartintr_feeds_console_witness :
  wp (uartintr 4) (fun _ gd => arrived gd.2 = [] /\
    exists s', gd.1 = ex_serial_vars <| ag_k := s' |> /\ con_ok s' (fold_left ln_key (arrived ex_serial) ([], [])) /\ con_frame (ag_k ex_serial_vars) s')
    (ex_serial_vars, ex_serial).
Proof.
  refine (uartintr_feeds_console ex_serial_vars ex_serial ([], []) 4 _ _ _ _ ex_con_ok eq_refl).
  - discriminate.
  - intros c Hc. apply (proj1 (list.Forall_forall (fun c => 0 <= c) (str "ls" ++ [13]))); [|exact Hc]. apply (bool_decide_unpack _). reflexivity.
  - apply (bool_decide_unpack _). reflexivity.
  - apply (bool_decide_unpack _). reflexivity.
Defined.
