(* ===== verification/Cpu.v ===== *)
(** The processors: struct cpu of proc.h with mycpu and cpuid of proc.c, the segment descriptors of
    seginit and the task state of switchuvm (vm.c), and the interrupt descriptor table of tvinit and
    idtinit (trap.c).

    The state is that of the processor that runs: the kernel's variables, the array cpus, and the
    processor's own registers (the interrupt flag, %gdtr, %idtr and %tr). *)

From stdpp Require Import base list gmap strings numbers.
From Stdlib Require Import ZArith Lia.
From S2P Require Import Prelude Bytes Itoa Kstate Cons Mmu Segment Ports Trap Apic.
Open Scope Z_scope.

Record cpu := mk_cpu {
  cp_apicid : Z;
  cp_ts : taskstate;
  cp_gdt : list segdesc;
  cp_started : Z
}.
Definition eta_cpu (r : cpu) : cpu := mk_cpu (cp_apicid r) (cp_ts r) (cp_gdt r) (cp_started r).
#[global] Instance set_cp_apicid : Setter cp_apicid := ltac:(mk_setter eta_cpu cp_apicid).
#[global] Instance set_cp_ts : Setter cp_ts := ltac:(mk_setter eta_cpu cp_ts).
#[global] Instance set_cp_gdt : Setter cp_gdt := ltac:(mk_setter eta_cpu cp_gdt).
#[global] Instance set_cp_started : Setter cp_started := ltac:(mk_setter eta_cpu cp_started).

(** [bt_gdtr]: whose gdt is loaded, and its limit; [bt_idtr]: the limit of the idt, when loaded. *)
Record bootg := mk_bootg {
  bt_a : apicg;
  bt_cpus : list cpu;
  bt_ncpu : Z;
  bt_idt : list gatedesc;
  bt_if : bool;
  bt_gdtr : option (nat * Z);
  bt_idtr : option Z;
  bt_tr : Z
}.
Definition eta_bootg (r : bootg) : bootg :=
  mk_bootg (bt_a r) (bt_cpus r) (bt_ncpu r) (bt_idt r) (bt_if r) (bt_gdtr r) (bt_idtr r) (bt_tr r).
#[global] Instance set_bt_a : Setter bt_a := ltac:(mk_setter eta_bootg bt_a).
#[global] Instance set_bt_cpus : Setter bt_cpus := ltac:(mk_setter eta_bootg bt_cpus).
#[global] Instance set_bt_ncpu : Setter bt_ncpu := ltac:(mk_setter eta_bootg bt_ncpu).
#[global] Instance set_bt_idt : Setter bt_idt := ltac:(mk_setter eta_bootg bt_idt).
#[global] Instance set_bt_if : Setter bt_if := ltac:(mk_setter eta_bootg bt_if).
#[global] Instance set_bt_gdtr : Setter bt_gdtr := ltac:(mk_setter eta_bootg bt_gdtr).
#[global] Instance set_bt_idtr : Setter bt_idtr := ltac:(mk_setter eta_bootg bt_idtr).
#[global] Instance set_bt_tr : Setter bt_tr := ltac:(mk_setter eta_bootg bt_tr).

Definition cpu_at (i : nat) : M bootg cpu :=
  cs ← gets bt_cpus;
  of_opt "cpus: out of range" (cs !! i).
Definition upd_cpu (i : nat) (f : cpu -> cpu) : M bootg unit :=
  c ← cpu_at i;
  modify (fun g => g <| bt_cpus := <[i := f c]> (bt_cpus g) |>).

(** gdt[i] = d *)
Definition set_seg (id : nat) (i : Z) (d : segdesc) : M bootg unit :=
  c ← cpu_at id;
  if decide (0 <= i < Z.of_nat (length (cp_gdt c))) then upd_cpu id (fun c => c <| cp_gdt := <[Z.to_nat i := d]> (cp_gdt c) |>)
  else fault "gdt: out of range".

Definition lgdt (id : nat) (size : Z) : M bootg unit := modify (fun g => g <| bt_gdtr := Some (id, size - 1) |>).
Definition lidt (size : Z) : M bootg unit := modify (fun g => g <| bt_idtr := Some (size - 1) |>).
Definition ltr (sel : Z) : M bootg unit := modify (fun g => g <| bt_tr := sel |>).

(** idt[i] = d *)
Definition set_gate (i : Z) (d : gatedesc) : M bootg unit :=
  t ← gets bt_idt;
  if decide (0 <= i < Z.of_nat (length t)) then modify (fun g => g <| bt_idt := <[Z.to_nat i := d]> t |>)
  else fault "idt: out of range".

Section cpus.
Context {D : Type} `{Ports D} `{Mmio D}.
Abbreviation B := (M (bootg * D)).

(** Code on the kernel's variables and the devices. *)
Definition alift {A} (m : M (apicg * D) A) : B A := fun '(g, d) =>
  match m (bt_a g, d) with
  | Ok a (x, d') => Ok a (g <| bt_a := x |>, d')
  | Switch (x, d') => Switch (g <| bt_a := x |>, d')
  | Panic msg => Panic msg
  | Fault msg => Fault msg
  | OutOfFuel => OutOfFuel
  end.
Definition klift {A} (m : K A) : B A := alift (lift (akern m)).

(** The loop of mycpu from index [i]. *)
Fixpoint find_cpu (cs : list cpu) (ncpu : Z) (i : nat) (apicid : Z) : option nat :=
  match cs with
  | [] => None
  | c :: cs' => if Z.of_nat i <? ncpu then if cp_apicid c =? apicid then Some i else find_cpu cs' ncpu (S i) apicid else None
  end.

Definition mycpu : B nat :=
  fl ← lift (gets bt_if);
  if (fl : bool) then panic "mycpu called with interrupts enabled\n" else
  apicid ← alift lapicid;
  g ← lift get;
  match find_cpu (bt_cpus g) (bt_ncpu g) 0 apicid with
  | Some i => ret i
  | None => panic "unknown apicid\n"
  end.

Definition cpuid : B Z :=
  c ← mycpu;
  ret (Z.of_nat c).

Definition seginit : B unit :=
  id ← cpuid;
  let c := Z.to_nat id in
  lift (set_seg c SEG_KCODE (SEG (Z.lor STA_X STA_R) 0 0xffffffff 0)) ;;
  lift (set_seg c SEG_KDATA (SEG STA_W 0 0xffffffff 0)) ;;
  lift (set_seg c SEG_UCODE (SEG (Z.lor STA_X STA_R) 0 0xffffffff DPL_USER)) ;;
  lift (set_seg c SEG_UDATA (SEG STA_W 0 0xffffffff DPL_USER)) ;;
  lift (lgdt c (8 * NSEGS)).

(** The task state switchuvm gives the processor, between pushcli() and popcli(); [ts_addr c] is
    &cpus[c].ts. *)
Definition switchuvm_ts (ts_addr : nat -> Z) (kstack : Z) : B unit :=
  c ← mycpu;
  lift (set_seg c SEG_TSS ((SEG16 STS_T32A (ts_addr c) (sizeof_taskstate - 1) 0) <| sd_s := 0 |>)) ;;
  lift (upd_cpu c (fun r => r <| cp_ts := (cp_ts r) <| ts_ss0 := Z.shiftl SEG_KDATA 3 |> |>)) ;;
  lift (upd_cpu c (fun r => r <| cp_ts := (cp_ts r) <| ts_esp0 := u32 (kstack + KSTACKSIZE) |> |>)) ;;
  lift (upd_cpu c (fun r => r <| cp_ts := (cp_ts r) <| ts_iomb := u16 0xFFFF |> |>)) ;;
  lift (ltr (Z.shiftl SEG_TSS 3)).
End cpus.

(** [vectors] is the table of entry points of vectors.S. *)
Definition tvinit (vectors : list Z) : M bootg unit :=
  for_ (seq 0 256) (fun i =>
    v ← of_opt "vectors: out of range" (vectors !! i);
    set_gate (Z.of_nat i) (SETGATE false (Z.shiftl SEG_KCODE 3) v 0)) ;;
  v ← of_opt "vectors: out of range" (vectors !! Z.to_nat T_SYSCALL);
  set_gate T_SYSCALL (SETGATE true (Z.shiftl SEG_KCODE 3) v DPL_USER).

Definition idtinit : M bootg unit :=
  lidt (8 * 256).

(** ** What user code can reach *)

(** A gate is open to user code when its privilege level lets an int instruction at level 3 use it. *)
Definition open_to_user (g : gate) : Prop := gt_present g = 1 /\ 3 <= gt_dpl g.

(** Entering through an interrupt gate clears the interrupt flag; through a trap gate it does not. *)
Definition masks_interrupts (g : gate) : Prop := gt_type g = STS_IG32.

Definition gate_of (d : gatedesc) : gate := read_gate (gatedesc_word d).

Lemma wp_set_gate i d (Q : unit -> bootg -> Prop) g : (i < length (bt_idt g))%nat ->
  Q tt (g <| bt_idt := <[i := d]> (bt_idt g) |>) -> wp (set_gate (Z.of_nat i) d) Q g.
Proof.
  intros Hi HQ. unfold set_gate. wp_steps. destruct (decide _) as [|H]; [|lia]. wp_steps. now rewrite Nat2Z.id.
Qed.

Lemma wp_tvinit_loop vectors n : forall k (Q : unit -> bootg -> Prop) g, length vectors = 256%nat -> length (bt_idt g) = 256%nat -> (k + n = 256)%nat ->
  (forall i v, (i < k)%nat -> vectors !! i = Some v -> bt_idt g !! i = Some (SETGATE false 8 v 0)) ->
  (forall idt', length idt' = 256%nat -> (forall i v, vectors !! i = Some v -> idt' !! i = Some (SETGATE false 8 v 0)) -> Q tt (g <| bt_idt := idt' |>)) ->
  wp (for_ (seq k n) (fun i => v ← of_opt "vectors: out of range" (vectors !! i); set_gate (Z.of_nat i) (SETGATE false (Z.shiftl SEG_KCODE 3) v 0))) Q g.
Proof.
  induction n as [|n IH]; intros k Q g Hv Hi Hk Hd HQ; cbn [seq for_].
  - wp_steps. specialize (HQ (bt_idt g) Hi). replace (g <| bt_idt := bt_idt g |>) with g in HQ by now destruct g. apply HQ.
    intros i v E. apply Hd; [|done]. apply lookup_lt_Some in E. lia.
  - destruct (lookup_lt_is_Some_2 vectors k) as [v Ev]; [lia|]. rewrite Ev. wp_steps. apply wp_set_gate; [lia|].
    apply IH; [done|cbn [bt_idt]; simpl; now rewrite length_insert|lia| |].
    + intros i v' Hlt E. simpl. destruct (decide (i = k)) as [->|Hne].
      * rewrite list_lookup_insert_eq by lia. rewrite Ev in E. now injection E as <-.
      * rewrite list_lookup_insert_ne by done. apply Hd; [lia|done].
    + intros idt' Hl He. exact (HQ idt' Hl He).
Qed.

(** C31: the interrupt table leaves user code one way in. After tvinit the processor finds in each of
    the 256 gates the entry point of its vector in the kernel's code segment; the only gate an int
    instruction of user code can use is the system call's, and it is the only one that leaves
    interrupts enabled. *)
Theorem tvinit_protects vectors g : length vectors = 256%nat -> Forall is_u32 vectors -> length (bt_idt g) = 256%nat ->
  wp (tvinit vectors) (fun _ g' => length (bt_idt g') = 256%nat /\ forall i v, vectors !! i = Some v ->
    exists d, bt_idt g' !! i = Some d /\ gt_off (gate_of d) = v /\ gt_sel (gate_of d) = Z.shiftl SEG_KCODE 3 /\ gt_present (gate_of d) = 1 /\
      (open_to_user (gate_of d) <-> Z.of_nat i = T_SYSCALL) /\ (masks_interrupts (gate_of d) <-> Z.of_nat i <> T_SYSCALL)) g.
Proof.
  intros Hv Hu Hi. unfold tvinit. wp_steps. apply wp_tvinit_loop; [done|done|done|lia|]. intros idt' Hl He.
  destruct (lookup_lt_is_Some_2 vectors 64) as [v64 Ev]; [lia|]. change (Z.to_nat T_SYSCALL) with 64%nat. rewrite Ev. wp_steps.
  apply (wp_set_gate 64); [simpl; lia|]. cbn [bt_idt setf set_bt_idt]. split; [now rewrite length_insert|]. intros i v E.
  assert (is_u32 v) as Huv by now apply (Forall_lookup_1 _ _ _ _ Hu E). unfold open_to_user, masks_interrupts, gate_of.
  destruct (decide (i = 64%nat)) as [->|Hne]; [rewrite list_lookup_insert_eq by lia|rewrite list_lookup_insert_ne by done; rewrite (He _ _ E)];
    eexists; (split; [reflexivity|]); rewrite read_SETGATE by (split; vm_compute; done); cbn [gt_off gt_sel gt_type gt_dpl gt_present].
  - rewrite Ev in E. injection E as ->. rewrite u32_small by done. unfold T_SYSCALL, DPL_USER, STS_TG32, STS_IG32. repeat split; try reflexivity; try (cbn; lia).
  - rewrite u32_small by done. unfold T_SYSCALL, STS_IG32. repeat split; try reflexivity; try (cbn; lia).
Qed.

(** The vectors of vectors.S lie ten bytes apart, or thereabouts. *)
Definition ex_vectors : list Z := (fun i => 0x80105000 + 10 * Z.of_nat i) <$> seq 0 256.
Definition zero_taskstate : taskstate := mk_taskstate 0 0 0 0 0 0 0 0 0 0 0 0 0 0 0 0 0 0 0 0 0 0 0 0 0 0 0.
Definition zero_cpu : cpu := mk_cpu 0 zero_taskstate (replicate 6 (mk_segdesc 0 0 0 0 0 0 0 0 0 0 0 0 0)) 0.
Definition ex_boot (s : kstate) : bootg :=
  mk_bootg (mk_apicg s 0 0 0 (0, 0) 0) (replicate 8 zero_cpu) 1 (replicate 256 (mk_gatedesc 0 0 0 0 0 0 0 0 0)) false None None 0.
Definition ex_boot_k : kstate := boot_state (mk_symbols 0x80110000 0x80108000 0x80103000 0x80105000) ∅.

Lemma ex_vectors_u32 : Forall is_u32 ex_vectors.
Proof. apply list.Forall_forall. intros v Hv. apply list_elem_of_fmap in Hv as (i & -> & Hi). apply elem_of_seq in Hi. unfold is_u32. lia. Qed.

Lemma tvinit_protects_witness :
  wp (tvinit ex_vectors) (fun _ g' => length (bt_idt g') = 256%nat /\ forall i v, ex_vectors !! i = Some v ->
    exists d, bt_idt g' !! i = Some d /\ gt_off (gate_of d) = v /\ gt_sel (gate_of d) = Z.shiftl SEG_KCODE 3 /\ gt_present (gate_of d) = 1 /\
      (open_to_user (gate_of d) <-> Z.of_nat i = T_SYSCALL) /\ (masks_interrupts (gate_of d) <-> Z.of_nat i <> T_SYSCALL)) (ex_boot ex_boot_k).
Proof. exact (tvinit_protects ex_vectors (ex_boot ex_boot_k) eq_refl ex_vectors_u32 eq_refl). Defined.

(** ** The segments and the task state *)

(** The processor permits user code a port when the port's bit in the I/O map lies within the task
    state segment and is clear; [map] gives the bytes of the segment. *)
Definition io_permitted (ts : taskstate) (limit : Z) (map : Z -> Z) (port : Z) : Prop :=
  ts_iomb ts + port / 8 + 1 <= limit /\ Z.testbit (map (ts_iomb ts + port / 8)) (port mod 8) = false.

Definition seg_at (c : cpu) (i : Z) : option segment := read_segment ∘ segdesc_word <$> cp_gdt c !! Z.to_nat i.

Section protection.
Context {D : Type} `{Ports D} `{Mmio D}.

Lemma wp_alift {A} (m : M (apicg * D) A) (Q : A -> bootg * D -> Prop) g d :
  wp m (fun a x => Q a (g <| bt_a := x.1 |>, x.2)) (bt_a g, d) -> wp (alift m) Q (g, d).
Proof. unfold wp, alift. now destruct (m (bt_a g, d)) as [a [x d']|[x d']| | |]. Qed.

(** The processor that runs is cpus[c]. *)
Record this_cpu (g : bootg) (d : D) (c : nat) : Prop := {
  tc_if : bt_if g = false;
  tc_id : exists id, wp lapicid (fun v x => v = id /\ x = (bt_a g, d)) (bt_a g, d) /\ find_cpu (bt_cpus g) (bt_ncpu g) 0 id = Some c
}.

Lemma wp_mycpu g d c (Q : nat -> bootg * D -> Prop) : this_cpu g d c -> Q c (g, d) -> wp mycpu Q (g, d).
Proof.
  intros [Hf (id & Hl & He)] HQ. unfold mycpu. wp_steps. apply wp_lift. wp_steps.
  apply wp_alift. eapply wp_mono; [exact Hl|]. intros v x [-> ->]. cbn [fst snd]. replace (g <| bt_a := bt_a g |>) with g by now destruct g.
  wp_steps. apply wp_lift. now wp_steps.
Qed.

Lemma wp_upd_cpu i c f (Q : unit -> bootg -> Prop) g : bt_cpus g !! i = Some c -> Q tt (g <| bt_cpus := <[i := f c]> (bt_cpus g) |>) -> wp (upd_cpu i f) Q g.
Proof. intros E HQ. unfold upd_cpu, cpu_at. now wp_steps. Qed.

Lemma wp_set_seg id c i d (Q : unit -> bootg -> Prop) g : bt_cpus g !! id = Some c -> 0 <= i < Z.of_nat (length (cp_gdt c)) ->
  Q tt (g <| bt_cpus := <[id := c <| cp_gdt := <[Z.to_nat i := d]> (cp_gdt c) |>]> (bt_cpus g) |>) -> wp (set_seg id i d) Q g.
Proof. intros E Hi HQ. unfold set_seg, cpu_at. wp_steps. rewrite decide_True by done. now apply (wp_upd_cpu _ c). Qed.

Definition kernel_segs (gdt : list segdesc) : list segdesc :=
  <[Z.to_nat SEG_UDATA := SEG STA_W 0 0xffffffff DPL_USER]> (<[Z.to_nat SEG_UCODE := SEG (Z.lor STA_X STA_R) 0 0xffffffff DPL_USER]>
    (<[Z.to_nat SEG_KDATA := SEG STA_W 0 0xffffffff 0]> (<[Z.to_nat SEG_KCODE := SEG (Z.lor STA_X STA_R) 0 0xffffffff 0]> gdt))).

Lemma wp_seginit g d c r (Q : unit -> bootg * D -> Prop) : this_cpu g d c -> bt_cpus g !! c = Some r -> length (cp_gdt r) = 6%nat ->
  Q tt (g <| bt_cpus := <[c := r <| cp_gdt := kernel_segs (cp_gdt r) |>]> (bt_cpus g) |> <| bt_gdtr := Some (c, 47) |>, d) -> wp seginit Q (g, d).
Proof.
  intros Hc Hr Hl HQ. assert (c < length (bt_cpus g))%nat as Hlt by (apply lookup_lt_is_Some; eauto). unfold seginit, cpuid. wp_steps.
  apply (wp_mycpu _ _ c); [done|]. wp_steps. rewrite Nat2Z.id.
  do 4 (apply wp_lift; eapply wp_set_seg; [cbn [bt_cpus setf set_bt_cpus]; first [exact Hr|apply list_lookup_insert_eq; rewrite ?length_insert; done]|
    cbn [cp_gdt setf set_cp_gdt]; rewrite ?length_insert, Hl; vm_compute; split; [discriminate|reflexivity]|]; wp_steps).
  apply wp_lift. unfold lgdt. wp_steps. cbn [bt_cpus setf set_bt_cpus] in *. rewrite !list_insert_insert_eq. exact HQ.
Qed.

Lemma wp_switchuvm_ts ts_addr kstack g d c r (Q : unit -> bootg * D -> Prop) : this_cpu g d c -> bt_cpus g !! c = Some r -> length (cp_gdt r) = 6%nat ->
  Q tt (g <| bt_cpus := <[c := mk_cpu (cp_apicid r) ((cp_ts r) <| ts_ss0 := 16 |> <| ts_esp0 := u32 (kstack + KSTACKSIZE) |> <| ts_iomb := 0xFFFF |>)
          (<[5%nat := (SEG16 STS_T32A (ts_addr c) 103 0) <| sd_s := 0 |>]> (cp_gdt r)) (cp_started r)]> (bt_cpus g) |> <| bt_tr := 40 |>, d) ->
  wp (switchuvm_ts ts_addr kstack) Q (g, d).
Proof.
  intros Hc Hr Hl HQ. assert (c < length (bt_cpus g))%nat as Hlt by (apply lookup_lt_is_Some; eauto). unfold switchuvm_ts. wp_steps.
  apply (wp_mycpu _ _ c); [done|]. wp_steps. apply wp_lift. eapply wp_set_seg; [exact Hr|rewrite Hl; vm_compute; split; [discriminate|reflexivity]|]. wp_steps.
  do 3 (apply wp_lift; eapply wp_upd_cpu; [cbn [bt_cpus setf set_bt_cpus]; apply list_lookup_insert_eq; rewrite ?length_insert; done|]; wp_steps).
  apply wp_lift. unfold ltr. wp_steps. cbn [bt_cpus setf set_bt_cpus]. rewrite !list_insert_insert_eq. exact HQ.
Qed.

Lemma find_cpu_same cs n id c r r' : forall i, cp_apicid r' = cp_apicid r -> cs !! c = Some r ->
  find_cpu (<[c := r']> cs) n i id = find_cpu cs n i id.
Proof.
  revert c. induction cs as [|x cs IH]; intros [|c] i Ha Hr; simpl in Hr; simpl; try done.
  - injection Hr as ->. now rewrite Ha.
  - now rewrite (IH c _ Ha Hr).
Qed.

Lemma this_cpu_gdt g d c r gdt x : this_cpu g d c -> bt_cpus g !! c = Some r ->
  this_cpu (g <| bt_cpus := <[c := r <| cp_gdt := gdt |>]> (bt_cpus g) |> <| bt_gdtr := x |>) d c.
Proof. intros [Hf (id & Hl & He)] Hr. split; [exact Hf|]. exists id. split; [exact Hl|]. cbn [bt_cpus bt_ncpu setf set_bt_cpus set_bt_gdtr]. now rewrite (find_cpu_same _ _ _ _ r). Qed.

(** The processor's protection. After seginit and the task state of switchuvm, the processor
    sees four flat 4GB segments, code and data for the kernel at level 0 and for the user at level 3,
    and a task state that gives the stack for entering the kernel and, for user code, permits no I/O
    port. *)
Theorem segments_protect ts_addr kstack g d c r : this_cpu g d c -> bt_cpus g !! c = Some r -> length (cp_gdt r) = 6%nat ->
  wp (seginit ;; switchuvm_ts ts_addr kstack) (fun _ '(g', d') => d' = d /\ exists r', bt_cpus g' !! c = Some r' /\
    seg_at r' SEG_KCODE = Some (mk_segment 0 0xffffffff (Z.lor STA_X STA_R) 1 0 1 1) /\
    seg_at r' SEG_KDATA = Some (mk_segment 0 0xffffffff STA_W 1 0 1 1) /\
    seg_at r' SEG_UCODE = Some (mk_segment 0 0xffffffff (Z.lor STA_X STA_R) 1 3 1 1) /\
    seg_at r' SEG_UDATA = Some (mk_segment 0 0xffffffff STA_W 1 3 1 1) /\
    seg_at r' SEG_TSS = Some (mk_segment (u32 (ts_addr c)) (sizeof_taskstate - 1) STS_T32A 0 0 1 1) /\
    ts_ss0 (cp_ts r') = Z.shiftl SEG_KDATA 3 /\ ts_esp0 (cp_ts r') = u32 (kstack + KSTACKSIZE) /\
    bt_gdtr g' = Some (c, 8 * NSEGS - 1) /\ bt_tr g' = Z.shiftl SEG_TSS 3 /\
    forall map port, 0 <= port -> ~ io_permitted (cp_ts r') (sizeof_taskstate - 1) map port) (g, d).
Proof.
  intros Hc Hr Hl. assert (c < length (bt_cpus g))%nat as Hlt by (apply lookup_lt_is_Some; eauto). wp_steps. apply (wp_seginit _ _ c r); [done|done|done|].
  eapply wp_switchuvm_ts; [now apply this_cpu_gdt|cbn [bt_cpus setf set_bt_cpus set_bt_gdtr]; now apply list_lookup_insert_eq| |].
  - cbn [cp_gdt setf set_cp_gdt]. unfold kernel_segs. now rewrite !length_insert.
  - split; [done|]. eexists. split; [cbn [bt_cpus setf set_bt_cpus set_bt_gdtr set_bt_tr]; apply list_lookup_insert_eq; now rewrite length_insert|].
    unfold seg_at, kernel_segs. cbn [cp_gdt cp_ts setf set_cp_gdt]. destruct (cp_gdt r) as [|x0 [|x1 [|x2 [|x3 [|x4 [|x5 [|]]]]]]]; try discriminate Hl.
    do 4 (split; [vm_compute; reflexivity|]). split.
    { change (Some (read_segment (segdesc_word ((SEG16 STS_T32A (ts_addr c) 103 0) <| sd_s := 0 |>))) =
        Some (mk_segment (u32 (ts_addr c)) 103 STS_T32A 0 0 1 1)). f_equal. apply read_SEG16; vm_compute; split; (discriminate || reflexivity). }
    do 4 (split; [reflexivity|]). intros map port Hp [Hio _]. change (65535 + port / 8 + 1 <= 103) in Hio. pose proof (Z.div_pos port 8). lia.
Qed.
End protection.

(** A machine without devices; its processor has no local APIC and is cpus[0]. *)
#[global] Instance nodev_ports : Ports unit :=
  { port_in p d := (0, d); port_out p v d := d; port_insl p n d := ([], d); port_outsl p bs d := d }.
#[global] Instance nodev_mmio : Mmio unit := { mmio_load a d := (0, d); mmio_store a v d := d }.

Lemma ex_this_cpu : this_cpu (ex_boot ex_boot_k) tt 0.
Proof. split; [reflexivity|]. exists 0. split; [|reflexivity]. split; reflexivity. Qed.

Lemma segments_protect_witness :
  wp (seginit ;; switchuvm_ts (fun c => 0x80110000 + 176 * Z.of_nat c + 8) 0x8dfff000) (fun _ '(g', d') => d' = tt /\ exists r', bt_cpus g' !! 0%nat = Some r' /\
    seg_at r' SEG_KCODE = Some (mk_segment 0 0xffffffff (Z.lor STA_X STA_R) 1 0 1 1) /\
    seg_at r' SEG_KDATA = Some (mk_segment 0 0xffffffff STA_W 1 0 1 1) /\
    seg_at r' SEG_UCODE = Some (mk_segment 0 0xffffffff (Z.lor STA_X STA_R) 1 3 1 1) /\
    seg_at r' SEG_UDATA = Some (mk_segment 0 0xffffffff STA_W 1 3 1 1) /\
    seg_at r' SEG_TSS = Some (mk_segment (u32 (0x80110000 + 176 * Z.of_nat 0 + 8)) (sizeof_taskstate - 1) STS_T32A 0 0 1 1) /\
    ts_ss0 (cp_ts r') = Z.shiftl SEG_KDATA 3 /\ ts_esp0 (cp_ts r') = u32 (0x8dfff000 + KSTACKSIZE) /\
    bt_gdtr g' = Some (0%nat, 8 * NSEGS - 1) /\ bt_tr g' = Z.shiftl SEG_TSS 3 /\
    forall map port, 0 <= port -> ~ io_permitted (cp_ts r') (sizeof_taskstate - 1) map port) (ex_boot ex_boot_k, tt).
Proof.
  exact (segments_protect (fun c => 0x80110000 + 176 * Z.of_nat c + 8) 0x8dfff000 (ex_boot ex_boot_k) tt 0 zero_cpu ex_this_cpu eq_refl eq_refl).
Defined.
