(* ===== verification/Mp.v ===== *)
(** The search for the other processors, mp.c.

    The BIOS leaves two structures in memory, a floating pointer (struct mp) and a configuration
    table (struct mpconf followed by its entries); [m] is the memory they are read from, by kernel
    virtual address. mpinit collects from the table the processors, the I/O APIC and the address of
    the local APICs. *)

From stdpp Require Import base list gmap strings numbers.
From Stdlib Require Import ZArith Lia.
From S2P Require Import Prelude Bytes CString Itoa Kstate Mmu Segment Ports Apic Cpu.
Open Scope Z_scope.

(** mp.h *)
Definition MPPROC : Z := 0x00.
Definition MPBUS : Z := 0x01.
Definition MPIOAPIC : Z := 0x02.
Definition MPIOINTR : Z := 0x03.
Definition MPLINTR : Z := 0x04.

(** The structures' sizes and the fields the code reads, by offset. *)
Definition sizeof_mp : Z := 16.
Definition mp_physaddr (m : bmem) (p : Z) : Z := le_val [m (p + 4); m (p + 5); m (p + 6); m (p + 7)].
Definition mp_imcrp (m : bmem) (p : Z) : Z := m (p + 12).
Definition sizeof_mpconf : Z := 44.
Definition mpconf_length (m : bmem) (p : Z) : Z := le_val [m (p + 4); m (p + 5)].
Definition mpconf_version (m : bmem) (p : Z) : Z := m (p + 6).
Definition mpconf_lapicaddr (m : bmem) (p : Z) : Z := le_val [m (p + 36); m (p + 37); m (p + 38); m (p + 39)].
Definition sizeof_mpproc : Z := 20.
Definition mpproc_apicid (m : bmem) (p : Z) : Z := m (p + 1).
Definition sizeof_mpioapic : Z := 8.
Definition mpioapic_apicno (m : bmem) (p : Z) : Z := m (p + 1).

(** memcmp(p, lit, n) == 0 for the n bytes [lit] of a string literal. *)
Fixpoint memeq (m : bmem) (p : Z) (lit : list Z) : bool :=
  match lit with
  | [] => true
  | c :: lit' => (m p =? c) && memeq m (p + 1) lit'
  end.

(** The loop of sum: [n] bytes from [addr] on top of [acc]. *)
Fixpoint sum_loop (m : bmem) (addr : Z) (n : nat) (acc : Z) : Z :=
  match n with
  | O => acc
  | S n' => sum_loop m (addr + 1) n' (s32 (acc + m addr))
  end.
Definition sum (m : bmem) (addr len : Z) : Z := u8 (sum_loop m addr (Z.to_nat len) 0).

(** Each round advances by sizeof(struct mp), so len rounds are enough. *)
Fixpoint mpsearch1_loop (m : bmem) (n : nat) (p e : Z) : Z :=
  match n with
  | O => 0
  | S n' =>
    if p <? e then
      if memeq m p (str "_MP_") && (sum m p sizeof_mp =? 0) then p else mpsearch1_loop m n' (p + sizeof_mp) e
    else 0
  end.
Definition mpsearch1 (m : bmem) (a len : Z) : Z :=
  let addr := P2V a in
  mpsearch1_loop m (Z.to_nat len) addr (addr + len).

Definition mpsearch (m : bmem) : Z :=
  let bda := P2V 0x400 in
  let p := Z.shiftl (Z.lor (Z.shiftl (m (bda + 0x0F)) 8) (m (bda + 0x0E))) 4 in
  let mp :=
    if negb (p =? 0) then mpsearch1 m p 1024
    else mpsearch1 m (u32 (Z.lor (Z.shiftl (m (bda + 0x14)) 8) (m (bda + 0x13)) * 1024 - 1024)) 1024 in
  if negb (mp =? 0) then mp else mpsearch1 m 0xF0000 0x10000.

(** The configuration table and the floating pointer that names it. *)
Definition mpconfig (m : bmem) : option (Z * Z) :=
  let mp := mpsearch m in
  if (mp =? 0) || (mp_physaddr m mp =? 0) then None else
  let conf := P2V (mp_physaddr m mp) in
  if negb (memeq m conf (str "PCMP")) then None else
  if negb (mpconf_version m conf =? 1) && negb (mpconf_version m conf =? 4) then None else
  if negb (sum m conf (mpconf_length m conf) =? 0) then None else
  Some (conf, mp).

(** The loop over the entries from [p] to [e]; the result is ismp. *)
Fixpoint mp_entries (fuel : nat) (m : bmem) (p e : Z) (ismp : bool) : M bootg bool :=
  match fuel with
  | O => nofuel
  | S fuel' =>
    if p <? e then
      if m p =? MPPROC then
        g ← get;
        when (bt_ncpu g <? NCPU)
          (upd_cpu (Z.to_nat (bt_ncpu g)) (fun c => c <| cp_apicid := mpproc_apicid m p |>) ;;
           modify (fun g => g <| bt_ncpu := bt_ncpu g + 1 |>)) ;;
        mp_entries fuel' m (p + sizeof_mpproc) e ismp
      else if m p =? MPIOAPIC then
        modify (fun g => g <| bt_a := (bt_a g) <| ag_ioapicid := mpioapic_apicno m p |> |>) ;;
        mp_entries fuel' m (p + sizeof_mpioapic) e ismp
      else if (m p =? MPBUS) || (m p =? MPIOINTR) || (m p =? MPLINTR) then
        mp_entries fuel' m (p + 8) e ismp
      else mp_entries fuel' m p e false
    else ret ismp
  end.

Section mpinit.
Context {D : Type} `{Ports D}.

Definition mpinit (fuel : nat) (m : bmem) : M (bootg * D) unit :=
  match mpconfig m with
  | None => panic "Expect to run on an SMP"
  | Some (conf, mp) =>
    lift (modify (fun g => g <| bt_a := (bt_a g) <| ag_lapic := mpconf_lapicaddr m conf |> |>)) ;;
    ismp ← lift (mp_entries fuel m (conf + sizeof_mpconf) (conf + mpconf_length m conf) true);
    if negb ismp then panic "Didn't find a suitable machine" else
    when (negb (mp_imcrp m mp =? 0))
      (outb 0x22 0x70 ;;
       v ← inb 0x23;
       outb 0x23 (Z.lor v 1))
  end.
End mpinit.

(** ** The entries of a table *)

Inductive mpentry :=
| MProc (apicid : Z) (rest : list Z)      (* the 18 bytes after the id *)
| MIoapic (apicno : Z) (rest : list Z)    (* 6 bytes *)
| MOther (type : Z) (rest : list Z).      (* a bus or an interrupt source: 7 bytes *)

Definition entry_ok (e : mpentry) : Prop :=
  match e with
  | MProc _ rest => length rest = 18%nat
  | MIoapic _ rest => length rest = 6%nat
  | MOther type rest => (type = MPBUS \/ type = MPIOINTR \/ type = MPLINTR) /\ length rest = 7%nat
  end.

Definition entry_bytes (e : mpentry) : list Z :=
  match e with
  | MProc apicid rest => MPPROC :: apicid :: rest
  | MIoapic apicno rest => MPIOAPIC :: apicno :: rest
  | MOther type rest => type :: rest
  end.

(** The bytes [l] lie at [p]. *)
Definition holds (m : bmem) (p : Z) (l : list Z) : Prop := forall i b, l !! i = Some b -> m (p + Z.of_nat i) = b.

Definition apic_ids (es : list mpentry) : list Z := omap (fun e => match e with MProc id _ => Some id | _ => None end) es.
Definition ioapic_no (es : list mpentry) (d : Z) : Z := fold_left (fun x e => match e with MIoapic no _ => no | _ => x end) es d.

(** What a table of entries [es] makes of the array cpus, of which [n] are in use: the next ones get
    the ids found, as many as there is room for. *)
Fixpoint set_ids (cs : list cpu) (ids : list Z) : list cpu :=
  match cs, ids with
  | c :: cs', id :: ids' => c <| cp_apicid := id |> :: set_ids cs' ids'
  | _, _ => cs
  end.

Definition entries_bytes (es : list mpentry) : list Z := concat (entry_bytes <$> es).

Definition entries_state (es : list mpentry) (g : bootg) : bootg :=
  let n := Z.to_nat (bt_ncpu g) in
  g <| bt_a := (bt_a g) <| ag_ioapicid := ioapic_no es (ag_ioapicid (bt_a g)) |> |>
    <| bt_cpus := take n (bt_cpus g) ++ set_ids (drop n (bt_cpus g)) (apic_ids es) |>
    <| bt_ncpu := Z.min NCPU (bt_ncpu g + Z.of_nat (length (apic_ids es))) |>.

Lemma holds_app m p l1 l2 : holds m p (l1 ++ l2) <-> holds m p l1 /\ holds m (p + Z.of_nat (length l1)) l2.
Proof.
  split.
  - intros H. split; intros i b E.
    + apply H. now apply lookup_app_l_Some.
    + rewrite <- Z.add_assoc, <- Nat2Z.inj_add. apply H. rewrite lookup_app_r by lia. now replace (length l1 + i - length l1)%nat with i by lia.
  - intros [H1 H2] i b [E|[Hl E]]%lookup_app_Some; [now apply H1|].
    apply H2 in E. rewrite <- E. f_equal. lia.
Qed.

Lemma holds_cons m p b l : holds m p (b :: l) -> m p = b /\ holds m (p + 1) l.
Proof.
  intros H. split; [rewrite <- (Z.add_0_r p); now apply (H 0%nat)|]. intros i x E. specialize (H (S i) x E). rewrite <- H. f_equal. lia.
Qed.

Lemma take_set_ids n cs c id ids : cs !! n = Some c ->
  take n cs ++ set_ids (drop n cs) (id :: ids) = take (S n) (<[n := c <| cp_apicid := id |>]> cs) ++ set_ids (drop (S n) (<[n := c <| cp_apicid := id |>]> cs)) ids.
Proof.
  intros E. pose proof (lookup_lt_Some _ _ _ E). rewrite (drop_S cs c n E). cbn [set_ids].
  rewrite drop_insert_lt by lia. rewrite (take_S_r _ n (c <| cp_apicid := id |>)) by now apply list_lookup_insert_eq.
  rewrite take_insert_ge by lia. now rewrite <- app_assoc.
Qed.

Lemma entry_length e : entry_ok e -> Z.of_nat (length (entry_bytes e)) = match e with MProc _ _ => sizeof_mpproc | MIoapic _ _ => sizeof_mpioapic | MOther _ _ => 8 end.
Proof. unfold sizeof_mpproc, sizeof_mpioapic. destruct e; simpl; intros He; intuition lia. Qed.

Lemma entries_state_nil g : 0 <= bt_ncpu g <= NCPU -> entries_state [] g = g.
Proof.
  intros Hn. unfold entries_state. cbn [apic_ids ioapic_no fold_left omap list_omap length]. 
  assert (forall cs : list cpu, set_ids cs [] = cs) as -> by now intros [].
  rewrite take_drop. replace (Z.min NCPU (bt_ncpu g + Z.of_nat 0)) with (bt_ncpu g) by lia. now destruct g as [[] ? ? ? ? ? ? ?].
Qed.

(** One entry. *)
Definition entry_state (e : mpentry) (g : bootg) : bootg :=
  match e with
  | MProc id _ =>
    match bt_cpus g !! Z.to_nat (bt_ncpu g) with
    | Some c => g <| bt_cpus := <[Z.to_nat (bt_ncpu g) := c <| cp_apicid := id |>]> (bt_cpus g) |> <| bt_ncpu := bt_ncpu g + 1 |>
    | None => g
    end
  | MIoapic no _ => g <| bt_a := (bt_a g) <| ag_ioapicid := no |> |>
  | MOther _ _ => g
  end.

(** cpus has its eight elements, and ncpu of them are in use. *)
Definition cpus_ok (g : bootg) : Prop := length (bt_cpus g) = Z.to_nat NCPU /\ 0 <= bt_ncpu g <= NCPU.

Lemma entry_state_ok e g : cpus_ok g -> cpus_ok (entry_state e g).
Proof.
  intros [Hl Hn]. destruct e as [id ?|no ?|]; simpl; [|done..]. destruct (bt_cpus g !! _) eqn:E; [|done].
  apply lookup_lt_Some in E. split; simpl; [now rewrite length_insert|lia].
Qed.

Lemma entries_state_cons e es g : cpus_ok g -> entries_state (e :: es) g = entries_state es (entry_state e g).
Proof.
  intros [Hl Hn]. destruct e as [id ?|no ?|]; [|reflexivity..]. unfold entries_state. cbn [entry_state].
  change (apic_ids (MProc id rest :: es)) with (id :: apic_ids es). change (ioapic_no (MProc id rest :: es)) with (ioapic_no es).
  destruct (bt_cpus g !! _) as [c|] eqn:E; cbn [bt_a bt_cpus bt_ncpu setf set_bt_cpus set_bt_ncpu length].
  - replace (Z.to_nat (bt_ncpu g + 1)) with (S (Z.to_nat (bt_ncpu g))) by lia. rewrite <- (take_set_ids _ _ c id) by done.
    replace (bt_ncpu g + 1 + Z.of_nat (length (apic_ids es))) with (bt_ncpu g + Z.of_nat (S (length (apic_ids es)))) by lia. reflexivity.
  - apply lookup_ge_None in E. rewrite drop_ge by lia. cbn [set_ids].
    replace (Z.min NCPU (bt_ncpu g + Z.of_nat (S (length (apic_ids es))))) with (Z.min NCPU (bt_ncpu g + Z.of_nat (length (apic_ids es)))) by lia.
    now destruct (apic_ids es).
Qed.

Lemma mp_entries_step m en fuel p e ismp g : entry_ok en -> holds m p (entry_bytes en) -> p < e -> cpus_ok g ->
  mp_entries (S fuel) m p e ismp g = mp_entries fuel m (p + Z.of_nat (length (entry_bytes en))) e ismp (entry_state en g).
Proof.
  intros He Hm Hp [Hl Hn]. rewrite (entry_length en He). cbn [mp_entries]. destruct (Z.ltb_spec p e); [|lia].
  destruct en as [id rest|no rest|ty rest]; cbn [entry_bytes] in Hm; apply holds_cons in Hm as [E0 Hm]; rewrite E0; cbn [entry_state].
  - apply holds_cons in Hm as [E1 _]. rewrite Z.eqb_refl. unfold mbind, M_bind, bind, get, when, upd_cpu, cpu_at, mpproc_apicid, gets, of_opt, modify. rewrite E1.
    destruct (bt_cpus g !! _) as [c|] eqn:E.
    + pose proof (lookup_lt_Some _ _ _ E). destruct (Z.ltb_spec (bt_ncpu g) NCPU); [|lia]. unfold mbind, M_bind, bind. now rewrite E.
    + apply lookup_ge_None in E. destruct (Z.ltb_spec (bt_ncpu g) NCPU); [lia|reflexivity].
  - apply holds_cons in Hm as [E1 _]. unfold mpioapic_apicno. rewrite E1. reflexivity.
  - destruct He as [[->|[->| ->]] _]; reflexivity.
Qed.

Lemma entries_bytes_cons e es : entries_bytes (e :: es) = entry_bytes e ++ entries_bytes es.
Proof. reflexivity. Qed.

(** The loop over good entries, up to where they end. *)
Lemma mp_entries_run m es : forall fuel p e ismp g, Forall entry_ok es -> holds m p (entries_bytes es) ->
  p + Z.of_nat (length (entries_bytes es)) <= e -> cpus_ok g ->
  mp_entries (length es + fuel) m p e ismp g = mp_entries fuel m (p + Z.of_nat (length (entries_bytes es))) e ismp (entries_state es g).
Proof.
  induction es as [|en es IH]; intros fuel p e ismp g He Hm Hp Hg.
  - rewrite entries_state_nil by apply Hg. simpl. now rewrite Z.add_0_r.
  - apply list.Forall_cons in He as [He Hes]. rewrite entries_bytes_cons in *. apply holds_app in Hm as [Hm1 Hm2].
    rewrite length_app, Nat2Z.inj_add in *. pose proof (entry_length en He). cbn [length Nat.add].
    rewrite (mp_entries_step _ en) by (try done; unfold sizeof_mpproc, sizeof_mpioapic in *; destruct en; lia).
    rewrite entries_state_cons, Z.add_assoc by done. apply IH; [done|done|lia|now apply entry_state_ok].
Qed.

Lemma mp_entries_short m es : forall fuel p e ismp g, Forall entry_ok es -> holds m p (entries_bytes es) ->
  p + Z.of_nat (length (entries_bytes es)) <= e -> cpus_ok g -> (fuel < length es)%nat -> mp_entries fuel m p e ismp g = OutOfFuel.
Proof.
  induction es as [|en es IH]; intros [|fuel] p e ismp g He Hm Hp Hg Hf; simpl in Hf; try lia; [done|].
  apply list.Forall_cons in He as [He Hes]. rewrite entries_bytes_cons in *. apply holds_app in Hm as [Hm1 Hm2].
  rewrite length_app, Nat2Z.inj_add in *. pose proof (entry_length en He).
  rewrite (mp_entries_step _ en) by (try done; unfold sizeof_mpproc, sizeof_mpioapic in *; destruct en; lia).
  apply IH; [done|done|lia|now apply entry_state_ok|lia].
Qed.

(** ** The table the firmware promises *)

(** A floating pointer at [mp] that names the configuration table at [conf], which has a valid header
    and the entries [es]. *)
Record mptable (m : bmem) (mp conf : Z) (body : list Z) : Prop := {
  mt_mp : mpsearch m = mp;
  mt_found : mp <> 0;
  mt_phys : mp_physaddr m mp <> 0;
  mt_conf : conf = P2V (mp_physaddr m mp);
  mt_sig : memeq m conf (str "PCMP") = true;
  mt_version : mpconf_version m conf = 1 \/ mpconf_version m conf = 4;
  mt_sum : sum m conf (mpconf_length m conf) = 0;
  mt_length : mpconf_length m conf = sizeof_mpconf + Z.of_nat (length body);
  mt_body : holds m (conf + sizeof_mpconf) body
}.

Lemma mpconfig_table m mp conf body : mptable m mp conf body -> mpconfig m = Some (conf, mp).
Proof.
  intros [H1 H2 H3 H4 H5 H6 H7 H8 H9]. unfold mpconfig. rewrite H1.
  destruct (Z.eqb_spec mp 0); [done|]. destruct (Z.eqb_spec (mp_physaddr m mp) 0); [done|]. cbn [orb].
  rewrite <- H4, H5. cbn [negb]. destruct (Z.eqb_spec (mpconf_version m conf) 1), (Z.eqb_spec (mpconf_version m conf) 4); cbn [negb andb]; try lia.
  all: now rewrite H7.
Qed.

Lemma set_ids_found cs : forall ids, cp_apicid <$> take (min (length cs) (length ids)) (set_ids cs ids) = take (length cs) ids.
Proof. induction cs as [|c cs IH]; intros [|id ids]; simpl; try done. now rewrite IH. Qed.

Section table.
Context {D : Type} `{Ports D}.

(** IMCR: the interrupts of the old controller are masked when the machine has the register. *)
Definition imcr (m : bmem) (mp : Z) (d : D) : D :=
  if mp_imcrp m mp =? 0 then d else
  let '(v, d') := port_in 0x23 (port_out 0x22 0x70 d) in port_out 0x23 (u8 (Z.lor v 1)) d'.

(** mpinit on the table of the MultiProcessor Specification. For a table of any entries mpinit
    returns, after as many rounds as there are entries: cpus holds the ids of the processors listed, in
    order and up to the eight it has room for, ncpu counts them, ioapicid is the last I/O APIC listed
    and lapic the address the header gives. *)
Theorem mpinit_correct m mp conf es fuel g d : mptable m mp conf (entries_bytes es) -> Forall entry_ok es -> (length es < fuel)%nat ->
  length (bt_cpus g) = Z.to_nat NCPU -> bt_ncpu g = 0 ->
  wp (mpinit fuel m) (fun _ '(g', d') => d' = imcr m mp d /\
    bt_ncpu g' = Z.min NCPU (Z.of_nat (length (apic_ids es))) /\
    (cp_apicid <$> take (Z.to_nat (bt_ncpu g')) (bt_cpus g')) = take (Z.to_nat NCPU) (apic_ids es) /\
    ag_ioapicid (bt_a g') = ioapic_no es (ag_ioapicid (bt_a g)) /\ ag_lapic (bt_a g') = mpconf_lapicaddr m conf) (g, d).
Proof.
  intros Ht He Hf Hc Hn. unfold mpinit. rewrite (mpconfig_table _ _ _ _ Ht). wp_steps. apply wp_lift. wp_steps. apply wp_lift.
  set (g1 := g <| bt_a := _ |>). rewrite (mt_length _ _ _ _ Ht), Z.add_assoc. eapply wp_eq.
  { replace fuel with (length es + S (fuel - length es - 1))%nat by lia.
    rewrite mp_entries_run; [|done|exact (mt_body _ _ _ _ Ht)|lia|split; [exact Hc|simpl; unfold NCPU; lia]].
    cbn [mp_entries]. rewrite Z.ltb_irrefl. reflexivity. }
  cbn [negb]. wp_steps.
  assert (bt_ncpu (entries_state es g1) = Z.min NCPU (Z.of_nat (length (apic_ids es))) /\
    (cp_apicid <$> take (Z.to_nat (bt_ncpu (entries_state es g1))) (bt_cpus (entries_state es g1))) = take (Z.to_nat NCPU) (apic_ids es)) as [A1 A2].
  { unfold entries_state. cbn [bt_ncpu bt_cpus setf set_bt_ncpu set_bt_cpus set_bt_a g1]. rewrite Hn. split; [done|].
    change (Z.to_nat 0) with 0%nat. rewrite take_0, drop_0. cbn [app]. rewrite <- Hc, <- set_ids_found. do 2 f_equal. rewrite Hc. lia. }
  assert (ag_ioapicid (bt_a (entries_state es g1)) = ioapic_no es (ag_ioapicid (bt_a g)) /\
    ag_lapic (bt_a (entries_state es g1)) = mpconf_lapicaddr m conf) as [A3 A4] by done.
  unfold imcr. destruct (Z.eqb_spec (mp_imcrp m mp) 0); cbn [negb when]; wp_steps; [done|].
  apply wp_outb. wp_steps. destruct (port_in 0x23 (port_out 0x22 0x70 d)) as [v d1] eqn:E. apply (wp_inb _ _ _ _ _ _ E). now apply wp_outb.
Qed.

(** The loop does not leave an entry of a type it does not know. *)
Lemma mp_entries_stuck m p e fuel : forall ismp g, p < e -> 4 < m p -> mp_entries fuel m p e ismp g = OutOfFuel.
Proof.
  induction fuel as [|fuel IH]; intros ismp g Hp Hm; [done|]. cbn [mp_entries]. unfold MPPROC, MPIOAPIC, MPBUS, MPIOINTR, MPLINTR.
  destruct (Z.ltb_spec p e); [|lia]. destruct (Z.eqb_spec (m p) 0), (Z.eqb_spec (m p) 2), (Z.eqb_spec (m p) 1), (Z.eqb_spec (m p) 3), (Z.eqb_spec (m p) 4); try lia.
  now apply IH.
Qed.

(** An entry of an unknown type hangs mpinit. After any known entries, a byte above MPLINTR where
    an entry starts keeps the loop where it is: no number of rounds is enough, and the panic that
    "ismp = 0" asks for is never reached. *)
Theorem mpinit_unknown_entry_hangs m mp conf es ty rest fuel g d : mptable m mp conf (entries_bytes es ++ ty :: rest) -> Forall entry_ok es ->
  MPLINTR < ty -> cpus_ok g -> mpinit fuel m (g, d) = OutOfFuel.
Proof.
  intros Ht He Hty Hg. pose proof (mt_length _ _ _ _ Ht) as Hlen. pose proof (mt_body _ _ _ _ Ht) as Hb.
  apply holds_app in Hb as [Hb1 Hb2%holds_cons]. destruct Hb2 as [Eu _]. rewrite length_app in Hlen. cbn [length] in Hlen.
  unfold mpinit. rewrite (mpconfig_table _ _ _ _ Ht). set (e := conf + mpconf_length m conf). set (p := conf + sizeof_mpconf) in *.
  assert (forall g1, cpus_ok g1 -> mp_entries fuel m p e true g1 = OutOfFuel) as Hx.
  { intros g1 Hg1. destruct (decide (fuel < length es)%nat) as [Hlt|Hge].
    - eapply mp_entries_short; [exact He|exact Hb1|unfold p, e; lia|exact Hg1|exact Hlt].
    - replace fuel with (length es + (fuel - length es))%nat by lia. rewrite mp_entries_run by (try done; unfold p, e; lia).
      apply mp_entries_stuck; [unfold p, e; lia|]. rewrite Eu. exact Hty. }
  unfold mbind, M_bind, bind, lift, modify. now rewrite Hx.
Qed.
End table.

(** ** Examples *)

Lemma memeq_holds m l : forall p, memeq m p l = true -> holds m p l.
Proof.
  induction l as [|b l IH]; intros p H; [intros i x E; now rewrite lookup_nil in E|]. cbn [memeq] in H. apply andb_true_iff in H as [H1 H2].
  apply Z.eqb_eq in H1. apply IH in H2. intros [|i] x E; simpl in E; [injection E as <-; now rewrite Z.add_0_r|].
  specialize (H2 i x E). rewrite <- H2. f_equal. lia.
Qed.

(** The firmware's memory: the extended BIOS data area is at 0x9FC00 and starts with the floating
    pointer, which the configuration table follows. *)
Definition ex_fw (conf : list Z) : bmem := fun a =>
  if a =? P2V 0x40E then 0xC0 else if a =? P2V 0x40F then 0x9F else
  default 0 (([95; 77; 80; 95; 16; 252; 9; 0; 1; 4; 11; 0; 128; 0; 0; 0] ++ conf) !! Z.to_nat (a - P2V 0x9FC00)).

Definition ex_conf : list Z :=
  [80; 67; 77; 80; 100; 0; 4; 132; 88; 86; 54; 84; 69; 83; 84; 32; 32; 32; 32; 32; 32; 32; 32; 32; 32; 32; 32; 32; 0; 0; 0; 0; 0; 0; 4; 0; 0; 0; 224; 254; 0; 0; 0; 0; 0; 0; 20; 3; 0; 0; 0; 0; 0; 0; 0; 0; 0; 0; 0; 0; 0; 0; 0; 0; 0; 1; 20; 1; 0; 0; 0; 0; 0; 0; 0; 0; 0; 0; 0; 0; 0; 0; 0; 0; 2; 2; 17; 1; 0; 0; 192; 254; 1; 0; 80; 67; 73; 32; 32; 32].
Definition ex_entries : list mpentry :=
  [MProc 0 ([0x14; 3] ++ replicate 16 0); MProc 1 ([0x14; 1] ++ replicate 16 0); MIoapic 2 [0x11; 1; 0; 0; 0xC0; 0xFE]; MOther MPBUS ([0] ++ str "PCI   ")].

(** The same table with an entry of type 9 at its end. *)
Definition ex_conf9 : list Z :=
  [80; 67; 77; 80; 104; 0; 4; 118; 88; 86; 54; 84; 69; 83; 84; 32; 32; 32; 32; 32; 32; 32; 32; 32; 32; 32; 32; 32; 0; 0; 0; 0; 0; 0; 5; 0; 0; 0; 224; 254; 0; 0; 0; 0; 0; 0; 20; 3; 0; 0; 0; 0; 0; 0; 0; 0; 0; 0; 0; 0; 0; 0; 0; 0; 0; 1; 20; 1; 0; 0; 0; 0; 0; 0; 0; 0; 0; 0; 0; 0; 0; 0; 0; 0; 2; 2; 17; 1; 0; 0; 192; 254; 1; 0; 80; 67; 73; 32; 32; 32; 9; 0; 0; 0].

Lemma ex_table : mptable (ex_fw ex_conf) (P2V 0x9FC00) (P2V 0x9FC10) (entries_bytes ex_entries).
Proof.
  constructor; [vm_compute; reflexivity|discriminate|vm_compute; discriminate|vm_compute; reflexivity|vm_compute; reflexivity|right; vm_compute; reflexivity|
    vm_compute; reflexivity|vm_compute; reflexivity|]. apply memeq_holds. vm_compute. reflexivity.
Qed.

Lemma ex_table9 : mptable (ex_fw ex_conf9) (P2V 0x9FC00) (P2V 0x9FC10) (entries_bytes ex_entries ++ 9 :: [0; 0; 0]).
Proof.
  constructor; [vm_compute; reflexivity|discriminate|vm_compute; discriminate|vm_compute; reflexivity|vm_compute; reflexivity|right; vm_compute; reflexivity|
    vm_compute; reflexivity|vm_compute; reflexivity|]. apply memeq_holds. vm_compute. reflexivity.
Qed.

Lemma ex_entries_ok : Forall entry_ok ex_entries.
Proof. repeat constructor. Qed.

Definition ex_boot0 : bootg := (ex_boot ex_boot_k) <| bt_ncpu := 0 |>.

Lemma mpinit_correct_witness :
  wp (mpinit 5 (ex_fw ex_conf)) (fun _ '(g', d') => d' = imcr (ex_fw ex_conf) (P2V 0x9FC00) tt /\
    bt_ncpu g' = Z.min NCPU (Z.of_nat (length (apic_ids ex_entries))) /\
    (cp_apicid <$> take (Z.to_nat (bt_ncpu g')) (bt_cpus g')) = take (Z.to_nat NCPU) (apic_ids ex_entries) /\
    ag_ioapicid (bt_a g') = ioapic_no ex_entries (ag_ioapicid (bt_a ex_boot0)) /\
    ag_lapic (bt_a g') = mpconf_lapicaddr (ex_fw ex_conf) (P2V 0x9FC10)) (ex_boot0, tt).
Proof.
  exact (mpinit_correct (ex_fw ex_conf) (P2V 0x9FC00) (P2V 0x9FC10) ex_entries 5 ex_boot0 tt ex_table ex_entries_ok
    ltac:(simpl; lia) eq_refl eq_refl).
Defined.

Lemma mpinit_unknown_entry_hangs_witness : mpinit 50 (ex_fw ex_conf9) (ex_boot ex_boot_k, tt) = OutOfFuel.
Proof.
  refine (mpinit_unknown_entry_hangs (ex_fw ex_conf9) (P2V 0x9FC00) (P2V 0x9FC10) ex_entries 9 [0; 0; 0] 50 (ex_boot ex_boot_k) tt ex_table9 ex_entries_ok _ _).
  - reflexivity.
  - split; [reflexivity|]. simpl. unfold NCPU. lia.
Defined.
