(* ===== verification/Bootmain.v ===== *)
(** The boot loader, bootmain.c: it reads the kernel's ELF image from the disk, sector by sector, and
    puts its segments where their headers say.

    The state is the physical memory, byte by byte, and the disk behind its ports, with the laws of
    [IdeDisk]. Jumping to the kernel's entry point is the result [Some entry]; [None] is the return
    to bootasm.S. *)

From stdpp Require Import base list gmap strings numbers.
From Stdlib Require Import ZArith Lia.
From S2P Require Import Prelude Bytes CString Kstate Ports Ide Exec.
Open Scope Z_scope.




Section bootmain.
Context {D : Type} `{Ports D}.
Context (fuel : nat).    (* how often waitdisk looks *)
Abbreviation L := (M (bmem * D)).






End bootmain.

(** ** Loading *)

Section loading.
Context {D : Type} `{HD : IdeDisk D}.
Context (fuel : nat) (img : Z -> list Z).
Hypothesis Hfuel : forall d : D, (polls_of d < fuel)%nat.
Hypothesis Hgood : forall d : D, bad_of d = false.
Hypothesis Hsec : forall sec, length (img sec) = 512%nat.











(** ** The kernel's image *)












End loading.

(** ** Example *)





