(* ===== verification/Main.v ===== *)
(** Start-up, main.c: the order in which main() initialises the machine, the start of the other
    processors and the boot page table.

    A processor's start-up ends where it calls scheduler(). The code of entryother.S, the entry points
    of vectors.S and the user code of initcode.S are arguments; so is [others], what the other
    processors do while this one waits. *)

From stdpp Require Import base list gmap strings numbers.
From Stdlib Require Import ZArith Lia.
From S2P Require Import Prelude Bytes CString Itoa Kstate Cons Mmu Segment Kalloc Bio Console Vm Proc Ports Trap Apic Uart Cpu Mp.
Open Scope Z_scope.

(** The addresses and images the linker provides. *)
Record link := mk_link {
  ln_end : Z;               (* end[] *)
  ln_entryother : list Z;   (* _binary_entryother_start *)
  ln_mpenter : Z;           (* &mpenter *)
  ln_entrypgdir : Z;        (* &entrypgdir *)
  ln_initcode : list Z;     (* _binary_initcode_start *)
  ln_vectors : list Z
}.

Definition entrypgdir : list Z :=
  let e := Z.lor (Z.lor (Z.lor 0 PTE_P) PTE_W) PTE_PS in
  <[Z.to_nat (Z.shiftr KERNBASE PDXSHIFT) := e]> (<[0%nat := e]> (replicate (Z.to_nat NPDENTRIES) 0)).

Section main.
Context {D : Type} `{Ports D} `{Mmio D}.
Context (others : bootg * D -> bootg * D).
Abbreviation B := (M (bootg * D)).

Definition mpmain : B unit :=
  id1 ← cpuid;
  id2 ← cpuid;
  klift (cprintf (str "cpu%d: starting %d" ++ [10]) [AInt id1; AInt id2]) ;;
  lift idtinit ;;
  c ← mycpu;
  lift (upd_cpu c (fun r => r <| cp_started := 1 |>)).

Definition mpenter (fuel : nat) : B unit :=
  klift switchkvm ;;
  seginit ;;
  alift (lapicinit fuel) ;;
  mpmain.

(** while(c->started == 0); *)
Fixpoint wait_started (fuel : nat) (c : nat) : B unit :=
  match fuel with
  | O => nofuel
  | S fuel' =>
    r ← lift (cpu_at c);
    if cp_started r =? 0 then modify others ;; wait_started fuel' c else ret tt
  end.

Definition startothers (fuel : nat) (ln : link) : B unit :=
  let code := P2V 0x7000 in
  klift (store_bytes code (ln_entryother ln)) ;;
  n ← lift (gets bt_ncpu);
  for_ (seq 0 (Z.to_nat n)) (fun c =>
    me ← mycpu;
    if decide (c = me) then ret tt else
    stack ← klift kalloc;
    klift (store32 (code - 4) (u32 (stack + KSTACKSIZE))) ;;
    klift (store32 (code - 8) (ln_mpenter ln)) ;;
    klift (store32 (code - 12) (V2P (ln_entrypgdir ln))) ;;
    r ← lift (cpu_at c);
    alift (lapicstartap (cp_apicid r) (V2P code)) ;;
    wait_started fuel c).

(** consoleinit() with the interrupt of the keyboard; pinit(), fileinit() and ideinit() of memide.c
    set up locks and the location of the disk image, which the model has from the start. *)
Definition main (fuel : nat) (bios : bmem) (ln : link) : B unit :=
  klift (kinit1 (ln_end ln) (P2V (4 * 1024 * 1024))) ;;
  klift kvmalloc ;;
  mpinit fuel bios ;;
  alift (lapicinit fuel) ;;
  seginit ;;
  alift picinit ;;
  alift ioapicinit ;;
  klift consoleinit ;; alift (ioapicenable IRQ_KBD 0) ;;
  alift uartinit ;;
  lift (tvinit (ln_vectors ln)) ;;
  klift binit ;;
  startothers fuel ln ;;
  klift (kinit2 (P2V (4 * 1024 * 1024)) (P2V PHYSTOP)) ;;
  klift (userinit (ln_initcode ln)) ;;
  mpmain.
End main.

(** ** The boot page table *)

(** How the processor translates an address with a page directory of 4MB entries. *)
Definition translate_4m (dir : list Z) (va : Z) : option Z :=
  e ← dir !! Z.to_nat (PDX va);
  if (Z.land e PTE_P =? 0) || (Z.land e PTE_PS =? 0) then None else Some (e - e mod 2 ^ 22 + va mod 2 ^ 22).

(** The boot page table maps the first 4MB of physical memory twice, at 0 and at KERNBASE, and
    nothing else: the kernel runs at its link addresses from the moment paging is on, while the code
    that turns it on is still at its physical address. *)
Lemma entrypgdir_maps va pa : is_u32 va ->
  translate_4m entrypgdir va = Some pa <-> (0 <= va < 0x400000 /\ pa = va) \/ (KERNBASE <= va < KERNBASE + 0x400000 /\ pa = V2P va).
Proof.
  intros Hva. assert (PDX va = va / 2 ^ 22) as Hx.
  { unfold PDX, PDXSHIFT. change 0x3FF with (Z.ones 10). rewrite Z.land_ones, Z.shiftr_div_pow2 by lia. apply Z.mod_small. unfold is_u32 in Hva. div_lia. }
  unfold translate_4m, entrypgdir. rewrite Hx. change (Z.to_nat (Z.shiftr KERNBASE PDXSHIFT)) with 512%nat. change (Z.to_nat NPDENTRIES) with 1024%nat.
  cbv zeta. change (Z.lor (Z.lor (Z.lor 0 PTE_P) PTE_W) PTE_PS) with 131.
  assert (Z.to_nat (va / 2 ^ 22) < 1024)%nat by (unfold is_u32 in Hva; div_lia).
  destruct (decide (Z.to_nat (va / 2 ^ 22) = 512%nat)) as [E5|E5]; [rewrite E5|destruct (decide (Z.to_nat (va / 2 ^ 22) = 0%nat)) as [E0|E0]; [rewrite E0|]].
  - rewrite list_lookup_insert_eq by (rewrite length_insert, length_replicate; lia). cbn [mbind option_bind].
    change ((Z.land 131 PTE_P =? 0) || (Z.land 131 PTE_PS =? 0)) with false. cbv iota. change (131 - 131 mod 2 ^ 22) with 0.
    unfold V2P, KERNBASE, is_u32, u32 in *. split; [intros [= <-]; right|intros [?|[? ->]]; [|f_equal]]; div_lia.
  - rewrite list_lookup_insert_ne, list_lookup_insert_eq by (rewrite ?length_replicate; lia). cbn [mbind option_bind].
    change ((Z.land 131 PTE_P =? 0) || (Z.land 131 PTE_PS =? 0)) with false. cbv iota. change (131 - 131 mod 2 ^ 22) with 0.
    unfold KERNBASE, is_u32 in *. split; [intros [= <-]; left|intros [[? ->]|?]; [f_equal|]]; div_lia.
  - rewrite !list_lookup_insert_ne, lookup_replicate_2 by lia. cbn [mbind option_bind]. change (Z.land 0 PTE_P =? 0) with true. cbn [orb].
    unfold KERNBASE, is_u32 in *. split; [done|]. intros [[? _]|[? _]]; exfalso; [apply E0|apply E5]; div_lia.
Qed.
