(* ===== verification/Mkfs.v ===== *)
(** The program that builds the disk image, mkfs.c.

    It runs on the host: the image file is a sequence of sectors that lseek, read and write reach
    (reading past the end fails), the files to copy are given by name with what the successive reads
    return. A struct dinode is the model's [inode] with the inode's number, its fields in memory being
    kept in the on-disk byte order by xint and xshort. A failing assertion or exit(1) is the panic
    outcome. *)

From stdpp Require Import base list gmap strings numbers.
From Stdlib Require Import ZArith Lia.
From S2P Require Import Prelude Bytes CString Itoa Kstate Bio Bcache Log Inode Fsblock Fsdata.
Open Scope Z_scope.

Definition NINODES : Z := 200.
Definition nbitmap : Z := FSSIZE / (BSIZE * 8) + 1.
Definition ninodeblocks : Z := NINODES / IPB + 1.
Definition nlog : Z := LOGSIZE.
Definition nmeta : Z := 2 + nlog + ninodeblocks + nbitmap.
Definition nblocks : Z := FSSIZE - nmeta.

Definition xshort (x : Z) : Z := le_val (le_bytes 2 x).
Definition xint (x : Z) : Z := le_val (le_bytes 4 x).

(** The superblock main fills in, and its bytes. *)
Definition mksb : superblock :=
  mk_superblock (xint FSSIZE) (xint nblocks) (xint NINODES) (xint nlog) (xint 2) (xint (2 + nlog)) (xint (2 + nlog + ninodeblocks)).
Definition encode_superblock (sb : superblock) : list Z :=
  le_bytes 4 (sb_size sb) ++ le_bytes 4 (sb_nblocks sb) ++ le_bytes 4 (sb_ninodes sb) ++ le_bytes 4 (sb_nlog sb) ++
  le_bytes 4 (sb_logstart sb) ++ le_bytes 4 (sb_inodestart sb) ++ le_bytes 4 (sb_bmapstart sb).

(** The image and the globals freeinode and freeblock. *)
Record mkst := mk_mkst { mf_img : Z -> list Z; mf_freeinode : Z; mf_freeblock : Z }.
Definition eta_mkst (r : mkst) : mkst := mk_mkst (mf_img r) (mf_freeinode r) (mf_freeblock r).
#[global] Instance set_mf_img : Setter mf_img := ltac:(mk_setter eta_mkst mf_img).
#[global] Instance set_mf_freeinode : Setter mf_freeinode := ltac:(mk_setter eta_mkst mf_freeinode).
#[global] Instance set_mf_freeblock : Setter mf_freeblock := ltac:(mk_setter eta_mkst mf_freeblock).

Definition wsect (sec : Z) (buf : list Z) : M mkst unit := modify (fun s => s <| mf_img := dupd (mf_img s) sec buf |>).
Definition rsect (sec : Z) : M mkst (list Z) :=
  img ← gets mf_img;
  if decide (length (img sec) = Z.to_nat BSIZE) then ret (img sec) else panic "read".

Definition assert (b : bool) : M mkst unit := if b then ret tt else panic "assertion failed".

(** freeblock++ *)
Definition next_block : M mkst Z :=
  b ← gets mf_freeblock;
  modify (fun s => s <| mf_freeblock := u32 (b + 1) |>) ;;
  ret (xint b).

Definition blank (inum : Z) : inode := zero_inode <| i_dev := ROOTDEV |> <| i_inum := inum |>.

Definition winode (inum : Z) (ip : inode) : M mkst unit :=
  let bn := IBLOCK inum mksb in
  buf ← rsect bn;
  wsect bn (splice (dinode_off inum) (encode_dinode ip) buf).

Definition rinode (inum : Z) : M mkst inode :=
  let bn := IBLOCK inum mksb in
  buf ← rsect bn;
  ret (decode_dinode buf (dinode_off inum) (blank inum)).

Definition ialloc (type : Z) : M mkst Z :=
  inum ← gets mf_freeinode;
  modify (fun s => s <| mf_freeinode := u32 (inum + 1) |>) ;;
  winode inum ((blank inum) <| i_type := xshort type |> <| i_nlink := xshort 1 |> <| i_size := xint 0 |>) ;;
  ret inum.

(** for(i = 0; i < used; i++) buf[i/8] = buf[i/8] | (0x1 << (i%8)); *)
Definition bitmap (used : nat) : list Z := fold_left set_bit (seq 0 used) zero_block.

Definition balloc (used : Z) : M mkst unit :=
  assert (used <? BSIZE * 8) ;;
  wsect (sb_bmapstart mksb) (bitmap (Z.to_nat used)).

(** The block for file block [fbn], allocated when it is not there yet; the inode is the caller's copy. *)
Definition file_block (din : inode) (fbn : Z) : M mkst (inode * Z) :=
  if fbn <? NDIRECT then
    a ← of_opt "addrs" (i_addrs din !! Z.to_nat fbn);
    if xint a =? 0 then
      b ← next_block;
      ret (din <| i_addrs := <[Z.to_nat fbn := b]> (i_addrs din) |>, xint b)
    else ret (din, xint a)
  else
    a ← of_opt "addrs" (i_addrs din !! Z.to_nat NDIRECT);
    din ← (if xint a =? 0 then
             b ← next_block;
             ret (din <| i_addrs := <[Z.to_nat NDIRECT := b]> (i_addrs din) |>)
           else ret din);
    a ← of_opt "addrs" (i_addrs din !! Z.to_nat NDIRECT);
    indirect ← rsect (xint a);
    let k := Z.to_nat (4 * (fbn - NDIRECT)) in
    if rd32 indirect k =? 0 then
      b ← next_block;
      let indirect := wr32 indirect k b in
      wsect (xint a) indirect ;;
      ret (din, xint (rd32 indirect k))
    else ret (din, xint (rd32 indirect k)).

(** while(n > 0): the bytes [p] go to the file from [off] on. *)
Fixpoint iappend_loop (fuel : nat) (din : inode) (off : Z) (p : list Z) : M mkst (inode * Z) :=
  match p with
  | [] => ret (din, off)
  | _ =>
    match fuel with
    | O => nofuel
    | S fuel' =>
      let fbn := off / BSIZE in
      assert (fbn <? MAXFILE) ;;
      '(din, x) ← file_block din fbn;
      let n1 := Z.min (Z.of_nat (length p)) ((fbn + 1) * BSIZE - off) in
      buf ← rsect x;
      wsect x (splice (Z.to_nat (off - fbn * BSIZE)) (take (Z.to_nat n1) p) buf) ;;
      iappend_loop fuel' din (u32 (off + n1)) (drop (Z.to_nat n1) p)
    end
  end.

Definition iappend (inum : Z) (p : list Z) : M mkst unit :=
  din ← rinode inum;
  '(din, off) ← iappend_loop (length p) din (xint (i_size din)) p;
  winode inum (din <| i_size := xint off |>).

(** A struct dirent with the name as strcpy or strncpy leaves it in the zeroed structure. *)
Definition dirent (inum : Z) (name : list Z) : list Z := le_bytes 2 (xshort inum) ++ strncpy name (Z.to_nat DIRSIZ).

(** while((cc = read(fd, buf, sizeof(buf))) > 0) iappend(inum, buf, cc); *)
Fixpoint copy_in (inum : Z) (reads : list (list Z)) : M mkst unit :=
  match reads with
  | [] => ret tt
  | buf :: reads' => if decide (buf = []) then ret tt else iappend inum buf ;; copy_in inum reads'
  end.

(** The name in the image: without its leading underscore. *)
Definition image_name (arg : list Z) : list Z := match arg with c :: rest => if c =? 95 then rest else arg | [] => [] end.

(** One argument of main; [None] is a file that cannot be opened. *)
Definition add_file (rootino : Z) (arg : list Z * option (list (list Z))) : M mkst unit :=
  assert (bool_decide (47 ∉ arg.1)) ;;
  match arg.2 with
  | None => panic "open"
  | Some reads =>
    inum ← ialloc T_FILE;
    iappend rootino (dirent inum (image_name arg.1)) ;;
    copy_in inum reads
  end.

(** fix size of root inode dir *)
Definition fix_root (rootino : Z) : M mkst unit :=
  din ← rinode rootino;
  let off := xint (i_size din) in
  let off := u32 ((off / BSIZE + 1) * BSIZE) in
  winode rootino (din <| i_size := xint off |>).

Definition mkfs (args : list (list Z * option (list (list Z)))) : M mkst unit :=
  modify (fun s => s <| mf_freeblock := nmeta |>) ;;
  for_ (seq 0 (Z.to_nat FSSIZE)) (fun i => wsect (Z.of_nat i) zero_block) ;;
  wsect 1 (splice 0 (encode_superblock mksb) zero_block) ;;
  rootino ← ialloc T_DIR;
  assert (rootino =? ROOTINO) ;;
  iappend rootino (dirent rootino (str ".")) ;;
  iappend rootino (dirent rootino (str "..")) ;;
  for_ args (add_file rootino) ;;
  fix_root rootino ;;
  used ← gets mf_freeblock;
  balloc used.

(** Before main: the image file is truncated. *)
Definition mkfs_start : mkst := mk_mkst (fun _ => []) 1 0.
