(* ===== verification/Mkimage.v ===== *)
(** The image mkfs builds is a file system the kernel's theorems apply to.

    While mkfs runs, the free map on the image is still empty; [vdisk] is the image with the map that
    balloc would write now. On it every block mkfs takes is a block the kernel's balloc could have
    taken, and every file mkfs writes satisfies the kernel's file invariant [file_inv]. *)

From stdpp Require Import base list gmap sets fin_sets strings numbers.
From Stdlib Require Import ZArith Lia FunctionalExtensionality.
From S2P Require Import Prelude Bytes CString Itoa Kstate Bio Bcache Log Inode Fsblock Fsdata Fsfile Fsinode Mkfs.
Open Scope Z_scope.

Lemma mksb_eq : mksb = mk_superblock 1000 941 200 30 2 32 58.
Proof. vm_compute. reflexivity. Qed.

Lemma xint_id x : is_u32 x -> xint x = x.
Proof. intros H. unfold xint. rewrite le_val_le_bytes. now apply Z.mod_small. Qed.

Lemma mk_layout : layout mksb 2.
Proof. rewrite mksb_eq. constructor; vm_compute; repeat split; discriminate. Qed.

(** ** The free map *)

Lemma length_bitmap n : length (bitmap n) = 512%nat.
Proof.
  unfold bitmap. generalize (seq 0 n). intros l. assert (length zero_block = 512%nat) as H by reflexivity. revert H. generalize zero_block.
  induction l as [|x l IH]; intros d Hd; [done|]. cbn [fold_left]. apply IH. now rewrite length_set_bit.
Qed.

Lemma bitmap_S n : bitmap (S n) = set_bit (bitmap n) n.
Proof. unfold bitmap. rewrite seq_S, fold_left_app. reflexivity. Qed.

Lemma bitmap_spec n j : (n <= 4096)%nat -> bit_clear (bitmap n) j = negb (j <? n)%nat.
Proof.
  induction n as [|n IH]; intros Hn.
  - unfold bitmap. cbn [seq fold_left]. unfold bit_clear. destruct (zero_block !! (j / 8)%nat) as [x|] eqn:E; [|done].
    unfold zero_block in E. apply lookup_replicate in E as [-> _]. reflexivity.
  - rewrite bitmap_S, set_bit_spec, IH by (try lia; rewrite length_bitmap; apply Nat.Div0.div_lt_upper_bound; lia).
    destruct (Nat.ltb_spec j n), (Nat.ltb_spec j (S n)), (Nat.eqb_spec n j); simpl; try done; lia.
Qed.

(** ** The image as a disk *)

Definition vdisk (s : mkst) : Z -> list Z := fun k =>
  if decide (k = sb_bmapstart mksb) then bitmap (Z.to_nat (mf_freeblock s))
  else if decide (0 <= k < FSSIZE) then mf_img s k else zero_block.

(** All sectors are there, and the blocks not taken yet are zero. *)
Record st_ok (s : mkst) : Prop := {
  so_len : forall k, 0 <= k < FSSIZE -> length (mf_img s k) = 512%nat;
  so_free : nmeta <= mf_freeblock s <= FSSIZE;
  so_zero : forall k, mf_freeblock s <= k < FSSIZE -> mf_img s k = zero_block
}.

Lemma vdisk_len s k : st_ok s -> length (vdisk s k) = 512%nat.
Proof.
  intros H. unfold vdisk. destruct (decide _); [apply length_bitmap|]. destruct (decide _); [now apply (so_len _ H)|reflexivity].
Qed.

Lemma vdisk_img s k : 0 <= k < FSSIZE -> k <> 58 -> vdisk s k = mf_img s k.
Proof. intros Hk Hn. unfold vdisk. rewrite decide_False by (rewrite mksb_eq; done). now rewrite decide_True. Qed.

Lemma vdisk_used s k : st_ok s -> 0 <= k < FSSIZE -> used mksb (vdisk s) k <-> k < mf_freeblock s.
Proof.
  intros H Hk. pose proof (so_free _ H) as Hf. unfold FSSIZE in *. change nmeta with 59 in Hf. unfold used, vdisk. rewrite decide_True by done.
  rewrite bitmap_spec by lia. rewrite negb_false_iff, Nat.ltb_lt. lia.
Qed.

Lemma vdisk_meta s : st_ok s -> meta_used mksb (vdisk s).
Proof.
  intros H b Hb. pose proof (so_free _ H) as Hf. change nmeta with 59 in Hf. rewrite mksb_eq in Hb. cbn [sb_bmapstart] in Hb.
  apply vdisk_used; [done|unfold FSSIZE; lia|lia].
Qed.

(** Taking the next block is what the kernel's balloc does. *)
Lemma vdisk_alloc s : st_ok s -> mf_freeblock s < FSSIZE ->
  vdisk (s <| mf_freeblock := mf_freeblock s + 1 |>) = alloc_map mksb (vdisk s) (mf_freeblock s).
Proof.
  intros H Hlt. pose proof (so_free _ H) as Hf. change nmeta with 59 in Hf. apply functional_extensionality. intros k.
  unfold alloc_map, dupd, vdisk. rewrite mksb_eq. cbn [sb_bmapstart mf_freeblock mf_img setf set_mf_freeblock].
  destruct (decide (k = mf_freeblock s)) as [->|Hk].
  - rewrite decide_False, decide_True by lia. now apply (so_zero _ H).
  - destruct (decide (k = 58)); [|done]. replace (Z.to_nat (mf_freeblock s + 1)) with (S (Z.to_nat (mf_freeblock s))) by lia.
    rewrite (decide_True (P := 58 = 58)) by done. apply bitmap_S.
Qed.

Lemma vdisk_write s x buf : x <> 58 -> 0 <= x < FSSIZE -> vdisk (s <| mf_img := dupd (mf_img s) x buf |>) = dupd (vdisk s) x buf.
Proof.
  intros H1 H2. apply functional_extensionality. intros k. unfold vdisk, dupd. rewrite mksb_eq. cbn [sb_bmapstart mf_freeblock mf_img setf set_mf_img].
  destruct (decide (k = x)) as [->|Hk]; [now rewrite decide_False, decide_True|]. done.
Qed.

Lemma st_ok_alloc s : st_ok s -> mf_freeblock s < FSSIZE -> st_ok (s <| mf_freeblock := mf_freeblock s + 1 |>).
Proof. intros [H1 H2 H3] Hlt. constructor; simpl; [done|lia|]. intros k Hk. apply H3. lia. Qed.

Lemma st_ok_write s s' x buf : st_ok s -> mf_img s' = dupd (mf_img s) x buf -> mf_freeblock s <= mf_freeblock s' <= FSSIZE -> x < mf_freeblock s' ->
  length buf = 512%nat -> st_ok s'.
Proof.
  intros [H1 H2 H3] E Hf Hx Hb. constructor; rewrite ?E; [|lia|].
  - intros k Hk. unfold dupd. case_decide; auto.
  - intros k Hk. unfold dupd. rewrite decide_False by lia. apply H3. lia.
Qed.

(** ** The operations *)

Lemma wp_rsect s x (Q : list Z -> mkst -> Prop) : st_ok s -> 0 <= x < FSSIZE -> x <> 58 -> Q (vdisk s x) s -> wp (rsect x) Q s.
Proof.
  intros H Hx Hn HQ. unfold rsect. wp_steps. rewrite decide_True by (rewrite (so_len _ H) by done; reflexivity). wp_steps. now rewrite vdisk_img in HQ.
Qed.

Lemma wp_next_block s (Q : Z -> mkst -> Prop) : st_ok s -> mf_freeblock s < FSSIZE ->
  Q (mf_freeblock s) (s <| mf_freeblock := mf_freeblock s + 1 |>) -> wp next_block Q s.
Proof.
  intros H Hlt HQ. pose proof (so_free _ H) as Hf. change nmeta with 59 in Hf. unfold FSSIZE in *. unfold next_block. wp_steps.
  rewrite u32_small, xint_id by (unfold is_u32; lia). done.
Qed.

(** ** The blocks of a file *)

(** The file has exactly its first [c] blocks, and the indirect block when these are more than the
    direct ones; [cost c] is how many blocks that takes. *)
Record tight (D : Z -> list Z) (ip : inode) (c : Z) : Prop := {
  ti_slot : forall bn, in_file bn -> (slot D ip bn <> 0 <-> bn < c);
  ti_ind : ind ip <> 0 <-> NDIRECT < c
}.
Definition cost (c : Z) : Z := c + (if NDIRECT <? c then 1 else 0).

Lemma fresh_data s : st_ok s -> mf_freeblock s < FSSIZE -> data_block mksb (mf_freeblock s) /\ ~ used mksb (vdisk s) (mf_freeblock s).
Proof.
  intros H Hlt. pose proof (so_free _ H) as Hf. change nmeta with 59 in Hf. unfold data_block. rewrite vdisk_used by (try done; lia).
  rewrite mksb_eq. cbn [sb_bmapstart sb_size]. unfold FSSIZE in *. lia.
Qed.

Lemma file_range s ip b : st_ok s -> file_ok mksb (vdisk s) ip -> owned (vdisk s) ip b -> 58 < b < FSSIZE /\ b < mf_freeblock s /\ data_block mksb b /\ used mksb (vdisk s) b.
Proof.
  intros H Hok [H0 Ho]. assert (data_block mksb b /\ used mksb (vdisk s) b) as [Hd Hu].
  { destruct Ho as [->|(bn & Hbn & <-)]; [now apply (fo_ind _ _ _ Hok)|]. destruct (fo_slot _ _ _ Hok bn Hbn H0) as (A & B & _). done. }
  pose proof (data_range _ _ mk_layout _ Hd). assert (58 < b < FSSIZE) as Hb.
  { unfold data_block in Hd. rewrite mksb_eq in Hd. cbn [sb_bmapstart sb_size] in Hd. unfold FSSIZE in *. lia. }
  split; [done|]. split; [|done]. apply (vdisk_used s); [done|lia|done].
Qed.

Definition grown (s : mkst) (ip : inode) (s' : mkst) (ip' : inode) : Prop :=
  evo mksb (vdisk s) ip (vdisk s') ip' /\ forall bn, in_file bn -> fblk (vdisk s') ip' bn = fblk (vdisk s) ip bn.

Lemma grown_refl s ip : st_ok s -> file_ok mksb (vdisk s) ip -> grown s ip s ip.
Proof. intros H Hok. split; [|done]. now apply evo_refl; [|apply vdisk_meta]. Qed.

Lemma grown_trans s ip s1 ip1 s2 ip2 : grown s ip s1 ip1 -> grown s1 ip1 s2 ip2 -> grown s ip s2 ip2.
Proof.
  intros [A1 A2] [B1 B2]. split; [now apply (evo_trans _ _ mk_layout _ _ _ _ _ _ A1 B1)|]. intros bn Hbn. now rewrite B2, A2.
Qed.

(** The next block becomes entry [j] of the inode. *)
Lemma grown_addr s ip j : st_ok s -> file_ok mksb (vdisk s) ip -> mf_freeblock s < FSSIZE -> i_addrs ip !! j = Some 0 ->
  grown s ip (s <| mf_freeblock := mf_freeblock s + 1 |>) (ip <| i_addrs := <[j := mf_freeblock s]> (i_addrs ip) |>).
Proof.
  intros H Hok Hlt Hj. destruct (fresh_data s H Hlt) as [Hd Hu]. unfold grown. rewrite vdisk_alloc by done. split.
  - apply (addr_evo _ _ mk_layout); [done|now apply vdisk_meta|intros k; now apply vdisk_len|done|done|done].
  - intros bn Hbn. now apply (addr_fblk _ _ mk_layout).
Qed.

(** The next block becomes entry [bn] of the indirect block. *)
Lemma grown_entry s ip bn : st_ok s -> file_ok mksb (vdisk s) ip -> mf_freeblock s < FSSIZE -> in_file bn -> NDIRECT <= bn -> ind ip <> 0 ->
  slot (vdisk s) ip bn = 0 ->
  let s' := s <| mf_freeblock := mf_freeblock s + 1 |> <| mf_img := dupd (mf_img s) (ind ip) (wr32 (vdisk s (ind ip)) (ind_off bn) (mf_freeblock s)) |> in
  grown s ip s' ip /\ forall k, in_file k -> slot (vdisk s') ip k = if k =? bn then mf_freeblock s else slot (vdisk s) ip k.
Proof.
  intros H Hok Hlt Hbn Hnd Hi Hs s'. destruct (fresh_data s H Hlt) as [Hd Hu].
  destruct (file_range s ip (ind ip) H Hok) as (Hr & _); [split; [done|now left]|].
  assert (vdisk s' = dupd (alloc_map mksb (vdisk s) (mf_freeblock s)) (ind ip) (wr32 (vdisk s (ind ip)) (ind_off bn) (mf_freeblock s))) as E.
  { rewrite <- vdisk_alloc by done. rewrite <- vdisk_write by lia. reflexivity. }
  assert (forall k, length (vdisk s k) = 512%nat) as Hl by (intros k; now apply vdisk_len).
  unfold grown. rewrite E. split; [split|].
  - apply (entry_evo _ _ mk_layout); auto. now apply vdisk_meta.
  - intros k Hk. now apply (entry_fblk _ _ mk_layout).
  - intros k Hk. now apply (entry_slot _ _ mk_layout).
Qed.

Lemma grown_addr_slot s ip j bn : st_ok s -> file_ok mksb (vdisk s) ip -> mf_freeblock s < FSSIZE -> i_addrs ip !! j = Some 0 -> in_file bn ->
  slot (vdisk (s <| mf_freeblock := mf_freeblock s + 1 |>)) (ip <| i_addrs := <[j := mf_freeblock s]> (i_addrs ip) |>) bn =
  if (bn <? NDIRECT) && (Z.to_nat bn =? j)%nat then mf_freeblock s else slot (vdisk s) ip bn.
Proof. intros H Hok Hlt Hj Hbn. destruct (fresh_data s H Hlt) as [Hd Hu]. rewrite vdisk_alloc by done. now apply (addr_slot mksb). Qed.

Lemma slot_addr D ip bn : in_file bn -> bn < NDIRECT -> length (i_addrs ip) = 13%nat -> i_addrs ip !! Z.to_nat bn = Some (slot D ip bn).
Proof.
  intros [Hb _] Hlt Hl. unfold slot. destruct (Z.ltb_spec bn NDIRECT); [|lia].
  destruct (lookup_lt_is_Some_2 (i_addrs ip) (Z.to_nat bn)) as [a Ha]; [unfold NDIRECT in *; lia|]. now rewrite Ha.
Qed.

Lemma ind_addr ip : length (i_addrs ip) = 13%nat -> i_addrs ip !! 12%nat = Some (ind ip).
Proof. intros Hl. unfold ind. destruct (lookup_lt_is_Some_2 (i_addrs ip) 12) as [a Ha]; [lia|]. now rewrite Ha. Qed.

Lemma slot_u32 s ip bn : st_ok s -> file_ok mksb (vdisk s) ip -> in_file bn -> is_u32 (slot (vdisk s) ip bn).
Proof.
  intros H Hok Hbn. destruct (decide (slot (vdisk s) ip bn = 0)) as [->|Hs]; [unfold is_u32; lia|].
  destruct (file_range s ip (slot (vdisk s) ip bn) H Hok) as (Hr & _); [split; eauto|]. unfold is_u32, FSSIZE in *. lia.
Qed.

Lemma ind_u32 s ip : st_ok s -> file_ok mksb (vdisk s) ip -> is_u32 (ind ip).
Proof.
  intros H Hok. destruct (decide (ind ip = 0)) as [->|Hs]; [unfold is_u32; lia|].
  destruct (file_range s ip (ind ip) H Hok) as (Hr & _); [split; eauto|]. unfold is_u32, FSSIZE in *. lia.
Qed.

(** The result of looking up block [fbn] of a file that has [c] blocks. *)
Definition block_post (s : mkst) (ip : inode) (fbn c : Z) (s' : mkst) (ip' : inode) (x : Z) : Prop :=
  st_ok s' /\ grown s ip s' ip' /\ slot (vdisk s') ip' fbn = x /\ x <> 0 /\ tight (vdisk s') ip' (Z.max c (fbn + 1)) /\
  mf_freeblock s' = mf_freeblock s + (cost (Z.max c (fbn + 1)) - cost c) /\ mf_freeinode s' = mf_freeinode s /\
  (slot (vdisk s) ip fbn <> 0 -> ip' = ip).

(** Block [fbn] through the indirect block, which is there. *)
Lemma wp_entry s ip fbn c (Q : inode * Z -> mkst -> Prop) : st_ok s -> file_ok mksb (vdisk s) ip -> in_file fbn -> NDIRECT <= fbn -> fbn <= c -> c <= MAXFILE ->
  (forall bn, in_file bn -> (slot (vdisk s) ip bn <> 0 <-> bn < c)) -> ind ip <> 0 ->
  mf_freeblock s + (Z.max c (fbn + 1) - c) <= FSSIZE ->
  (forall s' x, st_ok s' -> grown s ip s' ip -> slot (vdisk s') ip fbn = x -> x <> 0 -> tight (vdisk s') ip (Z.max c (fbn + 1)) ->
     mf_freeblock s' = mf_freeblock s + (Z.max c (fbn + 1) - c) -> mf_freeinode s' = mf_freeinode s -> Q (ip, x) s') ->
  wp (rsect (xint (ind ip))) (fun indirect =>
      wp (if rd32 indirect (Z.to_nat (4 * (fbn - NDIRECT))) =? 0 then
            b ← next_block;
            wsect (xint (ind ip)) (wr32 indirect (Z.to_nat (4 * (fbn - NDIRECT))) b) ;;
            ret (ip, xint (rd32 (wr32 indirect (Z.to_nat (4 * (fbn - NDIRECT))) b) (Z.to_nat (4 * (fbn - NDIRECT)))))
          else ret (ip, xint (rd32 indirect (Z.to_nat (4 * (fbn - NDIRECT)))))) Q) s.
Proof.
  intros H Hok Hbn Hnd Hc Hcm Ht Hi Hroom HQ. destruct (file_range s ip (ind ip) H Hok) as (Hr & Hrf & _); [split; [done|now left]|].
  rewrite (xint_id (ind ip)) by now apply (ind_u32 s). apply wp_rsect; [done|lia|lia|]. fold (ind_off fbn).
  assert (slot (vdisk s) ip fbn = rd32 (vdisk s (ind ip)) (ind_off fbn)) as Es.
  { unfold slot. destruct (Z.ltb_spec fbn NDIRECT); [lia|]. destruct (Z.eqb_spec (ind ip) 0); [done|]. reflexivity. }
  destruct (Z.eqb_spec (rd32 (vdisk s (ind ip)) (ind_off fbn)) 0) as [E0|E0].
  - assert (c = fbn) as -> by (destruct (decide (fbn < c)) as [Hlt|]; [|lia]; apply Ht in Hlt; [congruence|done]).
    wp_steps. apply wp_next_block; [done|lia|]. unfold wsect. wp_steps. rewrite <- Es in E0.
    destruct (grown_entry s ip fbn H Hok ltac:(lia) Hbn Hnd Hi E0) as [Hg Hslot]. set (s' := _ <| mf_img := _ |>) in *.
    pose proof (Hslot fbn Hbn) as Hx. rewrite Z.eqb_refl in Hx.
    assert (st_ok s') as H'.
    { apply (st_ok_write s s' _ _ H eq_refl); [simpl; lia|simpl; lia|]. rewrite length_wr32; rewrite vdisk_len by done; [done|].
      unfold ind_off, in_file in *. change MAXFILE with 140 in *. unfold NDIRECT in *. lia. }
    pose proof (so_free _ H) as Hf. change nmeta with 59 in Hf.
    rewrite rd32_wr32_same by (rewrite vdisk_len by done; unfold ind_off, in_file in *; change MAXFILE with 140 in *; unfold NDIRECT in *; lia).
    unfold FSSIZE in *. rewrite u32_small, xint_id by (unfold is_u32; lia). apply (HQ s'); [done|done|done|lia| |simpl; lia|done].
    split.
    + intros bn Hb. rewrite Hslot by done. destruct (Z.eqb_spec bn fbn) as [->|Hne]; [lia|]. rewrite Ht by done. lia.
    + lia.
  - wp_steps. rewrite <- Es in *. rewrite xint_id by now apply slot_u32. assert (fbn < c) by (now apply Ht).
    apply HQ; [done|now apply grown_refl|done|done|split; [|lia]|lia|done]. intros bn Hb. rewrite Ht by done. lia.
Qed.

Lemma wp_direct s ip fbn c (Q : inode * Z -> mkst -> Prop) : st_ok s -> file_ok mksb (vdisk s) ip -> in_file fbn -> fbn < NDIRECT -> fbn <= c -> c <= MAXFILE ->
  tight (vdisk s) ip c -> mf_freeblock s + (cost (Z.max c (fbn + 1)) - cost c) <= FSSIZE ->
  (forall s' ip' x, block_post s ip fbn c s' ip' x -> Q (ip', x) s') -> wp (file_block ip fbn) Q s.
Proof.
  intros H Hok Hbn Hnd Hc Hcm [Ht Hti] Hroom HQ. unfold file_block. apply wp_if_true; [lia|]. pose proof (fo_len _ _ _ Hok) as Hl.
  rewrite (slot_addr (vdisk s)) by done. wp_steps. rewrite xint_id by now apply slot_u32. unfold cost in *.
  destruct (Z.eqb_spec (slot (vdisk s) ip fbn) 0) as [E0|E0].
  - assert (c = fbn) as -> by (destruct (decide (fbn < c)) as [Hlt|]; [|lia]; apply Ht in Hlt; [congruence|done]).
    replace (Z.max fbn (fbn + 1)) with (fbn + 1) in * by lia.
    destruct (Z.ltb_spec NDIRECT (fbn + 1)); [lia|]. destruct (Z.ltb_spec NDIRECT fbn); [lia|].
    wp_steps. apply wp_next_block; [done|lia|]. wp_steps. pose proof (so_free _ H) as Hf. change nmeta with 59 in Hf. unfold FSSIZE in *.
    rewrite xint_id by (unfold is_u32; lia). apply HQ. assert (i_addrs ip !! Z.to_nat fbn = Some 0) as Ha by (rewrite (slot_addr (vdisk s)), E0; done).
    assert (forall bn, in_file bn -> slot (vdisk (s <| mf_freeblock := mf_freeblock s + 1 |>)) (ip <| i_addrs := <[Z.to_nat fbn := mf_freeblock s]> (i_addrs ip) |>) bn =
      if bn =? fbn then mf_freeblock s else slot (vdisk s) ip bn) as Hsl.
    { intros bn Hb. rewrite grown_addr_slot by (try done; unfold FSSIZE; lia). unfold in_file in *. destruct (Z.ltb_spec bn NDIRECT), (Nat.eqb_spec (Z.to_nat bn) (Z.to_nat fbn)), (Z.eqb_spec bn fbn); try done; lia. }
    split; [apply st_ok_alloc; [done|unfold FSSIZE; lia]|]. split; [apply grown_addr; try done; unfold FSSIZE; lia|].
    split; [rewrite Hsl, Z.eqb_refl by done; done|]. split; [lia|]. replace (Z.max fbn (fbn + 1)) with (fbn + 1) by lia. split; [split|].
    + intros bn Hb. rewrite Hsl by done. destruct (Z.eqb_spec bn fbn) as [->|]; [lia|]. rewrite Ht by done. lia.
    + rewrite (addr_ind _ _ _ Ha). destruct (Nat.eqb_spec (Z.to_nat fbn) 12); [unfold NDIRECT in *; lia|]. rewrite Hti. lia.
    + unfold cost. destruct (Z.ltb_spec NDIRECT (fbn + 1)); [lia|]. destruct (Z.ltb_spec NDIRECT fbn); [lia|]. simpl. split; [lia|done].
  - wp_steps. assert (fbn < c) by (now apply Ht). apply HQ. replace (Z.max c (fbn + 1)) with c by lia.
    split; [done|]. split; [now apply grown_refl|]. split; [done|]. split; [done|]. replace (Z.max c (fbn + 1)) with c by lia. split; [done|]. split; [lia|done].
Qed.

Lemma wp_file_block s ip fbn c (Q : inode * Z -> mkst -> Prop) : st_ok s -> file_ok mksb (vdisk s) ip -> in_file fbn -> fbn <= c -> c <= MAXFILE ->
  tight (vdisk s) ip c -> mf_freeblock s + (cost (Z.max c (fbn + 1)) - cost c) <= FSSIZE ->
  (forall s' ip' x, block_post s ip fbn c s' ip' x -> Q (ip', x) s') -> wp (file_block ip fbn) Q s.
Proof.
  intros H Hok Hbn Hc Hcm Ht Hroom HQ. destruct (decide (fbn < NDIRECT)) as [Hd|Hd]; [now apply (wp_direct s ip fbn c)|].
  pose proof Ht as [Hts Hti]. unfold file_block. apply wp_if_false; [lia|]. pose proof (fo_len _ _ _ Hok) as Hl. change (Z.to_nat NDIRECT) with 12%nat.
  rewrite (ind_addr ip) by done. wp_steps. rewrite xint_id by now apply (ind_u32 s). unfold cost in *.
  destruct (Z.eqb_spec (ind ip) 0) as [E0|E0].
  - assert (c = NDIRECT /\ fbn = NDIRECT) as [-> ->] by (destruct (decide (NDIRECT < c)) as [Hlt|]; [apply Hti in Hlt; done|lia]).
    change (Z.max NDIRECT (NDIRECT + 1)) with 13 in *. change (NDIRECT <? 13) with true in *. change (NDIRECT <? NDIRECT) with false in *. cbv iota in Hroom.
    unfold NDIRECT in Hroom. wp_steps. apply wp_next_block; [done|lia|]. wp_steps. pose proof (so_free _ H) as Hf. change nmeta with 59 in Hf.
    assert (i_addrs ip !! 12%nat = Some 0) as Ha by now rewrite (ind_addr ip), E0.
    set (s1 := s <| mf_freeblock := mf_freeblock s + 1 |>). set (ip1 := ip <| i_addrs := <[12%nat := mf_freeblock s]> (i_addrs ip) |>).
    assert (grown s ip s1 ip1) as Hg by (apply grown_addr; try done; lia). assert (st_ok s1) as H1 by (apply st_ok_alloc; [done|lia]).
    assert (ind ip1 = mf_freeblock s) as Ei by (unfold ip1; now rewrite (addr_ind _ _ _ Ha)).
    rewrite (ind_addr ip1) by apply (fo_len _ _ _ (ev_ok _ _ _ _ _ (proj1 Hg))). wp_steps.
    apply (wp_entry s1 ip1 NDIRECT NDIRECT); [done|apply (ev_ok _ _ _ _ _ (proj1 Hg))|done|done|lia|done| |lia| |].
    + intros bn Hb. unfold s1, ip1. rewrite grown_addr_slot by (try done; lia). rewrite <- (Hts bn Hb).
      destruct (Z.ltb_spec bn NDIRECT); [|done]. destruct (Nat.eqb_spec (Z.to_nat bn) 12); [unfold NDIRECT, in_file in *; lia|done].
    + change (Z.max NDIRECT (NDIRECT + 1)) with 13. unfold NDIRECT. simpl. lia.
    + change (Z.max NDIRECT (NDIRECT + 1)) with 13. intros s' x H' Hg' Hx Hx0 Ht' Hf' Hi'. apply HQ. split; [done|].
      split; [now apply (grown_trans _ _ s1 ip1)|]. split; [done|]. split; [done|]. change (Z.max NDIRECT (NDIRECT + 1)) with 13. split; [done|].
      change (cost 13) with 14. change (cost NDIRECT) with 12. unfold NDIRECT in Hf'. simpl in Hf', Hi'. split; [lia|]. split; [done|]. now rewrite (Hts NDIRECT Hbn).
  - assert (NDIRECT < c) by now apply Hti. wp_steps. rewrite (ind_addr ip) by done. wp_steps. destruct (Z.ltb_spec NDIRECT c); [|lia].
    destruct (Z.ltb_spec NDIRECT (Z.max c (fbn + 1))); [|lia].
    apply (wp_entry s ip fbn c); [done|done|done|lia|done|done|done|done|lia|]. intros s' x H' Hg' Hx Hx0 Ht' Hf' Hi'. apply HQ.
    split; [done|]. split; [done|]. split; [done|]. split; [done|]. split; [done|]. unfold cost. destruct (Z.ltb_spec NDIRECT c); [|lia].
    destruct (Z.ltb_spec NDIRECT (Z.max c (fbn + 1))); [|lia]. split; [lia|done].
Qed.

(** ** Appending *)

(** The kernel state that carries the superblock, for the lemmas on the contents of files. *)
Definition mk_s0 : kstate := (boot_state (mk_symbols 0 0 0 0) ∅) <| k_sb := mksb |>.

(** The number of blocks of [n] bytes. *)
Definition nb (n : Z) : Z := (n + 511) / 512.

Lemma tight_put s ip c x buf : file_ok mksb (vdisk s) ip -> x <> 58 -> 0 <= x < FSSIZE -> (exists bn, in_file bn /\ slot (vdisk s) ip bn = x /\ x <> 0) ->
  tight (vdisk s) ip c -> tight (vdisk (s <| mf_img := dupd (mf_img s) x buf |>)) ip c.
Proof.
  intros Hok Hx Hr (bn & Hbn & <- & H0) [T1 T2]. rewrite vdisk_write by done. split; [|done]. intros k Hk. rewrite (put_slot mksb); [now apply T1|done..].
Qed.

(** One round of the loop: the bytes [bs] go to one block. *)
Lemma block_written s ip off bs c s1 ip1 x : st_ok s -> 0 <= off -> bs <> [] -> off mod 512 + Z.of_nat (length bs) <= 512 -> in_file (off / 512) ->
  block_post s ip (off / 512) c s1 ip1 x ->
  let s2 := s1 <| mf_img := dupd (mf_img s1) x (splice (Z.to_nat (off mod 512)) bs (vdisk s1 x)) |> in
  58 < x < FSSIZE /\ st_ok s2 /\ wrote mk_s0 (vdisk s) ip off bs (vdisk s2) ip1 /\ tight (vdisk s2) ip1 (Z.max c (off / 512 + 1)).
Proof.
  intros H Ho Hbs Hfit Hbn (H1 & [Hevo Hblk] & Hx & Hx0 & Ht & Hf & _ & Hsame) s2. pose proof (ev_ok _ _ _ _ _ Hevo) as Hok1.
  pose proof (Z.mod_pos_bound off 512 ltac:(lia)) as Hm.
  destruct (file_range s1 ip1 x H1 Hok1) as (Hr & Hrf & _); [split; [done|right; eauto]|].
  assert (forall k, length (vdisk s1 k) = 512%nat) as H512 by (intros; now apply vdisk_len).
  set (y := splice (Z.to_nat (off mod 512)) bs (vdisk s1 x)) in *.
  assert (length y = 512%nat) as Hy by (unfold y; rewrite length_splice; rewrite H512; lia).
  assert (vdisk s2 = dupd (vdisk s1) x y) as E2 by (apply vdisk_write; lia). subst x.
  pose proof (put_evo mksb (vdisk s1) ip1 (off / 512) y Hok1 (vdisk_meta _ H1) Hbn Hx0) as Hput.
  split; [done|]. split; [apply (st_ok_write s1 s2 _ _ H1 eq_refl); [simpl; pose proof (so_free _ H1); lia|simpl; lia|done]|].
  split; [|apply tight_put; [done|lia|lia|eauto|done]].
  constructor; change (k_sb mk_s0) with mksb; rewrite ?E2.
  - now apply (evo_trans _ _ mk_layout _ _ (vdisk s1) ip1).
  - intros z Hz. rewrite (put_fbyte mksb (vdisk s1) ip1 (off / 512) y Hok1 Hbn Hx0 (Z.to_nat (off mod 512)) bs z H512 eq_refl ltac:(lia) Hz).
    assert (off / 512 * 512 + Z.of_nat (Z.to_nat (off mod 512)) = off) as -> by div_lia.
    destruct (bool_decide _); [done|]. unfold fbyte. change (MAXFILE * BSIZE) with 71680 in Hz. unfold BSIZE. rewrite Hblk; [done|].
    unfold in_file. change MAXFILE with 140. div_lia.
  - unfold BSIZE. intros k _ A1 A2. assert (k = off / 512) as -> by div_lia. now rewrite (put_slot mksb).
  - unfold BSIZE. intros Hsl. apply Hsame, Hsl; [lia|]. destruct bs; [done|]. simpl length. div_lia.
Qed.

Lemma cost_mono a b : a <= b -> cost a <= cost b.
Proof. unfold cost. intros H. destruct (Z.ltb_spec NDIRECT a), (Z.ltb_spec NDIRECT b); lia. Qed.

Lemma nb_mono a b : a <= b -> nb a <= nb b.
Proof. intros H. unfold nb. apply Z.div_le_mono; lia. Qed.

Lemma wrote_app0 D ip off bs1 D1 ip1 bs2 D2 ip2 : 0 <= off -> off + Z.of_nat (length (bs1 ++ bs2)) <= MAXFILE * BSIZE ->
  bs1 <> [] -> bs2 = [] \/ (off + Z.of_nat (length bs1)) mod BSIZE = 0 ->
  wrote mk_s0 D ip off bs1 D1 ip1 -> wrote mk_s0 D1 ip1 (off + Z.of_nat (length bs1)) bs2 D2 ip2 -> wrote mk_s0 D ip off (bs1 ++ bs2) D2 ip2.
Proof. apply (wrote_app mk_s0 2 mk_layout 0 [] 0 0 [zero_inode]); simpl; lia. Qed.

Lemma wrote_nil0 D ip off : file_ok mksb D ip -> meta_used mksb D -> wrote mk_s0 D ip off [] D ip.
Proof. apply (wrote_nil mk_s0 0 [] 0 0 [zero_inode]); simpl; lia. Qed.

Lemma wp_iappend_loop fuel : forall s ip off p (Q : inode * Z -> mkst -> Prop), st_ok s -> file_ok mksb (vdisk s) ip -> tight (vdisk s) ip (nb off) ->
  0 <= off -> off + Z.of_nat (length p) <= MAXFILE * BSIZE -> (length p <= fuel)%nat ->
  mf_freeblock s + (cost (nb (off + Z.of_nat (length p))) - cost (nb off)) <= FSSIZE ->
  (forall s' ip', st_ok s' -> wrote mk_s0 (vdisk s) ip off p (vdisk s') ip' -> tight (vdisk s') ip' (nb (off + Z.of_nat (length p))) ->
     mf_freeblock s' = mf_freeblock s + (cost (nb (off + Z.of_nat (length p))) - cost (nb off)) -> mf_freeinode s' = mf_freeinode s ->
     Q (ip', off + Z.of_nat (length p)) s') ->
  wp (iappend_loop fuel ip off p) Q s.
Proof.
  change (MAXFILE * BSIZE) with 71680.
  induction fuel as [|fuel IH]; intros s ip off p Q H Hok Ht Ho Hmax Hfu Hroom HQ.
  - destruct p; [|simpl in Hfu; lia]. cbn [iappend_loop]. wp_steps. simpl length in HQ. rewrite Z.add_0_r in HQ.
    apply HQ; [done|apply wrote_nil0; [done|now apply vdisk_meta]|done|lia|done].
  - destruct (decide (p = [])) as [->|Hp].
    { cbn [iappend_loop]. wp_steps. simpl length in HQ. rewrite Z.add_0_r in HQ.
      apply HQ; [done|apply wrote_nil0; [done|now apply vdisk_meta]|done|lia|done]. }
    assert (0 < length p)%nat as Hlp by (destruct p; [done|simpl; lia]).
    set (fbn := off / 512). pose proof (Z.mod_pos_bound off 512 ltac:(lia)) as Hm.
    assert (off = fbn * 512 + off mod 512) as Hoff by (unfold fbn; div_lia).
    set (m := Z.min (Z.of_nat (length p)) ((fbn + 1) * 512 - off)). assert (0 < m <= Z.of_nat (length p)) as Hm0 by lia.
    assert (0 <= fbn < 140) as Hb by (unfold fbn; div_lia).
    assert (nb (off + m) = fbn + 1 /\ nb off <= fbn + 1 /\ fbn <= nb off) as (N1 & N2 & N3) by (unfold nb; div_lia).
    assert (cost (fbn + 1) <= cost (nb (off + Z.of_nat (length p)))) as Hcm by (rewrite <- N1; apply cost_mono, nb_mono; lia).
    assert (length (take (Z.to_nat m) p) = Z.to_nat m) as Hlm by (rewrite length_take; lia).
    replace (iappend_loop (S fuel) ip off p) with
      (assert (fbn <? MAXFILE) ;; '(din, x) ← file_block ip fbn; buf ← rsect x;
       wsect x (splice (Z.to_nat (off - fbn * BSIZE)) (take (Z.to_nat m) p) buf) ;; iappend_loop fuel din (u32 (off + m)) (drop (Z.to_nat m) p))
      by (destruct p; [done|reflexivity]).
    unfold assert. rewrite (proj2 (Z.ltb_lt fbn MAXFILE)) by (change MAXFILE with 140; lia). wp_steps.
    apply (wp_file_block s ip fbn (nb off)); [done|done|split; change MAXFILE with 140; lia|lia|change MAXFILE with 140; lia|done| |].
    { replace (Z.max (nb off) (fbn + 1)) with (fbn + 1) by lia. lia. }
    intros s1 ip1 x Hpost. pose proof Hpost as (H1 & _ & _ & _ & _ & Hf1 & Hi1 & _).
    destruct (block_written s ip off (take (Z.to_nat m) p) (nb off) s1 ip1 x H Ho) as (Hx & H2 & Hw & Ht2).
    { intros E. rewrite E in Hlm. simpl in Hlm. lia. }
    { rewrite Hlm. lia. }
    { split; change MAXFILE with 140; unfold fbn in *; lia. }
    { exact Hpost. }
    wp_steps. apply wp_rsect; [done|lia|lia|]. unfold wsect. wp_steps. replace (off - fbn * BSIZE) with (off mod 512) by (unfold BSIZE; lia).
    set (s2 := s1 <| mf_img := _ |>) in *. replace (Z.max (nb off) (off / 512 + 1)) with (nb (off + m)) in Ht2 by (fold fbn; lia).
    replace (Z.max (nb off) (fbn + 1)) with (fbn + 1) in Hf1 by lia. rewrite u32_small by lia.
    apply IH; [done|apply (ev_ok _ _ _ _ _ (wr_evo _ _ _ _ _ _ _ Hw))|done|lia| | | |].
    all: rewrite ?length_drop; replace (Z.of_nat (length p - Z.to_nat m)) with (Z.of_nat (length p) - m) by lia;
      replace (off + m + (Z.of_nat (length p) - m)) with (off + Z.of_nat (length p)) by lia.
    + lia.
    + lia.
    + change (mf_freeblock s2) with (mf_freeblock s1). rewrite Hf1, N1. lia.
    + intros s3 ip3 H3 Hw3 Ht3 Hf3 Hi3. apply HQ; [done| |done| |change (mf_freeinode s2) with (mf_freeinode s1) in Hi3; congruence].
      * rewrite <- (take_drop (Z.to_nat m) p). apply (wrote_app0 _ _ _ _ (vdisk s2) ip1); rewrite ?take_drop, ?Hlm, ?Z2Nat.id by lia; auto.
        -- intros E. rewrite E in Hlm. simpl in Hlm. lia.
        -- destruct (decide (m = Z.of_nat (length p))) as [Em|Em]; [left; apply drop_ge; lia|right]. unfold BSIZE. 
           replace (off + m) with ((fbn + 1) * 512) by lia. apply Z.mod_mul. lia.
      * change (mf_freeblock s2) with (mf_freeblock s1) in Hf3. rewrite Hf3, Hf1, N1. lia.
Qed.

(** ** Files of the image *)

(** The inode as rinode reads it. *)
Definition on_disk (s : mkst) (inum : Z) (ip : inode) : Prop :=
  decode_dinode (vdisk s (IBLOCK inum mksb)) (dinode_off inum) (blank inum) = ip.

(** Inode [inum] is the file [ip] with the contents [c]; beyond them the file reads as zeros. *)
Record img_file (s : mkst) (inum : Z) (ip : inode) (c : list Z) : Prop := {
  gf_disk : on_disk s inum ip;
  gf_inv : file_inv mksb (vdisk s) ip;
  gf_tight : tight (vdisk s) ip (nb (Z.of_nat (length c)));
  gf_size : i_size ip = Z.of_nat (length c);
  gf_byte : forall y, 0 <= y < MAXFILE * BSIZE -> fbyte (vdisk s) ip y = default 0 (c !! Z.to_nat y)
}.

(** What a struct dinode does not hold is as in a fresh copy. *)
Definition bare (inum : Z) (ip : inode) : Prop :=
  ip = (blank inum) <| i_type := i_type ip |> <| i_major := i_major ip |> <| i_minor := i_minor ip |>
         <| i_nlink := i_nlink ip |> <| i_size := i_size ip |> <| i_addrs := i_addrs ip |>.

Lemma on_disk_bare s inum ip : on_disk s inum ip -> bare inum ip.
Proof. unfold on_disk, bare. intros <-. reflexivity. Qed.

Lemma bare_inum inum ip : bare inum ip -> i_inum ip = inum /\ i_dev ip = 1.
Proof. intros ->. split; reflexivity. Qed.

Lemma bare_update inum ip a n : bare inum ip -> bare inum (ip <| i_addrs := a |> <| i_size := n |>).
Proof. unfold bare. intros E. rewrite E at 1. reflexivity. Qed.

Lemma rd_slice n d d' off k : slice off 64 d = slice off 64 d' -> (k + n <= 64)%nat -> slice (off + k) n d = slice (off + k) n d'.
Proof.
  intros E Hk. apply list_eq. intros j. rewrite !lookup_slice. case_decide as Hj; [|done].
  pose proof (f_equal (fun l => l !! (k + j)%nat) E) as Ej. cbv beta in Ej. rewrite !lookup_slice, !decide_True in Ej by lia.
  now rewrite <- !Nat.add_assoc.
Qed.

Lemma decode_slice d d' off b : slice off 64 d = slice off 64 d' -> decode_dinode d off b = decode_dinode d' off b.
Proof.
  intros E. unfold decode_dinode, rd16, rd32. assert (slice off 2 d = slice off 2 d') as E0.
  { rewrite <- (Nat.add_0_r off). apply (rd_slice 2); [done|lia]. }
  rewrite E0, !(rd_slice _ d d' off _ E) by lia. f_equal. apply list_fmap_ext. intros j k Hk. apply lookup_seq in Hk as [-> Hj].
  change (Z.to_nat (NDIRECT + 1)) with 13%nat in Hj. now rewrite <- Nat.add_assoc, (rd_slice 4 d d' off _ E) by lia.
Qed.

Lemma decode_decode d off b : decode_dinode d off (decode_dinode d off b) = decode_dinode d off b.
Proof. unfold decode_dinode. cbn [setf]. reflexivity. Qed.

Lemma on_disk_synced s inum ip : on_disk s inum ip -> synced mksb (vdisk s) ip.
Proof.
  intros Hd. destruct (bare_inum inum ip (on_disk_bare _ _ _ Hd)) as [Hi _]. unfold synced. rewrite Hi. unfold on_disk in Hd. rewrite <- Hd at 1. now rewrite decode_decode.
Qed.

(** ** Files that are not written *)

Section other.
Context (s s' : mkst) (ip : inode).
Hypothesis Hok : file_ok mksb (vdisk s) ip.
Hypothesis Hag : forall k, owned (vdisk s) ip k -> vdisk s' k = vdisk s k.

Lemma other_slot bn : slot (vdisk s') ip bn = slot (vdisk s) ip bn.
Proof.
  unfold slot. destruct (bn <? NDIRECT); [done|]. destruct (Z.eqb_spec (ind ip) 0) as [|Hi]; [done|]. rewrite Hag; [done|]. split; [done|now left].
Qed.

Lemma other_owned k : owned (vdisk s') ip k <-> owned (vdisk s) ip k.
Proof. unfold owned. do 2 f_equiv. apply exist_proper. intros bn. now rewrite other_slot. Qed.

Lemma other_fbyte y : 0 <= y < MAXFILE * BSIZE -> fbyte (vdisk s') ip y = fbyte (vdisk s) ip y.
Proof.
  change (MAXFILE * BSIZE) with 71680. intros Hy. unfold fbyte, fblk. rewrite other_slot.
  destruct (Z.eqb_spec (slot (vdisk s) ip (y / BSIZE)) 0) as [|Hs]; [done|]. rewrite Hag; [done|]. split; [done|right].
  exists (y / BSIZE). split; [|done]. unfold in_file, BSIZE. change MAXFILE with 140. div_lia.
Qed.

Lemma other_file_ok : (forall k, 0 <= k < FSSIZE -> used mksb (vdisk s) k -> used mksb (vdisk s') k) -> file_ok mksb (vdisk s') ip.
Proof.
  intros Hu. constructor; try apply Hok.
  - intros Hi. destruct (fo_ind _ _ _ Hok Hi) as [A B]. split; [done|]. apply Hu; [|done]. apply (data_range _ _ mk_layout) in A. lia.
  - intros bn Hbn. rewrite other_slot. intros Hs. destruct (fo_slot _ _ _ Hok bn Hbn Hs) as (A & B & C). split; [done|]. split; [|done].
    apply Hu; [|done]. apply (data_range _ _ mk_layout) in A. lia.
  - intros a b Ha Hb. rewrite !other_slot. now apply (fo_inj _ _ _ Hok).
Qed.

Lemma other_img_file inum c : img_file s inum ip c -> (forall k, 0 <= k < FSSIZE -> used mksb (vdisk s) k -> used mksb (vdisk s') k) ->
  slice (dinode_off inum) 64 (vdisk s' (IBLOCK inum mksb)) = slice (dinode_off inum) 64 (vdisk s (IBLOCK inum mksb)) -> img_file s' inum ip c.
Proof.
  intros [G1 [I1 [I2 I3] I4 I5 I6 I7] [T1 T2] G4 G5] Hu Hs. assert (on_disk s' inum ip) as Hd by (unfold on_disk in *; now rewrite (decode_slice _ _ _ _ Hs)).
  constructor; [done| |split; [|done]|done|].
  - constructor; [now apply other_file_ok| |now apply (on_disk_synced _ inum)|done|done|done]. split; [done|]. intros bn. rewrite other_slot. apply I3.
  - intros bn. rewrite other_slot. apply T1.
  - intros y Hy. rewrite other_fbyte by done. now apply G5.
Qed.
End other.

(** ** The image *)

Definition total (fs : list (inode * list Z)) : Z := foldr (fun f a => cost (nb (Z.of_nat (length f.2))) + a) 0 fs.

(** The files [fs] have the inode numbers from 1 on; no two share a block. *)
Definition sb_block : list Z := splice 0 (encode_superblock mksb) zero_block.

Record image_ok (s : mkst) (fs : list (inode * list Z)) : Prop := {
  io_st : st_ok s;
  io_num : mf_freeinode s = Z.of_nat (length fs) + 1;
  io_file : forall i f, fs !! i = Some f -> img_file s (Z.of_nat i + 1) f.1 f.2;
  io_disj : forall i j f g k, i <> j -> fs !! i = Some f -> fs !! j = Some g -> owned (vdisk s) f.1 k -> ~ owned (vdisk s) g.1 k;
  io_free : mf_freeblock s = nmeta + total fs;
  io_boot : forall k, 0 <= k < 32 -> vdisk s k = if k =? 1 then sb_block else zero_block
}.

Lemma total_insert fs i f g : fs !! i = Some f ->
  total (<[i := g]> fs) = total fs + (cost (nb (Z.of_nat (length g.2))) - cost (nb (Z.of_nat (length f.2)))).
Proof.
  revert i. induction fs as [|x fs IH]; intros [|i] E; simpl in E; try done; cbn [total foldr insert list_insert].
  - injection E as ->. lia.
  - change (foldr _ 0 (<[i := g]> fs)) with (total (<[i := g]> fs)). change (foldr _ 0 fs) with (total fs). rewrite (IH _ E). lia.
Qed.

Lemma total_app fs gs : total (fs ++ gs) = total fs + total gs.
Proof. unfold total. induction fs as [|x fs IH]; [done|]. cbn [app foldr]. rewrite IH. lia. Qed.

Lemma mk_iblock inum : 0 <= inum < 200 -> 32 <= IBLOCK inum mksb < 58 /\ IBLOCK inum mksb = inum / 8 + 32.
Proof.
  intros H. destruct (iblock_range mksb 2 mk_layout inum) as [A B]; [rewrite mksb_eq; exact H|]. rewrite mksb_eq in *. cbn [sb_inodestart sb_bmapstart] in *.
  change IPB with 8 in A. split; [exact B|exact A].
Qed.

(** Different inodes in one block. *)
Lemma dinode_off_other a b : a <> b -> 0 <= a < 200 -> 0 <= b < 200 -> IBLOCK a mksb = IBLOCK b mksb ->
  (dinode_off a + 64 <= dinode_off b \/ dinode_off b + 64 <= dinode_off a)%nat.
Proof.
  intros Hne Ha Hb E. destruct (mk_iblock a Ha) as [_ Ea]. destruct (mk_iblock b Hb) as [_ Eb]. unfold dinode_off. change IPB with 8.
  pose proof (Z.mod_pos_bound a 8 ltac:(lia)). pose proof (Z.mod_pos_bound b 8 ltac:(lia)).
  assert (a mod 8 <> b mod 8) by (intros E8; apply Hne; rewrite (Z.div_mod a 8), (Z.div_mod b 8) by lia; lia). lia.
Qed.

Lemma wp_rinode s inum ip (Q : inode -> mkst -> Prop) : st_ok s -> 0 <= inum < 200 -> on_disk s inum ip -> Q ip s -> wp (rinode inum) Q s.
Proof.
  intros H Hi Hd HQ. destruct (mk_iblock inum Hi) as [Hb _]. unfold rinode. wp_steps. apply wp_rsect; [done|unfold FSSIZE; lia|lia|]. wp_steps.
  unfold on_disk in Hd. now rewrite Hd.
Qed.

(** The state after winode. *)
Definition inode_written (s : mkst) (inum : Z) (ip : inode) : mkst :=
  s <| mf_img := dupd (mf_img s) (IBLOCK inum mksb) (splice (dinode_off inum) (encode_dinode ip) (vdisk s (IBLOCK inum mksb))) |>.

Lemma wp_winode s inum ip (Q : unit -> mkst -> Prop) : st_ok s -> 0 <= inum < 200 -> Q tt (inode_written s inum ip) -> wp (winode inum ip) Q s.
Proof.
  intros H Hi HQ. destruct (mk_iblock inum Hi) as [Hb _]. unfold winode. wp_steps. apply wp_rsect; [done|unfold FSSIZE; lia|lia|].
  unfold wsect. wp_steps. exact HQ.
Qed.

Section inode_written.
Context (s : mkst) (inum : Z) (ip : inode).
Hypothesis H : st_ok s.
Hypothesis Hi : 0 <= inum < 200.
Hypothesis Hfit : inode_fits ip.

Lemma inode_written_disk : vdisk (inode_written s inum ip) =
  dupd (vdisk s) (IBLOCK inum mksb) (splice (dinode_off inum) (encode_dinode ip) (vdisk s (IBLOCK inum mksb))).
Proof using Hi. destruct (mk_iblock inum Hi) as [Hb _]. apply vdisk_write; unfold FSSIZE; lia. Qed.

Lemma inode_written_fits : (dinode_off inum + length (encode_dinode ip) <= length (vdisk s (IBLOCK inum mksb)))%nat.
Proof using H Hfit. rewrite length_encode_dinode by apply Hfit. rewrite vdisk_len by done. apply dinode_off_bound. Qed.

Lemma inode_written_ok : st_ok (inode_written s inum ip).
Proof using H Hi Hfit.
  destruct (mk_iblock inum Hi) as [Hb _]. pose proof (so_free _ H) as Hf. change nmeta with 59 in Hf.
  apply (st_ok_write s (inode_written s inum ip) _ _ H eq_refl); [simpl; lia|simpl; lia|].
  rewrite length_splice; [now apply vdisk_len|apply inode_written_fits].
Qed.

Lemma inode_written_here : bare inum ip -> on_disk (inode_written s inum ip) inum ip.
Proof using H Hi Hfit.
  intros Hb. unfold on_disk. rewrite inode_written_disk, dupd_eq. rewrite decode_encode_dinode; [now symmetry|done|].
  rewrite vdisk_len by done. apply dinode_off_bound.
Qed.

Lemma inode_written_other j : 0 <= j < 200 -> j <> inum ->
  slice (dinode_off j) 64 (vdisk (inode_written s inum ip) (IBLOCK j mksb)) = slice (dinode_off j) 64 (vdisk s (IBLOCK j mksb)).
Proof using H Hi Hfit.
  intros Hj Hne. rewrite inode_written_disk. destruct (decide (IBLOCK j mksb = IBLOCK inum mksb)) as [E|E]; [|now rewrite dupd_ne].
  rewrite E, dupd_eq. apply slice_splice_other; [apply inode_written_fits|]. rewrite length_encode_dinode by apply Hfit.
  pose proof (dinode_off_other j inum Hne Hj Hi E). lia.
Qed.

Lemma inode_written_data k : 58 <= k -> vdisk (inode_written s inum ip) k = vdisk s k.
Proof using Hi. intros Hk. destruct (mk_iblock inum Hi) as [Hb _]. rewrite inode_written_disk. apply dupd_ne. lia. Qed.
End inode_written.

(** ** Appending to a file of the image *)

Section append.
Context (s : mkst) (fs : list (inode * list Z)) (i : nat) (ip : inode) (c p : list Z) (s1 : mkst) (ip1 : inode).
Hypothesis Him : image_ok s fs.
Hypothesis Hfs : fs !! i = Some (ip, c).
Hypothesis Hn : (length fs < 200)%nat.
Hypothesis Hp : p <> [].
Hypothesis Hmax : Z.of_nat (length c) + Z.of_nat (length p) <= MAXFILE * BSIZE.
Hypothesis H1 : st_ok s1.
Hypothesis Hw : wrote mk_s0 (vdisk s) ip (Z.of_nat (length c)) p (vdisk s1) ip1.
Hypothesis Ht1 : tight (vdisk s1) ip1 (nb (Z.of_nat (length c) + Z.of_nat (length p))).
Abbreviation inum := (Z.of_nat i + 1).
Abbreviation ip2 := (ip1 <| i_size := Z.of_nat (length c) + Z.of_nat (length p) |>).
Abbreviation s2 := (inode_written s1 inum ip2).

Lemma app_file : img_file s inum ip c.
Proof. exact (io_file _ _ Him i _ Hfs). Qed.

Lemma app_inum : 0 <= inum < 200.
Proof. pose proof (lookup_lt_Some _ _ _ Hfs). lia. Qed.

Lemma app_evo : evo mksb (vdisk s) ip (vdisk s1) ip1.
Proof. exact (wr_evo _ _ _ _ _ _ _ Hw). Qed.

Lemma app_bare : bare inum ip2.
Proof.
  rewrite (ev_inode _ _ _ _ _ app_evo). apply bare_update. apply (on_disk_bare s), (gf_disk _ _ _ _ app_file).
Qed.

Lemma app_fits : inode_fits ip2.
Proof.
  apply (written_fits mk_s0 2 mk_layout (vdisk s) ip (Z.of_nat (length c)) p (vdisk s1) ip1); [apply (gf_inv _ _ _ _ app_file)| |exact Hmax|exact Hw].
  rewrite (gf_size _ _ _ _ app_file). lia.
Qed.

Lemma app_ok : file_ok mksb (vdisk s2) ip2.
Proof.
  rewrite inode_written_disk by apply app_inum. apply (meta_file_ok _ _ mk_layout (vdisk s1) ip1); [apply app_evo|done|].
  destruct (mk_iblock _ app_inum). rewrite mksb_eq. cbn [sb_bmapstart]. rewrite <- mksb_eq. lia.
Qed.

Lemma app_slot bn : slot (vdisk s2) ip2 bn = slot (vdisk s1) ip1 bn.
Proof.
  rewrite inode_written_disk by apply app_inum. apply (meta_slot _ _ mk_layout (vdisk s1) ip1); [apply app_evo|done|].
  destruct (mk_iblock _ app_inum). rewrite mksb_eq. cbn [sb_bmapstart]. rewrite <- mksb_eq. lia.
Qed.

Lemma app_fbyte y : 0 <= y < MAXFILE * BSIZE -> fbyte (vdisk s2) ip2 y = fbyte (vdisk s1) ip1 y.
Proof.
  intros Hy. rewrite inode_written_disk by apply app_inum. apply (meta_fbyte _ _ mk_layout (vdisk s1) ip1); [apply app_evo|done| |done].
  destruct (mk_iblock _ app_inum). rewrite mksb_eq. cbn [sb_bmapstart]. rewrite <- mksb_eq. lia.
Qed.

Lemma app_owned k : owned (vdisk s2) ip2 k <-> owned (vdisk s1) ip1 k.
Proof. unfold owned. change (ind ip2) with (ind ip1). do 2 f_equiv. apply exist_proper. intros bn. now rewrite app_slot. Qed.

Lemma app_holes : no_holes (vdisk s2) ip2.
Proof.
  rewrite inode_written_disk by apply app_inum. pose proof app_file as F. pose proof (io_st _ _ Him) as H.
  destruct (bare_inum _ _ app_bare) as [Ei _].
  pose proof (written_holes mk_s0 2 mk_layout (vdisk s) ip (Z.of_nat (length c)) p (vdisk s1) ip1 (gf_inv _ _ _ _ F) (vdisk_meta _ H)) as W.
  rewrite (gf_size _ _ _ _ F) in W. unfold put_inode in W. rewrite Ei in W. change (k_sb mk_s0) with mksb in W. apply W; [lia|exact Hmax|exact Hp|exact Hw|].
  destruct p; [done|simpl; lia].
Qed.

Lemma app_img_file : img_file s2 inum ip2 (c ++ p).
Proof.
  pose proof app_file as F. pose proof (inode_written_here s1 inum ip2 H1 app_inum app_fits app_bare) as Hd.
  assert (Z.of_nat (length (c ++ p)) = Z.of_nat (length c) + Z.of_nat (length p)) as El by (rewrite length_app; lia).
  destruct (bare_inum _ _ app_bare) as [Ei _]. change (MAXFILE * BSIZE) with 71680 in *. constructor; rewrite ?El; [exact Hd| | |done|].
  - constructor; [apply app_ok|apply app_holes|now apply (on_disk_synced _ inum)|apply app_fits| |].
    + rewrite Ei, mksb_eq. exact app_inum.
    + destruct (gf_inv _ _ _ _ F). rewrite (ev_inode _ _ _ _ _ app_evo). done.
  - destruct Ht1 as [T1 T2]. split; [|exact T2]. intros bn Hb. rewrite app_slot. now apply T1.
  - intros y Hy. rewrite app_fbyte by done. rewrite (wr_byte _ _ _ _ _ _ _ Hw) by done. case_bool_decide as Hc.
    + rewrite lookup_app_r by lia. do 2 f_equal. lia.
    + rewrite (gf_byte _ _ _ _ F) by done. destruct (decide (y < Z.of_nat (length c))) as [Hy1|Hy1]; [now rewrite lookup_app_l by lia|].
      rewrite !lookup_ge_None_2; [done|rewrite length_app; lia|lia].
Qed.

Hypothesis Hfb : mf_freeblock s1 = mf_freeblock s + (cost (nb (Z.of_nat (length c) + Z.of_nat (length p))) - cost (nb (Z.of_nat (length c)))).
Hypothesis Hfi : mf_freeinode s1 = mf_freeinode s.

Lemma app_free : mf_freeblock s <= mf_freeblock s1.
Proof. rewrite Hfb. pose proof (cost_mono (nb (Z.of_nat (length c))) (nb (Z.of_nat (length c) + Z.of_nat (length p)))) as E. pose proof (nb_mono (Z.of_nat (length c)) (Z.of_nat (length c) + Z.of_nat (length p))). lia. Qed.

Lemma app_used k : 0 <= k < FSSIZE -> used mksb (vdisk s) k -> used mksb (vdisk s2) k.
Proof.
  intros Hk Hu. pose proof app_free. apply (vdisk_used s) in Hu; [|apply Him|done].
  apply vdisk_used; [now apply inode_written_ok; [|apply app_inum|apply app_fits]|done|simpl; lia].
Qed.

Section other.
Context (j : nat) (f : inode * list Z).
Hypothesis Hj : fs !! j = Some f.
Hypothesis Hne : j <> i.

Lemma app_other_file : img_file s (Z.of_nat j + 1) f.1 f.2.
Proof. exact (io_file _ _ Him j f Hj). Qed.

Lemma app_agree k : owned (vdisk s) f.1 k -> vdisk s2 k = vdisk s k.
Proof.
  intros Ho. pose proof (io_st _ _ Him) as H. destruct (file_range s f.1 k H (fv_ok _ _ _ (gf_inv _ _ _ _ app_other_file)) Ho) as (Hr & _ & _ & Hu).
  rewrite inode_written_data by (apply app_inum || lia). apply (ev_frame _ _ _ _ _ app_evo); [lia|done|rewrite mksb_eq; cbn [sb_bmapstart]; lia|].
  intros Ho'. exact (io_disj _ _ Him j i f (ip, c) k Hne Hj Hfs Ho Ho').
Qed.

Lemma app_other : img_file s2 (Z.of_nat j + 1) f.1 f.2.
Proof.
  pose proof (io_st _ _ Him) as H. pose proof (lookup_lt_Some _ _ _ Hj). assert (0 <= Z.of_nat j + 1 < 200) as Hjn by lia.
  apply (other_img_file s); [apply app_other_file|exact app_agree|apply app_other_file|exact app_used|].
  rewrite inode_written_other; [|done|apply app_inum|apply app_fits|done|lia]. f_equal. destruct (mk_iblock _ Hjn) as [Hb _].
  apply (ev_frame _ _ _ _ _ app_evo); [unfold FSSIZE; lia| |rewrite mksb_eq at 2; cbn [sb_bmapstart]; lia|].
  - pose proof (so_free _ H) as Hf. change nmeta with 59 in Hf. apply vdisk_used; [done|unfold FSSIZE; lia|lia].
  - intros Ho. destruct (file_range s ip _ H (fv_ok _ _ _ (gf_inv _ _ _ _ app_file)) Ho) as (Hr & _). lia.
Qed.

Lemma app_disjoint k : owned (vdisk s2) ip2 k -> ~ owned (vdisk s2) f.1 k.
Proof.
  intros Ho Hx. pose proof (io_st _ _ Him) as H. apply (other_owned s s2 f.1 app_agree) in Hx. apply app_owned in Ho.
  destruct (file_range s f.1 k H (fv_ok _ _ _ (gf_inv _ _ _ _ app_other_file)) Hx) as (_ & _ & _ & Hu).
  apply (evo_owned _ _ _ _ _ _ app_evo Hu) in Ho. exact (io_disj _ _ Him j i f (ip, c) k Hne Hj Hfs Hx Ho).
Qed.
End other.

Lemma app_image : image_ok s2 (<[i := (ip2, c ++ p)]> fs).
Proof.
  pose proof (io_st _ _ Him) as H. pose proof (lookup_lt_Some _ _ _ Hfs) as Hlt.
  assert (forall j f, <[i := (ip2, c ++ p)]> fs !! j = Some f -> (j = i /\ f = (ip2, c ++ p)) \/ (j <> i /\ fs !! j = Some f)) as Hin.
  { intros j f E. destruct (decide (j = i)) as [->|Hne]; [left|right; now rewrite list_lookup_insert_ne in E].
    rewrite list_lookup_insert_eq in E by done. now injection E as <-. }
  constructor.
  - apply inode_written_ok; [done|apply app_inum|apply app_fits].
  - rewrite length_insert. change (mf_freeinode s2) with (mf_freeinode s1). rewrite Hfi. apply Him.
  - intros j f E. destruct (Hin j f E) as [[-> ->]|[Hne E']]; [exact app_img_file|now apply app_other].
  - intros j j' f g k Hne E E' Ho Ho'. destruct (Hin j f E) as [[-> ->]|[Hj Ej]], (Hin j' g E') as [[-> ->]|[Hj' Ej']]; try done.
    + exact (app_disjoint j' g Ej' Hj' k Ho Ho').
    + exact (app_disjoint j f Ej Hj k Ho' Ho).
    + apply (other_owned s s2 f.1 (app_agree j f Ej Hj)) in Ho. apply (other_owned s s2 g.1 (app_agree j' g Ej' Hj')) in Ho'.
      exact (io_disj _ _ Him j j' f g k Hne Ej Ej' Ho Ho').
  - rewrite (total_insert _ _ (ip, c)) by done. cbn [snd]. rewrite length_app, Nat2Z.inj_add. change (mf_freeblock s2) with (mf_freeblock s1).
    rewrite Hfb, (io_free _ _ Him). lia.
  - intros k Hk. rewrite <- (io_boot _ _ Him k Hk). destruct (mk_iblock _ app_inum) as [Hb _].
    rewrite inode_written_disk by apply app_inum. rewrite dupd_ne by lia.
    apply (ev_frame _ _ _ _ _ app_evo); [unfold FSSIZE; lia| |rewrite mksb_eq; cbn [sb_bmapstart]; lia|].
    + apply (vdisk_meta _ H). rewrite mksb_eq. cbn [sb_bmapstart]. lia.
    + intros Ho. destruct (file_range s ip _ H (fv_ok _ _ _ (gf_inv _ _ _ _ app_file)) Ho) as (Hr & _). lia.
Qed.
End append.

Lemma wp_iappend s fs i ip c p (Q : unit -> mkst -> Prop) : image_ok s fs -> fs !! i = Some (ip, c) -> (length fs < 200)%nat -> p <> [] ->
  Z.of_nat (length c) + Z.of_nat (length p) <= MAXFILE * BSIZE ->
  nmeta + total (<[i := (ip, c ++ p)]> fs) <= FSSIZE ->
  (forall s' ip', image_ok s' (<[i := (ip', c ++ p)]> fs) -> i_type ip' = i_type ip -> Q tt s') -> wp (iappend (Z.of_nat i + 1) p) Q s.
Proof.
  intros Him Hfs Hn Hp Hmax Hroom HQ. pose proof (io_st _ _ Him) as H. pose proof (io_file _ _ Him i _ Hfs) as F. cbn [fst snd] in F.
  pose proof (lookup_lt_Some _ _ _ Hfs). assert (0 <= Z.of_nat i + 1 < 200) as Hin by lia.
  rewrite (total_insert _ _ (ip, c)) in Hroom by done. cbn [snd] in Hroom. rewrite length_app, Nat2Z.inj_add in Hroom.
  unfold iappend. wp_steps. apply (wp_rinode s _ ip); [done|done|apply F|]. wp_steps. rewrite (gf_size _ _ _ _ F).
  change (MAXFILE * BSIZE) with 71680 in *. rewrite xint_id by (unfold is_u32; lia).
  apply wp_iappend_loop; [done|apply (gf_inv _ _ _ _ F)|apply F|lia|exact Hmax|lia|rewrite (io_free _ _ Him); lia|].
  intros s1 ip1 H1 Hw Ht Hf Hi. wp_steps. rewrite xint_id by (unfold is_u32; lia). apply wp_winode; [done|done|].
  eapply HQ; [now apply (app_image s fs i ip c p s1 ip1)|].
  cbn. rewrite (ev_inode _ _ _ _ _ (wr_evo _ _ _ _ _ _ _ Hw)). done.
Qed.

(** ** A new inode *)

Definition new_inode (inum type : Z) : inode := (blank inum) <| i_type := type |> <| i_nlink := 1 |> <| i_size := 0 |>.

Lemma new_slot D inum type bn : in_file bn -> slot D (new_inode inum type) bn = 0 /\ ind (new_inode inum type) = 0.
Proof.
  intros Hb. assert (forall j, default 0 (replicate 13 0 !! j) = 0) as E.
  { intros j. destruct (replicate 13 0 !! j) eqn:E; [|done]. now apply lookup_replicate in E as [-> _]. }
  unfold slot, ind, new_inode. cbn [i_addrs setf set_i_type set_i_nlink set_i_size blank zero_inode set_i_dev set_i_inum].
  rewrite !E. destruct (bn <? NDIRECT); done.
Qed.

Lemma new_owned D inum type k : ~ owned D (new_inode inum type) k.
Proof. intros [H0 [->|(bn & Hb & <-)]]; apply H0; [now apply (new_slot D inum type 0)|now apply new_slot]. Qed.

Lemma new_img_file s inum type : st_ok s -> 0 <= inum < 200 -> type = T_DIR \/ type = T_FILE -> on_disk s inum (new_inode inum type) -> img_file s inum (new_inode inum type) [].
Proof.
  intros H Hi Ht Hd. constructor; [done| | |done|].
  - constructor; [| |now apply (on_disk_synced _ inum)| |rewrite mksb_eq; exact Hi|destruct Ht as [-> | ->]; discriminate].
    + constructor; [done|done|intros E; now destruct E; apply (new_slot (vdisk s) inum type 0)| |].
      * intros bn Hb E. now destruct (new_slot (vdisk s) inum type bn Hb).
      * intros a b Ha Hb E. now destruct (new_slot (vdisk s) inum type a Ha).
    + split; [done|]. intros bn B1 B2. simpl in B2. unfold BSIZE in B2. lia.
    + constructor; cbn; try (unfold is_s16, is_u32; lia); [destruct Ht as [-> | ->]; unfold is_s16, T_DIR, T_FILE; lia|].
      repeat constructor; unfold is_u32; lia.
  - split.
    + intros bn Hb. destruct (new_slot (vdisk s) inum type bn Hb) as [-> _]. change (nb (Z.of_nat (length (@nil Z)))) with 0. unfold in_file in Hb. lia.
    + destruct (new_slot (vdisk s) inum type 0) as [_ ->]; [done|]. change (nb (Z.of_nat (length (@nil Z)))) with 0. unfold NDIRECT. lia.
  - change (MAXFILE * BSIZE) with 71680. intros y Hy. unfold fbyte, fblk.
    destruct (new_slot (vdisk s) inum type (y / BSIZE)) as [-> _]; [unfold in_file, BSIZE; change MAXFILE with 140; div_lia|].
    cbn [Z.eqb]. rewrite lookup_nil. destruct (zero_block !! _) eqn:E; [|done]. unfold zero_block in E. now apply lookup_replicate in E as [-> _].
Qed.

Lemma wp_ialloc s fs type (Q : Z -> mkst -> Prop) : image_ok s fs -> (length fs < 199)%nat -> type = T_DIR \/ type = T_FILE ->
  (forall s', image_ok s' (fs ++ [(new_inode (Z.of_nat (length fs) + 1) type, [])]) -> Q (Z.of_nat (length fs) + 1) s') -> wp (ialloc type) Q s.
Proof.
  intros Him Hn Ht HQ. unfold ialloc. wp_steps. rewrite (io_num _ _ Him). set (inum := Z.of_nat (length fs) + 1) in *. rewrite u32_small by lia.
  set (s1 := s <| mf_freeinode := _ |>). assert (st_ok s1) as H1 by (destruct Him as [[]]; now constructor). assert (0 <= inum < 200) as Hi by lia.
  assert (inode_fits (new_inode inum type)) as Hfit.
  { constructor; cbn; try (unfold is_s16, is_u32; lia); [destruct Ht as [-> | ->]; unfold is_s16, T_DIR, T_FILE; lia|]. repeat constructor; unfold is_u32; lia. }
  change (xint 0) with 0. change (xshort 1) with 1. replace (xshort type) with type by now destruct Ht as [-> | ->]. fold (new_inode inum type).
  apply wp_winode; [done|done|]. wp_steps. apply HQ. set (s2 := inode_written s1 inum (new_inode inum type)).
  assert (st_ok s2) as H2 by now apply inode_written_ok.
  assert (forall i f, fs !! i = Some f -> forall k, owned (vdisk s) f.1 k -> vdisk s2 k = vdisk s k) as Hag.
  { intros i f E k Ho. destruct (file_range s f.1 k (io_st _ _ Him) (fv_ok _ _ _ (gf_inv _ _ _ _ (io_file _ _ Him i f E))) Ho) as (Hr & _).
    unfold s2. rewrite inode_written_data by (done || lia). reflexivity. }
  assert (forall i f, (fs ++ [(new_inode inum type, [])]) !! i = Some f -> (i = length fs /\ f = (new_inode inum type, [])) \/ (fs !! i = Some f)) as Hin.
  { intros i f [E|[Hl E]]%lookup_app_Some; [now right|left]. destruct (i - length fs)%nat as [|n] eqn:Ei; [|discriminate E]. injection E as <-. split; [lia|done]. }
  constructor; [done| | | | |].
  - rewrite length_app. simpl. lia.
  - intros i f E. destruct (Hin i f E) as [[-> ->]|Ei].
    + apply new_img_file; [done|done|done|]. apply inode_written_here; [done|done|done|reflexivity].
    + pose proof (io_file _ _ Him i f Ei) as F. pose proof (lookup_lt_Some _ _ _ Ei).
      apply (other_img_file s); [apply (gf_inv _ _ _ _ F)|now apply (Hag i f)|exact F| |].
      * intros k Hk Hu. apply (vdisk_used s) in Hu; [|apply Him|done]. now apply vdisk_used.
      * unfold s2. rewrite inode_written_other by (done || lia). reflexivity.
  - intros i j f g k Hne Ef Eg Ho Ho'. destruct (Hin i f Ef) as [[-> ->]|Ei], (Hin j g Eg) as [[-> ->]|Ej]; try done; try now apply new_owned in Ho.
    + now apply new_owned in Ho'.
    + apply (other_owned s s2 f.1 (Hag i f Ei)) in Ho. apply (other_owned s s2 g.1 (Hag j g Ej)) in Ho'. exact (io_disj _ _ Him i j f g k Hne Ei Ej Ho Ho').
  - rewrite total_app. change (mf_freeblock s2) with (mf_freeblock s). rewrite (io_free _ _ Him). change (total [(new_inode inum type, [])]) with 0. lia.
  - intros k Hk. rewrite <- (io_boot _ _ Him k Hk). destruct (mk_iblock _ Hi) as [Hb _]. unfold s2. rewrite inode_written_disk by done.
    rewrite dupd_ne by lia. reflexivity.
Qed.
