(* ===== verification/Mkfsok.v ===== *)
(** mkfs builds the file system it is asked for: the superblock, the free map, the root directory
    with its entries and every file with its contents. *)

From stdpp Require Import base list gmap sets fin_sets strings numbers.
From Stdlib Require Import ZArith Lia FunctionalExtensionality.
From S2P Require Import Prelude Bytes CString Itoa Kstate Bio Bcache Log Inode Fsblock Fsdata Fsfile Fsinode Mkfs Mkimage.
Open Scope Z_scope.

(** What the successive reads deliver, up to the end of the file. *)
Fixpoint file_contents (reads : list (list Z)) : list Z :=
  match reads with
  | [] => []
  | buf :: reads' => if decide (buf = []) then [] else buf ++ file_contents reads'
  end.

Abbreviation arg := (list Z * option (list (list Z)))%type.
Definition arg_contents (a : arg) : list Z := file_contents (default [] a.2).

Definition root_entries (args : list arg) : list Z :=
  dirent 1 (str ".") ++ dirent 1 (str "..") ++ concat (imap (fun k a => dirent (Z.of_nat k + 2) (image_name a.1)) args).

(** The blocks the root directory and the files take. *)
Definition blocks_needed (args : list arg) : Z :=
  cost (nb (Z.of_nat (length (root_entries args)))) + foldr (fun a n => cost (nb (Z.of_nat (length (arg_contents a)))) + n) 0 args.

Record args_ok (args : list arg) : Prop := {
  ao_count : (length args <= 198)%nat;
  ao_names : forall a, a ∈ args -> (47 ∉ a.1) /\ a.2 <> None;
  ao_sizes : forall a, a ∈ args -> Z.of_nat (length (arg_contents a)) <= MAXFILE * BSIZE;
  ao_room : nmeta + blocks_needed args <= FSSIZE
}.

Lemma length_strncpy0 n : forall t, length (strncpy t n) = n.
Proof. induction n as [|n IH]; intros [|c t]; cbn [strncpy]; try done; [now rewrite length_replicate|]. destruct (c =? 0); [now rewrite length_replicate|]. simpl. now rewrite IH. Qed.

Lemma length_dirent inum name : length (dirent inum name) = 16%nat.
Proof. unfold dirent. rewrite length_app, length_strncpy0. reflexivity. Qed.

Lemma root_entries_snoc args a : root_entries (args ++ [a]) = root_entries args ++ dirent (Z.of_nat (length args) + 2) (image_name a.1).
Proof.
  unfold root_entries. rewrite imap_app, concat_app. cbn [imap concat]. unfold compose. rewrite Nat.add_0_r, app_nil_r, !app_assoc. reflexivity.
Qed.

Lemma length_root_entries args : length (root_entries args) = (32 + 16 * length args)%nat.
Proof.
  induction args as [|a args IH] using rev_ind; [reflexivity|]. rewrite root_entries_snoc, !length_app, length_dirent, IH. simpl. lia.
Qed.

Lemma cost_nonneg n : 0 <= n -> 0 <= cost (nb n).
Proof. intros H. change 0 with (cost (nb 0)). now apply cost_mono, nb_mono. Qed.

Definition conts_cost (args : list arg) : Z := foldr (fun a n => cost (nb (Z.of_nat (length (arg_contents a)))) + n) 0 args.

Lemma conts_cost_app a b : conts_cost (a ++ b) = conts_cost a + conts_cost b.
Proof. unfold conts_cost. induction a as [|x a IH]; [done|]. cbn [app foldr]. rewrite IH. lia. Qed.

Lemma conts_cost_nonneg a : 0 <= conts_cost a.
Proof. unfold conts_cost. induction a as [|x a IH]; [done|]. cbn [foldr]. pose proof (cost_nonneg (Z.of_nat (length (arg_contents x)))). lia. Qed.

Lemma total_cons f fs : total (f :: fs) = cost (nb (Z.of_nat (length f.2))) + total fs.
Proof. reflexivity. Qed.

(** ** Copying one file *)

Lemma wp_copy_in reads : forall s fs i ip c (Q : unit -> mkst -> Prop), image_ok s fs -> fs !! i = Some (ip, c) -> (length fs < 200)%nat ->
  Z.of_nat (length c) + Z.of_nat (length (file_contents reads)) <= MAXFILE * BSIZE -> nmeta + total (<[i := (ip, c ++ file_contents reads)]> fs) <= FSSIZE ->
  (forall s' ip', image_ok s' (<[i := (ip', c ++ file_contents reads)]> fs) -> i_type ip' = i_type ip -> Q tt s') -> wp (copy_in (Z.of_nat i + 1) reads) Q s.
Proof.
  induction reads as [|buf reads IH]; intros s fs i ip c Q Him Hfs Hn Hmax Hroom HQ; cbn [copy_in file_contents] in *.
  - wp_steps. rewrite app_nil_r in HQ. apply (HQ s ip); [|done]. now rewrite list_insert_id.
  - destruct (decide (buf = [])) as [->|Hb].
    { wp_steps. rewrite app_nil_r in HQ. apply (HQ s ip); [|done]. now rewrite list_insert_id. }
    wp_steps. rewrite length_app in Hmax. rewrite (total_insert _ _ (ip, c)) in Hroom by done. cbn [snd] in Hroom. rewrite !length_app in Hroom.
    pose proof (lookup_lt_Some _ _ _ Hfs).
    apply (wp_iappend s fs i ip c); [done|done|done|done|lia| |].
    { rewrite (total_insert _ _ (ip, c)) by done. cbn [snd]. rewrite length_app.
      pose proof (cost_mono (nb (Z.of_nat (length c + length buf))) (nb (Z.of_nat (length c + (length buf + length (file_contents reads)))))) as E.
      pose proof (nb_mono (Z.of_nat (length c + length buf)) (Z.of_nat (length c + (length buf + length (file_contents reads))))). lia. }
    intros s1 ip1 Him1 Ht1. apply (IH s1 (<[i := (ip1, c ++ buf)]> fs) i ip1 (c ++ buf)); [done|now apply list_lookup_insert_eq|now rewrite length_insert|rewrite length_app; lia| |].
    + rewrite list_insert_insert_eq, (total_insert _ _ (ip, c)) by done. cbn [snd]. rewrite !length_app. 
      replace (length c + length buf + length (file_contents reads))%nat with (length c + (length buf + length (file_contents reads)))%nat by lia. lia.
    + intros s2 ip2 Him2 Ht2. rewrite list_insert_insert_eq, <- app_assoc in Him2. apply (HQ s2 ip2); [done|congruence].
Qed.

(** ** The arguments *)

(** The image once the files [done] are copied. *)
Definition copied (s : mkst) (done : list arg) : Prop :=
  exists root ips, image_ok s ((root, root_entries done) :: zip ips (arg_contents <$> done)) /\ length ips = length done /\
    i_type root = T_DIR /\ Forall (fun ip => i_type ip = T_FILE) ips.

Lemma total_zip ips : forall args : list arg, length ips = length args -> total (zip ips (arg_contents <$> args)) = conts_cost args.
Proof.
  induction ips as [|ip ips IH]; intros [|a args] E; try discriminate E; [done|]. cbn [fmap list_fmap zip zip_with].
  rewrite total_cons. cbn [snd]. rewrite IH by (simpl in E; lia). reflexivity.
Qed.

Lemma needed_prefix all n d rest : all = d ++ rest -> (n <= length (root_entries all))%nat -> nmeta + blocks_needed all <= FSSIZE ->
  nmeta + (cost (nb (Z.of_nat n)) + conts_cost d) <= FSSIZE.
Proof.
  intros -> Hn Hr. unfold blocks_needed in Hr. fold (conts_cost (d ++ rest)) in Hr. rewrite conts_cost_app in Hr. pose proof (conts_cost_nonneg rest).
  pose proof (cost_mono (nb (Z.of_nat n)) (nb (Z.of_nat (length (root_entries (d ++ rest)))))) as E. 
  pose proof (nb_mono (Z.of_nat n) (Z.of_nat (length (root_entries (d ++ rest))))). lia.
Qed.

Lemma wp_add_file all d a rest s (Q : unit -> mkst -> Prop) : args_ok all -> all = d ++ a :: rest -> copied s d ->
  (forall s', copied s' (d ++ [a]) -> Q tt s') -> wp (add_file 1 a) Q s.
Proof.
  intros Hall Eall (root & ips & Him & Hl & Hrt & Hft) HQ. assert (a ∈ all) as Ha by (rewrite Eall; apply elem_of_app; right; left).
  destruct (ao_names _ Hall a Ha) as [Hn1 Hn2]. pose proof (ao_sizes _ Hall a Ha) as Hsz. pose proof (ao_count _ Hall) as Hcnt.
  assert (length all = length d + S (length rest))%nat as Hla by (rewrite Eall, length_app; reflexivity).
  pose proof (length_root_entries all) as Hre. pose proof (length_root_entries d) as Hrd.
  unfold add_file, assert. rewrite bool_decide_eq_true_2 by done. wp_steps. destruct (a.2) as [reads|] eqn:E2; [|done]. wp_steps.
  assert (arg_contents a = file_contents reads) as Ec by (unfold arg_contents; now rewrite E2).
  assert (length (zip ips (arg_contents <$> d)) = length d) as Hz by (rewrite length_zip, length_fmap; lia).
  set (fs := (root, root_entries d) :: zip ips (arg_contents <$> d)) in *. assert (length fs = S (length d)) as Hlf by (unfold fs; simpl; lia).
  apply (wp_ialloc s fs); [done|lia|now right|]. intros s1 Him1. wp_steps. set (inum := Z.of_nat (length fs) + 1) in *.
  assert (inum = Z.of_nat (length d) + 2) as Ei by lia. set (nw := new_inode inum T_FILE) in *.
  change 1 with (Z.of_nat 0 + 1) at 1. pose proof (total_zip ips d Hl) as Hz0.
  apply (wp_iappend s1 (fs ++ [(nw, [])]) 0 root (root_entries d)); [done|done|rewrite length_app; simpl; lia|intros E; now apply (f_equal length) in E; rewrite length_dirent in E|
    rewrite length_dirent, Hrd; change (MAXFILE * BSIZE) with 71680; lia| |].
  { unfold fs. cbn [app insert list_insert]. rewrite total_cons, total_app, Hz0. cbn [snd]. change (total [(nw, [])]) with 0. rewrite Z.add_0_r.
    rewrite length_app, length_dirent. apply (needed_prefix all _ d (a :: rest)); [done|lia|apply Hall]. }
  intros s2 root2 Him2 Ht2. rewrite Ei in Him2. rewrite <- root_entries_snoc in Him2. unfold fs in Him2. cbn [app insert list_insert] in Him2.
  wp_steps. rewrite Ei. replace (Z.of_nat (length d) + 2) with (Z.of_nat (length d + 1) + 1) by lia.
  set (fs2 := _ :: _ ++ _) in Him2. assert (fs2 !! (length d + 1)%nat = Some (nw, [])) as Hnw.
  { unfold fs2. rewrite Nat.add_comm, lookup_cons. cbn [Nat.add]. rewrite lookup_app_r by lia. now rewrite Hz, Nat.sub_diag. }
  assert (forall x, <[(length d + 1)%nat := x]> fs2 = (root2, root_entries (d ++ [a])) :: zip ips (arg_contents <$> d) ++ [x]) as Hins.
  { intros x. unfold fs2. rewrite Nat.add_comm. change ((root2, root_entries (d ++ [a])) :: <[length d := x]> (zip ips (arg_contents <$> d) ++ [(nw, [])]) = (root2, root_entries (d ++ [a])) :: zip ips (arg_contents <$> d) ++ [x]).
    f_equal. rewrite insert_app_r_alt by lia. now rewrite Hz, Nat.sub_diag. }
  apply (wp_copy_in reads s2 fs2 _ nw []); [done|done|unfold fs2; simpl; rewrite length_app; simpl; lia|rewrite <- Ec; simpl; lia| |].
  { rewrite Hins, total_cons, total_app, Hz0. cbn [snd app]. rewrite <- Ec. change (total [(nw, arg_contents a)]) with (conts_cost [a]).
    rewrite <- conts_cost_app. apply (needed_prefix all _ (d ++ [a]) rest); [now rewrite <- app_assoc| |apply Hall].
    rewrite (length_root_entries (d ++ [a])), length_app, Hre. cbn [length]. lia. }
  intros s3 ip3 Him3 Ht3. apply HQ. rewrite Hins in Him3. cbn [app] in Him3. rewrite <- Ec in Him3. exists root2, (ips ++ [ip3]). rewrite fmap_app, zip_with_app by now rewrite length_fmap.
  split; [exact Him3|]. split; [rewrite !length_app; simpl; lia|]. split; [congruence|]. apply Forall_app. split; [done|]. constructor; [|constructor]. rewrite Ht3. reflexivity.
Qed.

Lemma wp_add_files all rest : forall d s (Q : unit -> mkst -> Prop), args_ok all -> all = d ++ rest -> copied s d ->
  (forall s', copied s' all -> Q tt s') -> wp (for_ rest (add_file 1)) Q s.
Proof.
  induction rest as [|a rest IH]; intros d s Q Hall Eall Hd HQ; cbn [for_].
  - wp_steps. apply HQ. now rewrite Eall, app_nil_r.
  - wp_steps. apply (wp_add_file all d a rest); [done|done|done|]. intros s1 H1. apply (IH (d ++ [a])); [done|now rewrite <- app_assoc|done|done].
Qed.

(** ** Start and end *)

Lemma wp_zero_sectors n : forall k s (Q : unit -> mkst -> Prop),
  (forall img, (forall x, Z.of_nat k <= x < Z.of_nat (k + n) -> img x = zero_block) -> (forall x, x < Z.of_nat k -> img x = mf_img s x) -> Q tt (s <| mf_img := img |>)) ->
  wp (for_ (seq k n) (fun i => wsect (Z.of_nat i) zero_block)) Q s.
Proof.
  induction n as [|n IH]; intros k s Q HQ; cbn [seq for_].
  - wp_steps. specialize (HQ (mf_img s)). replace (s <| mf_img := mf_img s |>) with s in HQ by now destruct s. apply HQ; [lia|done].
  - unfold wsect at 1. wp_steps. apply IH. intros img H1 H2. apply (HQ img).
    + intros x Hx. destruct (decide (x = Z.of_nat k)) as [->|Hne]; [|apply H1; lia]. rewrite H2 by lia. apply dupd_eq.
    + intros x Hx. rewrite H2 by lia. apply dupd_ne. lia.
Qed.

Lemma length_sb_block : length sb_block = 512%nat.
Proof. unfold sb_block. rewrite length_splice; [reflexivity|vm_compute; lia]. Qed.

Lemma start_image img : (forall x, 0 <= x < FSSIZE -> img x = zero_block) ->
  image_ok (mk_mkst (dupd img 1 sb_block) 1 nmeta) [].
Proof.
  intros Hz. constructor; try done.
  - constructor; cbn [mf_img mf_freeblock]; [|unfold FSSIZE; change nmeta with 59; lia|].
    + intros k Hk. unfold dupd. case_decide; [apply length_sb_block|now rewrite Hz].
    + intros k Hk. change nmeta with 59 in Hk. rewrite dupd_ne by lia. apply Hz. lia.
  - intros k Hk. rewrite vdisk_img by (unfold FSSIZE; lia). cbn [mf_img]. unfold dupd. destruct (decide (k = 1)) as [->|Hne]; [done|].
    rewrite (proj2 (Z.eqb_neq k 1)) by done. apply Hz. unfold FSSIZE. lia.
Qed.

(** The disk the image is. *)
Definition image (s : mkst) : Z -> list Z := fun k => if decide (0 <= k < FSSIZE) then mf_img s k else zero_block.

Lemma image_balloc s : image (s <| mf_img := dupd (mf_img s) (sb_bmapstart mksb) (bitmap (Z.to_nat (mf_freeblock s))) |>) = vdisk s.
Proof.
  apply functional_extensionality. intros k. unfold image, vdisk, dupd. cbn [mf_img setf set_mf_img]. rewrite mksb_eq. cbn [sb_bmapstart].
  destruct (decide (k = 58)) as [->|Hne]; [now rewrite decide_True|done].
Qed.

(** A file of the disk [D] that the kernel can use, with its contents. *)
Record has_file (D : Z -> list Z) (ip : inode) (inum : Z) (c : list Z) : Prop := {
  hf_inum : i_inum ip = inum;
  hf_type : i_type ip = T_FILE;
  hf_inv : file_inv mksb D ip;
  hf_size : i_size ip = Z.of_nat (length c);
  hf_bytes : fbytes D ip 0 (i_size ip) = c
}.

(** The root directory: its entries, padded with free ones to the end of a block. When the entries
    fill their last block the directory's size takes in a block that is not there. *)
Record has_root (D : Z -> list Z) (ip : inode) (entries : list Z) : Prop := {
  hr_inum : i_inum ip = ROOTINO;
  hr_type : i_type ip = T_DIR;
  hr_ok : file_ok mksb D ip;
  hr_synced : synced mksb D ip;
  hr_size : i_size ip = (Z.of_nat (length entries) / BSIZE + 1) * BSIZE;
  hr_bytes : fbytes D ip 0 (i_size ip) = entries ++ replicate (Z.to_nat (i_size ip) - length entries) 0;
  hr_inv : Z.of_nat (length entries) mod BSIZE <> 0 -> file_inv mksb D ip;
  hr_hole : Z.of_nat (length entries) mod BSIZE = 0 -> slot D ip (Z.of_nat (length entries) / BSIZE) = 0
}.

Lemma fbytes_contents D ip c n : (forall y, 0 <= y < MAXFILE * BSIZE -> fbyte D ip y = default 0 (c !! Z.to_nat y)) ->
  (length c <= n)%nat -> Z.of_nat n <= MAXFILE * BSIZE -> fbytes D ip 0 (Z.of_nat n) = c ++ replicate (n - length c) 0.
Proof.
  intros Hb Hl Hn. apply list_eq. intros k. unfold fbytes. rewrite Nat2Z.id, list_lookup_fmap. destruct (decide (k < n)%nat) as [Hk|Hk].
  - rewrite lookup_seq_lt by done. cbn [fmap option_fmap option_map Nat.add]. rewrite Z.add_0_l, Hb, Nat2Z.id by lia.
    destruct (decide (k < length c)%nat) as [Hc|Hc].
    + rewrite lookup_app_l by done. destruct (lookup_lt_is_Some_2 c k Hc) as [x ->]. done.
    + rewrite lookup_app_r by lia. rewrite lookup_replicate_2 by lia. now rewrite lookup_ge_None_2 by lia.
  - rewrite lookup_seq_ge by lia. rewrite lookup_ge_None_2; [done|]. rewrite length_app, length_replicate. lia.
Qed.

Lemma img_has_file s inum ip c : img_file s inum ip c -> Z.of_nat (length c) <= MAXFILE * BSIZE -> i_type ip = T_FILE -> has_file (vdisk s) ip inum c.
Proof.
  intros F Hm Ht. destruct (bare_inum inum ip (on_disk_bare _ _ _ (gf_disk _ _ _ _ F))) as [Hi _]. constructor; [done|done|exact (gf_inv _ _ _ _ F)|exact (gf_size _ _ _ _ F)|].
  rewrite (gf_size _ _ _ _ F), (fbytes_contents _ _ c); [|exact (gf_byte _ _ _ _ F)|lia|done]. now rewrite Nat.sub_diag, app_nil_r.
Qed.

(** ** The size of the root directory *)

Section root.
Context (s : mkst) (root : inode) (entries : list Z) (fs : list (inode * list Z)).
Hypothesis Him : image_ok s ((root, entries) :: fs).
Hypothesis Hn : (length fs < 199)%nat.
Hypothesis He : Z.of_nat (length entries) + 512 <= MAXFILE * BSIZE.
Hypothesis Hty : i_type root = T_DIR.
Abbreviation size := ((Z.of_nat (length entries) / BSIZE + 1) * BSIZE).
Abbreviation root' := (root <| i_size := size |>).
Abbreviation s' := (inode_written s 1 root').

Lemma root_file : img_file s 1 root entries.
Proof. exact (io_file _ _ Him 0 (root, entries) eq_refl). Qed.

Lemma root_size : Z.of_nat (length entries) < size <= MAXFILE * BSIZE.
Proof. change (MAXFILE * BSIZE) with 71680 in *. unfold BSIZE. div_lia. Qed.

Lemma root_fits : inode_fits root'.
Proof.
  pose proof root_size as Hs. change (MAXFILE * BSIZE) with 71680 in Hs. destruct (fv_fits _ _ _ (gf_inv _ _ _ _ root_file)) as [F1 F2 F3 F4 F5 F6 F7].
  constructor; try done. cbn. unfold is_u32. lia.
Qed.

Lemma root_bare : bare 1 root'.
Proof. pose proof (on_disk_bare _ _ _ (gf_disk _ _ _ _ root_file)) as E. unfold bare in *. rewrite E at 1. reflexivity. Qed.

Lemma root_disk : vdisk s' = dupd (vdisk s) 32 (splice (dinode_off 1) (encode_dinode root') (vdisk s 32)).
Proof. apply (inode_written_disk s 1 root'). lia. Qed.

Lemma root_slot bn : slot (vdisk s') root' bn = slot (vdisk s) root bn.
Proof.
  rewrite root_disk. apply (meta_slot _ _ mk_layout (vdisk s) root); [apply (gf_inv _ _ _ _ root_file)|done|]. rewrite mksb_eq. cbn [sb_bmapstart]. lia.
Qed.

Lemma root_ok : file_ok mksb (vdisk s') root'.
Proof.
  rewrite root_disk. apply (meta_file_ok _ _ mk_layout (vdisk s) root); [apply (gf_inv _ _ _ _ root_file)|done|].
  rewrite mksb_eq at 1. cbn [sb_bmapstart]. lia.
Qed.

Lemma root_fbyte y : 0 <= y < MAXFILE * BSIZE -> fbyte (vdisk s') root' y = default 0 (entries !! Z.to_nat y).
Proof.
  intros Hy. rewrite <- (gf_byte _ _ _ _ root_file y Hy), root_disk.
  apply (meta_fbyte _ _ mk_layout (vdisk s) root); [apply (gf_inv _ _ _ _ root_file)|done| |done]. rewrite mksb_eq. cbn [sb_bmapstart]. lia.
Qed.

Lemma root_done : has_root (vdisk s') root' entries.
Proof.
  pose proof root_size as Hs. destruct (bare_inum 1 root' root_bare) as [Hi Hd].
  pose proof (inode_written_here s 1 root' (io_st _ _ Him) ltac:(lia) root_fits root_bare) as Hdisk.
  pose proof (on_disk_synced _ _ _ Hdisk) as Hsy. pose proof (gf_tight _ _ _ _ root_file) as [T1 _]. change (MAXFILE * BSIZE) with 71680 in *.
  constructor; [done|done|apply root_ok|done|done| | |].
  - pose proof (fbytes_contents (vdisk s') root' entries (Z.to_nat size) root_fbyte ltac:(lia)) as E.
    rewrite Z2Nat.id in E by lia. apply E. change (MAXFILE * BSIZE) with 71680. lia.
  - intros Hm. constructor; [apply root_ok| |done|apply root_fits|rewrite Hi, mksb_eq; cbn; lia|cbn; rewrite Hty; discriminate].
    split; [cbn; change (MAXFILE * BSIZE) with 71680; lia|]. intros bn B1 B2. cbn [i_size setf set_i_size] in B2. rewrite root_slot.
    apply T1; unfold in_file, nb, BSIZE in *; change MAXFILE with 140; div_lia.
  - intros Hm. rewrite root_slot. destruct (decide (slot (vdisk s) root (Z.of_nat (length entries) / BSIZE) = 0)) as [|Hx]; [done|].
    apply T1 in Hx; unfold in_file, nb, BSIZE in *; [exfalso|change MAXFILE with 140]; div_lia.
Qed.

Lemma root_others i f : fs !! i = Some f -> img_file s' (Z.of_nat i + 2) f.1 f.2.
Proof.
  intros E. pose proof (io_file _ _ Him (S i) f E) as F. replace (Z.of_nat (S i) + 1) with (Z.of_nat i + 2) in F by lia. pose proof (lookup_lt_Some _ _ _ E).
  apply (other_img_file s); [apply (gf_inv _ _ _ _ F)| |exact F| |].
  - intros k Ho. destruct (file_range s f.1 k (io_st _ _ Him) (fv_ok _ _ _ (gf_inv _ _ _ _ F)) Ho) as (Hr & _). apply inode_written_data; lia.
  - intros k Hk Hu. apply (vdisk_used s) in Hu; [|apply Him|done].
    apply vdisk_used; [apply inode_written_ok; [apply Him|lia|apply root_fits]|done|exact Hu].
  - apply inode_written_other; [apply Him|lia|apply root_fits|lia|lia].
Qed.
End root.

Lemma decode_sb_block : decode_superblock sb_block = mksb.
Proof. vm_compute. reflexivity. Qed.

Lemma wp_mkfs_start args (Q : unit -> mkst -> Prop) : args_ok args ->
  (forall s, copied s args -> wp (fix_root 1 ;; used ← gets mf_freeblock; balloc used) Q s) -> wp (mkfs args) Q mkfs_start.
Proof.
  intros Ha HQ. pose proof (ao_room _ Ha) as Hroom. unfold mkfs. wp_steps. apply wp_zero_sectors. intros img Hz _. unfold wsect. wp_steps.
  fold sb_block. change (xint (2 + nlog)) with 32.
  assert (image_ok (mk_mkst (dupd img 1 sb_block) 1 nmeta) []) as H0 by (apply start_image; intros x Hx; apply Hz; unfold FSSIZE in *; lia).
  apply (wp_ialloc _ []); [exact H0|simpl; lia|now left|]. intros s1 H1. cbn [length app] in *. change (Z.of_nat 0 + 1) with 1 in *.
  unfold assert. change (1 =? ROOTINO) with true. cbv iota. wp_steps.
  assert (forall n : nat, (n <= 32)%nat -> nmeta + (cost (nb (Z.of_nat n)) + 0) <= FSSIZE) as Hr.
  { intros n Hle. pose proof (needed_prefix args n [] args eq_refl) as E. rewrite length_root_entries in E. apply E; [lia|done]. }
  change 1 with (Z.of_nat 0 + 1) at 1. apply (wp_iappend s1 [(new_inode 1 T_DIR, [])] 0 (new_inode 1 T_DIR) []); [exact H1|done|simpl; lia|discriminate|vm_compute; discriminate| |].
  { cbn [insert list_insert app]. rewrite total_cons. cbn [snd]. rewrite length_dirent. apply Hr. lia. }
  intros s2 ip2 H2 Ht2. cbn [insert list_insert app] in H2. wp_steps. change 1 with (Z.of_nat 0 + 1) at 1.
  apply (wp_iappend s2 [(ip2, dirent 1 (str "."))] 0 ip2 (dirent 1 (str "."))); [exact H2|done|simpl; lia|discriminate|rewrite !length_dirent; vm_compute; discriminate| |].
  { cbn [insert list_insert]. rewrite total_cons. cbn [snd]. rewrite length_app, !length_dirent. apply Hr. lia. }
  intros s3 ip3 H3 Ht3. cbn [insert list_insert] in H3. wp_steps.
  apply (wp_add_files args args []); [done|done| |].
  - exists ip3, []. split; [exact H3|]. split; [done|]. split; [|constructor]. rewrite Ht3, Ht2. reflexivity.
  - intros s4 H4. now apply HQ.
Qed.

(** C3: mkfs builds the file system it is asked for. For any files that fit, the image has the
    superblock that readsb reads, an empty log, and a free map that marks exactly the blocks taken; the
    root directory has an entry for every file, padded to the end of a block (with a block that is not
    allocated, when the entries fill their last one); and every file is there under its inode number, with its
    contents, in the form the kernel's file operations require. *)
Theorem mkfs_correct args : args_ok args ->
  wp (mkfs args) (fun _ s => decode_superblock (image s 1) = mksb /\ layout mksb (sb_logstart mksb) /\ (forall k, 2 <= k < 32 -> image s k = zero_block) /\
    (forall k, 0 <= k < FSSIZE -> (used mksb (image s) k <-> k < nmeta + blocks_needed args)) /\
    (exists root, has_root (image s) root (root_entries args)) /\
    forall i a, args !! i = Some a -> exists ip, has_file (image s) ip (Z.of_nat i + 2) (arg_contents a)) mkfs_start.
Proof.
  intros Ha. apply wp_mkfs_start; [done|]. intros s (root & ips & Him & Hl & Hty & Hft). pose proof (io_st _ _ Him) as H.
  pose proof (ao_count _ Ha) as Hc. pose proof (length_root_entries args) as Hre. set (fs := zip ips (arg_contents <$> args)) in *.
  assert (length fs = length args) as Hlf by (unfold fs; rewrite length_zip, length_fmap; lia).
  assert (length fs < 199)%nat as Hnf by lia.
  assert (Z.of_nat (length (root_entries args)) + 512 <= MAXFILE * BSIZE) as He by (rewrite Hre; change (MAXFILE * BSIZE) with 71680; lia).
  unfold fix_root. wp_steps. apply (wp_rinode s 1 root); [done|lia|exact (gf_disk _ _ _ _ (root_file _ _ _ _ Him))|]. wp_steps.
  pose proof (root_size (root_entries args) fs Hnf He) as Hs. change (MAXFILE * BSIZE) with 71680 in Hs, He.
  rewrite (gf_size _ _ _ _ (root_file _ _ _ _ Him)), (xint_id (Z.of_nat _)), u32_small, xint_id by (unfold is_u32; lia).
  change (MAXFILE * BSIZE) with 71680 in *. set (root' := root <| i_size := _ |>). apply wp_winode; [done|lia|]. wp_steps.
  set (s' := inode_written s 1 root'). assert (mf_freeblock s' = nmeta + blocks_needed args) as Hf.
  { change (mf_freeblock s') with (mf_freeblock s). rewrite (io_free _ _ Him), total_cons. unfold fs. now rewrite total_zip. }
  pose proof (so_free _ H) as Hfr. change (mf_freeblock s) with (mf_freeblock s') in Hfr. unfold balloc, assert.
  rewrite (proj2 (Z.ltb_lt (mf_freeblock s') (BSIZE * 8))) by (unfold FSSIZE in Hfr; change (BSIZE * 8) with 4096; lia). unfold wsect. wp_steps.
  rewrite image_balloc. assert (st_ok s') as H' by (apply inode_written_ok; [done|lia|exact (root_fits s root _ fs Him Hnf He)]).
  assert (forall k, 0 <= k < 32 -> vdisk s' k = if k =? 1 then sb_block else zero_block) as Hboot.
  { intros k Hk. etransitivity; [exact (f_equal (fun D => D k) (root_disk s root (root_entries args) fs Hnf))|]. cbv beta. rewrite dupd_ne by lia. now apply (io_boot _ _ Him). }
  split; [rewrite Hboot by lia; apply decode_sb_block|]. split; [exact mk_layout|].
  split; [intros k Hk; rewrite Hboot by lia; now rewrite (proj2 (Z.eqb_neq k 1)) by lia|].
  split; [intros k Hk; rewrite vdisk_used by done; now rewrite Hf|]. split; [exists root'; exact (root_done s root _ fs Him Hnf He Hty)|].
  intros i a E. destruct (lookup_lt_is_Some_2 ips i) as [ip Ei]; [apply lookup_lt_Some in E; lia|]. exists ip.
  assert (fs !! i = Some (ip, arg_contents a)) as Ef by (unfold fs; rewrite lookup_zip_with, Ei, list_lookup_fmap, E; reflexivity).
  apply img_has_file; [exact (root_others s root _ fs Him Hnf He i _ Ef)|apply (ao_sizes _ Ha), (list_elem_of_lookup_2 _ _ _ E)|].
  exact (Forall_lookup_1 _ _ _ _ Hft Ei).
Qed.

(** Two files, one of them of two sectors. *)
Definition ex_args : list arg := [(str "_cat", Some [replicate 512 7; replicate 3 8]); (str "README", Some [str "xv6"])].

Lemma ex_args_ok : args_ok ex_args.
Proof.
  assert (forall P : arg -> Prop, Forall P ex_args -> forall a, a ∈ ex_args -> P a) as HF by (intros P HP a; now apply list.Forall_forall).
  constructor.
  - apply (bool_decide_unpack _). reflexivity.
  - apply HF. repeat constructor; try discriminate; apply (bool_decide_unpack _); reflexivity.
  - apply HF. repeat constructor; vm_compute; discriminate.
  - vm_compute. discriminate.
Qed.

Lemma mkfs_correct_witness :
  wp (mkfs ex_args) (fun _ s => decode_superblock (image s 1) = mksb /\ layout mksb (sb_logstart mksb) /\ (forall k, 2 <= k < 32 -> image s k = zero_block) /\
    (forall k, 0 <= k < FSSIZE -> (used mksb (image s) k <-> k < nmeta + blocks_needed ex_args)) /\
    (exists root, has_root (image s) root (root_entries ex_args)) /\
    forall i a, ex_args !! i = Some a -> exists ip, has_file (image s) ip (Z.of_nat i + 2) (arg_contents a)) mkfs_start.
Proof. exact (mkfs_correct ex_args ex_args_ok). Defined.
